(* ===== verification/_CoqProject ===== *)
-Q . S2P
Prelude.v
Bytes.v
UrlEncoding.v
Error.v
Misc.v
MiscTheorems.v
Sponge.v
SpongeTheorems.v
UrlTheorems.v
ListSpec.v
ListSeg.v
ListCheck.v
ListCommon.v
ListPtr.v
ListPtrSpec.v
ListXor.v
ListXorSpec.v
ListSim.v
ListTheorems.v
Arena.v
ArenaTheorems.v
Avl.v
AvlTree.v
AvlRot.v
AvlZip.v
AvlBalance.v
AvlErase.v
AvlInsert.v
AvlIter.v
AvlSim.v
AvlTheorems.v
StrMap.v
StrMapTheorems.v
Fiber.v
Sync.v
Select.v
Scheduler.v
Fuel.v
Runtime.v
RuntimeStep.v
RuntimeSched.v
RuntimeSim.v
RuntimeOps.v
RuntimeIo.v
RuntimeLoop.v
RuntimeSpawn.v
RuntimeRun.v
RuntimeMain.v
RuntimeBoot.v
RuntimeWork.v
RuntimeTurn.v
RuntimeExamples.v
RuntimeTheorems.v
Interact.v
Socket.v
TcpServer.v
NetTheorems.v
HttpConstants.v
HttpData.v
HttpRequest.v
HttpResponse.v
HttpServer.v
HttpBody.v
HttpStore.v
HttpResponseSpec.v
HttpQuery.v
HttpExamples.v
HttpCallbacks.v
HttpFrame.v
HttpConnection.v
HttpTheorems.v
HttpServerTheorems.v
FileServer.v
FileIndex.v
FileServerTheorems.v
Signal.v
SignalTheorems.v
Epoll.v
EpollTheorems.v
Context.v
