(* ===== verification/Prelude.v ===== *)
(** * dfk: a verification library for the C core of the dfk web framework

    dfk is a C library for network services: fibers, a cooperative scheduler
    with an event loop, synchronisation objects, and containers written for
    it.  This library translates the C sources under [src/] into executable
    Rocq definitions and proves what makes them correct.

    ** How C is modelled

    A function is a command of the monad [M S] below: from a memory [S] it
    yields a value and a new memory, or a [fault]: a failed assertion, a
    NULL or dangling pointer, undefined behaviour, or [OutOfFuel] where a bound
    on a loop was too small.  Pointers are [Z], NULL is 0; a heap of typed
    objects is a finite map from addresses; a lens ([zoom]) embeds the memory
    of one component in that of another.  [size_t] arithmetic is written
    [to_size] (modulo 2^64).  Bytes obtained from the allocator are in
    [Bytes.bmem], where reading uninitialised or freed bytes is a fault.  The
    allocator is a parameter that satisfies [malloc_ok]: it returns NULL or a
    fresh aligned block.  [wp m s Q] says that [m] from [s] succeeds and ends
    in [Q]; [wpe] also admits the faults of a given set.

    Configuration: 64 bits, DFK_DEBUG off, assertions on, constant-time sizes
    of lists and trees, named fibers; the sizes of stacks and of their guard
    are parameters.  Log messages are left out.  The event loop is chosen when
    the program is built (AUTO takes epoll where it exists); both are modelled,
    and the runtime is proved with the one on select.

    ** Parts

    - lists ([src/src/list.c]): ListSpec is the interface (operations and laws
      over an abstract sequence per list), ListPtr and ListXor the two memory
      layouts, ListCommon what they share, ListCheck the invariant checks;
      ListSeg, ListPtrSpec and ListXorSpec prove the laws; ListSim and
      ListTheorems the refinement for whole programs of operations.
    - AVL trees ([avltree.c]): Avl is the code, AvlTree the trees it represents
      and what insertion and removal do to them, AvlZip, AvlRot, AvlBalance,
      AvlInsert, AvlErase, AvlIter the representation proofs, AvlSim and
      AvlTheorems the refinement of sorted lists, heights and iteration.
    - byte memory and allocation ([malloc.c]): Bytes.
    - percent encoding ([urlencoding.c]): UrlEncoding, UrlTheorems.
    - error codes ([error.c]): Error.  Buffers, numbers, substring search and
      names of events ([misc.c], [strtoll.c], [portable/memmem.c],
      [eventloop.c]): Misc, MiscTheorems.
    - sponges ([sponge.c]): Sponge, SpongeTheorems.  Arenas ([arena.c]): Arena,
      ArenaTheorems, a client of the list interface.  String maps
      ([strmap.c]): StrMap, StrMapTheorems, a client of trees, bytes and
      arenas.
    - the fiber runtime: Fiber ([fiber.c] and the queues of [scheduler.c]), Sync
      ([mutex.c], [cond.c]), Select ([select.c]) and Scheduler
      ([scheduler.c], [dfk_work] of [context.c]).  A fiber's function is a tree
      of calls, or a machine with a state of its own, which need not end
      ([Fiber.code]); [Scheduler.step] performs the next call of the
      fiber that executes, and [run_fibers] runs steps until the scheduler's
      fiber has control.  A call that gives up the processor is split there,
      and the rest of it becomes the fiber's next call.  Local variables of a
      fiber (the element of [dfk__io], the list of [dfk_cond_broadcast]) lie at
      a fixed distance from its object.
    - Runtime, RuntimeStep and RuntimeSched are its abstract specification:
      queues of fibers, owners of mutexes, the step relations [astep] and
      [sstep], the invariant [good].  RuntimeSim ([krep]), RuntimeOps, RuntimeIo,
      RuntimeLoop, RuntimeSpawn, RuntimeRun and RuntimeMain prove that the code
      refines it, RuntimeBoot and RuntimeWork carry this to [dfk_work], Fuel
      says that bounds only decide whether there is a result, RuntimeTurn
      proves that turns end.  RuntimeExamples is a program with two fibers;
      RuntimeTheorems states the results.
    - TCP ([tcp_socket.c], [read.c], [close.c], [make_nonblock.c],
      [tcp_server.c], [dfk_stop] of [context.c]): Socket and TcpServer are
      interaction trees whose events ([netE]) are system calls, calls that give
      up the processor, and accesses to memory that other fibers share.
      Interact is their logic: [holds t s Q] says that every run of [t] in an
      environment makes allowed events only and ends in [Q].  NetTheorems
      states the results.
    - HTTP ([http/*.c]): HttpConstants, HttpData (the memory: arenas, string
      maps, sponges and typed objects over one byte memory), HttpRequest,
      HttpResponse, HttpServer ([protocol.c], [server.c]).  http_parser is a
      record of functions; what it does with a piece of input is a tree of the
      bytes it looks at and the callbacks it makes.  Sockets are reached by
      running an interaction tree against a function that answers its events
      ([interact]), or replaced by sponges as in the tests of the program.
      HttpStore relates arenas, maps and sponges in one memory; HttpBody,
      HttpQuery and HttpResponseSpec prove what reading a body, parsing a
      query and flushing a response do, for any parser that keeps the
      documented behaviour of bodies ([body_law]); HttpCallbacks is about the
      pieces the parser hands over; HttpFrame says what the code leaves
      alone, HttpConnection how often a connection reads and serves.
      HttpExamples has small parsers and memories; HttpTheorems and
      HttpServerTheorems state the results.
    - static files ([middleware/fileserver.c]): FileServer, over the memory of
      HTTP; calls of the file system are events answered by a function on a
      state of the kernel's own ([fs_law] is what it promises).  FileIndex
      proves what the index of a directory is made of, FileServerTheorems
      states the results.
    - signals ([signal.c]): Signal; SignalTheorems states what holds of the
      list of waiting fibers while others enter and leave it too.
    - the event loop on epoll ([epoll.c]): Epoll, a second implementation of
      the interface of Select over the same runtime, with the kernel as in
      FileServer ([epoll_law]); EpollTheorems relates its turns to an abstract
      description (which fiber waits for which descriptor).  The theorems on
      whole runs of the runtime are about Select.
    - [dfk_init] and [dfk_free] of [context.c]: Context, which also is about
      programs from their first statement on ([program_safe]: the context and
      the objects are made in memory where nothing is, then [dfk_work] runs).

    ** Bounds

    Loops take fuel.  The theorems about containers ask for fuel that exceeds
    the length or the size concerned, and then exclude [OutOfFuel].  A step of
    the runtime needs fuel above the number of fibers
    ([fiber_step_refines]); for a whole run no bound exists in general (two
    fibers may postpone for each other for ever), so [program_safe] admits
    [OutOfFuel], [dfk_work_bound] shows that any larger bound gives the same
    result, and [fiber_turn_ends] that no call of the library makes a turn endless:
    the turn of a program ends if the program itself comes, whatever its calls
    return, to its end or to a call that gives up the processor.  The loop of a
    TCP listener is endless by design; its theorems are about all finite parts
    of its runs.  A read of a body needs fuel 2, a query more than its length,
    a response more than its number of headers; [http_keepalive_bound] bounds
    the turns of a connection.  The index of a directory needs fuel above the
    number of its entries.  The loop on epoll starts again whenever a signal
    interrupts it, so [epoll_turn_refines] admits [OutOfFuel] for the whole
    loop, and excludes it for a turn.

    ** Not modelled

    Log messages and the DFK_DEBUG-only code; the default callbacks of a
    context ([malloc], [free], [realloc] of the C library: the allocator is a
    parameter); the disposition of SIGPIPE; handlers of signals that interrupt
    the program between two statements; the functions that return the size of
    a structure; the C++ bindings, samples, tests and tools; libcoro and
    http_parser, which are third-party code. *)

From stdpp Require Export base gmap list fin_maps.
From Stdlib Require Export ZArith Lia.

#[export] Set Default Goal Selector "!".

Open Scope Z_scope.

(** ** Machine integers *)

(** [size_t] and [uintptr_t] are 64 bits wide on the modelled platform. *)
Definition SIZE_BITS : Z := 64.
Definition SIZE_MOD : Z := 2 ^ SIZE_BITS.

(** Wrap-around of a value stored into a [size_t]. *)
Definition to_size (z : Z) : Z := z mod SIZE_MOD.

(** Value of an [int] expression stored into a [signed char]. *)
Definition to_schar (z : Z) : Z := (z + 128) mod 256 - 128.

Lemma to_size_small z : 0 <= z < SIZE_MOD -> to_size z = z.
Proof. intros H. unfold to_size. by apply Z.mod_small. Qed.

Lemma to_size_range z : 0 <= to_size z < SIZE_MOD.
Proof. unfold to_size. apply Z.mod_pos_bound. reflexivity. Qed.

Lemma to_schar_small z : -128 <= z < 128 -> to_schar z = z.
Proof. intros H. unfold to_schar. rewrite Z.mod_small; lia. Qed.

(** ** Faults and the state-and-error monad *)

(** What makes a run of the C code go wrong.  [Uninit] is the use of storage
    that was not written since its allocation, [Undefined] a call that violates
    the contract of a library function; [AssertFailed] is a failing
    [assert]; [OutOfFuel] is the verdict on a loop that exceeds the bound the
    model gives it, and is proved unreachable wherever termination is
    claimed. *)
Inductive fault :=
| NullDeref
| WildPtr
| Uninit
| Undefined
| AssertFailed
| OutOfFuel.

Inductive result (A : Type) :=
| Ok (a : A)
| Err (f : fault).
Arguments Ok {A} a.
Arguments Err {A} f.

#[export] Instance fault_eq_dec : EqDecision fault.
Proof. solve_decision. Defined.

Definition M (S A : Type) : Type := S -> result (A * S).

#[export] Instance M_ret {S} : MRet (M S) := fun A a s => Ok (a, s).

#[export] Instance M_bind {S} : MBind (M S) := fun A B k m s =>
  match m s with
  | Ok (a, s') => k a s'
  | Err f => Err f
  end.

Definition fail {S A} (f : fault) : M S A := fun _ => Err f.
Definition get {S} : M S S := fun s => Ok (s, s).
Definition gets {S A} (f : S -> A) : M S A := fun s => Ok (f s, s).
Definition modify {S} (f : S -> S) : M S unit := fun s => Ok (tt, f s).

(** C's [assert]; [NDEBUG] is not defined in the modelled build. *)
Definition c_assert {S} (b : bool) : M S unit :=
  if b then mret tt else fail AssertFailed.

(** A statement executed under a condition. *)
Definition when {S} (b : bool) (m : M S unit) : M S unit :=
  if b then m else mret tt.

(** A loop whose body either continues with a new loop state or leaves with a
    result; [fuel] bounds the number of iterations. *)
Fixpoint loop {S A B} (fuel : nat) (body : A -> M S (A + B)) (a : A) : M S B :=
  match fuel with
  | O => fail OutOfFuel
  | Datatypes.S n =>
      r ← body a;
      match r with
      | inl a' => loop n body a'
      | inr b => mret b
      end
  end.

(** ** Heaps of C objects

    A component's state holds one finite map per kind of object, from the
    address of the object to its value.  [heap_of] selects such a map. *)
Record heap_of (S V : Type) := Heap {
  hget : S -> gmap Z V;
  hset : gmap Z V -> S -> S
}.
Arguments Heap {S V} _ _.
Arguments hget {S V} _ _.
Arguments hset {S V} _ _ _.

(** [*p]: NULL and addresses that hold no object of the kind are faults. *)
Definition deref {S V} (H : heap_of S V) (p : Z) : M S V := fun s =>
  if decide (p = 0) then Err NullDeref else
  match hget H s !! p with
  | Some v => Ok (v, s)
  | None => Err WildPtr
  end.

(** [p->field = ..]: the object at [p] is replaced by [f] of it. *)
Definition update {S V} (H : heap_of S V) (p : Z) (f : V -> V) : M S unit := fun s =>
  if decide (p = 0) then Err NullDeref else
  match hget H s !! p with
  | Some v => Ok (tt, hset H (<[p := f v]> (hget H s)) s)
  | None => Err WildPtr
  end.

(** The storage of the object at [p] receives a value whatever it held. *)
Definition store {S V} (H : heap_of S V) (p : Z) (v : V) : M S unit := fun s =>
  if decide (p = 0) then Err NullDeref else Ok (tt, hset H (<[p := v]> (hget H s)) s).

(** End of the lifetime of the object at [p]. *)
Definition dispose {S V} (H : heap_of S V) (p : Z) : M S unit := fun s =>
  match hget H s !! p with
  | Some _ => Ok (tt, hset H (delete p (hget H s)) s)
  | None => Err WildPtr
  end.

(** A command on a part of the state. *)
Record lens (S T : Type) := Lens { lget : S -> T; lset : T -> S -> S }.
Arguments Lens {S T} _ _.
Arguments lget {S T} _ _.
Arguments lset {S T} _ _ _.

Definition zoom {S T A} (L : lens S T) (m : M T A) : M S A := fun s =>
  match m (lget L s) with
  | Ok (a, t) => Ok (a, lset L t s)
  | Err f => Err f
  end.

(** Pointers as truth values. *)
Definition isnull (p : Z) : bool := p =? 0.
Definition nonnull (p : Z) : bool := negb (p =? 0).

(** ** Total-correctness postconditions

    [wp m s Q]: run from [s], [m] does not fault, does not run out of fuel,
    and its value and final state satisfy [Q]. *)
Definition wp {S A} (m : M S A) (s : S) (Q : A -> S -> Prop) : Prop :=
  match m s with
  | Ok (a, s') => Q a s'
  | Err _ => False
  end.

Section wp_rules.
Context {S : Type}.
Implicit Types s : S.

Lemma wp_ret {A} (a : A) s (Q : A -> S -> Prop) : Q a s -> wp (mret a) s Q.
Proof. done. Qed.

Lemma wp_bind {A B} (m : M S A) (k : A -> M S B) s Q :
  wp m s (fun a s' => wp (k a) s' Q) -> wp (m ≫= k) s Q.
Proof. unfold wp, mbind, M_bind. by destruct (m s) as [[a s']|f]. Qed.

Lemma wp_get s (Q : S -> S -> Prop) : Q s s -> wp get s Q.
Proof. done. Qed.

Lemma wp_gets {A} (f : S -> A) s (Q : A -> S -> Prop) : Q (f s) s -> wp (gets f) s Q.
Proof. done. Qed.

Lemma wp_modify (f : S -> S) s (Q : unit -> S -> Prop) : Q tt (f s) -> wp (modify f) s Q.
Proof. done. Qed.

Lemma wp_assert b s (Q : unit -> S -> Prop) : b = true -> Q tt s -> wp (c_assert b) s Q.
Proof. by intros ->. Qed.

Lemma wp_when b (m : M S unit) s (Q : unit -> S -> Prop) :
  (b = true -> wp m s Q) -> (b = false -> Q tt s) -> wp (when b m) s Q.
Proof. destruct b; [auto|]. intros _ H. by apply H. Qed.

Lemma wp_mono {A} (m : M S A) s (P Q : A -> S -> Prop) :
  wp m s P -> (forall a s', P a s' -> Q a s') -> wp m s Q.
Proof. unfold wp. destruct (m s) as [[a s']|f]; naive_solver. Qed.

Lemma wp_deref {V} (H : heap_of S V) p v s (Q : V -> S -> Prop) :
  p <> 0 -> hget H s !! p = Some v -> Q v s -> wp (deref H p) s Q.
Proof. intros Hp Hl HQ. unfold wp, deref. by rewrite decide_False, Hl. Qed.

Lemma wp_update {V} (H : heap_of S V) p (f : V -> V) v s (Q : unit -> S -> Prop) :
  p <> 0 -> hget H s !! p = Some v ->
  Q tt (hset H (<[p := f v]> (hget H s)) s) -> wp (update H p f) s Q.
Proof. intros Hp Hl HQ. unfold wp, update. by rewrite decide_False, Hl. Qed.

Lemma wp_store {V} (H : heap_of S V) p (v : V) s (Q : unit -> S -> Prop) :
  p <> 0 -> Q tt (hset H (<[p := v]> (hget H s)) s) -> wp (store H p v) s Q.
Proof. intros Hp HQ. unfold wp, store. by rewrite decide_False. Qed.

Lemma wp_dispose {V} (H : heap_of S V) p (v : V) s (Q : unit -> S -> Prop) :
  hget H s !! p = Some v ->
  Q tt (hset H (delete p (hget H s)) s) -> wp (dispose H p) s Q.
Proof. intros Hl HQ. unfold wp, dispose. by rewrite Hl. Qed.

Lemma wp_zoom {T A} (L : lens S T) (m : M T A) s (Q : A -> S -> Prop) :
  wp m (lget L s) (fun a t => Q a (lset L t s)) -> wp (zoom L m) s Q.
Proof. unfold wp, zoom. by destruct (m (lget L s)) as [[a t]|f]. Qed.

(** Loops: an invariant indexed by the number of iterations left. *)
Lemma wp_loop {A B} (I : nat -> A -> S -> Prop) (body : A -> M S (A + B))
    (Q : B -> S -> Prop) fuel n a s :
  (forall n a s, I n a s ->
    wp (body a) s (fun r s' =>
      match r with
      | inl a' => exists n', (n' < n)%nat /\ I n' a' s'
      | inr b => Q b s'
      end)) ->
  I n a s -> (n < fuel)%nat -> wp (loop fuel body a) s Q.
Proof.
  intros Hbody. revert n a s.
  induction fuel as [|fuel IH]; intros n a s HI Hn; [lia|].
  apply wp_bind. eapply wp_mono; [by apply (Hbody n)|].
  intros [a'|b] s'; cbn.
  - intros (n' & Hlt & HI'). apply (IH n'); [done|lia].
  - done.
Qed.

(** A loop, turn by turn. *)
Lemma wp_loop_step {A B} n (body : A -> M S (A + B)) a s (Q : B -> S -> Prop) :
  wp (body a) s (fun r s' => match r with inl a' => wp (loop n body a') s' Q | inr b => Q b s' end) ->
  wp (loop (Datatypes.S n) body a) s Q.
Proof.
  intros H. cbn [loop]. apply wp_bind. eapply wp_mono; [exact H|]. intros [a'|b] s'; [done|]. intros. by apply wp_ret.
Qed.
Lemma loop_turn {A B} n (body : A -> M S (A + B)) a a' s s' :
  body a s = Ok (inl a', s') -> loop (Datatypes.S n) body a s = loop n body a' s'.
Proof. intros H. cbn [loop]. unfold mbind, M_bind. by rewrite H. Qed.
Lemma loop_ends {A B} n (body : A -> M S (A + B)) a b s s' :
  body a s = Ok (inr b, s') -> loop (Datatypes.S n) body a s = Ok (b, s').
Proof. intros H. cbn [loop]. unfold mbind, M_bind. by rewrite H. Qed.
Lemma loop_fails {A B} n (body : A -> M S (A + B)) a f s :
  body a s = Err f -> loop (Datatypes.S n) body a s = Err f.
Proof. intros H. cbn [loop]. unfold mbind, M_bind. by rewrite H. Qed.

(** [wp] determines the outcome of the run. *)
Lemma wp_run {A} (m : M S A) s (Q : A -> S -> Prop) :
  wp m s Q <-> exists a s', m s = Ok (a, s') /\ Q a s'.
Proof.
  unfold wp. destruct (m s) as [[a s']|f].
  - split; [intros HQ; by exists a, s'|]. by intros (? & ? & [= <- <-] & ?).
  - split; [done|]. by intros (? & ? & ? & ?).
Qed.

(** A proof may use that the run is the one at hand. *)
Lemma wp_ran {A} (m : M S A) s (Q : A -> S -> Prop) :
  wp m s (fun a s' => m s = Ok (a, s') -> Q a s') -> wp m s Q.
Proof. unfold wp. destruct (m s) as [[a s']|f]; [|done]. intros H. by apply H. Qed.
End wp_rules.

(** ** Partial-correctness postconditions

    [wlp m s Q]: if the run of [m] from [s] succeeds, its value and final state
    satisfy [Q].  Used for code that may fault. *)
Definition wlp {S A} (m : M S A) (s : S) (Q : A -> S -> Prop) : Prop :=
  forall a s', m s = Ok (a, s') -> Q a s'.

Section wlp_rules.
Context {S : Type}.
Implicit Types s : S.

Lemma wlp_ret {A} (a : A) s (Q : A -> S -> Prop) : Q a s -> wlp (mret a) s Q.
Proof. by intros HQ ? ? [= <- <-]. Qed.

Lemma wlp_bind {A B} (m : M S A) (k : A -> M S B) s Q :
  wlp m s (fun a s' => wlp (k a) s' Q) -> wlp (m ≫= k) s Q.
Proof.
  unfold wlp, mbind, M_bind. intros Hm b s' Hr.
  destruct (m s) as [[a s1]|f] eqn:E; [|done]. by eapply Hm.
Qed.

Lemma wlp_gets {A} (f : S -> A) s (Q : A -> S -> Prop) : Q (f s) s -> wlp (gets f) s Q.
Proof. by intros HQ ? ? [= <- <-]. Qed.

Lemma wlp_assert b s (Q : unit -> S -> Prop) : (b = true -> Q tt s) -> wlp (c_assert b) s Q.
Proof. destruct b; [|done]. intros HQ ? ? [= <- <-]. by apply HQ. Qed.

Lemma wlp_mono {A} (m : M S A) s (P Q : A -> S -> Prop) :
  wlp m s P -> (forall a s', P a s' -> Q a s') -> wlp m s Q.
Proof. unfold wlp. naive_solver. Qed.

Lemma wlp_when b (m : M S unit) s (Q : unit -> S -> Prop) :
  (b = true -> wlp m s Q) -> (b = false -> Q tt s) -> wlp (when b m) s Q.
Proof. destruct b; [auto|]. intros _ HQ. by apply wlp_ret, HQ. Qed.

Lemma wlp_deref {V} (H : heap_of S V) p s (Q : V -> S -> Prop) :
  (forall v, hget H s !! p = Some v -> Q v s) -> wlp (deref H p) s Q.
Proof.
  intros HQ a s'. unfold deref. case_decide; [done|].
  destruct (hget H s !! p) eqn:E; [|done]. intros [= <- <-]. by apply HQ.
Qed.

Lemma wlp_update {V} (H : heap_of S V) p (f : V -> V) s (Q : unit -> S -> Prop) :
  (forall v, hget H s !! p = Some v -> Q tt (hset H (<[p := f v]> (hget H s)) s)) ->
  wlp (update H p f) s Q.
Proof.
  intros HQ a s'. unfold update. case_decide; [done|].
  destruct (hget H s !! p) eqn:E; [|done]. intros [= <- <-]. by apply HQ.
Qed.

Lemma wlp_store {V} (H : heap_of S V) p (v : V) s (Q : unit -> S -> Prop) :
  (p <> 0 -> Q tt (hset H (<[p := v]> (hget H s)) s)) -> wlp (store H p v) s Q.
Proof. intros HQ a s'. unfold store. case_decide; [done|]. intros [= <- <-]. by apply HQ. Qed.

Lemma wlp_dispose {V} (H : heap_of S V) p s (Q : unit -> S -> Prop) :
  Q tt (hset H (delete p (hget H s)) s) -> wlp (dispose H p) s Q.
Proof. intros HQ a s'. unfold dispose. destruct (_ !! _); [|done]. by intros [= <- <-]. Qed.

Lemma wlp_zoom {T A} (L : lens S T) (c : M T A) s (Q : A -> S -> Prop) :
  wlp c (lget L s) (fun a t => Q a (lset L t s)) -> wlp (zoom L c) s Q.
Proof.
  unfold wlp, zoom. intros H a s'. destruct (c (lget L s)) as [[x t]|] eqn:E; [|done]. intros [= <- <-]. by apply H.
Qed.

Lemma wp_wlp {A} (c : M S A) s (P R : A -> S -> Prop) :
  wp c s P -> wlp c s R -> wp c s (fun a s' => P a s' /\ R a s').
Proof. unfold wp, wlp. destruct (c s) as [[a s']|]; [|done]. intros HP HR. split; [done|by apply HR]. Qed.

(** A run that succeeds for certain. *)
Lemma wp_partial {A} (c : M S A) s (Q : A -> S -> Prop) : wp c s Q -> wlp c s Q.
Proof. unfold wp, wlp. intros H a s' Hr. by rewrite Hr in H. Qed.

Lemma wlp_loop {A B} (I : A -> S -> Prop) (body : A -> M S (A + B))
    (Q : B -> S -> Prop) fuel a s :
  (forall a s, I a s -> wlp (body a) s (fun r s' =>
     match r with inl a' => I a' s' | inr b => Q b s' end)) ->
  I a s -> wlp (loop fuel body a) s Q.
Proof.
  intros Hb. revert a s. induction fuel as [|fuel IH]; intros a s HI; [done|].
  apply wlp_bind. eapply wlp_mono; [by apply Hb|].
  intros [a'|b] s' Hs; [by apply IH|by apply wlp_ret].
Qed.
End wlp_rules.

(** ** Outcomes

    A property of the outcome of a run, success or fault: a prefix of known
    effect is run off. *)
Definition ends {S A} (R : result (A * S) -> Prop) (c : M S A) (s : S) : Prop := R (c s).

Lemma ends_bind {S A B} R (c : M S A) (k : A -> M S B) s :
  wp c s (fun a s' => ends R (k a) s') -> ends R (c ≫= k) s.
Proof. intros (a & s' & Hrun & H)%wp_run. unfold ends, mbind, M_bind. by rewrite Hrun. Qed.

(** ** Postconditions with faults

    [wpe m E s Q]: if the run of [m] from [s] succeeds its value and final
    state satisfy [Q], otherwise its fault satisfies [E]. *)
Definition wpe {S A} (m : M S A) (E : fault -> Prop) (s : S) (Q : A -> S -> Prop) : Prop :=
  match m s with
  | Ok (a, s') => Q a s'
  | Err f => E f
  end.

Section wpe_rules.
Context {S : Type} (E : fault -> Prop).
Implicit Types s : S.

Lemma wp_wpe {A} (m : M S A) s (Q : A -> S -> Prop) : wp m s Q -> wpe m E s Q.
Proof. unfold wp, wpe. by destruct (m s) as [[a s']|f]. Qed.
Lemma wpe_ret {A} (a : A) s (Q : A -> S -> Prop) : Q a s -> wpe (mret a) E s Q.
Proof. done. Qed.
Lemma wpe_bind {A B} (m : M S A) (k : A -> M S B) s Q :
  wpe m E s (fun a s' => wpe (k a) E s' Q) -> wpe (m ≫= k) E s Q.
Proof. unfold wpe, mbind, M_bind. by destruct (m s) as [[a s']|f]. Qed.
Lemma wpe_bind_wp {A B} (m : M S A) (k : A -> M S B) s Q :
  wp m s (fun a s' => wpe (k a) E s' Q) -> wpe (m ≫= k) E s Q.
Proof. intros H. by apply wpe_bind, wp_wpe. Qed.
Lemma wpe_assert b s (Q : unit -> S -> Prop) :
  (b = true -> Q tt s) -> (b = false -> E AssertFailed) -> wpe (c_assert b) E s Q.
Proof. destruct b; cbn; auto. Qed.
Lemma wpe_mono {A} (m : M S A) s (P Q : A -> S -> Prop) :
  wpe m E s P -> (forall a s', P a s' -> Q a s') -> wpe m E s Q.
Proof. unfold wpe. destruct (m s) as [[a s']|f]; auto. Qed.
Lemma wpe_gets {A} (f : S -> A) s (Q : A -> S -> Prop) : Q (f s) s -> wpe (gets f) E s Q.
Proof. done. Qed.
(** A loop that keeps an invariant, and may run out of fuel. *)
Lemma wpe_loop {A B} (I : A -> S -> Prop) (body : A -> M S (A + B)) (Q : B -> S -> Prop) fuel a s :
  E OutOfFuel ->
  (forall a s, I a s -> wpe (body a) E s (fun r s' =>
     match r with inl a' => I a' s' | inr b => Q b s' end)) ->
  I a s -> wpe (loop fuel body a) E s Q.
Proof.
  intros HE Hb. revert a s. induction fuel as [|fuel IH]; intros a s HI; [done|].
  apply wpe_bind. eapply wpe_mono; [by apply Hb|]. intros [a'|b] s' Hs; [by apply IH|by apply wpe_ret].
Qed.
End wpe_rules.

(** Commands that leave the state as it is, whenever they succeed. *)
Definition readonly {S A} (m : M S A) : Prop := forall s, wlp m s (fun _ s' => s' = s).

Section readonly_rules.
Context {S : Type}.

Lemma readonly_ret {A} (a : A) : readonly (S := S) (mret a).
Proof. intros s. by apply wlp_ret. Qed.
Lemma readonly_bind {A B} (m : M S A) (k : A -> M S B) :
  readonly m -> (forall a, readonly (k a)) -> readonly (m ≫= k).
Proof.
  intros Hm Hk s. apply wlp_bind. eapply wlp_mono; [apply Hm|]. intros a ? ->. apply Hk.
Qed.
Lemma readonly_gets {A} (f : S -> A) : readonly (gets f).
Proof. intros s. by apply wlp_gets. Qed.
Lemma readonly_assert b : readonly (S := S) (c_assert b).
Proof. intros s. by apply wlp_assert. Qed.
Lemma readonly_deref {V} (H : heap_of S V) p : readonly (deref H p).
Proof. intros s. by apply wlp_deref. Qed.
Lemma readonly_if {A} (b : bool) (m1 m2 : M S A) :
  readonly m1 -> readonly m2 -> readonly (if b then m1 else m2).
Proof. by destruct b. Qed.
Lemma readonly_loop {A B} fuel (body : A -> M S (A + B)) a :
  (forall a, readonly (body a)) -> readonly (loop fuel body a).
Proof.
  intros Hb s. apply (wlp_loop (fun _ s' => s' = s)); [|done].
  intros a' ? ->. eapply wlp_mono; [apply Hb|]. by intros [] ? ->.
Qed.
End readonly_rules.

Create HintDb readonly.
#[export] Hint Resolve readonly_ret readonly_bind readonly_gets readonly_assert
  readonly_deref readonly_if readonly_loop : readonly.

(** Symbolic execution of the monadic commands; memory accesses are left to
    the caller, who owns the facts about the heap. *)
Ltac wp_pure1 :=
  lazymatch goal with
  | |- wp (mbind _ _) _ _ => apply wp_bind
  | |- wp (mret _) _ _ => apply wp_ret
  | |- wp get _ _ => apply wp_get
  | |- wp (gets _) _ _ => apply wp_gets
  | |- wp (modify _) _ _ => apply wp_modify
  end.
Ltac wp_pures := repeat wp_pure1; cbn beta.

(** One memory access whose object is found by [eauto]/[simplify_map_eq]. *)
Ltac wp_heap :=
  lazymatch goal with
  | |- wp (deref _ _) _ _ => eapply wp_deref
  | |- wp (update _ _ _) _ _ => eapply wp_update
  | |- wp (store _ _ _) _ _ => eapply wp_store
  | |- wp (dispose _ _) _ _ => eapply wp_dispose
  end.

(** Commands that only read and check: they succeed and leave the state. *)
Definition checks {S A} (m : M S A) (s : S) : Prop := wp m s (fun _ s' => s' = s).

Lemma wp_checks {S A B} (m : M S A) (k : A -> M S B) s (Q : B -> S -> Prop) :
  checks m s -> (forall a, wp (k a) s Q) -> wp (m ≫= k) s Q.
Proof. intros Hm Hk. apply wp_bind. eapply wp_mono; [exact Hm|]. by intros a s' ->. Qed.

Lemma nonnull_true p : p <> 0 -> nonnull p = true.
Proof. intros Hp. unfold nonnull. by rewrite (proj2 (Z.eqb_neq _ _)). Qed.
Lemma isnull_false p : p <> 0 -> isnull p = false.
Proof. intros Hp. unfold isnull. by rewrite (proj2 (Z.eqb_neq _ _)). Qed.

(** Decides the truth value of a pointer from the facts in the context. *)
Ltac ptr_cond :=
  solve [ reflexivity | by apply nonnull_true | by apply isnull_false
        | apply nonnull_true; congruence | apply isnull_false; congruence
        | apply Z.eqb_refl | apply Z.eqb_neq; congruence
        | rewrite (proj2 (Z.eqb_neq _ _)) by congruence; reflexivity ].

Lemma wp_when_true {S} b (m : M S unit) s (Q : unit -> S -> Prop) :
  b = true -> wp m s Q -> wp (when b m) s Q.
Proof. by intros ->. Qed.
Lemma wp_when_false {S} b (m : M S unit) s (Q : unit -> S -> Prop) :
  b = false -> Q tt s -> wp (when b m) s Q.
Proof. by intros ->. Qed.
Lemma wp_if_true {S A} b (m1 m2 : M S A) s (Q : A -> S -> Prop) :
  b = true -> wp m1 s Q -> wp (if b then m1 else m2) s Q.
Proof. by intros ->. Qed.
Lemma wp_if_false {S A} b (m1 m2 : M S A) s (Q : A -> S -> Prop) :
  b = false -> wp m2 s Q -> wp (if b then m1 else m2) s Q.
Proof. by intros ->. Qed.

(** One command whose condition or object is known; [acc] proves accesses. *)
Ltac wp_step acc :=
  lazymatch goal with
  | |- wp (mbind _ _) _ _ => apply wp_bind
  | |- wp (mret _) _ _ => apply wp_ret
  | |- wp (gets _) _ _ => apply wp_gets
  | |- wp get _ _ => apply wp_get
  | |- wp (modify _) _ _ => apply wp_modify
  | |- wp (c_assert _) _ _ => apply wp_assert; [ptr_cond|]
  | |- wp (when _ _) _ _ =>
      first [apply wp_when_true; [ptr_cond|] | apply wp_when_false; [ptr_cond|]]
  | |- wp (if _ then _ else _) _ _ =>
      first [apply wp_if_true; [ptr_cond|] | apply wp_if_false; [ptr_cond|]]
  | |- wp (deref _ _) _ _ => acc
  | |- wp (update _ _ _) _ _ => acc
  | |- wp (store _ _ _) _ _ => acc
  end.

(** ** Lists *)

(** Address of the first, respectively last, element: [p] when there is none. *)
Definition head_or (p : Z) (xs : list Z) : Z := default p (head xs).
Definition last_or (p : Z) (xs : list Z) : Z := default p (last xs).

Lemma NoDup_reverse {A} (xs : list A) : NoDup xs -> NoDup (reverse xs).
Proof. by rewrite reverse_Permutation. Qed.

(** Filters that keep all, or nothing. *)
Lemma filter_all {A} (P : A -> Prop) `{forall x, Decision (P x)} (l : list A) :
  (forall x, x ∈ l -> P x) -> filter P l = l.
Proof.
  induction l as [|x l IH]; intros HP; [done|].
  rewrite filter_cons_True by (apply HP; set_solver). f_equal. apply IH. set_solver.
Qed.
Lemma filter_none {A} (P : A -> Prop) `{forall x, Decision (P x)} (l : list A) :
  (forall x, x ∈ l -> ~ P x) -> filter P l = [].
Proof.
  induction l as [|x l IH]; intros HP; [done|].
  rewrite filter_cons_False by (apply HP; set_solver). apply IH. set_solver.
Qed.

(** An element of a duplicate-free list splits it in one way. *)
Lemma NoDup_mid_inj {A} (xs xs' : list A) x ys ys' :
  NoDup (xs ++ x :: ys) -> xs ++ x :: ys = xs' ++ x :: ys' -> xs = xs' /\ ys = ys'.
Proof.
  revert xs'. induction xs as [|a xs IH]; intros xs' Hnd Heq; destruct xs' as [|b xs'].
  - by simplify_eq/=.
  - simplify_eq/=. apply NoDup_cons in Hnd as [Hx _]. set_solver.
  - simplify_eq/=. apply NoDup_cons in Hnd as [Hx _]. set_solver.
  - simplify_eq/=. apply NoDup_cons in Hnd as [_ Hnd]. by destruct (IH xs' Hnd) as [-> ->].
Qed.

(** ** Addresses *)

(** A non-null address of the modelled platform. *)
Definition valid_addr (a : Z) : Prop := 0 < a < SIZE_MOD.

Lemma valid_ne x : valid_addr x -> x <> 0.
Proof. unfold valid_addr. lia. Qed.

(** There are fewer than [2^64] distinct objects. *)
Lemma nodup_valid_length xs :
  NoDup xs -> (forall x, x ∈ xs -> valid_addr x) -> Z.of_nat (length xs) < SIZE_MOD.
Proof.
  intros Hnd Hv.
  assert (length xs <= length (seqZ 1 (SIZE_MOD - 1)))%nat as Hle.
  { apply submseteq_length, NoDup_submseteq; [done|].
    intros x Hx%Hv. apply elem_of_seqZ. unfold valid_addr in Hx. lia. }
  rewrite length_seqZ in Hle. unfold SIZE_MOD, SIZE_BITS in *. lia.
Qed.

(** ** Disjointness of address lists

    [sep] breaks facts about concatenations into facts about their parts,
    [apart] proves that two addresses differ or that one is not in a list. *)

Lemma disj_cons_r {A} (xs ys : list A) y :
  (forall x, x ∈ xs -> x ∉ y :: ys) <-> (y ∉ xs) /\ (forall x, x ∈ xs -> x ∉ ys).
Proof. set_solver. Qed.
Lemma disj_app_r {A} (xs ys zs : list A) :
  (forall x, x ∈ xs -> x ∉ ys ++ zs) <->
  (forall x, x ∈ xs -> x ∉ ys) /\ (forall x, x ∈ xs -> x ∉ zs).
Proof. set_solver. Qed.
Lemma all_cons {A} (P : A -> Prop) y ys :
  (forall x, x ∈ y :: ys -> P x) <-> P y /\ (forall x, x ∈ ys -> P x).
Proof. set_solver. Qed.
Lemma all_app {A} (P : A -> Prop) ys zs :
  (forall x, x ∈ ys ++ zs -> P x) <-> (forall x, x ∈ ys -> P x) /\ (forall x, x ∈ zs -> P x).
Proof. set_solver. Qed.

Ltac sep :=
  repeat match goal with
  | H : NoDup (_ ++ _) |- _ => apply NoDup_app in H as (? & ? & ?)
  | H : NoDup (_ :: _) |- _ => apply NoDup_cons in H as [? ?]
  | H : NoDup [] |- _ => clear H
  | H : _ ∉ _ ++ _ |- _ => apply not_elem_of_app in H as [? ?]
  | H : _ ∉ _ :: _ |- _ => apply not_elem_of_cons in H as [? ?]
  | H : _ ∉ [] |- _ => clear H
  | H : forall x, x ∈ _ ++ _ -> _ |- _ => apply all_app in H as [? ?]
  | H : forall x, x ∈ _ :: _ -> _ |- _ => apply all_cons in H as [? ?]
  | H : forall x, x ∈ [] -> _ |- _ => clear H
  | H : forall x, x ∈ _ -> x ∉ _ ++ _ |- _ => apply disj_app_r in H as [? ?]
  | H : forall x, x ∈ _ -> x ∉ _ :: _ |- _ => apply disj_cons_r in H as [? ?]
  | H : forall x, x ∈ _ -> x ∉ [] |- _ => clear H
  end.

Ltac apart1 :=
  match goal with
  | H : ?P |- ?P => exact H
  | H : ?x <> ?y |- ?y <> ?x => exact (not_eq_sym H)
  | H : ?x ∈ ?xs, H2 : forall z, z ∈ ?xs -> z ∉ ?ys |- ?x ∉ ?ys => exact (H2 x H)
  | H : ?x ∈ ?ys, H2 : forall z, z ∈ ?xs -> z ∉ ?ys |- ?x ∉ ?xs =>
      exact (fun Hc => H2 x Hc H)
  | H : ?x ∈ ?xs, H2 : ?y ∉ ?xs |- ?x <> ?y =>
      let E := fresh in intros E; rewrite E in H; exact (H2 H)
  | H : ?x ∈ ?xs, H2 : ?y ∉ ?xs |- ?y <> ?x =>
      let E := fresh in intros E; rewrite <- E in H; exact (H2 H)
  | H1 : ?x ∈ ?xs, H2 : ?y ∈ ?ys, H3 : forall z, z ∈ ?xs -> z ∉ ?ys |- ?x <> ?y =>
      let E := fresh in intros E; rewrite <- E in H2; exact (H3 x H1 H2)
  | H1 : ?x ∈ ?xs, H2 : ?y ∈ ?ys, H3 : forall z, z ∈ ?xs -> z ∉ ?ys |- ?y <> ?x =>
      let E := fresh in intros E; rewrite E in H2; exact (H3 x H1 H2)
  end.
Ltac apart :=
  sep; repeat first [rewrite not_elem_of_app | rewrite not_elem_of_cons]; split_and?;
  solve [apart1 | apply not_elem_of_nil].
