(* ===== verification/Bytes.v ===== *)
(** * Bytes in memory, and the allocator

    Storage is a finite map from addresses to cells; a cell that was allocated
    but never written holds no value.  Reading or writing outside of storage
    is a fault, and so is reading a cell that holds no value.  Allocation is
    [src/src/malloc.c] on top of the allocator of the context, a parameter. *)

From S2P Require Import Prelude.

Record bmem := BMem {
  cells : gmap Z (option Z);
  blocks : gmap Z Z
}.

Definition load (p : Z) : M bmem Z := fun m =>
  if decide (p = 0) then Err NullDeref else
  match cells m !! p with
  | Some (Some b) => Ok (b, m)
  | Some None => Err Uninit
  | None => Err WildPtr
  end.

Definition store_byte (p b : Z) : M bmem unit := fun m =>
  if decide (p = 0) then Err NullDeref else
  match cells m !! p with
  | Some _ => Ok (tt, BMem (<[p := Some b]> (cells m)) (blocks m))
  | None => Err WildPtr
  end.

Fixpoint read_bytes (p : Z) (n : nat) : M bmem (list Z) :=
  match n with
  | O => mret []
  | S n => b ← load p; bs ← read_bytes (p + 1) n; mret (b :: bs)
  end.

Fixpoint write_bytes (p : Z) (bs : list Z) : M bmem unit :=
  match bs with
  | [] => mret tt
  | b :: bs => store_byte p b;; write_bytes (p + 1) bs
  end.

(** The two ranges of [n] bytes share no byte. *)
Definition ranges_apart (p q n : Z) : bool := (p + n <=? q) || (q + n <=? p).

(** [memcpy] is not defined on overlapping objects. *)
Definition memcpy (dst src n : Z) : M bmem unit :=
  if ranges_apart dst src n then
    bs ← read_bytes src (Z.to_nat n); write_bytes dst bs
  else fail Undefined.

(** [memmove] reads everything before it writes. *)
Definition memmove (dst src n : Z) : M bmem unit :=
  bs ← read_bytes src (Z.to_nat n); write_bytes dst bs.

(** ** Ranges of storage *)

Definition bytes_at (m : bmem) (p : Z) (bs : list Z) : Prop :=
  0 < p /\ forall i b, bs !! i = Some b -> cells m !! (p + Z.of_nat i) = Some (Some b).

Definition room_at (m : bmem) (p : Z) (n : Z) : Prop :=
  0 < p /\ forall i, 0 <= i < n -> is_Some (cells m !! (p + i)).

(** Memory once [bs] is written at [p]. *)
Definition put_bytes (p : Z) (bs : list Z) (m : bmem) : bmem :=
  BMem (map_seqZ p (Some <$> bs) ∪ cells m) (blocks m).

Lemma cells_put p bs m a :
  cells (put_bytes p bs m) !! a =
    if decide (p <= a < p + Z.of_nat (length bs)) then Some <$> bs !! Z.to_nat (a - p)
    else cells m !! a.
Proof.
  cbn. rewrite lookup_union, lookup_map_seqZ. case_decide as Ha.
  - rewrite option_guard_True by lia. rewrite list_lookup_fmap.
    destruct (lookup_lt_is_Some_2 bs (Z.to_nat (a - p)) ltac:(lia)) as [b ->].
    cbn. by destruct (cells m !! a).
  - case_guard; [|by rewrite left_id_L by apply _].
    rewrite list_lookup_fmap, lookup_ge_None_2 by lia. cbn. by destruct (cells m !! a).
Qed.

Lemma put_nil p m : put_bytes p [] m = m.
Proof. unfold put_bytes. cbn. rewrite (left_id_L ∅ (∪)). by destruct m. Qed.

Lemma put_cons p b bs m :
  put_bytes p (b :: bs) m =
    put_bytes (p + 1) bs (BMem (<[p := Some b]> (cells m)) (blocks m)).
Proof.
  unfold put_bytes. cbn. f_equal. rewrite <- insert_union_l. apply insert_union_r.
  apply map_seqZ_cons_disjoint.
Qed.

Lemma put_app p bs bs' m :
  put_bytes p (bs ++ bs') m = put_bytes (p + Z.of_nat (length bs)) bs' (put_bytes p bs m).
Proof.
  revert p m. induction bs as [|b bs IH]; intros p m.
  - by rewrite Z.add_0_r, put_nil.
  - cbn [app]. rewrite !put_cons, IH. f_equal. cbn. lia.
Qed.
Lemma put_step p b bs m : put_bytes p (b :: bs) m = put_bytes (p + 1) bs (put_bytes p [b] m).
Proof. apply (put_app p [b]). Qed.

Lemma room_put m p bs q n : room_at m q n -> room_at (put_bytes p bs m) q n.
Proof.
  intros [Hq Hr]. split; [done|]. intros i Hi. rewrite cells_put. case_decide; [|by apply Hr].
  rewrite fmap_is_Some. apply lookup_lt_is_Some_2. lia.
Qed.

Lemma bytes_put_same m p bs : 0 < p -> bytes_at (put_bytes p bs m) p bs.
Proof.
  intros Hp. split; [done|]. intros i b Hb. pose proof (lookup_lt_Some _ _ _ Hb).
  rewrite cells_put, decide_True by lia. by rewrite Z.add_simpl_l, Nat2Z.id, Hb.
Qed.

Lemma bytes_put_apart m p bs q bs' :
  (p + Z.of_nat (length bs) <= q \/ q + Z.of_nat (length bs') <= p) ->
  bytes_at m q bs' -> bytes_at (put_bytes p bs m) q bs'.
Proof.
  intros Hd [Hq Hb]. split; [done|]. intros i b Hi. pose proof (lookup_lt_Some _ _ _ Hi).
  rewrite cells_put, decide_False by lia. by apply Hb.
Qed.

Lemma bytes_app m p bs bs' :
  bytes_at m p (bs ++ bs') <->
  bytes_at m p bs /\ (0 < p /\ bytes_at m (p + Z.of_nat (length bs)) bs').
Proof.
  split.
  - intros [Hp Hb]. split; [split; [done|]|split; [done|split; [lia|]]].
    + intros i b Hi. apply Hb. by apply lookup_app_l_Some.
    + intros i b Hi. rewrite <- Z.add_assoc, <- Nat2Z.inj_add. apply Hb.
      rewrite lookup_app_r by lia. by rewrite Nat.add_comm, Nat.add_sub.
  - intros ([Hp H1] & _ & [_ H2]). split; [done|].
    intros i b [Hi|[Hlen Hi]]%lookup_app_Some; [by apply H1|].
    specialize (H2 _ _ Hi). replace (p + Z.of_nat i) with
      (p + Z.of_nat (length bs) + Z.of_nat (i - length bs)) by lia. done.
Qed.

Lemma bytes_cons m p b bs :
  bytes_at m p (b :: bs) <-> 0 < p /\ cells m !! p = Some (Some b) /\ bytes_at m (p + 1) bs.
Proof.
  change (b :: bs) with ([b] ++ bs). rewrite bytes_app. cbn [length]. split.
  - intros ([Hp Hb] & _ & H2). split; [done|]. split; [|done].
    rewrite <- (Z.add_0_r p). by apply (Hb 0%nat).
  - intros (Hp & Hb & H2). split; [|by split]. split; [done|]. intros [|i] c; [|done].
    cbn. intros [= <-]. by rewrite Z.add_0_r.
Qed.

Lemma bytes_nil m p : 0 < p -> bytes_at m p [].
Proof. intros Hp. by split. Qed.

Lemma bytes_room m p bs : bytes_at m p bs -> room_at m p (Z.of_nat (length bs)).
Proof.
  intros [Hp Hb]. split; [done|]. intros i Hi.
  destruct (lookup_lt_is_Some_2 bs (Z.to_nat i) ltac:(lia)) as [b Hl].
  specialize (Hb _ _ Hl). rewrite Z2Nat.id in Hb by lia. by rewrite Hb.
Qed.

Lemma room_mono m p n n' : n' <= n -> room_at m p n -> room_at m p n'.
Proof. intros Hle [Hp Hr]. split; [done|]. intros i Hi. apply Hr. lia. Qed.

Lemma room_tail m p n k : 0 <= k -> room_at m p n -> room_at m (p + k) (n - k).
Proof.
  intros Hk [Hp Hr]. split; [lia|]. intros i Hi. rewrite <- Z.add_assoc. apply Hr. lia.
Qed.

(** ** Rules *)

Lemma wp_load m p b (Q : Z -> bmem -> Prop) :
  p <> 0 -> cells m !! p = Some (Some b) -> Q b m -> wp (load p) m Q.
Proof. intros Hp Hl HQ. unfold wp, load. by rewrite decide_False, Hl. Qed.

Lemma wp_store_byte m p b (Q : unit -> bmem -> Prop) :
  room_at m p 1 -> Q tt (put_bytes p [b] m) -> wp (store_byte p b) m Q.
Proof.
  intros [Hp Hr] HQ. destruct (Hr 0 ltac:(lia)) as [c Hc]. rewrite Z.add_0_r in Hc.
  unfold wp, store_byte. rewrite decide_False, Hc by lia. by rewrite put_cons, put_nil in HQ.
Qed.

Lemma wp_read_bytes bs : forall m p (Q : list Z -> bmem -> Prop),
  bytes_at m p bs -> Q bs m -> wp (read_bytes p (length bs)) m Q.
Proof.
  induction bs as [|b bs IH]; intros m p Q Hb HQ; [by apply wp_ret|].
  apply bytes_cons in Hb as (Hp & Hb & Hbs). apply wp_bind. eapply wp_load; [lia|done|].
  apply wp_bind. eapply IH; [done|]. by apply wp_ret.
Qed.

Lemma wp_write_bytes bs : forall m p (Q : unit -> bmem -> Prop),
  room_at m p (Z.of_nat (length bs)) -> Q tt (put_bytes p bs m) -> wp (write_bytes p bs) m Q.
Proof.
  induction bs as [|b bs IH]; intros m p Q Hr HQ; [apply wp_ret; by rewrite put_nil in HQ|].
  apply wp_bind. eapply wp_store_byte; [eapply room_mono; [|exact Hr]; cbn; lia|].
  apply IH.
  - apply room_put. replace (Z.of_nat (length bs)) with (Z.of_nat (length (b :: bs)) - 1) by (cbn; lia).
    by apply room_tail.
  - rewrite put_cons, put_nil. by rewrite put_cons in HQ.
Qed.

Lemma wp_memcpy m dst src n bs (Q : unit -> bmem -> Prop) :
  n = Z.of_nat (length bs) -> bytes_at m src bs -> room_at m dst n ->
  (dst + n <= src \/ src + n <= dst) ->
  Q tt (put_bytes dst bs m) -> wp (memcpy dst src n) m Q.
Proof.
  intros -> Hs Hd Ha HQ. unfold memcpy, ranges_apart. apply wp_if_true; [lia|].
  rewrite Nat2Z.id. apply wp_bind. eapply wp_read_bytes; [done|]. by apply wp_write_bytes.
Qed.

(** ** The allocator *)

(** [DFK_MALLOC_ALIGNMENT] *)
Definition MALLOC_ALIGNMENT : Z := 16.

Definition aligned (p : Z) : bool := p mod MALLOC_ALIGNMENT =? 0.

(** End of the user address space on the modelled platform. *)
Definition USER_END : Z := 2 ^ 47.

Section alloc.
(** [dfk->malloc]: the address of a new block, or NULL. *)
Context (malloc : bmem -> Z -> Z).

Definition add_block (p n : Z) (m : bmem) : bmem :=
  BMem (map_seqZ p (replicate (Z.to_nat n) None) ∪ cells m) (<[p := n]> (blocks m)).

Definition dfk__malloc (nbytes : Z) : M bmem Z :=
  c_assert (negb (nbytes =? 0));;
  res ← gets (fun m => malloc m nbytes);
  when (nonnull res) (modify (add_block res nbytes));;
  c_assert (aligned res);;
  mret res.

(** The documented behaviour of [malloc]: NULL, or an aligned block of storage
    that is not in use. *)
Definition malloc_ok : Prop := forall m n,
  0 < n -> malloc m n = 0 \/
    0 < malloc m n /\ aligned (malloc m n) = true /\ malloc m n + n <= USER_END /\
    blocks m !! malloc m n = None /\
    forall i, 0 <= i < n -> cells m !! (malloc m n + i) = None.
End alloc.

Definition remove_block (p n : Z) (m : bmem) : bmem :=
  BMem (cells m ∖ map_seqZ p (replicate (Z.to_nat n) None)) (delete p (blocks m)).

Definition dfk__free (p : Z) : M bmem unit :=
  c_assert (nonnull p);;
  c_assert (aligned p);;
  m ← get;
  match blocks m !! p with
  | Some n => modify (remove_block p n)
  | None => fail WildPtr
  end.

Lemma cells_add_block p n m a : 0 <= n ->
  cells (add_block p n m) !! a =
    if decide (p <= a < p + n) then Some None else cells m !! a.
Proof.
  intros Hn. cbn. rewrite lookup_union, lookup_map_seqZ. case_decide as Ha.
  - rewrite option_guard_True by lia. rewrite lookup_replicate_2 by lia.
    cbn. by destruct (cells m !! a).
  - case_guard; [|by rewrite left_id_L by apply _].
    rewrite lookup_ge_None_2 by (rewrite length_replicate; lia). cbn. by destruct (cells m !! a).
Qed.

Lemma cells_remove_block p n m a : 0 <= n ->
  cells (remove_block p n m) !! a =
    if decide (p <= a < p + n) then None else cells m !! a.
Proof.
  intros Hn. cbn. rewrite lookup_difference, lookup_map_seqZ. case_decide as Ha.
  - rewrite option_guard_True by lia. by rewrite lookup_replicate_2 by lia.
  - case_guard; [|done].
    by rewrite lookup_ge_None_2 by (rewrite length_replicate; lia).
Qed.

(** The outcome of an allocation. *)
Record allocated (m : bmem) (p n : Z) (m' : bmem) : Prop := Allocated {
  al_pos : 0 < p;
  al_aligned : aligned p = true;
  al_end : p + n <= USER_END;
  al_new : blocks m !! p = None;
  al_fresh : forall i, 0 <= i < n -> cells m !! (p + i) = None;
  al_mem : m' = add_block p n m
}.

Lemma wp_malloc malloc m n (Q : Z -> bmem -> Prop) :
  malloc_ok malloc -> 0 < n -> Q 0 m ->
  (forall p m', allocated m p n m' -> Q p m') -> wp (dfk__malloc malloc n) m Q.
Proof.
  intros Hok Hn H0 HQ. unfold dfk__malloc. apply wp_bind, wp_assert.
  { apply negb_true_iff, Z.eqb_neq. lia. }
  apply wp_bind, wp_gets, wp_bind. destruct (Hok m n Hn) as [->|(Hp & Ha & He & Hb & Hf)].
  - apply wp_when_false; [done|]. by apply wp_bind, wp_assert, wp_ret.
  - apply wp_when_true; [apply nonnull_true; lia|]. apply wp_modify.
    apply wp_bind, wp_assert; [done|]. by apply wp_ret, HQ.
Qed.

Lemma wp_free m p n (Q : unit -> bmem -> Prop) :
  0 < p -> aligned p = true -> blocks m !! p = Some n -> Q tt (remove_block p n m) ->
  wp (dfk__free p) m Q.
Proof.
  intros Hp Ha Hb HQ. unfold dfk__free.
  apply wp_bind, wp_assert; [apply nonnull_true; lia|].
  apply wp_bind, wp_assert; [done|]. apply wp_bind, wp_get. rewrite Hb. by apply wp_modify.
Qed.

Lemma allocated_room m p n m' : allocated m p n m' -> 0 <= n -> room_at m' p n.
Proof.
  intros [Hp _ _ _ _ ->] Hn. split; [done|]. intros i Hi.
  rewrite cells_add_block, decide_True by lia. by eexists.
Qed.

(** Storage that was there stays apart from the new block. *)
Definition apart_ranges (p n q k : Z) : Prop := k = 0 \/ q + k <= p \/ p + n <= q.

Lemma allocated_apart m p n m' q k : allocated m p n m' -> 0 < n -> 0 <= k ->
  room_at m q k -> apart_ranges p n q k.
Proof.
  intros [Hp _ _ _ Hf _] Hn Hk [Hq Hr]. unfold apart_ranges.
  destruct (decide (k = 0)) as [->|Hk0]; [by left|]. right.
  destruct (Z.lt_ge_cases q p) as [Hlt|Hge].
  - left. destruct (Z.le_gt_cases (q + k) p) as [|Hgt]; [done|].
    destruct (Hr (p - q) ltac:(lia)) as [c Hc]. rewrite Zplus_minus in Hc.
    specialize (Hf 0 ltac:(lia)). rewrite Z.add_0_r in Hf. congruence.
  - right. destruct (Z.le_gt_cases (p + n) q) as [|Hgt]; [done|].
    destruct (Hr 0 ltac:(lia)) as [c Hc]. rewrite Z.add_0_r in Hc.
    specialize (Hf (q - p) ltac:(lia)). rewrite Zplus_minus in Hf. congruence.
Qed.

Lemma cells_allocated m p n m' a : allocated m p n m' -> 0 <= n -> ~ (p <= a < p + n) ->
  cells m' !! a = cells m !! a.
Proof. intros [_ _ _ _ _ ->] Hn Ha. rewrite cells_add_block by done. by rewrite decide_False. Qed.

(** Ranges whose cells are the same. *)
Definition same_cells (m m' : bmem) (p n : Z) : Prop :=
  forall a, p <= a < p + n -> cells m' !! a = cells m !! a.

Lemma bytes_same m m' p bs :
  same_cells m m' p (Z.of_nat (length bs)) -> bytes_at m p bs -> bytes_at m' p bs.
Proof.
  intros Hs [Hp Hb]. split; [done|]. intros i b Hi. pose proof (lookup_lt_Some _ _ _ Hi).
  rewrite Hs by lia. by apply Hb.
Qed.
Lemma room_same m m' p n : same_cells m m' p n -> room_at m p n -> room_at m' p n.
Proof.
  intros Hs [Hp Hr]. split; [done|]. intros i Hi. rewrite Hs by lia. by apply Hr.
Qed.
Lemma same_cells_trans m1 m2 m3 p n :
  same_cells m1 m2 p n -> same_cells m2 m3 p n -> same_cells m1 m3 p n.
Proof. intros H1 H2 a Ha. by rewrite H2, H1. Qed.
Lemma same_put m p bs q k : apart_ranges p (Z.of_nat (length bs)) q k ->
  same_cells m (put_bytes p bs m) q k.
Proof. intros Hd a Ha. rewrite cells_put, decide_False; [done|]. unfold apart_ranges in Hd. lia. Qed.
Lemma same_allocated m p n m' q k : allocated m p n m' -> 0 <= n -> apart_ranges p n q k ->
  same_cells m m' q k.
Proof.
  intros Ha Hn Hd a Hin. eapply cells_allocated; [done..|]. unfold apart_ranges in Hd. lia.
Qed.
Lemma same_removed m p n q k : 0 <= n -> apart_ranges p n q k ->
  same_cells m (remove_block p n m) q k.
Proof.
  intros Hn Hd a Ha. rewrite cells_remove_block by done.
  rewrite decide_False; [done|]. unfold apart_ranges in Hd. lia.
Qed.

(** An allocator for examples: the first aligned address above
    everything that is allocated. *)
Definition first_fit (m : bmem) (n : Z) : Z :=
  let top := map_fold (fun a _ acc => Z.max a acc) 0 (cells m) in
  let topb := map_fold (fun a _ acc => Z.max a acc) 0 (blocks m) in
  let p := (Z.max top topb / MALLOC_ALIGNMENT + 1) * MALLOC_ALIGNMENT in
  if p + n <=? USER_END then p else 0.

Lemma max_key {V} (h : gmap Z V) a v : h !! a = Some v ->
  a <= map_fold (fun k (_ : V) acc => Z.max k acc) 0 h.
Proof.
  revert a v. apply (map_fold_weak_ind (fun r (h : gmap Z V) => forall a v, h !! a = Some v -> a <= r)).
  - done.
  - intros k x h' r Hk IH a v. destruct (decide (k = a)) as [->|Hne].
    + intros _. lia.
    + rewrite lookup_insert_ne by done. intros Ha%IH. lia.
Qed.

Lemma first_fit_ok : malloc_ok first_fit.
Proof.
  intros m n Hn. unfold first_fit.
  set (top := map_fold _ _ (cells m)). set (topb := map_fold _ _ (blocks m)).
  set (p := (Z.max top topb / MALLOC_ALIGNMENT + 1) * MALLOC_ALIGNMENT).
  destruct (Z.leb_spec (p + n) USER_END) as [Hlt|]; [|by left].
  assert (0 <= Z.max top topb /\ Z.max top topb < p) as [H0 Hp].
  { split.
    - unfold top. apply Z.le_trans with (map_fold (λ (a : Z) (_ : option Z) (acc : Z), a `max` acc) 0 (cells m)); [|lia].
      apply (map_fold_weak_ind (fun r _ => 0 <= r)); intros; lia.
    - unfold p. pose proof (Z.mod_pos_bound (Z.max top topb) MALLOC_ALIGNMENT ltac:(done)).
      pose proof (Z.div_mod (Z.max top topb) MALLOC_ALIGNMENT ltac:(done)). lia. }
  right. split_and!; [lia| |done| |].
  - unfold aligned, p. by rewrite Z.mod_mul.
  - destruct (blocks m !! p) as [v|] eqn:E; [|done]. apply max_key in E. fold topb in E. lia.
  - intros i Hi. destruct (cells m !! (p + i)) as [v|] eqn:E; [|done]. apply max_key in E. fold top in E. lia.
Qed.
