(* ===== verification/UrlEncoding.v ===== *)
(** * [urlencoding.c]: percent encoding

    The tables and functions of [src/src/urlencoding.c] (without
    [DFK_URLENCODING_HINT_HEURISTICS]) on byte memory.  [dfk_urldecode]
    returns the number of bytes consumed and, in place of the write through
    its last argument, the number of bytes written. *)

From S2P Require Import Prelude Bytes.

Definition hex_to_byte : list Z :=
  [0xFF; 0xFF; 0xFF; 0xFF; 0xFF; 0xFF; 0xFF; 0xFF; 0xFF; 0xFF; 0xFF; 0xFF; 0xFF; 0xFF; 0xFF; 0xFF;
   0xFF; 0xFF; 0xFF; 0xFF; 0xFF; 0xFF; 0xFF; 0xFF; 0xFF; 0xFF; 0xFF; 0xFF; 0xFF; 0xFF; 0xFF; 0xFF;
   0xFF; 0xFF; 0xFF; 0xFF; 0xFF; 0xFF; 0xFF; 0xFF; 0xFF; 0xFF; 0xFF; 0xFF; 0xFF; 0xFF; 0xFF; 0xFF;
   0x00; 0x01; 0x02; 0x03; 0x04; 0x05; 0x06; 0x07; 0x08; 0x09; 0xFF; 0xFF; 0xFF; 0xFF; 0xFF; 0xFF;
   0xFF; 0x0a; 0x0b; 0x0c; 0x0d; 0x0e; 0x0f; 0xFF; 0xFF; 0xFF; 0xFF; 0xFF; 0xFF; 0xFF; 0xFF; 0xFF;
   0xFF; 0xFF; 0xFF; 0xFF; 0xFF; 0xFF; 0xFF; 0xFF; 0xFF; 0xFF; 0xFF; 0xFF; 0xFF; 0xFF; 0xFF; 0xFF;
   0xFF; 0x0a; 0x0b; 0x0c; 0x0d; 0x0e; 0x0f; 0xFF; 0xFF; 0xFF; 0xFF; 0xFF; 0xFF; 0xFF; 0xFF; 0xFF;
   0xFF; 0xFF; 0xFF; 0xFF; 0xFF; 0xFF; 0xFF; 0xFF; 0xFF; 0xFF; 0xFF; 0xFF; 0xFF; 0xFF; 0xFF; 0xFF;
   0xFF; 0xFF; 0xFF; 0xFF; 0xFF; 0xFF; 0xFF; 0xFF; 0xFF; 0xFF; 0xFF; 0xFF; 0xFF; 0xFF; 0xFF; 0xFF;
   0xFF; 0xFF; 0xFF; 0xFF; 0xFF; 0xFF; 0xFF; 0xFF; 0xFF; 0xFF; 0xFF; 0xFF; 0xFF; 0xFF; 0xFF; 0xFF;
   0xFF; 0xFF; 0xFF; 0xFF; 0xFF; 0xFF; 0xFF; 0xFF; 0xFF; 0xFF; 0xFF; 0xFF; 0xFF; 0xFF; 0xFF; 0xFF;
   0xFF; 0xFF; 0xFF; 0xFF; 0xFF; 0xFF; 0xFF; 0xFF; 0xFF; 0xFF; 0xFF; 0xFF; 0xFF; 0xFF; 0xFF; 0xFF;
   0xFF; 0xFF; 0xFF; 0xFF; 0xFF; 0xFF; 0xFF; 0xFF; 0xFF; 0xFF; 0xFF; 0xFF; 0xFF; 0xFF; 0xFF; 0xFF;
   0xFF; 0xFF; 0xFF; 0xFF; 0xFF; 0xFF; 0xFF; 0xFF; 0xFF; 0xFF; 0xFF; 0xFF; 0xFF; 0xFF; 0xFF; 0xFF;
   0xFF; 0xFF; 0xFF; 0xFF; 0xFF; 0xFF; 0xFF; 0xFF; 0xFF; 0xFF; 0xFF; 0xFF; 0xFF; 0xFF; 0xFF; 0xFF;
   0xFF; 0xFF; 0xFF; 0xFF; 0xFF; 0xFF; 0xFF; 0xFF; 0xFF; 0xFF; 0xFF; 0xFF; 0xFF; 0xFF; 0xFF; 0xFF;
   0xFF; 0xFF; 0xFF; 0xFF; 0xFF; 0xFF; 0xFF; 0xFF; 0xFF; 0xFF; 0xFF; 0xFF; 0xFF; 0xFF; 0xFF; 0xFF].

Definition bytelo_to_hex : list Z :=
  [48; 49; 50; 51; 52; 53; 54; 55; 56; 57; 65; 66; 67; 68; 69; 70;
   48; 49; 50; 51; 52; 53; 54; 55; 56; 57; 65; 66; 67; 68; 69; 70;
   48; 49; 50; 51; 52; 53; 54; 55; 56; 57; 65; 66; 67; 68; 69; 70;
   48; 49; 50; 51; 52; 53; 54; 55; 56; 57; 65; 66; 67; 68; 69; 70;
   48; 49; 50; 51; 52; 53; 54; 55; 56; 57; 65; 66; 67; 68; 69; 70;
   48; 49; 50; 51; 52; 53; 54; 55; 56; 57; 65; 66; 67; 68; 69; 70;
   48; 49; 50; 51; 52; 53; 54; 55; 56; 57; 65; 66; 67; 68; 69; 70;
   48; 49; 50; 51; 52; 53; 54; 55; 56; 57; 65; 66; 67; 68; 69; 70;
   48; 49; 50; 51; 52; 53; 54; 55; 56; 57; 65; 66; 67; 68; 69; 70;
   48; 49; 50; 51; 52; 53; 54; 55; 56; 57; 65; 66; 67; 68; 69; 70;
   48; 49; 50; 51; 52; 53; 54; 55; 56; 57; 65; 66; 67; 68; 69; 70;
   48; 49; 50; 51; 52; 53; 54; 55; 56; 57; 65; 66; 67; 68; 69; 70;
   48; 49; 50; 51; 52; 53; 54; 55; 56; 57; 65; 66; 67; 68; 69; 70;
   48; 49; 50; 51; 52; 53; 54; 55; 56; 57; 65; 66; 67; 68; 69; 70;
   48; 49; 50; 51; 52; 53; 54; 55; 56; 57; 65; 66; 67; 68; 69; 70;
   48; 49; 50; 51; 52; 53; 54; 55; 56; 57; 65; 66; 67; 68; 69; 70;
   48; 49; 50; 51; 52; 53; 54; 55; 56; 57; 65; 66; 67; 68; 69; 70].

Definition bytehi_to_hex : list Z :=
  [48; 48; 48; 48; 48; 48; 48; 48; 48; 48; 48; 48; 48; 48; 48; 48;
   49; 49; 49; 49; 49; 49; 49; 49; 49; 49; 49; 49; 49; 49; 49; 49;
   50; 50; 50; 50; 50; 50; 50; 50; 50; 50; 50; 50; 50; 50; 50; 50;
   51; 51; 51; 51; 51; 51; 51; 51; 51; 51; 51; 51; 51; 51; 51; 51;
   52; 52; 52; 52; 52; 52; 52; 52; 52; 52; 52; 52; 52; 52; 52; 52;
   53; 53; 53; 53; 53; 53; 53; 53; 53; 53; 53; 53; 53; 53; 53; 53;
   54; 54; 54; 54; 54; 54; 54; 54; 54; 54; 54; 54; 54; 54; 54; 54;
   55; 55; 55; 55; 55; 55; 55; 55; 55; 55; 55; 55; 55; 55; 55; 55;
   56; 56; 56; 56; 56; 56; 56; 56; 56; 56; 56; 56; 56; 56; 56; 56;
   57; 57; 57; 57; 57; 57; 57; 57; 57; 57; 57; 57; 57; 57; 57; 57;
   65; 65; 65; 65; 65; 65; 65; 65; 65; 65; 65; 65; 65; 65; 65; 65;
   66; 66; 66; 66; 66; 66; 66; 66; 66; 66; 66; 66; 66; 66; 66; 66;
   67; 67; 67; 67; 67; 67; 67; 67; 67; 67; 67; 67; 67; 67; 67; 67;
   68; 68; 68; 68; 68; 68; 68; 68; 68; 68; 68; 68; 68; 68; 68; 68;
   69; 69; 69; 69; 69; 69; 69; 69; 69; 69; 69; 69; 69; 69; 69; 69;
   70; 70; 70; 70; 70; 70; 70; 70; 70; 70; 70; 70; 70; 70; 70; 70].


(** [t\[i\]] *)
Definition index (t : list Z) (i : Z) : M bmem Z :=
  match t !! Z.to_nat i with Some v => mret v | None => fail WildPtr end.

Definition hint_body (extra : Z -> bool) (end_ : Z) (st : Z * Z) : M bmem ((Z * Z) + Z) :=
  let '(buf, s) := st in
  if buf =? end_ then mret (inr s) else
  b ← load buf;
  mret (inl (buf + 1, if extra b then to_size (s + 2) else s)).

Definition dfk_urldecode_hint (buf size : Z) : M bmem Z :=
  s ← loop (S (Z.to_nat size)) (hint_body (fun b => b =? 37) (buf + size)) (buf, 0);
  mret (to_size (size - s)).

(** One turn of the loop; [inr] when the loop is left. *)
Definition urldecode_body (end_ : Z) (st : Z * Z) : M bmem ((Z * Z) + (Z * Z)) :=
  let '(buf, out) := st in
  if buf =? end_ then mret (inr (buf, out)) else
  c ← load buf;
  if c =? 37 then
    if end_ <=? buf + 2 then mret (inr (buf, out)) else
    b1 ← load (buf + 1);
    hi ← index hex_to_byte b1;
    b2 ← load (buf + 2);
    lo ← index hex_to_byte b2;
    if negb (Z.land hi 0xF0 =? 0) || negb (Z.land lo 0xF0 =? 0) then mret (inr (buf, out)) else
    store_byte out (Z.land (Z.lor (Z.shiftl hi 4) lo) 0xFF);;
    mret (inl (buf + 3, out + 1))
  else
    store_byte out c;;
    mret (inl (buf + 1, out + 1)).

Definition dfk_urldecode (buf size out : Z) : M bmem (Z * Z) :=
  c_assert (nonnull buf || (size =? 0));;
  c_assert (nonnull out || (size =? 0));;
  r ← loop (S (Z.to_nat size)) (urldecode_body (buf + size)) (buf, out);
  let '(buf', out') := r in
  mret (to_size (buf' - (buf + size) + size), to_size (out' - out)).

(** The argument is a [char]. *)
Definition dfk__urlencode_unreserved (c : Z) : bool :=
  ((97 <=? c) && (c <=? 122)) || ((65 <=? c) && (c <=? 90)) || ((48 <=? c) && (c <=? 57)) ||
  (c =? 45) || (c =? 46) || (c =? 95) || (c =? 126).

Definition dfk_urlencode_hint (buf size : Z) : M bmem Z :=
  s ← loop (S (Z.to_nat size))
        (hint_body (fun b => negb (dfk__urlencode_unreserved (to_schar b))) (buf + size)) (buf, 0);
  mret (to_size (size + s)).

Definition urlencode_body (end_ : Z) (st : Z * Z) : M bmem ((Z * Z) + Z) :=
  let '(buf, out) := st in
  if buf =? end_ then mret (inr out) else
  b ← load buf;
  if dfk__urlencode_unreserved (to_schar b) then
    store_byte out b;;
    mret (inl (buf + 1, out + 1))
  else
    store_byte out 37;;
    hi ← index bytehi_to_hex b;
    store_byte (out + 1) hi;;
    lo ← index bytelo_to_hex b;
    store_byte (out + 2) lo;;
    mret (inl (buf + 1, out + 3)).

Definition dfk_urlencode (buf size out : Z) : M bmem Z :=
  out' ← loop (S (Z.to_nat size)) (urlencode_body (buf + size)) (buf, out);
  mret (to_size (out' - out)).

(** ** Percent encoding of byte strings *)

(** Unreserved characters of RFC 3986. *)
Definition unreserved (b : Z) : bool :=
  ((97 <=? b) && (b <=? 122)) || ((65 <=? b) && (b <=? 90)) || ((48 <=? b) && (b <=? 57)) ||
  bool_decide (b ∈ [45; 46; 95; 126]).

(** Upper case hexadecimal digit. *)
Definition hexdigit (n : Z) : Z := if n <? 10 then 48 + n else 55 + n.

Definition encode1 (b : Z) : list Z :=
  if unreserved b then [b] else [37; hexdigit (b / 16); hexdigit (b mod 16)].

Definition url_encode (bs : list Z) : list Z := mbind (M := list) encode1 bs.

(** Value of a hexadecimal digit in either case. *)
Definition hexval (c : Z) : option Z :=
  if (48 <=? c) && (c <=? 57) then Some (c - 48) else
  if (65 <=? c) && (c <=? 70) then Some (c - 55) else
  if (97 <=? c) && (c <=? 102) then Some (c - 87) else None.

(** The decoded bytes, and the rest of the input from the first malformed
    escape on. *)
Fixpoint url_decode (bs : list Z) : list Z * list Z :=
  match bs with
  | [] => ([], [])
  | c :: r =>
      if c =? 37 then
        match r with
        | h :: l :: r' =>
            match hexval h, hexval l with
            | Some vh, Some vl => let '(d, rest) := url_decode r' in (16 * vh + vl :: d, rest)
            | _, _ => ([], bs)
            end
        | _ => ([], bs)
        end
      else let '(d, rest) := url_decode r in (c :: d, rest)
  end.

Definition byte (b : Z) : Prop := 0 <= b < 256.
