(* ===== verification/Error.v ===== *)
(** * [error.h]: the error codes *)

From S2P Require Import Prelude.
From Stdlib Require Import String.

Inductive dfk_error_e :=
| dfk_err_ok
| dfk_err_eof
| dfk_err_busy
| dfk_err_nomem
| dfk_err_notfound
| dfk_err_badarg
| dfk_err_sys
| dfk_err_inprog
| dfk_err_panic
| dfk_err_not_implemented
| dfk_err_overflow
| dfk_err_protocol
| dfk_err_timeout
| dfk_err_connection_refused
| dfk_err_stopped.

#[export] Instance dfk_error_eq_dec : EqDecision dfk_error_e.
Proof. solve_decision. Defined.

(** Value of the enumerator. *)
Definition err_code (e : dfk_error_e) : Z :=
  match e with
  | dfk_err_ok => 0
  | dfk_err_eof => 1
  | dfk_err_busy => 2
  | dfk_err_nomem => 3
  | dfk_err_notfound => 4
  | dfk_err_badarg => 5
  | dfk_err_sys => 6
  | dfk_err_inprog => 7
  | dfk_err_panic => 8
  | dfk_err_not_implemented => 9
  | dfk_err_overflow => 10
  | dfk_err_protocol => 11
  | dfk_err_timeout => 12
  | dfk_err_connection_refused => 13
  | dfk_err_stopped => 14
  end.

Open Scope string_scope.

(** [strerror_] is the text of [dfk->sys_errno] when there is a context. *)
Definition dfk_strerr (strerror_ : option string) (err : Z) : string :=
  if (err =? 0)%Z then "dfk_err_ok(0): No error"
  else if (err =? 1)%Z then "dfk_err_eof(1): End of file (stream, iterator)"
  else if (err =? 2)%Z then "dfk_err_busy(2): Resource is already acquired"
  else if (err =? 3)%Z then "dfk_err_nomem(3): Memory allocation function returned NULL"
  else if (err =? 4)%Z then "dfk_err_notfound(4): Object not found"
  else if (err =? 5)%Z then "dfk_err_badarg(5): Bad argument"
  else if (err =? 6)%Z then
    match strerror_ with
    | Some s => s
    | None =>
        "dfk_err_sys(6): System error, dfk_t object is NULL, can not access sys_errno"
    end
  else if (err =? 7)%Z then "dfk_err_inprog(7): The operation is already in progress"
  else if (err =? 8)%Z then "dfk_err_panic(8): Unexpected behaviour"
  else if (err =? 9)%Z then "dfk_err_not_implemented(9): Functionality is not implemented yet"
  else if (err =? 10)%Z then "dfk_err_overflow(10): Floating point, or integer overflow error"
  else if (err =? 11)%Z then "dfk_err_protocol(11): Protocol violation"
  else if (err =? 12)%Z then "dfk_err_timeout(12): Timeout has expired"
  else if (err =? 13)%Z then "dfk_err_connection_refused(13): Another part refused the connection"
  else if (err =? 14)%Z then "dfk_err_stopped(14): Method dfk_stop() have been called"
  else "Unknown error".

Close Scope string_scope.
