(* ===== verification/Misc.v ===== *)
(** * Buffers, number parsing and substring search

    The buffer types of [dfk/misc.h] with the functions of [src/src/misc.c],
    [dfk_strtoll] of [src/src/strtoll.c] on top of C's [strtoll], the portable
    [dfkp_memmem] of [src/src/portable/memmem.c], and the names of I/O events
    of [src/src/eventloop.c]. *)

From S2P Require Import Prelude Bytes Error.

(** ** Buffers *)

Record dfk_buf_t := Buf { b_data : Z; b_size : Z }.

#[export] Instance dfk_buf_eq_dec : EqDecision dfk_buf_t.
Proof. solve_decision. Defined.

(** The new value of [*to]. *)
Definition dfk_buf_append {S} (to : dfk_buf_t) (data size : Z) : M S dfk_buf_t :=
  if nonnull (b_data to) then
    c_assert (b_data to + b_size to =? data);;
    mret (Buf (b_data to) (to_size (b_size to + size)))
  else mret (Buf data size).

Definition dfk_cbuf_append {S} (to : dfk_buf_t) (data size : Z) : M S dfk_buf_t :=
  dfk_buf_append to data size.

(** ** C's [strtoll] on the characters before the terminating NUL *)

Definition LLONG_MAX : Z := 2 ^ 63 - 1.
Definition LLONG_MIN : Z := - 2 ^ 63.

Definition isspace (c : Z) : bool := (c =? 32) || ((9 <=? c) && (c <=? 13)).

(** Value of a digit in the largest base. *)
Definition digit_value (c : Z) : option Z :=
  if (48 <=? c) && (c <=? 57) then Some (c - 48)
  else if (97 <=? c) && (c <=? 122) then Some (c - 87)
  else if (65 <=? c) && (c <=? 90) then Some (c - 55)
  else None.

Definition digit_in (base c : Z) : option Z :=
  match digit_value c with Some d => if d <? base then Some d else None | None => None end.

(** The value read so far and the number of digits. *)
Fixpoint read_digits (base : Z) (s : list Z) (acc n : Z) : Z * Z :=
  match s with
  | c :: s' =>
      match digit_in base c with
      | Some d => read_digits base s' (acc * base + d) (n + 1)
      | None => (acc, n)
      end
  | [] => (acc, n)
  end.

Fixpoint skip_spaces (s : list Z) : list Z * Z :=
  match s with
  | c :: s' => if isspace c then let '(r, n) := skip_spaces s' in (r, n + 1) else (s, 0)
  | [] => ([], 0)
  end.

Definition read_sign (s : list Z) : bool * list Z * Z :=
  match s with
  | 45 :: s' => (true, s', 1)
  | 43 :: s' => (false, s', 1)
  | _ => (false, s, 0)
  end.

(** The base in effect and the prefix it takes. *)
Definition read_base (base : Z) (s : list Z) : Z * list Z * Z :=
  match s with
  | 48 :: x :: c :: s' =>
      if ((x =? 120) || (x =? 88)) && ((base =? 0) || (base =? 16)) &&
         (match digit_in 16 c with Some _ => true | None => false end)
      then (16, c :: s', 2)
      else (if base =? 0 then 8 else base, s, 0)
  | 48 :: _ => (if base =? 0 then 8 else base, s, 0)
  | _ => (if base =? 0 then 10 else base, s, 0)
  end.

Inductive errno := E_NONE | E_RANGE | E_INVAL.

(** Value, number of characters consumed, [errno]. *)
Definition strtoll (s : list Z) (base : Z) : Z * Z * errno :=
  if (base =? 1) || (base <? 0) || (36 <? base) then (0, 0, E_INVAL) else
  let '(s1, n1) := skip_spaces s in
  let '(neg, s2, n2) := read_sign s1 in
  let '(b, s3, n3) := read_base base s2 in
  let '(v, n) := read_digits b s3 0 0 in
  if n =? 0 then (0, 0, E_NONE) else
  let v := if neg : bool then - v else v in
  let consumed := n1 + n2 + n3 + n in
  if LLONG_MAX <? v then (LLONG_MAX, consumed, E_RANGE)
  else if v <? LLONG_MIN then (LLONG_MIN, consumed, E_RANGE)
  else (v, consumed, E_NONE).

(** The characters of a C string. *)
Fixpoint c_string (s : list Z) : list Z :=
  match s with
  | c :: s' => if c =? 0 then [] else c :: c_string s'
  | [] => []
  end.

(** [sizeof(ntcopy)] *)
Definition NTCOPY_SIZE : Z := 22.

(** The error code, [*endptr] and [*out]; the last two only on success. *)
Definition dfk_strtoll (nbuf : dfk_buf_t) (base : Z) : M bmem (Z * option (Z * Z)) :=
  if NTCOPY_SIZE <=? b_size nbuf then mret (err_code dfk_err_overflow, None) else
  ntcopy ← read_bytes (b_data nbuf) (Z.to_nat (b_size nbuf));
  let '(res, consumed, e) := strtoll (c_string ntcopy) base in
  match e with
  | E_RANGE => mret (err_code dfk_err_overflow, None)
  | E_INVAL => mret (err_code dfk_err_badarg, None)
  | E_NONE =>
      if consumed =? 0 then mret (err_code dfk_err_badarg, None)
      else mret (err_code dfk_err_ok, Some (b_data nbuf + consumed, res))
  end.

(** ** Substring search *)

(** [memcmp(p, q, n) == 0] *)
Fixpoint memcmp_eq (n : nat) (p q : Z) : M bmem bool :=
  match n with
  | O => mret true
  | S n =>
      a ← load p; b ← load q;
      if a =? b then memcmp_eq n (p + 1) (q + 1) else mret false
  end.

Definition memmem_body (last needle needle_len : Z) (cur : Z) : M bmem (Z + Z) :=
  if cur <=? last then
    eq ← memcmp_eq (Z.to_nat needle_len) cur needle;
    if eq : bool then mret (inr cur) else mret (inl (cur + 1))
  else mret (inr 0).

(** The variant for systems without [memmem]. *)
Definition dfkp_memmem (haystack haystack_len needle needle_len : Z) : M bmem Z :=
  if (haystack_len =? 0) || (needle_len =? 0) then mret 0 else
  if haystack_len <? needle_len then mret 0 else
  let last := haystack + haystack_len - needle_len in
  loop (S (S (Z.to_nat haystack_len))) (memmem_body last needle needle_len) haystack.

(** ** Names of I/O events *)

Definition DFK_IO_IN : Z := 1.
Definition DFK_IO_OUT : Z := 2.
Definition DFK_IO_ERR : Z := 4.

(** [all_events]: flag and name. *)
Definition all_events : list (Z * list Z) :=
  [(DFK_IO_IN, [73; 78]); (DFK_IO_OUT, [79; 85; 84]); (DFK_IO_ERR, [69; 82; 82])].

Fixpoint events_loop (events end_ : Z) (evs : list (Z * list Z)) (buf : Z) (first : bool) :
    M bmem Z :=
  match evs with
  | [] => mret buf
  | (ev, str) :: evs =>
      if Z.land events ev =? 0 then events_loop events end_ evs buf first else
      if end_ - buf <? Z.of_nat (length str) + (if first then 0 else 1) then mret buf else
      buf ← (if first then mret buf else store_byte buf 124;; mret (buf + 1));
      write_bytes buf str;;
      events_loop events end_ evs (buf + Z.of_nat (length str)) false
  end.

Definition dfk__io_events_to_str (events buf buflen : Z) : M bmem Z :=
  end_ ← events_loop events (buf + buflen) all_events buf true;
  mret (end_ - buf).
