(* ===== verification/MiscTheorems.v ===== *)
(** * What is proved of number parsing, substring search and event names *)

From S2P Require Import Prelude Bytes Error Misc.

(** ** Decimal notation *)

(** Digits of a number, most significant first; [fuel] bounds their count. *)
Fixpoint decimal (fuel : nat) (n : Z) : list Z :=
  match fuel with
  | O => []
  | S fuel => if n <? 10 then [48 + n] else decimal fuel (n / 10) ++ [48 + n mod 10]
  end.

(** The text of a [long long]; it has at most 19 digits. *)
Definition print_int (n : Z) : list Z :=
  if n <? 0 then 45 :: decimal 19 (- n) else decimal 19 n.

Definition is_digit (c : Z) : Prop := 48 <= c <= 57.

Definition digits_value (acc : Z) (s : list Z) : Z := fold_left (fun a c => a * 10 + (c - 48)) s acc.

Lemma digit_in_dec c : is_digit c -> digit_in 10 c = Some (c - 48).
Proof.
  intros Hc. unfold is_digit in Hc. unfold digit_in, digit_value.
  destruct (Z.leb_spec 48 c); [|lia]. destruct (Z.leb_spec c 57); [|lia]. cbn [andb].
  by destruct (Z.ltb_spec (c - 48) 10); [|lia].
Qed.

Lemma read_digits_dec s : forall acc n, Forall is_digit s ->
  read_digits 10 s acc n = (digits_value acc s, n + Z.of_nat (length s)).
Proof.
  induction s as [|c s IH]; intros acc n Hs; cbn [read_digits].
  - f_equal. cbn. lia.
  - apply Forall_cons in Hs as [Hc Hs]. rewrite (digit_in_dec _ Hc), IH by done.
    f_equal. cbn [length]. lia.
Qed.

Lemma digits_value_app s s' acc : digits_value acc (s ++ s') = digits_value (digits_value acc s) s'.
Proof. apply fold_left_app. Qed.

Lemma decimal_spec fuel : forall n, 0 <= n < 10 ^ Z.of_nat fuel -> (0 < fuel)%nat ->
  Forall is_digit (decimal fuel n) /\ digits_value 0 (decimal fuel n) = n /\
  (0 < length (decimal fuel n) <= fuel)%nat.
Proof.
  induction fuel as [|fuel IH]; intros n Hn Hf; [lia|]. cbn [decimal].
  destruct (Z.ltb_spec n 10) as [Hlt|Hge].
  - split_and!; [|cbn; lia..]. apply Forall_singleton. unfold is_digit. lia.
  - rewrite Nat2Z.inj_succ, Z.pow_succ_r in Hn by lia.
    assert (0 < fuel)%nat as Hf' by (destruct fuel; [cbn in Hn|]; lia).
    destruct (IH (n / 10)) as (H1 & H2 & H3); [|done|].
    { split; [apply Z.div_pos; lia|]. apply Z.div_lt_upper_bound; lia. }
    pose proof (Z.mod_pos_bound n 10 ltac:(lia)). split_and!.
    + apply Forall_app. split; [done|]. apply Forall_singleton. unfold is_digit. lia.
    + rewrite digits_value_app, H2. cbn. pose proof (Z.div_mod n 10). lia.
    + rewrite length_app. cbn. lia.
    + rewrite length_app. cbn. lia.
Qed.

Lemma decimal_first fuel n : 0 <= n < 10 ^ Z.of_nat fuel -> (0 < fuel)%nat ->
  exists c s, decimal fuel n = c :: s /\ is_digit c.
Proof.
  intros Hn Hf. destruct (decimal_spec fuel n Hn Hf) as (Hd & _ & Hlen).
  destruct (decimal fuel n) as [|c s]; [cbn in Hlen; lia|]. apply Forall_cons in Hd as [Hc _].
  by exists c, s.
Qed.

Lemma c_string_id s : Forall (fun c => c <> 0) s -> c_string s = s.
Proof.
  induction s as [|c s IH]; [done|]. intros [Hc Hs]%Forall_cons. cbn.
  rewrite (proj2 (Z.eqb_neq _ _)) by done. by rewrite IH.
Qed.

Lemma c_string_length s : (length (c_string s) <= length s)%nat.
Proof. induction s as [|c s IH]; [done|]. cbn. destruct (c =? 0); cbn; lia. Qed.

Lemma skip_digit c s : is_digit c -> skip_spaces (c :: s) = (c :: s, 0).
Proof.
  intros Hc. unfold is_digit in Hc. cbn. unfold isspace.
  rewrite (proj2 (Z.eqb_neq c 32)), (proj2 (Z.leb_gt c 13)) by lia. by rewrite andb_false_r.
Qed.

(** A character that is a digit is one of ten. *)
Lemma digit_cases c : is_digit c ->
  c = 48 \/ c = 49 \/ c = 50 \/ c = 51 \/ c = 52 \/ c = 53 \/ c = 54 \/ c = 55 \/ c = 56 \/ c = 57.
Proof. unfold is_digit. lia. Qed.

Lemma sign_digit c s : is_digit c -> read_sign (c :: s) = (false, c :: s, 0).
Proof. intros Hc%digit_cases. by destruct_or! Hc; subst c. Qed.

(** A decimal number starts with no base prefix. *)
Lemma base_digits s : read_base 10 s = (10, s, 0).
Proof.
  destruct s as [|c s]; [done|]. unfold read_base.
  destruct c as [|c|c]; try done. do 6 (destruct c as [c|c|]; try done).
  destruct s as [|x [|d s]]; try done. by rewrite andb_false_r.
Qed.

Lemma strtoll_digits (neg : bool) s v : Forall is_digit s -> s <> [] ->
  v = (if neg then - digits_value 0 s else digits_value 0 s) -> LLONG_MIN <= v <= LLONG_MAX ->
  strtoll (if neg then 45 :: s else s) 10 =
    (v, Z.of_nat (length (if neg then 45 :: s else s)), E_NONE).
Proof.
  intros Hs Hne -> Hv. destruct s as [|c s']; [done|]. pose proof (proj1 (proj1 (Forall_cons _ _ _) Hs)) as Hc.
  assert (forall b : bool, Z.of_nat (length (c :: s')) =? 0 = false) as Hn.
  { intros _. apply Z.eqb_neq. cbn. lia. }
  unfold strtoll. cbn [orb Z.eqb Z.ltb Z.compare Pos.compare Pos.compare_cont].
  destruct neg.
  - assert (skip_spaces (45 :: c :: s') = (45 :: c :: s', 0)) as -> by done. cbn [read_sign].
    rewrite base_digits, read_digits_dec by done. rewrite Z.add_0_l, (Hn true).
    cbn [orb]. rewrite (proj2 (Z.ltb_ge _ _)), (proj2 (Z.ltb_ge _ _)) by lia.
    f_equal. f_equal. cbn [length]. lia.
  - rewrite skip_digit, sign_digit by done. rewrite base_digits, read_digits_dec by done.
    rewrite Z.add_0_l, (Hn true).
    rewrite (proj2 (Z.ltb_ge _ _)), (proj2 (Z.ltb_ge _ _)) by lia.
    done.
Qed.

Lemma print_int_spec n : LLONG_MIN <= n <= LLONG_MAX ->
  strtoll (print_int n) 10 = (n, Z.of_nat (length (print_int n)), E_NONE) /\
  (0 < length (print_int n) <= 20)%nat /\ Forall (fun c => c <> 0) (print_int n).
Proof.
  intros Hn. unfold LLONG_MIN, LLONG_MAX in Hn. unfold print_int.
  assert (forall k, 0 <= k <= 2 ^ 63 -> Forall is_digit (decimal 19 k) /\
    digits_value 0 (decimal 19 k) = k /\ (0 < length (decimal 19 k) <= 19)%nat) as Hdec.
  { intros k Hk. apply decimal_spec; lia. }
  assert (forall s, Forall is_digit s -> Forall (fun c => c <> 0) s) as Hnz.
  { intros s Hs. eapply Forall_impl; [exact Hs|]. unfold is_digit. cbn. lia. }
  destruct (Z.ltb_spec n 0).
  - destruct (Hdec (- n) ltac:(lia)) as (H1 & H2 & H3). split_and!.
    + apply (strtoll_digits true); [done| |cbv iota; lia|done]. by intros E; rewrite E in H3; cbn in H3; lia.
    + cbn. lia.
    + cbn [length]. lia.
    + apply Forall_cons. split; [lia|auto].
  - destruct (Hdec n ltac:(lia)) as (H1 & H2 & H3). split_and!; [|lia|lia|auto].
    apply (strtoll_digits false); [done| |done|done]. by intros E; rewrite E in H3; cbn in H3; lia.
Qed.

Lemma strtoll_run m p bs base : bytes_at m p bs -> Z.of_nat (length bs) < NTCOPY_SIZE ->
  dfk_strtoll (Buf p (Z.of_nat (length bs))) base m =
    match strtoll (c_string bs) base with
    | (_, _, E_RANGE) => Ok (err_code dfk_err_overflow, None, m)
    | (_, _, E_INVAL) => Ok (err_code dfk_err_badarg, None, m)
    | (res, consumed, E_NONE) =>
        if consumed =? 0 then Ok (err_code dfk_err_badarg, None, m)
        else Ok (err_code dfk_err_ok, Some (p + consumed, res), m)
    end.
Proof.
  intros Hb Hlen. unfold dfk_strtoll. cbn [b_size b_data]. rewrite (proj2 (Z.leb_gt _ _)) by done.
  rewrite Nat2Z.id. unfold mbind, M_bind.
  pose proof (wp_read_bytes bs m p (fun r m' => r = bs /\ m' = m) Hb (conj eq_refl eq_refl)) as Hw.
  apply wp_run in Hw as (? & ? & -> & -> & ->). destruct (strtoll _ _) as [[v k] []]; [|done..].
  by destruct (k =? 0).
Qed.

(** C36: parsing is the inverse of printing: for every [long long], [dfk_strtoll]
    reads its decimal text, which never exceeds the local copy, returns the
    number, and [endptr] is the end of the text. *)
Theorem strtoll_roundtrip (m : bmem) (p n : Z)
    (Hn : LLONG_MIN <= n <= LLONG_MAX) (Htext : bytes_at m p (print_int n)) :
  let len := Z.of_nat (length (print_int n)) in
  dfk_strtoll (Buf p len) 10 m = Ok (err_code dfk_err_ok, Some (p + len, n), m).
Proof.
  destruct (print_int_spec n Hn) as (Hs & Hlen & Hnz). cbn zeta.
  rewrite strtoll_run by (try done; unfold NTCOPY_SIZE; lia).
  rewrite c_string_id, Hs by done. by rewrite (proj2 (Z.eqb_neq _ _)) by lia.
Qed.

Definition text_mem (p : Z) (bs : list Z) : bmem := put_bytes p bs (BMem ∅ ∅).

Lemma strtoll_roundtrip_witness :
  dfk_strtoll (Buf 64 20) 10 (text_mem 64 (print_int (- 2 ^ 63))) =
    Ok (0, Some (84, - 2 ^ 63), text_mem 64 (print_int (- 2 ^ 63))).
Proof.
  pose proof (strtoll_roundtrip (text_mem 64 (print_int (- 2 ^ 63))) 64 (- 2 ^ 63)) as H.
  assert (Z.of_nat (length (print_int (- 2 ^ 63))) = 20) as Hlen by (vm_compute; reflexivity).
  cbv zeta in H. rewrite Hlen in H. apply H.
  - split; discriminate.
  - by apply bytes_put_same.
Defined.

Lemma skip_spaces_length s r n : skip_spaces s = (r, n) ->
  0 <= n /\ n + Z.of_nat (length r) = Z.of_nat (length s).
Proof.
  revert r n. induction s as [|c s IH]; intros r n; cbn [skip_spaces].
  - intros [= <- <-]. cbn. lia.
  - destruct (isspace c); [|intros [= <- <-]; cbn; lia].
    destruct (skip_spaces s) as [r' n']. intros [= <- <-]. destruct (IH _ _ eq_refl). cbn [length]. lia.
Qed.

Lemma read_sign_length s neg r n : read_sign s = (neg, r, n) ->
  0 <= n /\ n + Z.of_nat (length r) = Z.of_nat (length s).
Proof.
  destruct s as [|c s]; [by intros [= <- <- <-]|]. unfold read_sign.
  destruct c as [|c|c]; try by intros [= <- <- <-].
  do 6 (destruct c as [c|c|]; try by (intros [= <- <- <-]; cbn [length]; lia)).
Qed.

Lemma read_base_length base s b r n : read_base base s = (b, r, n) ->
  0 <= n /\ n + Z.of_nat (length r) = Z.of_nat (length s).
Proof.
  destruct s as [|c s]; [by intros [= <- <- <-]|]. unfold read_base.
  destruct c as [|c|c]; try by (intros [= <- <- <-]; cbn [length]; lia).
  do 6 (destruct c as [c|c|]; try by (intros [= <- <- <-]; cbn [length]; lia)).
  destruct s as [|x [|d s]]; try by (intros [= <- <- <-]; cbn [length]; lia).
  destruct (_ && _ && _); intros [= <- <- <-]; cbn [length]; lia.
Qed.

Lemma read_digits_length base s : forall acc n v k, read_digits base s acc n = (v, k) ->
  n <= k <= n + Z.of_nat (length s).
Proof.
  induction s as [|c s IH]; intros acc n v k; cbn [read_digits].
  - intros [= <- <-]. cbn. lia.
  - destruct (digit_in base c); [|intros [= <- <-]; cbn [length]; lia].
    intros H%IH. cbn [length]. lia.
Qed.

Lemma strtoll_range s base v k e : strtoll s base = (v, k, e) ->
  LLONG_MIN <= v <= LLONG_MAX /\ 0 <= k <= Z.of_nat (length s).
Proof.
  unfold strtoll. destruct (_ || _ || _); [intros [= <- <- <-]; unfold LLONG_MIN, LLONG_MAX; lia|].
  destruct (skip_spaces s) as [s1 n1] eqn:E1. destruct (read_sign s1) as [[neg s2] n2] eqn:E2.
  destruct (read_base base s2) as [[b s3] n3] eqn:E3. destruct (read_digits b s3 0 0) as [w n] eqn:E4.
  apply skip_spaces_length in E1. apply read_sign_length in E2. apply read_base_length in E3.
  apply read_digits_length in E4.
  destruct (n =? 0); [intros [= <- <- <-]; unfold LLONG_MIN, LLONG_MAX; lia|].
  repeat case_match; intros [= <- <- <-]; unfold LLONG_MIN, LLONG_MAX in *; lia.
Qed.

(** Whatever the buffer holds, [dfk_strtoll] reads nothing outside of it and
    writes nothing; it reports an overflow for buffers of 22 bytes and more,
    and on success the number fits a [long long] and [endptr] lies behind the
    first byte of the buffer and not behind its end. *)
Theorem strtoll_bounds (m : bmem) (p base : Z) (bs : list Z) (Htext : bytes_at m p bs) :
  exists r, dfk_strtoll (Buf p (Z.of_nat (length bs))) base m = Ok (r, m) /\
    match r with
    | (code, Some (endptr, n)) =>
        code = err_code dfk_err_ok /\ LLONG_MIN <= n <= LLONG_MAX /\
        p < endptr <= p + Z.of_nat (length bs) /\ Z.of_nat (length bs) < 22
    | (code, None) =>
        code = err_code dfk_err_badarg \/ code = err_code dfk_err_overflow
    end /\
    (22 <= Z.of_nat (length bs) -> r = (err_code dfk_err_overflow, None)).
Proof.
  destruct (Z.le_gt_cases NTCOPY_SIZE (Z.of_nat (length bs))) as [Hle|Hlt]; unfold NTCOPY_SIZE in *.
  - exists (err_code dfk_err_overflow, None). unfold dfk_strtoll. cbn [b_size]. unfold NTCOPY_SIZE.
    rewrite (proj2 (Z.leb_le _ _)) by done. split_and!; auto.
  - rewrite strtoll_run by done. pose proof (c_string_length bs) as Hc.
    destruct (strtoll (c_string bs) base) as [[v k] e] eqn:E.
    destruct (strtoll_range _ _ _ _ _ E) as [Hv Hk].
    destruct e; [destruct (Z.eqb_spec k 0)|..]; eexists; (split; [reflexivity|]);
      (split; [|lia]); auto; cbn beta iota; split_and!; first [done|lia].
Qed.

Lemma strtoll_bounds_witness :
  exists r, dfk_strtoll (Buf 64 5) 10 (text_mem 64 [32; 45; 52; 50; 120]) =
    Ok (r, text_mem 64 [32; 45; 52; 50; 120]) /\ r = (0, Some (68, -42)).
Proof.
  destruct (strtoll_bounds (text_mem 64 [32; 45; 52; 50; 120]) 64 10 [32; 45; 52; 50; 120])
    as (r & Hr & _); [by apply bytes_put_same|].
  exists r. split; [exact Hr|]. assert (Ok (r, text_mem 64 [32; 45; 52; 50; 120]) =
    Ok (0, Some (68, -42), text_mem 64 [32; 45; 52; 50; 120])) as E by (rewrite <- Hr; reflexivity).
  by injection E.
Defined.

(** ** Substring search *)

(** [needle] occurs in [hay] at offset [i]. *)
Definition occurs_at (needle hay : list Z) (i : nat) : Prop :=
  take (length needle) (drop i hay) = needle.

#[export] Instance occurs_at_dec needle hay i : Decision (occurs_at needle hay i).
Proof. unfold occurs_at. apply _. Defined.

Lemma memcmp_eq_spec xs : forall ys m p q (Q : bool -> bmem -> Prop),
  length xs = length ys -> bytes_at m p xs -> bytes_at m q ys ->
  Q (bool_decide (xs = ys)) m -> wp (memcmp_eq (length xs) p q) m Q.
Proof.
  induction xs as [|x xs IH]; intros [|y ys] m p q Q Hl Hx Hy HQ; try done.
  apply bytes_cons in Hx as (Hp & Hxp & Hx). apply bytes_cons in Hy as (Hq & Hyq & Hy).
  cbn [length memcmp_eq]. apply wp_bind. eapply wp_load; [lia|done|].
  apply wp_bind. eapply wp_load; [lia|done|]. destruct (Z.eqb_spec x y) as [->|Hne].
  - apply (IH ys); [by injection Hl|exact Hx|exact Hy|]. destruct (decide (xs = ys)) as [->|Hn].
    + by rewrite bool_decide_eq_true_2 in HQ |- *.
    + rewrite bool_decide_eq_false_2 in HQ |- * by congruence. done.
  - apply wp_ret. by rewrite bool_decide_eq_false_2 in HQ by congruence.
Qed.

Lemma bytes_slice m p bs i n : bytes_at m p bs -> (i <= length bs)%nat ->
  bytes_at m (p + Z.of_nat i) (take n (drop i bs)).
Proof.
  intros Hb Hi. rewrite <- (take_drop i bs) in Hb. apply bytes_app in Hb as (_ & _ & Hb).
  rewrite length_take_le in Hb by done. rewrite <- (take_drop n (drop i bs)) in Hb.
  by apply bytes_app in Hb as (Hb & _).
Qed.

(** [dfkp_memmem] returns the first occurrence of the needle, or NULL when
    there is none; an empty needle is never found.  Both ranges are only read,
    and the search ends. *)
Theorem memmem_first (m : bmem) (p q : Z) (hay needle : list Z)
    (Hhay : bytes_at m p hay) (Hneedle : bytes_at m q needle) :
  exists r, dfkp_memmem p (Z.of_nat (length hay)) q (Z.of_nat (length needle)) m = Ok (r, m) /\
    ((r = 0 /\ (needle <> [] -> forall i, ~ occurs_at needle hay i)) \/
     exists i, r = p + Z.of_nat i /\ needle <> [] /\ occurs_at needle hay i /\
       forall j, (j < i)%nat -> ~ occurs_at needle hay j).
Proof.
  set (post := fun r : Z => (r = 0 /\ (needle <> [] -> forall i, ~ occurs_at needle hay i)) \/
     exists i, r = p + Z.of_nat i /\ needle <> [] /\ occurs_at needle hay i /\
       forall j, (j < i)%nat -> ~ occurs_at needle hay j).
  assert (forall i, occurs_at needle hay i -> needle <> [] -> (i + length needle <= length hay)%nat) as Hfit.
  { intros i Ho Hne. unfold occurs_at in Ho. apply (f_equal length) in Ho.
    rewrite length_take, length_drop in Ho. destruct needle; [done|]. cbn [length] in *. lia. }
  enough (wp (dfkp_memmem p (Z.of_nat (length hay)) q (Z.of_nat (length needle))) m
    (fun r m' => post r /\ m' = m)) as Hw.
  { apply wp_run in Hw as (r & ? & Hr & Hp & ->). by exists r. }
  unfold dfkp_memmem. destruct (Z.eqb_spec (Z.of_nat (length hay)) 0) as [Hh|Hh].
  { apply wp_ret. split; [|done]. left. split; [done|]. intros Hne i Ho%Hfit; [|done].
    destruct needle; [done|]. cbn in Ho. lia. }
  destruct (Z.eqb_spec (Z.of_nat (length needle)) 0) as [Hn|Hn].
  { apply wp_ret. split; [|done]. left. split; [done|]. by destruct needle. }
  cbn [orb]. assert (needle <> []) as Hne by (by intros ->).
  destruct (Z.ltb_spec (Z.of_nat (length hay)) (Z.of_nat (length needle))).
  { apply wp_ret. split; [|done]. left. split; [done|]. intros _ i Ho%Hfit; [lia|done]. }
  set (last := p + Z.of_nat (length hay) - Z.of_nat (length needle)).
  apply (wp_loop (fun n cur m' => m' = m /\ exists i, cur = p + Z.of_nat i /\
    (n + i = S (length hay))%nat /\ (i + length needle <= S (length hay))%nat /\
    forall j, (j < i)%nat -> ~ occurs_at needle hay j)
    _ _ _ (S (length hay))).
  - intros n cur m' (-> & i & -> & Hni & Hi & Hj). unfold memmem_body.
    destruct (Z.leb_spec (p + Z.of_nat i) last) as [Hle|Hgt]; unfold last in *.
    + apply wp_bind. rewrite Nat2Z.id.
      assert (length (take (length needle) (drop i hay)) = length needle) as Hlen.
      { rewrite length_take, length_drop. lia. }
      rewrite <- Hlen at 1. eapply memcmp_eq_spec; [done|apply bytes_slice; [done|lia]|done|].
      destruct (decide (occurs_at needle hay i)) as [Ho|Ho].
      * rewrite bool_decide_eq_true_2 by done. apply wp_ret. split; [|done]. right. by exists i.
      * rewrite bool_decide_eq_false_2 by done. apply wp_ret. exists (n - 1)%nat.
        split; [lia|]. split; [done|]. exists (S i). split_and!; [lia..|].
        intros j Hjs. destruct (decide (j = i)) as [->|]; [done|]. apply Hj. lia.
    + apply wp_ret. split; [|done]. left. split; [done|]. intros _ j Ho.
      pose proof (Hfit j Ho Hne). apply (Hj j); [lia|done].
  - split; [done|]. exists 0%nat. split_and!; [lia..|]. lia.
  - rewrite Nat2Z.id. lia.
Qed.

Definition sample_texts : bmem := put_bytes 8 [3; 2; 1; 2; 1; 2; 2] (put_bytes 100 [2; 1; 2; 2] (BMem ∅ ∅)).

Lemma memmem_first_witness : exists r, dfkp_memmem 8 7 100 4 sample_texts = Ok (r, sample_texts) /\ r = 11.
Proof.
  destruct (memmem_first sample_texts 8 100 [3; 2; 1; 2; 1; 2; 2] [2; 1; 2; 2]) as (r & Hr & _).
  - by apply bytes_put_same.
  - apply bytes_put_apart; [|by apply bytes_put_same]. left. cbn. lia.
  - exists r. split; [exact Hr|]. assert (Ok (r, sample_texts) = Ok (11, sample_texts)) as E
      by (rewrite <- Hr; vm_compute; reflexivity).
    by injection E.
Defined.

(** ** Names of events *)

(** What is written for [evs] into [room] bytes. *)
Fixpoint events_text (events room : Z) (evs : list (Z * list Z)) (first : bool) : list Z :=
  match evs with
  | [] => []
  | (ev, str) :: evs =>
      if Z.land events ev =? 0 then events_text events room evs first else
      let sep := if first then [] else [124] in
      let k := Z.of_nat (length (sep ++ str)) in
      if room <? k then [] else sep ++ str ++ events_text events (room - k) evs false
  end.

Lemma events_loop_spec events end_ evs : forall m buf first (Q : Z -> bmem -> Prop),
  room_at m buf (end_ - buf) ->
  (let out := events_text events (end_ - buf) evs first in
   Q (buf + Z.of_nat (length out)) (put_bytes buf out m)) ->
  wp (events_loop events end_ evs buf first) m Q.
Proof.
  induction evs as [|[ev str] evs IH]; intros m buf first Q Hroom HQ; cbn [events_loop events_text] in *.
  { apply wp_ret. rewrite put_nil in HQ. by rewrite Z.add_0_r in HQ. }
  destruct (Z.land events ev =? 0); [by apply IH|].
  set (sep := if first then [] else [124]) in *.
  assert (Z.of_nat (length (sep ++ str)) = Z.of_nat (length str) + (if first then 0 else 1)) as Hk.
  { unfold sep. destruct first; rewrite length_app; cbn [length]; lia. }
  rewrite Hk in HQ. destruct (Z.ltb_spec (end_ - buf) (Z.of_nat (length str) + (if first then 0 else 1))) as [|Hfit].
  { apply wp_ret. cbn in HQ. rewrite put_nil in HQ. by rewrite Z.add_0_r in HQ. }
  apply wp_bind. apply (wp_mono _ _ (fun b m' => b = buf + Z.of_nat (length sep) /\ m' = put_bytes buf sep m)).
  { unfold sep. destruct first; [apply wp_ret|].
    - rewrite put_nil. cbn. split; [lia|done].
    - apply wp_bind, wp_store_byte; [eapply room_mono; [|exact Hroom]; lia|]. by apply wp_ret. }
  intros ? ? [-> ->]. apply wp_bind.
  assert (Z.of_nat (length sep) = if first then 0 else 1) as Hsep by (unfold sep; by destruct first).
  assert (forall k, room_at m buf (end_ - buf) -> 0 <= k -> room_at m (buf + k) (end_ - (buf + k))) as Htail.
  { intros k Hr Hk0. replace (end_ - (buf + k)) with (end_ - buf - k) by lia. by apply room_tail. }
  apply wp_write_bytes; [apply room_put; eapply room_mono; [|apply Htail; [done|lia]]; lia|].
  apply IH.
  - do 2 apply room_put. rewrite <- Z.add_assoc. apply Htail; [done|lia].
  - cbn zeta. rewrite !put_app, !length_app in HQ. cbn zeta in HQ.
    replace (end_ - (buf + Z.of_nat (length sep) + Z.of_nat (length str)))
      with (end_ - buf - (Z.of_nat (length str) + (if first then 0 else 1))) by lia.
    replace (buf + Z.of_nat (length sep) + Z.of_nat (length str) + Z.of_nat (length
      (events_text events (end_ - buf - (Z.of_nat (length str) + (if first then 0 else 1))) evs false)))
      with (buf + Z.of_nat (length sep + (length str + length
        (events_text events (end_ - buf - (Z.of_nat (length str) + (if first then 0 else 1))) evs false)))%nat) by lia.
    done.
Qed.

(** The names joined by bars, with no bound on the room. *)
Definition event_names (events : Z) : list Z := events_text events 16 all_events true.

(** [dfk__io_events_to_str] never writes outside of the buffer, whatever
    its size; a buffer of ten bytes holds the names of all events, of
    sixteen (the size all callers use) always does, and a smaller one gets a
    prefix of the names. *)
Theorem io_events_bounds (m : bmem) (events buf buflen : Z) (Hroom : room_at m buf buflen) :
  exists out, dfk__io_events_to_str events buf buflen m =
      Ok (Z.of_nat (length out), put_bytes buf out m) /\
    Z.of_nat (length out) <= Z.max 0 buflen /\
    (exists rest, event_names events = out ++ rest) /\
    (10 <= buflen -> out = event_names events).
Proof.
  assert (0 <= buflen \/ buflen < 0) as Hs by lia.
  assert (forall b evs first, Z.of_nat (length (events_text events b evs first)) <= Z.max 0 b) as Hbound.
  { intros b evs. revert b. induction evs as [|[ev str] evs IH]; intros b first; cbn [events_text]; [cbn; lia|].
    destruct (Z.land events ev =? 0); [apply IH|].
    destruct (Z.ltb_spec b (Z.of_nat (length ((if first then [] else [124]) ++ str)))); [cbn; lia|].
    rewrite app_assoc, length_app.
    pose proof (IH (b - Z.of_nat (length ((if first then [] else [124]) ++ str))) false). lia. }
  exists (events_text events buflen all_events true). split_and!.
  - assert (wp (dfk__io_events_to_str events buf buflen) m (fun r m' =>
      r = Z.of_nat (length (events_text events buflen all_events true)) /\
      m' = put_bytes buf (events_text events buflen all_events true) m)) as Hw.
    { unfold dfk__io_events_to_str. apply wp_bind. apply events_loop_spec.
      - by rewrite Z.add_simpl_l.
      - cbn zeta. rewrite Z.add_simpl_l. apply wp_ret. by rewrite Z.add_simpl_l. }
    by apply wp_run in Hw as (? & ? & -> & -> & ->).
  - apply Hbound.
  - unfold event_names, all_events. cbn [events_text length app].
    repeat case_match; cbn [app]; rewrite ?Z.ltb_lt, ?Z.ltb_ge in *; first [exfalso; first [done|congruence|lia] | by eexists].
  - intros Hb. unfold event_names, all_events. cbn [events_text length app].
    repeat case_match; rewrite ?Z.ltb_lt, ?Z.ltb_ge in *; first [done|exfalso; lia].
Qed.

Lemma io_events_bounds_witness : exists out,
  dfk__io_events_to_str 5 64 4 (text_mem 64 [0; 0; 0; 0]) =
    Ok (Z.of_nat (length out), put_bytes 64 out (text_mem 64 [0; 0; 0; 0])) /\ Z.of_nat (length out) <= 4.
Proof.
  destruct (io_events_bounds (text_mem 64 [0; 0; 0; 0]) 5 64 4) as (out & Hr & Hlen & _).
  - apply (bytes_room _ _ [0; 0; 0; 0]). by apply bytes_put_same.
  - exists out. exact (conj Hr Hlen).
Defined.
