(* ===== verification/Sponge.v ===== *)
(** * [sponge.c]: an in-memory byte stream

    A sponge is a block of memory with a read position; [base], [cur] and the
    sizes are those of [dfk__sponge_t].  The allocator is the parameter of
    [dfk__malloc]. *)

From S2P Require Import Prelude Bytes Error.

Record dfk__sponge_t := Sponge { base : Z; cur : Z; size : Z; capacity : Z; sdfk : Z }.

Record smem := SMem { sponges : gmap Z dfk__sponge_t; smem_bytes : bmem }.

Definition sponges_of : heap_of smem dfk__sponge_t :=
  Heap sponges (fun h m => SMem h (smem_bytes m)).
Definition bytes_of : lens smem bmem := Lens smem_bytes (fun b m => SMem (sponges m) b).

(** [struct iovec]: address and size. *)
Record dfk_iovec_t := Iovec { iov_data : Z; iov_size : Z }.

(** [DFK_SPONGE_INITIAL_SIZE], a page *)
Definition SPONGE_INITIAL_SIZE : Z := 4096.

Definition dfk__sponge_check_invariants (sponge : Z) : M smem unit :=
  c_assert (nonnull sponge);;
  s ← deref sponges_of sponge;
  c_assert (nonnull (sdfk s));;
  if isnull (base s) then
    c_assert (size s =? 0);;
    c_assert (isnull (cur s));;
    c_assert (capacity s =? 0)
  else
    c_assert (nonnull (cur s));;
    c_assert (base s <=? cur s);;
    c_assert (cur s <=? base s + size s);;
    c_assert (base s + size s <=? base s + capacity s).

Definition dfk__sponge_init (sponge dfk : Z) : M smem unit :=
  c_assert (nonnull sponge);;
  c_assert (nonnull dfk);;
  store sponges_of sponge (Sponge 0 0 0 0 dfk).

Definition dfk__sponge_free (sponge : Z) : M smem unit :=
  dfk__sponge_check_invariants sponge;;
  s ← deref sponges_of sponge;
  when (nonnull (base s)) (zoom bytes_of (dfk__free (base s))).

Section write.
Context (malloc : bmem -> Z -> Z).

(** The block is replaced by a larger one that starts with the unread bytes. *)
Definition sponge_grow (sponge : Z) (s : dfk__sponge_t) (buf nbytes : Z) : M smem Z :=
  let nused := to_size (base s + size s - cur s) in
  let newsize := to_size (capacity s + Z.max (to_size (nused + nbytes)) (capacity s)) in
  newbase ← zoom bytes_of (dfk__malloc malloc newsize);
  if isnull newbase then mret (err_code dfk_err_nomem) else
  zoom bytes_of (memcpy newbase (cur s) nused);;
  zoom bytes_of (memcpy (newbase + nused) buf nbytes);;
  zoom bytes_of (dfk__free (base s));;
  update sponges_of sponge
    (fun s => Sponge newbase newbase (to_size (nused + nbytes)) newsize (sdfk s));;
  dfk__sponge_check_invariants sponge;;
  mret (err_code dfk_err_ok).

Definition dfk__sponge_write (sponge buf nbytes : Z) : M smem Z :=
  dfk__sponge_check_invariants sponge;;
  c_assert (nonnull buf);;
  c_assert (negb (nbytes =? 0));;
  s ← deref sponges_of sponge;
  if capacity s =? 0 then
    let toalloc := Z.max nbytes SPONGE_INITIAL_SIZE in
    b ← zoom bytes_of (dfk__malloc malloc toalloc);
    update sponges_of sponge (fun s => Sponge b (cur s) (size s) (capacity s) (sdfk s));;
    if isnull b then mret (err_code dfk_err_nomem) else
    update sponges_of sponge (fun s => Sponge (base s) (base s) nbytes toalloc (sdfk s));;
    zoom bytes_of (memcpy b buf nbytes);;
    dfk__sponge_check_invariants sponge;;
    mret (err_code dfk_err_ok)
  else if nbytes <=? to_size (capacity s - size s) then
    zoom bytes_of (memcpy (base s + size s) buf nbytes);;
    update sponges_of sponge
      (fun s => Sponge (base s) (cur s) (to_size (size s + nbytes)) (capacity s) (sdfk s));;
    dfk__sponge_check_invariants sponge;;
    mret (err_code dfk_err_ok)
  else sponge_grow sponge s buf nbytes.

(** [DFK_CALL] in the loop of [dfk__sponge_writev]: the first error is
    returned. *)
Fixpoint writev_loop (sponge : Z) (iov : list dfk_iovec_t) : M smem Z :=
  match iov with
  | [] => mret (err_code dfk_err_ok)
  | v :: iov =>
      r ← dfk__sponge_write sponge (iov_data v) (iov_size v);
      if r =? err_code dfk_err_ok then writev_loop sponge iov else mret r
  end.

Definition dfk__sponge_writev (sponge : Z) (iov : list dfk_iovec_t) : M smem Z :=
  dfk__sponge_check_invariants sponge;;
  c_assert (negb (Z.of_nat (length iov) =? 0));;
  r ← writev_loop sponge iov;
  when (r =? err_code dfk_err_ok) (dfk__sponge_check_invariants sponge);;
  mret r.

End write.

Definition dfk__sponge_read (sponge buf nbytes : Z) : M smem Z :=
  dfk__sponge_check_invariants sponge;;
  c_assert (nonnull buf);;
  c_assert (negb (nbytes =? 0));;
  s ← deref sponges_of sponge;
  if size s =? 0 then mret 0 else
  let toread := Z.min nbytes (to_size (base s + size s - cur s)) in
  zoom bytes_of (memcpy buf (cur s) toread);;
  update sponges_of sponge
    (fun s => Sponge (base s) (cur s + toread) (size s) (capacity s) (sdfk s));;
  dfk__sponge_check_invariants sponge;;
  mret toread.

Fixpoint readv_loop (sponge : Z) (iov : list dfk_iovec_t) (totalnread : Z) : M smem Z :=
  match iov with
  | [] => mret totalnread
  | v :: iov =>
      nread ← dfk__sponge_read sponge (iov_data v) (iov_size v);
      if nread =? 0 then mret (totalnread + nread)
      else readv_loop sponge iov (totalnread + nread)
  end.

Definition dfk__sponge_readv (sponge : Z) (iov : list dfk_iovec_t) : M smem Z :=
  dfk__sponge_check_invariants sponge;;
  c_assert (negb (Z.of_nat (length iov) =? 0));;
  r ← readv_loop sponge iov 0;
  dfk__sponge_check_invariants sponge;;
  mret r.
