(* ===== verification/SpongeTheorems.v ===== *)
(** * What is proved of [sponge.c]

    A sponge is a queue of bytes: what is read is what was written and not yet
    read, in order; a failed allocation leaves it as it was; the memory of the
    caller is not touched, and [dfk__sponge_free] gives every block back. *)

From S2P Require Import Prelude Bytes Error Sponge.

(** ** Representation *)

(** [B]: the blocks that are not the sponge's. *)
Inductive shape (b : bmem) (s : dfk__sponge_t) (q : list Z) (B : gmap Z Z) : Prop :=
| shape_empty :
    base s = 0 -> cur s = 0 -> size s = 0 -> capacity s = 0 -> q = [] -> blocks b = B ->
    shape b s q B
| shape_block (pre : list Z) :
    0 < base s -> aligned (base s) = true -> base s + capacity s <= USER_END ->
    B !! base s = None -> blocks b = <[base s := capacity s]> B ->
    room_at b (base s) (capacity s) -> bytes_at b (base s) (pre ++ q) ->
    size s = Z.of_nat (length (pre ++ q)) -> 0 < size s <= capacity s ->
    cur s = base s + Z.of_nat (length pre) -> shape b s q B.

Definition srep (m : smem) (sp : Z) (q : list Z) (B : gmap Z Z) : Prop :=
  sp <> 0 /\ exists s, sponges m !! sp = Some s /\ sdfk s <> 0 /\ shape (smem_bytes m) s q B.

(** The range is not in the sponge's block. *)
Definition off_sponge (m : smem) (sp p n : Z) : Prop :=
  forall s, sponges m !! sp = Some s -> apart_ranges (base s) (capacity s) p n.

(** Other sponges, and storage that is not the sponge's, are as before. *)
Definition keeps (m m' : smem) (sp : Z) : Prop :=
  (forall sp', sp' <> sp -> sponges m' !! sp' = sponges m !! sp') /\
  forall p n, 0 <= n -> room_at (smem_bytes m) p n -> off_sponge m sp p n ->
    same_cells (smem_bytes m) (smem_bytes m') p n /\ off_sponge m' sp p n.

Lemma keeps_refl m sp : keeps m m sp.
Proof. by split. Qed.

Lemma keeps_trans m1 m2 m3 sp : keeps m1 m2 sp -> keeps m2 m3 sp -> keeps m1 m3 sp.
Proof.
  intros [H1 H2] [H3 H4]. split.
  - intros sp' Hne. by rewrite H3, H1.
  - intros p n Hn Hr Ho. destruct (H2 p n Hn Hr Ho) as [Hs Ho'].
    destruct (H4 p n Hn (room_same _ _ _ _ Hs Hr) Ho') as [Hs' Ho'']. split; [|done].
    by eapply same_cells_trans.
Qed.

(** One access to a sponge the memory is known to hold. *)
Ltac s_acc :=
  wp_heap; [congruence|cbn [hget sponges_of sponges]; by simplify_map_eq|];
  cbn [hget hset sponges_of sponges smem_bytes base cur size capacity sdfk].

Lemma checks_sponge m sp q B : srep m sp q B -> checks (dfk__sponge_check_invariants sp) m.
Proof.
  intros (Hsp & s & Hs & Hd & Hsh). unfold checks, dfk__sponge_check_invariants.
  apply wp_bind, wp_assert; [ptr_cond|]. apply wp_bind. s_acc.
  apply wp_bind, wp_assert; [ptr_cond|]. destruct Hsh as [Hb Hc Hz Hk _ _|pre Hb _ _ _ _ _ _ Hz Hk Hc].
  - rewrite Hb, Hc, Hz, Hk. by repeat (apply wp_bind, wp_assert; [done|]).
  - apply wp_if_false; [apply isnull_false; lia|]. rewrite length_app in Hz.
    apply wp_bind, wp_assert; [apply nonnull_true; lia|].
    apply wp_bind, wp_assert; [apply Z.leb_le; lia|].
    apply wp_bind, wp_assert; [apply Z.leb_le; lia|].
    apply wp_assert; [apply Z.leb_le; lia|done].
Qed.

Lemma sponge_init_spec m sp dfk : sp <> 0 -> dfk <> 0 ->
  wp (dfk__sponge_init sp dfk) m (fun _ m' => srep m' sp [] (blocks (smem_bytes m)) /\
    smem_bytes m' = smem_bytes m /\ forall p n, 0 < p -> off_sponge m' sp p n).
Proof.
  intros Hsp Hd. apply wp_bind, wp_assert; [ptr_cond|]. apply wp_bind, wp_assert; [ptr_cond|].
  apply wp_store; [done|]. split_and!; [|done|].
  - split; [done|]. eexists. cbn. split; [by simplify_map_eq|]. split; [done|]. by apply shape_empty.
  - intros p n Hp s. cbn. intros Hs. simplify_map_eq. right. right. cbn. lia.
Qed.

(** ** Writing *)
Section write.
Context (malloc : bmem -> Z -> Z) (Hmalloc : malloc_ok malloc).

(** The outcome of a write of [bs]. *)
Definition wrote (m : smem) (sp : Z) (q bs : list Z) (B : gmap Z Z) (r : Z) (m' : smem) : Prop :=
  (r = err_code dfk_err_ok /\ srep m' sp (q ++ bs) B \/
   r = err_code dfk_err_nomem /\ srep m' sp q B) /\ keeps m m' sp.

(** The caller's buffer. *)
Definition buffer (m : smem) (sp buf : Z) (bs : list Z) : Prop :=
  bytes_at (smem_bytes m) buf bs /\ off_sponge m sp buf (Z.of_nat (length bs)) /\
  buf + Z.of_nat (length bs) <= USER_END.

Lemma write_first m sp s buf bs B :
  sp <> 0 -> sponges m !! sp = Some s -> sdfk s <> 0 -> base s = 0 -> cur s = 0 -> size s = 0 ->
  capacity s = 0 -> blocks (smem_bytes m) = B -> bs <> [] -> buffer m sp buf bs ->
  let toalloc := Z.max (Z.of_nat (length bs)) SPONGE_INITIAL_SIZE in
  wp (b ← zoom bytes_of (dfk__malloc malloc toalloc);
      update sponges_of sp (fun s => Sponge b (cur s) (size s) (capacity s) (sdfk s));;
      if isnull b then mret (err_code dfk_err_nomem) else
      update sponges_of sp
        (fun s => Sponge (base s) (base s) (Z.of_nat (length bs)) toalloc (sdfk s));;
      zoom bytes_of (memcpy b buf (Z.of_nat (length bs)));;
      dfk__sponge_check_invariants sp;;
      mret (err_code dfk_err_ok)) m (wrote m sp [] bs B).
Proof.
  intros Hsp Hs Hd Hb Hc Hz Hk HB Hne (Hbuf & _ & Hend) toalloc.
  assert (0 < Z.of_nat (length bs)) as Hlen by (destruct bs; [done|cbn; lia]).
  assert (0 < toalloc /\ Z.of_nat (length bs) <= toalloc) as [Ht Htl] by (unfold toalloc, SPONGE_INITIAL_SIZE; lia).
  clearbody toalloc. destruct m as [h b0]. cbn [sponges smem_bytes] in *.
  assert (s = Sponge 0 0 0 0 (sdfk s)) as Heq by (destruct s; cbn in *; by subst).
  apply wp_bind, wp_zoom. eapply wp_malloc; [done..| |].
  - (* no memory *)
    cbn [lget lset bytes_of smem_bytes sponges]. apply wp_bind. s_acc.
    apply wp_if_true; [done|]. apply wp_ret. split; [right; split; [done|]|].
    + split; [done|]. eexists. cbn. split; [by simplify_map_eq|]. split; [done|].
      by apply shape_empty.
    + split; [intros sp' Hne'; cbn; by rewrite lookup_insert_ne|]. intros p n Hn Hr Ho. split; [done|].
      intros s' Hs'. cbn in Hs'. simplify_map_eq. cbn. rewrite Hk. right. right. destruct Hr. lia.
  - intros p b1 Hal. cbn [lget lset bytes_of smem_bytes sponges] in Hal |- *.
    pose proof (al_pos _ _ _ _ Hal) as Hp.
    assert (apart_ranges p toalloc buf (Z.of_nat (length bs))) as Hap.
    { eapply allocated_apart; [done..|lia|]. by apply bytes_room. }
    assert (bytes_at b1 buf bs) as Hbuf1.
    { eapply bytes_same; [|done]. eapply same_allocated; [done|lia|done]. }
    pose proof (allocated_room _ _ _ _ Hal ltac:(lia)) as Hroom.
    apply wp_bind. s_acc. apply wp_if_false; [apply isnull_false; lia|].
    apply wp_bind. s_acc. rewrite insert_insert_eq. apply wp_bind, wp_zoom.
    cbn [lget lset bytes_of smem_bytes sponges]. eapply wp_memcpy; [done|done| | |].
    { by eapply room_mono. }
    { unfold apart_ranges in Hap. lia. }
    set (m' := SMem _ _).
    assert (srep m' sp bs B) as Hrep.
    { split; [done|]. eexists. cbn. split; [by simplify_map_eq|]. cbn. split; [done|].
      destruct Hal as [_ Ha He Hnb _ ->]. apply (shape_block _ _ _ _ []); cbn; try done; try lia.
      - by rewrite <- HB.
      - by rewrite <- HB.
      - by apply room_put.
      - by apply bytes_put_same. }
    apply wp_checks; [by eapply checks_sponge|intros _]. apply wp_ret. split; [by left|].
    split; [intros sp' Hne'; cbn; by rewrite lookup_insert_ne|]. intros q n Hn Hr _.
    assert (apart_ranges p toalloc q n) as Hapq by (by eapply allocated_apart).
    split; cbn.
    + eapply same_cells_trans; [eapply same_allocated; [done|lia|done]|].
      apply same_put. unfold apart_ranges in *. lia.
    + intros s' Hs'. cbn in Hs'. by simplify_map_eq.
Qed.

Lemma write_fits m sp s q buf bs B pre :
  sp <> 0 -> sponges m !! sp = Some s -> sdfk s <> 0 ->
  0 < base s -> aligned (base s) = true -> base s + capacity s <= USER_END ->
  B !! base s = None -> blocks (smem_bytes m) = <[base s := capacity s]> B ->
  room_at (smem_bytes m) (base s) (capacity s) -> bytes_at (smem_bytes m) (base s) (pre ++ q) ->
  size s = Z.of_nat (length (pre ++ q)) -> 0 < size s ->
  cur s = base s + Z.of_nat (length pre) ->
  size s + Z.of_nat (length bs) <= capacity s -> buffer m sp buf bs ->
  wp (zoom bytes_of (memcpy (base s + size s) buf (Z.of_nat (length bs)));;
      update sponges_of sp
        (fun s => Sponge (base s) (cur s) (to_size (size s + Z.of_nat (length bs))) (capacity s) (sdfk s));;
      dfk__sponge_check_invariants sp;;
      mret (err_code dfk_err_ok)) m (wrote m sp q bs B).
Proof.
  intros Hsp Hs Hd Hb Ha He HB Hbl Hr Hby Hz Hz0 Hc Hfit (Hbuf & Hoff & Hend).
  specialize (Hoff s Hs). destruct m as [h b0]. cbn [sponges smem_bytes] in *.
  apply wp_bind, wp_zoom. cbn [lget lset bytes_of smem_bytes sponges].
  eapply wp_memcpy; [done|done| | |].
  { replace (Z.of_nat (length bs)) with (size s + Z.of_nat (length bs) - size s) by lia.
    apply room_tail; [lia|]. by eapply room_mono. }
  { unfold apart_ranges in Hoff. lia. }
  apply wp_bind. s_acc. rewrite to_size_small by (unfold USER_END, SIZE_MOD, SIZE_BITS in *; lia).
  set (m' := SMem _ _).
  assert (srep m' sp (q ++ bs) B) as Hrep.
  { split; [done|]. eexists. cbn. split; [by simplify_map_eq|]. cbn. split; [done|].
    apply (shape_block _ _ _ _ pre); cbn; try done.
    - by apply room_put.
    - rewrite app_assoc. apply bytes_app. split; [|split; [done|]].
      + apply bytes_put_apart; [|done]. rewrite Hz. lia.
      + rewrite Hz. apply bytes_put_same. lia.
    - rewrite app_assoc, length_app, Nat2Z.inj_add. lia.
    - lia. }
  apply wp_checks; [by eapply checks_sponge|intros _]. apply wp_ret. split; [by left|].
  split; [intros sp' Hne'; cbn; by rewrite lookup_insert_ne|]. intros p n Hn Hrp Ho.
  specialize (Ho s Hs). split; cbn.
  - apply same_put. unfold apart_ranges in *. lia.
  - intros s' Hs'. cbn in Hs'. simplify_map_eq. done.
Qed.
Lemma write_grows m sp s q buf bs B pre :
  sp <> 0 -> sponges m !! sp = Some s -> sdfk s <> 0 ->
  0 < base s -> aligned (base s) = true -> base s + capacity s <= USER_END ->
  B !! base s = None -> blocks (smem_bytes m) = <[base s := capacity s]> B ->
  room_at (smem_bytes m) (base s) (capacity s) -> bytes_at (smem_bytes m) (base s) (pre ++ q) ->
  size s = Z.of_nat (length (pre ++ q)) -> 0 < size s <= capacity s ->
  cur s = base s + Z.of_nat (length pre) -> bs <> [] -> buffer m sp buf bs ->
  wp (sponge_grow malloc sp s buf (Z.of_nat (length bs))) m (wrote m sp q bs B).
Proof.
  intros Hsp Hs Hd Hb Ha He HB Hbl Hr Hby Hz Hz0 Hc Hne (Hbuf & Hoff & Hend).
  specialize (Hoff s Hs). destruct m as [h b0]. cbn [sponges smem_bytes] in *.
  assert (0 < Z.of_nat (length bs)) as Hlen by (destruct bs; [done|cbn; lia]).
  pose proof (proj1 Hbuf) as Hbufp.
  rewrite length_app, Nat2Z.inj_add in Hz. unfold sponge_grow.
  set (n := Z.of_nat (length bs)) in *. set (nq := Z.of_nat (length q)).
  assert (base s + size s - cur s = nq) as -> by (unfold nq; lia).
  assert (0 <= nq <= capacity s) as Hnq by (unfold nq; lia).
  assert (0 < n <= USER_END /\ capacity s <= USER_END) as [Hn Hcap] by lia.
  unfold USER_END, SIZE_MOD, SIZE_BITS in *.
  rewrite (to_size_small nq), (to_size_small (nq + n)) by (unfold SIZE_MOD, SIZE_BITS; lia).
  rewrite to_size_small by (unfold SIZE_MOD, SIZE_BITS; lia).
  set (newsize := capacity s + Z.max (nq + n) (capacity s)).
  assert (0 < newsize /\ nq + n <= newsize) as [Hns1 Hns2] by (unfold newsize; lia). clearbody newsize.
  apply wp_bind, wp_zoom. eapply wp_malloc; [done..| |].
  { cbn. apply wp_ret. split; [right; split; [done|]|apply keeps_refl].
    split; [done|]. exists s. cbn. split; [done|]. split; [done|].
    eapply (shape_block _ _ _ _ pre); try done. rewrite length_app, Nat2Z.inj_add. done. }
  intros p b1 Hal. cbn [lget lset bytes_of smem_bytes sponges] in Hal |- *.
  pose proof (al_pos _ _ _ _ Hal) as Hp. pose proof (al_end _ _ _ _ Hal) as Hpe. unfold USER_END in Hpe.
  assert (forall x k, 0 <= k -> room_at b0 x k ->
    apart_ranges p newsize x k /\ same_cells b0 b1 x k) as Hold.
  { intros x k Hk Hx. assert (apart_ranges p newsize x k) by (by eapply allocated_apart).
    split; [done|]. eapply same_allocated; [done|lia|done]. }
  destruct (Hold (base s) (capacity s) ltac:(lia) Hr) as [Hap1 Hs1].
  destruct (Hold buf n ltac:(lia) (bytes_room _ _ _ Hbuf)) as [Hap2 Hs2].
  assert (bytes_at b1 (cur s) q) as Hq1.
  { rewrite Hc. assert (bytes_at b1 (base s) (pre ++ q)) as Hpq.
    { eapply bytes_same; [|done]. intros a Hain. apply Hs1. rewrite length_app in Hain. lia. }
    by apply bytes_app in Hpq as (_ & _ & Hpq). }
  assert (bytes_at b1 buf bs) as Hbuf1 by (by eapply bytes_same).
  pose proof (allocated_room _ _ _ _ Hal ltac:(lia)) as Hroom.
  apply wp_if_false; [apply isnull_false; lia|].
  apply wp_bind, wp_zoom. cbn [lget lset bytes_of smem_bytes sponges].
  eapply wp_memcpy; [done|done|eapply room_mono; [|done]; lia|unfold apart_ranges in Hap1; lia|].
  assert (bytes_at (put_bytes p q b1) buf bs) as Hbuf2.
  { eapply bytes_same; [|exact Hbuf1]. apply same_put. fold nq n. unfold apart_ranges in *. lia. }
  apply wp_bind, wp_zoom. cbn [lget lset bytes_of smem_bytes sponges].
  eapply wp_memcpy; [done|exact Hbuf2| |unfold apart_ranges in Hap2; lia|].
  { apply room_put. replace n with (nq + n - nq) by lia. apply room_tail; [lia|].
    eapply room_mono; [|done]. lia. }
  replace (put_bytes (p + nq) bs (put_bytes p q b1)) with (put_bytes p (q ++ bs) b1) by apply put_app.
  assert (blocks (put_bytes p (q ++ bs) b1) = <[p := newsize]> (<[base s := capacity s]> B)) as Hbl1.
  { destruct Hal as [_ _ _ _ _ ->]. cbn. by rewrite Hbl. }
  assert (p <> base s) as Hpb.
  { intros ->. pose proof (al_new _ _ _ _ Hal) as Hnew. rewrite Hbl in Hnew.
    by rewrite lookup_insert_eq in Hnew. }
  assert (B !! p = None) as HBp.
  { pose proof (al_new _ _ _ _ Hal) as Hnew. rewrite Hbl in Hnew. by rewrite lookup_insert_ne in Hnew. }
  apply wp_bind, wp_zoom. cbn [lget lset bytes_of smem_bytes sponges].
  eapply wp_free; [lia|done|rewrite Hbl1; by simplify_map_eq|].
  apply wp_bind. s_acc. set (m' := SMem _ _).
  assert (srep m' sp (q ++ bs) B) as Hrep.
  { split; [done|]. eexists. cbn. split; [by simplify_map_eq|]. cbn. split; [done|].
    assert (Z.of_nat (length (q ++ bs)) = nq + n) as Hl by (rewrite length_app; unfold nq, n; lia).
    assert (same_cells (put_bytes p (q ++ bs) b1)
      (remove_block (base s) (capacity s) (put_bytes p (q ++ bs) b1)) p newsize) as Hsm.
    { apply same_removed; [lia|]. unfold apart_ranges in *. lia. }
    apply (shape_block _ _ _ _ []); cbn [app base cur size capacity]; try done; try lia.
    - by apply Hal.
    - unfold remove_block. cbn [blocks]. rewrite Hbl1, delete_insert_ne by done. by rewrite delete_insert_id.
    - eapply room_same; [exact Hsm|]. by apply room_put.
    - eapply bytes_same; [|by apply bytes_put_same]. intros a Hain. apply Hsm. lia.
    - cbn. lia. }
  apply wp_checks; [by eapply checks_sponge|intros _]. apply wp_ret. split; [by left|].
  split; [intros sp' Hne'; cbn; by rewrite lookup_insert_ne|]. intros x k Hk Hrx Ho.
  specialize (Ho s Hs). destruct (Hold x k Hk Hrx) as [Hapx Hsx]. split; cbn.
  - eapply same_cells_trans; [exact Hsx|]. eapply same_cells_trans.
    + apply (same_put b1 p (q ++ bs)). rewrite length_app, Nat2Z.inj_add. fold n nq. unfold apart_ranges in *. lia.
    + apply same_removed; [lia|done].
  - intros s' Hs'. cbn in Hs'. by simplify_map_eq.
Qed.

Lemma dfk__sponge_write_spec m sp q buf bs B :
  srep m sp q B -> bs <> [] -> buffer m sp buf bs ->
  wp (dfk__sponge_write malloc sp buf (Z.of_nat (length bs))) m (wrote m sp q bs B).
Proof.
  intros Hrep Hne Hbuf. unfold dfk__sponge_write.
  apply wp_checks; [by eapply checks_sponge|intros _].
  pose proof Hbuf as ([Hbp _] & Hoff & Hend).
  assert (0 < Z.of_nat (length bs)) as Hlen by (destruct bs; [done|cbn; lia]).
  apply wp_bind, wp_assert; [apply nonnull_true; lia|].
  apply wp_bind, wp_assert; [apply negb_true_iff, Z.eqb_neq; lia|].
  destruct Hrep as (Hsp & s & Hs & Hd & Hsh). apply wp_bind. s_acc.
  destruct Hsh as [Hb Hc Hz Hk -> HB|pre Hb Ha He HB Hbl Hr Hby Hz Hzk Hc].
  - apply wp_if_true; [by apply Z.eqb_eq|]. by eapply write_first.
  - apply wp_if_false; [apply Z.eqb_neq; lia|].
    assert (to_size (capacity s - size s) = capacity s - size s) as ->.
    { apply to_size_small. unfold USER_END, SIZE_MOD, SIZE_BITS in *. lia. }
    destruct (Z.leb_spec (Z.of_nat (length bs)) (capacity s - size s)).
    + eapply write_fits; try done; lia.
    + by eapply write_grows.
Qed.
End write.

(** ** Reading *)

Lemma dfk__sponge_read_spec m sp q buf n B :
  srep m sp q B -> 0 < n -> room_at (smem_bytes m) buf n -> off_sponge m sp buf n ->
  wp (dfk__sponge_read sp buf n) m (fun r m' =>
    let got := take (Z.to_nat n) q in
    r = Z.of_nat (length got) /\ srep m' sp (drop (Z.to_nat n) q) B /\
    bytes_at (smem_bytes m') buf got /\
    (forall x k, 0 <= k -> room_at (smem_bytes m) x k -> off_sponge m sp x k ->
      apart_ranges buf n x k -> same_cells (smem_bytes m) (smem_bytes m') x k) /\
    (forall x k, 0 <= k -> off_sponge m sp x k -> off_sponge m' sp x k) /\
    (forall a, is_Some (cells (smem_bytes m) !! a) -> is_Some (cells (smem_bytes m') !! a)) /\
    (forall sp', sp' <> sp -> sponges m' !! sp' = sponges m !! sp')).
Proof.
  intros Hrep Hn Hroom Hoff. unfold dfk__sponge_read.
  apply wp_checks; [by eapply checks_sponge|intros _]. pose proof (proj1 Hroom).
  apply wp_bind, wp_assert; [apply nonnull_true; lia|].
  apply wp_bind, wp_assert; [apply negb_true_iff, Z.eqb_neq; lia|].
  pose proof Hrep as (Hsp & s & Hs & Hd & Hsh). specialize (Hoff s Hs). apply wp_bind. s_acc.
  destruct Hsh as [Hb Hc Hz Hk -> HB|pre Hb Ha He HB Hbl Hr Hby Hz Hzk Hc].
  - apply wp_if_true; [by apply Z.eqb_eq|]. apply wp_ret.
    rewrite take_nil, drop_nil. split_and!; done.
  - apply wp_if_false; [apply Z.eqb_neq; lia|]. rewrite length_app, Nat2Z.inj_add in Hz.
    assert (base s + size s - cur s = Z.of_nat (length q)) as -> by lia.
    rewrite to_size_small by (unfold USER_END, SIZE_MOD, SIZE_BITS in *; lia).
    set (got := take (Z.to_nat n) q).
    assert (Z.min n (Z.of_nat (length q)) = Z.of_nat (length got)) as ->.
    { unfold got. rewrite length_take. lia. }
    set (rest := drop (Z.to_nat n) q).
    assert (q = got ++ rest) as Hq by (unfold got, rest; by rewrite take_drop).
    assert (length got <= Z.to_nat n)%nat as Hgot by (unfold got; rewrite length_take; lia).
    clearbody got rest. subst q. rewrite length_app in Hz.
    assert (bytes_at (smem_bytes m) (cur s) got) as Hcur.
    { rewrite Hc. apply bytes_app in Hby as (_ & _ & Hby). by apply bytes_app in Hby as (Hby & _). }
    apply wp_bind, wp_zoom. eapply wp_memcpy; [done|done|eapply room_mono; [|done]; lia| |].
    { unfold apart_ranges in Hoff. lia. }
    destruct m as [h b0]. cbn [lget lset bytes_of smem_bytes sponges] in *.
    apply wp_bind. s_acc. set (m' := SMem _ _).
    assert (srep m' sp rest B) as Hrep'.
    { split; [done|]. eexists. cbn. split; [by simplify_map_eq|]. cbn. split; [done|].
      apply (shape_block _ _ _ _ (pre ++ got)); cbn; try done.
      - by apply room_put.
      - rewrite <- app_assoc. eapply bytes_same; [|exact Hby]. apply same_put.
        rewrite !length_app. unfold apart_ranges in *. lia.
      - rewrite !length_app. lia.
      - rewrite length_app. lia. }
    apply wp_checks; [by eapply checks_sponge|intros _]. apply wp_ret. split_and!; try done.
    + by apply bytes_put_same.
    + intros x k Hk _ _ Hap. apply same_put. unfold apart_ranges in *. lia.
    + intros x k Hk Ho s' Hs'. cbn in Hs'. simplify_map_eq. by apply Ho.
    + intros a Hain. change (is_Some (cells (put_bytes buf got b0) !! a)). rewrite cells_put. case_decide; [|done].
      apply fmap_is_Some, lookup_lt_is_Some_2. lia.
    + intros sp' Hne. cbn. by rewrite lookup_insert_ne.
Qed.

Lemma dfk__sponge_free_spec m sp q B : srep m sp q B ->
  wp (dfk__sponge_free sp) m (fun _ m' => blocks (smem_bytes m') = B).
Proof.
  intros Hrep. unfold dfk__sponge_free. apply wp_checks; [by eapply checks_sponge|intros _].
  destruct Hrep as (Hsp & s & Hs & Hd & Hsh). apply wp_bind. s_acc.
  destruct Hsh as [Hb Hc Hz Hk -> HB|pre Hb Ha He HB Hbl Hr Hby Hz Hzk Hc].
  - apply wp_when_false; [by rewrite Hb|done].
  - apply wp_when_true; [apply nonnull_true; lia|]. apply wp_zoom.
    eapply wp_free; [done|done|cbn; rewrite Hbl; by simplify_map_eq|].
    cbn. rewrite Hbl. by apply delete_insert_id.
Qed.

(** ** Programs over a sponge *)

Inductive sponge_cmd := SWrite (bs : list Z) | SRead (n : Z).

(** The caller has one buffer, at [buf]. *)
Definition run_sponge_cmd (malloc : bmem -> Z -> Z) (sp buf : Z) (c : sponge_cmd) :
    M smem (list Z) :=
  match c with
  | SWrite bs =>
      zoom bytes_of (write_bytes buf bs);;
      r ← dfk__sponge_write malloc sp buf (Z.of_nat (length bs)); mret [r]
  | SRead n => r ← dfk__sponge_read sp buf n; zoom bytes_of (read_bytes buf (Z.to_nat r))
  end.

Fixpoint run_sponge_cmds (malloc : bmem -> Z -> Z) (sp buf : Z) (cs : list sponge_cmd) :
    M smem (list (list Z)) :=
  match cs with
  | [] => mret []
  | c :: cs => r ← run_sponge_cmd malloc sp buf c; rs ← run_sponge_cmds malloc sp buf cs; mret (r :: rs)
  end.

(** A queue of bytes whose growth may be refused. *)
Inductive queue_step : list Z -> sponge_cmd -> list Z -> list Z -> Prop :=
| queue_write q bs : queue_step q (SWrite bs) [err_code dfk_err_ok] (q ++ bs)
| queue_refuse q bs : queue_step q (SWrite bs) [err_code dfk_err_nomem] q
| queue_read q n : queue_step q (SRead n) (take (Z.to_nat n) q) (drop (Z.to_nat n) q).

Inductive queue_trace : list Z -> list sponge_cmd -> list (list Z) -> list Z -> Prop :=
| trace_nil q : queue_trace q [] [] q
| trace_cons q c o q' cs os q'' :
    queue_step q c o q' -> queue_trace q' cs os q'' -> queue_trace q (c :: cs) (o :: os) q''.

Definition fits (n : Z) (c : sponge_cmd) : Prop :=
  match c with
  | SWrite bs => bs <> [] /\ Z.of_nat (length bs) <= n
  | SRead k => 0 < k <= n
  end.

(** The caller's buffer is storage of its own. *)
Definition user_buffer (m : smem) (sp buf n : Z) : Prop :=
  room_at (smem_bytes m) buf n /\ off_sponge m sp buf n /\ buf + n <= USER_END.

Lemma off_mono m sp p n k : 0 <= k <= n -> off_sponge m sp p n -> off_sponge m sp p k.
Proof. intros Hk Ho s Hs. specialize (Ho s Hs). unfold apart_ranges in *. lia. Qed.

Section programs.
Context (malloc : bmem -> Z -> Z) (Hmalloc : malloc_ok malloc).

Lemma run_sponge_cmd_spec m sp q B buf n c :
  srep m sp q B -> user_buffer m sp buf n -> 0 <= n -> fits n c ->
  wp (run_sponge_cmd malloc sp buf c) m (fun o m' => exists q',
    queue_step q c o q' /\ srep m' sp q' B /\ user_buffer m' sp buf n).
Proof.
  intros Hrep (Hroom & Hoff & Hend) Hn Hc. destruct c as [bs|k]; cbn [run_sponge_cmd fits] in *.
  - destruct Hc as [Hne Hlen]. apply wp_bind, wp_zoom.
    eapply wp_write_bytes; [by eapply room_mono|]. cbn [lset bytes_of].
    set (m1 := SMem _ _).
    pose proof (off_mono m sp buf n (Z.of_nat (length bs)) ltac:(lia) Hoff) as Hoffb.
    assert (srep m1 sp q B) as Hrep1.
    { destruct Hrep as (Hsp & s & Hs & Hd & Hsh). split; [done|]. exists s. split; [done|].
      split; [done|]. specialize (Hoffb s Hs). specialize (Hoff s Hs).
      destruct Hsh as [Hb Hc Hz Hk -> HB|pre Hb Ha He HB Hbl Hr Hby Hz Hzk Hc].
      - by apply shape_empty.
      - assert (same_cells (smem_bytes m) (smem_bytes m1) (base s) (capacity s)) as Hsm.
        { apply same_put. destruct bs; [done|]. unfold apart_ranges in *. cbn [length] in *. lia. }
        apply (shape_block _ _ _ _ pre); try done.
        + by eapply room_same.
        + eapply bytes_same; [|done]. intros a Ha'. apply Hsm. lia. }
    assert (buffer m1 sp buf bs) as Hbuf.
    { split; [apply bytes_put_same, Hroom|]. split; [exact Hoffb|lia]. }
    apply wp_bind. eapply wp_mono; [by apply (dfk__sponge_write_spec malloc Hmalloc m1 sp q buf bs B)|].
    intros r m2 [Hout [_ Hk]]. apply wp_ret.
    assert (user_buffer m2 sp buf n) as Hub.
    { assert (room_at (smem_bytes m1) buf n) as Hroom1 by by apply room_put.
      destruct (Hk buf n Hn Hroom1 Hoff) as [Hs Ho]. split; [by eapply room_same|done]. }
    destruct Hout as [[-> Hr]|[-> Hr]].
    + exists (q ++ bs). split; [constructor|done].
    + exists q. split; [constructor|done].
  - apply wp_bind. eapply wp_mono.
    { eapply dfk__sponge_read_spec; [done|lia|eapply room_mono; [|exact Hroom]; lia|].
      eapply off_mono; [|done]. lia. }
    intros r m1 (-> & Hrep1 & Hgot & _ & Hoff1 & Hlive & _). apply wp_zoom.
    rewrite Nat2Z.id. eapply wp_read_bytes; [exact Hgot|]. cbn [lset bytes_of].
    replace (SMem (sponges m1) (smem_bytes m1)) with m1 by by destruct m1.
    exists (drop (Z.to_nat k) q). split; [constructor|]. split; [done|]. split; [|split; [|done]].
    + split; [apply Hroom|]. intros i Hi. apply Hlive. by apply Hroom.
    + apply Hoff1; [done|exact Hoff].
Qed.

Lemma run_sponge_cmds_spec cs : forall m sp q B buf n,
  srep m sp q B -> user_buffer m sp buf n -> 0 <= n -> Forall (fits n) cs ->
  wp (run_sponge_cmds malloc sp buf cs) m (fun os m' => exists q',
    queue_trace q cs os q' /\ srep m' sp q' B).
Proof.
  induction cs as [|c cs IH]; intros m sp q B buf n Hrep Hub Hn Hf; cbn [run_sponge_cmds].
  - apply wp_ret. exists q. split; [constructor|done].
  - apply Forall_cons in Hf as [Hc Hf]. apply wp_bind.
    eapply wp_mono; [by eapply run_sponge_cmd_spec|]. intros o m1 (q1 & Hstep & Hrep1 & Hub1).
    apply wp_bind. eapply wp_mono; [by eapply IH|]. intros os m2 (q2 & Htr & Hrep2).
    apply wp_ret. exists q2. split; [by econstructor|done].
Qed.

Lemma writev_loop_spec iov : forall m sp q B (bufs : list (list Z)),
  srep m sp q B ->
  Forall2 (fun v bs => bs <> [] /\ iov_size v = Z.of_nat (length bs) /\
    buffer m sp (iov_data v) bs) iov bufs ->
  wp (writev_loop malloc sp iov) m (fun r m' => exists k,
    (k <= length bufs)%nat /\ srep m' sp (q ++ mjoin (take k bufs)) B /\ keeps m m' sp /\
    (r = err_code dfk_err_ok /\ k = length bufs \/ r = err_code dfk_err_nomem)).
Proof.
  induction iov as [|v iov IH]; intros m sp q B bufs Hrep Hf.
  - apply Forall2_nil_inv_l in Hf as ->. apply wp_ret. exists 0%nat. cbn. rewrite app_nil_r.
    split; [done|]. split; [done|]. split; [apply keeps_refl|by left].
  - apply Forall2_cons_inv_l in Hf as (bs & bufs' & (Hne & Hsz & Hbuf) & Hf & ->).
    cbn [writev_loop]. rewrite Hsz. apply wp_bind.
    eapply wp_mono; [by apply (dfk__sponge_write_spec malloc Hmalloc m sp q _ bs B)|].
    intros r m1 [[[-> Hrep1]|[-> Hrep1]] Hk].
    + apply wp_if_true; [done|]. eapply wp_mono; [apply (IH m1 sp (q ++ bs) B bufs' Hrep1)|].
      * eapply Forall2_impl; [exact Hf|]. intros v' bs' (Hne' & Hsz' & (Hb' & Ho' & He')).
        split_and!; [done|done|]. destruct (proj2 Hk _ _ (Zle_0_nat _) (bytes_room _ _ _ Hb') Ho') as [Hs Ho''].
        split; [by eapply bytes_same|done].
      * intros r m2 (k & Hkl & Hrep2 & Hk2 & Hr). exists (S k). cbn. rewrite app_assoc.
        split; [lia|]. split; [done|]. split; [by eapply keeps_trans|]. destruct Hr as [[-> ->]| ->]; [by left|by right].
    + apply wp_if_false; [done|]. apply wp_ret. exists 0%nat. cbn. rewrite app_nil_r.
      split; [lia|]. split; [done|]. split; [done|by right].
Qed.
End programs.

(** ** Claims *)

(** Storage of a caller: [n] bytes at [p]. *)
Definition caller_memory (p n : Z) : smem :=
  SMem ∅ (BMem (map_seqZ p (replicate (Z.to_nat n) (Some 0))) ∅).

Lemma caller_room p n : 0 < p -> 0 <= n -> room_at (smem_bytes (caller_memory p n)) p n.
Proof.
  intros Hp Hn. split; [done|]. intros i Hi. unfold caller_memory. cbn [smem_bytes cells].
  rewrite lookup_map_seqZ_is_Some, length_replicate, Z2Nat.id by done. lia.
Qed.

(** C12: whatever the caller writes and reads, and whatever allocations fail, a
    sponge answers as a queue of bytes: a write either appends all its bytes
    or reports [dfk_err_nomem] and appends none, a read returns the oldest
    bytes.  No assertion fails and no byte is read or written outside of the
    caller's buffer and the sponge's own block; after [dfk__sponge_free] the
    blocks in use are those in use before [dfk__sponge_init]. *)
Theorem sponge_is_queue (malloc : bmem -> Z -> Z) (Hmalloc : malloc_ok malloc)
    (m : smem) (sp dfk buf n : Z) (cs : list sponge_cmd)
    (Hsp : sp <> 0) (Hdfk : dfk <> 0) (Hroom : room_at (smem_bytes m) buf n) (Hn : 0 <= n)
    (Hend : buf + n <= USER_END) (Hfits : Forall (fits n) cs) :
  exists outs q m',
    (dfk__sponge_init sp dfk;; outs ← run_sponge_cmds malloc sp buf cs;
     dfk__sponge_free sp;; mret outs) m = Ok (outs, m') /\
    queue_trace [] cs outs q /\ blocks (smem_bytes m') = blocks (smem_bytes m).
Proof.
  assert (wp (dfk__sponge_init sp dfk;; outs ← run_sponge_cmds malloc sp buf cs;
     dfk__sponge_free sp;; mret outs) m (fun outs m' => exists q,
     queue_trace [] cs outs q /\ blocks (smem_bytes m') = blocks (smem_bytes m))) as Hw.
  { apply wp_bind. eapply wp_mono; [by apply sponge_init_spec|].
    intros _ m1 (Hrep & Heq & Hoff). apply wp_bind.
    eapply wp_mono; [eapply (run_sponge_cmds_spec malloc Hmalloc cs); try done|].
    { split; [by rewrite Heq|]. split; [|done]. apply Hoff. by destruct Hroom. }
    intros outs m2 (q & Htr & Hrep2). apply wp_bind.
    eapply wp_mono; [by eapply dfk__sponge_free_spec|]. intros [] m3 Hbl. apply wp_ret. by exists q. }
  apply wp_run in Hw as (outs & m' & Hrun & q & Htr & Hbl). by exists outs, q, m'.
Qed.

Definition sample_sponge_program : list sponge_cmd :=
  [SWrite [1; 2; 3]; SRead 2; SWrite [4; 5; 6; 7]; SRead 10; SRead 1].

Lemma sponge_is_queue_witness : exists outs q m',
  (dfk__sponge_init 8 9;; outs ← run_sponge_cmds first_fit 8 100 sample_sponge_program;
   dfk__sponge_free 8;; mret outs) (caller_memory 100 16) = Ok (outs, m') /\
  queue_trace [] sample_sponge_program outs q.
Proof.
  destruct (sponge_is_queue first_fit first_fit_ok (caller_memory 100 16) 8 9 100 16
    sample_sponge_program) as (outs & q & m' & Hrun & Htr & _).
  - done.
  - done.
  - by apply caller_room.
  - done.
  - done.
  - unfold sample_sponge_program. rewrite !Forall_cons, Forall_nil. cbn.
    repeat split; first [done|lia].
  - exists outs, q, m'. exact (conj Hrun Htr).
Defined.

(** A vectored write appends the buffers in order; when an allocation
    fails in the middle it reports [dfk_err_nomem] and the buffers before it
    have been appended. *)
Theorem sponge_writev_appends (malloc : bmem -> Z -> Z) (Hmalloc : malloc_ok malloc)
    (m : smem) (sp : Z) (q : list Z) (B : gmap Z Z) (iov : list dfk_iovec_t)
    (bufs : list (list Z))
    (Hrep : srep m sp q B) (Hne : iov <> [])
    (Hiov : Forall2 (fun v bs => bs <> [] /\ iov_size v = Z.of_nat (length bs) /\
      buffer m sp (iov_data v) bs) iov bufs) :
  exists r m' k,
    dfk__sponge_writev malloc sp iov m = Ok (r, m') /\
    srep m' sp (q ++ mjoin (take k bufs)) B /\
    (r = err_code dfk_err_ok /\ k = length bufs \/ r = err_code dfk_err_nomem).
Proof.
  assert (wp (dfk__sponge_writev malloc sp iov) m (fun r m' => exists k,
    srep m' sp (q ++ mjoin (take k bufs)) B /\
    (r = err_code dfk_err_ok /\ k = length bufs \/ r = err_code dfk_err_nomem))) as Hw.
  { apply wp_checks; [by eapply checks_sponge|intros _].
    apply wp_bind, wp_assert; [by destruct iov|]. apply wp_bind.
    eapply wp_mono; [by eapply (writev_loop_spec malloc Hmalloc)|].
    intros r m1 (k & _ & Hrep1 & _ & Hr). apply wp_bind, wp_when.
    - intros _. eapply wp_mono; [by eapply checks_sponge|]. intros _ m2 ->. apply wp_ret. by exists k.
    - intros _. apply wp_ret. by exists k. }
  apply wp_run in Hw as (r & m' & Hrun & k & Hk & Hr). by exists r, m', k.
Qed.

Lemma sponge_writev_appends_witness : exists r m',
  dfk__sponge_writev first_fit 8 [Iovec 100 2; Iovec 103 1]
    (SMem {[ 8 := Sponge 0 0 0 0 9 ]} (smem_bytes (caller_memory 100 16))) = Ok (r, m').
Proof.
  destruct (sponge_writev_appends first_fit first_fit_ok
    (SMem {[ 8 := Sponge 0 0 0 0 9 ]} (smem_bytes (caller_memory 100 16))) 8 [] ∅
    [Iovec 100 2; Iovec 103 1] [[0; 0]; [0]]) as (r & m' & k & Hrun & _).
  - split; [done|]. exists (Sponge 0 0 0 0 9). split; [reflexivity|]. split; [done|].
    by apply shape_empty.
  - done.
  - assert (forall p bs, 0 < p -> (forall i b, bs !! i = Some b ->
        cells (smem_bytes (caller_memory 100 16)) !! (p + Z.of_nat i) = Some (Some b)) ->
        p + Z.of_nat (length bs) <= USER_END ->
        buffer (SMem {[ 8 := Sponge 0 0 0 0 9 ]} (smem_bytes (caller_memory 100 16))) 8 p bs) as Hbuf.
    { intros p bs Hp Hb He. split; [by split|]. split; [|done]. intros s Hs. cbn in Hs.
      rewrite lookup_singleton_eq in Hs. injection Hs as <-. right. right. cbn. lia. }
    apply Forall2_cons. split.
    { split; [done|]. split; [done|]. apply Hbuf; [done| |done].
      intros [|[|i]] b Hb; [injection Hb as <-; reflexivity|injection Hb as <-; reflexivity|done]. }
    apply Forall2_cons. split; [|by constructor].
    split; [done|]. split; [done|]. apply Hbuf; [done| |done].
    intros [|i] b Hb; [injection Hb as <-; reflexivity|done].
  - exists r, m'. exact Hrun.
Defined.
