(* ===== verification/UrlTheorems.v ===== *)
(** * What is proved of [urlencoding.c]

    Encoding and decoding compute percent encoding, wherever the buffers are,
    as long as the output does not overtake the input; they are inverse to each
    other; the size hints are exact for encoding and for well-formed input, and
    too small for input that ends in a malformed escape. *)

From S2P Require Import Prelude Bytes UrlEncoding.

(** ** The tables *)

Lemma byte_cases (P : Z -> bool) : forallb P (seqZ 0 256) = true -> forall b, byte b -> P b = true.
Proof.
  rewrite forallb_forall. intros HP b Hb. apply HP, list_elem_of_In, elem_of_seqZ.
  unfold byte in Hb. lia.
Qed.

Definition hex_entry (b : Z) : bool :=
  match hex_to_byte !! Z.to_nat b with
  | Some v =>
      match hexval b with
      | Some w => (v =? w) && (0 <=? w) && (w <? 16)
      | None => negb (Z.land v 0xF0 =? 0)
      end
  | None => false
  end.

Lemma hex_to_byte_spec b : byte b -> exists v, hex_to_byte !! Z.to_nat b = Some v /\
  match hexval b with
  | Some w => v = w /\ 0 <= w < 16
  | None => Z.land v 0xF0 <> 0
  end.
Proof.
  intros Hb. pose proof (byte_cases hex_entry ltac:(vm_compute; reflexivity) b Hb) as H.
  unfold hex_entry in H. destruct (hex_to_byte !! _) as [v|]; [|done]. exists v. split; [done|].
  destruct (hexval b); lia.
Qed.

Lemma nibbles h l : 0 <= h < 16 -> 0 <= l < 16 ->
  negb (Z.land h 0xF0 =? 0) || negb (Z.land l 0xF0 =? 0) = false /\
  Z.land (Z.lor (Z.shiftl h 4) l) 0xFF = 16 * h + l.
Proof.
  intros Hh Hl.
  assert (forallb (fun h => forallb (fun l =>
    negb (negb (Z.land h 0xF0 =? 0) || negb (Z.land l 0xF0 =? 0)) &&
    (Z.land (Z.lor (Z.shiftl h 4) l) 0xFF =? 16 * h + l)) (seqZ 0 16)) (seqZ 0 16) = true) as H.
  { vm_compute. reflexivity. }
  rewrite forallb_forall in H. specialize (H h). rewrite forallb_forall in H.
  assert (forall x, 0 <= x < 16 -> In x (seqZ 0 16)) as Hin.
  { intros x Hx. apply list_elem_of_In, elem_of_seqZ. lia. }
  specialize (H (Hin h Hh) l (Hin l Hl)). apply andb_true_iff in H as [H1 H2].
  split; [by apply negb_true_iff|]. by apply Z.eqb_eq.
Qed.

Definition digit_entries (b : Z) : bool :=
  bool_decide (bytehi_to_hex !! Z.to_nat b = Some (hexdigit (b / 16))) &&
  bool_decide (bytelo_to_hex !! Z.to_nat b = Some (hexdigit (b mod 16))) &&
  Bool.eqb (dfk__urlencode_unreserved (to_schar b)) (unreserved b) &&
  bool_decide (hexval (hexdigit (b / 16)) = Some (b / 16)) &&
  bool_decide (hexval (hexdigit (b mod 16)) = Some (b mod 16)) &&
  (negb (unreserved b) || negb (b =? 37)).

Lemma digits_spec b : byte b ->
  bytehi_to_hex !! Z.to_nat b = Some (hexdigit (b / 16)) /\
  bytelo_to_hex !! Z.to_nat b = Some (hexdigit (b mod 16)) /\
  dfk__urlencode_unreserved (to_schar b) = unreserved b /\
  hexval (hexdigit (b / 16)) = Some (b / 16) /\
  hexval (hexdigit (b mod 16)) = Some (b mod 16) /\
  (unreserved b = true -> b <> 37).
Proof.
  intros Hb. pose proof (byte_cases digit_entries ltac:(vm_compute; reflexivity) b Hb) as H.
  unfold digit_entries in H. rewrite !andb_true_iff, !bool_decide_eq_true, eqb_true_iff in H.
  destruct H as (((((? & ?) & ?) & ?) & ?) & ?). split_and!; [done..|]. intros Hu ->.
  by rewrite Hu in *.
Qed.

Lemma wp_index t i v m (Q : Z -> bmem -> Prop) :
  t !! Z.to_nat i = Some v -> Q v m -> wp (index t i) m Q.
Proof. unfold index. intros ->. by apply wp_ret. Qed.

(** ** Decoding *)

Lemma url_decode_split bs : exists k,
  length bs = (k + length (url_decode bs).2)%nat /\
  (length (url_decode bs).1 <= k)%nat /\ bs = take k bs ++ (url_decode bs).2.
Proof.
  remember (length bs) as n eqn:Hn. revert bs Hn.
  induction (lt_wf n) as [n _ IH]. intros [|c r] ->; [by exists 0%nat|]. cbn [url_decode].
  destruct (Z.eqb_spec c 37) as [->|Hc].
  - destruct r as [|h [|l r']]; [by exists 0%nat|by exists 0%nat|].
    destruct (hexval h), (hexval l); try by exists 0%nat.
    destruct (IH (length r') ltac:(cbn; lia) r' eq_refl) as (k & H1 & H2 & H3).
    destruct (url_decode r') as [d rest]. cbn in *. exists (3 + k)%nat. cbn. split_and!; [lia..|].
    by rewrite <- H3.
  - destruct (IH (length r) ltac:(cbn; lia) r eq_refl) as (k & H1 & H2 & H3).
    destruct (url_decode r) as [d rest]. cbn in *. exists (1 + k)%nat. cbn. split_and!; [lia..|].
    by rewrite <- H3.
Qed.

(** The output does not overtake the input. *)
Definition follows (out buf n : Z) : Prop := out <= buf \/ buf + n <= out.

Lemma urldecode_loop fuel : forall bs m buf out end_,
  (length bs < fuel)%nat -> Forall byte bs -> bytes_at m buf bs ->
  room_at m out (Z.of_nat (length (url_decode bs).1)) ->
  end_ = buf + Z.of_nat (length bs) -> follows out buf (Z.of_nat (length bs)) ->
  wp (loop fuel (urldecode_body end_) (buf, out)) m (fun r m' =>
    r = (end_ - Z.of_nat (length (url_decode bs).2), out + Z.of_nat (length (url_decode bs).1)) /\
    m' = put_bytes out (url_decode bs).1 m).
Proof.
  induction fuel as [|fuel IH]; intros bs m buf out end_ Hf Hby Hb Hr -> Hfol; [lia|].
  apply wp_bind. destruct bs as [|c r]; cbn [urldecode_body].
  { cbn. rewrite Z.add_0_r, Z.eqb_refl. apply wp_ret, wp_ret. split; [f_equal; lia|by rewrite put_nil]. }
  apply Forall_cons in Hby as [Hc Hby]. apply bytes_cons in Hb as (Hp & Hbc & Hb).
  assert (forall d, room_at m out (Z.of_nat (S d)) ->
    room_at m out 1 /\ forall v, room_at (put_bytes out [v] m) (out + 1) (Z.of_nat d)) as Hroom.
  { intros d Hd. split; [eapply room_mono; [|exact Hd]; lia|]. intros v. apply room_put.
    replace (Z.of_nat d) with (Z.of_nat (S d) - 1) by lia. by apply room_tail. }
  rewrite (proj2 (Z.eqb_neq _ _)) by (cbn; lia). apply wp_bind. eapply wp_load; [lia|done|].
  cbn [url_decode] in Hr |- *. destruct (Z.eqb_spec c 37) as [->|Hne].
  - destruct r as [|h [|l r']].
    1,2: apply wp_if_true; [apply Z.leb_le; cbn; lia|]; apply wp_ret, wp_ret; cbn;
      split; [f_equal; lia|by rewrite put_nil].
    apply wp_if_false; [apply Z.leb_gt; cbn; lia|].
    apply Forall_cons in Hby as [Hh Hby]. apply Forall_cons in Hby as [Hl Hby].
    apply bytes_cons in Hb as (_ & Hbh & Hb). apply bytes_cons in Hb as (_ & Hbl & Hb).
    replace (buf + 1 + 1) with (buf + 2) in * by lia.
    destruct (hex_to_byte_spec h Hh) as (vh & Hth & Hvh).
    destruct (hex_to_byte_spec l Hl) as (vl & Htl & Hvl).
    apply wp_bind. eapply wp_load; [lia|done|]. apply wp_bind. eapply wp_index; [done|].
    apply wp_bind. eapply wp_load; [lia|done|]. apply wp_bind. eapply wp_index; [done|].
    assert (forall v, wp (mret (inr (buf, out))) m
      (fun r m' => wp (match r with inl a' => loop fuel (urldecode_body v) a' | inr b => mret b end) m'
        (fun r m' => r = (buf + Z.of_nat (length (37 :: h :: l :: r')) - Z.of_nat (length (37 :: h :: l :: r')), out + 0) /\ m' = put_bytes out [] m))) as Hstop.
    { intros v. apply wp_ret, wp_ret. split; [f_equal; lia|by rewrite put_nil]. }
    destruct (hexval h) as [wh|].
    2:{ apply wp_if_true; [|apply Hstop]. apply orb_true_iff. left. by apply negb_true_iff, Z.eqb_neq. }
    destruct (hexval l) as [wl|].
    2:{ apply wp_if_true; [|apply Hstop]. apply orb_true_iff. right. by apply negb_true_iff, Z.eqb_neq. }
    destruct Hvh as [-> Hwh], Hvl as [-> Hwl]. destruct (nibbles _ _ Hwh Hwl) as [Hn1 Hn2].
    specialize (IH r'). destruct (url_decode r') as [d rest]. cbn [fst snd length] in *.
    apply wp_if_false; [done|]. destruct (Hroom _ Hr) as [Hr1 Hr2].
    apply wp_bind. eapply wp_store_byte; [done|]. apply wp_ret. rewrite Hn2.
    eapply wp_mono; [apply IH; try done; try lia|].
    + apply bytes_put_apart; [|by replace (buf + 3) with (buf + 2 + 1) by lia].
      cbn. destruct Hfol; lia.
    + destruct Hfol; [left|right]; lia.
    + intros res m' [-> ->]. split; [f_equal; lia|]. by rewrite (put_step out _ d).
  - specialize (IH r). destruct (url_decode r) as [d rest]. cbn [fst snd length] in *.
    destruct (Hroom _ Hr) as [Hr1 Hr2].
    apply wp_bind. eapply wp_store_byte; [done|]. apply wp_ret.
    eapply wp_mono; [apply IH; try done; try lia|].
    + apply bytes_put_apart; [|done]. cbn. destruct Hfol; lia.
    + destruct Hfol; [left|right]; lia.
    + intros res m' [-> ->]. split; [f_equal; lia|]. by rewrite (put_step out _ d).
Qed.

(** ** Encoding *)

Lemma url_encode_cons b bs : url_encode (b :: bs) = encode1 b ++ url_encode bs.
Proof. done. Qed.

Lemma urlencode_loop fuel : forall bs m buf out end_,
  (length bs < fuel)%nat -> Forall byte bs -> bytes_at m buf bs ->
  room_at m out (Z.of_nat (length (url_encode bs))) ->
  end_ = buf + Z.of_nat (length bs) ->
  (out + Z.of_nat (length (url_encode bs)) <= buf \/ end_ <= out) ->
  wp (loop fuel (urlencode_body end_) (buf, out)) m (fun r m' =>
    r = out + Z.of_nat (length (url_encode bs)) /\ m' = put_bytes out (url_encode bs) m).
Proof.
  induction fuel as [|fuel IH]; intros bs m buf out end_ Hf Hby Hb Hr -> Hd; [lia|].
  apply wp_bind. destruct bs as [|c r]; cbn [urlencode_body].
  { cbn. rewrite !Z.add_0_r, Z.eqb_refl. apply wp_ret, wp_ret. split; [done|by rewrite put_nil]. }
  apply Forall_cons in Hby as [Hc Hby]. apply bytes_cons in Hb as (Hp & Hbc & Hb).
  rewrite (proj2 (Z.eqb_neq _ _)) by (cbn; lia). apply wp_bind. eapply wp_load; [lia|done|].
  destruct (digits_spec c Hc) as (Hhi & Hlo & Hun & _). rewrite Hun.
  rewrite url_encode_cons, length_app, Nat2Z.inj_add in Hr, Hd |- *. rewrite put_app.
  set (d := url_encode r) in *. set (k := Z.of_nat (length (encode1 c))) in *.
  assert (forall m', m' = put_bytes out (encode1 c) m ->
    wp (loop fuel (urlencode_body (buf + Z.of_nat (length (c :: r)))) (buf + 1, out + k)) m' (fun res m'' =>
      res = out + (k + Z.of_nat (length d)) /\ m'' = put_bytes (out + k) d (put_bytes out (encode1 c) m))) as Hrest.
  { intros m' ->. eapply wp_mono; [apply (IH r); try done|].
    - cbn in Hf. lia.
    - apply bytes_put_apart; [|done]. cbn in Hd. fold k. lia.
    - fold d. apply room_put. replace (Z.of_nat (length d)) with (k + Z.of_nat (length d) - k) by lia.
      apply room_tail; [lia|done].
    - cbn. lia.
    - cbn in Hd |- *. fold d. lia.
    - intros res m'' [-> ->]. split; [fold d; lia|done]. }
  assert (forall j, 0 <= j < k -> room_at m (out + j) 1) as Hroom.
  { intros j Hj. eapply room_mono; [|apply (room_tail m out (k + Z.of_nat (length d)) j); [lia|exact Hr]]. lia. }
  unfold encode1 in k, Hrest |- *. destruct (unreserved c); cbn [length] in k.
  - apply wp_bind. eapply wp_store_byte; [rewrite <- (Z.add_0_r out); apply Hroom; lia|].
    apply wp_ret. by apply Hrest.
  - apply wp_bind. eapply wp_store_byte; [rewrite <- (Z.add_0_r out); apply Hroom; lia|].
    apply wp_bind. eapply wp_index; [done|]. apply wp_bind.
    eapply wp_store_byte; [apply room_put, Hroom; lia|].
    apply wp_bind. eapply wp_index; [done|]. apply wp_bind.
    eapply wp_store_byte; [apply room_put, room_put, Hroom; lia|]. apply wp_ret.
    apply Hrest. rewrite (put_step out _ [_; _] m), (put_step (out + 1) _ [_]). by replace (out + 1 + 1) with (out + 2) by lia.
Qed.

Lemma encode1_bytes b : byte b -> Forall byte (encode1 b).
Proof.
  intros Hb. unfold encode1, hexdigit. destruct (unreserved b); [by apply Forall_singleton|]. unfold byte in *.
  pose proof (Z.mod_pos_bound b 16 ltac:(done)).
  assert (0 <= b / 16 < 16) by (split; [apply Z.div_pos; lia|apply Z.div_lt_upper_bound; lia]).
  rewrite !Forall_cons, Forall_nil. unfold byte. repeat case_match; lia.
Qed.

Lemma url_encode_bytes bs : Forall byte bs -> Forall byte (url_encode bs).
Proof.
  induction 1 as [|b bs Hb _ IH]; [constructor|]. rewrite url_encode_cons.
  apply Forall_app. split; [by apply encode1_bytes|done].
Qed.

Lemma decode_encode bs : Forall byte bs -> url_decode (url_encode bs) = (bs, []).
Proof.
  induction 1 as [|b bs Hb _ IH]; [done|]. rewrite url_encode_cons.
  destruct (digits_spec b Hb) as (_ & _ & _ & Hh & Hl & Hu). unfold encode1.
  destruct (unreserved b); cbn [app url_decode].
  - rewrite (proj2 (Z.eqb_neq _ _)) by by apply Hu. by rewrite IH.
  - cbn. rewrite Hh, Hl, IH. do 2 f_equal. pose proof (Z.div_mod b 16). lia.
Qed.

(** ** Size hints *)

Lemma hint_loop extra end_ bs : forall m buf fuel s,
  (length bs < fuel)%nat -> bytes_at m buf bs -> end_ = buf + Z.of_nat (length bs) ->
  0 <= s -> s + 2 * Z.of_nat (length bs) < SIZE_MOD ->
  wp (loop fuel (hint_body extra end_) (buf, s)) m (fun r m' =>
    r = s + 2 * Z.of_nat (length (filter (fun b => extra b = true) bs)) /\ m' = m).
Proof.
  induction bs as [|b bs IH]; intros m buf [|fuel] s Hf Hb -> Hs Hm; try (cbn in Hf; lia); apply wp_bind.
  - cbn. rewrite Z.add_0_r, Z.eqb_refl. apply wp_ret, wp_ret. split; [lia|done].
  - apply bytes_cons in Hb as (Hp & Hbc & Hb). unfold hint_body at 1.
    rewrite (proj2 (Z.eqb_neq _ _)) by (cbn; lia). apply wp_bind. eapply wp_load; [lia|done|]. apply wp_ret.
    cbn [length] in *.
    eapply wp_mono; [apply (IH m (buf + 1) fuel)|]; [lia|done|lia|..].
    + destruct (extra b); [|done]. apply to_size_range.
    + destruct (extra b); [rewrite to_size_small by lia|]; lia.
    + intros r m' [-> ->]. split; [|done]. destruct (extra b) eqn:E.
      * rewrite filter_cons_True by done. rewrite to_size_small by lia. cbn [length]. lia.
      * rewrite filter_cons_False by by rewrite E. lia.
Qed.

Lemma encode_length bs : Forall byte bs -> Z.of_nat (length (url_encode bs)) =
  Z.of_nat (length bs) +
  2 * Z.of_nat (length (filter (fun b => negb (dfk__urlencode_unreserved (to_schar b)) = true) bs)).
Proof.
  induction 1 as [|b bs Hb _ IH]; [done|]. rewrite url_encode_cons, length_app.
  destruct (digits_spec b Hb) as (_ & _ & Hun & _).
  unfold encode1. destruct (unreserved b).
  - rewrite filter_cons_False by by rewrite Hun. cbn. lia.
  - rewrite filter_cons_True by by rewrite Hun. cbn. lia.
Qed.

(** In well-formed input every percent sign starts an escape. *)
Lemma decode_length bs : (url_decode bs).2 = [] ->
  Z.of_nat (length (url_decode bs).1) =
    Z.of_nat (length bs) - 2 * Z.of_nat (length (filter (fun b => (b =? 37) = true) bs)).
Proof.
  remember (length bs) as n eqn:Hn. revert bs Hn.
  induction (lt_wf n) as [n _ IH]. intros [|c r] ->; [done|]. cbn [url_decode].
  destruct (Z.eqb_spec c 37) as [->|Hc].
  - destruct r as [|h [|l r']]; [done..|].
    destruct (hexval h) as [vh|] eqn:Eh; [|done]. destruct (hexval l) as [vl|] eqn:El; [|done].
    assert (h <> 37 /\ l <> 37) as [Hh Hl] by (split; intros ->; done).
    specialize (IH (length r') ltac:(cbn; lia) r' eq_refl).
    destruct (url_decode r') as [d rest]. cbn [fst snd] in *. intros Hrest. specialize (IH Hrest).
    rewrite filter_cons_True by done.
    rewrite !filter_cons_False by (by rewrite Z.eqb_eq). cbn [length]. lia.
  - specialize (IH (length r) ltac:(cbn; lia) r eq_refl).
    destruct (url_decode r) as [d rest]. cbn [fst snd] in *. intros Hrest. specialize (IH Hrest).
    rewrite filter_cons_False by (by rewrite Z.eqb_eq). cbn [length]. lia.
Qed.

(** ** Claims *)

(** A page of memory for the examples: ["a b%"] at 100, 60 bytes of room. *)
Definition sample_input : list Z := [97; 32; 98; 37].
Definition sample_page (bs : list Z) : bmem :=
  put_bytes 100 bs (BMem (map_seqZ 100 (replicate 60 None)) ∅).

Lemma sample_page_input bs : bytes_at (sample_page bs) 100 bs.
Proof. by apply bytes_put_same. Qed.
Lemma sample_page_room bs p n : 100 <= p -> p + n <= 160 -> room_at (sample_page bs) p n.
Proof.
  intros Hp Hn. apply room_put. split; [lia|]. intros i Hi. cbn [cells].
  rewrite lookup_map_seqZ_is_Some, length_replicate. lia.
Qed.
Lemma sample_bytes : Forall byte sample_input.
Proof. unfold sample_input, byte. rewrite !Forall_cons, Forall_nil. lia. Qed.

Lemma dfk_urldecode_spec (m : bmem) (buf out : Z) (bs : list Z) :
  Forall byte bs -> bytes_at m buf bs -> room_at m out (Z.of_nat (length (url_decode bs).1)) ->
  follows out buf (Z.of_nat (length bs)) -> buf + Z.of_nat (length bs) < SIZE_MOD ->
  wp (dfk_urldecode buf (Z.of_nat (length bs)) out) m (fun r m' =>
    r = (Z.of_nat (length bs) - Z.of_nat (length (url_decode bs).2),
         Z.of_nat (length (url_decode bs).1)) /\ m' = put_bytes out (url_decode bs).1 m).
Proof.
  intros Hbytes Hin Hout Hplace Hend. destruct Hin as [Hp Hin]. pose proof (proj1 Hout).
  apply wp_bind, wp_assert; [by rewrite nonnull_true by lia|].
  apply wp_bind, wp_assert; [by rewrite nonnull_true by lia|]. apply wp_bind.
  eapply wp_mono; [by apply (urldecode_loop _ bs); [rewrite Nat2Z.id; lia|..]|].
  intros r m' [-> ->]. apply wp_ret. split; [|done].
  destruct (url_decode_split bs) as (k & H1 & H2 & _).
  rewrite !to_size_small by lia. f_equal; lia.
Qed.

(** C24: [dfk_urldecode] decodes the longest well-formed prefix of its input,
    writes exactly the decoded bytes and returns how many bytes it consumed
    and wrote; the output may start at the input (decoding in place), before
    it, or behind it.  It never reads past the input, whatever the input. *)
Theorem urldecode_correct (m : bmem) (buf out : Z) (bs : list Z)
    (Hbytes : Forall byte bs) (Hin : bytes_at m buf bs)
    (Hout : room_at m out (Z.of_nat (length (url_decode bs).1)))
    (Hplace : follows out buf (Z.of_nat (length bs)))
    (Hend : buf + Z.of_nat (length bs) < SIZE_MOD) :
  dfk_urldecode buf (Z.of_nat (length bs)) out m =
    Ok ((Z.of_nat (length bs) - Z.of_nat (length (url_decode bs).2),
         Z.of_nat (length (url_decode bs).1)),
        put_bytes out (url_decode bs).1 m).
Proof.
  pose proof (dfk_urldecode_spec m buf out bs Hbytes Hin Hout Hplace Hend) as Hw.
  apply wp_run in Hw as (r & m' & -> & -> & ->). done.
Qed.

Lemma urldecode_correct_witness :
  dfk_urldecode 100 8 100 (sample_page [37; 52; 49; 37; 50; 102; 37; 122]) =
    Ok ((6, 2), put_bytes 100 [65; 47] (sample_page [37; 52; 49; 37; 50; 102; 37; 122])).
Proof.
  apply (urldecode_correct (sample_page [37; 52; 49; 37; 50; 102; 37; 122]) 100 100
    [37; 52; 49; 37; 50; 102; 37; 122]).
  - unfold byte. rewrite !Forall_cons, Forall_nil. lia.
  - apply sample_page_input.
  - apply sample_page_room; done.
  - left. done.
  - done.
Defined.

(** C17: round trip: [dfk_urlencode] writes as many bytes as
    [dfk_urlencode_hint] announces, and [dfk_urldecode] turns them back, in
    place, into the original bytes, whatever these are. *)
Theorem urlencode_roundtrip (m : bmem) (buf out : Z) (bs : list Z)
    (Hbytes : Forall byte bs) (Hin : bytes_at m buf bs)
    (Hout : room_at m out (Z.of_nat (length (url_encode bs))))
    (Hplace : out + Z.of_nat (length (url_encode bs)) <= buf \/ buf + Z.of_nat (length bs) <= out)
    (Hsize : 2 * Z.of_nat (length bs) < SIZE_MOD)
    (Hend : out + Z.of_nat (length (url_encode bs)) < SIZE_MOD) :
  let n := Z.of_nat (length bs) in
  exists k m1 m2,
    dfk_urlencode_hint buf n m = Ok (k, m) /\
    dfk_urlencode buf n out m = Ok (k, m1) /\ bytes_at m1 out (url_encode bs) /\
    dfk_urldecode out k out m1 = Ok ((k, n), m2) /\ bytes_at m2 out bs /\
    (forall a, ~ (out <= a < out + k) -> cells m2 !! a = cells m !! a).
Proof.
  cbn zeta. set (n := Z.of_nat (length bs)). set (e := url_encode bs) in *.
  set (k := Z.of_nat (length e)). pose proof (proj1 Hout) as Ho.
  pose proof (encode_length bs Hbytes) as Hk. fold e k n in Hk.
  exists k, (put_bytes out e m), (put_bytes out bs (put_bytes out e m)).
  pose proof (decode_encode bs Hbytes) as Hde. fold e in Hde.
  assert (n <= k) as Hnk by lia. split_and!.
  - assert (wp (dfk_urlencode_hint buf n) m (fun r m' => r = k /\ m' = m)) as Hw.
    { apply wp_bind. eapply wp_mono; [eapply (hint_loop _ _ bs); [unfold n; lia|done|done|lia|lia]|].
      intros r m' [-> ->]. apply wp_ret. rewrite to_size_small; [split; [lia|done]|]. lia. }
    by apply wp_run in Hw as (? & ? & -> & -> & ->).
  - assert (wp (dfk_urlencode buf n out) m (fun r m' => r = k /\ m' = put_bytes out e m)) as Hw.
    { apply wp_bind. eapply wp_mono; [by apply (urlencode_loop _ bs); [unfold n; lia|..]|].
      intros r m' [-> ->]. apply wp_ret. rewrite to_size_small; [split; [fold e; lia|done]|].
      fold e k. lia. }
    by apply wp_run in Hw as (? & ? & -> & -> & ->).
  - by apply bytes_put_same.
  - pose proof (urldecode_loop (S (Z.to_nat k)) e (put_bytes out e m) out out (out + k)) as Hw.
    rewrite Hde in Hw. cbn [fst snd length] in Hw.
    assert (wp (dfk_urldecode out k out) (put_bytes out e m) (fun r m' =>
      r = (k, n) /\ m' = put_bytes out bs (put_bytes out e m))) as Hd.
    { apply wp_bind, wp_assert; [by rewrite nonnull_true by lia|].
      apply wp_bind, wp_assert; [by rewrite nonnull_true by lia|]. apply wp_bind.
      eapply wp_mono; [apply Hw|].
      - unfold k. lia.
      - by apply url_encode_bytes.
      - by apply bytes_put_same.
      - apply room_put. eapply room_mono; [|exact Hout]. fold k. lia.
      - done.
      - left. lia.
      - intros r m' [-> ->]. apply wp_ret. rewrite !to_size_small by (fold n; lia).
        split; [|done]. f_equal; fold n; lia. }
    by apply wp_run in Hd as (? & ? & -> & -> & ->).
  - by apply bytes_put_same.
  - intros a Ha. rewrite !cells_put, !decide_False by (fold k n; lia). done.
Qed.

Lemma urlencode_roundtrip_witness :
  exists m1 m2, dfk_urlencode 100 4 110 (sample_page sample_input) = Ok (8, m1) /\
    dfk_urldecode 110 8 110 m1 = Ok ((8, 4), m2) /\ bytes_at m2 110 sample_input.
Proof.
  destruct (urlencode_roundtrip (sample_page sample_input) 100 110 sample_input)
    as (k & m1 & m2 & Hh & He & _ & Hd & Hb & _).
  - apply sample_bytes.
  - apply sample_page_input.
  - apply sample_page_room; done.
  - right. done.
  - done.
  - done.
  - assert (k = 8) as ->.
    { vm_compute in Hh. injection Hh as <-. reflexivity. }
    exists m1, m2. exact (conj He (conj Hd Hb)).
Defined.

(** For well-formed input [dfk_urldecode_hint] is exactly the number of
    bytes [dfk_urldecode] writes. *)
Theorem urldecode_hint_exact (m : bmem) (buf : Z) (bs : list Z)
    (Hin : bytes_at m buf bs) (Hwf : (url_decode bs).2 = [])
    (Hsize : 2 * Z.of_nat (length bs) < SIZE_MOD) :
  dfk_urldecode_hint buf (Z.of_nat (length bs)) m =
    Ok (Z.of_nat (length (url_decode bs).1), m).
Proof.
  pose proof (decode_length bs Hwf) as Hl.
  assert (wp (dfk_urldecode_hint buf (Z.of_nat (length bs))) m (fun r m' =>
    r = Z.of_nat (length (url_decode bs).1) /\ m' = m)) as Hw.
  { apply wp_bind. eapply wp_mono; [eapply (hint_loop _ _ bs); [lia|done|done|lia|lia]|].
    intros r m' [-> ->]. apply wp_ret. rewrite to_size_small; [split; [lia|done]|].
    pose proof (length_filter (fun b => (b =? 37) = true) bs). lia. }
  by apply wp_run in Hw as (? & ? & -> & -> & ->).
Qed.

Lemma urldecode_hint_exact_witness :
  dfk_urldecode_hint 100 5 (sample_page [97; 37; 52; 49; 98]) =
    Ok (3, sample_page [97; 37; 52; 49; 98]).
Proof.
  apply (urldecode_hint_exact (sample_page [97; 37; 52; 49; 98]) 100 [97; 37; 52; 49; 98]).
  - apply sample_page_input.
  - reflexivity.
  - done.
Defined.

(** For text followed by a lone percent sign the hint is smaller than the
    number of bytes [dfk_urldecode] writes: a buffer of the announced size
    overflows by one byte. *)
Theorem urldecode_hint_short (m : bmem) (buf out : Z) (text : list Z)
    (Hplain : 37 ∉ text) (Hne : text <> []) (Hbytes : Forall byte text)
    (Hin : bytes_at m buf (text ++ [37]))
    (Hout : room_at m out (Z.of_nat (length text)))
    (Hplace : follows out buf (Z.of_nat (length text) + 1))
    (Hend : buf + 2 * (Z.of_nat (length text) + 1) < SIZE_MOD) :
  let n := Z.of_nat (length text) in
  dfk_urldecode_hint buf (n + 1) m = Ok (n - 1, m) /\
  exists m', dfk_urldecode buf (n + 1) out m = Ok ((n, n), m').
Proof.
  cbn zeta. set (n := Z.of_nat (length text)).
  assert (length (text ++ [37]) = S (length text)) as Hlen by (rewrite length_app; cbn; lia).
  assert (url_decode (text ++ [37]) = (text, [37])) as Hd.
  { clear -Hplain. induction text as [|c r IH]; [done|]. cbn [app url_decode]. sep.
    rewrite (proj2 (Z.eqb_neq _ _)) by done. by rewrite IH. }
  assert (filter (fun b => (b =? 37) = true) (text ++ [37]) = [37]) as Hf.
  { rewrite filter_app, filter_none; [done|]. intros x Hx E. apply Z.eqb_eq in E as ->. done. }
  assert (0 < n) by (unfold n; destruct text; [done|cbn; lia]). pose proof (proj1 Hin). split.
  - assert (wp (dfk_urldecode_hint buf (n + 1)) m (fun r m' => r = n - 1 /\ m' = m)) as Hw.
    { apply wp_bind. eapply wp_mono;
        [eapply (hint_loop _ _ (text ++ [37])); rewrite ?Hlen; [unfold n; lia|done|unfold n; lia|lia|lia]|].
      intros r m' [-> ->]. apply wp_ret. rewrite Hf. cbn [length]. rewrite to_size_small; [|lia].
      split; [lia|done]. }
    by apply wp_run in Hw as (? & ? & -> & -> & ->).
  - assert (wp (dfk_urldecode buf (n + 1) out) m (fun r m' => r = (n, n))) as Hw.
    { pose proof (proj1 Hout). apply wp_bind, wp_assert; [by rewrite nonnull_true by lia|].
      apply wp_bind, wp_assert; [by rewrite nonnull_true by lia|]. apply wp_bind.
      eapply wp_mono; [apply (urldecode_loop _ (text ++ [37]))|]; rewrite ?Hlen, ?Hd; try done.
      - unfold n. lia.
      - apply Forall_app. split; [done|]. by apply Forall_singleton.
      - unfold n. lia.
      - by replace (Z.of_nat (S (length text))) with (n + 1) by (unfold n; lia).
      - intros r m' [-> _]. apply wp_ret. cbn [fst snd length]. fold n.
        rewrite !to_size_small by lia. f_equal; lia. }
    apply wp_run in Hw as (? & m' & -> & ->). by exists m'.
Qed.

Lemma urldecode_hint_short_witness :
  dfk_urldecode_hint 100 4 (sample_page [97; 98; 99; 37]) =
    Ok (2, sample_page [97; 98; 99; 37]) /\
  exists m', dfk_urldecode 100 4 120 (sample_page [97; 98; 99; 37]) = Ok ((3, 3), m').
Proof.
  apply (urldecode_hint_short (sample_page [97; 98; 99; 37]) 100 120 [97; 98; 99]).
  - by apply (bool_decide_unpack _).
  - done.
  - unfold byte. rewrite !Forall_cons, Forall_nil. lia.
  - apply sample_page_input.
  - apply sample_page_room; done.
  - right. done.
  - done.
Defined.
