(* ===== verification/ListSpec.v ===== *)
(** * Abstract specification of the intrusive lists, and their interface

    [dfk/list.h] declares one intrusive doubly linked list whose memory layout
    is chosen at compile time.  This file states what every layout promises:
    the abstract state [lspec] (which hooks are chained into which list, which
    are free), one abstract operation per function of [list.h], and the class
    [ListLaws] that the components built on lists are proved against.
    [ListPtr] (two pointers per hook) and [ListXor] (one XOR-ed pointer per
    hook) discharge the class. *)

From S2P Require Import Prelude.

(** [dfk_list_t], with [DFK_LIST_CONSTANT_TIME_SIZE]. *)
Record dfk_list_t := DfkList { _head : Z; _tail : Z; _size : Z }.

(** Memory as the list functions see it: list objects and hooks of a layout
    [H], by address. *)
Record lmem (H : Type) := LMem {
  lists : gmap Z dfk_list_t;
  hooks : gmap Z H
}.
Arguments LMem {H} _ _.
Arguments lists {H} _.
Arguments hooks {H} _.

Definition lists_of {H} : heap_of (lmem H) dfk_list_t :=
  Heap lists (fun ls m => LMem ls (hooks m)).
Definition hooks_of {H} : heap_of (lmem H) H :=
  Heap hooks (fun hs m => LMem (lists m) hs).

Definition set_head (p : Z) (l : dfk_list_t) := DfkList p (_tail l) (_size l).
Definition set_tail (p : Z) (l : dfk_list_t) := DfkList (_head l) p (_size l).
Definition set_size (n : Z) (l : dfk_list_t) := DfkList (_head l) (_tail l) n.

(** ** The abstract state *)

(** [chains] maps the address of each list object to the addresses of its
    hooks in order; [spare] are the live hooks that are in no list. *)
Record lspec := LSpec {
  chains : gmap Z (list Z);
  spare : gset Z
}.

Record spec_wf (σ : lspec) : Prop := SpecWf {
  wf_list_addr : forall l xs, chains σ !! l = Some xs -> l <> 0;
  wf_nodup : forall l xs, chains σ !! l = Some xs -> NoDup xs;
  wf_disjoint : forall l1 l2 xs1 xs2 x,
    chains σ !! l1 = Some xs1 -> chains σ !! l2 = Some xs2 ->
    x ∈ xs1 -> x ∈ xs2 -> l1 = l2;
  wf_spare : forall l xs x, chains σ !! l = Some xs -> x ∈ spare σ -> x ∉ xs;
  wf_chain_valid : forall l xs x, chains σ !! l = Some xs -> x ∈ xs -> valid_addr x;
  wf_spare_valid : forall x, x ∈ spare σ -> valid_addr x
}.

(** No list of [σ] contains the hook [h]. *)
Definition unchained (σ : lspec) (h : Z) : Prop :=
  forall l xs, chains σ !! l = Some xs -> h ∉ xs.

(** List [l] now holds [ys]; [F] are the spare hooks. *)
Definition rechain (l : Z) (ys : list Z) (F : gset Z) (σ : lspec) : lspec :=
  LSpec (<[l := ys]> (chains σ)) F.

(** A hook of list [l] is released, or a spare one chained. *)
Definition release (x : Z) (σ : lspec) : gset Z := spare σ ∪ {[x]}.
Definition occupy (x : Z) (σ : lspec) : gset Z := spare σ ∖ {[x]}.

(** ** The interface *)

(** The functions of [list.h]; [It] is both [dfk_list_it] and
    [dfk_list_rit].  [hook_dispose] is not a function of the library: it ends
    the lifetime of the object a hook is embedded in. *)
Class ListOps (Mem It : Type) := {
  list_init : Z -> M Mem unit;
  hook_init : Z -> M Mem unit;
  hook_dispose : Z -> M Mem unit;
  list_front : Z -> M Mem Z;
  list_back : Z -> M Mem Z;
  list_append : Z -> Z -> M Mem unit;
  list_prepend : Z -> Z -> M Mem unit;
  list_insert : Z -> Z -> It -> M Mem unit;
  list_rinsert : Z -> Z -> It -> M Mem unit;
  list_clear : Z -> M Mem unit;
  list_erase : Z -> It -> M Mem unit;
  list_rerase : Z -> It -> M Mem unit;
  list_pop_front : Z -> M Mem unit;
  list_pop_back : Z -> M Mem unit;
  list_size : Z -> M Mem Z;
  list_empty : Z -> M Mem bool;
  list_move : Z -> Z -> M Mem unit;
  list_swap : Z -> Z -> M Mem unit;
  list_begin : Z -> M Mem It;
  list_end : Z -> M Mem It;
  list_it_from_value : Z -> Z -> M Mem It;
  list_it_next : It -> M Mem It;
  list_it_equal : It -> It -> M Mem bool;
  list_rbegin : Z -> M Mem It;
  list_rend : Z -> M Mem It;
  list_rit_from_value : Z -> Z -> M Mem It;
  list_rit_next : It -> M Mem It;
  list_rit_equal : It -> It -> M Mem bool;
  it_value : It -> Z
}.

(** What a layout promises.  [lrep m σ]: memory [m] holds the lists of [σ].
    [it_at it pre suf]: the iterator stands before [suf] and after [pre];
    [rit_at it pre suf]: the reverse iterator stands on the last of [pre].
    [list_rerase] has no law here: see [ListPtr.dfk_list_rerase_spec] for the
    default layout and [ListXor.rerase_corrupts] for the other one. *)
Class ListLaws (Mem It : Type) `{!ListOps Mem It} := {
  lrep : Mem -> lspec -> Prop;
  it_at : It -> list Z -> list Z -> Prop;
  rit_at : It -> list Z -> list Z -> Prop;

  lrep_wf m σ : lrep m σ -> spec_wf σ;
  it_at_value it pre suf : it_at it pre suf -> it_value it = head_or 0 suf;
  rit_at_value it pre suf : rit_at it pre suf -> it_value it = last_or 0 pre;

  law_init m σ l : lrep m σ -> l <> 0 -> default [] (chains σ !! l) = [] ->
    wp (list_init l) m (fun _ m' => lrep m' (rechain l [] (spare σ) σ));
  law_hook_init m σ h : lrep m σ -> valid_addr h -> unchained σ h ->
    wp (hook_init h) m (fun _ m' => lrep m' (LSpec (chains σ) (release h σ)));
  law_hook_dispose m σ h : lrep m σ -> h ∈ spare σ ->
    wp (hook_dispose h) m (fun _ m' => lrep m' (LSpec (chains σ) (occupy h σ)));

  law_front m σ l xs : lrep m σ -> chains σ !! l = Some xs ->
    wp (list_front l) m (fun r m' => r = head_or 0 xs /\ m' = m);
  law_back m σ l xs : lrep m σ -> chains σ !! l = Some xs ->
    wp (list_back l) m (fun r m' => r = last_or 0 xs /\ m' = m);
  law_size m σ l xs : lrep m σ -> chains σ !! l = Some xs ->
    wp (list_size l) m (fun r m' => r = Z.of_nat (length xs) /\ m' = m);
  law_empty m σ l xs : lrep m σ -> chains σ !! l = Some xs ->
    wp (list_empty l) m (fun r m' => r = bool_decide (xs = []) /\ m' = m);

  law_append m σ l h xs : lrep m σ -> chains σ !! l = Some xs -> h ∈ spare σ ->
    wp (list_append l h) m (fun _ m' => lrep m' (rechain l (xs ++ [h]) (occupy h σ) σ));
  law_prepend m σ l h xs : lrep m σ -> chains σ !! l = Some xs -> h ∈ spare σ ->
    wp (list_prepend l h) m (fun _ m' => lrep m' (rechain l (h :: xs) (occupy h σ) σ));
  law_insert m σ l h it pre suf :
    lrep m σ -> chains σ !! l = Some (pre ++ suf) -> h ∈ spare σ -> it_at it pre suf ->
    wp (list_insert l h it) m
      (fun _ m' => lrep m' (rechain l (pre ++ h :: suf) (occupy h σ) σ));
  law_rinsert m σ l h it pre suf :
    lrep m σ -> chains σ !! l = Some (pre ++ suf) -> h ∈ spare σ -> rit_at it pre suf ->
    wp (list_rinsert l h it) m
      (fun _ m' => lrep m' (rechain l (pre ++ h :: suf) (occupy h σ) σ));

  law_erase m σ l x it pre suf :
    lrep m σ -> chains σ !! l = Some (pre ++ x :: suf) -> it_at it pre (x :: suf) ->
    wp (list_erase l it) m
      (fun _ m' => lrep m' (rechain l (pre ++ suf) (release x σ) σ));
  law_pop_front m σ l x xs : lrep m σ -> chains σ !! l = Some (x :: xs) ->
    wp (list_pop_front l) m (fun _ m' => lrep m' (rechain l xs (release x σ) σ));
  law_pop_back m σ l x xs : lrep m σ -> chains σ !! l = Some (xs ++ [x]) ->
    wp (list_pop_back l) m (fun _ m' => lrep m' (rechain l xs (release x σ) σ));
  law_clear m σ l xs : lrep m σ -> chains σ !! l = Some xs ->
    wp (list_clear l) m
      (fun _ m' => lrep m' (rechain l [] (spare σ ∪ list_to_set xs) σ));
  law_move m σ src dst xs ys : lrep m σ -> src <> dst ->
    chains σ !! src = Some xs -> chains σ !! dst = Some ys ->
    wp (list_move src dst) m (fun _ m' =>
      lrep m' (LSpec (<[src := []]> (<[dst := xs]> (chains σ)))
                     (spare σ ∪ list_to_set ys)));
  law_swap m σ l r xs ys : lrep m σ -> l <> r ->
    chains σ !! l = Some xs -> chains σ !! r = Some ys ->
    wp (list_swap l r) m (fun _ m' =>
      lrep m' (LSpec (<[r := xs]> (<[l := ys]> (chains σ))) (spare σ)));

  law_begin m σ l xs : lrep m σ -> chains σ !! l = Some xs ->
    wp (list_begin l) m (fun it m' => it_at it [] xs /\ m' = m);
  law_end m σ l xs : lrep m σ -> chains σ !! l = Some xs ->
    wp (list_end l) m (fun it m' => it_at it xs [] /\ m' = m);
  law_it_next m σ l it pre x suf :
    lrep m σ -> chains σ !! l = Some (pre ++ x :: suf) -> it_at it pre (x :: suf) ->
    wp (list_it_next it) m (fun it' m' => it_at it' (pre ++ [x]) suf /\ m' = m);
  law_it_equal m σ l xs it1 pre1 suf1 it2 pre2 suf2 :
    lrep m σ -> chains σ !! l = Some xs ->
    it_at it1 pre1 suf1 -> xs = pre1 ++ suf1 ->
    it_at it2 pre2 suf2 -> xs = pre2 ++ suf2 ->
    wp (list_it_equal it1 it2) m (fun r m' => r = bool_decide (suf1 = suf2) /\ m' = m);
  law_it_from_value m σ l x pre suf :
    lrep m σ -> chains σ !! l = Some (pre ++ x :: suf) ->
    wp (list_it_from_value l x) m (fun it m' => it_at it pre (x :: suf) /\ m' = m);

  law_rbegin m σ l xs : lrep m σ -> chains σ !! l = Some xs ->
    wp (list_rbegin l) m (fun it m' => rit_at it xs [] /\ m' = m);
  law_rend m σ l xs : lrep m σ -> chains σ !! l = Some xs ->
    wp (list_rend l) m (fun it m' => rit_at it [] xs /\ m' = m);
  law_rit_next m σ l it pre x suf :
    lrep m σ -> chains σ !! l = Some (pre ++ x :: suf) -> rit_at it (pre ++ [x]) suf ->
    wp (list_rit_next it) m (fun it' m' => rit_at it' pre (x :: suf) /\ m' = m);
  law_rit_equal m σ l xs it1 pre1 suf1 it2 pre2 suf2 :
    lrep m σ -> chains σ !! l = Some xs ->
    rit_at it1 pre1 suf1 -> xs = pre1 ++ suf1 ->
    rit_at it2 pre2 suf2 -> xs = pre2 ++ suf2 ->
    wp (list_rit_equal it1 it2) m (fun r m' => r = bool_decide (pre1 = pre2) /\ m' = m);
  law_rit_from_value m σ l x pre suf :
    lrep m σ -> chains σ !! l = Some (pre ++ x :: suf) ->
    wp (list_rit_from_value l x) m (fun it m' => rit_at it (pre ++ [x]) suf /\ m' = m)
}.

(** Iterators that stay valid when elements before them are erased.  Only the
    default layout has them: an iterator of the other layout also holds the
    element before it. *)
Class IterStable (Mem It : Type) `{!ListOps Mem It, !ListLaws Mem It} :=
  it_stable it pre pre' suf : it_at it pre suf -> it_at it pre' suf.
