(* ===== verification/ListSeg.v ===== *)
(** * Linked segments

    The shape shared by the two memory layouts of the intrusive lists: a hook
    with predecessor [p] and successor [q] is stored as [enc p q].  [seg] is a
    chain of such hooks and [seg_rep] a memory that holds the lists of an
    abstract state. *)

From S2P Require Import Prelude ListSpec.

(** ** Firsts and lasts *)

Lemma head_or_cons p x xs : head_or p (x :: xs) = x.
Proof. done. Qed.
Lemma last_or_snoc p xs x : last_or p (xs ++ [x]) = x.
Proof. unfold last_or. by rewrite last_snoc. Qed.
Lemma last_or_cons p x xs : last_or p (x :: xs) = last_or x xs.
Proof. unfold last_or. rewrite last_cons. by destruct (last xs). Qed.
Lemma last_or_app p xs ys : last_or p (xs ++ ys) = last_or (last_or p xs) ys.
Proof.
  unfold last_or. rewrite last_app. by destruct (last ys); destruct (last xs).
Qed.
Lemma head_or_app p xs ys : head_or p (xs ++ ys) = head_or (head_or p ys) xs.
Proof. by destruct xs. Qed.

Lemma last_or_elem p xs : xs <> [] -> last_or p xs ∈ xs.
Proof.
  destruct xs as [|x xs] using rev_ind; [done|]. intros _. rewrite last_or_snoc.
  set_solver.
Qed.
Lemma head_or_elem p xs : xs <> [] -> head_or p xs ∈ xs.
Proof. destruct xs; [done|]. intros _. rewrite head_or_cons. set_solver. Qed.

Lemma head_or_snoc p xs x : head_or p (xs ++ [x]) = head_or x xs.
Proof. by rewrite head_or_app. Qed.

Create HintDb dlist.
Create Rewrite HintDb dlist.
Lemma head_or_nil p : head_or p [] = p.
Proof. done. Qed.
Lemma last_or_nil p : last_or p [] = p.
Proof. done. Qed.

#[export] Hint Rewrite head_or_cons last_or_snoc head_or_snoc last_or_cons
  head_or_app last_or_app head_or_nil last_or_nil @app_nil_r : dlist.

(** One access to an object that the memory of the goal is known to hold. *)
Ltac list_acc :=
  lazymatch goal with
  | |- wp (store _ _ _) _ _ => eapply wp_store; [congruence|]
  | _ => wp_heap; [congruence|cbn [hget lists_of hooks_of lists hooks]; by simplify_map_eq|]
  end;
  cbn [hget hset lists_of hooks_of lists hooks].
Ltac list_step := wp_step list_acc; cbn beta.
Ltac list_steps := repeat list_step.

(** ** Segments of a heap *)
Section seg.
Context {H : Type} (enc : Z -> Z -> H).
Implicit Types h : gmap Z H.

Fixpoint seg h (p : Z) (xs : list Z) (q : Z) : Prop :=
  match xs with
  | [] => True
  | x :: xs' => h !! x = Some (enc p (head_or q xs')) /\ seg h x xs' q
  end.

Lemma seg_app h p xs ys q :
  seg h p (xs ++ ys) q <-> seg h p xs (head_or q ys) /\ seg h (last_or p xs) ys q.
Proof.
  revert p. induction xs as [|x xs IH]; intros p; cbn; [tauto|].
  rewrite IH, head_or_app, last_or_cons. tauto.
Qed.

Lemma seg_frame h h' p xs q :
  (forall x, x ∈ xs -> h' !! x = h !! x) -> seg h p xs q -> seg h' p xs q.
Proof.
  revert p. induction xs as [|x xs IH]; intros p Heq; cbn; [done|].
  intros [Hx Hs]. split; [rewrite Heq; [done|set_solver]|].
  apply IH; [|done]. intros y Hy. apply Heq. set_solver.
Qed.

Lemma seg_insert_ne h p xs q a v :
  a ∉ xs -> seg h p xs q -> seg (<[a := v]> h) p xs q.
Proof.
  intros Ha. apply seg_frame. intros x Hx. apply lookup_insert_ne. by intros ->.
Qed.

Lemma seg_lookup h p pre x suf q :
  seg h p (pre ++ x :: suf) q -> h !! x = Some (enc (last_or p pre) (head_or q suf)).
Proof. rewrite seg_app. cbn. tauto. Qed.

Lemma seg_is_Some h p xs q x : seg h p xs q -> x ∈ xs -> is_Some (h !! x).
Proof.
  intros Hs [pre [suf ->]]%list_elem_of_split. apply seg_lookup in Hs. by eexists.
Qed.

(** Relinking the first and the last hook of a segment. *)
Lemma seg_set_first h p p' x xs q :
  x ∉ xs -> seg h p (x :: xs) q ->
  seg (<[x := enc p' (head_or q xs)]> h) p' (x :: xs) q.
Proof.
  intros Hx [Hl Hs]. split; [by rewrite lookup_insert_eq|]. by apply seg_insert_ne.
Qed.

Lemma seg_set_last h p xs x q q' :
  x ∉ xs -> seg h p (xs ++ [x]) q ->
  seg (<[x := enc (last_or p xs) q']> h) p (xs ++ [x]) q'.
Proof.
  intros Hx [Hs Hl]%seg_app. apply seg_app; split.
  - by apply seg_insert_ne.
  - cbn. by rewrite lookup_insert_eq.
Qed.
End seg.

(** ** Memories that hold the lists of an abstract state *)

Definition list_obj (xs : list Z) : dfk_list_t :=
  DfkList (head_or 0 xs) (last_or 0 xs) (Z.of_nat (length xs)).

Section rep.
Context {H : Type} (enc : Z -> Z -> H).
Implicit Types (m : lmem H) (σ : lspec).

Record seg_rep m σ : Prop := SegRep {
  sr_wf : spec_wf σ;
  sr_list : forall l xs, chains σ !! l = Some xs -> lists m !! l = Some (list_obj xs);
  sr_seg : forall l xs, chains σ !! l = Some xs -> seg enc (hooks m) 0 xs 0;
  sr_spare : forall x, x ∈ spare σ -> is_Some (hooks m !! x)
}.

Lemma chain_length m σ l xs : seg_rep m σ -> chains σ !! l = Some xs ->
  Z.of_nat (length xs) < SIZE_MOD.
Proof.
  intros [Hwf _ _ _] Hl. apply nodup_valid_length.
  - by eapply wf_nodup.
  - intros x. by eapply wf_chain_valid.
Qed.

(** Hooks are distinct keys of the heap, which bounds the traversals. *)
Lemma chain_fuel m σ l xs : seg_rep m σ -> chains σ !! l = Some xs ->
  (length xs <= size (hooks m))%nat.
Proof.
  intros [Hwf _ Hseg _] Hl.
  rewrite <- (size_list_to_set (C := gset Z) xs) by by eapply wf_nodup.
  rewrite <- (size_dom (D := gset Z)). apply subseteq_size. intros x.
  rewrite elem_of_list_to_set, elem_of_dom. eapply seg_is_Some. by eapply Hseg.
Qed.

(** *** Rechaining one list *)

Lemma rechain_wf σ l xs ys F :
  spec_wf σ -> l <> 0 -> default [] (chains σ !! l) = xs -> NoDup ys ->
  (forall x, x ∈ ys -> x ∈ xs \/ x ∈ spare σ) ->
  (forall x, x ∈ F -> (x ∈ xs \/ x ∈ spare σ) /\ x ∉ ys) ->
  spec_wf (rechain l ys F σ).
Proof.
  intros [Ha Hnd Hdj Hsp Hcv Hsv] Hl0 Hxs Hys Hin HF.
  assert (forall l' zs x, l' <> l -> chains σ !! l' = Some zs ->
            x ∈ xs \/ x ∈ spare σ -> x ∉ zs) as Hoth.
  { intros l' zs x Hne Hl' [Hx|Hx] Hz.
    - destruct (chains σ !! l) as [xs'|] eqn:Hl; cbn in Hxs; subst xs.
      + by apply Hne, (Hdj l' l zs xs' x).
      + set_solver.
    - by apply (Hsp l' zs x). }
  assert (forall x, x ∈ xs \/ x ∈ spare σ -> valid_addr x) as Hval.
  { intros x [Hx|Hx]; [|by apply Hsv].
    destruct (chains σ !! l) as [xs'|] eqn:Hl; cbn in Hxs; subst xs; [|set_solver].
    by eapply Hcv. }
  split; cbn.
  - intros l' zs. rewrite lookup_insert. case_decide; [by subst|apply Ha].
  - intros l' zs. rewrite lookup_insert. case_decide; [by intros [= <-]|apply Hnd].
  - intros l1 l2 xs1 xs2 x. rewrite !lookup_insert. repeat case_decide; subst.
    + done.
    + intros [= <-] H2 Hx1 Hx2. exfalso. by eapply (Hoth l2 xs2 x); auto.
    + intros H1 [= <-] Hx1 Hx2. exfalso. by eapply (Hoth l1 xs1 x); auto.
    + by apply Hdj.
  - intros l' zs x. rewrite lookup_insert. case_decide; subst.
    + intros [= <-] Hx. by destruct (HF x Hx).
    + intros Hl' Hx. destruct (HF x Hx). by apply (Hoth l').
  - intros l' zs x. rewrite lookup_insert. case_decide; subst.
    + intros [= <-] Hx. auto.
    + by apply Hcv.
  - intros x Hx. destruct (HF x Hx). by apply Hval.
Qed.

Lemma seg_rep_rechain m m' σ l xs ys F :
  seg_rep m σ -> l <> 0 -> default [] (chains σ !! l) = xs -> NoDup ys ->
  (forall x, x ∈ ys -> x ∈ xs \/ x ∈ spare σ) ->
  (forall x, x ∈ F -> (x ∈ xs \/ x ∈ spare σ) /\ x ∉ ys) ->
  lists m' = <[l := list_obj ys]> (lists m) ->
  seg enc (hooks m') 0 ys 0 ->
  (forall x, x ∉ xs -> x ∉ spare σ -> hooks m' !! x = hooks m !! x) ->
  (forall x, is_Some (hooks m !! x) -> is_Some (hooks m' !! x)) ->
  seg_rep m' (rechain l ys F σ).
Proof.
  intros Hrep Hl0 Hxs Hys Hin HF Hls Hseg Hfr Hdom.
  pose proof Hrep as [Hwf Hl Hs Hsp].
  split.
  - by eapply rechain_wf.
  - cbn. intros l' zs. rewrite Hls, !lookup_insert. case_decide; [by intros [= <-]|auto].
  - cbn. intros l' zs. rewrite lookup_insert. case_decide as Hne; [by intros [= <-]|].
    intros Hl'. apply (seg_frame enc (hooks m)); [|by apply (Hs l')].
    intros x Hx. apply Hfr.
    + destruct (chains σ !! l) as [xs'|] eqn:E; cbn in Hxs; subst xs; [|set_solver].
      intros Hx'. by apply Hne, (wf_disjoint _ Hwf l l' xs' zs x).
    + intros Hx'. by eapply (wf_spare _ Hwf l' zs x).
  - cbn. intros x Hx. destruct (HF x Hx) as [[Hx'|Hx'] _]; apply Hdom; [|by apply Hsp].
    destruct (chains σ !! l) as [xs'|] eqn:E; cbn in Hxs; subst xs; [|set_solver].
    eapply seg_is_Some; [by eapply Hs|done].
Qed.

(** *** Linking a hook in and out

    What a layout has to establish about the hooks it rewrote: the new hook,
    its two neighbours, and nothing else. *)

Record linked_in (h h' : gmap Z H) (pre : list Z) (x : Z) (suf : list Z) : Prop := {
  li_new : h' !! x = Some (enc (last_or 0 pre) (head_or 0 suf));
  li_left : forall pre' a, pre = pre' ++ [a] ->
    h' !! a = Some (enc (last_or 0 pre') x);
  li_right : forall b suf', suf = b :: suf' ->
    h' !! b = Some (enc x (head_or 0 suf'));
  li_frame : forall y, y <> x -> last pre <> Some y -> head suf <> Some y ->
    h' !! y = h !! y
}.

Record linked_out (h h' : gmap Z H) (pre suf : list Z) : Prop := {
  lo_left : forall pre' a, pre = pre' ++ [a] ->
    h' !! a = Some (enc (last_or 0 pre') (head_or 0 suf));
  lo_right : forall b suf', suf = b :: suf' ->
    h' !! b = Some (enc (last_or 0 pre) (head_or 0 suf'));
  lo_frame : forall y, last pre <> Some y -> head suf <> Some y -> h' !! y = h !! y
}.

Lemma head_Some_elem (suf : list Z) y : head suf = Some y -> y ∈ suf.
Proof. destruct suf; [done|]. intros [= ->]. set_solver. Qed.
Lemma last_Some_elem (pre : list Z) y : last pre = Some y -> y ∈ pre.
Proof. intros [pre' ->]%last_Some. set_solver. Qed.

(** The two halves of a chain after their inner ends were rewritten. *)
Lemma seg_left h h' pre q q' :
  NoDup pre -> seg enc h 0 pre q ->
  (forall pre' a, pre = pre' ++ [a] -> h' !! a = Some (enc (last_or 0 pre') q')) ->
  (forall y, y ∈ pre -> last pre <> Some y -> h' !! y = h !! y) ->
  seg enc h' 0 pre q'.
Proof.
  intros Hnd Hs Hl Hfr. destruct pre as [|a pre _] using rev_ind; [done|].
  apply seg_app in Hs as [Hs _]. apply seg_app. split.
  - eapply seg_frame; [|exact Hs]. intros y Hy. apply Hfr; [set_solver|].
    rewrite last_snoc. intros [= ->]. apply NoDup_app in Hnd as (_ & Hd & _).
    apply (Hd y); set_solver.
  - split; [|done]. by apply Hl.
Qed.

Lemma seg_right h h' p p' suf :
  NoDup suf -> seg enc h p suf 0 ->
  (forall b suf', suf = b :: suf' -> h' !! b = Some (enc p' (head_or 0 suf'))) ->
  (forall y, y ∈ suf -> head suf <> Some y -> h' !! y = h !! y) ->
  seg enc h' p' suf 0.
Proof.
  intros Hnd Hs Hr Hfr. destruct suf as [|b suf]; [done|].
  destruct Hs as [_ Hs]. split; [by apply Hr|].
  eapply seg_frame; [|exact Hs]. intros y Hy. apply Hfr; [set_solver|].
  cbn. intros [= ->]. by apply NoDup_cons in Hnd as [? _].
Qed.

Lemma linked_in_seg h h' pre x suf :
  NoDup (pre ++ x :: suf) -> seg enc h 0 (pre ++ suf) 0 ->
  linked_in h h' pre x suf -> seg enc h' 0 (pre ++ x :: suf) 0.
Proof.
  intros (Hpre & Hd & [Hx Hsuf]%NoDup_cons)%NoDup_app [Hs1 Hs2]%seg_app [Hn Hl Hr Hf].
  apply seg_app. split; [|split; [done|]].
  - eapply seg_left; [done|exact Hs1|exact Hl|]. intros y Hy Hlast. apply Hf; [|done|].
    + intros ->. apply (Hd x); set_solver.
    + intros Hh%head_Some_elem. apply (Hd y); set_solver.
  - eapply seg_right; [done|exact Hs2|exact Hr|]. intros y Hy Hhd. apply Hf; [|..|done].
    + by intros ->.
    + intros Hlst%last_Some_elem. apply (Hd y); set_solver.
Qed.

Lemma linked_out_seg h h' pre x suf :
  NoDup (pre ++ x :: suf) -> seg enc h 0 (pre ++ x :: suf) 0 ->
  linked_out h h' pre suf -> seg enc h' 0 (pre ++ suf) 0.
Proof.
  intros (Hpre & Hd & [Hx Hsuf]%NoDup_cons)%NoDup_app [Hs1 [_ Hs2]]%seg_app [Hl Hr Hf].
  apply seg_app. split.
  - eapply seg_left; [done|exact Hs1|exact Hl|]. intros y Hy Hlast. apply Hf; [done|].
    intros Hh%head_Some_elem. apply (Hd y); set_solver.
  - eapply seg_right; [done|exact Hs2|exact Hr|]. intros y Hy Hhd. apply Hf; [|done].
    intros Hlst%last_Some_elem. apply (Hd y); set_solver.
Qed.

Lemma spare_fresh m σ l xs x : seg_rep m σ -> chains σ !! l = Some xs ->
  x ∈ spare σ -> x <> 0 /\ (x ∉ xs) /\ is_Some (hooks m !! x).
Proof.
  intros [Hwf _ _ Hsp] Hl Hx. split_and!.
  - pose proof (wf_spare_valid _ Hwf _ Hx) as Hv. unfold valid_addr in Hv. lia.
  - by eapply wf_spare.
  - by apply Hsp.
Qed.

(** [linked_in] and [linked_out] rewrite only hooks of the list. *)
Lemma linked_in_dom h h' pre x suf y :
  linked_in h h' pre x suf -> is_Some (h !! y) -> is_Some (h' !! y).
Proof.
  intros [Hn Hl Hr Hf] Hy.
  destruct (decide (y = x)) as [->|]; [by eexists|].
  destruct (decide (last pre = Some y)) as [[pre' ->]%last_Some|];
    [by erewrite Hl by done; eexists|].
  destruct (decide (head suf = Some y)) as [Hh|]; [|by rewrite Hf].
  destruct suf as [|b suf]; [done|]. injection Hh as ->.
  by erewrite Hr by done; eexists.
Qed.

Lemma linked_out_dom h h' pre suf y :
  linked_out h h' pre suf -> is_Some (h !! y) -> is_Some (h' !! y).
Proof.
  intros [Hl Hr Hf] Hy.
  destruct (decide (last pre = Some y)) as [[pre' ->]%last_Some|];
    [by erewrite Hl by done; eexists|].
  destruct (decide (head suf = Some y)) as [Hh|]; [|by rewrite Hf].
  destruct suf as [|b suf]; [done|]. injection Hh as ->.
  by erewrite Hr by done; eexists.
Qed.

Lemma rep_linked_in m m' σ l pre x suf :
  seg_rep m σ -> chains σ !! l = Some (pre ++ suf) -> x ∈ spare σ ->
  lists m' = <[l := list_obj (pre ++ x :: suf)]> (lists m) ->
  linked_in (hooks m) (hooks m') pre x suf ->
  seg_rep m' (rechain l (pre ++ x :: suf) (occupy x σ) σ).
Proof.
  intros Hrep Hl Hx Hls Hin.
  destruct (spare_fresh _ _ _ _ _ Hrep Hl Hx) as (Hx0 & Hnx & _).
  pose proof (sr_wf _ _ Hrep) as Hwf.
  assert (NoDup (pre ++ x :: suf)) as Hnd.
  { rewrite <- Permutation_middle. apply NoDup_cons. split; [done|]. by eapply wf_nodup. }
  eapply (seg_rep_rechain m m' σ l (pre ++ suf)); try done.
  - by eapply wf_list_addr.
  - by rewrite Hl.
  - intros y. rewrite !elem_of_app, elem_of_cons. intros [?|[->|?]]; tauto.
  - intros y Hy. unfold occupy in Hy. apply elem_of_difference in Hy as [Hy Hne]. split; [by right|].
    rewrite elem_of_app, elem_of_cons.
    pose proof (wf_spare _ Hwf _ _ _ Hl Hy). set_solver.
  - eapply linked_in_seg; [done|by eapply sr_seg|done].
  - intros y Hy Hys. apply (li_frame _ _ _ _ _ Hin).
    + by intros ->.
    + intros ?%last_Some_elem. set_solver.
    + intros ?%head_Some_elem. set_solver.
  - intros y. by eapply linked_in_dom.
Qed.

Lemma rep_linked_out m m' σ l pre x suf :
  seg_rep m σ -> chains σ !! l = Some (pre ++ x :: suf) ->
  lists m' = <[l := list_obj (pre ++ suf)]> (lists m) ->
  linked_out (hooks m) (hooks m') pre suf ->
  seg_rep m' (rechain l (pre ++ suf) (release x σ) σ).
Proof.
  intros Hrep Hl Hls Hout. pose proof (sr_wf _ _ Hrep) as Hwf.
  pose proof (wf_nodup _ Hwf _ _ Hl) as Hnd.
  assert (NoDup (pre ++ suf) /\ x ∉ pre ++ suf) as [Hnd' Hnx].
  { rewrite <- Permutation_middle in Hnd. by apply NoDup_cons in Hnd as [? ?]. }
  eapply (seg_rep_rechain m m' σ l (pre ++ x :: suf)); try done.
  - by eapply wf_list_addr.
  - by rewrite Hl.
  - set_solver.
  - intros y Hy. unfold release in Hy. apply elem_of_union in Hy as [Hy|Hy%elem_of_singleton]; [|subst y].
    + split; [by right|]. pose proof (wf_spare _ Hwf _ _ _ Hl Hy). set_solver.
    + split; [left; set_solver|done].
  - by eapply linked_out_seg; [|eapply sr_seg|].
  - intros y Hy Hys. apply (lo_frame _ _ _ _ Hout).
    + intros ?%last_Some_elem. set_solver.
    + intros ?%head_Some_elem. set_solver.
  - intros y. by eapply linked_out_dom.
Qed.

(** *** Exchanging the contents of two lists *)

Definition exchange (l r x : Z) : Z :=
  if decide (x = l) then r else if decide (x = r) then l else x.

Lemma exchange_inj l r x y : exchange l r x = exchange l r y -> x = y.
Proof. unfold exchange. repeat case_decide; congruence. Qed.

(** Every list of [σ'] is empty or is a list of [σ] under another address,
    and the hooks are untouched. *)
Lemma seg_rep_exchange m m' σ σ' a b :
  seg_rep m σ -> hooks m' = hooks m ->
  (forall l ys, chains σ' !! l = Some ys -> l <> 0 /\
     lists m' !! l = Some (list_obj ys) /\
     (ys = [] \/ chains σ !! exchange a b l = Some ys)) ->
  (forall x, x ∈ spare σ' -> unchained σ' x /\
     (x ∈ spare σ \/ exists l xs, chains σ !! l = Some xs /\ x ∈ xs)) ->
  seg_rep m' σ'.
Proof.
  intros [[Ha Hnd Hdj Hsp Hcv Hsv] Hls Hsg Hspr] Hh Hch Hfree. split; [split|..].
  - intros l xs Hl. by apply (Hch l xs).
  - intros l xs (_ & _ & [->|Hl])%Hch; [apply NoDup_nil_2|by eapply Hnd].
  - intros l1 l2 xs1 xs2 x (_ & _ & [->|H1])%Hch (_ & _ & [->|H2])%Hch Hx1 Hx2;
      [set_solver..|]. by eapply exchange_inj, Hdj.
  - intros l xs x Hl Hx. destruct (Hfree x Hx) as [Hun _]. by eapply Hun.
  - intros l xs x (_ & _ & [->|H1])%Hch Hx; [set_solver|by eapply Hcv].
  - intros x Hx. destruct (Hfree x Hx) as [_ [?|(l & xs & ? & ?)]]; [auto|by eapply Hcv].
  - intros l xs Hl. by apply (Hch l xs).
  - intros l xs (_ & _ & [->|H1])%Hch; [done|]. rewrite Hh. by eapply Hsg.
  - intros x Hx. rewrite Hh. destruct (Hfree x Hx) as [_ [?|(l & xs & Hl & ?)]]; [auto|].
    eapply seg_is_Some; [by eapply Hsg|done].
Qed.

(** *** Hooks that are in no list *)

Lemma seg_rep_spare m m' σ F :
  seg_rep m σ -> lists m' = lists m ->
  (forall x l xs, chains σ !! l = Some xs -> x ∈ xs -> hooks m' !! x = hooks m !! x) ->
  (forall x, x ∈ F -> valid_addr x /\ unchained σ x /\ is_Some (hooks m' !! x)) ->
  seg_rep m' (LSpec (chains σ) F).
Proof.
  intros [[Ha Hnd Hdj Hsp Hcv Hsv] Hls Hsg Hspr] Hl Hh HF. split; [split|..]; cbn; try done.
  - intros l xs x Hl' Hx. destruct (HF x Hx) as (_ & Hun & _). by eapply Hun.
  - intros x Hx. by destruct (HF x Hx).
  - by rewrite Hl.
  - intros l xs Hl'. eapply seg_frame; [|by eapply Hsg]. intros x Hx. by eapply Hh.
  - intros x Hx. by destruct (HF x Hx) as (_ & _ & ?).
Qed.

(** The size a chain has after one more hook was linked in. *)
Lemma grown_obj m σ l pre suf x : seg_rep m σ -> chains σ !! l = Some (pre ++ suf) ->
  x ∈ spare σ ->
  list_obj (pre ++ x :: suf) = DfkList (head_or x pre) (last_or x suf)
    (to_size (Z.of_nat (length (pre ++ suf)) + 1)).
Proof.
  intros Hrep Hl Hx. pose proof (sr_wf _ _ Hrep) as Hwf.
  assert (Z.of_nat (length (x :: pre ++ suf)) < SIZE_MOD) as Hlt.
  { apply nodup_valid_length.
    - apply NoDup_cons. split; [by eapply wf_spare|by eapply wf_nodup].
    - intros y [->|Hy]%elem_of_cons; [by apply (wf_spare_valid _ Hwf)|by apply (wf_chain_valid _ Hwf l (pre ++ suf))]. }
  unfold list_obj. f_equal.
  - by rewrite head_or_app.
  - by rewrite last_or_app, last_or_cons.
  - rewrite !length_app in *. cbn in *. rewrite length_app in Hlt. rewrite to_size_small; lia.
Qed.

Lemma shrunk_obj m σ l pre suf x : seg_rep m σ -> chains σ !! l = Some (pre ++ x :: suf) ->
  list_obj (pre ++ suf) = DfkList (head_or 0 (pre ++ suf)) (last_or 0 (pre ++ suf))
    (to_size (Z.of_nat (length (pre ++ x :: suf)) - 1)).
Proof.
  intros Hrep Hl. pose proof (chain_length _ _ _ _ Hrep Hl) as Hlt.
  unfold list_obj. f_equal. rewrite !length_app in *. cbn in *. rewrite to_size_small; lia.
Qed.
End rep.

(** ** Reading the lists of a memory *)
Section facts.
Context {H : Type} {enc : Z -> Z -> H}.
Context (m : lmem H) (σ : lspec) (Hrep : seg_rep enc m σ).
Context (l : Z) (xs : list Z) (Hl : chains σ !! l = Some xs).

Lemma list_ne : l <> 0.
Proof using Hrep Hl. by eapply wf_list_addr; [eapply sr_wf|]. Qed.

Lemma hook_ne x : x ∈ xs -> x <> 0.
Proof using Hrep Hl.
  intros Hx. pose proof (wf_chain_valid _ (sr_wf _ _ _ Hrep) _ _ _ Hl Hx) as Hv.
  unfold valid_addr in Hv. lia.
Qed.

Lemma seg_hook_at pre x suf : xs = pre ++ x :: suf ->
  x <> 0 /\ hooks m !! x = Some (enc (last_or 0 pre) (head_or 0 suf)).
Proof using Hrep Hl.
  intros Heq. split; [apply hook_ne; rewrite Heq; set_solver|].
  eapply (seg_lookup enc). rewrite <- Heq. by eapply sr_seg.
Qed.

Lemma chain_nodup : NoDup xs.
Proof using Hrep Hl. by eapply wf_nodup; [eapply sr_wf|]. Qed.

Lemma list_at : lists m !! l = Some (list_obj xs).
Proof using Hrep Hl. by eapply sr_list. Qed.

Lemma chain_size : (length xs <= base.size (hooks m))%nat /\ Z.of_nat (length xs) < SIZE_MOD.
Proof using Hrep Hl. split; [by eapply chain_fuel|by eapply chain_length]. Qed.

Lemma head_ne : xs <> [] -> head_or 0 xs <> 0.
Proof using Hrep Hl. intros Hxs. by apply hook_ne, head_or_elem. Qed.
Lemma last_ne : xs <> [] -> last_or 0 xs <> 0.
Proof using Hrep Hl. intros Hxs. by apply hook_ne, last_or_elem. Qed.

Lemma isnull_head : isnull (head_or 0 xs) = bool_decide (xs = []).
Proof using Hrep Hl.
  destruct (decide (xs = [])) as [->|Hne]; [done|].
  rewrite bool_decide_false by done. by apply isnull_false, head_ne.
Qed.

Lemma head_or_eqb suf1 suf2 pre1 pre2 : xs = pre1 ++ suf1 -> xs = pre2 ++ suf2 ->
  (head_or 0 suf1 =? head_or 0 suf2) = bool_decide (suf1 = suf2).
Proof using Hrep Hl.
  intros H1 H2. case_bool_decide as Hd; [by rewrite Hd, Z.eqb_refl|].
  apply Z.eqb_neq. intros Heq. apply Hd.
  pose proof (chain_nodup) as Hnd.
  destruct suf1 as [|x suf1], suf2 as [|y suf2]; [done|..].
  - exfalso. eapply (hook_ne y); [rewrite H2; set_solver|by rewrite head_or_cons in Heq].
  - exfalso. eapply (hook_ne x); [rewrite H1; set_solver|by rewrite head_or_cons in Heq].
  - rewrite !head_or_cons in Heq. subst y. rewrite H1 in H2, Hnd.
    pose proof (NoDup_mid_inj pre1 pre2 x suf1 suf2 Hnd H2) as [_ ->]. done.
Qed.
Lemma last_or_eqb suf1 suf2 pre1 pre2 : xs = pre1 ++ suf1 -> xs = pre2 ++ suf2 ->
  (last_or 0 pre1 =? last_or 0 pre2) = bool_decide (pre1 = pre2).
Proof using Hrep Hl.
  intros H1 H2. case_bool_decide as Hd; [by rewrite Hd, Z.eqb_refl|].
  apply Z.eqb_neq. intros Heq. apply Hd.
  pose proof (chain_nodup) as Hnd.
  destruct pre1 as [|x pre1 _] using rev_ind; destruct pre2 as [|y pre2 _] using rev_ind;
    [done|..].
  - exfalso. eapply (hook_ne y);
      [rewrite H2; set_solver|by rewrite last_or_snoc in Heq].
  - exfalso. eapply (hook_ne x);
      [rewrite H1; set_solver|by rewrite last_or_snoc in Heq].
  - rewrite !last_or_snoc in Heq. subst y. rewrite H1, <- !app_assoc in H2.
    rewrite H1, <- app_assoc in Hnd.
    pose proof (NoDup_mid_inj pre1 pre2 x suf1 suf2 Hnd H2) as [-> _]. done.
Qed.
(** The two hooks around an inner position. *)
Lemma seg_neighbours pre a b suf h :
  xs = (pre ++ [a]) ++ b :: suf -> h ∉ xs ->
  a <> 0 /\ b <> 0 /\
  hooks m !! a = Some (enc (last_or 0 pre) b) /\
  hooks m !! b = Some (enc a (head_or 0 suf)) /\
  h <> a /\ h <> b /\ a <> b.
Proof using Hrep Hl.
  intros Heq Hni.
  destruct (seg_hook_at (pre ++ [a]) b suf) as [Hb0 Hvb]; [done|].
  destruct (seg_hook_at pre a (b :: suf)) as [Ha0 Hva]; [by rewrite Heq, <- app_assoc|].
  pose proof chain_nodup as Hnd. rewrite Heq, <- app_assoc in Hnd.
  apply NoDup_app in Hnd as (_ & _ & [? _]%NoDup_cons). rewrite last_or_snoc in Hvb.
  split_and!; set_solver.
Qed.
End facts.

Lemma head_or_in xs pre suf : xs = pre ++ suf -> head_or 0 suf = 0 \/ head_or 0 suf ∈ xs.
Proof. intros ->. destruct suf; [by left|right]. rewrite head_or_cons. set_solver. Qed.
Lemma last_or_in xs pre suf : xs = pre ++ suf -> last_or 0 pre = 0 \/ last_or 0 pre ∈ xs.
Proof.
  intros ->. destruct pre as [|x pre _] using rev_ind; [by left|right].
  rewrite last_or_snoc. set_solver.
Qed.
(** The ends of a chain, by what surrounds one of its hooks. *)
Lemma list_obj_ends pre x suf :
  list_obj (pre ++ x :: suf) =
    DfkList (head_or x pre) (last_or x suf) (Z.of_nat (length (pre ++ x :: suf))).
Proof. unfold list_obj. by autorewrite with dlist. Qed.

Lemma last_or_ne x y suf : x ∉ suf -> suf <> [] -> x <> last_or y suf.
Proof. intros Hx Hs ->. by apply Hx, last_or_elem. Qed.
Lemma head_or_ne x y pre : x ∉ pre -> pre <> [] -> x <> head_or y pre.
Proof. intros Hx Hs ->. by apply Hx, head_or_elem. Qed.

(** The hooks an emptied list gives up, and the spare ones, are in no other. *)
Lemma freed_unchained {H} {enc : Z -> Z -> H} m σ (Hrep : seg_rep enc m σ) l ys l' zs x :
  chains σ !! l = Some ys -> chains σ !! l' = Some zs -> l' <> l ->
  x ∈ spare σ ∪ list_to_set ys -> x ∉ zs.
Proof.
  intros Hl Hl' Hne [Hx|Hx%elem_of_list_to_set]%elem_of_union Hz;
    pose proof (sr_wf _ _ _ Hrep) as Hwf.
  - by eapply wf_spare.
  - by eapply Hne, (wf_disjoint _ Hwf l' l).
Qed.

(** Proves [linked_in] and [linked_out] for a heap given by its updates. *)
Ltac linked_by fin :=
  split; cbn [lists hooks];
  repeat match goal with
  | |- forall _, _ => intros ?
  | H : _ ++ [_] = _ ++ [_] |- _ => apply app_inj_tail in H as [<- <-]
  | H : [] = ?p ++ [_] |- _ => by destruct p
  | H : _ :: _ = _ :: _ |- _ => injection H as <- <-
  | H : [] = _ :: _ |- _ => discriminate H
  | H : last (_ ++ [_]) <> _ |- _ => rewrite last_snoc in H
  | H : head (_ :: _) <> _ |- _ => cbn [head] in H
  end;
  autorewrite with dlist;
  first [by simplify_map_eq | by rewrite !lookup_insert_ne by congruence | fin].
Ltac linked := linked_by fail.

(** The facts every insertion starts from. *)
Ltac insert_facts Hrep Hl Hh :=
  destruct (spare_fresh _ _ _ _ _ _ Hrep Hl Hh) as (Hh0 & Hni & [vh Hvh]);
  pose proof (list_ne _ _ Hrep _ _ Hl) as Hl0;
  pose proof (list_at _ _ Hrep _ _ Hl) as Hobj.

(** The list object after the assignments of an operation. *)
Ltac obj_eq :=
  cbn [lists]; rewrite ?insert_insert_eq; unfold list_obj, set_size, set_head, set_tail;
  cbn [_head _tail _size app]; autorewrite with dlist; done.
