(* ===== verification/ListCheck.v ===== *)
(** * Traversal checks of [list.c]

    [dfk__list_check_invariants] walks a list in both directions with a second
    pointer that moves twice as fast, to detect loops, premature ends and a
    wrong size; [dfk__list_hook_check_invariants] walks from a hook to either
    end.  The four walks share one shape, stated here over a [step] function
    that computes the following hook from the preceding one and the contents
    of the current one.  The two-pointer layout ignores its first argument. *)

From S2P Require Import Prelude ListSpec ListSeg.

Section walk.
Context {H : Type} (step : Z -> H -> Z).
Abbreviation mem := (lmem H).

(** One hop of the fast pointer [j] (with its predecessor [pj]). *)
Definition fast_hop (jp : Z * Z) : M mem (Z * Z) :=
  let '(j, pj) := jp in
  if nonnull j then
    hj ← deref hooks_of j;
    mret (step pj hj, j)
  else mret (j, pj).

(** [for (size_t c = 0; c < 2; ++c) ..] *)
Definition fast_hops (jp : Z * Z) : M mem (Z * Z) :=
  j1 ← fast_hop jp; fast_hop j1.

(** [while (i != to) { .. }] with the hop counter of the size check; the
    result is the fast pointer and the number of hops. *)
Definition check_walk_body (to size : Z) (st : Z * Z * Z * (Z * Z)) :
    M mem ((Z * Z * Z * (Z * Z)) + (Z * Z)) :=
  let '(nhops, i, pi, j) := st in
  if i =? to then mret (inr (nhops, j.1)) else
  c_assert (nonnull i);;
  hi ← deref hooks_of i;
  let i' := step pi hi in
  j2 ← fast_hops j;
  c_assert (negb (i' =? j2.1));;
  let nhops' := to_size (nhops + 1) in
  c_assert (nhops' <? size);;
  mret (inl (nhops', i', i, j2)).

Definition check_walk (from to size : Z) : M mem unit :=
  fuel ← gets (fun m => S (base.size (hooks m)));
  r ← loop fuel (check_walk_body to size) (0, from, 0, (from, 0));
  let '(nhops, j) := r in
  c_assert (isnull j);;
  c_assert (to_size (nhops + 1) =? size).

(** [while (next(i)) { .. }]: the walk from a hook to the end. *)
Definition hook_walk_body (st : Z * (Z * Z)) : M mem ((Z * (Z * Z)) + unit) :=
  let '(i, j) := st in
  hi ← deref hooks_of i;
  let i' := step 0 hi in
  if isnull i' then mret (inr tt) else
  j2 ← fast_hops j;
  c_assert (negb (i' =? j2.1));;
  mret (inl (i', j2)).

Definition hook_walk (hook : Z) : M mem unit :=
  fuel ← gets (fun m => S (base.size (hooks m)));
  loop fuel hook_walk_body (hook, (hook, 0)).

(** The walks only read. *)
Lemma readonly_fast_hop jp : readonly (fast_hop jp).
Proof. destruct jp as [j pj]. cbn. auto with readonly. Qed.
Lemma readonly_fast_hops jp : readonly (fast_hops jp).
Proof. apply readonly_bind; auto using readonly_fast_hop. Qed.
Lemma readonly_check_walk from to size : readonly (check_walk from to size).
Proof.
  apply readonly_bind; [auto with readonly|]. intros fuel.
  apply readonly_bind; [|intros [? ?]; auto with readonly].
  apply readonly_loop. intros [[[? ?] ?] ?]. unfold check_walk_body.
  eauto 10 using readonly_fast_hops with readonly.
Qed.

(** ** The walks succeed on well linked hooks *)

Definition at_or (ys : list Z) (k : nat) : Z := default 0 (ys !! k).
Definition before (ys : list Z) (k : nat) : Z :=
  match k with O => 0 | S k' => at_or ys k' end.

(** [step] leads from each hook of [ys] to the following one. *)
Definition links (h : gmap Z H) (ys : list Z) : Prop :=
  forall k x, ys !! k = Some x ->
    x <> 0 /\ exists v, h !! x = Some v /\ step (before ys k) v = at_or ys (S k).

Lemma links_split h ys :
  (forall pre x suf, ys = pre ++ x :: suf ->
     x <> 0 /\ exists v, h !! x = Some v /\ step (last_or 0 pre) v = head_or 0 suf) ->
  links h ys.
Proof.
  intros Hsp k x Hk. pose proof (take_drop_middle _ _ _ Hk) as Heq.
  destruct (Hsp _ _ _ (eq_sym Heq)) as (Hx & v & Hv & Hs). split; [done|].
  exists v. split; [done|].
  assert (before ys k = last_or 0 (take k ys)) as ->.
  { apply lookup_lt_Some in Hk. destruct k as [|k]; [done|]. cbn. unfold at_or, last_or.
    rewrite last_lookup, length_take, Nat.min_l by lia. cbn.
    by rewrite lookup_take_lt by lia. }
  rewrite Hs. unfold at_or, head_or. by rewrite head_lookup, lookup_drop, Nat.add_0_r.
Qed.

Lemma at_or_lt ys k : (k < length ys)%nat -> ys !! k = Some (at_or ys k).
Proof. intros [x Hx]%lookup_lt_is_Some. unfold at_or. by rewrite Hx. Qed.

Lemma at_or_ge ys k : (length ys <= k)%nat -> at_or ys k = 0.
Proof. intros Hk. unfold at_or. by rewrite lookup_ge_None_2. Qed.

Section walks_succeed.
Context (m : mem) (ys : list Z).
Hypothesis (Hlinks : links (hooks m) ys) (Hnd : NoDup ys).

Lemma at_or_nonzero k : (k < length ys)%nat -> at_or ys k <> 0.
Proof using Hlinks. intros Hk%at_or_lt. by apply Hlinks in Hk as [? _]. Qed.

Lemma at_or_distinct k k' : (k < k')%nat -> (k < length ys)%nat ->
  at_or ys k <> at_or ys k'.
Proof using Hlinks Hnd.
  intros Hlt Hk Heq. destruct (decide (k' < length ys)%nat) as [Hk'|Hk'].
  - apply at_or_lt in Hk, Hk'. rewrite Heq in Hk.
    assert (k = k') by (by eapply NoDup_lookup). lia.
  - rewrite (at_or_ge ys k') in Heq by lia. by eapply at_or_nonzero.
Qed.

Lemma wp_step k (Q : H -> mem -> Prop) : (k < length ys)%nat ->
  (forall v, step (before ys k) v = at_or ys (S k) -> Q v m) ->
  wp (deref hooks_of (at_or ys k)) m Q.
Proof using Hlinks.
  intros Hk%at_or_lt HQ. destruct (Hlinks _ _ Hk) as (H0 & v & Hv & Hs).
  by eapply wp_deref; [..|apply HQ].
Qed.

(** The fast pointer stands at index [k], or has fallen off the end. *)
Definition fast_at (k : nat) (jp : Z * Z) : Prop :=
  jp.1 = at_or ys k /\ ((k < length ys)%nat -> jp.2 = before ys k).

Lemma wp_fast_hop k jp : fast_at k jp ->
  wp (fast_hop jp) m (fun jp' m' => m' = m /\ fast_at (S k) jp').
Proof using Hlinks.
  destruct jp as [j pj]. intros [Hj Hp]. cbn in Hj, Hp. unfold fast_hop, nonnull.
  destruct (decide (k < length ys)%nat) as [Hk|Hk].
  - pose proof (at_or_nonzero k Hk). subst j.
    rewrite (proj2 (Z.eqb_neq _ _)) by done. cbn. apply wp_bind, wp_step; [done|].
    intros v Hv. apply wp_ret. split; [done|]. split; cbn; [|done].
    by rewrite Hp by done.
  - rewrite (at_or_ge ys k) in Hj by lia. subst j. cbn. apply wp_ret.
    split; [done|]. split; cbn; [by rewrite at_or_ge by lia|lia].
Qed.

(** After one slow and two fast hops the pointers still differ. *)
Lemma wp_fast_hops k jp : (S k < length ys)%nat -> fast_at (2 * k) jp ->
  wp (fast_hops jp) m (fun jp' m' => m' = m /\ fast_at (2 * S k) jp' /\
    negb (at_or ys (S k) =? jp'.1) = true).
Proof using Hlinks Hnd.
  intros Hk Hjp. apply wp_bind. eapply wp_mono; [by apply wp_fast_hop|].
  intros j1 ? [-> Hj1]. eapply wp_mono; [by apply wp_fast_hop|].
  intros j2 ? [-> Hj2]. replace (2 * S k)%nat with (S (S (2 * k))) by lia.
  split_and!; [done..|]. destruct Hj2 as [-> _].
  rewrite (proj2 (Z.eqb_neq _ _)); [done|]. apply at_or_distinct; lia.
Qed.

Lemma head_at : head_or 0 ys = at_or ys 0.
Proof. by destruct ys. Qed.

Lemma last_at : last_or 0 ys = at_or ys (length ys - 1).
Proof. unfold last_or, at_or. rewrite last_lookup. do 2 f_equal. lia. Qed.

(** Loop state of [check_walk] after [k] hops. *)
Definition walk_inv (n : nat) (st : Z * Z * Z * (Z * Z)) (s : mem) : Prop :=
  s = m /\ exists k jp, (k < length ys)%nat /\ n = (length ys - k)%nat /\
    fast_at (2 * k) jp /\ st = (Z.of_nat k, at_or ys k, before ys k, jp).

Lemma check_walk_step n st s : Z.of_nat (length ys) < SIZE_MOD ->
  (2 <= length ys)%nat -> walk_inv n st s ->
  wp (check_walk_body (last_or 0 ys) (Z.of_nat (length ys)) st) s (fun r s' =>
    match r with
    | inl st' => exists n', (n' < n)%nat /\ walk_inv n' st' s'
    | inr b => s' = m /\ b = (Z.of_nat (length ys - 1), 0)
    end).
Proof using Hlinks Hnd.
  intros Hmod H2 (-> & k & jp & Hk & -> & Hjp & ->).
  unfold check_walk_body. rewrite last_at. case (Z.eqb_spec (at_or ys k)).
  - intros Heq. assert (k = length ys - 1)%nat as ->.
    { destruct (decide (k = length ys - 1)%nat); [done|].
      exfalso. eapply (at_or_distinct k (length ys - 1)); [lia..|done]. }
    apply wp_ret. split; [done|]. destruct Hjp as [-> _].
    by rewrite at_or_ge by lia.
  - intros Hne. assert (k < length ys - 1)%nat as Hk1.
    { destruct (decide (k = length ys - 1)%nat); [congruence|lia]. }
    apply wp_bind, wp_assert.
    { unfold nonnull. by rewrite (proj2 (Z.eqb_neq _ _)) by by apply at_or_nonzero. }
    apply wp_bind, wp_step; [done|]. intros v Hv. rewrite Hv.
    apply wp_bind. eapply wp_mono; [apply (wp_fast_hops k); [lia|done]|].
    intros j2 ? (-> & Hj2 & Hne2). cbn beta.
    apply wp_bind, wp_assert; [done|].
    rewrite to_size_small by (unfold SIZE_MOD, SIZE_BITS in *; lia).
    apply wp_bind, wp_assert; [apply Z.ltb_lt; lia|]. apply wp_ret.
    exists (length ys - S k)%nat. split; [lia|]. split; [done|].
    exists (S k), j2. split_and!; [lia|done..|]. by rewrite Nat2Z.inj_succ, <- Z.add_1_r.
Qed.

Lemma wp_check_walk :
  (2 <= length ys <= base.size (hooks m))%nat -> Z.of_nat (length ys) < SIZE_MOD ->
  wp (check_walk (head_or 0 ys) (last_or 0 ys) (Z.of_nat (length ys))) m
     (fun _ m' => m' = m).
Proof using Hlinks Hnd.
  intros [H2 Hsz] Hmod. apply wp_bind, wp_gets, wp_bind.
  eapply wp_mono; [eapply (wp_loop walk_inv)|].
  - intros n st s. by apply check_walk_step.
  - split; [done|]. exists O, (head_or 0 ys, 0). split_and!; [lia|done| |].
    + split; [apply head_at|done].
    + by rewrite head_at.
  - lia.
  - intros [nh j] s [-> [= -> ->]]. cbn beta iota.
    apply wp_bind, wp_assert; [done|].
    apply wp_assert; [|done]. rewrite to_size_small by lia.
    apply Z.eqb_eq. lia.
Qed.

Lemma wp_hook_walk : (forall p p' v, step p v = step p' v) ->
  (1 <= length ys <= base.size (hooks m))%nat ->
  wp (hook_walk (head_or 0 ys)) m (fun _ m' => m' = m).
Proof using Hlinks Hnd.
  intros Hst [H1 Hsz]. apply wp_bind, wp_gets.
  eapply (wp_loop (fun n st s => s = m /\ exists k jp, (k < length ys)%nat /\
       n = (length ys - k)%nat /\ fast_at (2 * k) jp /\ st = (at_or ys k, jp))).
  - clear Hsz. intros n st s (-> & k & jp & Hk & -> & Hjp & ->).
    unfold hook_walk_body. apply wp_bind, wp_step; [done|].
    intros v Hv. rewrite (Hst 0 (before ys k)), Hv. unfold isnull.
    case (Z.eqb_spec (at_or ys (S k))); [intros _; by apply wp_ret|].
    intros Hne. assert (S k < length ys)%nat as Hk1.
    { destruct (decide (S k < length ys)%nat); [done|].
      by rewrite at_or_ge in Hne by lia. }
    apply wp_bind. eapply wp_mono; [by apply wp_fast_hops|].
    intros j2 ? (-> & Hj2 & Hne2). cbn beta.
    apply wp_bind, wp_assert; [done|].
    apply wp_ret. exists (length ys - S k)%nat. split; [lia|]. split; [done|].
    exists (S k), j2. by split_and!.
  - split; [done|]. exists O, (head_or 0 ys, 0). split_and!; [lia|done| |].
    + split; [apply head_at|done].
    + by rewrite head_at.
  - lia.
Qed.
End walks_succeed.
End walk.
