(* ===== verification/ListCommon.v ===== *)
(** * The functions of [list.c] that do not depend on the memory layout

    Initialisation, observers, and the operations on whole lists contain no
    [#if DFK_LIST_MEMORY_OPTIMIZED]: they are written once, over the invariant
    check of the layout, and proved for every layout whose check succeeds on
    the memories that represent an abstract state. *)

From S2P Require Import Prelude ListSpec ListSeg.

Section functions.
Context {H : Type} (check : Z -> M (lmem H) unit).

Definition dfk_list_init (list : Z) : M (lmem H) unit :=
  c_assert (nonnull list);;
  store lists_of list (DfkList 0 0 0);;
  check list.

Definition dfk_list_front (list : Z) : M (lmem H) Z :=
  check list;;
  l ← deref lists_of list;
  mret (_head l).

Definition dfk_list_back (list : Z) : M (lmem H) Z :=
  check list;;
  l ← deref lists_of list;
  mret (_tail l).

Definition dfk_list_size (list : Z) : M (lmem H) Z :=
  check list;;
  l ← deref lists_of list;
  mret (_size l).

Definition dfk_list_empty (list : Z) : M (lmem H) bool :=
  check list;;
  l ← deref lists_of list;
  mret (isnull (_head l)).

Definition dfk_list_clear (list : Z) : M (lmem H) unit :=
  check list;;
  update lists_of list (set_head 0);;
  update lists_of list (set_tail 0);;
  update lists_of list (set_size 0);;
  check list.

Definition dfk_list_move (src dst : Z) : M (lmem H) unit :=
  check src;;
  check dst;;
  s ← deref lists_of src;
  update lists_of dst (fun _ => s);;
  update lists_of src (fun _ => DfkList 0 0 0);;
  check dst;;
  check src.

Definition dfk_list_swap (lhs rhs : Z) : M (lmem H) unit :=
  check lhs;;
  check rhs;;
  copy ← deref lists_of lhs;
  r ← deref lists_of rhs;
  update lists_of lhs (fun _ => r);;
  update lists_of rhs (fun _ => copy);;
  check lhs;;
  check rhs.
End functions.

(** A check that succeeds on every list of a represented state. *)
Definition good_check {H} (enc : Z -> Z -> H) (check : Z -> M (lmem H) unit) : Prop :=
  forall m σ l xs, seg_rep enc m σ -> chains σ !! l = Some xs -> checks (check l) m.

(** A hook check that succeeds on every chained hook. *)
Definition good_hook_check {H} (enc : Z -> Z -> H) (hcheck : Z -> M (lmem H) unit) : Prop :=
  forall m σ l xs x, seg_rep enc m σ -> chains σ !! l = Some xs -> x ∈ xs ->
    checks (hcheck x) m.

Lemma rechain_at l ys F σ : chains (rechain l ys F σ) !! l = Some ys.
Proof. apply lookup_insert_eq. Qed.
#[export] Hint Resolve rechain_at : dlist.

Section specs.
Context {H : Type} {enc : Z -> Z -> H} {check : Z -> M (lmem H) unit}.
Context (Hcheck : good_check enc check).

(** A final check of the list that was changed. *)
Lemma wp_checked m σ l ys F :
  seg_rep enc m (rechain l ys F σ) ->
  wp (check l) m (fun _ m' => seg_rep enc m' (rechain l ys F σ)).
Proof using Hcheck.
  intros Hrep. eapply wp_mono; [eapply Hcheck; [done|apply rechain_at]|]. by intros _ ? ->.
Qed.

Local Ltac wp_chk := apply wp_checks; [solve [eauto]|intros _].

Section observers.
Context (m : lmem H) (σ : lspec) (l : Z) (xs : list Z).
Context (Hrep : seg_rep enc m σ) (Hl : chains σ !! l = Some xs).

Lemma wp_list_obj (Q : dfk_list_t -> lmem H -> Prop) :
  Q (list_obj xs) m -> wp (deref lists_of l) m Q.
Proof using Hrep Hl. apply wp_deref; [by eapply list_ne|by eapply list_at]. Qed.

Lemma dfk_list_front_spec :
  wp (dfk_list_front check l) m (fun r m' => r = head_or 0 xs /\ m' = m).
Proof using Hcheck Hrep Hl. wp_chk. by apply wp_bind, wp_list_obj. Qed.

Lemma dfk_list_back_spec :
  wp (dfk_list_back check l) m (fun r m' => r = last_or 0 xs /\ m' = m).
Proof using Hcheck Hrep Hl. wp_chk. by apply wp_bind, wp_list_obj. Qed.

Lemma dfk_list_size_spec :
  wp (dfk_list_size check l) m (fun r m' => r = Z.of_nat (length xs) /\ m' = m).
Proof using Hcheck Hrep Hl. wp_chk. by apply wp_bind, wp_list_obj. Qed.

Lemma dfk_list_empty_spec :
  wp (dfk_list_empty check l) m (fun r m' => r = bool_decide (xs = []) /\ m' = m).
Proof using Hcheck Hrep Hl.
  wp_chk. apply wp_bind, wp_list_obj. by rewrite <- (isnull_head _ _ Hrep _ _ Hl).
Qed.

(** The guard of the removals. *)
Lemma wp_nonempty {A} (k : M (lmem H) A) (Q : A -> lmem H -> Prop) :
  xs <> [] -> wp k m Q ->
  wp (size ← dfk_list_size check l; c_assert (negb (size =? 0));; k) m Q.
Proof using Hcheck Hrep Hl.
  intros Hxs Hk. apply wp_bind. eapply wp_mono; [apply dfk_list_size_spec|].
  intros n s [-> ->]. apply wp_bind, wp_assert; [|done].
  destruct xs; [done|]. by rewrite (proj2 (Z.eqb_neq _ _)) by (cbn; lia).
Qed.
End observers.

Lemma dfk_list_init_spec m σ l :
  seg_rep enc m σ -> l <> 0 -> default [] (chains σ !! l) = [] ->
  wp (dfk_list_init check l) m (fun _ m' => seg_rep enc m' (rechain l [] (spare σ) σ)).
Proof using Hcheck.
  intros Hrep Hl0 Hl. destruct m as [ls hs]. unfold dfk_list_init. list_steps. eapply wp_checked.
  eapply (seg_rep_rechain enc (LMem ls hs) _ σ l [] []); try done.
  - apply NoDup_nil_2.
  - set_solver.
  - set_solver.
Qed.

Lemma dfk_list_clear_spec m σ l xs :
  seg_rep enc m σ -> chains σ !! l = Some xs ->
  wp (dfk_list_clear check l) m
    (fun _ m' => seg_rep enc m' (rechain l [] (spare σ ∪ list_to_set xs) σ)).
Proof using Hcheck.
  intros Hrep Hl. pose proof (list_ne _ _ Hrep _ _ Hl) as Hl0.
  pose proof (list_at _ _ Hrep _ _ Hl) as Hobj. wp_chk.
  destruct m as [ls hs]. cbn in Hobj. list_steps. eapply wp_checked.
  eapply (seg_rep_rechain enc (LMem ls hs) _ σ l xs []); try done.
  - by rewrite Hl.
  - apply NoDup_nil_2.
  - set_solver.
  - set_solver.
  - cbn. by rewrite !insert_insert_eq.
Qed.

Lemma dfk_list_move_spec m σ src dst xs ys :
  seg_rep enc m σ -> src <> dst -> chains σ !! src = Some xs -> chains σ !! dst = Some ys ->
  wp (dfk_list_move check src dst) m (fun _ m' =>
    seg_rep enc m' (LSpec (<[src := []]> (<[dst := xs]> (chains σ))) (spare σ ∪ list_to_set ys))).
Proof using Hcheck.
  intros Hrep Hne Hs Hd.
  pose proof (list_ne _ _ Hrep _ _ Hs). pose proof (list_ne _ _ Hrep _ _ Hd).
  pose proof (list_at _ _ Hrep _ _ Hs) as Hso. pose proof (list_at _ _ Hrep _ _ Hd) as Hdo.
  do 2 wp_chk. destruct m as [ls hs]. cbn in Hso, Hdo.
  do 3 (apply wp_bind; list_acc). cbn beta.
  set (σ' := LSpec _ _).
  assert (seg_rep enc (LMem (<[src := DfkList 0 0 0]> (<[dst := list_obj xs]> ls)) hs) σ') as Hrep'.
  { eapply (seg_rep_exchange enc (LMem ls hs) _ σ σ' src dst); [done..| |].
    - cbn. intros l zs. unfold exchange. rewrite !lookup_insert.
      repeat case_decide; subst; try done.
      + intros [= <-]. auto.
      + intros [= <-]. auto.
      + intros Hl. split_and!; [by eapply list_ne|by eapply (list_at _ _ Hrep)|by right].
    - intros x Hx. cbn in Hx. split.
      + intros l zs. cbn. rewrite !lookup_insert. repeat case_decide; subst.
        * intros [= <-]. set_solver.
        * intros [= <-]. by eapply freed_unchained.
        * intros Hl. by eapply (freed_unchained _ _ Hrep dst).
      + apply elem_of_union in Hx as [Hx|Hx%elem_of_list_to_set]; [by left|right]. by exists dst, ys. }
  apply wp_bind. do 2 (eapply wp_mono; [by eapply Hcheck; [done|]; subst σ'; cbn; simplify_map_eq|intros ? ? ->]).
  done.
Qed.

Lemma dfk_list_swap_spec m σ l r xs ys :
  seg_rep enc m σ -> l <> r -> chains σ !! l = Some xs -> chains σ !! r = Some ys ->
  wp (dfk_list_swap check l r) m (fun _ m' =>
    seg_rep enc m' (LSpec (<[r := xs]> (<[l := ys]> (chains σ))) (spare σ))).
Proof using Hcheck.
  intros Hrep Hne Hs Hd.
  pose proof (list_ne _ _ Hrep _ _ Hs). pose proof (list_ne _ _ Hrep _ _ Hd).
  pose proof (list_at _ _ Hrep _ _ Hs) as Hso. pose proof (list_at _ _ Hrep _ _ Hd) as Hdo.
  do 2 wp_chk. destruct m as [ls hs]. cbn in Hso, Hdo.
  do 4 (apply wp_bind; list_acc). cbn beta.
  set (σ' := LSpec _ _).
  assert (seg_rep enc (LMem (<[r := list_obj xs]> (<[l := list_obj ys]> ls)) hs) σ') as Hrep'.
  { eapply (seg_rep_exchange enc (LMem ls hs) _ σ σ' l r); [done..| |].
    - cbn. intros l' zs. unfold exchange. rewrite !lookup_insert.
      repeat case_decide; subst; try done.
      + intros [= <-]. auto.
      + intros [= <-]. auto.
      + intros Hl. split_and!; [by eapply list_ne|by eapply (list_at _ _ Hrep)|by right].
    - intros x Hx. cbn in Hx. split; [|by left].
      pose proof (wf_spare _ (sr_wf _ _ _ Hrep)) as Hsp.
      intros l' zs. cbn. rewrite !lookup_insert. repeat case_decide; subst.
      + intros [= <-]. eauto.
      + intros [= <-]. eauto.
      + eauto. }
  apply wp_bind. do 2 (eapply wp_mono; [by eapply Hcheck; [done|]; subst σ'; cbn; simplify_map_eq|intros ? ? ->]).
  done.
Qed.

(** *** The end of an insertion or a removal *)
Context {hcheck : Z -> M (lmem H) unit} (Hhook : good_hook_check enc hcheck).

(** The checks at the end of an insertion, once the links are right. *)
Lemma wp_linked_in m m' σ l pre h suf (Q : unit -> lmem H -> Prop) :
  seg_rep enc m σ -> chains σ !! l = Some (pre ++ suf) -> h ∈ spare σ ->
  lists m' = <[l := DfkList (head_or h pre) (last_or h suf)
                 (to_size (Z.of_nat (length (pre ++ suf)) + 1))]> (lists m) ->
  linked_in enc (hooks m) (hooks m') pre h suf ->
  (seg_rep enc m' (rechain l (pre ++ h :: suf) (occupy h σ) σ) -> Q tt m') ->
  wp (check l) m' (fun _ s =>
    wp (hcheck h) s Q).
Proof using Hcheck Hhook.
  intros Hrep Hl Hh Hls Hin HQ.
  assert (seg_rep enc m' (rechain l (pre ++ h :: suf) (occupy h σ) σ)) as Hrep'.
  { eapply rep_linked_in; [done..| |done]. by erewrite grown_obj. }
  eapply wp_mono; [eapply Hcheck; [done|apply rechain_at]|]. intros _ ? ->.
  eapply wp_mono; [eapply (Hhook _ _ l (pre ++ h :: suf) h); [done|apply rechain_at|set_solver]|].
  intros [] ? ->. auto.
Qed.

(** The same, when a check of the position follows. *)
Lemma wp_linked_in_then m m' σ l pre h suf (k : M (lmem H) unit) (Q : unit -> lmem H -> Prop) :
  seg_rep enc m σ -> chains σ !! l = Some (pre ++ suf) -> h ∈ spare σ ->
  lists m' = <[l := DfkList (head_or h pre) (last_or h suf)
                 (to_size (Z.of_nat (length (pre ++ suf)) + 1))]> (lists m) ->
  linked_in enc (hooks m) (hooks m') pre h suf ->
  (seg_rep enc m' (rechain l (pre ++ h :: suf) (occupy h σ) σ) -> wp k m' Q) ->
  wp (check l) m' (fun _ s =>
    wp (hcheck h;; k) s Q).
Proof using Hcheck Hhook.
  intros Hrep Hl Hh Hls Hin HQ.
  apply (wp_mono _ _ (fun _ s => wp (hcheck h) s
    (fun _ s' => wp k s' Q))); [|intros ? s Hs; by apply wp_bind].
  by eapply (wp_linked_in m m' σ l pre h suf (fun _ s => wp k s Q)).
Qed.

(** The check at the end of a removal, once the links are right. *)
Lemma wp_linked_out m m' σ l pre x suf :
  seg_rep enc m σ -> chains σ !! l = Some (pre ++ x :: suf) ->
  lists m' = <[l := DfkList (head_or 0 (pre ++ suf)) (last_or 0 (pre ++ suf))
                 (to_size (Z.of_nat (length (pre ++ x :: suf)) - 1))]> (lists m) ->
  linked_out enc (hooks m) (hooks m') pre suf ->
  wp (check l) m'
    (fun _ m'' => seg_rep enc m'' (rechain l (pre ++ suf) (release x σ) σ)).
Proof using Hcheck.
  intros Hrep Hl Hls Hout.
  assert (seg_rep enc m' (rechain l (pre ++ suf) (release x σ) σ)) as Hrep'.
  { eapply rep_linked_out; [done..| |done]. by erewrite shrunk_obj. }
  by apply wp_checked.
Qed.
End specs.

(** ** Hooks *)

Lemma rep_new_hook {H} {enc : Z -> Z -> H} m σ h v :
  seg_rep enc m σ -> valid_addr h -> unchained σ h ->
  seg_rep enc (LMem (lists m) (<[h := v]> (hooks m))) (LSpec (chains σ) (release h σ)).
Proof.
  intros Hrep Hh Hun.
  eapply seg_rep_spare; [done..| |].
  - intros x l xs Hl Hx. cbn. rewrite lookup_insert_ne; [done|]. intros ->. by eapply Hun.
  - intros x Hx. cbn. unfold release in Hx. destruct (decide (x = h)) as [->|Hne].
    + rewrite lookup_insert_eq. by eauto.
    + assert (x ∈ spare σ) by set_solver. pose proof (sr_wf _ _ _ Hrep) as Hwf. split_and!.
      * by apply (wf_spare_valid _ Hwf).
      * intros l xs Hl. by eapply wf_spare.
      * rewrite lookup_insert_ne by done. by apply (sr_spare _ _ _ Hrep).
Qed.

Lemma hook_dispose_spec {H} {enc : Z -> Z -> H} m σ h :
  seg_rep enc m σ -> h ∈ spare σ ->
  wp (dispose hooks_of h) m (fun _ m' => seg_rep enc m' (LSpec (chains σ) (occupy h σ))).
Proof.
  intros Hrep Hh. pose proof (sr_wf _ _ _ Hrep) as Hwf.
  destruct (sr_spare _ _ _ Hrep _ Hh) as [v Hv]. eapply wp_dispose; [done|].
  eapply seg_rep_spare; [done..| |].
  - intros x l xs Hl Hx. cbn. rewrite lookup_delete_ne; [done|]. intros ->. by eapply wf_spare.
  - intros x Hx. unfold occupy in Hx. apply elem_of_difference in Hx as [Hx Hne]. split_and!.
    + by apply (wf_spare_valid _ Hwf).
    + intros l xs Hl. by eapply wf_spare.
    + cbn. rewrite lookup_delete_ne by set_solver. by apply (sr_spare _ _ _ Hrep).
Qed.



