(* ===== verification/ListPtr.v ===== *)
(** * [list.c], default layout: two pointers per hook

    The functions of [src/src/list.c] as compiled with the default options
    ([DFK_LIST_MEMORY_OPTIMIZED] off, [DFK_LIST_CONSTANT_TIME_SIZE] on,
    [DFK_DEBUG] off, assertions on).  Iterators that the C code fills through
    a pointer argument are returned. *)

From S2P Require Import Prelude ListSpec ListSeg ListCheck ListCommon.

Record dfk_list_hook_t := Hook { _next : Z; _prev : Z }.
Record dfk_list_it := It { value : Z }.

Abbreviation mem := (lmem dfk_list_hook_t).

Definition set_next (p : Z) (h : dfk_list_hook_t) := Hook p (_prev h).
Definition set_prev (p : Z) (h : dfk_list_hook_t) := Hook (_next h) p.

(** ** Invariant checks *)

(** [check_walk] steps: [i->_next] and [i->_prev]. *)
Definition fwd (_ : Z) (h : dfk_list_hook_t) : Z := _next h.
Definition bwd (_ : Z) (h : dfk_list_hook_t) : Z := _prev h.

Definition dfk__list_check_invariants (list : Z) : M mem unit :=
  c_assert (nonnull list);;
  l ← deref lists_of list;
  if isnull (_head l) || isnull (_tail l) then
    c_assert (isnull (_head l));;
    c_assert (isnull (_tail l));;
    c_assert (_size l =? 0)
  else if _head l =? _tail l then
    hd ← deref hooks_of (_head l);
    c_assert (isnull (_next hd));;
    c_assert (isnull (_prev hd));;
    c_assert (_size l =? 1)
  else
    hd ← deref hooks_of (_head l);
    c_assert (isnull (_prev hd));;
    tl ← deref hooks_of (_tail l);
    c_assert (isnull (_next tl));;
    check_walk fwd (_head l) (_tail l) (_size l);;
    check_walk bwd (_tail l) (_head l) (_size l).

Definition dfk__list_hook_check_invariants (hook : Z) : M mem unit :=
  c_assert (nonnull hook);;
  hook_walk fwd hook;;
  hook_walk bwd hook.

Definition dfk__list_it_check_invariants (it : dfk_list_it) : M mem unit :=
  when (nonnull (value it)) (dfk__list_hook_check_invariants (value it)).

Definition dfk__list_rit_check_invariants (rit : dfk_list_it) : M mem unit :=
  when (nonnull (value rit)) (dfk__list_hook_check_invariants (value rit)).

(** ** Initialisation and observers *)

Definition dfk_list_init := ListCommon.dfk_list_init dfk__list_check_invariants.

Definition dfk_list_hook_init (hook : Z) : M mem unit :=
  c_assert (nonnull hook);;
  store hooks_of hook (Hook 0 0);;
  dfk__list_hook_check_invariants hook.

Definition dfk_list_front := ListCommon.dfk_list_front dfk__list_check_invariants.

Definition dfk_list_back := ListCommon.dfk_list_back dfk__list_check_invariants.

Definition dfk_list_size := ListCommon.dfk_list_size dfk__list_check_invariants.

Definition dfk_list_empty := ListCommon.dfk_list_empty dfk__list_check_invariants.

(** ** Iterators *)

Definition dfk_list_begin (list : Z) : M mem dfk_list_it :=
  dfk__list_check_invariants list;;
  l ← deref lists_of list;
  let it := It (_head l) in
  dfk__list_it_check_invariants it;;
  mret it.

Definition dfk_list_end (list : Z) : M mem dfk_list_it :=
  dfk__list_check_invariants list;;
  let it := It 0 in
  dfk__list_it_check_invariants it;;
  mret it.

Definition dfk_list_it_from_value (list value : Z) : M mem dfk_list_it :=
  dfk__list_check_invariants list;;
  dfk__list_hook_check_invariants value;;
  let it := It value in
  dfk__list_it_check_invariants it;;
  dfk__list_hook_check_invariants value;;
  dfk__list_check_invariants list;;
  mret it.

Definition dfk_list_it_next (it : dfk_list_it) : M mem dfk_list_it :=
  dfk__list_it_check_invariants it;;
  h ← deref hooks_of (value it);
  let it' := It (_next h) in
  dfk__list_it_check_invariants it';;
  mret it'.

Definition dfk_list_it_equal (lhs rhs : dfk_list_it) : M mem bool :=
  dfk__list_it_check_invariants lhs;;
  dfk__list_it_check_invariants rhs;;
  mret (value lhs =? value rhs).

Definition dfk_list_rbegin (list : Z) : M mem dfk_list_it :=
  dfk__list_check_invariants list;;
  l ← deref lists_of list;
  let rit := It (_tail l) in
  dfk__list_rit_check_invariants rit;;
  mret rit.

Definition dfk_list_rend (list : Z) : M mem dfk_list_it :=
  dfk__list_check_invariants list;;
  let rit := It 0 in
  dfk__list_rit_check_invariants rit;;
  mret rit.

Definition dfk_list_rit_from_value (list value : Z) : M mem dfk_list_it :=
  dfk__list_check_invariants list;;
  dfk__list_hook_check_invariants value;;
  let rit := It value in
  dfk__list_rit_check_invariants rit;;
  dfk__list_hook_check_invariants value;;
  dfk__list_check_invariants list;;
  mret rit.

Definition dfk_list_rit_next (rit : dfk_list_it) : M mem dfk_list_it :=
  dfk__list_rit_check_invariants rit;;
  h ← deref hooks_of (value rit);
  let rit' := It (_prev h) in
  dfk__list_rit_check_invariants rit';;
  mret rit'.

Definition dfk_list_rit_equal (lhs rhs : dfk_list_it) : M mem bool :=
  dfk__list_rit_check_invariants lhs;;
  dfk__list_rit_check_invariants rhs;;
  mret (value lhs =? value rhs).

(** ** Insertion *)

Definition dfk_list_append (list hook : Z) : M mem unit :=
  dfk__list_check_invariants list;;
  c_assert (nonnull hook);;
  l ← deref lists_of list;
  update hooks_of hook (set_next 0);;
  update hooks_of hook (set_prev (_tail l));;
  when (nonnull (_tail l)) (update hooks_of (_tail l) (set_next hook));;
  when (isnull (_head l)) (update lists_of list (set_head hook));;
  update lists_of list (set_tail hook);;
  update lists_of list (fun l => set_size (to_size (_size l + 1)) l);;
  dfk__list_check_invariants list;;
  dfk__list_hook_check_invariants hook.

Definition dfk_list_prepend (list hook : Z) : M mem unit :=
  dfk__list_check_invariants list;;
  c_assert (nonnull hook);;
  l ← deref lists_of list;
  update hooks_of hook (set_prev 0);;
  update hooks_of hook (set_next (_head l));;
  when (nonnull (_head l)) (update hooks_of (_head l) (set_prev hook));;
  update lists_of list (set_head hook);;
  when (isnull (_tail l)) (update lists_of list (set_tail hook));;
  update lists_of list (fun l => set_size (to_size (_size l + 1)) l);;
  dfk__list_check_invariants list;;
  dfk__list_hook_check_invariants hook.

Definition dfk_list_insert (list hook : Z) (position : dfk_list_it) : M mem unit :=
  dfk__list_check_invariants list;;
  c_assert (nonnull hook);;
  dfk__list_it_check_invariants position;;
  l ← deref lists_of list;
  before ←
    (if nonnull (value position) then
       v ← deref hooks_of (value position);
       update hooks_of (value position) (set_prev hook);;
       mret (_prev v)
     else if nonnull (_tail l) then mret (_tail l)
     else mret 0);
  when (nonnull before) (update hooks_of before (set_next hook));;
  update hooks_of hook (set_prev before);;
  update hooks_of hook (set_next (value position));;
  when (isnull before) (update lists_of list (set_head hook));;
  when (isnull (value position)) (update lists_of list (set_tail hook));;
  update lists_of list (fun l => set_size (to_size (_size l + 1)) l);;
  dfk__list_check_invariants list;;
  dfk__list_hook_check_invariants hook;;
  dfk__list_it_check_invariants position.

Definition dfk_list_rinsert (list hook : Z) (position : dfk_list_it) : M mem unit :=
  dfk__list_check_invariants list;;
  c_assert (nonnull hook);;
  dfk__list_rit_check_invariants position;;
  l ← deref lists_of list;
  before ←
    (if nonnull (value position) then
       v ← deref hooks_of (value position);
       update hooks_of (value position) (set_next hook);;
       mret (_next v)
     else if nonnull (_tail l) then mret (_head l)
     else mret 0);
  when (nonnull before) (update hooks_of before (set_prev hook));;
  update hooks_of hook (set_next before);;
  update hooks_of hook (set_prev (value position));;
  when (isnull (value position)) (update lists_of list (set_head hook));;
  when (isnull before) (update lists_of list (set_tail hook));;
  update lists_of list (fun l => set_size (to_size (_size l + 1)) l);;
  dfk__list_check_invariants list;;
  dfk__list_hook_check_invariants hook;;
  dfk__list_rit_check_invariants position.

(** ** Removal *)

Definition dfk_list_clear := ListCommon.dfk_list_clear dfk__list_check_invariants.

Definition dfk_list_erase (list : Z) (it : dfk_list_it) : M mem unit :=
  dfk__list_check_invariants list;;
  dfk__list_it_check_invariants it;;
  size ← dfk_list_size list;
  c_assert (negb (size =? 0));;
  let hook := value it in
  l ← deref lists_of list;
  (if _head l =? _tail l then
     c_assert (_head l =? hook);;
     update lists_of list (set_head 0);;
     update lists_of list (set_tail 0)
   else if hook =? _head l then
     h ← deref hooks_of hook;
     c_assert (nonnull (_next h));;
     update hooks_of (_next h) (set_prev 0);;
     h ← deref hooks_of hook;
     update lists_of list (set_head (_next h))
   else if hook =? _tail l then
     h ← deref hooks_of hook;
     c_assert (nonnull (_prev h));;
     update hooks_of (_prev h) (set_next 0);;
     h ← deref hooks_of hook;
     update lists_of list (set_tail (_prev h))
   else
     c_assert (negb (hook =? _head l));;
     c_assert (negb (hook =? _tail l));;
     h ← deref hooks_of hook;
     c_assert (nonnull (_prev h));;
     c_assert (nonnull (_next h));;
     update hooks_of (_prev h) (set_next (_next h));;
     h ← deref hooks_of hook;
     update hooks_of (_next h) (set_prev (_prev h)));;
  update lists_of list (fun l => set_size (to_size (_size l - 1)) l);;
  dfk__list_check_invariants list.

Definition dfk_list_rerase (list : Z) (rit : dfk_list_it) : M mem unit :=
  dfk__list_check_invariants list;;
  dfk__list_rit_check_invariants rit;;
  let it := It (value rit) in
  dfk_list_erase list it;;
  dfk__list_check_invariants list.

Definition dfk_list_pop_front (list : Z) : M mem unit :=
  dfk__list_check_invariants list;;
  size ← dfk_list_size list;
  c_assert (negb (size =? 0));;
  it ← dfk_list_begin list;
  dfk_list_erase list it;;
  dfk__list_check_invariants list.

Definition dfk_list_pop_back (list : Z) : M mem unit :=
  dfk__list_check_invariants list;;
  size ← dfk_list_size list;
  c_assert (negb (size =? 0));;
  rit ← dfk_list_rbegin list;
  dfk_list_rerase list rit;;
  dfk__list_check_invariants list.

(** ** Whole lists *)

Definition dfk_list_move := ListCommon.dfk_list_move dfk__list_check_invariants.

Definition dfk_list_swap := ListCommon.dfk_list_swap dfk__list_check_invariants.

#[export] Instance ptr_ops : ListOps mem dfk_list_it := {|
  list_init := dfk_list_init;
  hook_init := dfk_list_hook_init;
  hook_dispose := dispose hooks_of;
  list_front := dfk_list_front;
  list_back := dfk_list_back;
  list_append := dfk_list_append;
  list_prepend := dfk_list_prepend;
  list_insert := dfk_list_insert;
  list_rinsert := dfk_list_rinsert;
  list_clear := dfk_list_clear;
  list_erase := dfk_list_erase;
  list_rerase := dfk_list_rerase;
  list_pop_front := dfk_list_pop_front;
  list_pop_back := dfk_list_pop_back;
  list_size := dfk_list_size;
  list_empty := dfk_list_empty;
  list_move := dfk_list_move;
  list_swap := dfk_list_swap;
  list_begin := dfk_list_begin;
  list_end := dfk_list_end;
  list_it_from_value := dfk_list_it_from_value;
  list_it_next := dfk_list_it_next;
  list_it_equal := dfk_list_it_equal;
  list_rbegin := dfk_list_rbegin;
  list_rend := dfk_list_rend;
  list_rit_from_value := dfk_list_rit_from_value;
  list_rit_next := dfk_list_rit_next;
  list_rit_equal := dfk_list_rit_equal;
  it_value := value
|}.
