(* ===== verification/ListPtrSpec.v ===== *)
(** * The default layout implements the list interface

    [seg_rep enc]: a hook whose predecessor is [p] and successor [q] is stored
    as [Hook q p].  Every function of [ListPtr] is proved against the abstract
    operation of [ListSpec], its assertions included. *)

From S2P Require Import Prelude ListSpec ListSeg ListCheck ListCommon ListPtr.

Definition enc (p q : Z) : dfk_list_hook_t := Hook q p.
Abbreviation rep := (seg_rep enc).

(** ** Reading the lists of a memory *)
Section facts.
Context (m : mem) (σ : lspec) (Hrep : rep m σ).
Context (l : Z) (xs : list Z) (Hl : chains σ !! l = Some xs).

Lemma hook_at pre x suf : xs = pre ++ x :: suf ->
  x <> 0 /\ hooks m !! x = Some (Hook (head_or 0 suf) (last_or 0 pre)).
Proof using Hrep Hl. apply (seg_hook_at _ _ Hrep _ _ Hl). Qed.

Lemma links_fwd pre suf : xs = pre ++ suf -> links fwd (hooks m) suf.
Proof using Hrep Hl.
  intros Heq. apply links_split. intros pre' x suf' Hsuf.
  destruct (hook_at (pre ++ pre') x suf') as [Hx Hv]; [by rewrite Heq, Hsuf, <- app_assoc|].
  split; [done|]. by eexists.
Qed.

Lemma links_bwd pre suf : xs = pre ++ suf -> links bwd (hooks m) (reverse pre).
Proof using Hrep Hl.
  intros Heq. apply links_split. intros pre' x suf' Hpre.
  apply (f_equal reverse) in Hpre.
  rewrite reverse_involutive, reverse_app, reverse_cons, <- app_assoc in Hpre.
  destruct (hook_at (reverse suf') x (reverse pre' ++ suf)) as [Hx Hv].
  { by rewrite Heq, Hpre, <- app_assoc. }
  split; [done|]. eexists. split; [done|]. unfold bwd, last_or, head_or. cbn.
  by rewrite last_reverse.
Qed.

End facts.

(** ** The assertions hold *)

Lemma checks_list : good_check enc dfk__list_check_invariants.
Proof.
  intros m σ l xs Hrep Hl.
  pose proof (list_ne _ _ Hrep _ _ Hl). pose proof (list_at _ _ Hrep _ _ Hl) as Hobj.
  pose proof (chain_size _ _ Hrep _ _ Hl) as [Hsz Hmod].
  pose proof (chain_nodup _ _ Hrep _ _ Hl) as Hnd.
  unfold checks, dfk__list_check_invariants.
  apply wp_bind, wp_assert; [by apply nonnull_true|].
  apply wp_bind. eapply wp_deref; [done..|].
  destruct xs as [|x ys]; [by cbn; repeat apply wp_bind; apply wp_assert|].
  destruct (hook_at _ _ Hrep _ _ Hl [] x ys eq_refl) as [Hx Hvx].
  destruct ys as [|y ys _] using rev_ind.
  - cbn. unfold head_or, last_or. cbn. rewrite isnull_false, Z.eqb_refl by done. cbn.
    apply wp_bind. by eapply wp_deref.
  - destruct (hook_at _ _ Hrep _ _ Hl (x :: ys) y [] eq_refl) as [Hy Hvy].
    pose proof (links_fwd _ _ Hrep _ _ Hl [] _ eq_refl) as Hf.
    pose proof (links_bwd _ _ Hrep _ _ Hl _ [] (eq_sym (app_nil_r _))) as Hb.
    unfold list_obj. cbn [_head _tail _size].
    replace (last_or 0 (x :: ys ++ [y])) with y by by rewrite last_or_cons, last_or_snoc.
    rewrite head_or_cons, !isnull_false by done. cbn [orb].
    rewrite (proj2 (Z.eqb_neq x y)) by (intros ->; apply NoDup_cons in Hnd as [? _]; set_solver).
    apply wp_bind. eapply wp_deref; [done..|]. apply wp_bind, wp_assert; [done|].
    apply wp_bind. eapply wp_deref; [done..|]. apply wp_bind, wp_assert; [done|].
    assert (length (x :: ys ++ [y]) = S (S (length ys))) as Hlen.
    { cbn. rewrite length_app. cbn. lia. }
    apply wp_checks; [|intros _].
    + pose proof (wp_check_walk fwd _ _ Hf Hnd) as Hw.
      rewrite head_or_cons, last_or_cons, last_or_snoc in Hw. apply Hw; lia.
    + pose proof (wp_check_walk bwd _ _ Hb (NoDup_reverse _ Hnd)) as Hw.
      rewrite length_reverse in Hw. unfold head_or, last_or in Hw.
      rewrite head_reverse, last_reverse in Hw. cbn in Hw.
      rewrite last_cons, last_snoc in Hw. apply Hw; [|done]. split; [cbn in *; lia|done].
Qed.

Lemma checks_hook : good_hook_check enc dfk__list_hook_check_invariants.
Proof.
  intros m σ l xs x Hrep Hl [pre [suf ->]]%list_elem_of_split.
  pose proof (chain_size _ _ Hrep _ _ Hl) as [Hsz Hmod].
  pose proof (chain_nodup _ _ Hrep _ _ Hl) as Hnd.
  rewrite length_app in Hsz. cbn in Hsz.
  unfold checks, dfk__list_hook_check_invariants.
  apply wp_bind, wp_assert; [by eapply nonnull_true, (hook_at _ _ Hrep _ _ Hl)|].
  apply wp_checks; [|intros _].
  - apply (wp_hook_walk fwd _ (x :: suf)); [by eapply links_fwd| |done|cbn; lia].
    by apply NoDup_app in Hnd as (_ & _ & ?).
  - pose proof (wp_hook_walk bwd m (reverse (pre ++ [x]))) as Hw.
    unfold head_or in Hw. rewrite head_reverse, last_snoc in Hw. cbn in Hw. apply Hw; [| |done|].
    + eapply links_bwd; [done..|]. by rewrite <- app_assoc.
    + apply NoDup_reverse. replace (pre ++ x :: suf) with ((pre ++ [x]) ++ suf) in Hnd
        by by rewrite <- app_assoc.
      by apply NoDup_app in Hnd as (? & _ & _).
    + rewrite length_reverse, length_app. cbn. lia.
Qed.

(** A hook that has just been initialised is alone. *)
Lemma checks_new_hook m x : x <> 0 -> hooks m !! x = Some (Hook 0 0) ->
  checks (dfk__list_hook_check_invariants x) m.
Proof.
  intros Hx Hv. unfold checks, dfk__list_hook_check_invariants.
  assert (forall step, step 0 (Hook 0 0) = 0 -> links step (hooks m) [x]) as Hlk.
  { intros step Hs. apply links_split. intros pre y suf Heq.
    destruct pre as [|? []]; cbn in Heq; simplify_eq. split; [done|]. by eexists. }
  assert (1 <= length [x] <= base.size (hooks m))%nat.
  { cbn. split; [done|]. destruct (base.size (hooks m)) eqn:E; [|lia].
    apply map_size_empty_inv in E. by rewrite E, lookup_empty in Hv. }
  apply wp_bind, wp_assert; [by apply nonnull_true|].
  apply wp_checks; [|intros _].
  - apply (wp_hook_walk fwd m [x]); [by apply Hlk|apply NoDup_singleton|done..].
  - apply (wp_hook_walk bwd m [x]); [by apply Hlk|apply NoDup_singleton|done..].
Qed.

Lemma checks_it m σ l xs it : rep m σ -> chains σ !! l = Some xs ->
  value it = 0 \/ value it ∈ xs -> checks (dfk__list_it_check_invariants it) m.
Proof.
  intros Hrep Hl Hit. apply wp_when; [|done]. intros Hn.
  destruct Hit as [Hz|Hin]; [by rewrite Hz in Hn|]. by eapply checks_hook.
Qed.

Lemma checks_rit m σ l xs it : rep m σ -> chains σ !! l = Some xs ->
  value it = 0 \/ value it ∈ xs -> checks (dfk__list_rit_check_invariants it) m.
Proof. apply checks_it. Qed.

#[export] Hint Resolve checks_list checks_hook checks_it checks_rit : dlist.

(** ** Observers and iterators *)

(** Runs the leading check, whose assertions hold. *)
Ltac wp_chk := apply wp_checks; [solve [eauto with dlist]|intros _].

Definition at_it (it : dfk_list_it) (pre suf : list Z) : Prop :=
  value it = head_or 0 suf.
Definition at_rit (it : dfk_list_it) (pre suf : list Z) : Prop :=
  value it = last_or 0 pre.

#[export] Hint Resolve head_or_in last_or_in : dlist.

Section iterators.
Context (m : mem) (σ : lspec) (l : Z) (xs : list Z).
Context (Hrep : rep m σ) (Hl : chains σ !! l = Some xs).

Lemma checks_at it pre suf : at_it it pre suf -> xs = pre ++ suf ->
  checks (dfk__list_it_check_invariants it) m.
Proof using Hrep Hl. intros Hit Hxs. eapply checks_it; [done..|]. rewrite Hit. eauto with dlist. Qed.

Lemma checks_rat it pre suf : at_rit it pre suf -> xs = pre ++ suf ->
  checks (dfk__list_rit_check_invariants it) m.
Proof using Hrep Hl. intros Hit Hxs. eapply checks_rit; [done..|]. rewrite Hit. eauto with dlist. Qed.

Lemma wp_return_it it pre suf (Q : dfk_list_it -> mem -> Prop) :
  at_it it pre suf -> xs = pre ++ suf -> Q it m ->
  wp (dfk__list_it_check_invariants it;; mret it) m Q.
Proof using Hrep Hl.
  intros Hit Hxs HQ. apply wp_checks; [by eapply checks_at|]. intros _. by apply wp_ret.
Qed.

Lemma wp_return_rit it pre suf (Q : dfk_list_it -> mem -> Prop) :
  at_rit it pre suf -> xs = pre ++ suf -> Q it m ->
  wp (dfk__list_rit_check_invariants it;; mret it) m Q.
Proof using Hrep Hl.
  intros Hit Hxs HQ. apply wp_checks; [by eapply checks_rat|]. intros _. by apply wp_ret.
Qed.

Lemma dfk_list_begin_spec :
  wp (dfk_list_begin l) m (fun it m' => at_it it [] xs /\ m' = m).
Proof using Hrep Hl.
  wp_chk. apply wp_bind. eapply wp_list_obj; [done..|].
  by eapply (wp_return_it _ [] xs).
Qed.

Lemma dfk_list_end_spec :
  wp (dfk_list_end l) m (fun it m' => at_it it xs [] /\ m' = m).
Proof using Hrep Hl.
  wp_chk. eapply (wp_return_it _ xs []); [done| |done]. by rewrite app_nil_r.
Qed.

Lemma dfk_list_rbegin_spec :
  wp (dfk_list_rbegin l) m (fun it m' => at_rit it xs [] /\ m' = m).
Proof using Hrep Hl.
  wp_chk. apply wp_bind. eapply wp_list_obj; [done..|].
  eapply (wp_return_rit _ xs []); [done| |done]. by rewrite app_nil_r.
Qed.

Lemma dfk_list_rend_spec :
  wp (dfk_list_rend l) m (fun it m' => at_rit it [] xs /\ m' = m).
Proof using Hrep Hl. wp_chk. by eapply (wp_return_rit _ [] xs). Qed.

Lemma wp_hook_at pre x suf (Q : dfk_list_hook_t -> mem -> Prop) :
  xs = pre ++ x :: suf -> Q (Hook (head_or 0 suf) (last_or 0 pre)) m ->
  wp (deref hooks_of x) m Q.
Proof using Hrep Hl.
  intros Hxs HQ. destruct (hook_at _ _ Hrep _ _ Hl _ _ _ Hxs).
  by eapply wp_deref.
Qed.

Lemma dfk_list_it_next_spec it pre x suf :
  xs = pre ++ x :: suf -> at_it it pre (x :: suf) ->
  wp (dfk_list_it_next it) m (fun it' m' => at_it it' (pre ++ [x]) suf /\ m' = m).
Proof using Hrep Hl.
  intros Hxs Hit. apply wp_checks; [by eapply checks_at|intros _].
  apply wp_bind. rewrite Hit. eapply wp_hook_at; [done|].
  eapply (wp_return_it _ (pre ++ [x]) suf); [done| |done]. by rewrite <- app_assoc.
Qed.

Lemma dfk_list_rit_next_spec it pre x suf :
  xs = pre ++ x :: suf -> at_rit it (pre ++ [x]) suf ->
  wp (dfk_list_rit_next it) m (fun it' m' => at_rit it' pre (x :: suf) /\ m' = m).
Proof using Hrep Hl.
  intros Hxs Hit. apply wp_checks; [eapply checks_rat; [done|by rewrite <- app_assoc]|intros _].
  apply wp_bind. rewrite Hit, last_or_snoc. eapply wp_hook_at; [done|].
  by eapply (wp_return_rit _ pre (x :: suf)).
Qed.

End iterators.

Section comparisons.
Context (m : mem) (σ : lspec) (l : Z) (xs : list Z).
Context (Hrep : rep m σ) (Hl : chains σ !! l = Some xs).

Lemma dfk_list_it_equal_spec it1 pre1 suf1 it2 pre2 suf2 :
  at_it it1 pre1 suf1 -> xs = pre1 ++ suf1 ->
  at_it it2 pre2 suf2 -> xs = pre2 ++ suf2 ->
  wp (dfk_list_it_equal it1 it2) m
    (fun r m' => r = bool_decide (suf1 = suf2) /\ m' = m).
Proof using Hrep Hl.
  intros Hi1 Hx1 Hi2 Hx2. apply wp_checks; [by eapply checks_at|intros _].
  apply wp_checks; [by eapply checks_at|intros _]. apply wp_ret.
  rewrite Hi1, Hi2. split; [|done]. by eapply head_or_eqb.
Qed.

Lemma dfk_list_rit_equal_spec it1 pre1 suf1 it2 pre2 suf2 :
  at_rit it1 pre1 suf1 -> xs = pre1 ++ suf1 ->
  at_rit it2 pre2 suf2 -> xs = pre2 ++ suf2 ->
  wp (dfk_list_rit_equal it1 it2) m
    (fun r m' => r = bool_decide (pre1 = pre2) /\ m' = m).
Proof using Hrep Hl.
  intros Hi1 Hx1 Hi2 Hx2. apply wp_checks; [by eapply checks_rat|intros _].
  apply wp_checks; [by eapply checks_rat|intros _]. apply wp_ret.
  rewrite Hi1, Hi2. split; [|done]. by eapply last_or_eqb.
Qed.

Lemma dfk_list_it_from_value_spec pre x suf : xs = pre ++ x :: suf ->
  wp (dfk_list_it_from_value l x) m (fun it m' => at_it it pre (x :: suf) /\ m' = m).
Proof using Hrep Hl.
  intros Hxs. assert (x ∈ xs) by (rewrite Hxs; set_solver).
  wp_chk. wp_chk. apply wp_checks; [eapply checks_it; [done..|by right]|intros _].
  do 2 wp_chk. by apply wp_ret.
Qed.

Lemma dfk_list_rit_from_value_spec pre x suf : xs = pre ++ x :: suf ->
  wp (dfk_list_rit_from_value l x) m (fun it m' => at_rit it (pre ++ [x]) suf /\ m' = m).
Proof using Hrep Hl.
  intros Hxs. assert (x ∈ xs) by (rewrite Hxs; set_solver).
  wp_chk. wp_chk. apply wp_checks; [eapply checks_rit; [done..|by right]|intros _].
  do 2 wp_chk. apply wp_ret. split; [|done]. unfold at_rit. by rewrite last_or_snoc.
Qed.
End comparisons.

(** ** Insertion *)

(** Symbolic execution with the fields of the hooks read out. *)
Ltac ptr_steps := repeat (list_step; cbn [_next _prev]).

Lemma dfk_list_append_spec m σ l h xs :
  rep m σ -> chains σ !! l = Some xs -> h ∈ spare σ ->
  wp (dfk_list_append l h) m
    (fun _ m' => rep m' (rechain l (xs ++ [h]) (occupy h σ) σ)).
Proof.
  intros Hrep Hl Hh. insert_facts Hrep Hl Hh.
  wp_chk. destruct m as [ls hs]. cbn in Hobj, Hvh. list_steps.
  destruct xs as [|t xs _] using rev_ind.
  - list_steps. eapply (wp_linked_in checks_list checks_hook _ _ _ _ [] h []); [done..|obj_eq|linked|done].
  - destruct (hook_at _ _ Hrep _ _ Hl xs t [] eq_refl) as [Ht0 Hvt]. cbn in Hvt.
    assert (head_or 0 (xs ++ [t]) <> 0) by (eapply head_ne; [done..|by destruct xs]).
    assert (h <> t) by set_solver.
    cbn [list_obj _tail _head]. rewrite last_or_snoc. list_steps.
    eapply (wp_linked_in checks_list checks_hook _ _ _ _ (xs ++ [t]) h []);
      [done|by rewrite app_nil_r|done|obj_eq|linked|done].
Qed.

Lemma dfk_list_prepend_spec m σ l h xs :
  rep m σ -> chains σ !! l = Some xs -> h ∈ spare σ ->
  wp (dfk_list_prepend l h) m
    (fun _ m' => rep m' (rechain l (h :: xs) (occupy h σ) σ)).
Proof.
  intros Hrep Hl Hh. insert_facts Hrep Hl Hh.
  wp_chk. destruct m as [ls hs]. cbn in Hobj, Hvh. list_steps.
  destruct xs as [|x xs].
  - list_steps. eapply (wp_linked_in checks_list checks_hook _ _ _ _ [] h []); [done..|obj_eq|linked|done].
  - destruct (hook_at _ _ Hrep _ _ Hl [] x xs eq_refl) as [Hx0 Hvx]. cbn in Hvx.
    assert (last_or 0 (x :: xs) <> 0) by (eapply last_ne; done).
    assert (h <> x) by set_solver.
    cbn [list_obj _tail _head]. rewrite head_or_cons. list_steps.
    eapply (wp_linked_in checks_list checks_hook _ _ _ _ [] h (x :: xs)); [done..|obj_eq|linked|done].
Qed.

Lemma dfk_list_insert_spec m σ l h it pre suf :
  rep m σ -> chains σ !! l = Some (pre ++ suf) -> h ∈ spare σ -> at_it it pre suf ->
  wp (dfk_list_insert l h it) m
    (fun _ m' => rep m' (rechain l (pre ++ h :: suf) (occupy h σ) σ)).
Proof.
  intros Hrep Hl Hh Hit. insert_facts Hrep Hl Hh.
  wp_chk. apply wp_bind, wp_assert; [ptr_cond|].
  apply wp_checks; [by eapply checks_at|intros _].
  assert (forall m' F, rep m' (rechain l (pre ++ h :: suf) F σ) ->
    wp (dfk__list_it_check_invariants it) m'
      (fun _ m' => rep m' (rechain l (pre ++ h :: suf) F σ))) as Hck.
  { intros m' F Hr. eapply wp_mono; [eapply checks_it; [done|apply rechain_at|]|by intros _ ? ->].
    rewrite Hit. destruct (head_or_in (pre ++ suf) pre suf eq_refl); set_solver. }
  rewrite Hit. destruct m as [ls hs]. cbn in Hobj, Hvh.
  destruct pre as [|a pre _] using rev_ind; destruct suf as [|b suf].
  - list_steps. eapply (wp_linked_in_then checks_list checks_hook) with (pre := []) (suf := []); [done..|obj_eq|linked|auto].
  - destruct (hook_at _ _ Hrep _ _ Hl [] b suf eq_refl) as [Hb0 Hvb]. cbn in Hvb.
    assert (h <> b) by set_solver. rewrite head_or_cons. list_steps.
    eapply (wp_linked_in_then checks_list checks_hook) with (pre := []) (suf := b :: suf); [done..|obj_eq|linked|auto].
  - destruct (hook_at _ _ Hrep _ _ Hl pre a [] (app_nil_r _)) as [Ha0 Hva]. cbn in Hva.
    assert (h <> a) by set_solver. rewrite app_nil_r in Hobj.
    assert (_tail (list_obj (pre ++ [a])) = a) as Htl by apply last_or_snoc.
    list_steps. rewrite Htl. list_steps.
    eapply (wp_linked_in_then checks_list checks_hook) with (pre := pre ++ [a]) (suf := []); [done..|obj_eq|linked|auto].
  - destruct (seg_neighbours _ _ Hrep _ _ Hl pre a b suf h eq_refl Hni) as (Ha0 & Hb0 & Hva & Hvb & ? & ? & ?).
    unfold enc in Hva, Hvb. cbn in Hva, Hvb.
    rewrite head_or_cons. ptr_steps.
    eapply (wp_linked_in_then checks_list checks_hook) with (pre := pre ++ [a]) (suf := b :: suf); [done..|obj_eq|linked|auto].
Qed.

Lemma dfk_list_rinsert_spec m σ l h it pre suf :
  rep m σ -> chains σ !! l = Some (pre ++ suf) -> h ∈ spare σ -> at_rit it pre suf ->
  wp (dfk_list_rinsert l h it) m
    (fun _ m' => rep m' (rechain l (pre ++ h :: suf) (occupy h σ) σ)).
Proof.
  intros Hrep Hl Hh Hit. insert_facts Hrep Hl Hh.
  wp_chk. apply wp_bind, wp_assert; [ptr_cond|].
  apply wp_checks; [by eapply checks_rat|intros _].
  assert (forall m' F, rep m' (rechain l (pre ++ h :: suf) F σ) ->
    wp (dfk__list_rit_check_invariants it) m'
      (fun _ m' => rep m' (rechain l (pre ++ h :: suf) F σ))) as Hck.
  { intros m' F Hr. eapply wp_mono; [eapply checks_rit; [done|apply rechain_at|]|by intros _ ? ->].
    rewrite Hit. destruct (last_or_in (pre ++ suf) pre suf eq_refl); set_solver. }
  rewrite Hit. destruct m as [ls hs]. cbn in Hobj, Hvh.
  destruct pre as [|a pre _] using rev_ind; destruct suf as [|b suf].
  - list_steps. eapply (wp_linked_in_then checks_list checks_hook) with (pre := []) (suf := []); [done..|obj_eq|linked|auto].
  - destruct (hook_at _ _ Hrep _ _ Hl [] b suf eq_refl) as [Hb0 Hvb]. cbn in Hvb.
    pose proof (last_ne _ _ Hrep _ _ Hl) as Ht0.
    assert (h <> b) by set_solver. cbn [app] in *.
    assert (_tail (list_obj (b :: suf)) <> 0) by by apply Ht0.
    list_steps. change (_head (list_obj (b :: suf))) with b. list_steps.
    eapply (wp_linked_in_then checks_list checks_hook) with (pre := []) (suf := b :: suf); [done..|obj_eq|linked|auto].
  - destruct (hook_at _ _ Hrep _ _ Hl pre a [] (app_nil_r _)) as [Ha0 Hva]. cbn in Hva.
    assert (h <> a) by set_solver. rewrite app_nil_r in Hobj.
    rewrite last_or_snoc. ptr_steps.
    eapply (wp_linked_in_then checks_list checks_hook) with (pre := pre ++ [a]) (suf := []); [done..|obj_eq|linked|auto].
  - destruct (seg_neighbours _ _ Hrep _ _ Hl pre a b suf h eq_refl Hni) as (Ha0 & Hb0 & Hva & Hvb & ? & ? & ?).
    unfold enc in Hva, Hvb. cbn in Hva, Hvb. rewrite last_or_snoc. ptr_steps.
    eapply (wp_linked_in_then checks_list checks_hook) with (pre := pre ++ [a]) (suf := b :: suf); [done..|obj_eq|linked|auto].
Qed.

(** ** Removal *)

Ltac erase_steps := repeat (list_step; cbn [_next _prev _head _tail _size set_head set_tail set_size]).

Lemma dfk_list_erase_spec m σ l x it pre suf :
  rep m σ -> chains σ !! l = Some (pre ++ x :: suf) -> at_it it pre (x :: suf) ->
  wp (dfk_list_erase l it) m
    (fun _ m' => rep m' (rechain l (pre ++ suf) (release x σ) σ)).
Proof.
  intros Hrep Hl Hit.
  pose proof (list_ne _ _ Hrep _ _ Hl) as Hl0.
  pose proof (list_at _ _ Hrep _ _ Hl) as Hobj. rewrite list_obj_ends in Hobj.
  pose proof (chain_nodup _ _ Hrep _ _ Hl) as Hnd.
  destruct (hook_at _ _ Hrep _ _ Hl pre x suf eq_refl) as [Hx0 Hvx].
  apply NoDup_app in Hnd as (Hnp & Hd & [Hxs Hns]%NoDup_cons).
  assert (x ∉ pre) as Hxp by (intros ?; apply (Hd x); set_solver).
  wp_chk. apply wp_checks; [by eapply checks_at|intros _].
  apply wp_bind. eapply wp_mono; [by eapply (dfk_list_size_spec checks_list)|].
  intros n s [-> ->]. cbn beta zeta.
  apply wp_bind, wp_assert.
  { rewrite length_app. cbn. destruct (Z.eqb_spec (Z.of_nat (length pre + S (length suf))) 0); [lia|done]. }
  rewrite Hit, head_or_cons. destruct m as [ls hs]. cbn in Hobj, Hvx.
  destruct pre as [|a pre _] using rev_ind; destruct suf as [|b suf].
  - autorewrite with dlist in Hobj. erase_steps. eapply (wp_linked_out checks_list _ _ _ _ [] x []); [done..|obj_eq|linked].
  - destruct (hook_at _ _ Hrep _ _ Hl [x] b suf eq_refl) as [Hb0 Hvb]. cbn in Hvb.
    pose proof (last_or_ne x x _ Hxs) as Hlast. autorewrite with dlist in Hobj, Hlast, Hvx.
    assert (x <> last_or b suf) by by apply Hlast. assert (x <> b) by set_solver.
    erase_steps. eapply (wp_linked_out checks_list _ _ _ _ [] x (b :: suf)); [done..|obj_eq|linked].
  - destruct (hook_at _ _ Hrep _ _ Hl pre a [x]) as [Ha0 Hva]; [by rewrite <- app_assoc|].
    cbn in Hva. pose proof (head_or_ne x x _ Hxp) as Hhead.
    autorewrite with dlist in Hobj, Hhead, Hvx.
    assert (head_or a pre <> x) by (apply not_eq_sym, Hhead; by destruct pre).
    assert (x <> a) by set_solver.
    erase_steps. eapply (wp_linked_out checks_list _ _ _ _ (pre ++ [a]) x []); [done..|obj_eq|linked].
  - destruct (hook_at _ _ Hrep _ _ Hl pre a (x :: b :: suf)) as [Ha0 Hva]; [by rewrite <- app_assoc|].
    destruct (hook_at _ _ Hrep _ _ Hl ((pre ++ [a]) ++ [x]) b suf) as [Hb0 Hvb]; [by rewrite <- !app_assoc|].
    pose proof (last_or_ne x x _ Hxs) as Hlast. pose proof (head_or_ne x x _ Hxp) as Hhead.
    autorewrite with dlist in Hobj, Hlast, Hhead, Hvx, Hva, Hvb.
    assert (x <> last_or b suf) by by apply Hlast.
    assert (x <> head_or a pre) by (apply Hhead; by destruct pre).
    assert (head_or a pre <> last_or b suf).
    { intros Heq. apply (Hd (head_or a pre)); [|rewrite Heq].
      - rewrite <- (head_or_snoc 0). apply head_or_elem. by destruct pre.
      - rewrite elem_of_cons. right. rewrite <- (last_or_cons 0). by apply last_or_elem. }
    assert (x <> a /\ x <> b /\ a <> b) as (? & ? & ?).
    { split_and!; [set_solver..|]. intros ->. apply (Hd b); set_solver. }
    erase_steps. eapply (wp_linked_out checks_list _ _ _ _ (pre ++ [a]) x (b :: suf)); [done..|obj_eq|linked].
Qed.

Lemma dfk_list_rerase_spec m σ l x it pre suf :
  rep m σ -> chains σ !! l = Some (pre ++ x :: suf) -> at_rit it (pre ++ [x]) suf ->
  wp (dfk_list_rerase l it) m
    (fun _ m' => rep m' (rechain l (pre ++ suf) (release x σ) σ)).
Proof.
  intros Hrep Hl Hit. unfold at_rit in Hit. rewrite last_or_snoc in Hit.
  wp_chk. apply wp_checks; [|intros _].
  { eapply checks_rit; [done..|]. rewrite Hit. set_solver. }
  apply wp_bind. eapply wp_mono; [by eapply dfk_list_erase_spec|].
  intros [] m' Hrep'. cbn beta.
  by apply (wp_checked checks_list).
Qed.

Lemma dfk_list_pop_front_spec m σ l x xs :
  rep m σ -> chains σ !! l = Some (x :: xs) ->
  wp (dfk_list_pop_front l) m (fun _ m' => rep m' (rechain l xs (release x σ) σ)).
Proof.
  intros Hrep Hl. wp_chk. eapply (wp_nonempty checks_list); [done..|].
  apply wp_bind. eapply wp_mono; [by eapply dfk_list_begin_spec|].
  intros it s [Hit ->]. cbn beta.
  apply wp_bind. eapply wp_mono; [by eapply (dfk_list_erase_spec m σ l x it [] xs)|].
  intros [] m' Hrep'. cbn beta.
  by apply (wp_checked checks_list).
Qed.

Lemma dfk_list_pop_back_spec m σ l x xs :
  rep m σ -> chains σ !! l = Some (xs ++ [x]) ->
  wp (dfk_list_pop_back l) m (fun _ m' => rep m' (rechain l xs (release x σ) σ)).
Proof.
  intros Hrep Hl. wp_chk. eapply (wp_nonempty checks_list); [done..|by destruct xs|].
  apply wp_bind. eapply wp_mono; [by eapply dfk_list_rbegin_spec|].
  intros it s [Hit ->]. cbn beta.
  apply wp_bind. eapply wp_mono; [by eapply (dfk_list_rerase_spec m σ l x it xs [])|].
  intros [] m' Hrep'. rewrite app_nil_r in Hrep'. cbn beta.
  by apply (wp_checked checks_list).
Qed.

(** ** Hooks *)



Lemma dfk_list_hook_init_spec m σ h :
  rep m σ -> valid_addr h -> unchained σ h ->
  wp (dfk_list_hook_init h) m (fun _ m' => rep m' (LSpec (chains σ) (release h σ))).
Proof.
  intros Hrep Hh Hun. assert (h <> 0) by (unfold valid_addr in Hh; lia).
  destruct m as [ls hs]. unfold dfk_list_hook_init. list_steps.
  eapply wp_mono; [eapply checks_new_hook; [done|cbn; apply lookup_insert_eq]|intros _ ? ->].
  by apply (rep_new_hook (LMem ls hs)).
Qed.

(** ** The instance *)

#[export] Instance ptr_laws : ListLaws mem dfk_list_it.
Proof.
  refine {| lrep := rep; it_at := at_it; rit_at := at_rit |}.
  - intros m σ Hrep. by eapply sr_wf.
  - done.
  - done.
  - exact (dfk_list_init_spec checks_list).
  - exact dfk_list_hook_init_spec.
  - exact hook_dispose_spec.
  - intros. by eapply (dfk_list_front_spec checks_list).
  - intros. by eapply (dfk_list_back_spec checks_list).
  - intros. by eapply (dfk_list_size_spec checks_list).
  - intros. by eapply (dfk_list_empty_spec checks_list).
  - exact dfk_list_append_spec.
  - exact dfk_list_prepend_spec.
  - exact dfk_list_insert_spec.
  - exact dfk_list_rinsert_spec.
  - exact dfk_list_erase_spec.
  - exact dfk_list_pop_front_spec.
  - exact dfk_list_pop_back_spec.
  - exact (dfk_list_clear_spec checks_list).
  - exact (dfk_list_move_spec checks_list).
  - exact (dfk_list_swap_spec checks_list).
  - intros. by eapply dfk_list_begin_spec.
  - intros. by eapply dfk_list_end_spec.
  - intros. by eapply dfk_list_it_next_spec.
  - intros. by eapply (dfk_list_it_equal_spec m σ l xs).
  - intros. by eapply dfk_list_it_from_value_spec.
  - intros. by eapply dfk_list_rbegin_spec.
  - intros. by eapply dfk_list_rend_spec.
  - intros. by eapply dfk_list_rit_next_spec.
  - intros. by eapply (dfk_list_rit_equal_spec m σ l xs).
  - intros. by eapply dfk_list_rit_from_value_spec.
Defined.

#[export] Instance ptr_stable : IterStable mem dfk_list_it.
Proof. by intros it pre pre' suf. Qed.
