(* ===== verification/ListXor.v ===== *)
(** * [list.c], memory-optimised layout: one XOR-ed pointer per hook

    The functions of [src/src/list.c] as compiled with
    [DFK_LIST_MEMORY_OPTIMIZED] on ([DFK_LIST_CONSTANT_TIME_SIZE] on,
    [DFK_DEBUG] off, assertions on).  A hook stores the XOR of the addresses of
    its neighbours, so an iterator carries the hook it came from. *)

From S2P Require Import Prelude ListSpec ListSeg ListCheck ListCommon.

Record xor_hook := XHook { _p : Z }.
Record xor_it := XIt { x_prev : Z; x_value : Z }.

Abbreviation xmem := (lmem xor_hook).

Definition DFK_PTR_XOR (x y : Z) : Z := Z.lxor x y.
Definition DFK_PTR_XOR3 (x y z : Z) : Z := Z.lxor (Z.lxor x y) z.

(** [hook->_p = f(hook->_p)] *)
Definition map_p (f : Z -> Z) (h : xor_hook) : xor_hook := XHook (f (_p h)).

(** ** Invariant checks *)

(** [nextpi = i; i = DFK_PTR_XOR(pi, i->_p); pi = nextpi] *)
Definition across (p : Z) (h : xor_hook) : Z := DFK_PTR_XOR p (_p h).

Definition dfk__list_check_invariants (list : Z) : M xmem unit :=
  c_assert (nonnull list);;
  l ← deref lists_of list;
  if isnull (_head l) || isnull (_tail l) then
    c_assert (isnull (_head l));;
    c_assert (isnull (_tail l));;
    c_assert (_size l =? 0)
  else if _head l =? _tail l then
    hd ← deref hooks_of (_head l);
    c_assert (isnull (_p hd));;
    c_assert (_size l =? 1)
  else
    check_walk across (_head l) (_tail l) (_size l);;
    check_walk across (_tail l) (_head l) (_size l).

Definition dfk__list_hook_check_invariants (hook : Z) : M xmem unit :=
  c_assert (nonnull hook).

Definition dfk__list_it_check_invariants (it : xor_it) : M xmem unit :=
  when (nonnull (x_value it)) (dfk__list_hook_check_invariants (x_value it)).

Definition dfk__list_rit_check_invariants (rit : xor_it) : M xmem unit :=
  when (nonnull (x_value rit)) (dfk__list_hook_check_invariants (x_value rit)).

(** ** Initialisation and observers *)

Definition dfk_list_init := ListCommon.dfk_list_init dfk__list_check_invariants.

Definition dfk_list_hook_init (hook : Z) : M xmem unit :=
  c_assert (nonnull hook);;
  store hooks_of hook (XHook 0);;
  dfk__list_hook_check_invariants hook.

Definition dfk_list_front := ListCommon.dfk_list_front dfk__list_check_invariants.

Definition dfk_list_back := ListCommon.dfk_list_back dfk__list_check_invariants.

Definition dfk_list_size := ListCommon.dfk_list_size dfk__list_check_invariants.

Definition dfk_list_empty := ListCommon.dfk_list_empty dfk__list_check_invariants.

(** ** Iterators *)

Definition dfk_list_begin (list : Z) : M xmem xor_it :=
  dfk__list_check_invariants list;;
  l ← deref lists_of list;
  let it := XIt 0 (_head l) in
  dfk__list_it_check_invariants it;;
  mret it.

Definition dfk_list_end (list : Z) : M xmem xor_it :=
  dfk__list_check_invariants list;;
  let it := XIt 0 0 in
  dfk__list_it_check_invariants it;;
  mret it.

Definition dfk_list_it_next (it : xor_it) : M xmem xor_it :=
  dfk__list_it_check_invariants it;;
  h ← deref hooks_of (x_value it);
  let it' := XIt (x_value it) (DFK_PTR_XOR (x_prev it) (_p h)) in
  dfk__list_it_check_invariants it';;
  mret it'.

(** [while (it->value != value) dfk_list_it_next(it)]: every hop visits another
    hook, so the number of hooks bounds the search. *)
Definition seek_body (next : xor_it -> M xmem xor_it) (value : Z) (it : xor_it) :
    M xmem (xor_it + xor_it) :=
  if x_value it =? value then mret (inr it) else it' ← next it; mret (inl it').

Definition seek (next : xor_it -> M xmem xor_it) (value : Z) (it : xor_it) :
    M xmem xor_it :=
  fuel ← gets (fun m => S (size (hooks m)));
  loop fuel (seek_body next value) it.

Definition dfk_list_it_from_value (list value : Z) : M xmem xor_it :=
  dfk__list_check_invariants list;;
  dfk__list_hook_check_invariants value;;
  it0 ← dfk_list_begin list;
  it ← seek dfk_list_it_next value it0;
  dfk__list_it_check_invariants it;;
  dfk__list_hook_check_invariants value;;
  dfk__list_check_invariants list;;
  mret it.

Definition dfk_list_it_equal (lhs rhs : xor_it) : M xmem bool :=
  dfk__list_it_check_invariants lhs;;
  dfk__list_it_check_invariants rhs;;
  mret (x_value lhs =? x_value rhs).

Definition dfk_list_rbegin (list : Z) : M xmem xor_it :=
  dfk__list_check_invariants list;;
  l ← deref lists_of list;
  let rit := XIt 0 (_tail l) in
  dfk__list_rit_check_invariants rit;;
  mret rit.

Definition dfk_list_rend (list : Z) : M xmem xor_it :=
  dfk__list_check_invariants list;;
  let rit := XIt 0 0 in
  dfk__list_rit_check_invariants rit;;
  mret rit.

Definition dfk_list_rit_next (rit : xor_it) : M xmem xor_it :=
  dfk__list_rit_check_invariants rit;;
  h ← deref hooks_of (x_value rit);
  let rit' := XIt (x_value rit) (DFK_PTR_XOR (x_prev rit) (_p h)) in
  dfk__list_rit_check_invariants rit';;
  mret rit'.

Definition dfk_list_rit_from_value (list value : Z) : M xmem xor_it :=
  dfk__list_check_invariants list;;
  dfk__list_hook_check_invariants value;;
  rit0 ← dfk_list_rbegin list;
  rit ← seek dfk_list_rit_next value rit0;
  dfk__list_rit_check_invariants rit;;
  dfk__list_hook_check_invariants value;;
  dfk__list_check_invariants list;;
  mret rit.

Definition dfk_list_rit_equal (lhs rhs : xor_it) : M xmem bool :=
  dfk__list_rit_check_invariants lhs;;
  dfk__list_rit_check_invariants rhs;;
  mret (x_value lhs =? x_value rhs).

(** ** Insertion *)

Definition dfk_list_append (list hook : Z) : M xmem unit :=
  dfk__list_check_invariants list;;
  c_assert (nonnull hook);;
  l ← deref lists_of list;
  update hooks_of hook (map_p (fun _ => _tail l));;
  when (nonnull (_tail l))
    (update hooks_of (_tail l) (map_p (fun p => DFK_PTR_XOR p hook)));;
  when (isnull (_head l)) (update lists_of list (set_head hook));;
  update lists_of list (set_tail hook);;
  update lists_of list (fun l => set_size (to_size (_size l + 1)) l);;
  dfk__list_check_invariants list;;
  dfk__list_hook_check_invariants hook.

Definition dfk_list_prepend (list hook : Z) : M xmem unit :=
  dfk__list_check_invariants list;;
  c_assert (nonnull hook);;
  l ← deref lists_of list;
  update hooks_of hook (map_p (fun _ => _head l));;
  when (nonnull (_head l))
    (update hooks_of (_head l) (map_p (fun p => DFK_PTR_XOR p hook)));;
  update lists_of list (set_head hook);;
  when (isnull (_tail l)) (update lists_of list (set_tail hook));;
  update lists_of list (fun l => set_size (to_size (_size l + 1)) l);;
  dfk__list_check_invariants list;;
  dfk__list_hook_check_invariants hook.

Definition dfk_list_insert (list hook : Z) (position : xor_it) : M xmem unit :=
  dfk__list_check_invariants list;;
  c_assert (nonnull hook);;
  dfk__list_it_check_invariants position;;
  l ← deref lists_of list;
  before ←
    (if nonnull (x_value position) then
       update hooks_of (x_value position)
         (map_p (fun p => DFK_PTR_XOR3 p (x_prev position) hook));;
       mret (x_prev position)
     else if nonnull (_tail l) then mret (_tail l)
     else mret 0);
  when (nonnull before)
    (update hooks_of before (map_p (fun p => DFK_PTR_XOR3 p hook (x_value position))));;
  update hooks_of hook (map_p (fun _ => DFK_PTR_XOR before (x_value position)));;
  when (isnull before) (update lists_of list (set_head hook));;
  when (isnull (x_value position)) (update lists_of list (set_tail hook));;
  update lists_of list (fun l => set_size (to_size (_size l + 1)) l);;
  dfk__list_check_invariants list;;
  dfk__list_hook_check_invariants hook;;
  dfk__list_it_check_invariants position.

Definition dfk_list_rinsert (list hook : Z) (position : xor_it) : M xmem unit :=
  dfk__list_check_invariants list;;
  c_assert (nonnull hook);;
  dfk__list_rit_check_invariants position;;
  l ← deref lists_of list;
  before ←
    (if nonnull (x_value position) then
       update hooks_of (x_value position)
         (map_p (fun p => DFK_PTR_XOR3 p (x_prev position) hook));;
       mret (x_prev position)
     else if nonnull (_tail l) then mret (_head l)
     else mret 0);
  when (nonnull before)
    (update hooks_of before (map_p (fun p => DFK_PTR_XOR3 p hook (x_value position))));;
  update hooks_of hook (map_p (fun _ => DFK_PTR_XOR before (x_value position)));;
  when (isnull (x_value position)) (update lists_of list (set_head hook));;
  when (isnull before) (update lists_of list (set_tail hook));;
  update lists_of list (fun l => set_size (to_size (_size l + 1)) l);;
  dfk__list_check_invariants list;;
  dfk__list_hook_check_invariants hook;;
  dfk__list_rit_check_invariants position.

(** ** Removal *)

Definition dfk_list_clear := ListCommon.dfk_list_clear dfk__list_check_invariants.

Definition dfk_list_erase (list : Z) (it : xor_it) : M xmem unit :=
  dfk__list_check_invariants list;;
  dfk__list_it_check_invariants it;;
  size ← dfk_list_size list;
  c_assert (negb (size =? 0));;
  let hook := x_value it in
  l ← deref lists_of list;
  (if _head l =? _tail l then
     c_assert (_head l =? hook);;
     update lists_of list (set_head 0);;
     update lists_of list (set_tail 0)
   else if hook =? _head l then
     h ← deref hooks_of hook;
     update lists_of list (set_head (_p h));;
     update hooks_of (_p h) (map_p (fun p => DFK_PTR_XOR p hook))
   else if hook =? _tail l then
     h ← deref hooks_of hook;
     update lists_of list (set_tail (_p h));;
     update hooks_of (_p h) (map_p (fun p => DFK_PTR_XOR p hook))
   else
     c_assert (negb (hook =? _head l));;
     c_assert (negb (hook =? _tail l));;
     h ← deref hooks_of hook;
     let next := DFK_PTR_XOR (_p h) (x_prev it) in
     c_assert (nonnull next);;
     c_assert (nonnull (x_prev it));;
     update hooks_of next (map_p (fun p => DFK_PTR_XOR3 p hook (x_prev it)));;
     update hooks_of (x_prev it) (map_p (fun p => DFK_PTR_XOR3 p hook next)));;
  update lists_of list (fun l => set_size (to_size (_size l - 1)) l);;
  dfk__list_check_invariants list.

Definition dfk_list_rerase (list : Z) (rit : xor_it) : M xmem unit :=
  dfk__list_check_invariants list;;
  dfk__list_rit_check_invariants rit;;
  let it := XIt (DFK_PTR_XOR (x_prev rit) (x_value rit)) (x_value rit) in
  dfk_list_erase list it;;
  dfk__list_check_invariants list.

Definition dfk_list_pop_front (list : Z) : M xmem unit :=
  dfk__list_check_invariants list;;
  size ← dfk_list_size list;
  c_assert (negb (size =? 0));;
  it ← dfk_list_begin list;
  dfk_list_erase list it;;
  dfk__list_check_invariants list.

Definition dfk_list_pop_back (list : Z) : M xmem unit :=
  dfk__list_check_invariants list;;
  size ← dfk_list_size list;
  c_assert (negb (size =? 0));;
  rit ← dfk_list_rbegin list;
  dfk_list_rerase list rit;;
  dfk__list_check_invariants list.

(** ** Whole lists *)

Definition dfk_list_move := ListCommon.dfk_list_move dfk__list_check_invariants.

Definition dfk_list_swap := ListCommon.dfk_list_swap dfk__list_check_invariants.

#[export] Instance xor_ops : ListOps xmem xor_it := {|
  list_init := dfk_list_init;
  hook_init := dfk_list_hook_init;
  hook_dispose := dispose hooks_of;
  list_front := dfk_list_front;
  list_back := dfk_list_back;
  list_append := dfk_list_append;
  list_prepend := dfk_list_prepend;
  list_insert := dfk_list_insert;
  list_rinsert := dfk_list_rinsert;
  list_clear := dfk_list_clear;
  list_erase := dfk_list_erase;
  list_rerase := dfk_list_rerase;
  list_pop_front := dfk_list_pop_front;
  list_pop_back := dfk_list_pop_back;
  list_size := dfk_list_size;
  list_empty := dfk_list_empty;
  list_move := dfk_list_move;
  list_swap := dfk_list_swap;
  list_begin := dfk_list_begin;
  list_end := dfk_list_end;
  list_it_from_value := dfk_list_it_from_value;
  list_it_next := dfk_list_it_next;
  list_it_equal := dfk_list_it_equal;
  list_rbegin := dfk_list_rbegin;
  list_rend := dfk_list_rend;
  list_rit_from_value := dfk_list_rit_from_value;
  list_rit_next := dfk_list_rit_next;
  list_rit_equal := dfk_list_rit_equal;
  it_value := x_value
|}.
