(* ===== verification/ListXorSpec.v ===== *)
(** * The memory-optimised layout implements the list interface

    [seg_rep enc]: a hook whose predecessor is [p] and successor [q] stores
    [p] XOR [q].  Every function of [ListXor] but [dfk_list_rerase] is proved
    against the abstract operation of [ListSpec]; [dfk_list_rerase] is proved
    for the last hook, and shown wrong for the others. *)

From S2P Require Import Prelude ListSpec ListSeg ListCheck ListCommon ListXor.

Definition enc (p q : Z) : xor_hook := XHook (DFK_PTR_XOR p q).
Abbreviation rep := (seg_rep enc).

(** ** Exclusive or *)

Ltac xor :=
  unfold DFK_PTR_XOR3, DFK_PTR_XOR; apply Z.bits_inj'; intros ? _;
  rewrite ?Z.lxor_spec, ?Z.bits_0;
  repeat match goal with |- context [Z.testbit ?a ?b] => destruct (Z.testbit a b) end;
  reflexivity.

Lemma across_fwd p q : across p (enc p q) = q.
Proof. unfold across, enc. cbn [_p]. xor. Qed.
Lemma across_bwd p q : across q (enc p q) = p.
Proof. unfold across, enc. cbn [_p]. xor. Qed.

Ltac xlinked :=
  linked_by ltac:(simplify_map_eq; unfold map_p, enc; cbn [_p]; do 2 f_equal; xor).

(** ** Reading the lists of a memory *)
Section facts.
Context (m : xmem) (σ : lspec) (Hrep : rep m σ).
Context (l : Z) (xs : list Z) (Hl : chains σ !! l = Some xs).

Lemma xor_hook_at pre x suf : xs = pre ++ x :: suf ->
  x <> 0 /\ hooks m !! x = Some (enc (last_or 0 pre) (head_or 0 suf)).
Proof using Hrep Hl. apply (seg_hook_at _ _ Hrep _ _ Hl). Qed.

Lemma xor_links_fwd : links across (hooks m) xs.
Proof using Hrep Hl.
  apply links_split. intros pre x suf Hsuf.
  destruct (xor_hook_at pre x suf) as [Hx Hv]; [done|].
  split; [done|]. eexists. split; [done|]. apply across_fwd.
Qed.

Lemma xor_links_bwd : links across (hooks m) (reverse xs).
Proof using Hrep Hl.
  apply links_split. intros pre' x suf' Hpre.
  apply (f_equal reverse) in Hpre.
  rewrite reverse_involutive, reverse_app, reverse_cons, <- app_assoc in Hpre.
  destruct (xor_hook_at (reverse suf') x (reverse pre')) as [Hx Hv]; [done|].
  split; [done|]. eexists. split; [done|]. unfold last_or, head_or in *.
  rewrite last_reverse, head_reverse. apply across_bwd.
Qed.
End facts.

(** ** The assertions hold *)

Lemma xor_checks_list : good_check enc dfk__list_check_invariants.
Proof.
  intros m σ l xs Hrep Hl.
  pose proof (list_ne _ _ Hrep _ _ Hl). pose proof (list_at _ _ Hrep _ _ Hl) as Hobj.
  pose proof (chain_size _ _ Hrep _ _ Hl) as [Hsz Hmod].
  pose proof (chain_nodup _ _ Hrep _ _ Hl) as Hnd.
  unfold checks, dfk__list_check_invariants.
  apply wp_bind, wp_assert; [by apply nonnull_true|].
  apply wp_bind. eapply wp_deref; [done..|].
  destruct xs as [|x ys]; [by cbn; repeat apply wp_bind; apply wp_assert|].
  destruct (xor_hook_at _ _ Hrep _ _ Hl [] x ys eq_refl) as [Hx Hvx].
  destruct ys as [|y ys _] using rev_ind.
  - cbn. unfold head_or, last_or. cbn. rewrite isnull_false, Z.eqb_refl by done. cbn.
    apply wp_bind. by eapply wp_deref.
  - destruct (xor_hook_at _ _ Hrep _ _ Hl (x :: ys) y [] eq_refl) as [Hy Hvy].
    pose proof (wp_check_walk across _ _ (xor_links_fwd _ _ Hrep _ _ Hl) Hnd) as Hf.
    pose proof (wp_check_walk across _ _ (xor_links_bwd _ _ Hrep _ _ Hl) (NoDup_reverse _ Hnd)) as Hb.
    assert (length (x :: ys ++ [y]) = S (S (length ys))) as Hlen.
    { cbn. rewrite length_app. cbn. lia. }
    assert (x <> y) by (apply NoDup_cons in Hnd as [? _]; set_solver).
    rewrite length_reverse in Hb. unfold head_or, last_or in Hb.
    rewrite head_reverse, last_reverse in Hb. cbn [head] in Hb.
    rewrite last_cons, last_snoc in Hb. cbn [default from_option] in Hb.
    rewrite head_or_cons, last_or_cons, last_or_snoc in Hf.
    unfold list_obj. cbn [_head _tail _size].
    rewrite head_or_cons, last_or_cons, last_or_snoc, !isnull_false by done. cbn [orb].
    rewrite (proj2 (Z.eqb_neq x y)) by done.
    apply wp_checks; [apply Hf; lia|intros _]. apply Hb; [|done]. split; [lia|done].
Qed.

Lemma xor_checks_hook : good_hook_check enc dfk__list_hook_check_invariants.
Proof.
  intros m σ l xs x Hrep Hl Hx. apply wp_assert; [|done].
  by eapply nonnull_true, (hook_ne _ _ Hrep _ _ Hl).
Qed.

(** The checks of iterators fail only when assertions cannot. *)
Lemma xor_checks_it it m : checks (dfk__list_it_check_invariants it) m.
Proof. apply wp_when; [|done]. intros Hn. by apply wp_assert. Qed.
Lemma xor_checks_rit it m : checks (dfk__list_rit_check_invariants it) m.
Proof. apply xor_checks_it. Qed.

#[export] Hint Resolve xor_checks_list xor_checks_hook xor_checks_it xor_checks_rit : dlist.

(** ** Iterators *)

(** Runs the leading check, whose assertions hold. *)
Ltac wp_chk := apply wp_checks; [solve [eauto with dlist]|intros _].

Definition at_it (it : xor_it) (pre suf : list Z) : Prop :=
  x_value it = head_or 0 suf /\ (suf <> [] -> x_prev it = last_or 0 pre).
Definition at_rit (it : xor_it) (pre suf : list Z) : Prop :=
  x_value it = last_or 0 pre /\ (pre <> [] -> x_prev it = head_or 0 suf).

Section iterators.
Context (m : xmem) (σ : lspec) (l : Z) (xs : list Z).
Context (Hrep : rep m σ) (Hl : chains σ !! l = Some xs).

Lemma xor_begin_spec :
  wp (dfk_list_begin l) m (fun it m' => at_it it [] xs /\ m' = m).
Proof using Hrep Hl.
  wp_chk. apply wp_bind. eapply wp_list_obj; [done..|]. wp_chk. by apply wp_ret.
Qed.

Lemma xor_end_spec :
  wp (dfk_list_end l) m (fun it m' => at_it it xs [] /\ m' = m).
Proof using Hrep Hl. wp_chk. wp_chk. by apply wp_ret. Qed.

Lemma xor_rbegin_spec :
  wp (dfk_list_rbegin l) m (fun it m' => at_rit it xs [] /\ m' = m).
Proof using Hrep Hl.
  wp_chk. apply wp_bind. eapply wp_list_obj; [done..|]. wp_chk. by apply wp_ret.
Qed.

Lemma xor_rend_spec :
  wp (dfk_list_rend l) m (fun it m' => at_rit it [] xs /\ m' = m).
Proof using Hrep Hl. wp_chk. wp_chk. by apply wp_ret. Qed.

Lemma xor_it_next_spec it pre x suf :
  xs = pre ++ x :: suf -> at_it it pre (x :: suf) ->
  wp (dfk_list_it_next it) m (fun it' m' => at_it it' (pre ++ [x]) suf /\ m' = m).
Proof using Hrep Hl.
  intros Hxs [Hv Hp]. wp_chk. apply wp_bind. rewrite Hv, head_or_cons.
  destruct (xor_hook_at _ _ Hrep _ _ Hl _ _ _ Hxs). eapply wp_deref; [done..|].
  wp_chk. apply wp_ret. split; [|done]. split; cbn [x_value x_prev].
  - rewrite Hp by done. apply across_fwd.
  - by rewrite last_or_snoc.
Qed.

Lemma xor_rit_next_spec it pre x suf :
  xs = pre ++ x :: suf -> at_rit it (pre ++ [x]) suf ->
  wp (dfk_list_rit_next it) m (fun it' m' => at_rit it' pre (x :: suf) /\ m' = m).
Proof using Hrep Hl.
  intros Hxs [Hv Hp]. wp_chk. apply wp_bind. rewrite Hv, last_or_snoc.
  destruct (xor_hook_at _ _ Hrep _ _ Hl _ _ _ Hxs). eapply wp_deref; [done..|].
  wp_chk. apply wp_ret. split; [|done]. split; cbn [x_value x_prev]; [|done].
  rewrite Hp by by destruct pre. apply across_bwd.
Qed.

Lemma xor_it_equal_spec it1 pre1 suf1 it2 pre2 suf2 :
  at_it it1 pre1 suf1 -> xs = pre1 ++ suf1 ->
  at_it it2 pre2 suf2 -> xs = pre2 ++ suf2 ->
  wp (dfk_list_it_equal it1 it2) m
    (fun r m' => r = bool_decide (suf1 = suf2) /\ m' = m).
Proof using Hrep Hl.
  intros [Hi1 _] Hx1 [Hi2 _] Hx2. do 2 wp_chk. apply wp_ret. rewrite Hi1, Hi2.
  split; [|done]. by eapply (head_or_eqb _ _ Hrep _ _ Hl).
Qed.

Lemma xor_rit_equal_spec it1 pre1 suf1 it2 pre2 suf2 :
  at_rit it1 pre1 suf1 -> xs = pre1 ++ suf1 ->
  at_rit it2 pre2 suf2 -> xs = pre2 ++ suf2 ->
  wp (dfk_list_rit_equal it1 it2) m
    (fun r m' => r = bool_decide (pre1 = pre2) /\ m' = m).
Proof using Hrep Hl.
  intros [Hi1 _] Hx1 [Hi2 _] Hx2. do 2 wp_chk. apply wp_ret. rewrite Hi1, Hi2.
  split; [|done]. by eapply (last_or_eqb _ _ Hrep _ _ Hl).
Qed.
End iterators.

(** ** Iterators from values: a search over the list *)
Section seek.
Context (m : xmem) (σ : lspec) (l : Z).

(** The search forward for [x] from any position before it. *)
Lemma wp_seek_next pre mid x suf it (Q : xor_it -> xmem -> Prop) :
  rep m σ -> chains σ !! l = Some (pre ++ mid ++ x :: suf) ->
  at_it it pre (mid ++ x :: suf) ->
  (forall it', at_it it' (pre ++ mid) (x :: suf) -> Q it' m) ->
  wp (seek dfk_list_it_next x it) m Q.
Proof.
  intros Hrep Hl Hit HQ. apply wp_bind, wp_gets.
  pose proof (chain_size _ _ Hrep _ _ Hl) as [Hsz _]. rewrite !length_app in Hsz. cbn in Hsz.
  pose proof (chain_nodup _ _ Hrep _ _ Hl) as Hnd.
  eapply (wp_loop (fun n it s => s = m /\ exists a b, mid = a ++ b /\ n = length b /\
            at_it it (pre ++ a) (b ++ x :: suf))).
  - clear Hit. intros n it' s (-> & a & b & -> & -> & Hit). unfold seek_body.
    destruct b as [|y b].
    + destruct Hit as [Hv Hp]. rewrite Hv. cbn [app]. rewrite head_or_cons, Z.eqb_refl. apply wp_ret.
      apply HQ. by rewrite app_nil_r.
    + pose proof Hit as [Hv _]. rewrite Hv. cbn [app]. rewrite head_or_cons.
      assert (y <> x).
      { intros ->. apply NoDup_app in Hnd as (_ & _ & Hnd). rewrite <- app_assoc in Hnd.
        apply NoDup_app in Hnd as (_ & _ & Hnd). cbn in Hnd.
        apply NoDup_cons in Hnd as [Hx _]. set_solver. }
      rewrite (proj2 (Z.eqb_neq _ _)) by done. apply wp_bind.
      eapply wp_mono; [eapply (xor_it_next_spec m σ l _ Hrep Hl it' (pre ++ a) y (b ++ x :: suf))|].
      * by rewrite <- !app_assoc.
      * done.
      * intros it'' ? [Hit'' ->]. apply wp_ret. exists (length b). split; [cbn; lia|].
        split; [done|]. exists (a ++ [y]), b. rewrite <- !app_assoc in *. done.
  - split; [done|]. exists [], mid. by rewrite app_nil_r.
  - lia.
Qed.

Lemma wp_seek_prev pre x mid suf it (Q : xor_it -> xmem -> Prop) :
  rep m σ -> chains σ !! l = Some ((pre ++ x :: mid) ++ suf) ->
  at_rit it (pre ++ x :: mid) suf ->
  (forall it', at_rit it' (pre ++ [x]) (mid ++ suf) -> Q it' m) ->
  wp (seek dfk_list_rit_next x it) m Q.
Proof.
  intros Hrep Hl Hit HQ. apply wp_bind, wp_gets.
  pose proof (chain_size _ _ Hrep _ _ Hl) as [Hsz _]. rewrite !length_app in Hsz. cbn in Hsz.
  pose proof (chain_nodup _ _ Hrep _ _ Hl) as Hnd.
  eapply (wp_loop (fun n it s => s = m /\ exists a b, mid = a ++ b /\ n = length a /\
            at_rit it (pre ++ x :: a) (b ++ suf))).
  - clear Hit. intros n it' s (-> & a & b & -> & -> & Hit). unfold seek_body.
    destruct a as [|y a _] using rev_ind.
    + destruct Hit as [Hv Hp]. rewrite Hv, last_or_snoc, Z.eqb_refl. apply wp_ret. by apply HQ.
    + pose proof Hit as [Hv _].
      replace (pre ++ x :: a ++ [y]) with ((pre ++ x :: a) ++ [y]) in * by by rewrite <- app_assoc.
      rewrite Hv, last_or_snoc.
      assert (y <> x).
      { intros ->. rewrite <- app_assoc in Hnd.
        apply NoDup_app in Hnd as (_ & _ & Hnd). cbn in Hnd.
        apply NoDup_cons in Hnd as [Hx _]. set_solver. }
      rewrite (proj2 (Z.eqb_neq _ _)) by done. apply wp_bind.
      eapply wp_mono; [eapply (xor_rit_next_spec m σ l _ Hrep Hl it' (pre ++ x :: a) y (b ++ suf))|].
      * rewrite <- !app_assoc. cbn. by rewrite <- !app_assoc.
      * done.
      * intros it'' ? [Hit'' ->]. apply wp_ret. exists (length a). split; [rewrite length_app; cbn; lia|].
        split; [done|]. exists a, (y :: b). by rewrite <- !app_assoc.
  - split; [done|]. exists mid, []. by rewrite app_nil_r.
  - lia.
Qed.

Lemma xor_it_from_value_spec pre x suf :
  rep m σ -> chains σ !! l = Some (pre ++ x :: suf) ->
  wp (dfk_list_it_from_value l x) m (fun it m' => at_it it pre (x :: suf) /\ m' = m).
Proof.
  intros Hrep Hl. assert (x ∈ pre ++ x :: suf) by set_solver.
  wp_chk. wp_chk. apply wp_bind. eapply wp_mono; [by eapply xor_begin_spec|].
  intros it0 ? [Hit0 ->]. apply wp_bind. eapply (wp_seek_next [] pre); [done..|].
  intros it Hit. do 3 wp_chk. by apply wp_ret.
Qed.

Lemma xor_rit_from_value_spec pre x suf :
  rep m σ -> chains σ !! l = Some (pre ++ x :: suf) ->
  wp (dfk_list_rit_from_value l x) m (fun it m' => at_rit it (pre ++ [x]) suf /\ m' = m).
Proof.
  intros Hrep Hl. assert (x ∈ pre ++ x :: suf) by set_solver.
  wp_chk. wp_chk. apply wp_bind. eapply wp_mono; [by eapply xor_rbegin_spec|].
  intros it0 ? [Hit0 ->]. apply wp_bind. eapply (wp_seek_prev pre x suf []); [done|..|done|].
  { by rewrite app_nil_r. }
  intros it Hit. rewrite app_nil_r in Hit. do 3 wp_chk. by apply wp_ret.
Qed.
End seek.

(** ** Insertion *)

(** Symbolic execution with the fields of the hooks read out. *)
Ltac xor_steps := repeat (list_step; cbn [_p enc]).

Lemma xor_append_spec m σ l h xs :
  rep m σ -> chains σ !! l = Some xs -> h ∈ spare σ ->
  wp (dfk_list_append l h) m
    (fun _ m' => rep m' (rechain l (xs ++ [h]) (occupy h σ) σ)).
Proof.
  intros Hrep Hl Hh. insert_facts Hrep Hl Hh.
  wp_chk. destruct m as [ls hs]. cbn in Hobj, Hvh. list_steps.
  destruct xs as [|t xs _] using rev_ind.
  - list_steps. eapply (wp_linked_in xor_checks_list xor_checks_hook _ _ _ _ [] h []); [done..|obj_eq|xlinked|done].
  - destruct (xor_hook_at _ _ Hrep _ _ Hl xs t [] eq_refl) as [Ht0 Hvt]. cbn in Hvt.
    assert (head_or 0 (xs ++ [t]) <> 0) by (eapply head_ne; [done..|by destruct xs]).
    assert (h <> t) by set_solver.
    cbn [list_obj _tail _head]. rewrite last_or_snoc. list_steps.
    eapply (wp_linked_in xor_checks_list xor_checks_hook _ _ _ _ (xs ++ [t]) h []);
      [done|by rewrite app_nil_r|done|obj_eq|xlinked|done].
Qed.

Lemma xor_prepend_spec m σ l h xs :
  rep m σ -> chains σ !! l = Some xs -> h ∈ spare σ ->
  wp (dfk_list_prepend l h) m
    (fun _ m' => rep m' (rechain l (h :: xs) (occupy h σ) σ)).
Proof.
  intros Hrep Hl Hh. insert_facts Hrep Hl Hh.
  wp_chk. destruct m as [ls hs]. cbn in Hobj, Hvh. list_steps.
  destruct xs as [|x xs].
  - list_steps. eapply (wp_linked_in xor_checks_list xor_checks_hook _ _ _ _ [] h []); [done..|obj_eq|xlinked|done].
  - destruct (xor_hook_at _ _ Hrep _ _ Hl [] x xs eq_refl) as [Hx0 Hvx]. cbn in Hvx.
    assert (last_or 0 (x :: xs) <> 0) by (eapply last_ne; done).
    assert (h <> x) by set_solver.
    cbn [list_obj _tail _head]. rewrite head_or_cons. list_steps.
    eapply (wp_linked_in xor_checks_list xor_checks_hook _ _ _ _ [] h (x :: xs)); [done..|obj_eq|xlinked|done].
Qed.

(** The last check of an insertion: the position iterator is not null-checked
    beyond its own value. *)
Lemma wp_final_it it m (Q : unit -> xmem -> Prop) :
  Q tt m -> wp (dfk__list_it_check_invariants it) m Q.
Proof. intros HQ. eapply wp_mono; [apply xor_checks_it|]. by intros [] ? ->. Qed.

Lemma xor_insert_spec m σ l h it pre suf :
  rep m σ -> chains σ !! l = Some (pre ++ suf) -> h ∈ spare σ -> at_it it pre suf ->
  wp (dfk_list_insert l h it) m
    (fun _ m' => rep m' (rechain l (pre ++ h :: suf) (occupy h σ) σ)).
Proof.
  intros Hrep Hl Hh [Hv Hp]. insert_facts Hrep Hl Hh.
  wp_chk. apply wp_bind, wp_assert; [ptr_cond|]. wp_chk.
  destruct it as [ip iv]. cbn [x_value x_prev] in *. subst iv.
  destruct m as [ls hs]. cbn in Hobj, Hvh.
  destruct pre as [|a pre _] using rev_ind; destruct suf as [|b suf].
  - list_steps. eapply (wp_linked_in_then xor_checks_list xor_checks_hook) with (pre := []) (suf := []);
      [done..|obj_eq|xlinked|auto using wp_final_it].
  - destruct (xor_hook_at _ _ Hrep _ _ Hl [] b suf eq_refl) as [Hb0 Hvb]. cbn in Hvb.
    assert (h <> b) by set_solver. rewrite Hp, head_or_cons by done. list_steps.
    eapply (wp_linked_in_then xor_checks_list xor_checks_hook) with (pre := []) (suf := b :: suf);
      [done..|obj_eq|xlinked|auto using wp_final_it].
  - destruct (xor_hook_at _ _ Hrep _ _ Hl pre a [] (app_nil_r _)) as [Ha0 Hva]. cbn in Hva.
    assert (h <> a) by set_solver. rewrite app_nil_r in Hobj.
    assert (_tail (list_obj (pre ++ [a])) = a) as Htl by apply last_or_snoc.
    list_steps. rewrite Htl. list_steps.
    eapply (wp_linked_in_then xor_checks_list xor_checks_hook) with (pre := pre ++ [a]) (suf := []);
      [done..|obj_eq|xlinked|auto using wp_final_it].
  - destruct (seg_neighbours _ _ Hrep _ _ Hl pre a b suf h eq_refl Hni) as (Ha0 & Hb0 & Hva & Hvb & ? & ? & ?).
    cbn in Hva, Hvb. rewrite Hp, head_or_cons, last_or_snoc by done. list_steps.
    eapply (wp_linked_in_then xor_checks_list xor_checks_hook) with (pre := pre ++ [a]) (suf := b :: suf);
      [done..|obj_eq|xlinked|auto using wp_final_it].
Qed.

Lemma xor_rinsert_spec m σ l h it pre suf :
  rep m σ -> chains σ !! l = Some (pre ++ suf) -> h ∈ spare σ -> at_rit it pre suf ->
  wp (dfk_list_rinsert l h it) m
    (fun _ m' => rep m' (rechain l (pre ++ h :: suf) (occupy h σ) σ)).
Proof.
  intros Hrep Hl Hh [Hv Hp]. insert_facts Hrep Hl Hh.
  wp_chk. apply wp_bind, wp_assert; [ptr_cond|]. wp_chk.
  destruct it as [ip iv]. cbn [x_value x_prev] in *. subst iv.
  destruct m as [ls hs]. cbn in Hobj, Hvh.
  destruct pre as [|a pre _] using rev_ind; destruct suf as [|b suf].
  - list_steps. eapply (wp_linked_in_then xor_checks_list xor_checks_hook) with (pre := []) (suf := []);
      [done..|obj_eq|xlinked|auto using wp_final_it].
  - destruct (xor_hook_at _ _ Hrep _ _ Hl [] b suf eq_refl) as [Hb0 Hvb]. cbn in Hvb.
    pose proof (last_ne _ _ Hrep _ _ Hl) as Ht0.
    assert (h <> b) by set_solver. cbn [app] in *.
    assert (_tail (list_obj (b :: suf)) <> 0) by by apply Ht0.
    list_steps. change (_head (list_obj (b :: suf))) with b. list_steps.
    eapply (wp_linked_in_then xor_checks_list xor_checks_hook) with (pre := []) (suf := b :: suf);
      [done..|obj_eq|xlinked|auto using wp_final_it].
  - destruct (xor_hook_at _ _ Hrep _ _ Hl pre a [] (app_nil_r _)) as [Ha0 Hva]. cbn in Hva.
    assert (h <> a) by set_solver. rewrite app_nil_r in Hobj.
    rewrite Hp, last_or_snoc by by destruct pre. list_steps.
    eapply (wp_linked_in_then xor_checks_list xor_checks_hook) with (pre := pre ++ [a]) (suf := []);
      [done..|obj_eq|xlinked|auto using wp_final_it].
  - destruct (seg_neighbours _ _ Hrep _ _ Hl pre a b suf h eq_refl Hni) as (Ha0 & Hb0 & Hva & Hvb & ? & ? & ?).
    cbn in Hva, Hvb. rewrite Hp, last_or_snoc, head_or_cons by by destruct pre. list_steps.
    eapply (wp_linked_in_then xor_checks_list xor_checks_hook) with (pre := pre ++ [a]) (suf := b :: suf);
      [done..|obj_eq|xlinked|auto using wp_final_it].
Qed.

(** ** Removal *)

Ltac erase_steps := repeat (list_step; cbn [_p _head _tail _size set_head set_tail set_size]).

(** A walk from [x] over the hook at [x]. *)
Lemma xor_other p q : DFK_PTR_XOR (DFK_PTR_XOR p q) p = q.
Proof. xor. Qed.

(** The iterator needs the predecessor only for inner hooks. *)
Lemma dfk_list_erase_gen m σ l x it pre suf :
  rep m σ -> chains σ !! l = Some (pre ++ x :: suf) -> x_value it = x ->
  (pre <> [] -> suf <> [] -> x_prev it = last_or 0 pre) ->
  wp (dfk_list_erase l it) m
    (fun _ m' => rep m' (rechain l (pre ++ suf) (release x σ) σ)).
Proof.
  intros Hrep Hl Hv Hp.
  pose proof (list_ne _ _ Hrep _ _ Hl) as Hl0.
  pose proof (list_at _ _ Hrep _ _ Hl) as Hobj. rewrite list_obj_ends in Hobj.
  pose proof (chain_nodup _ _ Hrep _ _ Hl) as Hnd.
  destruct (xor_hook_at _ _ Hrep _ _ Hl pre x suf eq_refl) as [Hx0 Hvx].
  apply NoDup_app in Hnd as (Hnp & Hd & [Hxs Hns]%NoDup_cons).
  assert (x ∉ pre) as Hxp by (intros ?; apply (Hd x); set_solver).
  do 2 wp_chk. eapply (wp_nonempty xor_checks_list); [done..|by destruct pre|]. cbn zeta. rewrite Hv.
  destruct it as [ip iv]. cbn [x_prev x_value] in Hp, Hv. subst iv.
  destruct m as [ls hs]. cbn in Hobj, Hvx.
  destruct pre as [|a pre _] using rev_ind; destruct suf as [|b suf].
  - autorewrite with dlist in Hobj. erase_steps.
    eapply (wp_linked_out xor_checks_list _ _ _ _ [] x []); [done..|obj_eq|xlinked].
  - destruct (xor_hook_at _ _ Hrep _ _ Hl [x] b suf eq_refl) as [Hb0 Hvb]. cbn in Hvb.
    pose proof (last_or_ne x x _ Hxs) as Hlast. autorewrite with dlist in Hobj, Hlast, Hvx.
    assert (x <> last_or b suf) by by apply Hlast. assert (x <> b) by set_solver.
    assert (DFK_PTR_XOR 0 b = b) as Hxb by xor. unfold enc in Hvx. rewrite Hxb in Hvx.
    erase_steps. eapply (wp_linked_out xor_checks_list _ _ _ _ [] x (b :: suf)); [done..|obj_eq|xlinked].
  - destruct (xor_hook_at _ _ Hrep _ _ Hl pre a [x]) as [Ha0 Hva]; [by rewrite <- app_assoc|].
    cbn in Hva. pose proof (head_or_ne x x _ Hxp) as Hhead.
    autorewrite with dlist in Hobj, Hhead, Hvx.
    assert (head_or a pre <> x) by (apply not_eq_sym, Hhead; by destruct pre).
    assert (x <> a) by set_solver.
    assert (DFK_PTR_XOR a 0 = a) as Hxa by xor. unfold enc in Hvx. rewrite Hxa in Hvx.
    erase_steps. eapply (wp_linked_out xor_checks_list _ _ _ _ (pre ++ [a]) x []); [done..|obj_eq|xlinked].
  - destruct (xor_hook_at _ _ Hrep _ _ Hl pre a (x :: b :: suf)) as [Ha0 Hva]; [by rewrite <- app_assoc|].
    destruct (xor_hook_at _ _ Hrep _ _ Hl ((pre ++ [a]) ++ [x]) b suf) as [Hb0 Hvb]; [by rewrite <- !app_assoc|].
    pose proof (last_or_ne x x _ Hxs) as Hlast. pose proof (head_or_ne x x _ Hxp) as Hhead.
    autorewrite with dlist in Hobj, Hlast, Hhead, Hvx, Hva, Hvb, Hp.
    assert (x <> last_or b suf) by by apply Hlast.
    assert (x <> head_or a pre) by (apply Hhead; by destruct pre).
    assert (head_or a pre <> last_or b suf).
    { intros Heq. apply (Hd (head_or a pre)); [|rewrite Heq].
      - rewrite <- (head_or_snoc 0). apply head_or_elem. by destruct pre.
      - rewrite elem_of_cons. right. rewrite <- (last_or_cons 0). by apply last_or_elem. }
    assert (x <> a /\ x <> b /\ a <> b) as (? & ? & ?).
    { split_and!; [set_solver..|]. intros ->. apply (Hd b); set_solver. }
    assert (ip = a) as -> by (apply Hp; [by destruct pre|done]).
    unfold enc in Hvx. cbn [x_prev]. erase_steps. cbn zeta. cbn [_p]. rewrite xor_other. erase_steps.
    eapply (wp_linked_out xor_checks_list _ _ _ _ (pre ++ [a]) x (b :: suf)); [done..|obj_eq|xlinked].
Qed.

Lemma xor_erase_spec m σ l x it pre suf :
  rep m σ -> chains σ !! l = Some (pre ++ x :: suf) -> at_it it pre (x :: suf) ->
  wp (dfk_list_erase l it) m
    (fun _ m' => rep m' (rechain l (pre ++ suf) (release x σ) σ)).
Proof. intros Hrep Hl [Hv Hp]. eapply dfk_list_erase_gen; auto. Qed.

(** At the ends of the list the predecessor that [dfk_list_rerase] makes up is
    not used. *)
Lemma xor_rerase_spec m σ l x it pre suf :
  rep m σ -> chains σ !! l = Some (pre ++ x :: suf) -> at_rit it (pre ++ [x]) suf ->
  pre = [] \/ suf = [] ->
  wp (dfk_list_rerase l it) m
    (fun _ m' => rep m' (rechain l (pre ++ suf) (release x σ) σ)).
Proof.
  intros Hrep Hl [Hv _] Hend. rewrite last_or_snoc in Hv.
  do 2 wp_chk. cbn zeta. apply wp_bind.
  eapply wp_mono; [eapply (dfk_list_erase_gen m σ l x); [done..|]|].
  - by destruct Hend as [-> | ->].
  - intros [] m' Hrep'. by apply (wp_checked xor_checks_list).
Qed.

Lemma xor_pop_front_spec m σ l x xs :
  rep m σ -> chains σ !! l = Some (x :: xs) ->
  wp (dfk_list_pop_front l) m (fun _ m' => rep m' (rechain l xs (release x σ) σ)).
Proof.
  intros Hrep Hl. wp_chk. eapply (wp_nonempty xor_checks_list); [done..|].
  apply wp_bind. eapply wp_mono; [by eapply xor_begin_spec|].
  intros it s [Hit ->]. cbn beta.
  apply wp_bind. eapply wp_mono; [by eapply (xor_erase_spec m σ l x it [] xs)|].
  intros [] m' Hrep'. by apply (wp_checked xor_checks_list).
Qed.

Lemma xor_pop_back_spec m σ l x xs :
  rep m σ -> chains σ !! l = Some (xs ++ [x]) ->
  wp (dfk_list_pop_back l) m (fun _ m' => rep m' (rechain l xs (release x σ) σ)).
Proof.
  intros Hrep Hl. wp_chk. eapply (wp_nonempty xor_checks_list); [done..|by destruct xs|].
  apply wp_bind. eapply wp_mono; [by eapply xor_rbegin_spec|].
  intros it s [Hit ->]. cbn beta.
  apply wp_bind. eapply wp_mono; [eapply (xor_rerase_spec m σ l x it xs []); auto|].
  intros [] m' Hrep'. rewrite app_nil_r in Hrep'. by apply (wp_checked xor_checks_list).
Qed.

Lemma xor_hook_init_spec m σ h :
  rep m σ -> valid_addr h -> unchained σ h ->
  wp (dfk_list_hook_init h) m (fun _ m' => rep m' (LSpec (chains σ) (release h σ))).
Proof.
  intros Hrep Hh Hun. assert (h <> 0) by (unfold valid_addr in Hh; lia).
  destruct m as [ls hs]. unfold dfk_list_hook_init. list_steps.
  apply wp_assert; [ptr_cond|]. by apply (rep_new_hook (LMem ls hs)).
Qed.

(** ** The instance *)

#[export] Instance xor_laws : ListLaws xmem xor_it.
Proof.
  refine {| lrep := rep; it_at := at_it; rit_at := at_rit |}.
  - intros m σ Hrep. by eapply sr_wf.
  - by intros it pre suf [? _].
  - by intros it pre suf [? _].
  - exact (dfk_list_init_spec xor_checks_list).
  - exact xor_hook_init_spec.
  - exact hook_dispose_spec.
  - intros. by eapply (dfk_list_front_spec xor_checks_list).
  - intros. by eapply (dfk_list_back_spec xor_checks_list).
  - intros. by eapply (dfk_list_size_spec xor_checks_list).
  - intros. by eapply (dfk_list_empty_spec xor_checks_list).
  - exact xor_append_spec.
  - exact xor_prepend_spec.
  - exact xor_insert_spec.
  - exact xor_rinsert_spec.
  - exact xor_erase_spec.
  - exact xor_pop_front_spec.
  - exact xor_pop_back_spec.
  - exact (dfk_list_clear_spec xor_checks_list).
  - exact (dfk_list_move_spec xor_checks_list).
  - exact (dfk_list_swap_spec xor_checks_list).
  - intros. by eapply xor_begin_spec.
  - intros. by eapply xor_end_spec.
  - intros. by eapply xor_it_next_spec.
  - intros. by eapply (xor_it_equal_spec m σ l xs).
  - intros. by eapply xor_it_from_value_spec.
  - intros. by eapply xor_rbegin_spec.
  - intros. by eapply xor_rend_spec.
  - intros. by eapply xor_rit_next_spec.
  - intros. by eapply (xor_rit_equal_spec m σ l xs).
  - intros. by eapply xor_rit_from_value_spec.
Defined.

(** ** The broken reverse removal *)

Lemma readonly_check l : readonly (dfk__list_check_invariants l).
Proof.
  unfold dfk__list_check_invariants. eauto 20 using readonly_check_walk with readonly.
Qed.
Lemma readonly_it_check it : readonly (dfk__list_it_check_invariants it).
Proof. apply readonly_if; [apply readonly_assert|apply readonly_ret]. Qed.

(** A read-only command in front of others. *)
Lemma wlp_readonly {A B} (m : M xmem A) (k : A -> M xmem B) s (Q : B -> xmem -> Prop) :
  readonly m -> (forall a, wlp (k a) s Q) -> wlp (m ≫= k) s Q.
Proof.
  intros Hm Hk. apply wlp_bind. eapply wlp_mono; [apply Hm|]. by intros a ? ->.
Qed.

(** Whatever the removal of an inner hook rewrites, it rewrites only the hooks
    it takes for its neighbours. *)
Lemma erase_inner_frame m l it a lo h :
  lists m !! l = Some lo -> hooks m !! x_value it = Some h ->
  _head lo <> _tail lo -> x_value it <> _head lo -> x_value it <> _tail lo ->
  a <> DFK_PTR_XOR (_p h) (x_prev it) -> a <> x_prev it ->
  wlp (dfk_list_erase l it) m (fun _ m' => hooks m' !! a = hooks m !! a).
Proof.
  intros Hlo Hh Hht Hxh Hxt Ha1 Ha2.
  apply wlp_readonly; [apply readonly_check|intros _].
  apply wlp_readonly; [apply readonly_it_check|intros _].
  apply wlp_readonly; [unfold dfk_list_size, ListCommon.dfk_list_size; eauto using readonly_check with readonly|intros n].
  apply wlp_readonly; [apply readonly_assert|intros _]. cbn zeta.
  apply wlp_bind, wlp_deref. intros lo' Hlo'. cbn in Hlo'. simplify_eq.
  rewrite !(proj2 (Z.eqb_neq _ _)) by done.
  apply wlp_bind. do 2 (apply wlp_readonly; [apply readonly_assert|intros _]).
  apply wlp_bind, wlp_deref. intros h' Hh'. cbn in Hh'. simplify_eq.
  do 2 (apply wlp_readonly; [apply readonly_assert|intros _]).
  apply wlp_bind, wlp_update. intros v1 _. apply wlp_update. intros v2 _. cbn.
  apply wlp_bind, wlp_update. intros v3 _. cbn.
  eapply wlp_mono; [apply readonly_check|]. intros _ ? ->. cbn.
  by rewrite !lookup_insert_ne by done.
Qed.

Lemma rerase_inner_frame m σ l rit pre a x b suf :
  rep m σ -> chains σ !! l = Some ((pre ++ [a]) ++ x :: b :: suf) ->
  at_rit rit ((pre ++ [a]) ++ [x]) (b :: suf) -> DFK_PTR_XOR a b <> x ->
  wlp (dfk_list_rerase l rit) m (fun _ m' => hooks m' !! a = hooks m !! a).
Proof.
  intros Hrep Hl [Hv Hp] Hab. rewrite last_or_snoc in Hv.
  specialize (Hp ltac:(by destruct pre)). rewrite head_or_cons in Hp.
  pose proof (chain_nodup _ _ Hrep _ _ Hl) as (_ & Hd & [Hxs _]%NoDup_cons)%NoDup_app.
  pose proof (list_at _ _ Hrep _ _ Hl) as Hobj. rewrite list_obj_ends in Hobj.
  destruct (xor_hook_at _ _ Hrep _ _ Hl (pre ++ [a]) x (b :: suf) eq_refl) as [Hx0 Hvx].
  rewrite last_or_snoc, head_or_cons in Hvx.
  do 2 (apply wlp_readonly; [apply readonly_check || apply readonly_it_check|intros _]).
  cbn zeta. apply wlp_bind. eapply wlp_mono; [apply (erase_inner_frame _ _ _ a) with (1 := Hobj) (h := enc a b)|]; cbn [x_value x_prev];
    rewrite ?Hv, ?Hp; try done; cbn [_head _tail enc _p].
  - intros Heq. eapply (Hd (head_or x (pre ++ [a]))); [apply head_or_elem; by destruct pre|].
    rewrite Heq, elem_of_cons. right. by apply last_or_elem.
  - apply head_or_ne; [|by destruct pre]. intros Hin. eapply Hd; [exact Hin|set_solver].
  - by apply last_or_ne.
  - intros Heq. apply Hx0. transitivity (DFK_PTR_XOR a (DFK_PTR_XOR (DFK_PTR_XOR a b) (DFK_PTR_XOR b x))); [xor|].
    rewrite <- Heq. xor.
  - intros ->. apply Hab. xor.
  - intros _ m' Hm'. eapply wlp_mono; [apply readonly_check|]. by intros _ ? ->.
Qed.

Lemma enc_inj p q q' : enc p q = enc p q' -> q = q'.
Proof. intros Heq. by rewrite <- (across_fwd p q), Heq, across_fwd. Qed.
