(* ===== verification/ListSim.v ===== *)
(** * Programs over the intrusive lists

    Sequences of list operations, as a client of [dfk/list.h] performs them,
    their effect on the abstract state, and the refinement: whatever the
    memory layout, a program whose steps respect the documented preconditions
    runs without a failed assertion or a stray access and computes what the
    abstract state says.  The theorems use only the interface [ListLaws]. *)

From S2P Require Import Prelude ListSpec ListSeg.

Section clients.
Context {Mem It : Type} `{!ListOps Mem It}.

(** [for (begin; !equal(it, end); next) ..]: the idiom of the clients, and
    [dfk_list_size] without [DFK_LIST_CONSTANT_TIME_SIZE]. *)
Definition collect_body (next : It -> M Mem It) (equal : It -> It -> M Mem bool)
    (end_ : It) (st : It * list Z) : M Mem ((It * list Z) + list Z) :=
  let '(it, acc) := st in
  stop ← equal it end_;
  if stop : bool then mret (inr acc) else
  it' ← next it;
  mret (inl (it', acc ++ [it_value it])).

Definition list_collect (fuel : nat) (l : Z) : M Mem (list Z) :=
  it ← list_begin l;
  end_ ← list_end l;
  loop fuel (collect_body list_it_next list_it_equal end_) (it, []).

Definition list_rcollect (fuel : nat) (l : Z) : M Mem (list Z) :=
  it ← list_rbegin l;
  end_ ← list_rend l;
  loop fuel (collect_body list_rit_next list_rit_equal end_) (it, []).

(** [dfk_list_size] when the size is not stored. *)
Definition list_size_linear (fuel : nat) (l : Z) : M Mem Z :=
  xs ← list_collect fuel l;
  mret (to_size (Z.of_nat (length xs))).

(** ** Commands *)

Inductive list_cmd :=
| CInit (l : Z)
| CHookInit (h : Z)
| CHookDispose (h : Z)
| CAppend (l h : Z)
| CPrepend (l h : Z)
| CInsertBefore (l h v : Z)
| CInsertEnd (l h : Z)
| CRInsertAfter (l h v : Z)
| CErase (l v : Z)
| CPopFront (l : Z)
| CPopBack (l : Z)
| CClear (l : Z)
| CMove (src dst : Z)
| CSwap (l r : Z)
| CFront (l : Z)
| CBack (l : Z)
| CSize (l : Z)
| CEmpty (l : Z)
| CWalk (l : Z) (bound : nat)
| CRWalk (l : Z) (bound : nat).

Definition observe (m : M Mem Z) : M Mem (list Z) := r ← m; mret [r].
Definition silent (m : M Mem unit) : M Mem (list Z) := m;; mret [].

Definition run_cmd (c : list_cmd) : M Mem (list Z) :=
  match c with
  | CInit l => silent (list_init l)
  | CHookInit h => silent (hook_init h)
  | CHookDispose h => silent (hook_dispose h)
  | CAppend l h => silent (list_append l h)
  | CPrepend l h => silent (list_prepend l h)
  | CInsertBefore l h v =>
      silent (it ← list_it_from_value l v; list_insert l h it)
  | CInsertEnd l h => silent (it ← list_end l; list_insert l h it)
  | CRInsertAfter l h v =>
      silent (it ← list_rit_from_value l v; list_rinsert l h it)
  | CErase l v => silent (it ← list_it_from_value l v; list_erase l it)
  | CPopFront l => silent (list_pop_front l)
  | CPopBack l => silent (list_pop_back l)
  | CClear l => silent (list_clear l)
  | CMove src dst => silent (list_move src dst)
  | CSwap l r => silent (list_swap l r)
  | CFront l => observe (list_front l)
  | CBack l => observe (list_back l)
  | CSize l => observe (list_size l)
  | CEmpty l => observe (b ← list_empty l; mret (if b : bool then 1 else 0))
  | CWalk l n => list_collect n l
  | CRWalk l n => list_rcollect n l
  end.

Fixpoint run_cmds (cs : list list_cmd) : M Mem (list (list Z)) :=
  match cs with
  | [] => mret []
  | c :: cs => r ← run_cmd c; rs ← run_cmds cs; mret (r :: rs)
  end.
End clients.

(** ** What the commands mean on the abstract state *)

(** The chain split before its first [v]. *)
Fixpoint split_at (v : Z) (xs : list Z) : option (list Z * list Z) :=
  match xs with
  | [] => None
  | x :: xs => if decide (x = v) then Some ([], x :: xs)
               else '(pre, suf) ← split_at v xs; Some (x :: pre, suf)
  end.

Lemma split_at_Some v xs pre suf : split_at v xs = Some (pre, suf) ->
  exists suf', suf = v :: suf' /\ xs = pre ++ v :: suf'.
Proof.
  revert pre suf. induction xs as [|x xs IH]; intros pre suf; cbn; [done|].
  case_decide as Hd; [intros [= <- <-]; subst; eauto|].
  destruct (split_at v xs) as [[p s]|]; [|done]. cbn. intros [= <- <-].
  destruct (IH p s eq_refl) as (suf' & -> & ->). eauto.
Qed.

Definition abs_step (σ : lspec) (c : list_cmd) : option (lspec * list Z) :=
  match c with
  | CInit l =>
      guard (l <> 0);;
      guard (default [] (chains σ !! l) = []);;
      Some (rechain l [] (spare σ) σ, [])
  | CHookInit h =>
      guard (0 < h < SIZE_MOD);;
      guard (map_Forall (fun _ xs => h ∉ xs) (chains σ));;
      Some (LSpec (chains σ) (release h σ), [])
  | CHookDispose h =>
      guard (h ∈ spare σ);; Some (LSpec (chains σ) (occupy h σ), [])
  | CAppend l h | CInsertEnd l h =>
      xs ← chains σ !! l;
      guard (h ∈ spare σ);; Some (rechain l (xs ++ [h]) (occupy h σ) σ, [])
  | CPrepend l h =>
      xs ← chains σ !! l;
      guard (h ∈ spare σ);; Some (rechain l (h :: xs) (occupy h σ) σ, [])
  | CInsertBefore l h v =>
      xs ← chains σ !! l;
      '(pre, suf) ← split_at v xs;
      guard (h ∈ spare σ);; Some (rechain l (pre ++ h :: suf) (occupy h σ) σ, [])
  | CRInsertAfter l h v =>
      xs ← chains σ !! l;
      '(pre, suf) ← split_at v xs;
      guard (h ∈ spare σ);;
      Some (rechain l ((pre ++ [v]) ++ h :: tail suf) (occupy h σ) σ, [])
  | CErase l v =>
      xs ← chains σ !! l;
      '(pre, suf) ← split_at v xs;
      Some (rechain l (pre ++ tail suf) (release v σ) σ, [])
  | CPopFront l =>
      xs ← chains σ !! l;
      x ← head xs;
      Some (rechain l (tail xs) (release x σ) σ, [])
  | CPopBack l =>
      xs ← chains σ !! l;
      x ← last xs;
      Some (rechain l (take (length xs - 1) xs) (release x σ) σ, [])
  | CClear l =>
      xs ← chains σ !! l;
      Some (rechain l [] (spare σ ∪ list_to_set xs) σ, [])
  | CMove src dst =>
      guard (src <> dst);;
      xs ← chains σ !! src;
      ys ← chains σ !! dst;
      Some (LSpec (<[src := []]> (<[dst := xs]> (chains σ)))
                  (spare σ ∪ list_to_set ys), [])
  | CSwap l r =>
      guard (l <> r);;
      xs ← chains σ !! l;
      ys ← chains σ !! r;
      Some (LSpec (<[r := xs]> (<[l := ys]> (chains σ))) (spare σ), [])
  | CFront l => xs ← chains σ !! l; Some (σ, [head_or 0 xs])
  | CBack l => xs ← chains σ !! l; Some (σ, [last_or 0 xs])
  | CSize l => xs ← chains σ !! l; Some (σ, [Z.of_nat (length xs)])
  | CEmpty l => xs ← chains σ !! l; Some (σ, [if decide (xs = []) then 1 else 0])
  | CWalk l n =>
      xs ← chains σ !! l;
      guard (length xs < n)%nat;; Some (σ, xs)
  | CRWalk l n =>
      xs ← chains σ !! l;
      guard (length xs < n)%nat;; Some (σ, reverse xs)
  end.

Fixpoint abs_steps (σ : lspec) (cs : list list_cmd) : option (lspec * list (list Z)) :=
  match cs with
  | [] => Some (σ, [])
  | c :: cs =>
      '(σ1, r) ← abs_step σ c;
      '(σ2, rs) ← abs_steps σ1 cs;
      Some (σ2, r :: rs)
  end.

(** ** The refinement *)
Section refinement.
Context {Mem It : Type} `{!ListOps Mem It, !ListLaws Mem It}.
Implicit Types (m : Mem) (σ : lspec).

Lemma wp_collect m σ l xs fuel (Q : list Z -> Mem -> Prop) :
  lrep m σ -> chains σ !! l = Some xs -> (length xs < fuel)%nat ->
  Q xs m -> wp (list_collect fuel l) m Q.
Proof.
  intros Hrep Hl Hf HQ. apply wp_bind. eapply wp_mono; [by eapply law_begin|].
  intros it s [Hit ->]. apply wp_bind. eapply wp_mono; [by eapply law_end|].
  intros e s [He ->].
  eapply (wp_loop (fun n st s => s = m /\ exists pre suf, xs = pre ++ suf /\
            n = length suf /\ it_at st.1 pre suf /\ st.2 = pre)).
  - clear Hit it. intros n [it acc] s (-> & pre & suf & Hxs & -> & Hit & Hacc).
    cbn in Hit, Hacc. subst acc. apply wp_bind.
    eapply wp_mono; [by eapply (law_it_equal m σ l xs it pre suf e xs []); [..|rewrite app_nil_r]|].
    intros b s [-> ->]. case_bool_decide as Hs.
    + subst suf. rewrite app_nil_r in Hxs. subst. by apply wp_ret.
    + destruct suf as [|x suf]; [done|]. apply wp_bind.
      rewrite (it_at_value _ _ _ Hit).
      eapply wp_mono; [eapply law_it_next; [done|by rewrite Hl, Hxs|done]|].
      intros it' s [Hit' ->]. apply wp_ret. exists (length suf). split; [cbn; lia|].
      split; [done|]. exists (pre ++ [x]), suf. by rewrite <- app_assoc.
  - split; [done|]. by exists [], xs.
  - done.
Qed.

Lemma wp_rcollect m σ l xs fuel (Q : list Z -> Mem -> Prop) :
  lrep m σ -> chains σ !! l = Some xs -> (length xs < fuel)%nat ->
  Q (reverse xs) m -> wp (list_rcollect fuel l) m Q.
Proof.
  intros Hrep Hl Hf HQ. apply wp_bind. eapply wp_mono; [by eapply law_rbegin|].
  intros it s [Hit ->]. apply wp_bind. eapply wp_mono; [by eapply law_rend|].
  intros e s [He ->].
  eapply (wp_loop (fun n st s => s = m /\ exists pre suf, xs = pre ++ suf /\
            n = length pre /\ rit_at st.1 pre suf /\ st.2 = reverse suf)).
  - clear Hit it. intros n [it acc] s (-> & pre & suf & Hxs & -> & Hit & Hacc).
    cbn in Hit, Hacc. subst acc. apply wp_bind.
    eapply wp_mono; [by eapply (law_rit_equal m σ l xs it pre suf e [] xs)|].
    intros b s [-> ->]. case_bool_decide as Hs.
    + subst pre. cbn in Hxs. subst. by apply wp_ret.
    + destruct pre as [|x pre _] using rev_ind; [done|]. apply wp_bind.
      rewrite (rit_at_value _ _ _ Hit), last_or_snoc.
      rewrite <- app_assoc in Hxs.
      eapply wp_mono; [eapply law_rit_next; [done|by rewrite Hl, Hxs|done]|].
      intros it' s [Hit' ->]. apply wp_ret. exists (length pre).
      split; [rewrite length_app; cbn; lia|].
      split; [done|]. exists pre, (x :: suf). by rewrite reverse_cons.
  - split; [done|]. exists xs, []. by rewrite app_nil_r.
  - done.
Qed.
Lemma wp_silent m (c : M Mem unit) σ' :
  wp c m (fun _ m' => lrep m' σ') ->
  wp (silent c) m (fun r m' => r = [] /\ lrep m' σ').
Proof. intros Hc. apply wp_bind. eapply wp_mono; [exact Hc|]. intros ? m' ?. by apply wp_ret. Qed.

Lemma wp_observe m (c : M Mem Z) σ z :
  wp c m (fun r m' => r = z /\ m' = m) -> lrep m σ ->
  wp (observe c) m (fun r m' => r = [z] /\ lrep m' σ).
Proof.
  intros Hc Hrep. apply wp_bind. eapply wp_mono; [exact Hc|].
  intros r m' [-> ->]. by apply wp_ret.
Qed.

(** An operation at an iterator that a search found. *)
Lemma wp_found {A} m (c : M Mem A) (k : A -> M Mem unit) σ' (P : A -> Prop) :
  wp c m (fun a m' => P a /\ m' = m) ->
  (forall a, P a -> wp (k a) m (fun _ m' => lrep m' σ')) ->
  wp (silent (a ← c; k a)) m (fun r m' => r = [] /\ lrep m' σ').
Proof.
  intros Hc Hk. apply wp_silent, wp_bind. eapply wp_mono; [exact Hc|].
  intros a m' [Ha ->]. by apply Hk.
Qed.

Ltac guards :=
  repeat match goal with
  | H : ?o ≫= _ = Some _ |- _ => apply bind_Some in H as (? & ? & H)
  | H : guard _;; _ = Some _ |- _ => apply bind_Some in H as (? & ? & H)
  | H : split_at _ _ = Some (_, _) |- _ => apply split_at_Some in H as (? & -> & ->)
  | p : (list Z * list Z)%type |- _ => destruct p
  | H : Some _ = Some _ |- _ => injection H as <- <-
  end.

(** One command implements its abstract step. *)
Lemma run_cmd_refines m σ c σ' out :
  lrep m σ -> abs_step σ c = Some (σ', out) ->
  wp (run_cmd c) m (fun r m' => r = out /\ lrep m' σ').
Proof.
  intros Hrep Hc. destruct c; cbn [abs_step run_cmd] in *; guards.
  - apply wp_silent. by eapply law_init.
  - apply wp_silent. by eapply law_hook_init.
  - apply wp_silent. by eapply law_hook_dispose.
  - apply wp_silent. by eapply law_append.
  - apply wp_silent. by eapply law_prepend.
  - eapply wp_found; [by eapply law_it_from_value|]. intros it Hit. by eapply law_insert.
  - eapply wp_found; [by eapply law_end|]. intros it Hit. eapply law_insert; [done| |done|done].
    by rewrite app_nil_r.
  - eapply wp_found; [by eapply law_rit_from_value|]. intros it Hit.
    eapply law_rinsert; [done| |done|done]. by rewrite <- app_assoc.
  - eapply wp_found; [by eapply law_it_from_value|]. intros it Hit. by eapply law_erase.
  - apply wp_silent. destruct x as [|y xs]; [done|]. simplify_eq/=. by eapply law_pop_front.
  - apply wp_silent. destruct (proj1 (last_Some _ _) H0) as [xs ->].
    rewrite length_app, Nat.add_sub, take_app_length. by eapply law_pop_back.
  - apply wp_silent. by eapply law_clear.
  - apply wp_silent. by eapply law_move.
  - apply wp_silent. by eapply law_swap.
  - eapply wp_observe; [by eapply law_front|done].
  - eapply wp_observe; [by eapply law_back|done].
  - eapply wp_observe; [by eapply law_size|done].
  - eapply wp_observe; [|done]. apply wp_bind. eapply wp_mono; [by eapply law_empty|].
    intros b s [-> ->]. apply wp_ret. by case_bool_decide; case_decide.
  - by eapply wp_collect.
  - by eapply wp_rcollect.
Qed.

Lemma run_cmds_refines cs : forall m σ σ' outs,
  lrep m σ -> abs_steps σ cs = Some (σ', outs) ->
  wp (run_cmds cs) m (fun rs m' => rs = outs /\ lrep m' σ').
Proof.
  induction cs as [|c cs IH]; intros m σ σ' outs Hrep; cbn [abs_steps run_cmds].
  - intros [= <- <-]. by apply wp_ret.
  - intros ([σ1 r] & Hc & Hcs)%bind_Some. apply bind_Some in Hcs as ([σ2 rs] & Hcs & [= <- <-]).
    apply wp_bind. eapply wp_mono; [by eapply run_cmd_refines|].
    intros r' m1 [-> Hrep1]. apply wp_bind. eapply wp_mono; [by eapply IH|].
    intros rs' m2 [-> Hrep2]. by apply wp_ret.
Qed.

Lemma wp_size_linear m σ l xs fuel :
  lrep m σ -> chains σ !! l = Some xs -> (length xs < fuel)%nat ->
  Z.of_nat (length xs) < SIZE_MOD ->
  wp (list_size_linear fuel l) m (fun r m' => r = Z.of_nat (length xs) /\ m' = m).
Proof.
  intros Hrep Hl Hf Hn. apply wp_bind. eapply wp_collect; [done..|]. apply wp_ret.
  split; [|done]. apply to_size_small. lia.
Qed.
End refinement.

(** The abstract state before any list or hook exists. *)
Definition no_lists : lspec := LSpec ∅ ∅.

Lemma no_lists_rep {H} (enc : Z -> Z -> H) : seg_rep enc (LMem ∅ ∅) no_lists.
Proof. split; [split|..]; cbn; intros *; rewrite ?lookup_empty; set_solver. Qed.
