(* ===== verification/ListTheorems.v ===== *)
(** * What is proved of [list.c]

    The refinement of [ListSim] for the two memory layouts, their agreement,
    the two ways of computing the size, and the removal through a reverse
    iterator, which is right in the default layout only. *)

From S2P Require Import Prelude ListSpec ListSeg ListCheck ListCommon.
From S2P Require Import ListXor ListXorSpec ListPtr ListPtrSpec ListSim.

(** A program that exercises most of the interface. *)
Definition sample_program : list list_cmd :=
  [CInit 1; CInit 2; CHookInit 16; CHookInit 32; CHookInit 48; CHookInit 64;
   CAppend 1 16; CAppend 1 48; CInsertBefore 1 32 48; CRInsertAfter 1 64 32;
   CWalk 1 8; CRWalk 1 8; CErase 1 32; CSize 1; CMove 1 2; CEmpty 1; CPopFront 2;
   CPopBack 2; CWalk 2 8].

Definition sample_outputs : list (list Z) :=
  [[]; []; []; []; []; []; []; []; []; []; [16; 32; 64; 48]; [48; 64; 32; 16];
   []; [3]; []; [1]; []; []; [64]].

(** C3: with the default layout of [list.c], every sequence of list operations
    that respects the preconditions of [list.h] (lists initialised, hooks live
    and in no other list, values present where an iterator is made from them)
    runs to completion from the empty memory: no assertion fails, no pointer
    is followed to NULL or to memory that holds no hook, every loop ends; and
    all the values it returns, and the memory it leaves, are those of the
    abstract sequences. *)
Theorem list_refines (cs : list list_cmd) (σ : lspec) (outs : list (list Z))
    (Hlegal : abs_steps no_lists cs = Some (σ, outs)) :
  exists m', run_cmds (Mem := mem) (It := dfk_list_it) cs (LMem ∅ ∅) = Ok (outs, m') /\
    seg_rep enc m' σ.
Proof.
  pose proof (run_cmds_refines (Mem := mem) cs (LMem ∅ ∅) no_lists σ outs) as Hw.
  apply wp_run in Hw as (rs & m' & Hrun & -> & Hrep); [|apply no_lists_rep|done].
  by exists m'.
Qed.

Lemma list_refines_witness :
  option_map snd (abs_steps no_lists sample_program) = Some sample_outputs /\
  exists m', run_cmds (Mem := mem) (It := dfk_list_it) sample_program (LMem ∅ ∅) =
    Ok (sample_outputs, m').
Proof.
  split; [vm_compute; reflexivity|].
  edestruct (list_refines sample_program) as (m' & Hrun & _); [vm_compute; reflexivity|].
  exists m'. exact Hrun.
Defined.

(** C23: programs of the operations of [list_cmd], which are all that change or
    read a list but the removal through a reverse iterator, run on the memory-optimised
    layout ([DFK_LIST_MEMORY_OPTIMIZED], one XOR-ed pointer per hook) to
    completion with the same values as on the default one.
    [dfk_list_rerase] is no such operation: with it the layouts differ, see
    [list_rerase_correct] and [list_rerase_xor_broken]. *)
Theorem list_layouts_agree (cs : list list_cmd) (σ : lspec) (outs : list (list Z))
    (Hlegal : abs_steps no_lists cs = Some (σ, outs)) :
  exists m1 m2,
    run_cmds (Mem := mem) (It := dfk_list_it) cs (LMem ∅ ∅) = Ok (outs, m1) /\
    run_cmds (Mem := ListXor.xmem) (It := ListXor.xor_it) cs (LMem ∅ ∅) = Ok (outs, m2) /\
    seg_rep enc m1 σ /\ seg_rep ListXorSpec.enc m2 σ.
Proof.
  pose proof (run_cmds_refines (Mem := mem) cs (LMem ∅ ∅) no_lists σ outs) as Hw.
  pose proof (run_cmds_refines (Mem := ListXor.xmem) cs (LMem ∅ ∅) no_lists σ outs) as Hx.
  apply wp_run in Hw as (rs & m1 & Hrun1 & -> & Hrep1); [|apply no_lists_rep|done].
  apply wp_run in Hx as (rs & m2 & Hrun2 & -> & Hrep2); [|apply no_lists_rep|done].
  by exists m1, m2.
Qed.

Lemma list_layouts_agree_witness :
  exists m2,
    run_cmds (Mem := ListXor.xmem) (It := ListXor.xor_it) sample_program (LMem ∅ ∅) =
      Ok (sample_outputs, m2).
Proof.
  edestruct (list_layouts_agree sample_program) as (m1 & m2 & _ & Hrun & _);
    [vm_compute; reflexivity|].
  exists m2. exact Hrun.
Defined.

(** Removal through a reverse iterator in the default layout takes out
    exactly the hook the iterator stands on, wherever it is. *)
Theorem list_rerase_correct (m : mem) (σ : lspec) (l x : Z) (rit : dfk_list_it)
    (pre suf : list Z)
    (Hrep : seg_rep enc m σ) (Hl : chains σ !! l = Some (pre ++ x :: suf))
    (Hit : at_rit rit (pre ++ [x]) suf) :
  exists m', dfk_list_rerase l rit m = Ok (tt, m') /\
    seg_rep enc m' (rechain l (pre ++ suf) (release x σ) σ).
Proof.
  pose proof (dfk_list_rerase_spec m σ l x rit pre suf Hrep Hl Hit) as Hw.
  apply wp_run in Hw as ([] & m' & Hrun & Hrep'). eauto.
Qed.

(** Three hooks chained in one list, in both layouts. *)
Definition three : lspec := LSpec {[1 := [16; 32; 64]]} ∅.
Definition three_mem {H} (enc : Z -> Z -> H) : lmem H :=
  LMem {[1 := list_obj [16; 32; 64]]} {[16 := enc 0 32; 32 := enc 16 64; 64 := enc 32 0]}.

Lemma three_rep {H} (enc : Z -> Z -> H) : seg_rep enc (three_mem enc) three.
Proof.
  assert (forall l xs, chains three !! l = Some xs -> l = 1 /\ xs = [16; 32; 64]) as Hin.
  { intros l xs. cbn. rewrite lookup_singleton_Some. naive_solver. }
  split; [split|..].
  - by intros l xs [-> _]%Hin.
  - intros l xs [_ ->]%Hin. by apply (bool_decide_unpack _).
  - by intros l1 l2 xs1 xs2 x [-> _]%Hin [-> _]%Hin.
  - cbn. set_solver.
  - intros l xs x [_ ->]%Hin Hx. unfold valid_addr, SIZE_MOD, SIZE_BITS.
    repeat (apply elem_of_cons in Hx as [->|Hx]; [lia|]). set_solver.
  - cbn. set_solver.
  - by intros l xs [-> ->]%Hin.
  - by intros l xs [_ ->]%Hin.
  - cbn. set_solver.
Qed.

Lemma list_rerase_correct_witness :
  exists m', dfk_list_rerase 1 (It 32) (three_mem enc) = Ok (tt, m').
Proof.
  destruct (list_rerase_correct (three_mem enc) three 1 32 (It 32) [16] [64]) as (m' & Hrun & _);
    [apply three_rep|reflexivity|reflexivity|].
  exists m'. exact Hrun.
Defined.

(** The size the list object stores is the one that the build without
    [DFK_LIST_CONSTANT_TIME_SIZE] computes by walking the list, and the walk
    ends. *)
Theorem list_size_agrees (m : mem) (σ : lspec) (l : Z) (xs : list Z) (fuel : nat)
    (Hrep : seg_rep enc m σ) (Hl : chains σ !! l = Some xs)
    (Hfuel : (length xs < fuel)%nat) :
  dfk_list_size l m = Ok (Z.of_nat (length xs), m) /\
  list_size_linear fuel l m = Ok (Z.of_nat (length xs), m).
Proof.
  pose proof (law_size m σ l xs Hrep Hl) as Hs.
  apply wp_run in Hs as (r & m' & Hrun & -> & ->).
  pose proof (wp_size_linear m σ l xs fuel Hrep Hl Hfuel) as Hw.
  apply wp_run in Hw as (r & m' & Hrun' & -> & ->); [done|].
  by eapply chain_length.
Qed.

Lemma list_size_agrees_witness :
  list_size_linear 4 1 (three_mem enc) = Ok (3, three_mem enc).
Proof.
  refine (proj2 (list_size_agrees (three_mem enc) three 1 [16; 32; 64] 4 _ _ _));
    [apply three_rep|reflexivity|cbn; lia].
Defined.

(** C34: in the memory-optimised layout [dfk_list_rerase] is wrong for every
    hook [x] that has a neighbour on both sides (unless the XOR of the two
    neighbours happens to be the address of [x]): it does not leave the list
    without [x]; it fails, or corrupts the list. *)
Theorem list_rerase_xor_broken (m : ListXor.xmem) (σ : lspec) (l a x b : Z)
    (rit : ListXor.xor_it) (pre suf : list Z)
    (Hrep : seg_rep ListXorSpec.enc m σ)
    (Hl : chains σ !! l = Some ((pre ++ [a]) ++ x :: b :: suf))
    (Hit : ListXorSpec.at_rit rit ((pre ++ [a]) ++ [x]) (b :: suf))
    (Hxor : Z.lxor a b <> x) :
  forall m', ListXor.dfk_list_rerase l rit m = Ok (tt, m') ->
    ~ seg_rep ListXorSpec.enc m'
        (rechain l ((pre ++ [a]) ++ b :: suf) (release x σ) σ).
Proof.
  intros m' Hrun Hrep'.
  pose proof (rerase_inner_frame m σ l rit pre a x b suf Hrep Hl Hit Hxor tt m' Hrun) as Ha.
  destruct (seg_hook_at _ _ Hrep _ _ Hl pre a (x :: b :: suf)) as [_ Hm];
    [by rewrite <- app_assoc|].
  destruct (seg_hook_at _ _ Hrep' l _ (rechain_at _ _ _ _) pre a (b :: suf)) as [_ Hm'];
    [by rewrite <- app_assoc|].
  rewrite Ha, Hm in Hm'. injection Hm' as Heq. cbn in Heq.
  assert (x = b) as -> by (eapply ListXorSpec.enc_inj; unfold ListXorSpec.enc; by rewrite Heq).
  pose proof (chain_nodup _ _ Hrep _ _ Hl) as (_ & _ & [Hx _]%NoDup_cons)%NoDup_app.
  set_solver.
Qed.

(** The removal of the middle of three hooks ends in a wild access. *)
Lemma list_rerase_xor_broken_witness :
  ListXor.dfk_list_rerase 1 (ListXor.XIt 64 32) (three_mem ListXorSpec.enc) = Err WildPtr /\
  forall m', ListXor.dfk_list_rerase 1 (ListXor.XIt 64 32) (three_mem ListXorSpec.enc) = Ok (tt, m') ->
    ~ seg_rep ListXorSpec.enc m' (rechain 1 [16; 64] (release 32 three) three).
Proof.
  split; [vm_compute; reflexivity|].
  apply (list_rerase_xor_broken (three_mem ListXorSpec.enc) three 1 16 32 64 _ [] []);
    [apply three_rep|reflexivity|split; reflexivity|discriminate].
Defined.
