(* ===== verification/Arena.v ===== *)
(** * [arena.c]: memory arenas

    An arena is a list of segments, each a block of memory that starts with a
    [segment_t], and a list of the objects that have a cleanup function.  The
    lists are reached through their interface, whatever the layout; the header
    of a segment and of an object with cleanup are typed objects, by the
    address of the block, respectively of the object. *)

From S2P Require Import Prelude ListSpec Bytes.

Record dfk_arena_t := ArenaObj { adfk : Z }.
Record segment_t := Segment { seg_size : Z; used : Z }.
Record owc_t := Owc { cleanup : Z }.

(** The last component records the cleanup calls: function and argument. *)
Record armem (Mem : Type) := ArMem {
  ar_lists : Mem;
  ar_bytes : bmem;
  arenas : gmap Z dfk_arena_t;
  segments : gmap Z segment_t;
  owcs : gmap Z owc_t;
  cleaned : list (Z * Z)
}.
Arguments ArMem {Mem}.
Arguments ar_lists {Mem}.
Arguments ar_bytes {Mem}.
Arguments arenas {Mem}.
Arguments segments {Mem}.
Arguments owcs {Mem}.
Arguments cleaned {Mem}.

Definition alists {Mem} : lens (armem Mem) Mem :=
  Lens ar_lists (fun l m => ArMem l (ar_bytes m) (arenas m) (segments m) (owcs m) (cleaned m)).
Definition abytes {Mem} : lens (armem Mem) bmem :=
  Lens ar_bytes (fun b m => ArMem (ar_lists m) b (arenas m) (segments m) (owcs m) (cleaned m)).
Definition arenas_of {Mem} : heap_of (armem Mem) dfk_arena_t :=
  Heap arenas (fun h m => ArMem (ar_lists m) (ar_bytes m) h (segments m) (owcs m) (cleaned m)).
Definition segments_of {Mem} : heap_of (armem Mem) segment_t :=
  Heap segments (fun h m => ArMem (ar_lists m) (ar_bytes m) (arenas m) h (owcs m) (cleaned m)).
Definition owcs_of {Mem} : heap_of (armem Mem) owc_t :=
  Heap owcs (fun h m => ArMem (ar_lists m) (ar_bytes m) (arenas m) (segments m) h (cleaned m)).

(** Sizes of the structures, [DFK_ARENA_SEGMENT_SIZE], and the list members of
    an arena. *)
Definition SEGMENT_T : Z := 32.
Definition OWC_T : Z := 24.
Definition ARENA_SEGMENT_SIZE : Z := 40960.
Definition _segments (arena : Z) : Z := arena + 8.
Definition _owc (arena : Z) : Z := arena + 32.

Section arena.
Context {Mem It : Type} `{!ListOps Mem It} (malloc : bmem -> Z -> Z).

Definition dfk_arena_init (arena dfk : Z) : M (armem Mem) unit :=
  c_assert (nonnull arena);;
  c_assert (nonnull dfk);;
  zoom alists (list_init (_segments arena));;
  zoom alists (list_init (_owc arena));;
  store arenas_of arena (ArenaObj dfk).

(** [cleanup(arena, obj)] *)
Definition call_cleanup (f obj : Z) : M (armem Mem) unit :=
  modify (fun m => ArMem (ar_lists m) (ar_bytes m) (arenas m) (segments m) (owcs m)
                         (cleaned m ++ [(f, obj)])).

Definition cleanup_body (end_ : It) (it : It) : M (armem Mem) (It + unit) :=
  stop ← zoom alists (list_it_equal it end_);
  if stop : bool then mret (inr tt) else
  o ← deref owcs_of (it_value it);
  call_cleanup (cleanup o) (it_value it + OWC_T);;
  it' ← zoom alists (list_it_next it);
  mret (inl it').

(** The lifetime of the header ends with its block. *)
Definition release_body (arena : Z) (u : unit) : M (armem Mem) (unit + unit) :=
  empty ← zoom alists (list_empty (_segments arena));
  if empty : bool then mret (inr tt) else
  segment ← zoom alists (list_front (_segments arena));
  zoom alists (list_pop_front (_segments arena));;
  a ← deref arenas_of arena;
  zoom abytes (dfk__free segment);;
  zoom alists (hook_dispose segment);;
  dispose segments_of segment;;
  mret (inl tt).

(** [fuel] bounds the lengths of the two lists. *)
Definition dfk_arena_free (fuel : nat) (arena : Z) : M (armem Mem) unit :=
  c_assert (nonnull arena);;
  it ← zoom alists (list_begin (_owc arena));
  end_ ← zoom alists (list_end (_owc arena));
  loop fuel (cleanup_body end_) it;;
  loop fuel (release_body arena) tt.

Definition dfk__arena_current_segment (arena : Z) : M (armem Mem) Z :=
  zoom alists (list_back (_segments arena)).

Definition dfk__arena_bytes_available (arena : Z) : M (armem Mem) Z :=
  c_assert (nonnull arena);;
  seg ← dfk__arena_current_segment arena;
  c_assert (nonnull seg);;
  s ← deref segments_of seg;
  c_assert (used s <? seg_size s);;
  mret (to_size (seg_size s - used s)).

(** [dfk_list_empty(..) || dfk__arena_bytes_available(arena) < size] *)
Definition needs_segment (arena size : Z) : M (armem Mem) bool :=
  empty ← zoom alists (list_empty (_segments arena));
  if empty : bool then mret true else
  avail ← dfk__arena_bytes_available arena;
  mret (avail <? size).

Definition dfk_arena_alloc (arena size : Z) : M (armem Mem) Z :=
  c_assert (nonnull arena);;
  c_assert (negb (size =? 0));;
  fresh ← needs_segment arena size;
  if fresh : bool then
    let toalloc := Z.max ARENA_SEGMENT_SIZE (to_size (size + SEGMENT_T)) in
    a ← deref arenas_of arena;
    s ← zoom abytes (dfk__malloc malloc toalloc);
    if isnull s then mret 0 else
    zoom alists (hook_init s);;
    zoom alists (list_append (_segments arena) s);;
    store segments_of s
      (Segment (ARENA_SEGMENT_SIZE - SEGMENT_T) (to_size (SEGMENT_T + size)));;
    mret (s + SEGMENT_T)
  else
    seg ← dfk__arena_current_segment arena;
    s ← deref segments_of seg;
    let ret := seg + used s in
    update segments_of seg (fun s => Segment (seg_size s) (to_size (used s + size)));;
    mret ret.

Definition dfk_arena_alloc_copy (arena data size : Z) : M (armem Mem) Z :=
  c_assert (nonnull arena);;
  c_assert (nonnull data);;
  c_assert (negb (size =? 0));;
  allocated ← dfk_arena_alloc arena size;
  when (nonnull allocated) (zoom abytes (memcpy allocated data size));;
  mret allocated.

Definition dfk_arena_alloc_ex (arena size cleanup : Z) : M (armem Mem) Z :=
  c_assert (nonnull arena);;
  c_assert (negb (size =? 0));;
  c_assert (nonnull cleanup);;
  owc ← dfk_arena_alloc arena (to_size (OWC_T + size));
  if isnull owc then mret 0 else
  zoom alists (hook_init owc);;
  zoom alists (list_append (_owc arena) owc);;
  store owcs_of owc (Owc cleanup);;
  mret (owc + OWC_T).

Definition dfk_arena_alloc_copy_ex (arena data size cleanup : Z) : M (armem Mem) Z :=
  c_assert (nonnull arena);;
  c_assert (nonnull data);;
  c_assert (negb (size =? 0));;
  c_assert (nonnull cleanup);;
  allocated ← dfk_arena_alloc_ex arena size cleanup;
  when (nonnull allocated) (zoom abytes (memcpy allocated data size));;
  mret allocated.

End arena.
