(* ===== verification/ArenaTheorems.v ===== *)
(** * What is proved of [arena.c]

    Allocations from an arena are disjoint, lie in live storage and keep the
    data copied into them; freeing the arena gives every block back and calls
    every cleanup function once, in order.  An arena stops working once a
    segment is filled to its end: the next allocation fails an assertion. *)

From S2P Require Import Prelude ListSpec ListSeg ListPtr ListPtrSpec ListSim Bytes Arena.

(** ** Pairwise disjoint ranges *)

(** Address and length. *)
Definition range_apart (r s : Z * Z) : Prop := r.1 + r.2 <= s.1 \/ s.1 + s.2 <= r.1.

Fixpoint pairwise_apart (rs : list (Z * Z)) : Prop :=
  match rs with [] => True | r :: rs => Forall (range_apart r) rs /\ pairwise_apart rs end.

Lemma pairwise_snoc rs r :
  pairwise_apart (rs ++ [r]) <-> pairwise_apart rs /\ Forall (fun s => range_apart s r) rs.
Proof.
  induction rs as [|s rs IH]; cbn; [by rewrite Forall_nil|].
  rewrite Forall_app, Forall_cons, Forall_cons, Forall_nil, IH. tauto.
Qed.

Lemma snoc_inv {A} (xs : list A) : xs = [] \/ exists xs' x, xs = xs' ++ [x].
Proof. destruct xs as [|x xs _] using rev_ind; [by left|right; eauto]. Qed.

(** ** Representation *)

Section arena.
Context {Mem It : Type} `{!ListOps Mem It, !ListLaws Mem It}.

(** A segment: address and size of its block, and what is used of it. *)
Record gseg := GSeg { g_addr : Z; g_block : Z; g_used : Z }.
#[local] Instance gseg_eq_dec : EqDecision gseg.
Proof. solve_decision. Defined.

(** An allocation: address, length, and the data copied into it. *)
Record region := Region { r_addr : Z; r_len : Z; r_data : option (list Z) }.

Definition seg_range (g : gseg) : Z * Z := (g_addr g, g_block g).
Definition reg_range (r : region) : Z * Z := (r_addr r, r_len r).

Record seg_ok (m : armem Mem) (g : gseg) : Prop := SegOk {
  so_pos : 0 < g_addr g;
  so_aligned : aligned (g_addr g) = true;
  so_end : g_addr g + g_block g <= USER_END;
  so_obj : segments m !! g_addr g = Some (Segment (ARENA_SEGMENT_SIZE - SEGMENT_T) (g_used g));
  so_used : SEGMENT_T <= g_used g <= g_block g;
  so_block : ARENA_SEGMENT_SIZE <= g_block g;
  so_room : room_at (ar_bytes m) (g_addr g) (g_block g)
}.

Definition in_segment (r : region) (g : gseg) : Prop :=
  g_addr g + SEGMENT_T <= r_addr r /\ r_addr r + r_len r <= g_addr g + g_used g.

Record reg_ok (m : armem Mem) (gs : list gseg) (r : region) : Prop := RegOk {
  ro_len : 0 < r_len r;
  ro_in : exists g, g ∈ gs /\ in_segment r g;
  ro_data : forall bs, r_data r = Some bs ->
    Z.of_nat (length bs) <= r_len r /\ bytes_at (ar_bytes m) (r_addr r) bs
}.

Definition own_blocks (rs : list (Z * Z)) (B : gmap Z Z) : gmap Z Z :=
  foldr (fun r h => <[r.1 := r.2]> h) B rs.

(** The lists of the arena: its segments and its objects with cleanup. *)
Definition arena_lists (arena : Z) (gs : list gseg) (os : list (Z * Z)) : lspec :=
  LSpec {[ _segments arena := g_addr <$> gs; _owc arena := os.*1 ]} ∅.

(** The state of an arena: its segments, its allocations, its objects with
    cleanup (address and function); [B]: the blocks of others; [ub, un]: a
    buffer of the caller. *)
Record arena_rep (m : armem Mem) (arena : Z) (gs : list gseg) (rs : list region)
    (os : list (Z * Z)) (B : gmap Z Z) (ub un : Z) : Prop := ArenaRep {
  ar_ne : 0 < arena;
  ar_obj : is_Some (arenas m !! arena);
  ar_rep : lrep (ar_lists m) (arena_lists arena gs os);
  ar_segs : forall g, g ∈ gs -> seg_ok m g;
  ar_apart : pairwise_apart (seg_range <$> gs);
  ar_blocks : blocks (ar_bytes m) = own_blocks (seg_range <$> gs) B;
  ar_others : forall g, g ∈ gs -> B !! g_addr g = None;
  ar_regs : forall r, r ∈ rs -> reg_ok m gs r;
  ar_disjoint : pairwise_apart (reg_range <$> rs);
  ar_owcs : forall o f, (o, f) ∈ os ->
    owcs m !! o = Some (Owc f) /\ exists r, r ∈ rs /\ r_addr r = o /\ r_len r = OWC_T;
  ar_user : room_at (ar_bytes m) ub un /\ 0 <= un /\ ub + un <= USER_END /\
    forall g, g ∈ gs -> apart_ranges (g_addr g) (g_block g) ub un
}.

Definition remaining (gs : list gseg) : option Z :=
  (fun g => ARENA_SEGMENT_SIZE - SEGMENT_T - g_used g) <$> last gs.

(** What is left of the current segment once [size] bytes are allocated. *)
Definition take_bytes (rem : option Z) (size : Z) : Z :=
  match rem with
  | Some k => if k <? size then ARENA_SEGMENT_SIZE - 2 * SEGMENT_T - size else k - size
  | None => ARENA_SEGMENT_SIZE - 2 * SEGMENT_T - size
  end.

(** The current segment is full. *)
Definition full (rem : option Z) : Prop := match rem with Some k => k <= 0 | None => False end.

#[local] Instance full_dec rem : Decision (full rem).
Proof. destruct rem; apply _. Defined.

Lemma lists_ne arena : _segments arena <> _owc arena.
Proof. unfold _segments, _owc. lia. Qed.

Lemma segs_chain arena gs os :
  chains (arena_lists arena gs os) !! _segments arena = Some (g_addr <$> gs).
Proof. cbn. by rewrite lookup_insert_eq. Qed.
Lemma owc_chain arena gs os : chains (arena_lists arena gs os) !! _owc arena = Some os.*1.
Proof. cbn. rewrite lookup_insert_ne by apply lists_ne. by rewrite lookup_singleton_eq. Qed.

(** A list operation that only reads. *)
Lemma wp_read_list {A} (m : armem Mem) (c : M Mem A) (P : A -> Prop)
    (Q : A -> armem Mem -> Prop) :
  wp c (ar_lists m) (fun r m' => P r /\ m' = ar_lists m) -> (forall r, P r -> Q r m) ->
  wp (zoom alists c) m Q.
Proof.
  intros Hc HQ. apply wp_zoom. eapply wp_mono; [exact Hc|]. intros r m' [Hr ->].
  replace (lset alists (ar_lists m) m) with m by by destruct m. by apply HQ.
Qed.

(** ** Allocation *)

Section alloc.
Context (malloc : bmem -> Z -> Z) (Hmalloc : malloc_ok malloc).
Context (m : armem Mem) (arena : Z) (gs : list gseg) (rs : list region) (os : list (Z * Z)).
Context (B : gmap Z Z) (ub un : Z).
Context (Hrep : arena_rep m arena gs rs os B ub un).

Lemma arena_nonnull : nonnull arena = true.
Proof using Hrep. apply nonnull_true. pose proof (ar_ne _ _ _ _ _ _ _ _ Hrep). lia. Qed.

Lemma current_segment_spec gs0 g (Q : Z -> armem Mem -> Prop) :
  gs = gs0 ++ [g] -> Q (g_addr g) m -> wp (dfk__arena_current_segment arena) m Q.
Proof using Hrep.
  intros Hgs HQ. eapply wp_read_list; [eapply law_back; [apply Hrep|apply segs_chain]|].
  intros r ->. rewrite Hgs, fmap_app. cbn. by rewrite last_or_snoc.
Qed.

Lemma last_seg gs0 g : gs = gs0 ++ [g] -> seg_ok m g.
Proof using Hrep. intros Hgs. apply (ar_segs _ _ _ _ _ _ _ _ Hrep). rewrite Hgs.
  apply elem_of_app. right. by apply list_elem_of_singleton.
Qed.

Lemma list_empty_spec (Q : bool -> armem Mem -> Prop) :
  Q (bool_decide (gs = [])) m -> wp (zoom alists (list_empty (_segments arena))) m Q.
Proof using Hrep.
  intros HQ. eapply wp_read_list; [eapply law_empty; [apply Hrep|apply segs_chain]|].
  intros r ->. by replace (bool_decide (g_addr <$> gs = [])) with (bool_decide (gs = []))
    by (apply bool_decide_ext; by destruct gs).
Qed.

(** The size field of a segment is that of an ordinary one, whatever the size
    of its block. *)
Lemma needs_segment_spec size (Q : bool -> armem Mem -> Prop) :
  ~ full (remaining gs) ->
  Q (match remaining gs with Some k => k <? size | None => true end) m ->
  wp (needs_segment arena size) m Q.
Proof using Hrep.
  intros Hfull HQ. unfold needs_segment. apply wp_bind, list_empty_spec.
  destruct (snoc_inv gs) as [Egs|(gs0 & g & Egs)].
  { rewrite Egs in HQ |- *. by apply wp_ret. }
  rewrite bool_decide_false by (rewrite Egs; by destruct gs0).
  unfold remaining in *. rewrite Egs, last_snoc in Hfull, HQ. cbn in Hfull, HQ.
  destruct (last_seg gs0 g Egs) as [Hp Ha He Ho Hu _ Hr].
  apply wp_bind. unfold dfk__arena_bytes_available.
  apply wp_bind, wp_assert; [apply arena_nonnull|].
  apply wp_bind. eapply current_segment_spec; [done|]. cbn beta.
  apply wp_bind, wp_assert; [apply nonnull_true; lia|].
  apply wp_bind. eapply wp_deref; [lia|done|]. cbn [used seg_size].
  apply wp_bind, wp_assert; [apply Z.ltb_lt; lia|].
  apply wp_ret, wp_ret. rewrite to_size_small; [done|].
  unfold SEGMENT_T, ARENA_SEGMENT_SIZE, SIZE_MOD, SIZE_BITS in *. lia.
Qed.

Lemma alloc_full size : full (remaining gs) -> size <> 0 ->
  dfk_arena_alloc malloc arena size m = Err AssertFailed.
Proof using Hrep.
  intros Hfull Hsize.
  destruct (snoc_inv gs) as [Egs|(gs0 & g & Egs)]; [by rewrite Egs in Hfull|].
  unfold remaining in Hfull. rewrite Egs, last_snoc in Hfull. cbn in Hfull.
  destruct (last_seg gs0 g Egs) as [Hp Ha He Ho Hu _ Hr].
  assert (needs_segment arena size m = Err AssertFailed) as Hn.
  { pose proof (list_empty_spec (fun b m' => b = bool_decide (gs = []) /\ m' = m)) as Hemp.
    specialize (Hemp (conj eq_refl eq_refl)). apply wp_run in Hemp as (b & m' & Hemp & -> & ->).
    pose proof (current_segment_spec gs0 g (fun p m' => p = g_addr g /\ m' = m) Egs (conj eq_refl eq_refl)) as Hcur.
    apply wp_run in Hcur as (p & m' & Hcur & -> & ->).
    unfold needs_segment, mbind, M_bind. rewrite Hemp.
    rewrite bool_decide_false by (rewrite Egs; by destruct gs0).
    unfold dfk__arena_bytes_available, mbind, M_bind. rewrite arena_nonnull. cbn. rewrite Hcur.
    rewrite nonnull_true by lia. cbn. unfold deref. rewrite decide_False by lia. cbn.
    rewrite Ho. cbn. by rewrite (proj2 (Z.ltb_ge _ _)) by lia. }
  unfold dfk_arena_alloc, mbind, M_bind. rewrite arena_nonnull. cbn.
  rewrite (proj2 (Z.eqb_neq _ _)) by done. cbn. by rewrite Hn.
Qed.
End alloc.

Lemma own_blocks_cons r rs B : own_blocks (r :: rs) B = <[r.1 := r.2]> (own_blocks rs B).
Proof. done. Qed.
Lemma own_blocks_snoc rs r B : own_blocks (rs ++ [r]) B = own_blocks rs (<[r.1 := r.2]> B).
Proof. unfold own_blocks. by rewrite foldr_app. Qed.

Lemma own_blocks_insert rs a n B : (forall r, r ∈ rs -> r.1 <> a) ->
  own_blocks rs (<[a := n]> B) = <[a := n]> (own_blocks rs B).
Proof.
  induction rs as [|r rs IH]; intros Hne; [done|].
  change (<[r.1 := r.2]> (own_blocks rs (<[a := n]> B)) = <[a := n]> (<[r.1 := r.2]> (own_blocks rs B))).
  rewrite IH by set_solver.
  apply insert_insert_ne, Hne. set_solver.
Qed.

Lemma own_blocks_None rs B a : own_blocks rs B !! a = None -> B !! a = None.
Proof.
  induction rs as [|r rs IH]; [done|]. cbn. intros [H1 H2]%lookup_insert_None. auto.
Qed.

Lemma seg_addr_ne m gs0 g g' : seg_ok m g -> seg_ok m g' -> g' ∈ gs0 ->
  pairwise_apart (seg_range <$> gs0 ++ [g]) -> g_addr g' <> g_addr g.
Proof.
  intros Hg Hg' Hin Hp. rewrite fmap_app in Hp. apply pairwise_snoc in Hp as [_ Hp].
  rewrite Forall_forall in Hp. specialize (Hp (seg_range g') ltac:(by apply list_elem_of_fmap_2)).
  unfold range_apart, seg_range in Hp. cbn in Hp.
  pose proof (so_block _ _ Hg). pose proof (so_block _ _ Hg').
  unfold ARENA_SEGMENT_SIZE in *. lia.
Qed.

(** A region of an earlier segment, or of what is used of the last one, ends
    before what is still free of it. *)
Lemma region_apart_tail m gs0 g r size :
  seg_ok m g -> g_used g + size <= g_block g -> 0 <= size ->
  pairwise_apart (seg_range <$> gs0 ++ [g]) ->
  (forall g', g' ∈ gs0 -> seg_ok m g') ->
  reg_ok m (gs0 ++ [g]) r -> range_apart (reg_range r) (g_addr g + g_used g, size).
Proof.
  intros Hg Hfit Hsz Hp Hgs [Hlen (g' & Hin & Hi1 & Hi2) _].
  apply elem_of_app in Hin as [Hin|Hin%list_elem_of_singleton].
  - rewrite fmap_app in Hp. apply pairwise_snoc in Hp as [_ Hp]. rewrite Forall_forall in Hp.
    specialize (Hp (seg_range g') ltac:(by apply list_elem_of_fmap_2)).
    pose proof (so_used _ _ (Hgs _ Hin)). pose proof (so_used _ _ Hg).
    unfold range_apart, seg_range, reg_range, SEGMENT_T in *. cbn in *. lia.
  - subst g'. unfold range_apart, reg_range. cbn. lia.
Qed.

(** What an allocation of [size] bytes does. *)
Definition alloc_post (m : armem Mem) (arena size : Z) (gs : list gseg) (rs : list region)
    (os : list (Z * Z)) (B : gmap Z Z) (ub un r : Z) (m' : armem Mem) : Prop :=
  r = 0 /\ m' = m \/
  0 < r /\ same_cells (ar_bytes m) (ar_bytes m') ub un /\ exists gs', arena_rep m' arena gs' (rs ++ [Region r size None]) os B ub un /\
    remaining gs' = Some (take_bytes (remaining gs) size).

Lemma alloc_in_segment m arena gs0 g rs os B ub un size :
  arena_rep m arena (gs0 ++ [g]) rs os B ub un -> 0 < size ->
  size <= ARENA_SEGMENT_SIZE - SEGMENT_T - g_used g ->
  wp (seg ← dfk__arena_current_segment arena;
      s ← deref segments_of seg;
      let ret := seg + used s in
      update segments_of seg (fun s => Segment (seg_size s) (to_size (used s + size)));;
      mret ret) m (alloc_post m arena size (gs0 ++ [g]) rs os B ub un).
Proof.
  intros Hrep Hsize Hfit.
  pose proof (last_seg _ _ _ _ _ _ _ _ Hrep gs0 g eq_refl) as Hg.
  pose proof Hg as [Hp Ha He Ho Hu Hb Hr]. unfold ARENA_SEGMENT_SIZE, SEGMENT_T in Hfit, Hu, Hb.
  apply wp_bind. eapply current_segment_spec; [done..|]. apply wp_bind.
  eapply wp_deref; [lia|done|]. cbn [used seg_size]. apply wp_bind.
  eapply wp_update; [lia|done|]. apply wp_ret. right. split; [lia|]. split; [done|].
  cbn [hset hget segments_of segments used seg_size].
  rewrite to_size_small by (unfold SIZE_MOD, SIZE_BITS; lia).
  set (g' := GSeg (g_addr g) (g_block g) (g_used g + size)).
  exists (gs0 ++ [g']). split.
  2:{ unfold remaining. rewrite !last_snoc. cbn. unfold SEGMENT_T, ARENA_SEGMENT_SIZE.
      destruct (Z.ltb_spec (40960 - 32 - g_used g) size); [lia|]. f_equal. lia. }
  destruct Hrep as [H1 H2 H3 H4 H5 H6 H7 H8 H9 H10 H11].
  assert (forall g1, g1 ∈ gs0 -> seg_ok m g1) as H4' by (intros g1 Hin; apply H4; set_solver).
  assert (seg_range <$> gs0 ++ [g'] = seg_range <$> gs0 ++ [g]) as Hranges by by rewrite !fmap_app.
  assert (g_addr <$> gs0 ++ [g'] = g_addr <$> gs0 ++ [g]) as Haddrs by by rewrite !fmap_app.
  split; cbn [ar_lists ar_bytes arenas owcs]; try done.
  - unfold arena_lists. by rewrite Haddrs.
  - intros g1 [Hin|Hin%list_elem_of_singleton]%elem_of_app.
    + pose proof (seg_addr_ne m gs0 g g1 Hg (H4' _ Hin) Hin H5). destruct (H4' _ Hin).
      split; cbn [segments ar_bytes]; try done. by rewrite lookup_insert_ne.
    + subst g1. split; cbn; try done; [by rewrite lookup_insert_eq|unfold SEGMENT_T; lia].
  - by rewrite Hranges.
  - by rewrite Hranges.
  - intros g1 [Hin|Hin%list_elem_of_singleton]%elem_of_app; [apply H7; set_solver|].
    subst g1. apply (H7 g). set_solver.
  - intros r [Hin|Hin%list_elem_of_singleton]%elem_of_app.
    + destruct (H8 r Hin) as [Hl (g1 & Hg1 & Hi1 & Hi2) Hd]. split; [done| |done].
      apply elem_of_app in Hg1 as [Hg1|Hg1%list_elem_of_singleton].
      * exists g1. split; [set_solver|done].
      * subst g1. exists g'. split; [set_solver|]. split; cbn; [done|lia].
    + subst r. split; cbn; [done| |done]. exists g'. split; [set_solver|].
      split; cbn; [unfold SEGMENT_T|]; lia.
  - rewrite fmap_app. apply pairwise_snoc. split; [done|]. apply Forall_forall.
    intros x (r & -> & Hin)%list_elem_of_fmap.
    eapply (region_apart_tail m gs0 g r size); try done; [lia|lia|]. by apply H8.
  - intros o f Hof. destruct (H10 o f Hof) as [Ho1 (r & Hr1 & Hr2)]. split; [done|].
    exists r. split; [set_solver|done].
  - destruct H11 as (Hu1 & Hu2 & Hu3 & Hu4). split; [done|]. split; [done|]. split; [done|].
    intros g1 [Hin|Hin%list_elem_of_singleton]%elem_of_app; [apply Hu4; set_solver|].
    subst g1. apply (Hu4 g). set_solver.
Qed.
(** A fresh block holds no hook of the arena. *)
Lemma fresh_unchained m arena gs rs os B ub un n p m' :
  arena_rep m arena gs rs os B ub un -> allocated (ar_bytes m) p n m' -> 0 < n ->
  (forall g, g ∈ gs -> range_apart (seg_range g) (p, n)) /\
  unchained (arena_lists arena gs os) p.
Proof.
  intros Hrep Hal Hn.
  assert (forall g, g ∈ gs -> range_apart (seg_range g) (p, n)) as Hap.
  { intros g Hg. destruct (ar_segs _ _ _ _ _ _ _ _ Hrep g Hg) as [Hp Ha He Ho Hu Hb Hr].
    assert (0 <= g_block g) as Hb0 by (unfold ARENA_SEGMENT_SIZE in Hb; lia).
    pose proof (allocated_apart _ _ _ _ _ _ Hal Hn Hb0 Hr) as Hap.
    unfold apart_ranges, range_apart, seg_range, ARENA_SEGMENT_SIZE in *. cbn. lia. }
  split; [done|]. intros l xs Hl Hin. unfold arena_lists in Hl. cbn in Hl.
  apply lookup_insert_Some in Hl as [[_ <-]|[_ Hl]].
  - apply list_elem_of_fmap in Hin as (g & -> & Hg). specialize (Hap g Hg).
    pose proof (so_block _ _ (ar_segs _ _ _ _ _ _ _ _ Hrep g Hg)).
    unfold range_apart, seg_range, ARENA_SEGMENT_SIZE in *. cbn in Hap. lia.
  - apply lookup_singleton_Some in Hl as [_ <-]. apply list_elem_of_fmap in Hin as ([o f] & -> & Hof).
    destruct (ar_owcs _ _ _ _ _ _ _ _ Hrep o f Hof) as (_ & r & Hr & <- & Hlen).
    destruct (ar_regs _ _ _ _ _ _ _ _ Hrep r Hr) as [_ (g & Hg & Hi1 & Hi2) _].
    specialize (Hap g Hg). destruct (ar_segs _ _ _ _ _ _ _ _ Hrep g Hg) as [Hp Ha He Ho Hu Hb Hrm].
    unfold range_apart, seg_range, SEGMENT_T, OWC_T, ARENA_SEGMENT_SIZE in *. cbn in *. lia.
Qed.

Lemma append_hook (m : Mem) l x xs F :
  F !! l = Some xs -> lrep m (LSpec F ∅) -> valid_addr x -> unchained (LSpec F ∅) x ->
  wp (hook_init x;; list_append l x) m (fun _ m' => lrep m' (LSpec (<[l := xs ++ [x]]> F) ∅)).
Proof.
  intros Hl Hrep Hx Hun. apply wp_bind. eapply wp_mono; [by eapply law_hook_init|].
  intros [] m1 Hrep1. eapply wp_mono.
  { eapply (law_append m1 _ l x xs Hrep1); [exact Hl|]. unfold release. cbn. set_solver. }
  intros [] m2 Hrep2. unfold rechain, occupy, release in Hrep2. cbn in Hrep2.
  by replace ((∅ ∪ {[x]}) ∖ {[x]} : gset Z) with (∅ : gset Z) in Hrep2 by set_solver.
Qed.

Lemma wp_append_hook m l x xs F (k : M (armem Mem) Z) (Q : Z -> armem Mem -> Prop) :
  F !! l = Some xs -> lrep (ar_lists m) (LSpec F ∅) -> valid_addr x -> unchained (LSpec F ∅) x ->
  (forall lm, lrep lm (LSpec (<[l := xs ++ [x]]> F) ∅) ->
    wp k (ArMem lm (ar_bytes m) (arenas m) (segments m) (owcs m) (cleaned m)) Q) ->
  wp (zoom alists (hook_init x);; zoom alists (list_append l x);; k) m Q.
Proof.
  intros Hl Hrep Hx Hun HQ. pose proof (append_hook _ _ _ _ _ Hl Hrep Hx Hun) as Hw.
  apply wp_run in Hw as ([] & lm & Hrun & Hrep'). unfold mbind, M_bind in Hrun.
  destruct (hook_init x (ar_lists m)) as [[u lm1]|] eqn:E1; [|done].
  apply wp_bind. unfold wp at 1, zoom. cbn. rewrite E1. apply wp_bind. unfold wp at 1, zoom. cbn.
  rewrite Hrun. by apply HQ.
Qed.

Section alloc_new.
Context (malloc : bmem -> Z -> Z) (Hmalloc : malloc_ok malloc).

Lemma alloc_new_segment m arena gs rs os B ub un size :
  arena_rep m arena gs rs os B ub un -> 0 < size <= USER_END ->
  (match remaining gs with Some k => k < size | None => True end) ->
  let toalloc := Z.max ARENA_SEGMENT_SIZE (to_size (size + SEGMENT_T)) in
  wp (a ← deref arenas_of arena;
      s ← zoom abytes (dfk__malloc malloc toalloc);
      if isnull s then mret 0 else
      zoom alists (hook_init s);;
      zoom alists (list_append (_segments arena) s);;
      store segments_of s
        (Segment (ARENA_SEGMENT_SIZE - SEGMENT_T) (to_size (SEGMENT_T + size)));;
      mret (s + SEGMENT_T)) m (alloc_post m arena size gs rs os B ub un).
Proof.
  intros Hrep [Hsize Hmax] Hrem. pose proof Hrep as [H1 [a H2] H3 H4 H5 H6 H7 H8 H9 H10 H11].
  unfold USER_END in Hmax. rewrite !to_size_small by (unfold SEGMENT_T, SIZE_MOD, SIZE_BITS; lia).
  cbn zeta. set (n := Z.max ARENA_SEGMENT_SIZE (size + SEGMENT_T)).
  assert (ARENA_SEGMENT_SIZE <= n /\ size + SEGMENT_T <= n) as [Hn1 Hn2] by lia.
  unfold ARENA_SEGMENT_SIZE, SEGMENT_T in Hn1, Hn2. clearbody n.
  apply wp_bind. eapply wp_deref; [lia|done|]. cbn beta. apply wp_bind, wp_zoom.
  eapply wp_malloc; [done|lia| |].
  { apply wp_if_true; [done|]. apply wp_ret. left. split; [done|]. by destruct m. }
  intros p b1 Hal. cbn [lget lset abytes] in Hal |- *.
  destruct (fresh_unchained _ _ _ _ _ _ _ _ _ _ _ Hrep Hal ltac:(lia)) as [Hap Hun].
  pose proof Hal as [Hp Ha He Hnew Hf _]. unfold USER_END in He.
  apply wp_if_false; [apply isnull_false; lia|].
  eapply wp_append_hook; [apply segs_chain|exact H3| |exact Hun|].
  { unfold valid_addr, SIZE_MOD, SIZE_BITS. lia. }
  intros lm Hlm. cbn [ar_lists ar_bytes arenas segments owcs cleaned] in *.
  apply wp_bind, wp_store; [lia|]. apply wp_ret. right. split; [unfold SEGMENT_T; lia|].
  cbn [hset hget segments_of segments ar_lists ar_bytes arenas owcs cleaned].
  set (g' := GSeg p n (SEGMENT_T + size)).
  assert (forall x k, 0 <= k -> room_at (ar_bytes m) x k -> same_cells (ar_bytes m) b1 x k) as Hsame.
  { intros x k Hk Hx. eapply same_allocated; [done|lia|]. by eapply allocated_apart; [done|lia|..]. }
  split; [by apply Hsame; apply H11|]. exists (gs ++ [g']). split.
  2:{ unfold remaining in *. rewrite last_snoc. cbn. f_equal. unfold take_bytes.
      destruct (last gs) as [g|]; cbn in *; [rewrite (proj2 (Z.ltb_lt _ _)) by done|];
        unfold SEGMENT_T, ARENA_SEGMENT_SIZE; lia. }
  assert (seg_ok (ArMem lm b1 (arenas m)
    (<[p := Segment (ARENA_SEGMENT_SIZE - SEGMENT_T) (SEGMENT_T + size)]> (segments m))
    (owcs m) (cleaned m)) g') as Hg'.
  { split; cbn; [done|done|done|by rewrite lookup_insert_eq|unfold SEGMENT_T; lia|done|].
    eapply allocated_room; [done|lia]. }
  split; cbn [ar_lists ar_bytes arenas owcs]; try done.
  - unfold arena_lists. cbn in Hlm. rewrite insert_insert_eq in Hlm. by rewrite fmap_app.
  - intros g [Hg|Hg%list_elem_of_singleton]%elem_of_app; [|by subst].
    destruct (H4 g Hg) as [Q1 Q2 Q3 Q4 Q5 Q6 Q7]. specialize (Hap g Hg).
    unfold ARENA_SEGMENT_SIZE in Q6. split; cbn; try done.
    + rewrite lookup_insert_ne; [done|]. unfold range_apart, seg_range in Hap. cbn in Hap. lia.
    + eapply room_same; [|done]. apply Hsame; [lia|done].
  - rewrite fmap_app. apply pairwise_snoc. split; [done|]. apply Forall_forall.
    intros x (g & -> & Hg)%list_elem_of_fmap. by apply Hap.
  - rewrite fmap_app. cbn. rewrite own_blocks_snoc. cbn.
    rewrite own_blocks_insert; [by rewrite <- H6; destruct Hal as [_ _ _ _ _ ->]|].
    intros r (g & -> & Hg)%list_elem_of_fmap. specialize (Hap g Hg).
    pose proof (so_block _ _ (H4 g Hg)). unfold range_apart, seg_range, ARENA_SEGMENT_SIZE in *.
    cbn in *. lia.
  - intros g [Hg|Hg%list_elem_of_singleton]%elem_of_app; [by apply H7|]. subst g. cbn.
    rewrite H6 in Hnew. by eapply own_blocks_None.
  - intros r [Hr|Hr%list_elem_of_singleton]%elem_of_app.
    + destruct (H8 r Hr) as [Hl (g & Hg & Hi) Hd]. split; [done|exists g; split; [set_solver|done]|].
      intros bs Hbs. destruct (Hd bs Hbs) as [Hlen Hby]. split; [done|].
      eapply bytes_same; [|done]. apply Hsame; [lia|]. by apply bytes_room.
    + subst r. split; cbn; [done| |done]. exists g'. split; [set_solver|].
      split; cbn; unfold SEGMENT_T; lia.
  - rewrite fmap_app. apply pairwise_snoc. split; [done|]. apply Forall_forall.
    intros x (r & -> & Hr)%list_elem_of_fmap. destruct (H8 r Hr) as [Hl (g & Hg & Hi1 & Hi2) _].
    specialize (Hap g Hg). pose proof (so_used _ _ (H4 g Hg)).
    unfold range_apart, seg_range, reg_range, SEGMENT_T in *. cbn in *. lia.
  - intros o f Hof. destruct (H10 o f Hof) as [Ho1 (r & Hr1 & Hr2)]. split; [done|].
    exists r. split; [set_solver|done].
  - destruct H11 as (Hu1 & Hu2 & Hu3 & Hu4). split; [eapply room_same; [|done]; by apply Hsame|].
    split; [done|]. split; [done|].
    intros g [Hg|Hg%list_elem_of_singleton]%elem_of_app; [by apply Hu4|]. subst g. cbn.
    eapply allocated_apart; [done|lia|done..].
Qed.

Lemma dfk_arena_alloc_spec m arena gs rs os B ub un size :
  arena_rep m arena gs rs os B ub un -> 0 < size <= USER_END -> ~ full (remaining gs) ->
  wp (dfk_arena_alloc malloc arena size) m (alloc_post m arena size gs rs os B ub un).
Proof.
  intros Hrep Hsize Hfull. unfold dfk_arena_alloc.
  apply wp_bind, wp_assert; [by eapply arena_nonnull|].
  apply wp_bind, wp_assert; [apply negb_true_iff, Z.eqb_neq; lia|].
  apply wp_bind. eapply needs_segment_spec; [done|done|].
  destruct (snoc_inv gs) as [->|(gs0 & g & ->)].
  - cbn [remaining]. by eapply alloc_new_segment.
  - unfold remaining in *. rewrite last_snoc in *. cbn in Hfull |- *.
    destruct (Z.ltb_spec (ARENA_SEGMENT_SIZE - SEGMENT_T - g_used g) size).
    + eapply alloc_new_segment; [done|done|]. unfold remaining. by rewrite last_snoc.
    + by apply alloc_in_segment; [|lia|].
Qed.

(** Data is copied into the last allocation. *)
Lemma fill_region m arena gs rs p n bs os B ub un :
  arena_rep m arena gs (rs ++ [Region p n None]) os B ub un -> Z.of_nat (length bs) <= n ->
  arena_rep (lset abytes (put_bytes p bs (ar_bytes m)) m) arena gs
    (rs ++ [Region p n (Some bs)]) os B ub un.
Proof.
  intros [H1 H2 H3 H4 H5 H6 H7 H8 H9 H10 H11] Hn.
  assert (0 < p) as Hp.
  { destruct (H8 (Region p n None) ltac:(set_solver)) as [_ (g & Hg & Hi & _) _].
    pose proof (so_pos _ _ (H4 g Hg)). unfold SEGMENT_T in Hi. cbn in Hi. lia. }
  rewrite fmap_app in H9. apply pairwise_snoc in H9 as [H9 H9'].
  split; cbn [lset abytes ar_lists ar_bytes arenas segments owcs]; try done.
  - intros g Hg. destruct (H4 g Hg) as [Q1 Q2 Q3 Q4 Q5 Q6 Q7].
    split; cbn; try done. by apply room_put.
  - intros r [Hr|Hr%list_elem_of_singleton]%elem_of_app.
    + destruct (H8 r ltac:(set_solver)) as [Hl Hg Hd]. split; [done|done|].
      intros bs' Hbs'. destruct (Hd bs' Hbs') as [Hlen Hby]. split; [done|].
      rewrite Forall_forall in H9'. specialize (H9' (reg_range r) ltac:(by apply list_elem_of_fmap_2)).
      apply bytes_put_apart; [|done]. unfold range_apart, reg_range in H9'. cbn in H9'. lia.
    + subst r. destruct (H8 (Region p n None) ltac:(set_solver)) as [Hl Hg _].
      split; [done|done|]. cbn. intros bs' [= <-]. split; [done|]. by apply bytes_put_same.
  - rewrite fmap_app. apply pairwise_snoc. by split.
  - intros o f Hof. destruct (H10 o f Hof) as [Ho1 (r & Hr1 & Hr2 & Hr3)]. split; [done|].
    apply elem_of_app in Hr1 as [Hr1|Hr1%list_elem_of_singleton].
    + exists r. split; [set_solver|done].
    + subst r. exists (Region p n (Some bs)). split; [set_solver|done].
  - destruct H11 as (Hu1 & Hu2). split; [by apply room_put|done].
Qed.

(** An allocation is used as a header and an object. *)
Lemma split_region m arena gs rs p n os B ub un :
  arena_rep m arena gs (rs ++ [Region p (OWC_T + n) None]) os B ub un -> 0 < n ->
  arena_rep m arena gs ((rs ++ [Region p OWC_T None]) ++ [Region (p + OWC_T) n None]) os B ub un.
Proof.
  intros [H1 H2 H3 H4 H5 H6 H7 H8 H9 H10 H11] Hn. unfold OWC_T in *.
  destruct (H8 (Region p (24 + n) None) ltac:(set_solver)) as [_ (g & Hg & Hi1 & Hi2) _].
  cbn in Hi1, Hi2. rewrite fmap_app in H9. apply pairwise_snoc in H9 as [H9 H9'].
  split; try done.
  - intros r [[Hr|Hr%list_elem_of_singleton]%elem_of_app|Hr%list_elem_of_singleton]%elem_of_app.
    + apply H8. set_solver.
    + subst r. split; cbn; [done| |done]. exists g. split; [done|]. split; cbn; lia.
    + subst r. split; cbn; [done| |done]. exists g. split; [done|]. split; cbn; lia.
  - rewrite !fmap_app. apply pairwise_snoc. split.
    + apply pairwise_snoc. split; [done|]. eapply Forall_impl; [exact H9'|].
      intros [a b]. unfold range_apart. cbn. lia.
    + apply Forall_app. split.
      * eapply Forall_impl; [exact H9'|]. intros [a b]. unfold range_apart. cbn. lia.
      * apply Forall_singleton. unfold range_apart. cbn. lia.
  - intros o f Hof. destruct (H10 o f Hof) as [Ho1 (r & Hr1 & Hr2 & Hr3)]. split; [done|].
    apply elem_of_app in Hr1 as [Hr1|Hr1%list_elem_of_singleton].
    + exists r. split; [set_solver|done].
    + subst r. cbn in Hr3. unfold OWC_T in Hr3. lia.
Qed.

(** An address inside an allocation is no hook of the arena, unless it is the
    allocation of an object with cleanup. *)
Lemma region_unchained m arena gs rs p n os B ub un :
  arena_rep m arena gs (rs ++ [Region p n None]) os B ub un ->
  (forall o f, (o, f) ∈ os -> exists r, r ∈ rs /\ r_addr r = o /\ r_len r = OWC_T) ->
  valid_addr p /\ unchained (arena_lists arena gs os) p.
Proof.
  intros Hrep Hos. pose proof Hrep as [H1 H2 H3 H4 H5 H6 H7 H8 H9 H10 H11].
  destruct (H8 (Region p n None) ltac:(set_solver)) as [Hn (g & Hg & Hi1 & Hi2) _].
  cbn in Hn, Hi1, Hi2. rewrite fmap_app in H9. apply pairwise_snoc in H9 as [H9 H9'].
  destruct (H4 g Hg) as [Q1 Q2 Q3 Q4 Q5 Q6 Q7]. unfold SEGMENT_T, ARENA_SEGMENT_SIZE, USER_END in *.
  split; [unfold valid_addr, SIZE_MOD, SIZE_BITS; lia|].
  intros l xs Hl Hin. unfold arena_lists in Hl. cbn in Hl.
  apply lookup_insert_Some in Hl as [[_ <-]|[_ Hl]].
  - apply list_elem_of_fmap in Hin as (g' & Heq & Hg').
    destruct (decide (g' = g)) as [->|Hne]; [lia|]. destruct (H4 g' Hg') as [W1 _ _ _ _ W6 _].
    unfold ARENA_SEGMENT_SIZE in W6.
    assert (range_apart (seg_range g) (seg_range g') \/ range_apart (seg_range g') (seg_range g)) as Hap.
    { clear -H5 Hg Hg' Hne. induction gs as [|g0 gs IH]; [by apply not_elem_of_nil in Hg|].
      cbn in H5. destruct H5 as [Hf Hp]. rewrite Forall_forall in Hf.
      apply elem_of_cons in Hg as [->|Hg]; apply elem_of_cons in Hg' as [->|Hg']; [done|..].
      - left. apply Hf. by apply list_elem_of_fmap_2.
      - right. apply Hf. by apply list_elem_of_fmap_2.
      - by apply IH. }
    unfold range_apart, seg_range in Hap. cbn in Hap. lia.
  - apply lookup_singleton_Some in Hl as [_ <-]. apply list_elem_of_fmap in Hin as ([o f] & -> & Hof).
    destruct (Hos o f Hof) as (r & Hr & Hr1 & Hr2). rewrite Forall_forall in H9'.
    specialize (H9' (reg_range r) ltac:(by apply list_elem_of_fmap_2)).
    unfold range_apart, reg_range, OWC_T in *. cbn in *. lia.
Qed.

Lemma dfk_arena_alloc_copy_spec m arena gs rs os B ub un bs :
  arena_rep m arena gs rs os B ub un -> bs <> [] -> bytes_at (ar_bytes m) ub bs ->
  Z.of_nat (length bs) <= un -> ~ full (remaining gs) ->
  wp (dfk_arena_alloc_copy malloc arena ub (Z.of_nat (length bs))) m (fun r m' =>
    r = 0 /\ m' = m \/
    0 < r /\ exists gs',
      arena_rep m' arena gs' (rs ++ [Region r (Z.of_nat (length bs)) (Some bs)]) os B ub un /\
      remaining gs' = Some (take_bytes (remaining gs) (Z.of_nat (length bs)))).
Proof.
  intros Hrep Hne Hbs Hun Hfull. pose proof (proj1 Hbs) as Hub.
  destruct (ar_user _ _ _ _ _ _ _ _ Hrep) as (_ & Hun0 & Hue & _).
  assert (0 < Z.of_nat (length bs)) as Hlen by (destruct bs; [done|cbn; lia]).
  unfold dfk_arena_alloc_copy. apply wp_bind, wp_assert; [by eapply arena_nonnull|].
  apply wp_bind, wp_assert; [apply nonnull_true; lia|].
  apply wp_bind, wp_assert; [apply negb_true_iff, Z.eqb_neq; lia|].
  apply wp_bind. eapply wp_mono; [eapply dfk_arena_alloc_spec; [done|lia|done]|].
  intros r m1 [[-> ->]|(Hr & Hsame & gs' & Hrep1 & Hrem)]; apply wp_bind.
  - apply wp_when_false; [done|]. apply wp_ret. by left.
  - apply wp_when_true; [apply nonnull_true; lia|].
    pose proof Hrep1 as [_ _ _ H4 _ _ _ H8 _ _ (_ & _ & _ & Hap)].
    destruct (H8 (Region r (Z.of_nat (length bs)) None) ltac:(set_solver)) as [_ (g & Hg & Hi1 & Hi2) _].
    cbn in Hi1, Hi2. destruct (H4 g Hg) as [Q1 Q2 Q3 Q4 Q5 Q6 Q7]. specialize (Hap g Hg).
    unfold SEGMENT_T, apart_ranges in *.
    apply wp_zoom. eapply (wp_memcpy _ _ _ _ bs); [done| | | |].
    + eapply bytes_same; [|exact Hbs]. intros a Ha. apply Hsame. lia.
    + replace r with (g_addr g + (r - g_addr g)) by lia.
      eapply room_mono; [|apply (room_tail _ _ (g_block g)); [lia|exact Q7]]. lia.
    + cbn [lget abytes]. lia.
    + apply wp_ret. right. split; [done|]. exists gs'. split; [|done].
      by apply (fill_region m1 arena gs' rs r (Z.of_nat (length bs)) bs).
Qed.

(** Only the objects themselves are typed by cleanup functions. *)
Lemma dfk_arena_alloc_ex_spec m arena gs rs os B ub un n f :
  arena_rep m arena gs rs os B ub un -> 0 < n -> OWC_T + n <= USER_END -> f <> 0 ->
  ~ full (remaining gs) ->
  wp (dfk_arena_alloc_ex malloc arena n f) m (fun r m' =>
    r = 0 /\ m' = m \/
    OWC_T < r /\ same_cells (ar_bytes m) (ar_bytes m') ub un /\ exists gs',
      arena_rep m' arena gs' ((rs ++ [Region (r - OWC_T) OWC_T None]) ++ [Region r n None])
        (os ++ [(r - OWC_T, f)]) B ub un /\
      remaining gs' = Some (take_bytes (remaining gs) (OWC_T + n))).
Proof.
  intros Hrep Hn Hmax Hf Hfull. unfold dfk_arena_alloc_ex.
  apply wp_bind, wp_assert; [by eapply arena_nonnull|].
  apply wp_bind, wp_assert; [apply negb_true_iff, Z.eqb_neq; lia|].
  apply wp_bind, wp_assert; [ptr_cond|].
  rewrite to_size_small by (unfold OWC_T, USER_END, SIZE_MOD, SIZE_BITS in *; lia).
  apply wp_bind. eapply wp_mono; [eapply dfk_arena_alloc_spec; [done|unfold OWC_T in *; lia|done]|].
  intros p m1 [[-> ->]|(Hp & Hsame & gs' & Hrep1 & Hrem)].
  { apply wp_if_true; [done|]. apply wp_ret. by left. }
  apply wp_if_false; [apply isnull_false; lia|].
  assert (forall o f', (o, f') ∈ os -> exists r, r ∈ rs /\ r_addr r = o /\ r_len r = OWC_T) as Hos.
  { intros o f' Hof. destruct (ar_owcs _ _ _ _ _ _ _ _ Hrep1 o f' Hof) as (_ & r & Hr & Hr1 & Hr2).
    exists r. split; [|done]. apply elem_of_app in Hr as [Hr|Hr%list_elem_of_singleton]; [done|].
    subst r. cbn in Hr2. lia. }
  destruct (region_unchained _ _ _ _ _ _ _ _ _ _ Hrep1 Hos) as [Hva Hunc].
  eapply wp_append_hook; [apply owc_chain|apply Hrep1|done|exact Hunc|].
  intros lm Hlm. apply wp_bind, wp_store; [lia|]. apply wp_ret. right. split; [lia|].
  cbn [hset hget owcs_of ar_lists ar_bytes arenas segments owcs cleaned].
  split; [done|]. exists gs'. split; [|done]. replace (p + OWC_T - OWC_T) with p by lia.
  apply split_region in Hrep1; [|done].
  destruct Hrep1 as [H1 H2 H3 H4 H5 H6 H7 H8 H9 H10 H11].
  split; cbn [ar_lists ar_bytes arenas segments owcs cleaned]; try done.
  - unfold arena_lists in *. cbn in Hlm. rewrite fmap_app. cbn.
    rewrite insert_insert_ne in Hlm by by apply not_eq_sym, lists_ne.
    by rewrite insert_singleton_eq in Hlm.
  - intros g Hg. destruct (H4 g Hg) as [Q1 Q2 Q3 Q4 Q5 Q6 Q7]. by split.
  - intros r Hr. destruct (H8 r Hr) as [Q1 Q2 Q3]. by split.
  - intros o f' [Hof|Hof%list_elem_of_singleton]%elem_of_app.
    + destruct (H10 o f' Hof) as [Ho Hr]. split; [|done].
      destruct (decide (o = p)) as [->|Hne]; [|by rewrite lookup_insert_ne].
      exfalso. apply (Hunc _ _ (owc_chain arena gs' os)). apply list_elem_of_fmap.
      by exists (p, f').
    + injection Hof as -> ->. split; [by rewrite lookup_insert_eq|].
      exists (Region p OWC_T None). split; [set_solver|done].
Qed.

Lemma dfk_arena_alloc_copy_ex_spec m arena gs rs os B ub un bs f :
  arena_rep m arena gs rs os B ub un -> bs <> [] -> bytes_at (ar_bytes m) ub bs ->
  Z.of_nat (length bs) <= un -> OWC_T + Z.of_nat (length bs) <= USER_END -> f <> 0 ->
  ~ full (remaining gs) ->
  wp (dfk_arena_alloc_copy_ex malloc arena ub (Z.of_nat (length bs)) f) m (fun r m' =>
    r = 0 /\ m' = m \/
    OWC_T < r /\ exists gs',
      arena_rep m' arena gs' ((rs ++ [Region (r - OWC_T) OWC_T None]) ++
        [Region r (Z.of_nat (length bs)) (Some bs)]) (os ++ [(r - OWC_T, f)]) B ub un /\
      remaining gs' = Some (take_bytes (remaining gs) (OWC_T + Z.of_nat (length bs)))).
Proof.
  intros Hrep Hne Hbs Hun Hmax Hf Hfull. pose proof (proj1 Hbs) as Hub.
  assert (0 < Z.of_nat (length bs)) as Hlen by (destruct bs; [done|cbn; lia]).
  unfold dfk_arena_alloc_copy_ex. apply wp_bind, wp_assert; [by eapply arena_nonnull|].
  apply wp_bind, wp_assert; [apply nonnull_true; lia|].
  apply wp_bind, wp_assert; [apply negb_true_iff, Z.eqb_neq; lia|].
  apply wp_bind, wp_assert; [ptr_cond|].
  apply wp_bind. eapply wp_mono; [by eapply dfk_arena_alloc_ex_spec|].
  intros r m1 [[-> ->]|(Hr & Hsame & gs' & Hrep1 & Hrem)]; apply wp_bind.
  - apply wp_when_false; [done|]. apply wp_ret. by left.
  - unfold OWC_T in Hr. apply wp_when_true; [apply nonnull_true; lia|].
    pose proof Hrep1 as [_ _ _ H4 _ _ _ H8 _ _ (_ & _ & _ & Hap)].
    destruct (H8 (Region r (Z.of_nat (length bs)) None) ltac:(set_solver)) as [_ (g & Hg & Hi1 & Hi2) _].
    cbn in Hi1, Hi2. destruct (H4 g Hg) as [Q1 Q2 Q3 Q4 Q5 Q6 Q7]. specialize (Hap g Hg).
    unfold SEGMENT_T, apart_ranges in *.
    apply wp_zoom. eapply (wp_memcpy _ _ _ _ bs); [done| | | |].
    + eapply bytes_same; [|exact Hbs]. intros a Ha. apply Hsame. lia.
    + replace r with (g_addr g + (r - g_addr g)) by lia.
      eapply room_mono; [|apply (room_tail _ _ (g_block g)); [lia|exact Q7]]. lia.
    + cbn [lget abytes]. lia.
    + apply wp_ret. right. split; [unfold OWC_T; lia|]. exists gs'. split; [|done].
      by apply (fill_region m1 arena gs' _ r (Z.of_nat (length bs)) bs).
Qed.
End alloc_new.

(** ** Freeing an arena *)

Definition cleanup_call (o : Z * Z) : Z * Z := (o.2, o.1 + OWC_T).

Definition logged (calls : list (Z * Z)) (m : armem Mem) : armem Mem :=
  ArMem (ar_lists m) (ar_bytes m) (arenas m) (segments m) (owcs m) (cleaned m ++ calls).

Lemma cleanup_loop arena gs os e suf : forall m pre it fuel,
  lrep (ar_lists m) (arena_lists arena gs os) -> os = pre ++ suf ->
  it_at it pre.*1 suf.*1 -> it_at e os.*1 [] ->
  (forall o f, (o, f) ∈ os -> o <> 0 /\ owcs m !! o = Some (Owc f)) ->
  (length suf < fuel)%nat ->
  wp (loop fuel (cleanup_body e) it) m (fun _ m' => m' = logged (cleanup_call <$> suf) m).
Proof.
  induction suf as [|[o f] suf IH]; intros m pre it [|fuel] Hrep Hos Hit He Ho Hf;
    try (cbn in Hf; lia); apply wp_bind, wp_bind.
  - eapply wp_read_list.
    { eapply (law_it_equal _ _ _ os.*1 it pre.*1 [] e os.*1 []); try done;
        [apply owc_chain| |by rewrite app_nil_r]. subst os. by rewrite !app_nil_r. }
    intros b ->. apply wp_ret, wp_ret. unfold logged. cbn. rewrite app_nil_r. by destruct m.
  - eapply wp_read_list.
    { eapply (law_it_equal _ _ _ os.*1 it pre.*1 (o :: suf.*1) e os.*1 []); try done;
        [apply owc_chain| |by rewrite app_nil_r]. subst os. by rewrite fmap_app. }
    intros b ->. cbn [bool_decide decide]. rewrite (it_at_value _ _ _ Hit). cbn [head_or].
    destruct (Ho o f) as [Ho0 Hof]; [subst os; set_solver|].
    rewrite bool_decide_false by done. apply wp_bind. eapply wp_deref; [done|done|].
    apply wp_bind, wp_modify, wp_bind. cbn [cleanup].
    eapply (wp_read_list (logged [(f, o + OWC_T)] m)).
    { eapply (law_it_next _ _ (_owc arena) it pre.*1 o suf.*1); [done| |done].
      rewrite owc_chain, Hos, fmap_app. done. }
    intros it' Hit'. apply wp_ret.
    eapply wp_mono; [apply (IH _ (pre ++ [(o, f)]) it')|]; try done.
    + subst os. by rewrite <- app_assoc.
    + by rewrite fmap_app.
    + cbn in Hf. lia.
    + intros ? m' ->. unfold logged. cbn. by rewrite <- app_assoc.
Qed.

(** What is needed to release the segments. *)
Record releasable (m : armem Mem) (arena : Z) (gs : list gseg) (os : list (Z * Z))
    (B : gmap Z Z) : Prop := Releasable {
  rl_ne : 0 < arena;
  rl_obj : is_Some (arenas m !! arena);
  rl_rep : lrep (ar_lists m) (arena_lists arena gs os);
  rl_segs : forall g, g ∈ gs -> 0 < g_addr g /\ aligned (g_addr g) = true /\
    is_Some (segments m !! g_addr g);
  rl_blocks : blocks (ar_bytes m) = own_blocks (seg_range <$> gs) B;
  rl_others : forall g, g ∈ gs -> B !! g_addr g = None;
  rl_nodup : NoDup (g_addr <$> gs)
}.

Lemma own_blocks_other rs B a : (forall r, r ∈ rs -> r.1 <> a) -> B !! a = None ->
  own_blocks rs B !! a = None.
Proof.
  induction rs as [|r rs IH]; intros Hne HB; [done|].
  change (<[r.1 := r.2]> (own_blocks rs B) !! a = None).
  rewrite lookup_insert_ne by (apply Hne; set_solver). apply IH; [set_solver|done].
Qed.

Lemma release_loop gs : forall m arena os B fuel,
  releasable m arena gs os B -> (length gs < fuel)%nat ->
  wp (loop fuel (release_body arena) tt) m (fun _ m' =>
    blocks (ar_bytes m') = B /\ cleaned m' = cleaned m).
Proof.
  induction gs as [|g gs IH]; intros m arena os B [|fuel] [H1 [a H2] H3 H4 H5 H6 H7] Hf;
    try (cbn in Hf; lia); apply wp_bind, wp_bind; (eapply wp_read_list;
      [eapply law_empty; [done|apply segs_chain]|]); intros b ->.
  - by apply wp_ret, wp_ret.
  - rewrite bool_decide_false by done. apply wp_bind. eapply wp_read_list.
    { eapply law_front; [done|apply segs_chain]. }
    intros ? ->. cbn [head_or fmap list_fmap].
    destruct (H4 g ltac:(set_solver)) as (Hg1 & Hg2 & [sg Hg3]).
    cbn [fmap list_fmap] in H7. apply NoDup_cons in H7 as [Hgn H7].
    cbn [fmap list_fmap head default]. apply wp_bind, wp_zoom. cbn [lget alists].
    eapply wp_mono; [eapply (law_pop_front _ _ _ (g_addr g) (g_addr <$> gs)); [done|exact (segs_chain arena (g :: gs) os)]|].
    intros ? lm Hlm. apply wp_bind. eapply wp_deref; [lia|done|]. cbn beta. cbn [lset alists].
    apply wp_bind, wp_zoom.
    rewrite fmap_cons, own_blocks_cons in H5.
    eapply wp_free; [done|done|cbn; rewrite H5; by apply lookup_insert_eq|].
    apply wp_bind, wp_zoom. eapply wp_mono.
    { eapply law_hook_dispose; [exact Hlm|]. unfold release. cbn. set_solver. }
    intros ? lm' Hlm'. apply wp_bind. eapply wp_dispose; [done|]. apply wp_ret.
    cbn [hset hget segments_of lset lget alists abytes ar_lists ar_bytes arenas segments owcs cleaned].
    eapply wp_mono; [apply (IH _ arena os B)|]; [|cbn in Hf; lia|by cbn].
    assert (own_blocks (seg_range <$> gs) B !! g_addr g = None) as Hnone.
    { apply own_blocks_other; [|apply H6; set_solver].
      intros r (g' & -> & Hg')%list_elem_of_fmap Heq. apply Hgn.
      apply list_elem_of_fmap. by exists g'. }
    split; cbn [ar_lists ar_bytes arenas segments]; try done.
    + unfold rechain, occupy, release in Hlm'. cbn in Hlm'.
      replace ((∅ ∪ {[g_addr g]}) ∖ {[g_addr g]} : gset Z) with (∅ : gset Z) in Hlm' by set_solver.
      by rewrite insert_insert_eq in Hlm'.
    + intros g' Hg'. destruct (H4 g' ltac:(set_solver)) as (Q1 & Q2 & Q3). split_and!; [done..|].
      rewrite lookup_delete_ne; [done|]. intros Heq. apply Hgn. apply list_elem_of_fmap. by exists g'.
    + unfold remove_block. cbn [blocks]. rewrite H5. by apply delete_insert_id.
    + intros g' Hg'. apply H6. set_solver.
Qed.

Lemma pairwise_nodup gs : (forall g, g ∈ gs -> ARENA_SEGMENT_SIZE <= g_block g) ->
  pairwise_apart (seg_range <$> gs) -> NoDup (g_addr <$> gs).
Proof.
  induction gs as [|g gs IH]; intros Hb; [constructor|]. cbn. intros [Hf Hp]. constructor.
  - intros (g' & Heq & Hg')%list_elem_of_fmap. rewrite Forall_forall in Hf.
    specialize (Hf (seg_range g') ltac:(by apply list_elem_of_fmap_2)).
    pose proof (Hb g ltac:(set_solver)). pose proof (Hb g' ltac:(set_solver)).
    unfold range_apart, seg_range, ARENA_SEGMENT_SIZE in *. cbn in Hf. lia.
  - apply IH; [set_solver|done].
Qed.

Lemma dfk_arena_free_spec m arena gs rs os B ub un fuel :
  arena_rep m arena gs rs os B ub un -> (length gs < fuel)%nat -> (length os < fuel)%nat ->
  wp (dfk_arena_free fuel arena) m (fun _ m' =>
    blocks (ar_bytes m') = B /\ cleaned m' = cleaned m ++ (cleanup_call <$> os)).
Proof.
  intros Hrep Hgs Hos. pose proof Hrep as [H1 H2 H3 H4 H5 H6 H7 H8 H9 H10 H11].
  unfold dfk_arena_free. apply wp_bind, wp_assert; [by eapply arena_nonnull|].
  apply wp_bind. eapply wp_read_list; [eapply law_begin; [done|apply owc_chain]|]. intros it Hit.
  apply wp_bind. eapply wp_read_list; [eapply law_end; [done|apply owc_chain]|]. intros e He.
  apply wp_bind. eapply wp_mono; [eapply (cleanup_loop arena gs os e os m []); try done|].
  { intros o f Hof. destruct (H10 o f Hof) as [Ho (r & Hr & <- & _)]. split; [|done].
    destruct (H8 r Hr) as [_ (g & Hg & Hi & _) _]. pose proof (so_pos _ _ (H4 g Hg)).
    unfold SEGMENT_T in Hi. lia. }
  intros ? m1 ->. eapply wp_mono.
  { eapply (release_loop gs (logged (cleanup_call <$> os) m) arena os B fuel); [|done].
    split; cbn; try done.
    - intros g Hg. destruct (H4 g Hg) as [Q1 Q2 Q3 Q4 Q5 Q6 Q7]. by split_and!.
    - apply pairwise_nodup; [|done]. intros g Hg. by apply (so_block _ _ (H4 g Hg)). }
  intros ? m' [Hb Hc]. split; [done|]. by rewrite Hc.
Qed.

Lemma dfk_arena_init_spec m arena dfk ub un :
  lrep (ar_lists m) (LSpec ∅ ∅) -> 0 < arena -> dfk <> 0 ->
  room_at (ar_bytes m) ub un -> 0 <= un -> ub + un <= USER_END ->
  wp (dfk_arena_init arena dfk) m (fun _ m' =>
    arena_rep m' arena [] [] [] (blocks (ar_bytes m)) ub un /\ ar_bytes m' = ar_bytes m /\
    cleaned m' = cleaned m).
Proof.
  intros Hrep Ha Hd Hu Hun Hue. unfold dfk_arena_init.
  apply wp_bind, wp_assert; [apply nonnull_true; lia|]. apply wp_bind, wp_assert; [ptr_cond|].
  apply wp_bind, wp_zoom. eapply wp_mono; [eapply law_init; [exact Hrep|unfold _segments; lia|done]|].
  intros ? lm Hlm. apply wp_bind, wp_zoom.
  eapply wp_mono; [eapply law_init; [exact Hlm|unfold _owc; lia|]|].
  { cbn. rewrite lookup_insert_ne by apply lists_ne. by rewrite lookup_empty. }
  intros ? lm' Hlm'. apply wp_store; [lia|]. split; [|done].
  split; cbn; try done; try (by intros ? ?%not_elem_of_nil).
  - rewrite lookup_insert_eq. by eexists.
  - unfold arena_lists, rechain in *. cbn in *.
    rewrite (insert_insert_ne ∅) in Hlm' by apply not_eq_sym, lists_ne. exact Hlm'.
  - by intros ? ? ?%not_elem_of_nil.
  - split; [done|]. split; [done|]. split; [done|]. by intros ? ?%not_elem_of_nil.
Qed.

(** ** Programs over an arena *)

Inductive arena_cmd :=
| ArAlloc (n : Z)
| ArCopy (bs : list Z)
| ArAllocEx (n f : Z)
| ArCopyEx (bs : list Z) (f : Z).

(** The caller's data is in its buffer at [ub]. *)
Definition run_arena_cmd (malloc : bmem -> Z -> Z) (arena ub : Z) (c : arena_cmd) :
    M (armem Mem) Z :=
  match c with
  | ArAlloc n => dfk_arena_alloc malloc arena n
  | ArCopy bs =>
      zoom abytes (write_bytes ub bs);; dfk_arena_alloc_copy malloc arena ub (Z.of_nat (length bs))
  | ArAllocEx n f => dfk_arena_alloc_ex malloc arena n f
  | ArCopyEx bs f =>
      zoom abytes (write_bytes ub bs);;
      dfk_arena_alloc_copy_ex malloc arena ub (Z.of_nat (length bs)) f
  end.

Fixpoint run_arena_cmds (malloc : bmem -> Z -> Z) (arena ub : Z) (cs : list arena_cmd) :
    M (armem Mem) (list Z) :=
  match cs with
  | [] => mret []
  | c :: cs =>
      r ← run_arena_cmd malloc arena ub c;
      rs ← run_arena_cmds malloc arena ub cs;
      mret (r :: rs)
  end.

(** Bytes taken from the segment, allocations made and objects registered by a
    command that returned [r]. *)
Definition cmd_size (c : arena_cmd) : Z :=
  match c with
  | ArAlloc n => n
  | ArCopy bs => Z.of_nat (length bs)
  | ArAllocEx n _ => OWC_T + n
  | ArCopyEx bs _ => OWC_T + Z.of_nat (length bs)
  end.

Definition cmd_regions (c : arena_cmd) (r : Z) : list region :=
  if r =? 0 then [] else
  match c with
  | ArAlloc n => [Region r n None]
  | ArCopy bs => [Region r (Z.of_nat (length bs)) (Some bs)]
  | ArAllocEx n _ => [Region (r - OWC_T) OWC_T None; Region r n None]
  | ArCopyEx bs _ => [Region (r - OWC_T) OWC_T None; Region r (Z.of_nat (length bs)) (Some bs)]
  end.

Definition cmd_objects (c : arena_cmd) (r : Z) : list (Z * Z) :=
  if r =? 0 then [] else
  match c with ArAllocEx _ f | ArCopyEx _ f => [(r - OWC_T, f)] | _ => [] end.

Definition cmd_ok (un : Z) (c : arena_cmd) : Prop :=
  match c with
  | ArAlloc n => 0 < n <= USER_END
  | ArCopy bs => bs <> [] /\ Z.of_nat (length bs) <= un
  | ArAllocEx n f => 0 < n /\ OWC_T + n <= USER_END /\ f <> 0
  | ArCopyEx bs f => bs <> [] /\ Z.of_nat (length bs) <= un /\
      OWC_T + Z.of_nat (length bs) <= USER_END /\ f <> 0
  end.

Definition rem_after (rem : option Z) (c : arena_cmd) (r : Z) : option Z :=
  if r =? 0 then rem else Some (take_bytes rem (cmd_size c)).

Fixpoint rems_after (rem : option Z) (cs : list arena_cmd) (outs : list Z) : option Z :=
  match cs, outs with
  | c :: cs, r :: outs => rems_after (rem_after rem c r) cs outs
  | _, _ => rem
  end.

Definition all_regions (cs : list arena_cmd) (outs : list Z) : list region :=
  mjoin (zip_with cmd_regions cs outs).
Definition all_objects (cs : list arena_cmd) (outs : list Z) : list (Z * Z) :=
  mjoin (zip_with cmd_objects cs outs).

Section programs.
Context (malloc : bmem -> Z -> Z) (Hmalloc : malloc_ok malloc).

(** Writing into the caller's buffer does not concern the arena. *)
Lemma wp_fill_buffer {A} m arena gs rs os B ub un bs (k : M (armem Mem) A) (Q : A -> armem Mem -> Prop) :
  arena_rep m arena gs rs os B ub un -> bs <> [] -> Z.of_nat (length bs) <= un ->
  (forall m', arena_rep m' arena gs rs os B ub un -> bytes_at (ar_bytes m') ub bs -> wp k m' Q) ->
  wp (zoom abytes (write_bytes ub bs);; k) m Q.
Proof.
  intros Hrep Hne Hlen HQ. pose proof Hrep as [H1 H2 H3 H4 H5 H6 H7 H8 H9 H10 (Hu & Hun & Hue & Hap)].
  apply wp_bind, wp_zoom. eapply wp_write_bytes; [by eapply room_mono|]. cbn [lget abytes].
  apply HQ; [|apply bytes_put_same, Hu].
  split; cbn [lset abytes ar_lists ar_bytes arenas segments owcs]; try done.
  - intros g Hg. destruct (H4 g Hg) as [Q1 Q2 Q3 Q4 Q5 Q6 Q7]. split; cbn; try done. by apply room_put.
  - intros r Hr. destruct (H8 r Hr) as [Hl (g & Hg & Hi1 & Hi2) Hd].
    split; [done|by exists g|]. intros bs' Hbs'. destruct (Hd bs' Hbs') as [Hlen' Hby]. split; [done|].
    specialize (Hap g Hg). pose proof (so_used _ _ (H4 g Hg)). unfold apart_ranges, SEGMENT_T in *.
    apply bytes_put_apart; [|done]. destruct bs; [done|]. cbn [length] in *. lia.
  - split; [by apply room_put|done].
Qed.

Lemma run_arena_cmd_spec m arena gs rs os B ub un c :
  arena_rep m arena gs rs os B ub un -> cmd_ok un c -> ~ full (remaining gs) ->
  wp (run_arena_cmd malloc arena ub c) m (fun r m' => 0 <= r /\ exists gs',
    arena_rep m' arena gs' (rs ++ cmd_regions c r) (os ++ cmd_objects c r) B ub un /\
    remaining gs' = rem_after (remaining gs) c r).
Proof.
  intros Hrep Hc Hfull.
  assert (forall m', arena_rep m' arena gs rs os B ub un -> exists gs',
    arena_rep m' arena gs' (rs ++ cmd_regions c 0) (os ++ cmd_objects c 0) B ub un /\
    remaining gs' = rem_after (remaining gs) c 0) as Hnull.
  { intros m' Hm'. exists gs. by rewrite !app_nil_r. }
  assert (forall r, 0 < r -> r =? 0 = false) as Hz by (intros; apply Z.eqb_neq; lia).
  unfold cmd_regions, cmd_objects, rem_after, run_arena_cmd in *.
  destruct c as [n|bs|n f|bs f]; cbn [cmd_ok cmd_size] in *.
  - eapply wp_mono; [by eapply dfk_arena_alloc_spec|].
    intros r m' [[-> ->]|(Hr & _ & gs' & Hrep' & Hrem)]; [split; [lia|by apply Hnull]|].
    split; [lia|]. exists gs'. by rewrite Hz, app_nil_r.
  - destruct Hc as [Hne Hlen]. eapply wp_fill_buffer; [done..|]. intros m1 Hrep1 Hbs.
    eapply wp_mono; [by eapply dfk_arena_alloc_copy_spec|].
    intros r m' [[-> ->]|(Hr & gs' & Hrep' & Hrem)]; [split; [lia|by apply Hnull]|].
    split; [lia|]. exists gs'. by rewrite Hz, app_nil_r.
  - destruct Hc as (Hn & Hmax & Hf). eapply wp_mono; [by eapply dfk_arena_alloc_ex_spec|].
    intros r m' [[-> ->]|(Hr & _ & gs' & Hrep' & Hrem)]; [split; [lia|by apply Hnull]|].
    unfold OWC_T in Hr. split; [lia|]. exists gs'. rewrite !Hz by lia. by rewrite <- app_assoc in Hrep'.
  - destruct Hc as (Hne & Hlen & Hmax & Hf). eapply wp_fill_buffer; [done..|]. intros m1 Hrep1 Hbs.
    eapply wp_mono; [by eapply dfk_arena_alloc_copy_ex_spec|].
    intros r m' [[-> ->]|(Hr & gs' & Hrep' & Hrem)]; [split; [lia|by apply Hnull]|].
    unfold OWC_T in Hr. split; [lia|]. exists gs'. rewrite !Hz by lia. by rewrite <- app_assoc in Hrep'.
Qed.

Lemma run_arena_cmd_full m arena gs rs os B ub un c :
  arena_rep m arena gs rs os B ub un -> cmd_ok un c -> full (remaining gs) ->
  run_arena_cmd malloc arena ub c m = Err AssertFailed.
Proof.
  intros Hrep Hc Hfull.
  assert (forall m' n, arena_rep m' arena gs rs os B ub un -> 0 < n <= USER_END ->
    dfk_arena_alloc malloc arena n m' = Err AssertFailed) as Hal.
  { intros m' n Hm' Hn. eapply alloc_full; [done..|lia]. }
  assert (nonnull arena = true) as Har by by eapply arena_nonnull.
  assert (forall bs (k : M (armem Mem) Z), bs <> [] -> Z.of_nat (length bs) <= un ->
    (forall m', arena_rep m' arena gs rs os B ub un -> bytes_at (ar_bytes m') ub bs ->
      k m' = Err AssertFailed) ->
    (zoom abytes (write_bytes ub bs);; k) m = Err AssertFailed) as Hfill.
  { intros bs k Hne Hlen Hk.
    pose proof (wp_fill_buffer m arena gs rs os B ub un bs get (fun m' _ => arena_rep m' arena gs rs os B ub un /\ bytes_at (ar_bytes m') ub bs) Hrep Hne Hlen (fun _ H1 H2 => conj H1 H2)) as Hw.
    unfold wp, mbind, M_bind, get in Hw |- *.
    destruct (zoom abytes (write_bytes ub bs) m) as [[u m']|]; [|done]. destruct Hw; by apply Hk. }
  destruct c as [n|bs|n f|bs f]; cbn [cmd_ok run_arena_cmd] in *.
  - by apply Hal.
  - destruct Hc as [Hne Hlen]. apply Hfill; [done..|]. intros m1 Hrep1 Hbs.
    destruct (ar_user _ _ _ _ _ _ _ _ Hrep1) as (_ & _ & Hue & _). destruct Hbs as [Hub _].
    assert (0 < Z.of_nat (length bs)) by (destruct bs; [done|cbn; lia]).
    unfold dfk_arena_alloc_copy, mbind, M_bind, c_assert. rewrite Har, nonnull_true by lia. cbn -[dfk_arena_alloc].
    rewrite (proj2 (Z.eqb_neq _ _)) by lia. cbn -[dfk_arena_alloc]. rewrite Hal by (done || lia). done.
  - destruct Hc as (Hn & Hmax & Hf).
    unfold dfk_arena_alloc_ex, mbind, M_bind, c_assert. rewrite Har, (nonnull_true f) by done. cbn -[dfk_arena_alloc].
    rewrite (proj2 (Z.eqb_neq _ _)) by lia. cbn -[dfk_arena_alloc].
    rewrite to_size_small by (unfold OWC_T, USER_END, SIZE_MOD, SIZE_BITS in *; lia).
    rewrite Hal; [done..|unfold OWC_T in *; lia].
  - destruct Hc as (Hne & Hlen & Hmax & Hf). apply Hfill; [done..|]. intros m1 Hrep1 Hbs.
    destruct Hbs as [Hub _].
    assert (0 < Z.of_nat (length bs)) by (destruct bs; [done|cbn; lia]).
    unfold dfk_arena_alloc_copy_ex, dfk_arena_alloc_ex, mbind, M_bind, c_assert.
    rewrite Har, (nonnull_true ub), (nonnull_true f) by (done || lia). cbn -[dfk_arena_alloc].
    rewrite (proj2 (Z.eqb_neq _ _)) by lia. cbn -[dfk_arena_alloc].
    rewrite to_size_small by (unfold OWC_T, USER_END, SIZE_MOD, SIZE_BITS in *; lia).
    rewrite Hal; [done..|unfold OWC_T in *; lia].
Qed.

(** A program of allocations either runs to its end, or stops at an assertion
    because an earlier allocation filled the segment. *)
Definition arena_outcome (cs : list arena_cmd) (arena : Z) (gs : list gseg) (rs : list region)
    (os : list (Z * Z)) (B : gmap Z Z) (ub un : Z) (res : result (list Z * armem Mem)) : Prop :=
  match res with
  | Ok (outs, m') => length outs = length cs /\ exists gs',
      arena_rep m' arena gs' (rs ++ all_regions cs outs) (os ++ all_objects cs outs) B ub un
  | Err f => f = AssertFailed /\ exists pre c post outs,
      cs = pre ++ c :: post /\ length outs = length pre /\ full (rems_after (remaining gs) pre outs)
  end.

Lemma run_arena_cmds_spec cs : forall m arena gs rs os B ub un,
  arena_rep m arena gs rs os B ub un -> Forall (cmd_ok un) cs ->
  arena_outcome cs arena gs rs os B ub un (run_arena_cmds malloc arena ub cs m).
Proof.
  induction cs as [|c cs IH]; intros m arena gs rs os B ub un Hrep Hcs; cbn [run_arena_cmds].
  - split; [done|]. exists gs. unfold all_regions, all_objects. cbn. by rewrite !app_nil_r.
  - apply Forall_cons in Hcs as [Hc Hcs]. unfold mbind, M_bind.
    destruct (decide (full (remaining gs))) as [Hfull|Hfull].
    + erewrite run_arena_cmd_full by done. split; [done|]. by exists [], c, cs, [].
    + pose proof (run_arena_cmd_spec m arena gs rs os B ub un c Hrep Hc Hfull) as Hw.
      apply wp_run in Hw as (r & m1 & -> & _ & gs1 & Hrep1 & Hrem).
      specialize (IH m1 arena gs1 _ _ B ub un Hrep1 Hcs).
      destruct (run_arena_cmds malloc arena ub cs m1) as [[outs m2]|e]; cbn.
      * destruct IH as [Hlen (gs' & Hrep2)]. split; [cbn; lia|]. exists gs'.
        unfold all_regions, all_objects in *. cbn. by rewrite !app_assoc.
      * destruct IH as (-> & pre & c' & post & outs & -> & Hlen & Hf). split; [done|].
        exists (c :: pre), c', post, (r :: outs). cbn. rewrite Hrem in Hf. by split_and!; [|lia|].
Qed.
End programs.
End arena.

(** ** Claims *)

(** C13: a program of allocations from an arena.  Either it runs to its end:
    then the ranges returned to the caller (and the headers of the objects
    with cleanup) are pairwise disjoint live storage, every copy still holds
    its data, and [dfk_arena_free] calls each registered cleanup function once
    with its object, in the order of registration, and leaves in use exactly
    the blocks that were in use before the arena.  Or it stops at a failed
    assertion, and then an earlier allocation had filled its segment.  An
    allocation that fails returns NULL and changes nothing. *)
Theorem arena_allocations {Mem It : Type} `{!ListOps Mem It, !ListLaws Mem It}
    (malloc : bmem -> Z -> Z) (Hmalloc : malloc_ok malloc) (m : armem Mem)
    (arena dfk ub un : Z) (cs : list arena_cmd)
    (Hlists : lrep (ar_lists m) no_lists) (Harena : 0 < arena) (Hdfk : dfk <> 0)
    (Hbuf : room_at (ar_bytes m) ub un) (Hun : 0 <= un) (Hend : ub + un <= USER_END)
    (Hcs : Forall (cmd_ok un) cs) :
  match (dfk_arena_init arena dfk;; run_arena_cmds malloc arena ub cs) m with
  | Ok (outs, m') =>
      length outs = length cs /\
      pairwise_apart (reg_range <$> all_regions cs outs) /\
      (forall r, r ∈ all_regions cs outs ->
        room_at (ar_bytes m') (r_addr r) (r_len r) /\
        forall bs, r_data r = Some bs -> bytes_at (ar_bytes m') (r_addr r) bs) /\
      exists bound, forall fuel, (bound < fuel)%nat ->
        exists m'', dfk_arena_free fuel arena m' = Ok (tt, m'') /\
          blocks (ar_bytes m'') = blocks (ar_bytes m) /\
          cleaned m'' = cleaned m' ++ (cleanup_call <$> all_objects cs outs)
  | Err f =>
      f = AssertFailed /\ exists pre c post outs,
        cs = pre ++ c :: post /\ length outs = length pre /\ full (rems_after None pre outs)
  end.
Proof.
  pose proof (dfk_arena_init_spec m arena dfk ub un Hlists Harena Hdfk Hbuf Hun Hend) as Hi.
  apply wp_run in Hi as ([] & m1 & Hinit & Hrep & _ & Hcl).
  pose proof (run_arena_cmds_spec malloc Hmalloc cs m1 arena [] [] [] _ ub un Hrep Hcs) as Hrun.
  unfold mbind, M_bind. rewrite Hinit.
  destruct (run_arena_cmds malloc arena ub cs m1) as [[outs m2]|e]; [|done].
  destruct Hrun as [Hlen (gs & Hrep2)]. cbn [app] in Hrep2.
  split_and!; [done|apply Hrep2| |].
  - intros r Hr. destruct (ar_regs _ _ _ _ _ _ _ _ Hrep2 r Hr) as [Hl (g & Hg & Hi1 & Hi2) Hd].
    destruct (ar_segs _ _ _ _ _ _ _ _ Hrep2 g Hg) as [Q1 Q2 Q3 Q4 Q5 Q6 Q7]. unfold SEGMENT_T in *.
    split; [|intros bs Hbs; by apply Hd].
    replace (r_addr r) with (g_addr g + (r_addr r - g_addr g)) by lia.
    eapply room_mono; [|apply (room_tail _ _ (g_block g)); [lia|exact Q7]]. lia.
  - exists (Nat.max (length gs) (length (all_objects cs outs))). intros fuel Hfuel.
    pose proof (dfk_arena_free_spec m2 arena gs _ _ _ ub un fuel Hrep2 ltac:(lia) ltac:(lia)) as Hw.
    apply wp_run in Hw as ([] & m3 & Hfree & Hb & Hc). by exists m3.
Qed.

Definition sample_arena_mem : armem mem :=
  ArMem (LMem ∅ ∅) (BMem (map_seqZ 100 (replicate 16 (Some 0))) ∅) ∅ ∅ ∅ [].

Definition sample_arena_program : list arena_cmd :=
  [ArCopy [1; 2; 3]; ArAllocEx 40 7; ArAlloc 40000; ArAlloc 2000].

Lemma arena_allocations_witness : exists outs m',
  (dfk_arena_init 8 9;; run_arena_cmds first_fit 8 100 sample_arena_program) sample_arena_mem =
    Ok (outs, m') /\
  pairwise_apart (reg_range <$> all_regions sample_arena_program outs).
Proof.
  pose proof (arena_allocations first_fit first_fit_ok sample_arena_mem 8 9 100 16
    sample_arena_program) as H.
  destruct ((dfk_arena_init 8 9;; run_arena_cmds first_fit 8 100 sample_arena_program)
    sample_arena_mem) as [[outs m']|e] eqn:E.
  - exists outs, m'. split; [reflexivity|]. apply H.
    + apply no_lists_rep.
    + done.
    + done.
    + split; [done|]. intros i Hi. cbn [ar_bytes sample_arena_mem cells].
      apply lookup_map_seqZ_is_Some. rewrite length_replicate. lia.
    + done.
    + done.
    + unfold sample_arena_program. rewrite !Forall_cons, Forall_nil. cbn. unfold USER_END, OWC_T.
      repeat split; first [done|lia].
  - exfalso. assert (match (dfk_arena_init 8 9;; run_arena_cmds first_fit 8 100 sample_arena_program)
      sample_arena_mem with Ok _ => True | Err _ => False end) as Hok by (vm_compute; exact I).
    rewrite E in Hok. exact Hok.
Defined.

(** An allocation that takes all that is left of its segment, or more than
    an ordinary segment holds, succeeds and makes the arena unusable: the
    sizes recorded in the segment are those of an ordinary one and leave
    nothing, so that whatever is asked next fails the assertion
    [seg->size > seg->used]. *)
Theorem arena_stuck_when_full {Mem It : Type} `{!ListOps Mem It, !ListLaws Mem It}
    (malloc : bmem -> Z -> Z) (Hmalloc : malloc_ok malloc) (m : armem Mem) (arena : Z)
    (gs : list gseg) (rs : list region) (os : list (Z * Z)) (B : gmap Z Z) (ub un n k : Z)
    (Hrep : arena_rep m arena gs rs os B ub un) (Husable : ~ full (remaining gs))
    (Hn : 0 < n <= USER_END)
    (Hfill : remaining gs = Some n \/ ARENA_SEGMENT_SIZE - 2 * SEGMENT_T <= n) (Hk : k <> 0) :
  exists r m', dfk_arena_alloc malloc arena n m = Ok (r, m') /\
    (r = 0 \/ dfk_arena_alloc malloc arena k m' = Err AssertFailed).
Proof.
  pose proof (dfk_arena_alloc_spec malloc Hmalloc _ _ _ _ _ _ _ _ _ Hrep Hn Husable) as Hw.
  apply wp_run in Hw as (r & m' & Hrun & [[-> _]|(Hr & _ & gs' & Hrep' & Hrem)]).
  - exists 0, m'. split; [done|]. by left.
  - exists r, m'. split; [done|]. right. eapply alloc_full; [exact Hrep'| |done].
    rewrite Hrem. cbn. unfold take_bytes.
    destruct Hfill as [-> |Hfill]; [rewrite Z.ltb_irrefl; lia|].
    destruct (remaining gs) as [j|] eqn:Ej; [|lia].
    destruct (Z.ltb_spec j n); [lia|].
    unfold remaining in Ej. destruct (last gs) as [g|] eqn:Eg; [|done]. injection Ej as <-.
    apply last_Some in Eg as [gs0 ->].
    destruct (ar_segs _ _ _ _ _ _ _ _ Hrep g ltac:(set_solver)) as [_ _ _ _ Q5 _ _]. lia.
Qed.

Lemma arena_stuck_when_full_witness :
  exists m1 r m2, dfk_arena_init 8 9 sample_arena_mem = Ok (tt, m1) /\
    dfk_arena_alloc first_fit 8 50000 m1 = Ok (r, m2) /\
    dfk_arena_alloc first_fit 8 1 m2 = Err AssertFailed.
Proof.
  pose proof (dfk_arena_init_spec sample_arena_mem 8 9 100 16) as Hi.
  apply wp_run in Hi as ([] & m1 & Hinit & Hrep & _).
  - destruct (arena_stuck_when_full first_fit first_fit_ok m1 8 [] [] [] _ 100 16 50000 1 Hrep)
      as (r & m2 & Hrun & Hor).
    + exact id.
    + done.
    + right. done.
    + done.
    + exists m1, r, m2. destruct Hor as [-> |Hor]; [|exact (conj Hinit (conj Hrun Hor))].
      exfalso. assert (match dfk_arena_init 8 9 sample_arena_mem with
        | Ok (_, m) => match dfk_arena_alloc first_fit 8 50000 m with
                       | Ok (r, _) => r <> 0 | Err _ => False end
        | Err _ => False end) as Hok by (vm_compute; discriminate).
      rewrite Hinit, Hrun in Hok. by apply Hok.
  - apply no_lists_rep.
  - done.
  - done.
  - split; [done|]. intros i Hin. cbn [ar_bytes sample_arena_mem cells].
    apply lookup_map_seqZ_is_Some. rewrite length_replicate. lia.
  - done.
  - done.
Defined.
