(* ===== verification/Avl.v ===== *)
(** * [avltree.c]: the intrusive AVL trees

    The functions of [src/src/avltree.c] ([DFK_AVLTREE_CONSTANT_TIME_SIZE] on,
    [DFK_DEBUG] off, assertions on).  A tree object holds its root and size, a
    node its children, its parent and its balance, a [signed char].  The
    comparator stored in the tree object is the section variable [cmp]: it
    reads memory that the tree functions do not write. *)

From S2P Require Import Prelude.

Record dfk_avltree_hook_t := AHook { _left : Z; _right : Z; _parent : Z; _bal : Z }.
Record dfk_avltree_t := AvlTree { _root : Z; t_size : Z }.

(** Memory as the tree functions see it. *)
Record amem := AMem {
  trees : gmap Z dfk_avltree_t;
  nodes : gmap Z dfk_avltree_hook_t
}.

Definition trees_of : heap_of amem dfk_avltree_t := Heap trees (fun ts m => AMem ts (nodes m)).
Definition nodes_of : heap_of amem dfk_avltree_hook_t := Heap nodes (fun ns m => AMem (trees m) ns).

Definition set_left (p : Z) (n : dfk_avltree_hook_t) := AHook p (_right n) (_parent n) (_bal n).
Definition set_right (p : Z) (n : dfk_avltree_hook_t) := AHook (_left n) p (_parent n) (_bal n).
Definition set_parent (p : Z) (n : dfk_avltree_hook_t) := AHook (_left n) (_right n) p (_bal n).
(** The balance is stored in a [signed char]. *)
Definition set_bal (b : Z) (n : dfk_avltree_hook_t) :=
  AHook (_left n) (_right n) (_parent n) (to_schar b).
Definition set_root (p : Z) (t : dfk_avltree_t) := AvlTree p (t_size t).
Definition set_tsize (z : Z) (t : dfk_avltree_t) := AvlTree (_root t) z.

(** [p->f] *)
Definition rd (f : dfk_avltree_hook_t -> Z) (p : Z) : M amem Z :=
  n ← deref nodes_of p; mret (f n).

(** Logical negation of an [int]. *)
Definition lnot (z : Z) : Z := if z =? 0 then 1 else 0.

(** [if (x->f) { x->f->_parent = p; }] *)
Definition adopt (f : dfk_avltree_hook_t -> Z) (x p : Z) : M amem unit :=
  c ← rd f x;
  when (nonnull c) (update nodes_of c (set_parent p)).

(** ** Invariant check *)

(** Value of a 64-bit unsigned expression converted to [int]. *)
Definition to_int (z : Z) : Z := (z + 2 ^ 31) mod 2 ^ 32 - 2 ^ 31.

(** Recursion depth is bounded by [fuel]. *)
Fixpoint dfk__avltree_check_invariants_node (fuel : nat) (node : Z) : M amem Z :=
  match fuel with
  | O => fail OutOfFuel
  | S fuel =>
      c_assert (nonnull node);;
      l ← rd _left node;
      lheight ←
        (if nonnull l then
           lp ← rd _parent l;
           c_assert (lp =? node);;
           dfk__avltree_check_invariants_node fuel l
         else mret 0);
      r ← rd _right node;
      rheight ←
        (if nonnull r then
           rp ← rd _parent r;
           c_assert (rp =? node);;
           dfk__avltree_check_invariants_node fuel r
         else mret 0);
      c_assert (Z.abs (to_int (to_size (lheight - rheight))) <=? 1);;
      b ← rd _bal node;
      c_assert (b =? to_schar (to_size (rheight - lheight)));;
      mret (to_size (1 + Z.max lheight rheight))
  end.

Definition dfk__avltree_check_invariants (tree : Z) : M amem unit :=
  c_assert (nonnull tree);;
  t ← deref trees_of tree;
  when (nonnull (_root t))
    (rp ← rd _parent (_root t);
     c_assert (isnull rp);;
     fuel ← gets (fun m => S (size (nodes m)));
     dfk__avltree_check_invariants_node fuel (_root t);;
     mret tt).

(** ** Initialisation *)

Definition dfk_avltree_init (tree : Z) : M amem unit :=
  c_assert (nonnull tree);;
  store trees_of tree (AvlTree 0 0);;
  dfk__avltree_check_invariants tree.

Definition dfk_avltree_hook_init (hook : Z) : M amem unit :=
  c_assert (nonnull hook);;
  store nodes_of hook (AHook 0 0 0 0);;
  c_assert (nonnull hook).

(** ** Rotations *)

Definition dfk__avltree_single_rot (prime : Z) : M amem Z :=
  pb ← rd _bal prime;
  if pb =? 2 then
    x ← rd _right prime;
    c_assert (nonnull x);;
    xb ← rd _bal x;
    c_assert ((xb =? 0) || (xb =? 1));;
    xl ← rd _left x;
    update nodes_of prime (set_right xl);;
    adopt _left x prime;;
    update nodes_of x (set_left prime);;
    update nodes_of prime (set_parent x);;
    xb ← rd _bal x;
    update nodes_of prime (set_bal (1 - xb));;
    update nodes_of x (fun n => set_bal (_bal n - 1) n);;
    mret x
  else
    x ← rd _left prime;
    c_assert (pb =? -2);;
    c_assert (nonnull x);;
    xb ← rd _bal x;
    c_assert ((xb =? 0) || (xb =? -1));;
    xr ← rd _right x;
    update nodes_of prime (set_left xr);;
    adopt _right x prime;;
    update nodes_of x (set_right prime);;
    update nodes_of prime (set_parent x);;
    xb ← rd _bal x;
    update nodes_of prime (set_bal (-1 - xb));;
    update nodes_of x (fun n => set_bal (_bal n + 1) n);;
    mret x.

Definition dfk__avltree_double_rot (prime : Z) : M amem Z :=
  pb ← rd _bal prime;
  if pb =? 2 then
    b ← rd _right prime;
    pr ← rd _right prime;
    x ← rd _left pr;
    xl ← rd _left x;
    update nodes_of prime (set_right xl);;
    adopt _left x prime;;
    update nodes_of x (set_left prime);;
    update nodes_of prime (set_parent x);;
    xr ← rd _right x;
    update nodes_of b (set_left xr);;
    adopt _right x b;;
    update nodes_of x (set_right b);;
    update nodes_of b (set_parent x);;
    xb ← rd _bal x;
    update nodes_of b (set_bal (lnot (xb + 1)));;
    xb ← rd _bal x;
    update nodes_of prime (set_bal (0 - lnot (xb - 1)));;
    update nodes_of x (set_bal 0);;
    mret x
  else
    b ← rd _left prime;
    pl ← rd _left prime;
    x ← rd _right pl;
    xr ← rd _right x;
    update nodes_of prime (set_left xr);;
    adopt _right x prime;;
    update nodes_of x (set_right prime);;
    update nodes_of prime (set_parent x);;
    xl ← rd _left x;
    update nodes_of b (set_right xl);;
    adopt _left x b;;
    update nodes_of x (set_left b);;
    update nodes_of b (set_parent x);;
    xb ← rd _bal x;
    update nodes_of b (set_bal (0 - lnot (xb - 1)));;
    xb ← rd _bal x;
    update nodes_of prime (set_bal (lnot (xb + 1)));;
    update nodes_of x (set_bal 0);;
    mret x.

Definition dfk__avltree_promote_prime (prime_parent_dir prime prime_parent tree : Z) :
    M amem unit :=
  if prime_parent_dir =? 0 then
    update trees_of tree (set_root prime);;
    t ← deref trees_of tree;
    update nodes_of (_root t) (set_parent 0)
  else
    (if prime_parent_dir =? 1 then
       update nodes_of prime_parent (set_right prime)
     else
       c_assert (prime_parent_dir =? -1);;
       update nodes_of prime_parent (set_left prime));;
    update nodes_of prime (set_parent prime_parent).

(** [prime->_parent ? (prime->_parent->_left == prime ? -1 : 1) : 0] *)
Definition direction (prime : Z) : M amem Z :=
  p ← rd _parent prime;
  if nonnull p then l ← rd _left p; mret (if l =? prime then -1 else 1)
  else mret 0.

(** ** Insertion *)
Section insert.
Context (cmp : Z -> Z -> Z).

(** One turn of [while (1)]: the state is [(i, prime, prime_parent,
    prime_parent_dir)]; the loop ends with the last three when [e] was linked,
    with [None] when a node compares equal. *)
Definition descend_body (e : Z) (st : Z * Z * Z * Z) :
    M amem ((Z * Z * Z * Z) + option (Z * Z * Z)) :=
  let '(i, prime, prime_parent, dir) := st in
  if cmp i e <? 0 then
    l ← rd _left i;
    if nonnull l then
      lb ← rd _bal l;
      if negb (lb =? 0) then mret (inl (l, l, i, -1))
      else mret (inl (l, prime, prime_parent, dir))
    else
      update nodes_of i (set_left e);;
      update nodes_of e (set_parent i);;
      mret (inr (Some (prime, prime_parent, dir)))
  else if 0 <? cmp i e then
    r ← rd _right i;
    if nonnull r then
      rb ← rd _bal r;
      if negb (rb =? 0) then mret (inl (r, r, i, 1))
      else mret (inl (r, prime, prime_parent, dir))
    else
      update nodes_of i (set_right e);;
      update nodes_of e (set_parent i);;
      mret (inr (Some (prime, prime_parent, dir)))
  else mret (inr None).

(** [i = prime; while (i != e) { .. }] *)
Definition adjust_body (e : Z) (i : Z) : M amem (Z + unit) :=
  if i =? e then mret (inr tt) else
  if cmp i e <? 0 then
    update nodes_of i (fun n => set_bal (_bal n - 1) n);;
    l ← rd _left i;
    mret (inl l)
  else
    c_assert (0 <? cmp i e);;
    update nodes_of i (fun n => set_bal (_bal n + 1) n);;
    r ← rd _right i;
    mret (inl r).

(** [prime->_bal == b && prime->child->_bal == cb] *)
Definition bal_and (prime b : Z) (child : dfk_avltree_hook_t -> Z) (cb : Z) : M amem bool :=
  pb ← rd _bal prime;
  if pb =? b then c ← rd child prime; x ← rd _bal c; mret (x =? cb)
  else mret false.

Definition either (m1 m2 : M amem bool) : M amem bool :=
  b ← m1;
  if b : bool then mret true else m2.

(** The rotation that restores the balance at [prime]; 0 when none is due. *)
Definition insert_rotate (prime : Z) : M amem Z :=
  double ← either (bal_and prime 2 _right (-1)) (bal_and prime (-2) _left 1);
  if double : bool then dfk__avltree_double_rot prime else
  pb ← rd _bal prime;
  if (pb =? 2) || (pb =? -2) then
    ok ← either (bal_and prime 2 _right 1) (bal_and prime (-2) _left (-1));
    c_assert ok;;
    dfk__avltree_single_rot prime
  else mret 0.

Definition dfk_avltree_insert (tree e : Z) : M amem Z :=
  dfk__avltree_check_invariants tree;;
  c_assert (nonnull e);;
  el ← rd _left e; c_assert (isnull el);;
  er ← rd _right e; c_assert (isnull er);;
  ep ← rd _parent e; c_assert (isnull ep);;
  eb ← rd _bal e; c_assert (eb =? 0);;
  t ← deref trees_of tree;
  if isnull (_root t) then
    update trees_of tree (set_root e);;
    update trees_of tree (set_tsize 1);;
    mret e
  else
    fuel ← gets (fun m => S (S (size (nodes m))));
    found ← loop fuel (descend_body e) (_root t, _root t, 0, 0);
    match found with
    | None => mret 0
    | Some (prime, prime_parent, prime_parent_dir) =>
        loop fuel (adjust_body e) prime;;
        new_prime ← insert_rotate prime;
        when (nonnull new_prime)
          (dfk__avltree_promote_prime prime_parent_dir new_prime prime_parent tree);;
        update trees_of tree (fun t => set_tsize (to_size (t_size t + 1)) t);;
        dfk__avltree_check_invariants tree;;
        mret e
    end.

End insert.

(** ** Removal *)

(** [while (i->_left->_left) i = i->_left;] *)
Definition leftmost_parent_body (i : Z) : M amem (Z + Z) :=
  l ← rd _left i;
  ll ← rd _left l;
  if nonnull ll then mret (inl l) else mret (inr i).

(** The rotation at [prime] after a removal under it: the new root of the
    subtree, and whether the subtree kept its height. *)
Definition erase_rotate (tree prime : Z) (child : dfk_avltree_hook_t -> Z) (inner : Z) :
    M amem (Z * bool) :=
  parent ← rd _parent prime;
  dir ← direction prime;
  c ← rd child prime;
  cbal ← rd _bal c;
  new_prime ←
    (if cbal =? inner then dfk__avltree_double_rot prime
     else dfk__avltree_single_rot prime);
  dfk__avltree_promote_prime dir new_prime parent tree;;
  mret (new_prime, cbal =? 0).

(** One turn of [while (prime) { .. }]; the state is [(prime,
    erase_direction)]. *)
Definition rebalance_body (tree : Z) (st : Z * Z) : M amem ((Z * Z) + unit) :=
  let '(prime, dir) := st in
  if isnull prime then mret (inr tt) else
  let up (p : Z) : M amem ((Z * Z) + unit) :=
    d ← direction p;
    pp ← rd _parent p;
    mret (inl (pp, d)) in
  let after_rotation (r : Z * bool) : M amem ((Z * Z) + unit) :=
    let '(p, stop) := r in
    if stop : bool then mret (inr tt) else up p in
  if dir =? -1 then
    update nodes_of prime (fun n => set_bal (_bal n + 1) n);;
    b ← rd _bal prime;
    if b =? 1 then mret (inr tt) else
    if b =? 2 then r ← erase_rotate tree prime _right (-1); after_rotation r
    else up prime
  else
    c_assert (dir =? 1);;
    update nodes_of prime (fun n => set_bal (_bal n - 1) n);;
    b ← rd _bal prime;
    if b =? -1 then mret (inr tt) else
    if b =? -2 then r ← erase_rotate tree prime _left 1; after_rotation r
    else up prime.

(** The leftmost leaf under [r], the left child of [x], takes the place of
    [e]; its right subtree takes its own place. *)
Definition swap_leaf (e r a x : Z) : M amem (Z * Z * Z) :=
  y ← rd _left x;
  c_assert (nonnull y);;
  yl ← rd _left y;
  c_assert (isnull yl);;
  z ← rd _right y;
  el ← rd _left e; update nodes_of y (set_left el);;
  er ← rd _right e; update nodes_of y (set_right er);;
  eb ← rd _bal e; update nodes_of y (set_bal eb);;
  update nodes_of r (set_parent y);;
  update nodes_of a (set_parent y);;
  update nodes_of x (set_left z);;
  when (nonnull z) (update nodes_of z (set_parent x));;
  mret (y, x, -1).

(** The node that takes the place of [e], the node to rebalance from, and the
    side it lost height on. *)
Definition unlink (e : Z) : M amem (Z * Z * Z) :=
  er ← rd _right e;
  if isnull er then
    newe ← rd _left e;
    prime ← rd _parent e;
    dir ← direction e;
    mret (newe, prime, dir)
  else
    erl ← rd _left er;
    if isnull erl then
      r ← rd _right e;
      a ← rd _left e;
      update nodes_of r (set_left a);;
      when (nonnull a) (update nodes_of a (set_parent r));;
      eb ← rd _bal e;
      update nodes_of r (set_bal eb);;
      mret (r, r, 1)
    else
      r ← rd _right e;
      a ← rd _left e;
      il ← rd _left r;
      c_assert (nonnull il);;
      fuel ← gets (fun m => S (size (nodes m)));
      x ← loop fuel leftmost_parent_body r;
      swap_leaf e r a x.

(** [e->_parent]'s link to [e], or the root, now leads to [newe]. *)
Definition replace_child (tree e newe : Z) : M amem unit :=
  ep ← rd _parent e;
  (if nonnull ep then
     epl ← rd _left ep;
     if epl =? e then update nodes_of ep (set_left newe)
     else update nodes_of ep (set_right newe)
   else update trees_of tree (set_root newe));;
  when (nonnull newe)
    (ep ← rd _parent e; update nodes_of newe (set_parent ep)).

Definition dfk_avltree_erase (tree e : Z) : M amem unit :=
  dfk__avltree_check_invariants tree;;
  c_assert (nonnull e);;
  t ← deref trees_of tree;
  c_assert (negb (t_size t =? 0));;
  u ← unlink e;
  let '(newe, prime, erase_direction) := u in
  replace_child tree e newe;;
  fuel ← gets (fun m => S (size (nodes m)));
  loop fuel (rebalance_body tree) (prime, erase_direction);;
  update trees_of tree (fun t => set_tsize (to_size (t_size t - 1)) t);;
  dfk__avltree_check_invariants tree.

(** ** Search and iteration *)

Definition find_body (cmp : Z -> Z) (i : Z) : M amem (Z + Z) :=
  if isnull i then mret (inr 0) else
  if cmp i <? 0 then l ← rd _left i; mret (inl l)
  else if 0 <? cmp i then r ← rd _right i; mret (inl r)
  else mret (inr i).

(** [cmp] is the comparator applied to the value searched for. *)
Definition dfk_avltree_find (cmp : Z -> Z) (tree : Z) : M amem Z :=
  dfk__avltree_check_invariants tree;;
  t ← deref trees_of tree;
  fuel ← gets (fun m => S (S (size (nodes m))));
  loop fuel (find_body cmp) (_root t).

Definition dfk_avltree_size (tree : Z) : M amem Z :=
  dfk__avltree_check_invariants tree;;
  t ← deref trees_of tree;
  mret (t_size t).

(** [while (it->value->_left) it->value = it->value->_left;] *)
Definition leftmost_body (i : Z) : M amem (Z + Z) :=
  l ← rd _left i;
  if nonnull l then mret (inl l) else mret (inr i).

Definition leftmost (i : Z) : M amem Z :=
  fuel ← gets (fun m => S (size (nodes m)));
  loop fuel leftmost_body i.

(** Iterators are the value they stand on; 0 is the end. *)
Definition dfk_avltree_begin (tree : Z) : M amem Z :=
  dfk__avltree_check_invariants tree;;
  t ← deref trees_of tree;
  it ← (if nonnull (_root t) then leftmost (_root t) else mret (_root t));
  dfk__avltree_check_invariants tree;;
  mret it.

Definition dfk_avltree_end (tree : Z) : M amem Z :=
  dfk__avltree_check_invariants tree;;
  dfk__avltree_check_invariants tree;;
  mret 0.

(** [while (v->_parent && v->_parent->_right == v) v = v->_parent;] *)
Definition climb_body (v : Z) : M amem (Z + Z) :=
  p ← rd _parent v;
  if nonnull p then
    pr ← rd _right p;
    if pr =? v then mret (inl p) else mret (inr v)
  else mret (inr v).

Definition dfk_avltree_it_next (it : Z) : M amem Z :=
  c_assert (nonnull it);;
  r ← rd _right it;
  if nonnull r then leftmost r
  else
    fuel ← gets (fun m => S (size (nodes m)));
    v ← loop fuel climb_body it;
    rd _parent v.

Definition dfk_avltree_it_equal (lhs rhs : Z) : M amem bool := mret (lhs =? rhs).

(** [dfk_avltree_size] without [DFK_AVLTREE_CONSTANT_TIME_SIZE]; [fuel] bounds
    the iteration. *)
Definition walk_body (end_ : Z) (st : Z * list Z) : M amem ((Z * list Z) + list Z) :=
  let '(it, acc) := st in
  stop ← dfk_avltree_it_equal it end_;
  if stop : bool then mret (inr acc) else
  it' ← dfk_avltree_it_next it;
  mret (inl (it', acc ++ [it])).

Definition walk (fuel : nat) (tree : Z) : M amem (list Z) :=
  it ← dfk_avltree_begin tree;
  end_ ← dfk_avltree_end tree;
  loop fuel (walk_body end_) (it, []).

Definition size_linear (fuel : nat) (tree : Z) : M amem Z :=
  xs ← walk fuel tree;
  mret (to_size (Z.of_nat (length xs))).
