(* ===== verification/AvlTree.v ===== *)
(** * Binary trees of nodes, their contexts, and their layout in memory

    The mathematical side of [avltree.c]: annotated binary trees, one-hole
    contexts (a path from a node to the root with the subtrees hanging off
    it), the AVL balance, and the predicates [arep] and [crep] that relate
    them to a heap of nodes. *)

From S2P Require Import Prelude Avl.

Create HintDb avl.

(** ** Trees and contexts *)

Inductive tree :=
| Leaf
| Node (l : tree) (x b : Z) (r : tree).

#[export] Instance tree_eq_dec : EqDecision tree.
Proof. solve_decision. Defined.

Definition ptr (t : tree) : Z := match t with Leaf => 0 | Node _ x _ _ => x end.

Fixpoint elems (t : tree) : list Z :=
  match t with Leaf => [] | Node l x _ r => elems l ++ x :: elems r end.

Fixpoint height (t : tree) : Z :=
  match t with Leaf => 0 | Node l _ _ r => 1 + Z.max (height l) (height r) end.

(** Every balance is the difference of the heights, and is at most one. *)
Fixpoint avl (t : tree) : Prop :=
  match t with
  | Leaf => True
  | Node l _ b r => avl l /\ avl r /\ b = height r - height l /\ -1 <= b <= 1
  end.

(** The hole is the left, respectively the right child of the node [x]. *)
Inductive frame :=
| FL (x b : Z) (r : tree)
| FR (l : tree) (x b : Z).

Abbreviation ctx := (list frame).

Definition fill (f : frame) (t : tree) : tree :=
  match f with FL x b r => Node t x b r | FR l x b => Node l x b t end.

Fixpoint plug (t : tree) (c : ctx) : tree :=
  match c with [] => t | f :: c => plug (fill f t) c end.

Definition fnode (f : frame) : Z := match f with FL x _ _ => x | FR _ x _ => x end.
Definition fbal (f : frame) : Z := match f with FL _ b _ => b | FR _ _ b => b end.
Definition fsib (f : frame) : tree := match f with FL _ _ r => r | FR l _ _ => l end.
Definition fdir (f : frame) : Z := match f with FL _ _ _ => -1 | FR _ _ _ => 1 end.

(** Parent of the hole, side of the hole, and node at the top. *)
Definition cpar (pp : Z) (c : ctx) : Z := match c with [] => pp | f :: _ => fnode f end.
Definition cdir (c : ctx) : Z := match c with [] => 0 | f :: _ => fdir f end.
Fixpoint ctop (q : Z) (c : ctx) : Z :=
  match c with [] => q | f :: c => ctop (fnode f) c end.

(** Elements before and after the hole. *)
Fixpoint lelems (c : ctx) : list Z :=
  match c with
  | [] => []
  | FL _ _ _ :: c => lelems c
  | FR l x _ :: c => lelems c ++ elems l ++ [x]
  end.
Fixpoint relems (c : ctx) : list Z :=
  match c with
  | [] => []
  | FL x _ r :: c => x :: elems r ++ relems c
  | FR _ _ _ :: c => relems c
  end.

Lemma plug_app t c1 c2 : plug t (c1 ++ c2) = plug (plug t c1) c2.
Proof. revert t. induction c1 as [|f c1 IH]; intros t; [done|]. apply IH. Qed.

Lemma elems_plug t c : elems (plug t c) = lelems c ++ elems t ++ relems c.
Proof.
  revert t. induction c as [|[x b r|l x b] c IH]; intros t; cbn.
  - by rewrite app_nil_r.
  - rewrite IH. cbn. by rewrite <- !app_assoc.
  - rewrite IH. cbn. by rewrite <- !app_assoc.
Qed.

Lemma ptr_plug t c : ptr (plug t c) = ctop (ptr t) c.
Proof. revert t. induction c as [|[x b r|l x b] c IH]; intros t; cbn; [done|..]; apply IH. Qed.

Lemma ctop_app q c1 c2 : ctop q (c1 ++ c2) = ctop (ctop q c1) c2.
Proof. revert q. induction c1 as [|f c1 IH]; intros q; [done|]. apply IH. Qed.

Lemma cpar_app pp c1 c2 : cpar pp (c1 ++ c2) = cpar (cpar pp c2) c1.
Proof. by destruct c1. Qed.

Lemma lelems_app c1 c2 : lelems (c1 ++ c2) = lelems c2 ++ lelems c1.
Proof.
  induction c1 as [|[x b r|l x b] c1 IH]; cbn; rewrite ?IH, ?app_nil_r, <- ?app_assoc; done.
Qed.
Lemma relems_app c1 c2 : relems (c1 ++ c2) = relems c1 ++ relems c2.
Proof.
  induction c1 as [|[x b r|l x b] c1 IH]; cbn; rewrite ?IH, ?app_nil_r, <- ?app_assoc; done.
Qed.

(** Where a comparator, applied to the value it looks for, cuts a list of
    nodes: it is positive before the place of the value and negative after. *)
Record cut_at (c : Z -> Z) (xs pre mid suf : list Z) : Prop := CutAt {
  cut_eq : xs = pre ++ mid ++ suf;
  cut_pre : forall x, x ∈ pre -> 0 < c x;
  cut_mid : forall x, x ∈ mid -> c x = 0;
  cut_suf : forall x, x ∈ suf -> c x < 0
}.

(** ** Heights and balance *)

Lemma height_nonneg t : 0 <= height t.
Proof. induction t; cbn; lia. Qed.

Lemma height_length t : height t <= Z.of_nat (length (elems t)).
Proof. induction t; cbn; [lia|]. rewrite length_app. cbn. lia. Qed.

Lemma height_0 t : height t = 0 -> t = Leaf.
Proof. destruct t; [done|]. cbn. pose proof (height_nonneg t1). pose proof (height_nonneg t2). lia. Qed.

(** Height of the tree around a hole of height [hh]. *)
Fixpoint cheight (hh : Z) (c : ctx) : Z :=
  match c with [] => hh | f :: c => cheight (1 + Z.max hh (height (fsib f))) c end.

(** The balances of the context are right for a hole of height [hh]. *)
Fixpoint avl_ctx (hh : Z) (c : ctx) : Prop :=
  match c with
  | [] => True
  | f :: c =>
      avl (fsib f) /\ fbal f = fdir f * (hh - height (fsib f)) /\ -1 <= fbal f <= 1 /\
      avl_ctx (1 + Z.max hh (height (fsib f))) c
  end.

Lemma height_plug t c : height (plug t c) = cheight (height t) c.
Proof.
  revert t. induction c as [|[x b r|l x b] c IH]; intros t; cbn; [done|..]; rewrite IH; cbn; [done|].
  by rewrite Z.max_comm.
Qed.

Lemma avl_plug t c : avl (plug t c) <-> avl t /\ avl_ctx (height t) c.
Proof.
  revert t. induction c as [|[x b r|l x b] c IH]; intros t; cbn; [tauto|..]; rewrite IH; cbn.
  - replace (-1 * (height t - height r)) with (height r - height t) by lia. tauto.
  - replace (1 * (height t - height l)) with (height t - height l) by lia.
    rewrite (Z.max_comm (height l)). tauto.
Qed.

Lemma avl_ctx_app hh c1 c2 :
  avl_ctx hh (c1 ++ c2) <-> avl_ctx hh c1 /\ avl_ctx (cheight hh c1) c2.
Proof.
  revert hh. induction c1 as [|f c1 IH]; intros hh; cbn; [tauto|]. rewrite IH. tauto.
Qed.

Lemma cheight_app hh c1 c2 : cheight hh (c1 ++ c2) = cheight (cheight hh c1) c2.
Proof. revert hh. induction c1 as [|f c1 IH]; intros hh; cbn; [done|]. apply IH. Qed.

(** ** Layout in memory *)

Abbreviation heap := (gmap Z dfk_avltree_hook_t).

Fixpoint arep (h : heap) (p : Z) (t : tree) : Prop :=
  match t with
  | Leaf => True
  | Node l x b r => h !! x = Some (AHook (ptr l) (ptr r) p b) /\ arep h x l /\ arep h x r
  end.

(** The node a frame is stored as, when the hole holds [q] and its parent is
    [p]. *)
Definition fhook (q p : Z) (f : frame) : dfk_avltree_hook_t :=
  match f with
  | FL _ b r => AHook q (ptr r) p b
  | FR l _ b => AHook (ptr l) q p b
  end.

Fixpoint crep (h : heap) (q : Z) (c : ctx) (pp : Z) : Prop :=
  match c with
  | [] => True
  | f :: c =>
      h !! fnode f = Some (fhook q (cpar pp c) f) /\ arep h (fnode f) (fsib f) /\
      crep h (fnode f) c pp
  end.

Lemma arep_plug h t c pp :
  arep h pp (plug t c) <-> arep h (cpar pp c) t /\ crep h (ptr t) c pp.
Proof.
  revert t. induction c as [|[x b r|l x b] c IH]; intros t; cbn; [tauto|..]; rewrite IH; cbn; tauto.
Qed.

Lemma crep_app h q c1 c2 pp :
  crep h q (c1 ++ c2) pp <-> crep h q c1 (cpar pp c2) /\ crep h (ctop q c1) c2 pp.
Proof.
  revert q. induction c1 as [|f c1 IH]; intros q; cbn; [tauto|]. rewrite IH, cpar_app. tauto.
Qed.

Lemma arep_frame h h' p t :
  (forall x, x ∈ elems t -> h' !! x = h !! x) -> arep h p t -> arep h' p t.
Proof.
  revert p. induction t as [|l IHl x b r IHr]; intros p Heq; cbn; [done|].
  intros (Hx & Hl & Hr). split_and!.
  - rewrite Heq; [done|]. cbn. set_solver.
  - apply IHl; [|done]. intros y Hy. apply Heq. cbn. set_solver.
  - apply IHr; [|done]. intros y Hy. apply Heq. cbn. set_solver.
Qed.

Lemma crep_frame h h' q c pp :
  (forall x, x ∈ lelems c ++ relems c -> h' !! x = h !! x) -> crep h q c pp -> crep h' q c pp.
Proof.
  revert q. induction c as [|f c IH]; intros q Heq; cbn; [done|].
  intros (Hx & Hs & Hc). split_and!.
  - rewrite Heq; [done|]. destruct f; cbn; set_solver.
  - eapply arep_frame; [|done]. intros y Hy. apply Heq. destruct f; cbn in *; set_solver.
  - apply IH; [|done]. intros y Hy. apply Heq. destruct f; cbn in *; set_solver.
Qed.

Lemma arep_insert_ne h p t x v : x ∉ elems t -> arep h p t -> arep (<[x := v]> h) p t.
Proof. intros Hx. apply arep_frame. intros y Hy. apply lookup_insert_ne. by intros ->. Qed.

Lemma crep_insert_ne h q c pp x v :
  x ∉ lelems c ++ relems c -> crep h q c pp -> crep (<[x := v]> h) q c pp.
Proof. intros Hx. apply crep_frame. intros y Hy. apply lookup_insert_ne. by intros ->. Qed.

Lemma arep_lookup h p t x : arep h p t -> x ∈ elems t -> is_Some (h !! x).
Proof.
  revert p. induction t as [|l IHl y b r IHr]; intros p; cbn; [set_solver|].
  intros (Hy & Hl & Hr) [Hx|[->|Hx]%elem_of_cons]%elem_of_app; eauto.
Qed.

Lemma arep_size h p t : NoDup (elems t) -> arep h p t -> (length (elems t) <= size h)%nat.
Proof.
  intros Hnd Hr. rewrite <- (size_list_to_set (C := gset Z) (elems t)) by done.
  rewrite <- (size_dom (D := gset Z)). apply subseteq_size. intros x.
  rewrite elem_of_list_to_set, elem_of_dom. by eapply arep_lookup.
Qed.

(** Another parent for the root. *)
Lemma arep_reparent h p p' t : NoDup (elems t) -> arep h p t -> t <> Leaf ->
  exists v, h !! ptr t = Some v /\ arep (<[ptr t := set_parent p' v]> h) p' t.
Proof.
  destruct t as [|l x b r]; [done|]. cbn. intros Hnd (Hx & Hl & Hr) _.
  apply NoDup_app in Hnd as (_ & Hd & [Hnr _]%NoDup_cons).
  eexists. split; [done|]. split_and!.
  - by rewrite lookup_insert_eq.
  - apply arep_insert_ne; [|done]. intros Hin. apply (Hd x Hin). set_solver.
  - by apply arep_insert_ne.
Qed.

(** Another tree in the hole. *)
Lemma crep_hole h q q' f c pp :
  fnode f ∉ elems (fsib f) -> fnode f ∉ lelems c ++ relems c ->
  crep h q (f :: c) pp ->
  crep (<[fnode f := fhook q' (cpar pp c) f]> h) q' (f :: c) pp.
Proof.
  intros Hs Hc (Hx & Hsib & Hcr). split_and!.
  - by rewrite lookup_insert_eq.
  - by apply arep_insert_ne.
  - by apply crep_insert_ne.
Qed.

(** ** The state of a tree object *)

Record tree_rep (m : amem) (tp : Z) (t : tree) : Prop := TreeRep {
  tr_ne : tp <> 0;
  tr_obj : trees m !! tp = Some (AvlTree (ptr t) (Z.of_nat (length (elems t))));
  tr_nodes : arep (nodes m) 0 t;
  tr_nodup : NoDup (elems t);
  tr_valid : forall x, x ∈ elems t -> valid_addr x
}.

Lemma ptr_ne t : (forall x, x ∈ elems t -> x <> 0) -> t <> Leaf -> ptr t <> 0.
Proof. destruct t; [done|]. intros Hv _. apply Hv. cbn. set_solver. Qed.

Lemma ptr_0 t : (forall x, x ∈ elems t -> x <> 0) -> ptr t = 0 -> t = Leaf.
Proof. intros Hv Hp. destruct t; [done|]. exfalso. by apply (ptr_ne _ Hv). Qed.

(** ** Symbolic execution *)

Lemma wp_rd f p n m (Q : Z -> amem -> Prop) :
  p <> 0 -> nodes m !! p = Some n -> Q (f n) m -> wp (rd f p) m Q.
Proof. intros Hp Hl HQ. by eapply wp_bind, wp_deref. Qed.

(** One access to an object that the memory of the goal is known to hold. *)
Ltac a_side := cbn [hget trees_of nodes_of trees nodes]; by simplify_map_eq.
Ltac avl_acc :=
  lazymatch goal with
  | |- wp (rd _ _) _ _ => eapply wp_rd; [congruence|a_side|]
  | |- wp (store _ _ _) _ _ => eapply wp_store; [congruence|]
  | _ => wp_heap; [congruence|a_side|]
  end;
  cbn [hget hset trees_of nodes_of trees nodes
       _left _right _parent _bal set_left set_right set_parent
       _root t_size set_root set_tsize].
Ltac avl_step :=
  lazymatch goal with
  | |- wp (rd _ _) _ _ => avl_acc
  | _ => wp_step avl_acc
  end; cbn beta.
Ltac avl_steps := repeat avl_step.

(** [if (t) t->_parent = p;] *)
Lemma wp_reparent p p0 t m (Q : unit -> amem -> Prop) :
  (forall y, y ∈ elems t -> y <> 0) -> NoDup (elems t) -> arep (nodes m) p0 t ->
  (forall h', arep h' p t -> (forall y, y ∉ elems t -> h' !! y = nodes m !! y) ->
    Q tt (AMem (trees m) h')) ->
  wp (when (nonnull (ptr t)) (update nodes_of (ptr t) (set_parent p))) m Q.
Proof.
  intros Hv Hnd Hr HQ. destruct (decide (t = Leaf)) as [->|Hne].
  - apply wp_when_false; [done|]. destruct m. by apply HQ.
  - destruct (arep_reparent _ _ p _ Hnd Hr Hne) as (v & Hv' & Hr').
    pose proof (ptr_ne _ Hv Hne). apply wp_when_true; [ptr_cond|].
    eapply wp_update; [done..|]. apply HQ; [done|]. cbn. intros y Hy.
    apply lookup_insert_ne. intros <-. apply Hy. destruct t; [done|]. cbn. set_solver.
Qed.

(** [if (x->f) { x->f->_parent = p; }] *)
Lemma wp_adopt f x p n p0 t m (Q : unit -> amem -> Prop) :
  x <> 0 -> nodes m !! x = Some n -> f n = ptr t ->
  (forall y, y ∈ elems t -> y <> 0) -> NoDup (elems t) -> arep (nodes m) p0 t ->
  (forall h', arep h' p t -> (forall y, y ∉ elems t -> h' !! y = nodes m !! y) ->
    Q tt (AMem (trees m) h')) ->
  wp (adopt f x p) m Q.
Proof.
  intros Hx Hn Hf Hv Hnd Hr HQ. apply wp_bind. eapply wp_rd; [done..|]. rewrite Hf.
  by eapply wp_reparent.
Qed.
