(* ===== verification/AvlRot.v ===== *)
(** * The invariant check and the rotations of [avltree.c]

    The check succeeds on every AVL tree; a rotation turns the representation
    of a subtree whose root has balance 2 or -2 into that of the rotated
    subtree, and touches no other node. *)

From S2P Require Import Prelude Avl AvlTree.

(** ** The check *)

Lemma to_int_small z : - 2 ^ 31 <= z < 2 ^ 31 -> to_int z = z.
Proof. intros Hz. unfold to_int. rewrite Z.mod_small; lia. Qed.

(** Differences of at most one survive the unsigned arithmetic of the check. *)
Lemma wrapped_diff d : -1 <= d <= 1 ->
  (Z.abs (to_int (to_size d)) <=? 1) = true /\ to_schar (to_size d) = d.
Proof.
  intros Hd. assert (d = -1 \/ d = 0 \/ d = 1) as [-> | [-> | ->]] by lia;
    split; vm_compute; reflexivity.
Qed.

(** What the checks need from a tree in memory. *)
Definition sound_tree (t : tree) : Prop :=
  NoDup (elems t) /\ (forall x, x ∈ elems t -> valid_addr x).

Lemma sound_sub l x b r : sound_tree (Node l x b r) -> sound_tree l /\ sound_tree r.
Proof.
  intros [Hnd Hv]. cbn in *. sep. by split; split.
Qed.

Lemma sound_nonzero t x : sound_tree t -> x ∈ elems t -> x <> 0.
Proof. intros [_ Hv] Hx. by apply valid_ne, Hv. Qed.

Lemma sound_height t : sound_tree t -> height t < SIZE_MOD.
Proof.
  intros [Hnd Hv]. pose proof (height_length t). pose proof (nodup_valid_length _ Hnd Hv). lia.
Qed.

Lemma arep_root_parent h p t : arep h p t -> t <> Leaf ->
  exists n, h !! ptr t = Some n /\ _parent n = p.
Proof. destruct t; [done|]. intros (Hx & _) _. eauto. Qed.

(** The recursive check of a child. *)
Definition check_child (fuel : nat) (node c : Z) : M amem Z :=
  if nonnull c then
    cp ← rd _parent c;
    c_assert (cp =? node);;
    dfk__avltree_check_invariants_node fuel c
  else mret 0.

Lemma wp_check_child fuel m node t (Q : Z -> amem -> Prop) :
  arep (nodes m) node t -> sound_tree t ->
  (t <> Leaf -> wp (dfk__avltree_check_invariants_node fuel (ptr t)) m
     (fun r m' => r = height t /\ m' = m)) ->
  Q (height t) m -> wp (check_child fuel node (ptr t)) m Q.
Proof.
  intros Hr Hs Hrec HQ. destruct (decide (t = Leaf)) as [->|Hne]; [done|].
  pose proof (ptr_ne t (fun x => sound_nonzero t x Hs) Hne) as Hp.
  destruct (arep_root_parent _ _ _ Hr Hne) as (n & Hn & Hpar).
  apply wp_if_true; [ptr_cond|]. apply wp_bind. eapply wp_rd; [done..|].
  rewrite Hpar, Z.eqb_refl. apply wp_bind, wp_assert; [done|].
  eapply wp_mono; [by apply Hrec|]. by intros r m' [-> ->].
Qed.

Lemma wp_check_node m t fuel p :
  arep (nodes m) p t -> avl t -> sound_tree t -> (length (elems t) < fuel)%nat -> t <> Leaf ->
  wp (dfk__avltree_check_invariants_node fuel (ptr t)) m (fun r m' => r = height t /\ m' = m).
Proof.
  revert fuel p. induction t as [|l IHl x b r IHr]; intros fuel p Hr Havl Hs Hf Hne; [done|].
  destruct fuel as [|fuel]; [lia|]. cbn in Hf. rewrite length_app in Hf. cbn in Hf.
  destruct Havl as (Hal & Har & Hb & Hb1). destruct Hr as (Hx & Hrl & Hrr).
  pose proof (sound_sub _ _ _ _ Hs) as [Hsl Hsr]. pose proof (sound_height _ Hs) as Hh.
  pose proof (height_nonneg l). pose proof (height_nonneg r). cbn in Hh.
  assert (x <> 0) by (eapply sound_nonzero; [exact Hs|cbn; set_solver]).
  cbn [dfk__avltree_check_invariants_node ptr].
  apply wp_bind, wp_assert; [ptr_cond|]. apply wp_bind. eapply wp_rd; [done..|].
  apply wp_bind. eapply (wp_check_child fuel m x l); [done..| |]; cbn [_left].
  { intros Hl. eapply IHl; [done..|lia|done]. }
  apply wp_bind. eapply wp_rd; [done..|].
  apply wp_bind. eapply (wp_check_child fuel m x r); [done..| |]; cbn [_right].
  { intros Hl. eapply IHr; [done..|lia|done]. }
  apply wp_bind, wp_assert; [apply wrapped_diff; lia|].
  apply wp_bind. eapply wp_rd; [done..|]. apply wp_bind, wp_assert; cbn [_bal].
  { rewrite (proj2 (wrapped_diff (height r - height l) ltac:(lia))). by apply Z.eqb_eq. }
  apply wp_ret. split; [|done]. apply to_size_small. cbn. lia.
Qed.

Lemma checks_tree m tp t : tree_rep m tp t -> avl t ->
  checks (dfk__avltree_check_invariants tp) m.
Proof.
  intros [Htp Hobj Hr Hnd Hv] Havl. apply wp_bind, wp_assert; [ptr_cond|].
  apply wp_bind. eapply wp_deref; [done..|]. cbn [_root].
  destruct (decide (t = Leaf)) as [->|Hne]; [by apply wp_when_false|].
  assert (sound_tree t) as Hs by done.
  pose proof (ptr_ne t (fun x => sound_nonzero t x Hs) Hne) as Hp.
  destruct (arep_root_parent _ _ _ Hr Hne) as (n & Hn & Hpar).
  apply wp_when_true; [ptr_cond|]. apply wp_bind. eapply wp_rd; [done..|]. rewrite Hpar.
  apply wp_bind, wp_assert; [done|]. apply wp_bind, wp_gets, wp_bind.
  eapply wp_mono; [eapply wp_check_node; try done|].
  - pose proof (arep_size _ _ _ Hnd Hr). lia.
  - intros r m' [-> ->]. by apply wp_ret.
Qed.

(** ** Rotations *)

(** The postcondition of a rotation in memory [m] at the subtree [old]: it
    returns the root of [new], whose parent field is stale. *)
Definition rotated (m : amem) (old new : tree) (x : Z) (m' : amem) : Prop :=
  x = ptr new /\ trees m' = trees m /\ (exists p, arep (nodes m') p new) /\
  (forall y, y ∉ elems old -> nodes m' !! y = nodes m !! y).

(** The content of an address outside the assignments and adoptions made. *)
Ltac frame_lookup :=
  repeat first
    [ done
    | rewrite lookup_insert_ne by (apart)
    | match goal with
      | Hf : forall y, y ∉ elems _ -> ?h !! y = _ |- ?h !! _ = _ => rewrite Hf by apart
      end ].

(** A subtree is where it was, or its root was adopted. *)
Ltac arep_kept :=
  match goal with
  | H : arep ?h ?p ?t |- arep _ ?p ?t =>
      solve [apply (arep_frame h); [intros ? ?; frame_lookup|exact H]]
  end.

(** A node after an adoption. *)
Ltac after_adopt := frame_lookup; by simplify_map_eq.

(** The node record after all assignments. *)
Ltac node_eq :=
  unfold set_bal; cbn [_left _right _parent _bal set_left set_right set_parent];
  rewrite ?to_schar_small by lia; by simplify_map_eq.

Ltac rotation_done p :=
  split; [done|]; split; [done|]; split; [exists p|];
  [ cbn [nodes ptr arep elems height]; split_and!; first [node_eq | arep_kept]
  | cbn [nodes trees elems]; intros ? ?; sep; frame_lookup ].

Lemma single_rot_left m p a A bb b B c :
  arep (nodes m) p (Node a A 2 (Node b B bb c)) ->
  sound_tree (Node a A 2 (Node b B bb c)) -> bb = 0 \/ bb = 1 ->
  wp (dfk__avltree_single_rot A) m
    (rotated m (Node a A 2 (Node b B bb c)) (Node (Node a A (1 - bb) b) B (bb - 1) c)).
Proof.
  intros Hr Hs Hbb. pose proof Hs as [Hnd Hv]. cbn in Hr, Hnd, Hv.
  destruct Hr as (HA & Ha & HB & Hb & Hc). sep.
  assert (A <> 0 /\ B <> 0) as [? ?] by (split; by apply valid_ne).
  assert (A <> B) by apart.
  destruct m as [ts h]. cbn [nodes trees] in *. unfold dfk__avltree_single_rot.
  avl_step. avl_step. apply wp_if_true; [done|]. avl_steps.
  apply wp_assert; [by destruct Hbb as [-> | ->]|]. avl_steps.
  eapply (wp_adopt _ _ _ _ B b); [done|cbn; by rewrite lookup_insert_ne|done|..].
  { auto using valid_ne. }
  { done. }
  { cbn. apply arep_insert_ne; [apart|done]. }
  intros h1 Hb1 Hf. cbn [nodes trees] in *.
  assert (h1 !! A = Some (AHook (ptr a) (ptr b) p 2)) as HA1.
  { rewrite Hf by apart. by simplify_map_eq. }
  assert (h1 !! B = Some (AHook (ptr b) (ptr c) A bb)) as HB1.
  { rewrite Hf by apart. by simplify_map_eq. }
  avl_steps. rotation_done A.
Qed.

Lemma single_rot_right m p a A bb b B c :
  arep (nodes m) p (Node (Node c B bb b) A (-2) a) ->
  sound_tree (Node (Node c B bb b) A (-2) a) -> bb = 0 \/ bb = -1 ->
  wp (dfk__avltree_single_rot A) m
    (rotated m (Node (Node c B bb b) A (-2) a) (Node c B (bb + 1) (Node b A (-1 - bb) a))).
Proof.
  intros Hr Hs Hbb. pose proof Hs as [Hnd Hv]. cbn in Hr, Hnd, Hv.
  destruct Hr as (HA & (HB & Hc & Hb) & Ha). sep.
  assert (A <> 0 /\ B <> 0) as [? ?] by (split; by apply valid_ne).
  assert (A <> B) by apart.
  destruct m as [ts h]. cbn [nodes trees] in *. unfold dfk__avltree_single_rot.
  avl_step. avl_step. apply wp_if_false; [done|]. avl_steps.
  apply wp_assert; [by destruct Hbb as [-> | ->]|]. avl_steps.
  eapply (wp_adopt _ _ _ _ B b); [done|cbn; by rewrite lookup_insert_ne|done|..].
  { auto using valid_ne. }
  { done. }
  { cbn. apply arep_insert_ne; [apart|done]. }
  intros h1 Hb1 Hf. cbn [nodes trees] in *.
  assert (h1 !! A = Some (AHook (ptr b) (ptr a) p (-2))) as HA1.
  { rewrite Hf by apart. by simplify_map_eq. }
  assert (h1 !! B = Some (AHook (ptr c) (ptr b) A bb)) as HB1.
  { rewrite Hf by apart. by simplify_map_eq. }
  avl_steps. rotation_done A.
Qed.

(** The balances of the two outer nodes after a double rotation. *)
Definition outer_pos (xb : Z) : Z := lnot (xb + 1).
Definition outer_neg (xb : Z) : Z := 0 - lnot (xb - 1).

Lemma outer_small xb : -1 <= outer_pos xb <= 1 /\ -1 <= outer_neg xb <= 1.
Proof. unfold outer_pos, outer_neg, lnot. repeat case_match; lia. Qed.

Lemma double_rot_left m p a A b X xb c B bb d :
  arep (nodes m) p (Node a A 2 (Node (Node b X xb c) B bb d)) ->
  sound_tree (Node a A 2 (Node (Node b X xb c) B bb d)) ->
  wp (dfk__avltree_double_rot A) m
    (rotated m (Node a A 2 (Node (Node b X xb c) B bb d))
       (Node (Node a A (outer_neg xb) b) X 0 (Node c B (outer_pos xb) d))).
Proof.
  intros Hr Hs. pose proof Hs as [Hnd Hv]. cbn in Hr, Hnd, Hv.
  destruct Hr as (HA & Ha & HB & (HX & Hb & Hc) & Hd). sep.
  assert (A <> 0 /\ B <> 0 /\ X <> 0) as (? & ? & ?) by (split_and!; by apply valid_ne).
  assert (A <> B /\ A <> X /\ B <> X) as (? & ? & ?) by (split_and!; apart).
  pose proof (outer_small xb) as [? ?].
  destruct m as [ts h]. cbn [nodes trees] in *. unfold dfk__avltree_double_rot.
  avl_step. avl_step. apply wp_if_true; [done|]. avl_steps.
  eapply (wp_adopt _ _ _ _ X b); [done|cbn; by simplify_map_eq|done|..].
  { auto using valid_ne. }
  { done. }
  { cbn. apply arep_insert_ne; [apart|done]. }
  intros h1 Hb1 Hf1. cbn [nodes trees] in *.
  assert (h1 !! A = Some (AHook (ptr a) (ptr b) p 2)) as HA1 by after_adopt.
  assert (h1 !! B = Some (AHook X (ptr d) A bb)) as HB1 by after_adopt.
  assert (h1 !! X = Some (AHook (ptr b) (ptr c) B xb)) as HX1 by after_adopt.
  avl_steps.
  eapply (wp_adopt _ _ _ _ X c); [done|cbn; by simplify_map_eq|done|..].
  { auto using valid_ne. }
  { done. }
  { cbn. arep_kept. }
  intros h2 Hb2 Hf2. cbn [nodes trees] in *.
  assert (h2 !! A = Some (AHook (ptr a) (ptr b) X 2)) as HA2 by after_adopt.
  assert (h2 !! B = Some (AHook (ptr c) (ptr d) A bb)) as HB2 by after_adopt.
  assert (h2 !! X = Some (AHook A (ptr c) B xb)) as HX2 by after_adopt.
  avl_steps. fold (outer_pos xb). fold (outer_neg xb). rotation_done B.
Qed.

Lemma double_rot_right m p a A b X xb c B bb d :
  arep (nodes m) p (Node (Node d B bb (Node c X xb b)) A (-2) a) ->
  sound_tree (Node (Node d B bb (Node c X xb b)) A (-2) a) ->
  wp (dfk__avltree_double_rot A) m
    (rotated m (Node (Node d B bb (Node c X xb b)) A (-2) a)
       (Node (Node d B (outer_neg xb) c) X 0 (Node b A (outer_pos xb) a))).
Proof.
  intros Hr Hs. pose proof Hs as [Hnd Hv]. cbn in Hr, Hnd, Hv.
  destruct Hr as (HA & (HB & Hd & (HX & Hc & Hb)) & Ha). sep.
  assert (A <> 0 /\ B <> 0 /\ X <> 0) as (? & ? & ?) by (split_and!; by apply valid_ne).
  assert (A <> B /\ A <> X /\ B <> X) as (? & ? & ?) by (split_and!; apart).
  pose proof (outer_small xb) as [? ?].
  destruct m as [ts h]. cbn [nodes trees] in *. unfold dfk__avltree_double_rot.
  avl_step. avl_step. apply wp_if_false; [done|]. avl_steps.
  eapply (wp_adopt _ _ _ _ X b); [done|cbn; by simplify_map_eq|done|..].
  { auto using valid_ne. }
  { done. }
  { cbn. arep_kept. }
  intros h1 Hb1 Hf1. cbn [nodes trees] in *.
  assert (h1 !! A = Some (AHook (ptr b) (ptr a) p (-2))) as HA1 by after_adopt.
  assert (h1 !! B = Some (AHook (ptr d) X A bb)) as HB1 by after_adopt.
  assert (h1 !! X = Some (AHook (ptr c) (ptr b) B xb)) as HX1 by after_adopt.
  avl_steps.
  eapply (wp_adopt _ _ _ _ X c); [done|cbn; by simplify_map_eq|done|..].
  { auto using valid_ne. }
  { done. }
  { cbn. arep_kept. }
  intros h2 Hb2 Hf2. cbn [nodes trees] in *.
  assert (h2 !! A = Some (AHook (ptr b) (ptr a) X (-2))) as HA2 by after_adopt.
  assert (h2 !! B = Some (AHook (ptr d) (ptr c) A bb)) as HB2 by after_adopt.
  assert (h2 !! X = Some (AHook (ptr c) A B xb)) as HX2 by after_adopt.
  avl_steps. fold (outer_pos xb). fold (outer_neg xb). rotation_done B.
Qed.
