(* ===== verification/AvlZip.v ===== *)
(** * Trees in memory with a position in them

    [zip m tp sz t c]: the tree object at [tp] holds the tree [plug t c]; the
    operations of [avltree.c] move the position, replace the subtree at it,
    and rewrite the node above it.  [outside] is what they leave alone. *)

From S2P Require Import Prelude Avl AvlTree AvlRot.

Record zip (m : amem) (tp sz : Z) (t : tree) (c : ctx) : Prop := Zip {
  z_ne : tp <> 0;
  z_obj : trees m !! tp = Some (AvlTree (ctop (ptr t) c) sz);
  z_tree : arep (nodes m) (cpar 0 c) t;
  z_ctx : crep (nodes m) (ptr t) c 0;
  z_sound : sound_tree (plug t c)
}.

(** [m'] differs from [m] in the nodes of [xs] and the tree object [tp] only. *)
Definition outside (tp : Z) (xs : list Z) (m m' : amem) : Prop :=
  (forall y, y ∉ xs -> nodes m' !! y = nodes m !! y) /\
  (forall t, t <> tp -> trees m' !! t = trees m !! t).

Lemma outside_refl tp xs m : outside tp xs m m.
Proof. done. Qed.
Lemma outside_trans tp xs m1 m2 m3 :
  outside tp xs m1 m2 -> outside tp xs m2 m3 -> outside tp xs m1 m3.
Proof.
  intros [H1 H2] [H3 H4]. split; intros y Hy; [by rewrite H3, H1|by rewrite H4, H2].
Qed.
Lemma outside_mono tp xs ys m m' :
  (forall x, x ∈ xs -> x ∈ ys) -> outside tp xs m m' -> outside tp ys m m'.
Proof. intros Hsub [H1 H2]. split; [|done]. intros y Hy. apply H1. auto. Qed.
#[export] Hint Resolve outside_refl outside_trans : avl.

(** ** Decomposition of a sound tree around the position *)

Lemma sound_plug t c : sound_tree (plug t c) <->
  NoDup (lelems c ++ elems t ++ relems c) /\
  (forall x, x ∈ lelems c ++ elems t ++ relems c -> valid_addr x).
Proof. unfold sound_tree. by rewrite elems_plug. Qed.

Lemma sound_part t c : sound_tree (plug t c) ->
  sound_tree t /\ (forall x, x ∈ elems t -> x ∉ lelems c ++ relems c) /\
  NoDup (lelems c ++ relems c).
Proof.
  intros [Hnd Hv]%sound_plug. sep. split; [by split|]. split.
  - intros x Hx. apart.
  - apply NoDup_app. split_and!; [done| |done]. intros x Hx. apart.
Qed.

Lemma sound_elems t t' c :
  (forall x, x ∈ elems t' -> x ∈ elems t) -> NoDup (elems t') ->
  sound_tree (plug t c) -> sound_tree (plug t' c).
Proof.
  intros Hsub Hnd' [Hnd Hv]%sound_plug. apply sound_plug. sep. split.
  - apply NoDup_app. split_and!; [done| |].
    + intros x Hx. rewrite not_elem_of_app. split; [|apart].
      intros Hin%Hsub. match goal with H : forall x, x ∈ lelems c -> x ∉ elems t |- _ => by apply (H x) end.
    + apply NoDup_app. split_and!; [done| |done]. intros x Hx%Hsub. apart.
  - apply all_app. split; [done|]. apply all_app. split; [auto|done].
Qed.

Lemma elem_plug_l t c x : x ∈ elems t -> x ∈ elems (plug t c).
Proof. rewrite elems_plug. set_solver. Qed.
Lemma elem_plug_c t c x : x ∈ lelems c ++ relems c -> x ∈ elems (plug t c).
Proof. rewrite elems_plug. set_solver. Qed.

(** The node above the position. *)
Lemma frame_facts t f c : sound_tree (plug t (f :: c)) ->
  fnode f <> 0 /\ (fnode f ∉ elems t) /\ (fnode f ∉ elems (fsib f)) /\
  (fnode f ∉ lelems c ++ relems c) /\
  (forall x, x ∈ elems (fsib f) -> x ∉ lelems c ++ relems c) /\
  (forall x, x ∈ elems (fsib f) -> x ∉ elems t) /\
  sound_tree (fsib f).
Proof.
  intros [Hnd Hv]%sound_plug. destruct f; cbn in *; sep;
    (split_and!; [by apply valid_ne|try apart..|by split]); intros ? ?; apart.
Qed.

(** ** Moving *)

Lemma zip_top m tp sz t c : zip m tp sz t c <-> zip m tp sz (plug t c) [].
Proof.
  split; intros [H1 H2 H3 H4 H5]; split; cbn in *; try done.
  - by rewrite ptr_plug.
  - apply arep_plug. done.
  - by rewrite <- ptr_plug.
  - by apply (arep_plug _ _ _ 0) in H3 as [? ?].
  - by apply (arep_plug _ _ _ 0) in H3 as [? ?].
Qed.

Lemma zip_move m tp sz t c t' c' :
  plug t c = plug t' c' -> zip m tp sz t c <-> zip m tp sz t' c'.
Proof. intros Heq. by rewrite zip_top, Heq, <- zip_top. Qed.

Lemma zip_up m tp sz t f c : zip m tp sz t (f :: c) <-> zip m tp sz (fill f t) c.
Proof. by apply zip_move. Qed.

Lemma zip_rep m tp t c :
  zip m tp (Z.of_nat (length (elems (plug t c)))) t c <-> tree_rep m tp (plug t c).
Proof.
  rewrite zip_top. split.
  - intros [H1 H2 H3 H4 [H5 H6]]. by split.
  - intros [H1 H2 H3 H4 H5]. by split.
Qed.

(** ** Facts for symbolic execution *)

Section at_position.
Context (m : amem) (tp sz : Z) (t : tree) (f : frame) (c : ctx).
Context (Hz : zip m tp sz t (f :: c)).

Lemma parent_node : fnode f <> 0 /\
  nodes m !! fnode f = Some (fhook (ptr t) (cpar 0 c) f).
Proof using Hz.
  destruct Hz as [_ _ _ (Hx & _ & _) Hs]. by destruct (frame_facts _ _ _ Hs).
Qed.

(** The sibling's root is not the root of the subtree, when there is one. *)
Lemma sibling_ptr : t <> Leaf -> ptr (fsib f) <> ptr t.
Proof using Hz.
  destruct Hz as [_ _ _ _ Hs]. destruct (frame_facts _ _ _ Hs) as (_ & _ & _ & _ & _ & Hd & Hss).
  intros Ht. assert (ptr t ∈ elems t) as Hin by (destruct t; [done|cbn; set_solver]).
  apply sound_part in Hs as (Hst & _).
  destruct (fsib f) as [|l x b r] eqn:E; cbn.
  - apply not_eq_sym. by apply (sound_nonzero t).
  - intros Heq. apply (Hd x); [cbn; set_solver|]. by rewrite Heq.
Qed.
End at_position.

Lemma root_node m tp sz l x b r c : zip m tp sz (Node l x b r) c ->
  x <> 0 /\ nodes m !! x = Some (AHook (ptr l) (ptr r) (cpar 0 c) b).
Proof.
  intros [_ _ (Hx & _ & _) _ Hs]. split; [|done].
  apply sound_part in Hs as (Hs & _). eapply sound_nonzero; [exact Hs|cbn; set_solver].
Qed.

(** [prime->_parent ? (prime->_parent->_left == prime ? -1 : 1) : 0] *)
Lemma wp_direction m tp sz l x b r c (Q : Z -> amem -> Prop) :
  zip m tp sz (Node l x b r) c -> Q (cdir c) m -> wp (direction x) m Q.
Proof.
  intros Hz HQ. destruct (root_node _ _ _ _ _ _ _ _ Hz) as [Hx0 Hx].
  apply wp_bind. eapply wp_rd; [done..|]. cbn [_parent].
  destruct c as [|f c]; [by apply wp_if_false|].
  destruct (parent_node _ _ _ _ _ _ Hz) as [Hf0 Hf].
  cbn [cpar]. apply wp_if_true; [ptr_cond|]. apply wp_bind. eapply wp_rd; [done..|].
  pose proof (sibling_ptr _ _ _ _ _ _ Hz ltac:(done)) as Hne.
  apply wp_ret. destruct f as [y fb rr|ll y fb]; cbn in *.
  - by rewrite Z.eqb_refl.
  - by rewrite (proj2 (Z.eqb_neq _ _)).
Qed.

(** ** Another subtree at the position *)

(** [crep] in a memory that differs in the subtree only. *)
Lemma crep_outside h h' q c t pp :
  (forall y, y ∉ elems t -> h' !! y = h !! y) ->
  (forall x, x ∈ elems t -> x ∉ lelems c ++ relems c) ->
  crep h q c pp -> crep h' q c pp.
Proof.
  intros Hf Hd. apply crep_frame. intros y Hy. apply Hf. intros Hin. by apply (Hd y).
Qed.

(** Replacing the pointer in the frame above the position. *)
Lemma crep_set_child h q q' f c pp :
  fnode f <> 0 -> fnode f ∉ elems (fsib f) -> fnode f ∉ lelems c ++ relems c ->
  crep h q (f :: c) pp ->
  exists v, h !! fnode f = Some v /\
    crep (<[fnode f := (if fdir f =? 1 then set_right q' else set_left q') v]> h) q' (f :: c) pp.
Proof.
  intros H0 Hs Hc Hcr. pose proof Hcr as (Hv & _). eexists. split; [exact Hv|].
  pose proof (crep_hole h q q' f c pp Hs Hc Hcr) as Hn.
  by destruct f.
Qed.

Lemma promote_spec m m1 tp sz old new x c :
  zip m tp sz old c -> rotated m old new x m1 -> elems new = elems old -> new <> Leaf ->
  wp (dfk__avltree_promote_prime (cdir c) x (cpar 0 c) tp) m1 (fun _ m' =>
    zip m' tp sz new c /\ outside tp (elems (plug old c)) m m').
Proof.
  intros [Htp Hobj Ht Hc Hs] (-> & Htr & [p Hnew] & Hfr) Hel Hne.
  destruct (sound_part _ _ Hs) as (Hst & Hd & _).
  assert (sound_tree (plug new c)) as Hs'.
  { apply (sound_elems old); [by rewrite Hel|rewrite Hel; by apply Hst|done]. }
  assert (sound_tree new) as Hsn by (unfold sound_tree; by rewrite Hel).
  pose proof (crep_outside _ _ _ _ _ _ Hfr Hd Hc) as Hc1.
  destruct (arep_reparent _ _ (cpar 0 c) _ (proj1 Hsn) Hnew Hne) as (v & Hv & Hnew').
  pose proof (ptr_ne new (fun x => sound_nonzero new x Hsn) Hne) as Hp0.
  assert (ptr new ∈ elems new) as Hin by (destruct new; [done|cbn; set_solver]).
  destruct m1 as [ts h]. cbn [trees nodes] in *. subst ts.
  destruct c as [|f c].
  - cbn [ctop cpar cdir plug] in *. apply wp_if_true; [done|].
    do 4 avl_step. avl_acc. split.
    + split; cbn; [done|by simplify_map_eq|done|done|done].
    + split; cbn; intros y Hy; [|by rewrite lookup_insert_ne].
      rewrite lookup_insert_ne by (intros <-; by rewrite <- Hel in Hy). by apply Hfr.
  - destruct (frame_facts _ _ _ Hs) as (Hf0 & Hft & Hfs & Hfc & Hsc & Hsd & _).
    assert (fnode f <> ptr new) as Hfn by (rewrite Hel in Hin; intros Heq; by rewrite <- Heq in Hin).
    destruct (crep_set_child _ _ (ptr new) _ _ _ Hf0 Hfs Hfc Hc1) as (w & Hw & Hcr).
    assert (zip (AMem (trees m)
      (<[ptr new := set_parent (fnode f) v]>
        (<[fnode f := (if fdir f =? 1 then set_right (ptr new) else set_left (ptr new)) w]> h)))
      tp sz new (f :: c)) as Hz'.
    { split; cbn [trees nodes]; [done|done| | |done].
      - rewrite insert_insert_ne by done. apply arep_insert_ne; [|done]. by rewrite Hel.
      - apply crep_insert_ne; [|done]. apply Hd. by rewrite <- Hel. }
    assert (outside tp (elems (plug old (f :: c))) m (AMem (trees m)
      (<[ptr new := set_parent (fnode f) v]>
        (<[fnode f := (if fdir f =? 1 then set_right (ptr new) else set_left (ptr new)) w]> h)))) as Ho.
    { split; cbn [trees nodes]; [|done]. intros y Hy.
      rewrite !lookup_insert_ne; [apply Hfr|..].
      - intros Hyo. apply Hy. by apply elem_plug_l.
      - intros <-. apply Hy, elem_plug_c. destruct f; cbn; set_solver.
      - intros <-. apply Hy, elem_plug_l. by rewrite <- Hel. }
    cbn [cpar cdir]. apply wp_if_false; [by destruct f|].
    destruct f as [y fb rr|ll y fb]; cbn [fdir fnode] in *; cbn -[outside plug lelems relems elems] in Hz', Ho.
    + apply wp_bind. apply wp_if_false; [done|]. avl_steps. done.
    + apply wp_bind. apply wp_if_true; [done|]. avl_acc. avl_acc. done.
Qed.

(** ** Positions of a tree *)

Lemma tree_split x t : x ∈ elems t -> exists l b r c, t = plug (Node l x b r) c.
Proof.
  induction t as [|l IHl y b r IHr]; cbn; [set_solver|].
  intros [Hx|[->|Hx]%elem_of_cons]%elem_of_app.
  - destruct (IHl Hx) as (l' & b' & r' & c & ->). exists l', b', r', (c ++ [FL y b r]).
    by rewrite plug_app.
  - by exists l, b, r, [].
  - destruct (IHr Hx) as (l' & b' & r' & c & ->). exists l', b', r', (c ++ [FR l y b]).
    by rewrite plug_app.
Qed.

Lemma ctx_length t c : (length c <= length (elems (plug t c)))%nat.
Proof.
  rewrite elems_plug, !length_app.
  assert (length c <= length (lelems c) + length (relems c))%nat; [|lia].
  induction c as [|[x b r|l x b] c IH]; cbn; rewrite ?length_app; cbn; lia.
Qed.
