(* ===== verification/AvlBalance.v ===== *)
(** * Restoring the balance

    A subtree one of whose children is two levels higher becomes an AVL tree
    by the rotation the code chooses; its height shrinks by one, except when
    the higher child was balanced. *)

From S2P Require Import Prelude Avl AvlTree AvlRot AvlZip.

Definition root_bal (t : tree) : Z := match t with Leaf => 0 | Node _ _ b _ => b end.

(** [(cbal == inner ? double_rot : single_rot)(prime)] *)
Definition rotate (inner cbal prime : Z) : M amem Z :=
  if cbal =? inner then dfk__avltree_double_rot prime else dfk__avltree_single_rot prime.

(** The outcome of a rotation of [old]. *)
Definition rebalanced (m : amem) (old : tree) (cbal x : Z) (m' : amem) : Prop :=
  exists new, rotated m old new x m' /\ avl new /\ elems new = elems old /\ new <> Leaf /\
    height new = if cbal =? 0 then height old else height old - 1.

Lemma bal3 b : -1 <= b <= 1 -> b = -1 \/ b = 0 \/ b = 1.
Proof. lia. Qed.

Lemma outer_pos_eq xb : outer_pos xb = if xb =? -1 then 1 else 0.
Proof. unfold outer_pos, lnot. repeat case_match; lia. Qed.
Lemma outer_neg_eq xb : outer_neg xb = if xb =? 1 then -1 else 0.
Proof. unfold outer_neg, lnot. repeat case_match; lia. Qed.

(** Arithmetic of heights after case analysis on the balances. *)
Ltac heights :=
  repeat match goal with
  | t : tree |- _ => lazymatch goal with
      | H : 0 <= height t |- _ => fail
      | _ => pose proof (height_nonneg t)
      end
  end; cbn [height avl elems] in *; repeat case_match; lia.

Lemma rotate_right m tp sz c a A R :
  zip m tp sz (Node a A 2 R) c -> avl a -> avl R -> height R = height a + 2 ->
  wp (rotate (-1) (root_bal R) A) m (rebalanced m (Node a A 2 R) (root_bal R)).
Proof.
  intros Hz Ha HR Hh. pose proof (sound_part _ _ (z_sound _ _ _ _ _ Hz)) as (Hs & _ & _).
  pose proof (z_tree _ _ _ _ _ Hz) as Hr.
  destruct R as [|b B bb d]; [cbn in Hh; pose proof (height_nonneg a); lia|].
  unfold rotate, rebalanced. cbn [root_bal]. destruct HR as (Hb & Hd & Hbb & Hb1).
  case (Z.eqb_spec bb (-1)) as [-> |Hne].
  - destruct b as [|b X xb c']; [cbn in *; pose proof (height_nonneg d); lia|].
    eapply wp_mono; [by eapply double_rot_left|]. intros x m' Hrot.
    eexists. split; [exact Hrot|]. destruct Hb as (Hb & Hc & Hxb & Hxb1).
    rewrite outer_pos_eq, outer_neg_eq.
    split_and!; [|cbn; by rewrite <- !app_assoc|done|].
    + apply bal3 in Hxb1 as [-> | [-> | ->]]; cbn [avl]; split_and!; first [done|heights].
    + heights.
  - eapply wp_mono; [eapply single_rot_left; [done..|lia]|]. intros x m' Hrot.
    eexists. split; [exact Hrot|]. split_and!; [|cbn; by rewrite <- !app_assoc|done|].
    + cbn [avl]. split_and!; first [done|heights].
    + case (Z.eqb_spec bb 0); intros; heights.
Qed.

Lemma rotate_left m tp sz c a A L :
  zip m tp sz (Node L A (-2) a) c -> avl a -> avl L -> height L = height a + 2 ->
  wp (rotate 1 (root_bal L) A) m (rebalanced m (Node L A (-2) a) (root_bal L)).
Proof.
  intros Hz Ha HL Hh. pose proof (sound_part _ _ (z_sound _ _ _ _ _ Hz)) as (Hs & _ & _).
  pose proof (z_tree _ _ _ _ _ Hz) as Hr.
  destruct L as [|d B bb b]; [cbn in Hh; pose proof (height_nonneg a); lia|].
  unfold rotate, rebalanced. cbn [root_bal]. destruct HL as (Hd & Hb & Hbb & Hb1).
  case (Z.eqb_spec bb 1) as [-> |Hne].
  - destruct b as [|c' X xb b]; [cbn in *; pose proof (height_nonneg d); lia|].
    eapply wp_mono; [by eapply double_rot_right|]. intros x m' Hrot.
    eexists. split; [exact Hrot|]. destruct Hb as (Hc & Hb & Hxb & Hxb1).
    rewrite outer_pos_eq, outer_neg_eq.
    split_and!; [|cbn; rewrite <- !app_assoc; cbn; by rewrite <- !app_assoc|done|].
    + apply bal3 in Hxb1 as [-> | [-> | ->]]; cbn [avl]; split_and!; first [done|heights].
    + heights.
  - eapply wp_mono; [eapply single_rot_right; [done..|lia]|]. intros x m' Hrot.
    eexists. split; [exact Hrot|]. split_and!; [|cbn; by rewrite <- !app_assoc|done|].
    + cbn [avl]. split_and!; first [done|heights].
    + case (Z.eqb_spec bb 0); intros; heights.
Qed.

(** A new balance at the root of the subtree. *)
Lemma zip_set_bal m tp sz l x b b' r c :
  zip m tp sz (Node l x b r) c -> -128 <= b' < 128 ->
  exists v, nodes m !! x = Some v /\ _bal v = b /\
    let m' := AMem (trees m) (<[x := set_bal b' v]> (nodes m)) in
    zip m' tp sz (Node l x b' r) c /\ outside tp (elems (plug (Node l x b r) c)) m m'.
Proof.
  intros Hz Hb. pose proof Hz as [Htp Hobj (Hx & Hl & Hr) Hc Hs].
  eexists. split; [done|]. split; [done|]. cbn zeta.
  pose proof (sound_part _ _ Hs) as ([Hnd _] & Hd & _). cbn in Hnd, Hd.
  assert (x ∉ lelems c ++ relems c) as Hxc by (apply Hd; set_solver).
  assert ((x ∉ elems l) /\ (x ∉ elems r)) as [Hxl Hxr].
  { sep. split; apart. }
  split; [split; cbn [trees nodes]|split; cbn [trees nodes]]; try done.
  - split_and!; [|by apply arep_insert_ne..]. rewrite lookup_insert_eq.
    unfold set_bal. by rewrite to_schar_small.
  - by apply crep_insert_ne.
  - by apply (sound_elems (Node l x b r)).
  - intros y Hy. apply lookup_insert_ne. intros <-. apply Hy, elem_plug_l. cbn. set_solver.
Qed.

Lemma wp_set_bal m tp sz l x b r c (g : Z -> Z) (Q : unit -> amem -> Prop) :
  zip m tp sz (Node l x b r) c -> -128 <= g b < 128 ->
  (forall m', zip m' tp sz (Node l x (g b) r) c ->
     outside tp (elems (plug (Node l x b r) c)) m m' -> Q tt m') ->
  wp (update nodes_of x (fun n => set_bal (g (_bal n)) n)) m Q.
Proof.
  intros Hz Hb HQ. destruct (root_node _ _ _ _ _ _ _ _ Hz) as [Hx0 _].
  destruct (zip_set_bal _ _ _ _ _ _ (g b) _ _ Hz Hb) as (v & Hv & <- & Hz' & Ho).
  eapply wp_update; [done..|]. by apply HQ.
Qed.
