(* ===== verification/AvlErase.v ===== *)
(** * Removal from the AVL trees *)

From S2P Require Import Prelude Avl AvlTree AvlRot AvlZip AvlBalance.

(** ** Rebalancing upwards *)

(** A rotation below the context [c], with the link from above. *)
Definition rotated_at (tp sz : Z) (m : amem) (old : tree) (c : ctx) (cbal : Z)
    (r : Z * bool) (m' : amem) : Prop :=
  exists new, r = (ptr new, cbal =? 0) /\ zip m' tp sz new c /\
    outside tp (elems (plug old c)) m m' /\ avl new /\ elems new = elems old /\ new <> Leaf /\
    height new = if cbal =? 0 then height old else height old - 1.

Lemma erase_rotate_spec m tp sz l x b r c child inner ch :
  zip m tp sz (Node l x b r) c -> ch <> Leaf ->
  child (AHook (ptr l) (ptr r) (cpar 0 c) b) = ptr ch ->
  (exists n, nodes m !! ptr ch = Some n /\ _bal n = root_bal ch) -> ptr ch <> 0 ->
  wp (rotate inner (root_bal ch) x) m (rebalanced m (Node l x b r) (root_bal ch)) ->
  wp (erase_rotate tp x child inner) m (rotated_at tp sz m (Node l x b r) c (root_bal ch)).
Proof.
  intros Hz Hch Hchild (n & Hn & Hnb) Hp0 Hrot.
  destruct (root_node _ _ _ _ _ _ _ _ Hz) as [Hx0 Hx].
  apply wp_bind. eapply wp_rd; [done..|]. cbn [_parent].
  apply wp_bind. eapply wp_direction; [done|].
  apply wp_bind. eapply wp_rd; [done..|]. rewrite Hchild.
  apply wp_bind. eapply wp_rd; [done..|]. rewrite Hnb.
  apply wp_bind. eapply wp_mono; [exact Hrot|].
  intros y m1 (new & Hr & Havl & Hel & Hne & Hh).
  apply wp_bind. pose proof Hr as (-> & _).
  eapply wp_mono; [by eapply (promote_spec m m1 tp sz (Node l x b r) new)|].
  intros _ m2 [Hz2 Ho]. apply wp_ret. by exists new.
Qed.

Lemma child_node h p t : arep h p t -> t <> Leaf ->
  exists n, h !! ptr t = Some n /\ _bal n = root_bal t.
Proof. destruct t; [done|]. intros (Hx & _) _. eauto. Qed.

Lemma wp_up {B} m tp sz t c (k : Z -> Z -> M amem B) (Q : B -> amem -> Prop) :
  zip m tp sz t c -> t <> Leaf -> wp (k (cpar 0 c) (cdir c)) m Q ->
  wp (d ← direction (ptr t); pp ← rd _parent (ptr t); k pp d) m Q.
Proof.
  intros Hz Ht Hk. destruct t as [|l x b r]; [done|].
  destruct (root_node _ _ _ _ _ _ _ _ Hz) as [Hx0 Hx].
  apply wp_bind. eapply wp_direction; [done|]. apply wp_bind. by eapply wp_rd.
Qed.

Lemma height_pos t : 0 < height t -> t <> Leaf.
Proof. intros H ->. cbn in H. lia. Qed.

(** One level up: the child on the side [fdir f] lost a level. *)
Lemma rebalance_step m tp sz t f c (Q : (Z * Z) + unit -> amem -> Prop) :
  zip m tp sz t (f :: c) -> avl t -> avl_ctx (1 + height t) (f :: c) ->
  (forall m' t', zip m' tp sz t' c -> avl t' ->
     outside tp (elems (plug t (f :: c))) m m' -> elems t' = elems (fill f t) -> t' <> Leaf ->
     (height t' = 1 + Z.max (1 + height t) (height (fsib f)) -> Q (inr tt) m') /\
     (1 + height t' = 1 + Z.max (1 + height t) (height (fsib f)) -> Q (inl (cpar 0 c, cdir c)) m')) ->
  wp (rebalance_body tp (fnode f, fdir f)) m Q.
Proof.
  intros Hz Ht (Hsib & Hb & Hb1 & Hc) HQ.
  destruct (parent_node _ _ _ _ _ _ Hz) as [Hf0 _]. unfold rebalance_body.
  apply wp_if_false; [ptr_cond|]. cbn zeta.
  pose proof (proj1 (zip_up _ _ _ _ _ _) Hz) as Hz0.
  pose proof (height_nonneg t) as Hht.
  destruct f as [x b r|l x b]; cbn [fnode fdir fsib fbal fill] in *.
  - apply wp_if_true; [done|]. apply wp_bind.
    eapply (wp_set_bal _ _ _ _ _ _ _ _ (fun b => b + 1)); [done|lia|]. intros m1 Hz1 Ho1.
    destruct (root_node _ _ _ _ _ _ _ _ Hz1) as [Hx0 Hx].
    apply wp_bind. eapply wp_rd; [done..|]. cbn [_bal].
    case (Z.eqb_spec (b + 1) 1) as [He1|Hn1].
    { apply wp_ret. apply (HQ m1 (Node t x (b + 1) r)); [done| |done..|].
      - cbn. split_and!; first [done|lia].
      - cbn. lia. }
    case (Z.eqb_spec (b + 1) 2) as [He2|Hn2].
    + rewrite He2 in Hz1, Hx.
      assert (r <> Leaf) as Hr by (apply height_pos; lia).
      pose proof Hz1 as [_ _ (_ & _ & Harr) _ Hs1].
      apply sound_part in Hs1 as (Hs1 & _). apply sound_sub in Hs1 as [_ Hsr].
      apply wp_bind. eapply wp_mono; [eapply (erase_rotate_spec _ _ _ _ _ _ _ _ _ _ r)|].
      * done.
      * done.
      * done.
      * by eapply child_node.
      * apply ptr_ne; [|done]. intros ?. by apply sound_nonzero.
      * eapply rotate_right; [done..|lia].
      * intros [y stop] m2 (new & [= -> ->] & Hz2 & Ho2 & Havl & Hel & Hne & Hhn).
        assert (outside tp (elems (plug t (FL x b r :: c))) m m2) as Ho.
        { eapply outside_trans; [exact Ho1|]. eapply outside_mono; [|exact Ho2].
          intros z. cbn [plug fill]. by rewrite !elems_plug. }
        destruct (HQ m2 new Hz2 Havl Ho Hel Hne) as [HQ1 HQ2]. cbn [height] in Hhn.
        revert Hhn. case (Z.eqb_spec (root_bal r) 0); intros Hr0 Hhn.
        -- apply wp_ret, HQ1. lia.
        -- eapply (wp_up _ _ _ new _ (fun pp d => mret (inl (pp, d)))); [done..|]. apply wp_ret, HQ2. lia.
    + assert (b + 1 = 0) as He0 by lia.
      destruct (HQ m1 (Node t x (b + 1) r)) as [_ HQ2]; [done| |done..|].
      { cbn. split_and!; first [done|lia]. }
      eapply (wp_up _ _ _ (Node t x (b + 1) r) _ (fun pp d => mret (inl (pp, d)))); [done..|]. apply wp_ret, HQ2. cbn. lia.
  - apply wp_if_false; [done|]. apply wp_bind, wp_assert; [done|]. apply wp_bind.
    eapply (wp_set_bal _ _ _ _ _ _ _ _ (fun b => b - 1)); [done|lia|]. intros m1 Hz1 Ho1.
    destruct (root_node _ _ _ _ _ _ _ _ Hz1) as [Hx0 Hx].
    apply wp_bind. eapply wp_rd; [done..|]. cbn [_bal].
    case (Z.eqb_spec (b - 1) (-1)) as [He1|Hn1].
    { apply wp_ret. apply (HQ m1 (Node l x (b - 1) t)); [done| |done..|].
      - cbn. split_and!; first [done|lia].
      - cbn. lia. }
    case (Z.eqb_spec (b - 1) (-2)) as [He2|Hn2].
    + rewrite He2 in Hz1, Hx.
      assert (l <> Leaf) as Hr by (apply height_pos; lia).
      pose proof Hz1 as [_ _ (_ & Harr & _) _ Hs1].
      apply sound_part in Hs1 as (Hs1 & _). apply sound_sub in Hs1 as [Hsr _].
      apply wp_bind. eapply wp_mono; [eapply (erase_rotate_spec _ _ _ _ _ _ _ _ _ _ l)|].
      * done.
      * done.
      * done.
      * by eapply child_node.
      * apply ptr_ne; [|done]. intros ?. by apply sound_nonzero.
      * eapply rotate_left; [done..|lia].
      * intros [y stop] m2 (new & [= -> ->] & Hz2 & Ho2 & Havl & Hel & Hne & Hhn).
        assert (outside tp (elems (plug t (FR l x b :: c))) m m2) as Ho.
        { eapply outside_trans; [exact Ho1|]. eapply outside_mono; [|exact Ho2].
          intros z. cbn [plug fill]. by rewrite !elems_plug. }
        destruct (HQ m2 new Hz2 Havl Ho Hel Hne) as [HQ1 HQ2]. cbn [height] in Hhn.
        revert Hhn. case (Z.eqb_spec (root_bal l) 0); intros Hr0 Hhn.
        -- apply wp_ret, HQ1. lia.
        -- eapply (wp_up _ _ _ new _ (fun pp d => mret (inl (pp, d)))); [done..|]. apply wp_ret, HQ2. lia.
    + assert (b - 1 = 0) as He0 by lia.
      destruct (HQ m1 (Node l x (b - 1) t)) as [_ HQ2]; [done| |done..|].
      { cbn. split_and!; first [done|lia]. }
      eapply (wp_up _ _ _ (Node l x (b - 1) t) _ (fun pp d => mret (inl (pp, d)))); [done..|]. apply wp_ret, HQ2. cbn. lia.
Qed.

Lemma rebalance_loop c : forall fuel m tp sz t (Q : unit -> amem -> Prop),
  zip m tp sz t c -> avl t -> avl_ctx (1 + height t) c -> (length c < fuel)%nat ->
  (forall m' T, zip m' tp sz T [] -> avl T -> elems T = elems (plug t c) ->
     outside tp (elems (plug t c)) m m' -> Q tt m') ->
  wp (loop fuel (rebalance_body tp) (cpar 0 c, cdir c)) m Q.
Proof.
  induction c as [|f c IH]; intros [|fuel] m tp sz t Q Hz Ht Hc Hf HQ; cbn in Hf; try lia.
  - apply wp_bind. apply wp_ret. by eapply (HQ m t).
  - cbn [cpar cdir]. apply wp_bind. eapply rebalance_step; [done..|].
    intros m1 t1 Hz1 Ht1 Ho1 Hel Hne.
    destruct Hc as (Hsib & Hb & Hb1 & Hc). cbn [plug] in *.
    assert (elems (plug t1 c) = elems (plug (fill f t) c)) as Hel1 by by rewrite !elems_plug, Hel.
    split; intros Hh.
    + rewrite <- Hh in Hc. apply wp_ret. apply (HQ m1 (plug t1 c)); [by apply zip_top in Hz1| |done..].
      by apply avl_plug.
    + rewrite <- Hh in Hc. eapply (IH fuel m1 tp sz t1); [done..|lia|].
      intros m2 T Hz2 HT HelT Ho2. eapply HQ; [done..|by rewrite HelT|].
      rewrite Hel1 in Ho2. by eapply outside_trans.
Qed.

(** ** Unlinking a node *)

(** The tree object and the context still lead to [e], whose record is intact;
    [T] is what is to take its place. *)
Record detached (m : amem) (tp sz e : Z) (T : tree) (c : ctx) : Prop := Detached {
  dt_tp : tp <> 0;
  dt_obj : trees m !! tp = Some (AvlTree (ctop e c) sz);
  dt_node : exists n, nodes m !! e = Some n /\ _parent n = cpar 0 c;
  dt_ctx : crep (nodes m) e c 0;
  dt_tree : exists p, arep (nodes m) p T;
  dt_sound : sound_tree (plug T c);
  dt_e : e <> 0 /\ e ∉ elems (plug T c)
}.

(** [if (newe) newe->_parent = e->_parent;] *)
Lemma wp_adopt_root m e n p0 T (Q : unit -> amem -> Prop) :
  e <> 0 -> nodes m !! e = Some n -> e ∉ elems T -> sound_tree T -> arep (nodes m) p0 T ->
  (forall h', arep h' (_parent n) T -> (forall y, y ∉ elems T -> h' !! y = nodes m !! y) ->
    Q tt (AMem (trees m) h')) ->
  wp (when (nonnull (ptr T)) (ep ← rd _parent e; update nodes_of (ptr T) (set_parent ep))) m Q.
Proof.
  intros He Hn HeT Hs Hr HQ. destruct (decide (T = Leaf)) as [->|Hne].
  - apply wp_when_false; [done|]. destruct m. by apply HQ.
  - destruct (arep_reparent _ _ (_parent n) _ (proj1 Hs) Hr Hne) as (v & Hv & Hr').
    pose proof (ptr_ne T (fun x => sound_nonzero T x Hs) Hne) as Hp.
    apply wp_when_true; [ptr_cond|]. apply wp_bind. eapply wp_rd; [done..|].
    eapply wp_update; [done..|]. apply HQ; [done|]. intros y Hy.
    apply lookup_insert_ne. intros <-. apply Hy. destruct T; [done|]. cbn. set_solver.
Qed.

Lemma replace_spec m tp sz e T c :
  detached m tp sz e T c ->
  wp (replace_child tp e (ptr T)) m (fun _ m' =>
    zip m' tp sz T c /\ outside tp (elems (plug T c)) m m').
Proof.
  intros [Htp Hobj (n & Hn & Hpar) Hc [p HT] Hs [He0 He]].
  destruct (sound_part _ _ Hs) as (HsT & Hd & _).
  assert (e ∉ elems T) as HeT by (intros ?; by apply He, elem_plug_l).
  apply wp_bind. eapply wp_rd; [done..|]. rewrite Hpar.
  destruct m as [ts h]. cbn [trees nodes] in *. destruct c as [|f c].
  - cbn [cpar ctop plug] in *. apply wp_bind, wp_if_false; [done|]. avl_acc.
    eapply wp_adopt_root; [done|cbn; done|done..|]. rewrite Hpar. intros h' Hr Hf. cbn [nodes trees] in *.
    split; [split; cbn [trees nodes]; try done; by simplify_map_eq|].
    split; cbn [nodes trees]; intros y Hy; [by apply Hf|by rewrite lookup_insert_ne].
  - destruct (frame_facts _ _ _ Hs) as (Hf0 & Hft & Hfs & Hfc & _).
    destruct (crep_set_child _ _ (ptr T) _ _ _ Hf0 Hfs Hfc Hc) as (w & Hw & Hcr).
    pose proof Hc as (Hw' & Harr & _). cbn [cpar].
    assert (fnode f <> e) as Hfe.
    { intros <-. apply He. rewrite elems_plug. destruct f; cbn; set_solver. }
    assert (ptr (fsib f) <> e) as Hse.
    { intros Heq. destruct (fsib f) as [|l x b r] eqn:E; [by cbn in Heq|]. cbn in Heq. subst x.
      apply He. rewrite elems_plug. destruct f; cbn in *; subst; cbn; set_solver. }
    apply wp_bind, wp_if_true; [ptr_cond|]. apply wp_bind. eapply wp_rd; [done..|].
    set (v' := (if fdir f =? 1 then set_right (ptr T) else set_left (ptr T)) w).
    assert (wp (if _left (fhook e (cpar 0 c) f) =? e then update nodes_of (fnode f) (set_left (ptr T))
                else update nodes_of (fnode f) (set_right (ptr T))) (AMem ts h)
      (fun _ m' => m' = AMem ts (<[fnode f := v']> h))) as Hup.
    { destruct f as [y fb rr|ll y fb]; cbn [fhook _left fsib fnode fdir] in *.
      - rewrite Z.eqb_refl. by apply (wp_update _ _ _ w).
      - rewrite (proj2 (Z.eqb_neq _ _)) by done. by apply (wp_update _ _ _ w). }
    eapply wp_mono; [exact Hup|]. intros _ ? ->.
    eapply (wp_adopt_root _ e n p T); [done|cbn; by rewrite lookup_insert_ne|done|done| |].
    { cbn. by apply arep_insert_ne. }
    rewrite Hpar. cbn [trees nodes]. intros h' Hr Hf. split.
    + split; cbn [trees nodes]; [done|done|done| |done].
      eapply crep_outside; [exact Hf|done|]. exact Hcr.
    + split; cbn [trees nodes]; [|done]. intros y Hy. rewrite Hf, lookup_insert_ne; [done|..].
      * intros <-. apply Hy. rewrite elems_plug. destruct f; cbn; set_solver.
      * intros ?. by apply Hy, elem_plug_l.
Qed.

(** What [unlink] establishes: the hole at [t'] in [c' ++ c] is where a level
    was lost. *)
Definition unlinked (m : amem) (tp sz : Z) (l : tree) (e : Z) (r : tree) (c : ctx)
    (res : Z * Z * Z) (m' : amem) : Prop :=
  exists t' c', detached m' tp sz e (plug t' c') c /\
    res = (ptr (plug t' c'), cpar 0 (c' ++ c), cdir (c' ++ c)) /\
    avl t' /\ avl_ctx (1 + height t') (c' ++ c) /\
    elems (plug t' c') = elems l ++ elems r /\
    outside tp (elems l ++ e :: elems r) m m'.

(** The record of [e] and the disjointness facts every case starts from. *)
Lemma erase_facts m tp sz l e b r c : zip m tp sz (Node l e b r) c ->
  e <> 0 /\ nodes m !! e = Some (AHook (ptr l) (ptr r) (cpar 0 c) b) /\
  arep (nodes m) e l /\ arep (nodes m) e r /\ sound_tree l /\ sound_tree r /\
  NoDup (lelems c ++ (elems l ++ e :: elems r) ++ relems c).
Proof.
  intros Hz. destruct (root_node _ _ _ _ _ _ _ _ Hz) as [He0 He].
  destruct Hz as [_ _ (_ & Hl & Hr) _ Hs]. pose proof (sound_part _ _ Hs) as (Hst & _).
  apply sound_sub in Hst as [? ?]. apply sound_plug in Hs as [Hnd _]. by split_and!.
Qed.

(** The replacement has the elements of the two subtrees, so it is as sound as
    the tree was. *)
Lemma replacement_sound l e b r T c :
  sound_tree (plug (Node l e b r) c) -> elems T = elems l ++ elems r ->
  sound_tree (plug T c) /\ e ∉ elems (plug T c).
Proof.
  intros Hs Hel. pose proof (proj1 (sound_plug _ _) Hs) as [Hnd _]. cbn in Hnd. split.
  - apply (sound_elems (Node l e b r)); [rewrite Hel; cbn; set_solver| |done].
    rewrite Hel. sep. apply NoDup_app. split_and!; [done| |done]. intros x Hx. apart.
  - rewrite elems_plug, Hel. sep. apart.
Qed.

Lemma unlink_no_right m tp sz l e b c :
  zip m tp sz (Node l e b Leaf) c -> avl (Node l e b Leaf) ->
  avl_ctx (height (Node l e b Leaf)) c ->
  wp (unlink e) m (unlinked m tp sz l e Leaf c).
Proof.
  intros Hz (Hal & _ & Hb & Hb1) Hac.
  destruct (erase_facts _ _ _ _ _ _ _ _ Hz) as (He0 & He & Hl & _ & Hsl & _ & _).
  pose proof Hz as [Htp Hobj _ Hc Hs]. unfold unlink.
  destruct (replacement_sound _ _ _ _ l _ Hs) as [Hs' He']; [cbn; by rewrite app_nil_r|].
  apply wp_bind. eapply wp_rd; [done..|]. apply wp_if_true; [done|].
  apply wp_bind. eapply wp_rd; [done..|]. apply wp_bind. eapply wp_rd; [done..|].
  apply wp_bind. eapply wp_direction; [done|]. apply wp_ret.
  exists l, []. cbn [app plug _left _parent]. split_and!; try done.
  - split; try done; eauto.
  - replace (1 + height l) with (height (Node l e b Leaf)); [done|]. heights.
  - cbn. by rewrite app_nil_r.
Qed.

Lemma unlink_right_no_left m tp sz l e b x rb q c :
  zip m tp sz (Node l e b (Node Leaf x rb q)) c -> avl (Node l e b (Node Leaf x rb q)) ->
  avl_ctx (height (Node l e b (Node Leaf x rb q))) c ->
  wp (unlink e) m (unlinked m tp sz l e (Node Leaf x rb q) c).
Proof.
  intros Hz Hav Hac.
  destruct (erase_facts _ _ _ _ _ _ _ _ Hz) as (He0 & He & Hl & (Hx & _ & Hq) & Hsl & Hsr & Hnd).
  pose proof Hz as [Htp Hobj _ Hc Hs]. unfold unlink.
  assert (x <> 0) as Hx0 by (apply (sound_nonzero _ _ Hsr); cbn; set_solver).
  destruct (replacement_sound _ _ _ _ (Node l x b q) _ Hs) as [Hs' He']; [done|].
  cbn [elems app] in Hnd. pose proof Hsl as [Hndl _].
  assert (e <> x) as Hex by (clear -Hnd; apart).
  destruct m as [ts h]. cbn [trees nodes ptr] in *.
  avl_step. avl_step. apply wp_if_false; [ptr_cond|]. avl_step. avl_step.
  apply wp_if_true; [done|]. avl_steps.
  assert (x ∉ elems l) as Hxl by (clear -Hnd; apart).
  (* the left subtree moves under [x] *)
  set (h1 := <[x := _]> h).
  eapply (wp_reparent _ e); [intros y Hy; by apply (sound_nonzero l)|done|by apply arep_insert_ne|].
  intros h2 Hl2 Hf2. cbn [trees nodes] in *. fold h1 in Hf2.
  assert (h2 !! e = Some (AHook (ptr l) x (cpar 0 c) b)) as He2.
  { rewrite Hf2 by (clear -Hnd; apart). unfold h1. by rewrite lookup_insert_ne. }
  assert (h2 !! x = Some (AHook (ptr l) (ptr q) e rb)) as Hx2.
  { rewrite Hf2 by done. unfold h1. by rewrite lookup_insert_eq. }
  avl_steps. destruct Hav as (Hal & (_ & Haq & Hrb & Hrb1) & Hb & Hb1).
  exists q, [FR l x b]. cbn [app plug fill cpar cdir fdir fnode].
  unfold set_bal. cbn [_left _right _parent]. rewrite to_schar_small by lia.
  assert (forall y, y ∉ elems l ++ e :: elems (Node Leaf x rb q) ->
    <[x := AHook (ptr l) (ptr q) e b]> h2 !! y = h !! y) as Hout.
  { intros y Hy. cbn in Hy. clear -Hf2 Hy. subst h1. sep. frame_lookup. }
  split_and!; [|done|done| |done|done].
  - split; cbn [trees nodes]; try done.
    + eexists. split; [by rewrite lookup_insert_ne|]. done.
    + eapply crep_frame; [|exact Hc]. intros y Hy. apply Hout.
      cbn [elems app]. clear -Hnd Hy. sep. apply elem_of_app in Hy as [Hy|Hy]; apart.
    + exists e. cbn [arep]. split_and!; [by rewrite lookup_insert_eq|by apply arep_insert_ne|].
      eapply (arep_frame h); [|exact Hq]. intros y Hy. clear -Hf2 Hy Hnd. subst h1. sep. frame_lookup.
  - cbn [avl_ctx fsib fbal fdir]. cbn [height] in *.
    pose proof (height_nonneg q). split_and!; try first [done|lia].
    replace (1 + Z.max (1 + height q) (height l))
      with (1 + Z.max (height l) (1 + Z.max 0 (height q))) by lia. done.
Qed.

(** *** The leftmost leaf of the right subtree *)

(** A path that only goes left. *)
Definition all_left (c : ctx) : Prop := forall f, f ∈ c -> fdir f = -1.

Lemma all_left_lelems c : all_left c -> lelems c = [].
Proof.
  induction c as [|[x b r|l x b] c IH]; intros Hc; cbn; [done| |].
  - apply IH. intros f Hf. apply Hc. set_solver.
  - specialize (Hc (FR l x b) ltac:(set_solver)). done.
Qed.

Lemma leftmost_parent_loop t : forall p m fuel,
  arep (nodes m) p t -> sound_tree t ->
  (exists l x b r, t = Node l x b r /\ l <> Leaf) -> (length (elems t) < fuel)%nat ->
  wp (loop fuel leftmost_parent_body (ptr t)) m (fun res m' => m' = m /\
    exists y yb z f cy, t = plug (Node Leaf y yb z) (cy ++ [f]) /\ all_left (cy ++ [f]) /\
      res = cpar 0 (cy ++ [f])).
Proof.
  induction t as [|l IHl x b r _]; intros p m fuel Hr Hs (l' & x' & b' & r' & Heq & Hl') Hf;
    [done|]. injection Heq as <- <- <- <-.
  destruct fuel as [|fuel]; [lia|]. cbn in Hf. rewrite length_app in Hf. cbn in Hf.
  pose proof (sound_sub _ _ _ _ Hs) as [Hsl _]. destruct Hr as (Hx & Hrl & _).
  assert (x <> 0) by (apply (sound_nonzero _ _ Hs); cbn; set_solver).
  cbn [ptr]. apply wp_bind, wp_bind. eapply wp_rd; [done..|]. cbn [_left].
  destruct l as [|ll y yb z]; [done|]. pose proof Hrl as (Hy & _ & _).
  assert (y <> 0) by (apply (sound_nonzero _ _ Hsl); cbn; set_solver).
  cbn [ptr]. apply wp_bind. eapply wp_rd; [done..|]. cbn [_left].
  destruct (decide (ll = Leaf)) as [->|Hll].
  - apply wp_if_false; [done|]. apply wp_ret, wp_ret. split; [done|].
    exists y, yb, z, (FL x b r), []. split_and!; [done| |done].
    intros f Hf'. set_solver.
  - apply sound_sub in Hsl as Hsub. destruct Hsub as [Hsll _].
    pose proof (ptr_ne ll (fun v => sound_nonzero ll v Hsll) Hll).
    apply wp_if_true; [ptr_cond|]. apply wp_ret.
    eapply wp_mono; [eapply (IHl x m fuel Hrl Hsl); [eauto 10|lia]|].
    intros res m' (-> & y' & yb' & z' & f & cy & Heq & Hall & ->). split; [done|].
    exists y', yb', z', (FL x b r), (cy ++ [f]). split_and!.
    + by rewrite plug_app, <- Heq.
    + intros g [Hg|Hg]%elem_of_app; [by apply Hall|set_solver].
    + by destruct cy.
Qed.

Lemma ctop_in q c : c <> [] -> ctop q c ∈ lelems c ++ relems c.
Proof.
  revert q. induction c as [|f c IH]; [done|]. intros q _. cbn [ctop].
  destruct c as [|g c]; [destruct f; cbn; set_solver|].
  specialize (IH (fnode f) ltac:(done)). destruct f; cbn in *; set_solver.
Qed.

(** Another parent for the top of a context. *)
Lemma crep_reparent h q c pp pp' : c <> [] -> NoDup (lelems c ++ relems c) -> crep h q c pp ->
  exists v, h !! ctop q c = Some v /\ crep (<[ctop q c := set_parent pp' v]> h) q c pp'.
Proof.
  revert q. induction c as [|f c IH]; [done|]. intros q _ Hnd (Hx & Hsib & Hc).
  assert ((fnode f ∉ elems (fsib f)) /\ (fnode f ∉ lelems c ++ relems c) /\
    (forall x, x ∈ elems (fsib f) -> x ∉ lelems c ++ relems c) /\
    NoDup (lelems c ++ relems c)) as (Hf1 & Hf2 & Hf3 & Hnd').
  { destruct f; cbn in Hnd |- *; sep; split_and!; try apart; try (intros ? ?; apart);
      apply NoDup_app; split_and!; try done; intros ? ?; apart. }
  destruct c as [|g c].
  - cbn [ctop cpar] in *. eexists. split; [done|]. cbn [crep cpar]. split_and!; [|by apply arep_insert_ne|done].
    rewrite lookup_insert_eq. by destruct f.
  - destruct (IH (fnode f) ltac:(done) Hnd' Hc) as (v & Hv & Hc'). exists v. split; [exact Hv|].
    assert (ctop (fnode f) (g :: c) ∈ lelems (g :: c) ++ relems (g :: c)) as Hin by by apply ctop_in.
    cbn [ctop] in *. split_and!; [|apply arep_insert_ne; [|done]|exact Hc'].
    + rewrite lookup_insert_ne; [done|]. intros Heq. apply Hf2. by rewrite <- Heq.
    + intros Hin'. by eapply Hf3.
Qed.

(** The memory after the leaf [y], whose context in the right subtree is [C],
    has taken the place of [e]. *)
Definition swapped (h : heap) (l z : tree) (y b R : Z) (C : ctx) (h' : heap) : Prop :=
  (exists yp, h' !! y = Some (AHook (ptr l) R yp b)) /\ arep h' y l /\
  arep h' (cpar 0 C) z /\ crep h' (ptr z) C y /\
  (forall v, v ∉ elems l ++ lelems C ++ y :: elems z ++ relems C -> h' !! v = h !! v).

Lemma swap_leaf_spec ts h e b l z y yb g C pe :
  h !! e = Some (AHook (ptr l) (ctop y (g :: C)) pe b) -> -128 <= b < 128 ->
  arep h e l -> l <> Leaf -> crep h y (g :: C) e -> fdir g = -1 ->
  h !! y = Some (AHook 0 (ptr z) (fnode g) yb) -> arep h y z ->
  NoDup (elems l ++ e :: lelems (g :: C) ++ y :: elems z ++ relems (g :: C)) ->
  (forall v, v ∈ elems l ++ e :: lelems (g :: C) ++ y :: elems z ++ relems (g :: C) -> v <> 0) ->
  wp (swap_leaf e (ctop y (g :: C)) (ptr l) (fnode g)) (AMem ts h) (fun res m' =>
    res = (y, fnode g, -1) /\ trees m' = ts /\
    swapped h l z y b (ctop y (g :: C)) (g :: C) (nodes m')).
Proof.
  intros He Hb Hl Hlne Hc Hg Hy Hz Hnd Hv.
  assert (g :: C <> []) as HGne by done.
  assert (NoDup (lelems (g :: C) ++ relems (g :: C))) as HndG.
  { clear -Hnd. sep. apply NoDup_app. split_and!; [done| |done]. intros v Hv. apart. }
  pose proof (ctop_in y _ HGne) as Htop.
  assert (fnode g ∈ lelems (g :: C) ++ relems (g :: C)) as Hgin.
  { destruct g; cbn; set_solver. }
  assert (e <> 0 /\ y <> 0 /\ fnode g <> 0 /\ ptr l <> 0 /\ ctop y (g :: C) <> 0) as (? & ? & ? & ? & ?).
  { clear -Hv Hgin Htop Hlne. split_and!; apply Hv; [set_solver..| |set_solver].
    destruct l; [done|]. cbn. set_solver. }
  assert (ptr l ∈ elems l) as Hlin by (destruct l; [done|cbn; set_solver]).
  (* who is where *)
  assert ((y ∉ elems l) /\ (y ∉ elems z) /\ (y ∉ lelems (g :: C) ++ relems (g :: C)) /\ e <> y /\
    e <> fnode g /\ e <> ctop y (g :: C) /\ (e ∉ elems z) /\
    (forall v, v ∈ elems l -> v ∉ lelems (g :: C) ++ relems (g :: C)) /\
    (forall v, v ∈ elems z -> v ∉ lelems (g :: C) ++ relems (g :: C)) /\
    (forall v, v ∈ elems l -> v ∉ elems z) /\ (e ∉ elems l) /\ NoDup (elems l) /\ NoDup (elems z))
    as (Hyl & Hyz & HyG & Hey & Heg & Het & Hez & HlG & HzG & Hlz & Hel & Hndl & Hndz).
  { clear -Hnd Htop Hgin. sep. rewrite elem_of_app in Htop, Hgin.
    split_and!; try apart; try (intros ? ?; apart); [destruct Hgin|destruct Htop]; apart. }
  assert (ctop y (g :: C) <> y /\ fnode g <> y) as [Hty Hgy].
  { split; intros Heq; apply HyG; [by rewrite <- Heq at 1|by rewrite <- Heq]. }
  assert (h !! fnode g = Some (fhook y (cpar e C) g)) as Hgn by apply Hc.
  assert (_left (fhook y (cpar e C) g) = y) as Hgl by (destruct g; done).
  unfold swap_leaf. do 2 avl_step. rewrite Hgl. do 20 avl_step.
  unfold set_bal. cbn [_left _right _parent]. rewrite to_schar_small by done.
  rewrite !insert_insert_eq.
  (* [y] has the fields of [e] *)
  set (h1 := <[y := _]> h).
  assert (arep h1 e l) as Hl1 by by apply arep_insert_ne.
  assert (arep h1 y z) as Hz1 by by apply arep_insert_ne.
  assert (crep h1 y (g :: C) e) as Hc1 by by apply crep_insert_ne.
  assert (h1 !! y = Some (AHook (ptr l) (ctop y (g :: C)) (fnode g) b)) as Hy1 by apply lookup_insert_eq.
  assert (forall v, v <> y -> h1 !! v = h !! v) as Hf1 by (intros v ?; by apply lookup_insert_ne).
  clearbody h1.
  (* its right child *)
  destruct (crep_reparent _ _ _ e y HGne HndG Hc1) as (v2 & Hv2 & Hc2).
  apply wp_bind. eapply wp_update; [done..|]. cbn [hget hset nodes_of nodes trees].
  set (h2 := <[ctop y (g :: C) := _]> h1) in *.
  assert (arep h2 e l) as Hl2 by (apply arep_insert_ne; [intros Hin; by apply (HlG _ Hin)|done]).
  assert (arep h2 y z) as Hz2 by (apply arep_insert_ne; [intros Hin; by apply (HzG _ Hin)|done]).
  assert (h2 !! y = Some (AHook (ptr l) (ctop y (g :: C)) (fnode g) b)) as Hy2 by (unfold h2; by rewrite lookup_insert_ne).
  assert (forall v, v <> y -> v ∉ lelems (g :: C) ++ relems (g :: C) -> h2 !! v = h !! v) as Hf2.
  { intros v Hvy HvG. unfold h2. rewrite lookup_insert_ne; [by apply Hf1|]. by intros <-. }
  clearbody h2.
  (* its left child *)
  destruct (arep_reparent _ _ y _ Hndl Hl2 Hlne) as (v3 & Hv3 & Hl3).
  apply wp_bind. eapply wp_update; [done..|]. cbn [hget hset nodes_of nodes trees].
  set (h3 := <[ptr l := _]> h2) in *.
  assert (crep h3 y (g :: C) y) as Hc3 by (apply crep_insert_ne; [by apply HlG|done]).
  assert (arep h3 y z) as Hz3 by (apply arep_insert_ne; [by apply Hlz|done]).
  assert (h3 !! y = Some (AHook (ptr l) (ctop y (g :: C)) (fnode g) b)) as Hy3.
  { unfold h3. rewrite lookup_insert_ne; [done|]. by intros <-. }
  assert (forall v, v <> y -> v ∉ lelems (g :: C) ++ relems (g :: C) -> v ∉ elems l -> h3 !! v = h !! v) as Hf3.
  { intros v Hvy HvG Hvl. unfold h3. rewrite lookup_insert_ne; [by apply Hf2|]. by intros <-. }
  clearbody h3.
  (* the parent of its old place *)
  assert ((fnode g ∉ elems (fsib g)) /\ (fnode g ∉ lelems C ++ relems C)) as [Hgs HgC].
  { clear -HndG. destruct g; cbn in HndG |- *; sep; split; apart. }
  destruct (crep_set_child _ _ (ptr z) _ _ _ ltac:(done) Hgs HgC Hc3) as (w & Hw & Hc4).
  rewrite Hg in Hc4. cbn [Z.eqb] in Hc4.
  apply wp_bind. eapply wp_update; [done..|]. cbn [hget hset nodes_of nodes trees].
  set (h4 := <[fnode g := _]> h3) in *.
  assert (arep h4 y l) as Hl4 by (apply arep_insert_ne; [intros Hin; by apply (HlG _ Hin)|done]).
  assert (arep h4 y z) as Hz4 by (apply arep_insert_ne; [intros Hin; by apply (HzG _ Hin)|done]).
  assert (h4 !! y = Some (AHook (ptr l) (ctop y (g :: C)) (fnode g) b)) as Hy4.
  { unfold h4. by rewrite lookup_insert_ne. }
  assert (forall v, v <> y -> v ∉ lelems (g :: C) ++ relems (g :: C) -> v ∉ elems l -> h4 !! v = h !! v) as Hf4.
  { intros v Hvy HvG Hvl. unfold h4. rewrite lookup_insert_ne; [by apply Hf3|]. by intros <-. }
  clearbody h4.
  (* its old right subtree *)
  apply wp_bind. eapply (wp_reparent _ y); [|done|done|].
  { intros v Hvz. apply Hv. clear -Hvz. set_solver. }
  intros h5 Hz5 Hf5. cbn [nodes trees] in *. apply wp_ret. split_and!; [done..|].
  split; [|split_and!].
  - exists (fnode g). by rewrite Hf5.
  - eapply arep_frame; [|exact Hl4]. intros v Hvl. apply Hf5. by apply Hlz.
  - exact Hz5.
  - eapply crep_frame; [|exact Hc4]. intros v Hvc. apply Hf5. intros Hvz. by apply (HzG v).
  - intros v Hvn. cbn [nodes]. rewrite Hf5 by (clear -Hvn; sep; apart).
    apply Hf4; clear -Hvn; sep; apart.
Qed.

Lemma unlink_leftmost m tp sz l e b r c :
  zip m tp sz (Node l e b r) c -> avl (Node l e b r) -> avl_ctx (height (Node l e b r)) c ->
  (exists rl x rb rr, r = Node rl x rb rr /\ rl <> Leaf) -> l <> Leaf ->
  wp (unlink e) m (unlinked m tp sz l e r c).
Proof.
  intros Hz Hav Hac (rl & rx & rb & rr & Hr & Hrl) Hl.
  destruct (erase_facts _ _ _ _ _ _ _ _ Hz) as (He0 & He & Harl & Harr & Hsl & Hsr & Hnd).
  pose proof Hz as [Htp Hobj _ Hc Hs]. unfold unlink.
  pose proof (arep_size _ _ _ (proj1 Hsr) Harr) as Hsz.
  pose proof (leftmost_parent_loop r e m (S (size (nodes m))) Harr Hsr
    ltac:(subst r; eauto 10) ltac:(lia)) as Hloop.
  assert (ptr r <> 0) as Hr0 by (apply (sound_nonzero _ _ Hsr); subst r; cbn; set_solver).
  assert (ptr rl <> 0) as Hrl0.
  { apply (sound_nonzero _ _ Hsr). subst r. destruct rl; [done|]. cbn. set_solver. }
  assert (nodes m !! ptr r = Some (AHook (ptr rl) (ptr rr) e rb)) as Hrn by (subst r; apply Harr).
  clear Hr Hrl Hsz. destruct m as [ts h]. cbn [trees nodes] in *.
  avl_step. avl_step. apply wp_if_false; [ptr_cond|]. avl_step. avl_step.
  apply wp_if_false; [ptr_cond|]. avl_steps.
  eapply wp_mono; [exact Hloop|]. clear Hloop Hrl0 Hrn.
  intros x s (-> & y & yb & z & f & cy & Hreq & Hall & ->). cbn beta.
  destruct (cy ++ [f]) as [|g C] eqn:HG; [by destruct cy|]. clear HG.
  destruct Hav as (Hal & Har & Hb & Hb1).
  rewrite Hreq in Har, Harr, Hsr. apply avl_plug in Har as [(_ & Haz & _) HaC].
  apply arep_plug in Harr as [(Hy & _ & Harz) HcC].
  assert (ptr r = ctop y (g :: C)) as Hpr by by rewrite Hreq, ptr_plug.
  assert (elems r = lelems (g :: C) ++ y :: elems z ++ relems (g :: C)) as Helr.
  { by rewrite Hreq, elems_plug. }
  assert (lelems (g :: C) = []) as HlC by by apply all_left_lelems.
  assert (height r = cheight (1 + height z) (g :: C)) as Hhr.
  { rewrite Hreq, height_plug. f_equal. cbn. pose proof (height_nonneg z). lia. }
  rewrite Helr in Hnd. cbn [cpar ptr] in *. rewrite Hpr in He |- *.
  assert (NoDup (elems l ++ e :: lelems (g :: C) ++ y :: elems z ++ relems (g :: C))) as Hnd1.
  { by apply NoDup_app in Hnd as (_ & _ & (Hnd & _)%NoDup_app). }
  eapply wp_mono; [eapply (swap_leaf_spec _ _ _ b); try done|].
  - lia.
  - apply Hall. set_solver.
  - intros v [Hv|[->|Hv]%elem_of_cons]%elem_of_app; [by apply (sound_nonzero l)|done|].
    apply (sound_nonzero _ _ Hsr). by rewrite <- Hreq, Helr.
  - intros res [ts' h'] (-> & Hts & (yp & Hy') & Hl' & Hz' & HC' & Hf). cbn [trees nodes] in *. subst ts'.
    exists z, (g :: C ++ [FR l y b]). cbn [plug]. rewrite plug_app.
    change (plug (plug (fill g z) C) [FR l y b]) with (Node l y b (plug z (g :: C))).
    assert (elems (Node l y b (plug z (g :: C))) = elems l ++ elems r) as HelT.
    { cbn [elems]. rewrite elems_plug, Helr, HlC. done. }
    destruct (replacement_sound _ _ _ _ (Node l y b (plug z (g :: C))) _ Hs HelT) as [Hs' He'].
    split_and!.
    + split; cbn [trees nodes]; try done.
      * exists (AHook (ptr l) (ctop y (g :: C)) (cpar 0 c) b). split; [|done].
        rewrite Hf; [done|]. clear -Hnd1. sep. apart.
      * eapply crep_frame; [|exact Hc]. intros v Hv. apply Hf.
        clear -Hnd Hv. sep. apply elem_of_app in Hv as [Hv|Hv]; apart.
      * exists yp. cbn [arep]. rewrite ptr_plug. split_and!; [exact Hy'|exact Hl'|].
        by apply arep_plug.
    + cbn [ptr app cpar cdir]. by rewrite (Hall g) by set_solver.
    + done.
    + change (g :: C ++ [FR l y b]) with ((g :: C) ++ [FR l y b]).
      rewrite <- app_assoc. apply avl_ctx_app. split.
      * replace (1 + height z) with (height (Node Leaf y yb z)); [done|]. heights.
      * rewrite <- Hhr. cbn [avl_ctx fsib fbal fdir app]. split_and!; [done|lia|lia|lia|].
        replace (1 + Z.max (height r) (height l)) with (height (Node l e b r)); [done|].
        cbn [height]. lia.
    + exact HelT.
    + split; cbn [nodes trees]; [|done]. intros v Hv. apply Hf. rewrite Helr in Hv.
      clear -Hv. sep. apart.
Qed.

(** Whatever the shape of its subtrees, a node of an AVL tree is unlinked: in
    particular a node whose right subtree has an inner node has a left
    subtree, whose root the code updates without a check. *)
Lemma unlink_spec m tp sz l e b r c :
  zip m tp sz (Node l e b r) c -> avl (Node l e b r) -> avl_ctx (height (Node l e b r)) c ->
  wp (unlink e) m (unlinked m tp sz l e r c).
Proof.
  intros Hz Hav Hac. destruct r as [|rl x rb rr]; [by eapply unlink_no_right|].
  destruct (decide (rl = Leaf)) as [->|Hrl]; [by eapply unlink_right_no_left|].
  eapply unlink_leftmost; [done..|eauto 10|]. apply height_pos.
  destruct Hav as (_ & (_ & _ & _ & _) & Hb & Hb1). cbn [height] in Hb.
  pose proof (height_nonneg rr). pose proof (height_nonneg rl).
  destruct rl as [|a1 a2 a3 a4]; [done|]. cbn [height] in Hb.
  pose proof (height_nonneg a1). pose proof (height_nonneg a4). lia.
Qed.

(** ** The whole removal *)

Lemma dfk_avltree_erase_spec m tp t e pre suf :
  tree_rep m tp t -> avl t -> elems t = pre ++ e :: suf ->
  wp (dfk_avltree_erase tp e) m (fun _ m' => exists t',
    tree_rep m' tp t' /\ avl t' /\ elems t' = pre ++ suf /\ outside tp (elems t) m m').
Proof.
  intros Hrep Hav Hel. pose proof (tr_nodup _ _ _ Hrep) as Hnd.
  destruct (tree_split e t) as (l & b & r & c & ->); [rewrite Hel; set_solver|].
  assert (lelems c ++ elems l = pre /\ elems r ++ relems c = suf) as [Hpre Hsuf].
  { rewrite elems_plug in Hel, Hnd. cbn [elems] in Hel, Hnd.
    rewrite <- app_assoc in Hel, Hnd. cbn in Hel, Hnd. rewrite app_assoc in Hel, Hnd.
    by destruct (NoDup_mid_inj _ _ _ _ _ Hnd Hel). }
  pose proof (proj2 (zip_rep _ _ _ _) Hrep) as Hz.
  destruct (proj1 (avl_plug _ _) Hav) as [Hat Hac].
  pose proof (tr_obj _ _ _ Hrep) as Hobj. pose proof (tr_ne _ _ _ Hrep) as Htp.
  destruct (root_node _ _ _ _ _ _ _ _ Hz) as [He0 _].
  set (n := length (elems (plug (Node l e b r) c))) in *.
  assert (n = S (length (pre ++ suf))) as Hn.
  { unfold n. rewrite Hel, !length_app. cbn. lia. }
  apply wp_checks; [by eapply checks_tree|intros _].
  apply wp_bind, wp_assert; [ptr_cond|]. apply wp_bind. eapply wp_deref; [done..|].
  apply wp_bind, wp_assert; cbn [t_size].
  { rewrite Hn. destruct (Z.eqb_spec (Z.of_nat (S (length (pre ++ suf)))) 0); [lia|done]. }
  apply wp_bind. eapply wp_mono; [by eapply unlink_spec|].
  intros res m1 (t' & c' & Hdet & -> & Hat' & Hac' & Hel' & Ho1). cbn beta iota.
  apply wp_bind. eapply wp_mono; [by eapply replace_spec|].
  intros _ m2 [Hz2 Ho2]. cbn beta.
  assert (zip m2 tp (Z.of_nat n) t' (c' ++ c)) as Hz2'.
  { eapply zip_move; [|exact Hz2]. by rewrite plug_app. }
  assert (elems (plug t' (c' ++ c)) = pre ++ suf) as HelT.
  { rewrite plug_app, elems_plug, Hel', <- Hpre, <- Hsuf. by rewrite <- !app_assoc. }
  apply wp_bind, wp_gets, wp_bind. eapply rebalance_loop; [done..| |].
  { pose proof (ctx_length t' (c' ++ c)) as Hcl. rewrite HelT in Hcl.
    pose proof (proj1 (zip_top _ _ _ _ _) Hz2') as [_ _ Har _ [HndT _]]. cbn [plug cpar] in Har, HndT.
    pose proof (arep_size _ _ _ HndT Har) as Hsz. rewrite HelT in Hsz. lia. }
  intros m3 T Hz3 HaT HelT3 Ho3. rewrite HelT in HelT3, Ho3.
  destruct Hz3 as [_ Hobj3 Har3 _ Hs3]. cbn [ctop plug cpar] in *.
  apply wp_bind. eapply wp_update; [done..|].
  set (m4 := hset trees_of _ _).
  assert (tree_rep m4 tp T) as Hrep4.
  { split; cbn; [done| |done|by apply Hs3|by apply Hs3]. rewrite lookup_insert_eq. unfold set_tsize. cbn.
    do 2 f_equal. rewrite HelT3, Hn. rewrite to_size_small; [lia|].
    pose proof (nodup_valid_length _ (proj1 Hs3) (proj2 Hs3)) as Hlt. rewrite HelT3 in Hlt. lia. }
  eapply wp_mono; [by eapply checks_tree|]. intros _ m5 ->. exists T. split_and!; [done..|].
  assert (forall ys, (forall y, y ∈ ys -> y ∈ pre ++ e :: suf) ->
    forall a a', outside tp ys a a' -> outside tp (elems (plug (Node l e b r) c)) a a') as Hmono.
  { intros ys Hys a a'. apply outside_mono. rewrite Hel. exact Hys. }
  eapply outside_trans; [eapply (Hmono (elems l ++ e :: elems r)); [|exact Ho1]|].
  { rewrite <- Hpre, <- Hsuf. set_solver. }
  eapply outside_trans; [eapply (Hmono (pre ++ suf)); [set_solver|]|].
  { rewrite plug_app in HelT. rewrite <- HelT. exact Ho2. }
  eapply outside_trans; [eapply (Hmono (pre ++ suf)); [set_solver|exact Ho3]|].
  split; [done|]. intros tp' Htp'. cbn. by rewrite lookup_insert_ne.
Qed.
