(* ===== verification/AvlInsert.v ===== *)
(** * Insertion into the AVL trees

    The loop of [dfk_avltree_insert] remembers the last node of non-zero
    balance on its way down, the prime: below it all balances on the path are
    zero and become one, above it no height changes, and at it at most one
    rotation is due. *)

From S2P Require Import Prelude Avl AvlTree AvlRot AvlZip AvlBalance.

(** ** Growing a path *)

(** The frame once the subtree in its hole is one level higher. *)
Definition adj (f : frame) : frame :=
  match f with FL x b r => FL x (b - 1) r | FR l x b => FR l x (b + 1) end.

Lemma adj_facts f : fnode (adj f) = fnode f /\ fdir (adj f) = fdir f /\
  fsib (adj f) = fsib f /\ fbal (adj f) = fbal f + fdir f.
Proof. destruct f; cbn; split_and!; try done; lia. Qed.

Lemma lelems_adj c : lelems (map adj c) = lelems c.
Proof. induction c as [|[x b r|l x b] c IH]; cbn; by rewrite ?IH. Qed.
Lemma relems_adj c : relems (map adj c) = relems c.
Proof. induction c as [|[x b r|l x b] c IH]; cbn; by rewrite ?IH. Qed.
Lemma elems_adj t c c' : elems (plug t (map adj c ++ c')) = elems (plug t (c ++ c')).
Proof.
  rewrite !elems_plug, !lelems_app, !relems_app. by rewrite lelems_adj, relems_adj.
Qed.

Definition zero_path (c : ctx) : Prop := forall f, f ∈ c -> fbal f = 0.

(** Along a path of zero balances every subtree grows, and leans to the path. *)
Lemma grow_zero c : forall hh t,
  avl t -> height t = hh + 1 -> avl_ctx hh c -> zero_path c ->
  avl (plug t (map adj c)) /\ height (plug t (map adj c)) = cheight hh c + 1 /\
  (c <> [] -> root_bal (plug t (map adj c)) <> 0).
Proof.
  induction c as [|f c IH]; intros hh t Ht Hh Hc Hz; cbn [map plug cheight]; [done|].
  destruct Hc as (Hsib & Hb & Hb1 & Hc).
  assert (fbal f = 0) as Hf0 by (apply Hz; set_solver).
  assert (height (fsib f) = hh) as Hs by (destruct f; cbn in *; lia).
  destruct (IH (1 + Z.max hh (height (fsib f))) (fill (adj f) t)) as (Ha & Hh' & Hr).
  - destruct f; cbn in *; split_and!; first [done|lia].
  - destruct f; cbn in *; lia.
  - done.
  - intros g Hg. apply Hz. set_solver.
  - split_and!; [done|done|]. intros _. destruct c as [|g c]; [|by apply Hr].
    destruct f; cbn in *; lia.
Qed.

(** ** Signs on a path *)
Section insert.
Context (cmp : Z -> Z -> Z).

Definition sgn_ok (e : Z) (f : frame) : Prop :=
  match f with FL x _ _ => cmp x e < 0 | FR _ x _ => 0 < cmp x e end.
Definition path_ok (e : Z) (c : ctx) : Prop := forall f, f ∈ c -> sgn_ok e f.

Lemma path_ok_cons e f c : path_ok e (f :: c) <-> sgn_ok e f /\ path_ok e c.
Proof. unfold path_ok. set_solver. Qed.

Lemma last_lelems e c x : path_ok e c -> last (lelems c) = Some x -> 0 < cmp x e.
Proof.
  induction c as [|[y b r|l y b] c IH]; intros Hc; cbn; [done|..];
    apply path_ok_cons in Hc as [Hf Hc].
  - by apply IH.
  - rewrite app_assoc, last_snoc. by intros [= <-].
Qed.
Lemma head_relems e c x : path_ok e c -> head (relems c) = Some x -> cmp x e < 0.
Proof.
  induction c as [|[y b r|l y b] c IH]; intros Hc; cbn; [done|..];
    apply path_ok_cons in Hc as [Hf Hc].
  - by intros [= <-].
  - by apply IH.
Qed.

(** A path to a leaf that follows the comparator ends at the cut. *)
Lemma cut_leaf e c pre mid suf :
  path_ok e c -> cut_at (fun x => cmp x e) (lelems c ++ relems c) pre mid suf ->
  mid = [] /\ lelems c = pre /\ relems c = suf.
Proof.
  intros Hc [Heq Hpre Hmid Hsuf].
  assert (forall L R, pre ++ mid ++ suf = L ++ R ->
    (forall x, last L = Some x -> 0 < cmp x e) -> (forall x, head R = Some x -> cmp x e < 0) ->
    mid = [] /\ L = pre /\ R = suf) as Hgen.
  { clear Heq c Hc. revert Hpre. induction pre as [|p pre IH]; intros Hpre L R Heq HL HR.
    - cbn in Heq. destruct L as [|x L] using rev_ind.
      + cbn in Heq. subst R. destruct mid as [|z mid]; [done|].
        specialize (HR z eq_refl). specialize (Hmid z ltac:(set_solver)). lia.
      + clear IHL. specialize (HL x ltac:(by rewrite last_snoc)).
        assert (x ∈ mid ++ suf) as Hx by (rewrite Heq; set_solver).
        apply elem_of_app in Hx as [Hx%Hmid|Hx%Hsuf]; lia.
    - destruct L as [|x L].
      + cbn in Heq. subst R. specialize (HR p eq_refl). specialize (Hpre p ltac:(set_solver)). lia.
      + cbn in Heq. injection Heq as -> Heq.
        destruct (IH ltac:(set_solver) L R Heq) as (-> & -> & ->); [|done|done].
        intros y Hy. apply HL. rewrite last_cons, Hy. done. }
  destruct (Hgen (lelems c) (relems c)) as (? & ? & ?); [by rewrite Heq| | |done].
  - intros x. by apply last_lelems.
  - intros x. by apply head_relems.
Qed.

(** ** The way down *)

(** The prime of the position [t] in [inner ++ outer]: the node at the end of
    [inner], or the root of [t] when [inner] is empty. *)
Record primed (t : tree) (inner outer : ctx) (prime pp dir : Z) : Prop := Primed {
  pr_prime : prime = ptr (plug t inner);
  pr_parent : pp = cpar 0 outer;
  pr_dir : dir = cdir outer;
  pr_top : outer = [] \/ root_bal (plug t inner) <> 0;
  pr_zero : inner = [] \/ root_bal t = 0 /\
    exists i0 f, inner = i0 ++ [f] /\ zero_path i0
}.

Lemma root_bal_fill f t : root_bal (fill f t) = fbal f.
Proof. by destruct f. Qed.
Lemma ptr_fill f t : ptr (fill f t) = fnode f.
Proof. by destruct f. Qed.

(** The path to the hole ends the search for the prime. *)
Lemma primed_path t f inner outer prime pp dir :
  primed (fill f t) inner outer prime pp dir ->
  exists i0 fp, f :: inner = i0 ++ [fp] /\ zero_path i0 /\
    prime = fnode fp /\ (outer = [] \/ fbal fp <> 0).
Proof.
  intros [-> _ _ Htop [->|(Hb & i0 & g & -> & Hz)]].
  - exists [], f. cbn in *. rewrite root_bal_fill in Htop. rewrite ptr_fill.
    split_and!; try done. intros ? ?. set_solver.
  - exists (f :: i0), g. rewrite root_bal_fill in Hb. split_and!; [done| | |].
    + intros h [->|Hh]%elem_of_cons; [done|by apply Hz].
    + rewrite plug_app. cbn. by rewrite ptr_fill.
    + rewrite plug_app in Htop. cbn in Htop. by rewrite root_bal_fill in Htop.
Qed.

Lemma primed_down ch f inner outer prime pp dir :
  primed (fill f ch) inner outer prime pp dir ->
  (root_bal ch <> 0 -> primed ch [] (f :: inner ++ outer) (ptr ch) (fnode f) (fdir f)) /\
  (root_bal ch = 0 -> primed ch (f :: inner) outer prime pp dir).
Proof.
  intros Hp. split; intros Hb.
  - split; cbn; auto.
  - destruct (primed_path _ _ _ _ _ _ _ Hp) as (i0 & fp & Heq & Hz & _).
    destruct Hp as [H1 H2 H3 H4 _]. split; try done. right. eauto.
Qed.

(** Linking the new node at an empty position. *)
Definition linked_leaf (m : amem) (e : Z) (f : frame) : amem :=
  AMem (trees m) (<[e := AHook 0 0 (fnode f) 0]>
    (<[fnode f := fhook e (default 0 (_parent <$> nodes m !! fnode f)) f]> (nodes m))).

(** The node to be inserted. *)
Definition fresh_node (m : amem) (e : Z) (t : tree) : Prop :=
  nodes m !! e = Some (AHook 0 0 0 0) /\ valid_addr e /\ e ∉ elems t.

Lemma link_zip m tp sz f c e :
  zip m tp sz Leaf (f :: c) -> fresh_node m e (plug Leaf (f :: c)) ->
  zip (linked_leaf m e f) tp sz (Node Leaf e 0 Leaf) (f :: c) /\
  outside tp (e :: elems (plug Leaf (f :: c))) m (linked_leaf m e f).
Proof.
  intros Hz (He & Hev & Hin). pose proof Hz as [Htp Hobj _ Hc Hs].
  destruct (frame_facts _ _ _ Hs) as (Hf0 & _ & Hfs & Hfc & _).
  pose proof Hc as (Hf & _ & _).
  assert (fnode f ∈ elems (plug Leaf (f :: c))) as Hfin.
  { apply elem_plug_c. destruct f; cbn; set_solver. }
  assert (e <> fnode f) as Hef by by intros ->.
  assert (linked_leaf m e f = AMem (trees m) (<[e := AHook 0 0 (fnode f) 0]>
    (<[fnode f := fhook e (cpar 0 c) f]> (nodes m)))) as ->.
  { unfold linked_leaf. rewrite Hf. by destruct f. }
  split; [split|split]; cbn [trees nodes cpar].
  - done.
  - exact Hobj.
  - cbn [arep ptr]. by rewrite lookup_insert_eq.
  - apply crep_insert_ne; [intros ?; by apply Hin, elem_plug_c|]. by eapply crep_hole.
  - apply sound_plug. apply sound_plug in Hs as [Hnd Hv]. cbn [elems app] in *.
    rewrite elems_plug in Hin. cbn [elems app] in Hin. split.
    + rewrite <- Permutation_middle. by apply NoDup_cons.
    + intros x. rewrite elem_of_app, elem_of_cons. intros [?|[->|?]]; [..|done|];
        apply Hv; set_solver.
  - intros y Hy. rewrite !lookup_insert_ne; [done|..]; intros <-; apply Hy; set_solver.
  - done.
Qed.

Lemma wp_link m tp sz f c e (Q : unit -> amem -> Prop) :
  zip m tp sz Leaf (f :: c) -> fresh_node m e (plug Leaf (f :: c)) ->
  Q tt (linked_leaf m e f) ->
  wp (update nodes_of (fnode f) (if fdir f =? 1 then set_right e else set_left e);;
      update nodes_of e (set_parent (fnode f))) m Q.
Proof.
  intros Hz (He & Hev & Hin) HQ. destruct (parent_node _ _ _ _ _ _ Hz) as [Hf0 Hf].
  assert (e <> fnode f) as Hef.
  { intros ->. apply Hin, elem_plug_c. destruct f; cbn; set_solver. }
  pose proof (valid_ne _ Hev).
  apply wp_bind. eapply wp_update; [done..|].
  eapply wp_update; [done|cbn; by rewrite lookup_insert_ne|].
  unfold linked_leaf in HQ. rewrite Hf in HQ. cbn in HQ. cbn.
  destruct f; cbn in *; exact HQ.
Qed.

(** What the way down finds. *)
Definition descended (m : amem) (tp sz e : Z) (T : tree) (res : option (Z * Z * Z))
    (m' : amem) : Prop :=
  match res with
  | None => m' = m /\ exists x, x ∈ elems T /\ cmp x e = 0
  | Some (prime, pp, dir) => exists i0 fp outer,
      T = plug Leaf (i0 ++ fp :: outer) /\
      zip m' tp sz (Node Leaf e 0 Leaf) (i0 ++ fp :: outer) /\
      path_ok e (i0 ++ fp :: outer) /\ zero_path i0 /\ (outer = [] \/ fbal fp <> 0) /\
      prime = fnode fp /\ pp = cpar 0 outer /\ dir = cdir outer /\
      outside tp (e :: elems T) m m'
  end.

Lemma descended_leaf m tp sz e f inner outer prime pp dir T :
  zip m tp sz Leaf (f :: inner ++ outer) -> fresh_node m e T ->
  T = plug Leaf (f :: inner ++ outer) -> path_ok e (f :: inner ++ outer) ->
  primed (fill f Leaf) inner outer prime pp dir ->
  descended m tp sz e T (Some (prime, pp, dir)) (linked_leaf m e f).
Proof.
  intros Hz Hfr -> Hpath Hp.
  destruct (primed_path _ _ _ _ _ _ _ Hp) as (i0 & fp & Heq & Hz0 & Hpr & Htop).
  destruct (link_zip _ _ _ _ _ _ Hz Hfr) as [Hz' Ho].
  exists i0, fp, outer.
  assert (f :: inner ++ outer = i0 ++ fp :: outer) as Hc.
  { change (f :: inner ++ outer) with ((f :: inner) ++ outer). by rewrite Heq, <- app_assoc. }
  destruct Hp as [_ Hpp Hdir _ _].
  rewrite Hc in *. by split_and!.
Qed.

Lemma child_bal m tp sz t f c :
  zip m tp sz t (f :: c) -> t <> Leaf -> ptr t <> 0 /\
  exists n, nodes m !! ptr t = Some n /\ _bal n = root_bal t.
Proof.
  intros [_ _ Hr _ Hs] Ht. split.
  - apply sound_part in Hs as (Hs & _). apply ptr_ne; [|done]. intros x. by apply sound_nonzero.
  - destruct t; [done|]. destruct Hr as (Hx & _). by eexists.
Qed.

(** After one turn of the loop. *)
Definition descend_post (m : amem) (tp sz e : Z) (T : tree) (n : nat)
    (r : (Z * Z * Z * Z) + option (Z * Z * Z)) (m' : amem) : Prop :=
  match r with
  | inl (i, prime, pp, dir) => m' = m /\ exists t inner outer,
      i = ptr t /\ zip m tp sz t (inner ++ outer) /\ t <> Leaf /\
      T = plug t (inner ++ outer) /\ path_ok e (inner ++ outer) /\
      primed t inner outer prime pp dir /\ (length (elems t) < n)%nat
  | inr res => descended m tp sz e T res m'
  end.

(** One side of the turn; [f] tells which. *)
Lemma wp_descend_side m tp sz e T n f ch inner outer prime pp dir :
  zip m tp sz (fill f ch) (inner ++ outer) -> T = plug (fill f ch) (inner ++ outer) ->
  sgn_ok e f -> path_ok e (inner ++ outer) -> primed (fill f ch) inner outer prime pp dir ->
  fresh_node m e T -> (length (elems ch) < n)%nat ->
  wp (c ← rd (if fdir f =? 1 then _right else _left) (fnode f);
      if nonnull c then
        cb ← rd _bal c;
        if negb (cb =? 0) then mret (inl (c, c, fnode f, fdir f))
        else mret (inl (c, prime, pp, dir))
      else
        update nodes_of (fnode f) (if fdir f =? 1 then set_right e else set_left e);;
        update nodes_of e (set_parent (fnode f));;
        mret (inr (Some (prime, pp, dir)))) m (descend_post m tp sz e T n).
Proof.
  intros Hz HT Hsgn Hpath Hp Hfr Hn.
  assert (zip m tp sz ch (f :: inner ++ outer)) as Hzc by by apply zip_up.
  assert (path_ok e (f :: inner ++ outer)) as Hpc by by apply path_ok_cons.
  destruct (parent_node _ _ _ _ _ _ Hzc) as [Hf0 Hf].
  apply wp_bind. eapply wp_rd; [done..|].
  assert ((if fdir f =? 1 then _right else _left) (fhook (ptr ch) (cpar 0 (inner ++ outer)) f)
    = ptr ch) as -> by by destruct f.
  destruct (decide (ch = Leaf)) as [->|Hne].
  - apply wp_if_false; [done|]. subst T.
    pose proof (wp_link m tp sz f (inner ++ outer) e (fun u m' => m' = linked_leaf m e f)
      Hzc Hfr eq_refl) as Hw.
    eapply wp_mono in Hw; [|intros u s Hs; exact Hs].
    unfold wp, mbind, M_bind in Hw |- *.
    destruct (update nodes_of (fnode f) _ m) as [[u1 m1]|]; [|done].
    destruct (update nodes_of e _ m1) as [[u2 m2]|]; [|done]. subst m2. cbn.
    by eapply (descended_leaf m tp sz e f inner outer).
  - destruct (child_bal _ _ _ _ _ _ Hzc Hne) as (Hc0 & n' & Hn' & Hbal).
    apply wp_if_true; [ptr_cond|]. apply wp_bind. eapply wp_rd; [done..|]. rewrite Hbal.
    destruct (primed_down _ _ _ _ _ _ _ Hp) as [Hd1 Hd2].
    case (Z.eqb_spec (root_bal ch) 0) as [Hb0|Hb0]; cbn [negb]; apply wp_ret; split; [done| |done|].
    + exists ch, (f :: inner), outer. split_and!; auto.
    + exists ch, [], (f :: inner ++ outer). split_and!; auto.
Qed.

Lemma descend_step m tp sz e T l i b r inner outer prime pp dir :
  zip m tp sz (Node l i b r) (inner ++ outer) -> T = plug (Node l i b r) (inner ++ outer) ->
  path_ok e (inner ++ outer) -> primed (Node l i b r) inner outer prime pp dir ->
  fresh_node m e T ->
  wp (descend_body cmp e (i, prime, pp, dir)) m
    (descend_post m tp sz e T (length (elems (Node l i b r)))).
Proof.
  intros Hz HT Hpath Hp Hfr. unfold descend_body. cbn [elems]. rewrite length_app. cbn [length].
  destruct (Z.ltb_spec (cmp i e) 0) as [Hlt|Hge].
  - eapply (wp_descend_side m tp sz e T _ (FL i b r) l inner outer); try done. lia.
  - destruct (Z.ltb_spec 0 (cmp i e)) as [Hgt|Hle].
    + eapply (wp_descend_side m tp sz e T _ (FR l i b) r inner outer); try done. lia.
    + apply wp_ret. split; [done|]. exists i. split; [|lia]. rewrite HT.
      apply elem_plug_l. cbn. set_solver.
Qed.

Lemma descend_loop fuel : forall m tp sz e T t inner outer prime pp dir,
  zip m tp sz t (inner ++ outer) -> t <> Leaf -> T = plug t (inner ++ outer) ->
  path_ok e (inner ++ outer) -> primed t inner outer prime pp dir -> fresh_node m e T ->
  (length (elems t) < fuel)%nat ->
  wp (loop fuel (descend_body cmp e) (ptr t, prime, pp, dir)) m (descended m tp sz e T).
Proof.
  induction fuel as [|fuel IH]; intros m tp sz e T t inner outer prime pp dir Hz Ht HT Hpath Hp Hfr Hf;
    [lia|].
  destruct t as [|l i b r]; [done|]. apply wp_bind.
  eapply wp_mono; [by eapply descend_step|].
  intros [[[[i' prime'] pp'] dir']|res] m'; [|by intros Hres; apply wp_ret].
  intros (-> & t' & inner' & outer' & -> & Hz' & Ht' & HT' & Hpath' & Hp' & Hn').
  apply (IH m tp sz e T t' inner' outer'); try done. cbn [ptr] in Hn'. lia.
Qed.

(** ** The way from the prime to the new node *)

Lemma adjust_loop inner : forall fuel m tp sz e outer,
  zip m tp sz (Node Leaf e 0 Leaf) (inner ++ outer) -> path_ok e inner ->
  (forall f, f ∈ inner -> -126 <= fbal f <= 126) -> (length inner < fuel)%nat ->
  wp (loop fuel (adjust_body cmp e) (ptr (plug (Node Leaf e 0 Leaf) inner))) m (fun _ m' =>
    zip m' tp sz (Node Leaf e 0 Leaf) (map adj inner ++ outer) /\
    outside tp (elems (plug (Node Leaf e 0 Leaf) (inner ++ outer))) m m').
Proof.
  induction inner as [|f inner IH] using rev_ind;
    intros [|fuel] m tp sz e outer Hz Hpath Hb Hf; try lia; apply wp_bind.
  - unfold adjust_body at 1. cbn [plug ptr]. rewrite Z.eqb_refl. apply wp_ret, wp_ret. done.
  - rewrite length_app in Hf. cbn in Hf. rewrite <- app_assoc in Hz. cbn [app] in Hz.
    rewrite plug_app. cbn [plug]. rewrite ptr_fill.
    set (N := Node Leaf e 0 Leaf) in *. set (S := plug N inner).
    assert (zip m tp sz (fill f S) outer) as Hz0.
    { eapply zip_move; [|exact Hz]. by rewrite plug_app. }
    assert (sgn_ok e f) as Hsgn by (apply Hpath; set_solver).
    assert (-126 <= fbal f <= 126) as Hbf by (apply Hb; set_solver).
    assert (fnode f <> e) as Hfe.
    { intros Heq. destruct Hz0 as [_ _ _ _ Hs].
      change (fill f S) with (plug S [f]) in Hs. rewrite <- plug_app in Hs.
      destruct (frame_facts S f outer Hs) as (_ & HfS & _). apply HfS.
      rewrite Heq. unfold S. apply elem_plug_l. set_solver. }
    assert (forall m1, zip m1 tp sz (fill (adj f) S) outer ->
      outside tp (elems (plug (fill f S) outer)) m m1 ->
      wp (loop fuel (adjust_body cmp e) (ptr S)) m1 (fun _ m' =>
        zip m' tp sz N (map adj (inner ++ [f]) ++ outer) /\
        outside tp (elems (plug N ((inner ++ [f]) ++ outer))) m m')) as Hrest.
    { intros m1 Hz1 Ho1. eapply wp_mono; [eapply (IH fuel m1 tp sz e (adj f :: outer))|].
      - eapply zip_move; [|exact Hz1]. by rewrite plug_app.
      - intros g Hg. apply Hpath. set_solver.
      - intros g Hg. apply Hb. set_solver.
      - lia.
      - intros _ m2 [Hz2 Ho2]. rewrite map_app, <- app_assoc. split; [done|].
        assert (elems (plug N (inner ++ adj f :: outer)) = elems (plug N ((inner ++ [f]) ++ outer))) as Hel.
        { rewrite <- app_assoc. cbn [app]. rewrite !plug_app. cbn [plug].
          rewrite !elems_plug. by destruct f. }
        fold N in Ho2; rewrite Hel in Ho2. eapply outside_trans; [|exact Ho2].
        rewrite <- app_assoc, plug_app. exact Ho1. }
    destruct f as [x b r|l x b]; cbn [fill fnode sgn_ok fbal adj] in *; unfold adjust_body at 1;
      rewrite (proj2 (Z.eqb_neq _ _) Hfe).
    + rewrite (proj2 (Z.ltb_lt _ _) Hsgn). apply wp_bind.
      eapply (wp_set_bal _ _ _ _ _ _ _ _ (fun b => b - 1)); [done|lia|]. intros m1 Hz1 Ho1.
      destruct (root_node _ _ _ _ _ _ _ _ Hz1) as [Hx0 Hx].
      apply wp_bind. eapply wp_rd; [done..|]. apply wp_ret. by apply Hrest.
    + rewrite (proj2 (Z.ltb_ge _ _)) by lia.
      apply wp_bind, wp_assert; [by apply Z.ltb_lt|]. apply wp_bind.
      eapply (wp_set_bal _ _ _ _ _ _ _ _ (fun b => b + 1)); [done|lia|]. intros m1 Hz1 Ho1.
      destruct (root_node _ _ _ _ _ _ _ _ Hz1) as [Hx0 Hx].
      apply wp_bind. eapply wp_rd; [done..|]. apply wp_ret. by apply Hrest.
Qed.

End insert.

(** ** The rotation at the prime *)

Lemma bal_and_no m tp sz l x b r c pb child cb (Q : bool -> amem -> Prop) :
  zip m tp sz (Node l x b r) c -> b <> pb -> Q false m -> wp (bal_and x pb child cb) m Q.
Proof.
  intros Hz Hb HQ. destruct (root_node _ _ _ _ _ _ _ _ Hz) as [Hx0 Hx].
  apply wp_bind. eapply wp_rd; [done..|]. cbn [_bal]. by rewrite (proj2 (Z.eqb_neq _ _) Hb).
Qed.

Lemma bal_and_child m tp sz f t c pb child cb (Q : bool -> amem -> Prop) :
  zip m tp sz t (f :: c) -> t <> Leaf -> fbal f = pb ->
  child (fhook (ptr t) (cpar 0 c) f) = ptr t ->
  Q (root_bal t =? cb) m -> wp (bal_and (fnode f) pb child cb) m Q.
Proof.
  intros Hz Ht Hb Hch HQ. destruct (parent_node _ _ _ _ _ _ Hz) as [Hf0 Hf].
  destruct (child_bal _ _ _ _ _ _ Hz Ht) as (Hc0 & n & Hn & Hnb).
  apply wp_bind. eapply wp_rd; [done..|].
  assert (_bal (fhook (ptr t) (cpar 0 c) f) = pb) as -> by (by destruct f).
  rewrite Z.eqb_refl. apply wp_bind. eapply wp_rd; [done..|]. rewrite Hch.
  apply wp_bind. eapply wp_rd; [done..|]. rewrite Hnb. by apply wp_ret.
Qed.

Lemma wp_either m (m1 m2 : M amem bool) (Q : bool -> amem -> Prop) (P : bool -> amem -> Prop) :
  wp m1 m P -> (forall s, P true s -> Q true s) -> (forall s, P false s -> wp m2 s Q) ->
  wp (either m1 m2) m Q.
Proof.
  intros H1 Ht Hf. apply wp_bind. eapply wp_mono; [exact H1|].
  intros [] s Hs; [apply wp_ret; auto|auto].
Qed.

(** No rotation is due. *)
Lemma insert_rotate_none m tp sz l x b r c (Q : Z -> amem -> Prop) :
  zip m tp sz (Node l x b r) c -> b <> 2 -> b <> -2 -> Q 0 m -> wp (insert_rotate x) m Q.
Proof.
  intros Hz H2 Hm2 HQ. destruct (root_node _ _ _ _ _ _ _ _ Hz) as [Hx0 Hx].
  apply wp_bind. eapply (wp_either _ _ _ _ (fun b s => b = false /\ s = m)).
  - by eapply bal_and_no.
  - by intros s [? _].
  - intros s [_ ->]. eapply bal_and_no; [done..|].
    apply wp_bind. eapply wp_rd; [done..|]. cbn [_bal].
    rewrite (proj2 (Z.eqb_neq _ _) H2), (proj2 (Z.eqb_neq _ _) Hm2). by apply wp_ret.
Qed.

(** A rotation is due, and the assertion on the child's balance holds. *)
Lemma insert_rotate_some m tp sz f t c :
  zip m tp sz t (f :: c) -> avl t -> avl (fsib f) -> fbal f = 2 * fdir f ->
  height t = height (fsib f) + 2 -> root_bal t <> 0 ->
  wp (insert_rotate (fnode f)) m (rebalanced m (fill f t) (root_bal t)).
Proof.
  intros Hz Ht Hs Hb Hh Hrb. pose proof (proj1 (zip_up _ _ _ _ _ _) Hz) as Hz0.
  assert (t <> Leaf) as Hne by (intros ->; pose proof (height_nonneg (fsib f)); cbn in Hh; lia).
  destruct (parent_node _ _ _ _ _ _ Hz) as [Hf0 Hf].
  assert (root_bal t = 1 \/ root_bal t = -1) as Hrb1.
  { destruct t; [done|]. cbn in *. lia. }
  destruct f as [x b r|l x b]; cbn [fill fnode fsib fdir fbal fhook] in *; subst b.
  - (* leaning left *)
    pose proof (rotate_left _ _ _ _ _ _ _ Hz0 Hs Ht Hh) as Hrot. unfold rotate in Hrot.
    assert (forall cb (Q : bool -> amem -> Prop), Q (root_bal t =? cb) m ->
      wp (bal_and x (2 * -1) _left cb) m Q) as Hba.
    { intros cb Q HQ. by eapply (bal_and_child _ _ _ (FL x (2 * -1) r) t). }
    apply wp_bind. eapply (wp_either _ _ _ _ (fun b s => b = false /\ s = m));
      [by eapply bal_and_no|by intros s [? _]|]. intros s [_ ->]. apply Hba.
    destruct (root_bal t =? 1) eqn:E; [exact Hrot|].
    apply wp_bind. eapply wp_rd; [done..|]. cbn [_bal]. apply wp_if_true; [done|].
    apply wp_bind. eapply (wp_either _ _ _ _ (fun b s => b = false /\ s = m));
      [by eapply bal_and_no|by intros s [? _]|]. intros s [_ ->]. apply Hba.
    apply wp_bind, wp_assert; [lia|]. exact Hrot.
  - (* leaning right *)
    pose proof (rotate_right _ _ _ _ _ _ _ Hz0 Hs Ht Hh) as Hrot. unfold rotate in Hrot.
    assert (forall cb (Q : bool -> amem -> Prop), Q (root_bal t =? cb) m ->
      wp (bal_and x (2 * 1) _right cb) m Q) as Hba.
    { intros cb Q HQ. by eapply (bal_and_child _ _ _ (FR l x (2 * 1)) t). }
    apply wp_bind. eapply (wp_either _ _ _ _ (fun b s => b = (root_bal t =? -1) /\ s = m)).
    { by apply Hba. }
    { intros s [E ->]. rewrite <- E in Hrot. exact Hrot. }
    intros s [E ->]. rewrite <- E in Hrot. eapply bal_and_no; [done..|].
    apply wp_bind. eapply wp_rd; [done..|]. cbn [_bal]. apply wp_if_true; [done|].
    apply wp_bind. eapply (wp_either _ _ _ _ (fun b s => b = (root_bal t =? 1) /\ s = m)).
    { by apply Hba. }
    { intros s [E2 ->]. apply wp_bind, wp_assert; [done|]. exact Hrot. }
    intros s [E2 ->]. eapply bal_and_no; [done..|].
    apply wp_bind, wp_assert; [lia|]. exact Hrot.
Qed.

(** The rotation, when one is due, restores the balance of the whole tree. *)
Lemma wp_insert_rotate {A} m tp sz t H fp outer (k : M amem A) (Q : A -> amem -> Prop) :
  zip m tp sz t (adj fp :: outer) -> avl t -> height t = H + 1 ->
  avl_ctx H (fp :: outer) -> (outer = [] \/ fbal fp <> 0) -> (H <> 0 -> root_bal t <> 0) ->
  0 <= H ->
  (forall m' t', zip m' tp sz t' [] -> avl t' -> elems t' = elems (plug t (adj fp :: outer)) ->
    outside tp (elems (plug t (adj fp :: outer))) m m' -> wp k m' Q) ->
  wp (new_prime ← insert_rotate (fnode fp);
      when (nonnull new_prime)
        (dfk__avltree_promote_prime (cdir outer) new_prime (cpar 0 outer) tp);; k) m Q.
Proof.
  intros Hz Ht Hh (Hsa & Hb & Hb1 & Hac) Htop Hrb H0 HQ.
  destruct (adj_facts fp) as (Hfn & Hfd & Hfs & Hfb).
  pose proof (proj1 (zip_up _ _ _ _ _ _) Hz) as Hz0. pose proof (height_nonneg (fsib fp)) as Hs0.
  destruct (decide (fbal fp = fdir fp)) as [Hlean|Hlean].
  - apply wp_bind. rewrite <- Hfn.
    assert (H = height (fsib fp) + 1) as HH by (destruct fp; cbn in *; lia).
    eapply wp_mono.
    { eapply (insert_rotate_some m tp sz (adj fp) t outer); rewrite ?Hfs, ?Hfd; first [done|lia]. }
    intros x m1 (new & Hrot & Hnew & Hel & Hne & Hhn). cbn beta.
    assert (nonnull x = true) as Hx.
    { destruct Hrot as (-> & _). apply nonnull_true, ptr_ne; [|done]. rewrite Hel. intros y Hy.
      destruct (sound_part _ _ (z_sound _ _ _ _ _ Hz0)) as (Hs & _). by apply (sound_nonzero _ _ Hs). }
    apply wp_bind, wp_when_true; [done|].
    eapply wp_mono; [eapply promote_spec; [exact Hz0|exact Hrot|done..]|].
    intros _ m2 [Hz2 Ho]. apply (HQ m2 (plug new outer)).
    + by apply zip_top in Hz2.
    + apply avl_plug. split; [done|]. rewrite Hhn.
      rewrite (proj2 (Z.eqb_neq _ _)) by (apply Hrb; lia).
      replace (height (fill (adj fp) t) - 1) with (1 + Z.max H (height (fsib fp))); [done|].
      destruct fp; cbn in *; lia.
    + change (plug t (adj fp :: outer)) with (plug (fill (adj fp) t) outer). rewrite !elems_plug. by rewrite Hel.
    + done.
  - assert (exists l b r, fill (adj fp) t = Node l (fnode fp) b r /\ b = fbal fp + fdir fp)
      as (l & b & r & Heq & Hbb).
    { destruct fp; cbn in *; do 3 eexists; (split; [done|lia]). }
    rewrite Heq in Hz0. apply wp_bind.
    eapply insert_rotate_none; [done|destruct fp; cbn in *; lia..|].
    apply wp_bind, wp_when_false; [done|]. apply (HQ m (plug (fill (adj fp) t) outer)).
    + apply zip_top in Hz0. by rewrite Heq.
    + apply avl_plug. split.
      * destruct fp; cbn in *; split_and!; first [done|lia].
      * destruct Htop as [-> |Hnz]; [done|].
        replace (height (fill (adj fp) t)) with (1 + Z.max H (height (fsib fp))); [done|].
        destruct fp; cbn in *; lia.
    + done.
    + apply outside_refl.
Qed.

(** ** The whole insertion *)

Definition inserted (m : amem) (tp e : Z) (t : tree) (pre suf : list Z) (m' : amem) : Prop :=
  exists t', tree_rep m' tp t' /\ avl t' /\ elems t' = pre ++ e :: suf /\
    outside tp (e :: elems t) m m'.

Lemma insert_empty m tp e :
  tree_rep m tp Leaf -> fresh_node m e Leaf ->
  inserted m tp e Leaf [] []
    (AMem (<[tp := AvlTree e 1]> (trees m)) (nodes m)).
Proof.
  intros Hrep (He & Hev & _). exists (Node Leaf e 0 Leaf). split_and!.
  - split; cbn; [by destruct Hrep|by simplify_map_eq|done| |].
    + apply NoDup_singleton.
    + intros x. rewrite list_elem_of_singleton. by intros ->.
  - done.
  - done.
  - split; cbn; [done|]. intros t Ht. by rewrite lookup_insert_ne.
Qed.

Lemma node_root m tp t : tree_rep m tp t -> t <> Leaf -> ptr t <> 0.
Proof.
  intros [_ _ _ _ Hv]. apply ptr_ne. intros x Hx. by apply valid_ne, Hv.
Qed.

(** From the memory in which the new node hangs at its place. *)
Lemma insert_finish cmp m1 tp sz e i0 fp outer pre suf (Q : Z -> amem -> Prop) fuel :
  zip m1 tp sz (Node Leaf e 0 Leaf) (i0 ++ fp :: outer) ->
  avl_ctx 0 (i0 ++ fp :: outer) -> path_ok cmp e (i0 ++ fp :: outer) -> zero_path i0 ->
  (outer = [] \/ fbal fp <> 0) -> lelems (i0 ++ fp :: outer) = pre -> relems (i0 ++ fp :: outer) = suf ->
  sz = Z.of_nat (length (pre ++ suf)) -> (length i0 + 1 < fuel)%nat ->
  (forall m' t', tree_rep m' tp t' -> avl t' -> elems t' = pre ++ e :: suf ->
     outside tp (e :: pre ++ suf) m1 m' -> Q e m') ->
  wp (loop fuel (adjust_body cmp e) (fnode fp);;
      new_prime ← insert_rotate (fnode fp);
      when (nonnull new_prime)
        (dfk__avltree_promote_prime (cdir outer) new_prime (cpar 0 outer) tp);;
      update trees_of tp (fun t => set_tsize (to_size (t_size t + 1)) t);;
      dfk__avltree_check_invariants tp;;
      mret e) m1 Q.
Proof.
  intros Hz Hac Hpath Hz0 Htop Hpre Hsuf Hsz Hfuel HQ.
  set (N := Node Leaf e 0 Leaf) in *. pose proof (proj1 (avl_ctx_app _ _ _) Hac) as [Hac0 Hacp].
  assert (elems (plug N (i0 ++ fp :: outer)) = pre ++ e :: suf) as HelN.
  { by rewrite elems_plug, Hpre, Hsuf. }
  pose proof (elems_adj N (i0 ++ [fp]) outer) as Hadj. rewrite <- app_assoc in Hadj. cbn [app] in Hadj.
  rewrite HelN, map_app, <- app_assoc, plug_app in Hadj. cbn [map app] in Hadj.
  apply wp_bind.
  replace (fnode fp) with (ptr (plug N (i0 ++ [fp]))) at 1 by (rewrite plug_app; by destruct fp).
  eapply wp_mono.
  { eapply (adjust_loop cmp (i0 ++ [fp]) fuel m1 tp sz e outer).
    - by rewrite <- app_assoc.
    - intros f Hf. apply Hpath. set_solver.
    - intros f [Hf|Hf]%elem_of_app; [rewrite (Hz0 f Hf); lia|].
      apply list_elem_of_singleton in Hf as ->. destruct Hacp as (_ & _ & Hb & _). lia.
    - rewrite length_app. cbn. lia. }
  intros _ m2 [Hz2 Ho2]. cbn beta. rewrite <- app_assoc in Ho2. cbn [app] in Ho2. fold N in Ho2. rewrite HelN in Ho2.
  rewrite map_app, <- app_assoc in Hz2. cbn [map app] in Hz2. fold N in Hz2.
  assert (zip m2 tp sz (plug N (map adj i0)) (adj fp :: outer)) as Hz3.
  { eapply zip_move; [|exact Hz2]. by rewrite plug_app. }
  destruct (grow_zero i0 0 N) as (Ha & Hh & Hr); [done..|].
  eapply (wp_insert_rotate m2 tp sz (plug N (map adj i0)) (cheight 0 i0)); try done.
  { intros Hne. apply Hr. by intros ->. }
  { clear. pose proof (height_plug Leaf i0) as Hh. cbn in Hh. rewrite <- Hh. apply height_nonneg. }
  rewrite Hadj. intros m3 T Hz4 HaT HelT Ho3.
  destruct Hz4 as [Htp Hobj3 Har3 _ Hs3]. cbn [ctop plug cpar] in *.
  apply wp_bind. eapply wp_update; [done..|]. set (m4 := hset trees_of _ _).
  assert (tree_rep m4 tp T) as Hrep4.
  { split; cbn; [done| |done|by apply Hs3|by apply Hs3]. rewrite lookup_insert_eq. unfold set_tsize. cbn.
    do 2 f_equal. pose proof (nodup_valid_length _ (proj1 Hs3) (proj2 Hs3)) as Hlt.
    rewrite HelT, Hsz in *. rewrite !length_app in *. cbn [length] in *. rewrite to_size_small; lia. }
  apply wp_checks; [by eapply checks_tree|]. intros _. apply wp_ret. apply (HQ m4 T); [done..|].
  assert (forall a a', outside tp (pre ++ e :: suf) a a' -> outside tp (e :: pre ++ suf) a a') as Hmono.
  { intros a a'. apply outside_mono. set_solver. }
  eapply outside_trans; [by apply Hmono|]. eapply outside_trans; [by apply Hmono|].
  split; [done|]. intros tp' Htp'. cbn. by rewrite lookup_insert_ne.
Qed.

(** Insertion of a node that compares to none as equal, and of one that does. *)
Lemma dfk_avltree_insert_spec cmp m tp t e pre mid suf :
  tree_rep m tp t -> avl t -> fresh_node m e t -> cut_at (fun x => cmp x e) (elems t) pre mid suf ->
  wp (dfk_avltree_insert cmp tp e) m (fun res m' =>
    if decide (mid = []) then res = e /\ inserted m tp e t pre suf m'
    else res = 0 /\ m' = m).
Proof.
  intros Hrep Hav Hfr Hcut. pose proof Hfr as (He & Hev & Hin). pose proof (valid_ne _ Hev) as He0.
  pose proof (tr_obj _ _ _ Hrep) as Hobj. pose proof (tr_ne _ _ _ Hrep) as Htp.
  unfold dfk_avltree_insert. apply wp_checks; [by eapply checks_tree|intros _].
  avl_steps.
  destruct (decide (t = Leaf)) as [->|Hne].
  - apply wp_if_true; [done|]. cbn [elems] in Hcut. destruct Hcut as [Heq _ _ _].
    destruct pre as [|? ?]; [|done]. destruct mid as [|? ?]; [|done]. destruct suf; [|done].
    avl_steps. rewrite insert_insert_eq, decide_True by done. split; [done|]. by apply insert_empty.
  - pose proof (node_root _ _ _ Hrep Hne) as Hr0. apply wp_if_false; [ptr_cond|].
    apply wp_bind, wp_gets, wp_bind.
    pose proof (proj2 (zip_rep m tp t []) Hrep) as Hz. cbn [plug] in Hz.
    pose proof (arep_size _ _ _ (tr_nodup _ _ _ Hrep) (tr_nodes _ _ _ Hrep)) as Hsz.
    set (fuel := S (S (size (nodes m)))).
    eapply wp_mono.
    { eapply (descend_loop cmp fuel m tp _ e t t [] []); try done.
      - intros f Hf. set_solver.
      - split; cbn; auto.
      - unfold fuel. lia. }
    intros [[[prime pp] dir]|] m1.
    + intros (i0 & fp & outer & HT & Hz1 & Hpath & Hz0 & Htop & -> & -> & -> & Ho).
      assert (elems t = lelems (i0 ++ fp :: outer) ++ relems (i0 ++ fp :: outer)) as HelT.
      { by rewrite HT, elems_plug. }
      rewrite HelT in Hcut. destruct (cut_leaf _ _ _ _ _ _ Hpath Hcut) as (-> & Hpre & Hsuf).
      rewrite HT in Hav. apply avl_plug in Hav as [_ Hac]. cbn [height] in Hac.
      rewrite HelT, Hpre, Hsuf in Ho, Hsz.
      eapply insert_finish; try done.
      { by rewrite HelT, Hpre, Hsuf. }
      { pose proof (ctx_length Leaf (i0 ++ fp :: outer)) as Hl. rewrite <- HT, HelT in Hl.
        rewrite length_app in Hl. cbn in Hl. rewrite Hpre, Hsuf in Hl. unfold fuel. lia. }
      intros m' t' Hrep' Hav' Hel' Ho'. rewrite decide_True by done. split; [done|].
      exists t'. split_and!; [done..|]. rewrite HelT, Hpre, Hsuf. by eapply outside_trans.
    + intros (-> & x & Hx & Hcx). apply wp_ret. rewrite decide_False; [done|]. intros ->.
      destruct Hcut as [Heq Hp _ Hs]. rewrite Heq in Hx. cbn in Hx.
      apply elem_of_app in Hx as [Hx%Hp|Hx%Hs]; lia.
Qed.
