(* ===== verification/AvlIter.v ===== *)
(** * Search and iteration in the AVL trees

    [dfk_avltree_find] ends after as many turns as the tree is high, which is
    logarithmic in the number of nodes; the iterators visit the nodes in
    order, and the linear-time size counts them. *)

From S2P Require Import Prelude Avl AvlTree AvlRot AvlZip.

(** ** Search *)

Lemma cut_left c l x r pre mid suf :
  cut_at c (l ++ x :: r) pre mid suf -> c x < 0 ->
  exists suf', cut_at c l pre mid suf'.
Proof.
  intros [Heq Hp Hm Hs] Hx. rewrite app_assoc in Heq.
  apply app_eq_inv in Heq as [(k & Hl & Hk)|(k & Hl & Hk)].
  - exists k. split; [by rewrite Hl, app_assoc|done..|]. intros y Hy. apply Hs. rewrite Hk. set_solver.
  - destruct k as [|z k]; cbn in Hk.
    + rewrite app_nil_r in Hl. exists []. split; [by rewrite app_nil_r|done..|].
      intros y Hy. by apply not_elem_of_nil in Hy.
    + injection Hk as <- Hk. assert (x ∈ pre ++ mid) as [Hin%Hp|Hin%Hm]%elem_of_app; [|lia..].
      rewrite Hl. set_solver.
Qed.

Lemma cut_right c l x r pre mid suf :
  cut_at c (l ++ x :: r) pre mid suf -> 0 < c x ->
  exists pre', cut_at c r pre' mid suf.
Proof.
  intros [Heq Hp Hm Hs] Hx.
  apply app_eq_inv in Heq as [(k & Hl & Hk)|(k & Hl & Hk)].
  - assert (x ∈ mid ++ suf) as [Hin%Hm|Hin%Hs]%elem_of_app; [|lia..]. rewrite Hk. set_solver.
  - destruct k as [|z k]; cbn in Hk.
    + assert (x ∈ mid ++ suf) as [Hin%Hm|Hin%Hs]%elem_of_app; [|lia..]. rewrite <- Hk. set_solver.
    + injection Hk as <- Hk. exists k. split; [done| |done..]. intros y Hy. apply Hp. rewrite Hl. set_solver.
Qed.

Lemma find_loop c m t : forall p pre mid suf fuel,
  arep (nodes m) p t -> (forall x, x ∈ elems t -> x <> 0) -> cut_at c (elems t) pre mid suf ->
  height t < Z.of_nat fuel ->
  wp (loop fuel (find_body c) (ptr t)) m (fun res m' => m' = m /\
    if decide (mid = []) then res = 0 else res ∈ mid).
Proof.
  induction t as [|l IHl x b r IHr]; intros p pre mid suf [|fuel] Hr Hv Hc Hf;
    try (cbn in Hf; try pose proof (height_nonneg l); lia); apply wp_bind.
  - apply wp_ret, wp_ret. split; [done|]. destruct Hc as [Heq _ _ _]. cbn in Heq.
    destruct pre; [|done]. destruct mid; done.
  - cbn [elems ptr height] in *. destruct Hr as (Hx & Hl & Hr).
    assert (x <> 0) by (apply Hv; set_solver).
    unfold find_body at 1. apply wp_if_false; [ptr_cond|].
    destruct (Z.ltb_spec (c x) 0) as [Hlt|Hge].
    + apply wp_bind. eapply wp_rd; [done..|]. apply wp_ret.
      destruct (cut_left _ _ _ _ _ _ _ Hc Hlt) as [suf' Hc'].
      eapply IHl; [done|set_solver|done|lia].
    + destruct (Z.ltb_spec 0 (c x)) as [Hgt|Hle].
      * apply wp_bind. eapply wp_rd; [done..|]. apply wp_ret.
        destruct (cut_right _ _ _ _ _ _ _ Hc Hgt) as [pre' Hc'].
        eapply IHr; [done|set_solver|done|lia].
      * apply wp_ret, wp_ret. split; [done|]. destruct Hc as [Heq Hp Hm Hs].
        assert (x ∈ pre ++ mid ++ suf) as Hin by (rewrite <- Heq; set_solver).
        apply elem_of_app in Hin as [Hin%Hp|[Hin|Hin%Hs]%elem_of_app]; [lia| |lia].
        rewrite decide_False; [done|]. intros ->. by apply not_elem_of_nil in Hin.
Qed.

Lemma dfk_avltree_find_spec c m tp t pre mid suf :
  tree_rep m tp t -> avl t -> cut_at c (elems t) pre mid suf ->
  wp (dfk_avltree_find c tp) m (fun res m' => m' = m /\
    if decide (mid = []) then res = 0 else res ∈ mid).
Proof.
  intros Hrep Hav Hc. apply wp_checks; [by eapply checks_tree|intros _].
  pose proof (tr_ne _ _ _ Hrep). pose proof (tr_obj _ _ _ Hrep).
  avl_steps. cbn [_root]. eapply find_loop; [apply Hrep| |exact Hc|].
  - intros x Hx. by apply valid_ne, (tr_valid _ _ _ Hrep).
  - pose proof (arep_size _ _ _ (tr_nodup _ _ _ Hrep) (tr_nodes _ _ _ Hrep)).
    pose proof (height_length t). lia.
Qed.

(** ** Height *)

(** A tree of height [h] holds at least [2^(h/2) - 1] nodes. *)
Lemma avl_height_size t : avl t -> 2 ^ (height t) <= (Z.of_nat (length (elems t)) + 1) ^ 2.
Proof.
  induction t as [|l IHl x b r IHr]; [done|]. intros (Hl & Hr & Hb & Hb1).
  specialize (IHl Hl). specialize (IHr Hr). cbn [height elems]. rewrite length_app. cbn [length].
  pose proof (height_nonneg l). pose proof (height_nonneg r).
  set (n := Z.of_nat (length (elems l))) in *. set (k := Z.of_nat (length (elems r))) in *.
  assert (0 <= n) by (unfold n; lia). assert (0 <= k) by (unfold k; lia).
  replace (Z.of_nat (length (elems l) + S (length (elems r))) + 1) with ((n + 1) + (k + 1)) by (unfold n, k; lia).
  assert (forall hi lo N K, 0 <= lo -> hi <= lo + 1 -> lo <= hi -> 0 <= N -> 0 <= K ->
    2 ^ hi <= (N + 1) ^ 2 -> 2 ^ lo <= (K + 1) ^ 2 -> 2 ^ (1 + hi) <= ((N + 1) + (K + 1)) ^ 2) as Hgen.
  { intros hi lo N K Hlo Hd Hle HN HK Hb1' Hb2'.
    rewrite Z.pow_add_r by lia. change (2 ^ 1) with 2.
    assert (2 ^ hi <= 2 * 2 ^ lo) as Hhl.
    { rewrite <- Z.pow_succ_r by lia. apply Z.pow_le_mono_r; lia. }
    rewrite !Z.pow_2_r in *. nia. }
  destruct (Z.max_spec (height l) (height r)) as [[? ->]|[? ->]].
  - rewrite (Z.add_comm (n + 1)). eapply (Hgen _ (height l)); try done; lia.
  - eapply (Hgen _ (height r)); try done; lia.
Qed.

Lemma avl_height_log t : avl t ->
  height t <= 2 * Z.log2 (Z.of_nat (length (elems t)) + 1) + 1.
Proof.
  intros Hav. pose proof (avl_height_size t Hav) as Hs. pose proof (height_nonneg t).
  set (n := Z.of_nat (length (elems t)) + 1) in *. assert (0 < n) by (unfold n; lia).
  destruct (Z.log2_spec n ltac:(done)) as [_ Hlog]. pose proof (Z.log2_nonneg n).
  assert (2 ^ height t < 2 ^ (2 * (Z.log2 n + 1))) as Hlt.
  { eapply Z.le_lt_trans; [exact Hs|]. rewrite Z.mul_comm, Z.pow_mul_r by lia.
    apply Z.pow_lt_mono_l; lia. }
  apply Z.pow_lt_mono_r_iff in Hlt; lia.
Qed.

(** ** Iteration *)

Lemma leftmost_loop m t : forall p fuel,
  arep (nodes m) p t -> (forall x, x ∈ elems t -> x <> 0) -> t <> Leaf ->
  height t < Z.of_nat fuel ->
  wp (loop fuel leftmost_body (ptr t)) m (fun res m' => m' = m /\ head (elems t) = Some res).
Proof.
  induction t as [|l IHl x b r IHr]; intros p fuel Hr Hv Hne Hf; [done|].
  destruct fuel as [|fuel]; [pose proof (height_nonneg (Node l x b r)); lia|].
  apply wp_bind. cbn [elems ptr height] in *. destruct Hr as (Hx & Hl & Hr).
  assert (x <> 0) by (apply Hv; set_solver).
  apply wp_bind. eapply wp_rd; [done..|]. cbn [_left].
  destruct (decide (l = Leaf)) as [->|Hln].
  - apply wp_if_false; [done|]. by apply wp_ret, wp_ret.
  - assert (ptr l <> 0) by (apply ptr_ne; set_solver).
    apply wp_if_true; [ptr_cond|]. apply wp_ret.
    eapply wp_mono; [eapply IHl; [done|set_solver|done|lia]|].
    intros res m' [-> Hh]. split; [done|]. destruct (elems l); [done|]. exact Hh.
Qed.

Lemma leftmost_spec m p t : arep (nodes m) p t -> sound_tree t -> t <> Leaf ->
  wp (leftmost (ptr t)) m (fun res m' => m' = m /\ head (elems t) = Some res).
Proof.
  intros Hr Hs Hne. apply wp_bind, wp_gets. eapply leftmost_loop; [done| |done|].
  - intros x Hx. by apply (sound_nonzero t).
  - pose proof (arep_size _ _ _ (proj1 Hs) Hr). pose proof (height_length t). lia.
Qed.

(** The way up ends at the first ancestor that lies after the position. *)
Lemma climb_loop c : forall m tp sz t fuel,
  zip m tp sz t c -> t <> Leaf -> (length c < fuel)%nat ->
  wp (loop fuel climb_body (ptr t)) m (fun v m' => m' = m /\
    exists t' c', t' <> Leaf /\ v = ptr t' /\ zip m tp sz t' c' /\
      cpar 0 c' = head_or 0 (relems c)).
Proof.
  induction c as [|f c IH]; intros m tp sz t [|fuel] Hz Ht Hf; try (cbn in Hf; lia); apply wp_bind;
    destruct t as [|l x b r]; try done; destruct (root_node _ _ _ _ _ _ _ _ Hz) as [Hx0 Hx];
    cbn [ptr]; unfold climb_body at 1; apply wp_bind; (eapply wp_rd; [done..|]); cbn [_parent cpar].
  - apply wp_if_false; [done|]. apply wp_ret, wp_ret. split; [done|].
    by exists (Node l x b r), [].
  - destruct (parent_node _ _ _ _ _ _ Hz) as [Hf0 Hfn].
    pose proof (sibling_ptr _ _ _ _ _ _ Hz ltac:(done)) as Hne. cbn [ptr] in Hne.
    apply wp_if_true; [ptr_cond|]. apply wp_bind. eapply wp_rd; [done..|].
    destruct f as [y fb rr|ll y fb]; cbn [fhook _right fnode fsib] in *.
    + rewrite (proj2 (Z.eqb_neq _ _) Hne). apply wp_ret, wp_ret. split; [done|].
      by exists (Node l x b r), (FL y fb rr :: c).
    + cbn [ptr]. rewrite Z.eqb_refl. apply wp_ret.
      apply (IH m tp sz (Node ll y fb (Node l x b r))); [by apply zip_up in Hz|done|cbn in Hf; lia].
Qed.

Lemma dfk_avltree_it_next_spec m tp t x pre suf :
  tree_rep m tp t -> elems t = pre ++ x :: suf ->
  wp (dfk_avltree_it_next x) m (fun res m' => m' = m /\ res = head_or 0 suf).
Proof.
  intros Hrep Hel. pose proof (tr_nodup _ _ _ Hrep) as Hnd.
  destruct (tree_split x t) as (l & b & r & c & ->); [rewrite Hel; set_solver|].
  assert (elems r ++ relems c = suf) as Hsuf.
  { rewrite elems_plug in Hel, Hnd. cbn [elems] in Hel, Hnd.
    rewrite <- app_assoc in Hel, Hnd. cbn in Hel, Hnd. rewrite app_assoc in Hel, Hnd.
    by destruct (NoDup_mid_inj _ _ _ _ _ Hnd Hel). }
  pose proof (proj2 (zip_rep _ _ _ _) Hrep) as Hz.
  destruct (root_node _ _ _ _ _ _ _ _ Hz) as [Hx0 Hx].
  pose proof (sound_part _ _ (z_sound _ _ _ _ _ Hz)) as (Hst & _).
  unfold dfk_avltree_it_next. avl_steps. cbn [_right]. destruct (decide (r = Leaf)) as [->|Hne].
  - apply wp_if_false; [done|]. apply wp_bind, wp_gets, wp_bind.
    pose proof (ctx_length (Node l x b Leaf) c) as Hlen.
    pose proof (arep_size _ _ _ Hnd (tr_nodes _ _ _ Hrep)) as Hsz.
    eapply wp_mono; [eapply (climb_loop c m tp _ (Node l x b Leaf)); [done..|lia]|].
    intros v m' (-> & t' & c' & Ht' & -> & Hz' & Hc'). cbn beta.
    destruct t' as [|l' x' b' r']; [done|]. destruct (root_node _ _ _ _ _ _ _ _ Hz') as [Hx'0 Hx'].
    eapply wp_rd; [done..|]. split; [done|]. cbn [_parent]. by rewrite Hc', <- Hsuf.
  - assert (sound_tree r) as Hsr.
    { destruct Hst as [Hnd' Hv']. cbn in Hnd', Hv'. sep. by split. }
    pose proof (z_tree _ _ _ _ _ Hz) as (_ & _ & Hr).
    assert (ptr r <> 0) by (apply ptr_ne; [|done]; intros y; by apply sound_nonzero).
    apply wp_if_true; [ptr_cond|]. eapply wp_mono; [by eapply leftmost_spec|].
    intros res m' [-> Hh]. split; [done|]. rewrite <- Hsuf. destruct (elems r); [done|].
    cbn in *. congruence.
Qed.

Lemma dfk_avltree_begin_spec m tp t : tree_rep m tp t -> avl t ->
  wp (dfk_avltree_begin tp) m (fun res m' => m' = m /\ res = head_or 0 (elems t)).
Proof.
  intros Hrep Hav. unfold dfk_avltree_begin. apply wp_checks; [by eapply checks_tree|intros _].
  pose proof (tr_ne _ _ _ Hrep). pose proof (tr_obj _ _ _ Hrep). avl_step. avl_step. avl_step.
  assert (wp (if nonnull (ptr t) then leftmost (ptr t) else mret (ptr t)) m
    (fun res m' => m' = m /\ res = head_or 0 (elems t))) as Hit.
  { destruct (decide (t = Leaf)) as [->|Hne]; [by apply wp_if_false|].
    assert (sound_tree t) as Hs by (split; apply Hrep).
    assert (ptr t <> 0) by (apply ptr_ne; [|done]; intros y; by apply sound_nonzero).
    apply wp_if_true; [ptr_cond|]. eapply wp_mono; [eapply leftmost_spec; [apply Hrep|done..]|].
    intros res m' [-> Hh]. split; [done|]. unfold head_or. by rewrite Hh. }
  cbn [_root]. eapply wp_mono; [exact Hit|]. intros it m' [-> ->]. cbn beta.
  apply wp_checks; [by eapply checks_tree|intros _]. by apply wp_ret.
Qed.

Lemma dfk_avltree_end_spec m tp t : tree_rep m tp t -> avl t ->
  wp (dfk_avltree_end tp) m (fun res m' => m' = m /\ res = 0).
Proof.
  intros Hrep Hav. do 2 (apply wp_checks; [by eapply checks_tree|intros _]). by apply wp_ret.
Qed.

Lemma walk_loop m tp t : tree_rep m tp t ->
  forall suf pre fuel, elems t = pre ++ suf -> (length suf < fuel)%nat ->
  wp (loop fuel (walk_body 0) (head_or 0 suf, pre)) m (fun res m' => m' = m /\ res = elems t).
Proof.
  intros Hrep. induction suf as [|x suf IH]; intros pre [|fuel] Hel Hf; try (cbn in Hf; lia); apply wp_bind.
  - apply wp_ret. split; [done|]. by rewrite Hel, app_nil_r.
  - assert (x <> 0) as Hx by (apply valid_ne, (tr_valid _ _ _ Hrep); rewrite Hel; set_solver).
    cbn [head_or head default]. unfold walk_body at 1, dfk_avltree_it_equal.
    apply wp_bind, wp_ret. apply wp_if_false; [by apply Z.eqb_neq|]. apply wp_bind.
    eapply wp_mono; [by eapply dfk_avltree_it_next_spec|]. intros it m' [-> ->]. cbn beta.
    apply wp_ret, IH; [by rewrite <- app_assoc|cbn in Hf; lia].
Qed.

Lemma walk_spec m tp t fuel : tree_rep m tp t -> avl t -> (length (elems t) < fuel)%nat ->
  wp (walk fuel tp) m (fun res m' => m' = m /\ res = elems t).
Proof.
  intros Hrep Hav Hf. apply wp_bind. eapply wp_mono; [by eapply dfk_avltree_begin_spec|].
  intros it m' [-> ->]. apply wp_bind. eapply wp_mono; [by eapply dfk_avltree_end_spec|].
  intros en m' [-> ->]. by apply (walk_loop m tp t).
Qed.

Lemma size_linear_spec m tp t fuel : tree_rep m tp t -> avl t -> (length (elems t) < fuel)%nat ->
  wp (size_linear fuel tp) m (fun res m' => m' = m /\ res = Z.of_nat (length (elems t))).
Proof.
  intros Hrep Hav Hf. apply wp_bind. eapply wp_mono; [by apply (walk_spec _ _ t)|].
  intros xs m' [-> ->]. apply wp_ret. split; [done|]. apply to_size_small.
  pose proof (nodup_valid_length _ (tr_nodup _ _ _ Hrep) (tr_valid _ _ _ Hrep)). lia.
Qed.

Lemma dfk_avltree_size_spec m tp t : tree_rep m tp t -> avl t ->
  wp (dfk_avltree_size tp) m (fun res m' => m' = m /\ res = Z.of_nat (length (elems t))).
Proof.
  intros Hrep Hav. apply wp_checks; [by eapply checks_tree|intros _].
  pose proof (tr_ne _ _ _ Hrep). pose proof (tr_obj _ _ _ Hrep). by avl_steps.
Qed.
