(* ===== verification/AvlSim.v ===== *)
(** * Programs over one AVL tree

    The order a comparator defines, the abstract sorted sequence a tree stands
    for, programs of tree operations, and their refinement: whatever the
    memory, a program that inserts fresh nodes and erases members runs without
    fault and returns what the sorted sequence says. *)

From stdpp Require Export sorting.
From S2P Require Import Prelude Avl AvlTree AvlRot AvlZip AvlErase AvlInsert AvlIter.

Open Scope Z_scope.

(** ** Search in a sequence *)

Definition abs_find (c : Z -> Z) (xs : list Z) : Z :=
  default 0 (head (filter (fun x => c x = 0) xs)).

Lemma abs_find_cut c xs pre mid suf : cut_at c xs pre mid suf -> (length mid <= 1)%nat ->
  (mid = [] /\ abs_find c xs = 0) \/ (mid = [abs_find c xs]).
Proof.
  intros [-> Hp Hm Hs] Hlen. unfold abs_find. rewrite !filter_app.
  assert (filter (fun x => c x = 0) pre = [] /\ filter (fun x => c x = 0) suf = []) as [-> ->].
  { split; apply filter_none; intros x Hx; [specialize (Hp x Hx)|specialize (Hs x Hx)]; lia. }
  destruct mid as [|x [|]]; [by left| |cbn in Hlen; lia]. right.
  by rewrite filter_cons_True by (apply Hm; set_solver).
Qed.

(** ** Comparators *)

(** [cmp x y] is positive when [x] comes first: a total preorder. *)
Class Comparator (cmp : Z -> Z -> Z) := {
  cmp_sign x y : Z.sgn (cmp y x) = - Z.sgn (cmp x y);
  cmp_trans x y z : 0 <= cmp x y -> 0 <= cmp y z -> 0 <= cmp x z
}.

Section order.
Context (cmp : Z -> Z -> Z) `{!Comparator cmp}.

Definition before (x y : Z) : Prop := 0 < cmp x y.
Definition sorted (xs : list Z) : Prop := StronglySorted before xs.

Lemma cmp_flip x y : 0 < cmp x y <-> cmp y x < 0.
Proof.
  pose proof (cmp_sign x y). destruct (Z.sgn_spec (cmp x y)), (Z.sgn_spec (cmp y x)); lia.
Qed.
Lemma cmp_flip_le x y : 0 <= cmp x y <-> cmp y x <= 0.
Proof. pose proof (cmp_flip y x). lia. Qed.
Lemma before_le x y z : 0 < cmp x y -> 0 <= cmp y z -> 0 < cmp x z.
Proof.
  intros Hxy Hyz. destruct (Z.ltb_spec 0 (cmp x z)) as [|Hle]; [done|].
  apply cmp_flip_le in Hle. pose proof (cmp_trans y z x Hyz Hle) as H.
  apply cmp_flip_le in H. lia.
Qed.
Lemma le_before x y z : 0 <= cmp x y -> 0 < cmp y z -> 0 < cmp x z.
Proof.
  intros Hxy Hyz. destruct (Z.ltb_spec 0 (cmp x z)) as [|Hle]; [done|].
  apply cmp_flip_le in Hle. pose proof (cmp_trans z x y Hle Hxy) as H.
  apply cmp_flip_le in H. lia.
Qed.

(** ** Insertion into a sorted sequence *)

Fixpoint abs_insert (e : Z) (xs : list Z) : list Z :=
  match xs with
  | [] => [e]
  | x :: xs' =>
      if cmp x e <? 0 then e :: xs
      else if 0 <? cmp x e then x :: abs_insert e xs' else xs
  end.

(** A sorted sequence is cut by every value. *)
Lemma sorted_cut k xs : sorted xs ->
  exists pre mid suf, cut_at (fun x => cmp x k) xs pre mid suf /\ (length mid <= 1)%nat.
Proof.
  induction xs as [|x xs IH].
  - intros _. exists [], [], []. split; [|cbn; lia]. split; [done|..]; intros y Hy; by apply not_elem_of_nil in Hy.
  - intros [Hs Hx]%StronglySorted_inv. rewrite Forall_forall in Hx. unfold before in Hx.
    destruct (Z.lt_trichotomy (cmp x k) 0) as [Hlt|[Heq|Hgt]].
    + exists [], [], (x :: xs). split; [|cbn; lia]. split; [done|by intros y ?%not_elem_of_nil..|].
      intros y [->|Hy]%elem_of_cons; [done|]. apply cmp_flip.
      apply (before_le k x y); [by apply cmp_flip|]. specialize (Hx y Hy). lia.
    + exists [], [x], xs. split; [|cbn; lia]. split; [done|by intros y ?%not_elem_of_nil| |].
      * by intros y ->%list_elem_of_singleton.
      * intros y Hy. apply cmp_flip. apply (le_before k x y); [|by apply Hx].
        apply cmp_flip_le. lia.
    + destruct (IH Hs) as (pre & mid & suf & [He Hp Hm Hsf] & Hlen).
      exists (x :: pre), mid, suf. split; [|done]. split; [by rewrite He| |done..].
      intros y [->|Hy]%elem_of_cons; [done|auto].
Qed.

Lemma abs_insert_cut e xs : forall pre mid suf, cut_at (fun x => cmp x e) xs pre mid suf ->
  abs_insert e xs = if decide (mid = []) then pre ++ e :: suf else xs.
Proof.
  induction xs as [|x xs IH]; intros pre mid suf [Heq Hp Hm Hs].
  - destruct pre, mid, suf; done.
  - cbn [abs_insert]. destruct pre as [|y pre]; cbn in Heq.
    + destruct mid as [|y mid]; cbn in Heq.
      * subst suf. rewrite decide_True by done. specialize (Hs x ltac:(set_solver)).
        by rewrite (proj2 (Z.ltb_lt _ _)) by done.
      * injection Heq as <- Heq. specialize (Hm x ltac:(set_solver)).
        rewrite decide_False by done. cbn in Hm. by rewrite Hm.
    + injection Heq as <- Heq. specialize (Hp x ltac:(set_solver)) as Hpx. cbn in Hpx.
      rewrite (proj2 (Z.ltb_ge _ _)), (proj2 (Z.ltb_lt _ _)) by lia.
      rewrite (IH pre mid suf); [by case_decide|]. split; [done|..|done|done].
      intros z Hz. apply Hp. set_solver.
Qed.

Lemma sorted_app xs ys : sorted (xs ++ ys) <->
  sorted xs /\ sorted ys /\ (forall x y, x ∈ xs -> y ∈ ys -> before x y).
Proof.
  unfold sorted. induction xs as [|x xs IH]; cbn.
  - split; [|by intros (_ & ? & _)]. intros H. split_and!; [constructor|done|].
    by intros ? ? ?%not_elem_of_nil.
  - split.
    + intros [(H1 & H2 & H3)%IH H4%Forall_app]%StronglySorted_inv. destruct H4 as [H4 H5].
      split_and!; [by constructor|done|]. rewrite Forall_forall in H5.
      intros a b [->|Ha]%elem_of_cons Hb; auto.
    + intros ([H1 H4]%StronglySorted_inv & H2 & H3). constructor.
      * apply IH. split_and!; [done..|]. intros a b Ha. apply H3. set_solver.
      * apply Forall_app. split; [done|]. apply Forall_forall. intros b. apply H3. set_solver.
Qed.

Lemma abs_insert_sorted e xs : sorted xs -> sorted (abs_insert e xs).
Proof.
  intros Hs. destruct (sorted_cut e xs Hs) as (pre & mid & suf & Hc & _).
  rewrite (abs_insert_cut _ _ _ _ _ Hc). case_decide as Hm; [|done]. subst mid.
  destruct Hc as [-> Hp _ Hsf]. cbn in Hs. apply sorted_app in Hs as (H1 & H2 & H3).
  apply sorted_app. split_and!; [done| |].
  - constructor; [done|]. apply Forall_forall. intros y Hy. apply cmp_flip. auto.
  - intros x y Hx [->|Hy]%elem_of_cons; [by apply Hp|auto].
Qed.

Lemma sorted_remove pre x suf : sorted (pre ++ x :: suf) -> sorted (pre ++ suf).
Proof.
  intros (H1 & [H2 _]%StronglySorted_inv & H3)%sorted_app. apply sorted_app.
  split_and!; [done..|]. intros a b Ha Hb. apply H3; set_solver.
Qed.
End order.

(** ** Programs *)
Section programs.
Context (cmp : Z -> Z -> Z).

Inductive avl_cmd :=
| AInsert (e : Z)
| AErase (e : Z)
| AFind (k : Z)
| ASize
| AWalk (bound : nat).

(** The node to insert is initialised first, as [avltree.h] asks for. *)
Definition run_avl_cmd (tree : Z) (c : avl_cmd) : M amem (list Z) :=
  match c with
  | AInsert e => dfk_avltree_hook_init e;; r ← dfk_avltree_insert cmp tree e; mret [r]
  | AErase e => dfk_avltree_erase tree e;; mret []
  | AFind k => r ← dfk_avltree_find (fun x => cmp x k) tree; mret [r]
  | ASize => r ← dfk_avltree_size tree; mret [r]
  | AWalk bound => walk bound tree
  end.

Fixpoint run_avl_cmds (tree : Z) (cs : list avl_cmd) : M amem (list (list Z)) :=
  match cs with
  | [] => mret []
  | c :: cs => r ← run_avl_cmd tree c; rs ← run_avl_cmds tree cs; mret (r :: rs)
  end.

(** [None] where a command violates a precondition of [avltree.h]. *)
Definition abs_avl_step (xs : list Z) (c : avl_cmd) : option (list Z * list Z) :=
  match c with
  | AInsert e =>
      if decide (valid_addr e /\ e ∉ xs) then
        Some (abs_insert cmp e xs,
              [if decide (abs_find (fun x => cmp x e) xs = 0) then e else 0])
      else None
  | AErase e =>
      if decide (e ∈ xs) then Some (filter (fun x => x <> e) xs, []) else None
  | AFind k => Some (xs, [abs_find (fun x => cmp x k) xs])
  | ASize => Some (xs, [Z.of_nat (length xs)])
  | AWalk bound => if decide (length xs < bound)%nat then Some (xs, xs) else None
  end.

Fixpoint abs_avl_steps (xs : list Z) (cs : list avl_cmd) : option (list Z * list (list Z)) :=
  match cs with
  | [] => Some (xs, [])
  | c :: cs =>
      '(xs', o) ← abs_avl_step xs c;
      '(xs'', os) ← abs_avl_steps xs' cs;
      Some (xs'', o :: os)
  end.

(** The tree object at [tp] stands for the sequence [xs]. *)
Definition avl_rep (m : amem) (tp : Z) (xs : list Z) : Prop :=
  exists t, tree_rep m tp t /\ avl t /\ elems t = xs /\ sorted cmp xs.

Lemma filter_split (pre suf : list Z) e : NoDup (pre ++ e :: suf) ->
  filter (fun x => x <> e) (pre ++ e :: suf) = pre ++ suf.
Proof.
  intros Hnd. sep. rewrite filter_app, filter_cons_False by naive_solver.
  assert (forall ys : list Z, e ∉ ys -> filter (fun x => x <> e) ys = ys) as Hid.
  { intros ys Hys. apply filter_all. by intros x Hx ->. }
  by rewrite !Hid by apart.
Qed.

Lemma hook_init_fresh m tp t e (Q : unit -> amem -> Prop) :
  tree_rep m tp t -> valid_addr e -> e ∉ elems t ->
  (forall m', tree_rep m' tp t -> fresh_node m' e t -> Q tt m') ->
  wp (dfk_avltree_hook_init e) m Q.
Proof.
  intros [H1 H2 H3 H4 H5] Hv Hin HQ. pose proof (valid_ne _ Hv).
  unfold dfk_avltree_hook_init. avl_steps. apply HQ.
  - split; cbn; try done. by apply arep_insert_ne.
  - split_and!; [|done..]. cbn. by simplify_map_eq.
Qed.

Context `{!Comparator cmp}.

Lemma run_avl_cmd_refines m tp xs c xs' o :
  avl_rep m tp xs -> abs_avl_step xs c = Some (xs', o) ->
  wp (run_avl_cmd tp c) m (fun o' m' => o' = o /\ avl_rep m' tp xs').
Proof.
  intros (t & Hrep & Hav & <- & Hs). destruct c as [e|e|k| |bound]; cbn [abs_avl_step run_avl_cmd].
  - destruct (decide _) as [[Hv Hin]|]; [|done]. intros [= <- <-].
    destruct (sorted_cut cmp e (elems t) Hs) as (pre & mid & suf & Hc & Hlen).
    apply wp_bind. eapply hook_init_fresh; [done..|]. intros m1 Hrep1 Hfr.
    apply wp_bind. eapply wp_mono; [by eapply dfk_avltree_insert_spec|].
    intros res m' Hres. cbn beta in Hres. apply wp_ret.
    pose proof (abs_insert_cut cmp e _ _ _ _ Hc) as Hai.
    pose proof (abs_insert_sorted cmp e _ Hs) as Hsi. rewrite Hai in *.
    destruct (abs_find_cut _ _ _ _ _ Hc Hlen) as [[-> Hf]|Hmid].
    + rewrite !decide_True by done. rewrite decide_True in Hres by done. rewrite decide_True in Hsi by done.
      destruct Hres as [-> (t' & Hrep' & Hav' & Hel' & _)]. split; [done|]. by exists t'.
    + assert (mid <> []) as Hne by by rewrite Hmid.
      rewrite decide_False in Hres by done. rewrite (decide_False (pre ++ e :: suf)) by done. destruct Hres as [-> ->].
      split; [|by exists t]. rewrite decide_False; [done|].
      apply valid_ne, (tr_valid _ _ _ Hrep). destruct Hc as [Heq _ _ _].
      set (y := abs_find _ _) in *. rewrite Heq, Hmid. set_solver.
  - destruct (decide _) as [Hin|]; [|done]. intros [= <- <-].
    pose proof (tr_nodup _ _ _ Hrep) as Hnd.
    apply list_elem_of_split in Hin as (pre & suf & Hel). rewrite Hel in Hnd, Hs |- *.
    apply wp_bind. eapply wp_mono; [by eapply dfk_avltree_erase_spec|].
    intros _ m' (t' & Hrep' & Hav' & Hel' & _). apply wp_ret. split; [done|].
    rewrite filter_split by done. exists t'. split_and!; [done..|]. by eapply sorted_remove.
  - intros [= <- <-]. destruct (sorted_cut cmp k (elems t) Hs) as (pre & mid & suf & Hc & Hlen).
    apply wp_bind. eapply wp_mono; [by eapply dfk_avltree_find_spec|].
    intros res m' [-> Hres]. apply wp_ret. split; [|by exists t].
    destruct (abs_find_cut _ _ _ _ _ Hc Hlen) as [[-> ->]|Hmid].
    + rewrite decide_True in Hres by done. by rewrite Hres.
    + rewrite Hmid in Hres. rewrite decide_False in Hres by done.
      apply list_elem_of_singleton in Hres. by rewrite Hres.
  - intros [= <- <-]. apply wp_bind. eapply wp_mono; [by eapply dfk_avltree_size_spec|].
    intros res m' [-> ->]. apply wp_ret. split; [done|]. by exists t.
  - destruct (decide _) as [Hb|]; [|done]. intros [= <- <-].
    eapply wp_mono; [by eapply walk_spec|]. intros res m' [-> ->]. split; [done|]. by exists t.
Qed.

Lemma run_avl_cmds_refines cs : forall m tp xs xs' os,
  avl_rep m tp xs -> abs_avl_steps xs cs = Some (xs', os) ->
  wp (run_avl_cmds tp cs) m (fun os' m' => os' = os /\ avl_rep m' tp xs').
Proof.
  induction cs as [|c cs IH]; intros m tp xs xs' os Hrep; cbn.
  - intros [= <- <-]. by apply wp_ret.
  - destruct (abs_avl_step xs c) as [[xs1 o]|] eqn:Hstep; [|done]. cbn.
    destruct (abs_avl_steps xs1 cs) as [[xs2 os2]|] eqn:Hsteps; [|done]. cbn. intros [= <- <-].
    apply wp_bind. eapply wp_mono; [by eapply run_avl_cmd_refines|]. intros o' m' [-> Hrep'].
    apply wp_bind. eapply wp_mono; [by eapply IH|]. intros os' m'' [-> Hrep'']. by apply wp_ret.
Qed.

Lemma init_avl_rep m tp (Q : unit -> amem -> Prop) : tp <> 0 ->
  (forall m', avl_rep m' tp [] -> Q tt m') -> wp (dfk_avltree_init tp) m Q.
Proof.
  intros Htp HQ.
  assert (tree_rep (AMem (<[tp := AvlTree 0 0]> (trees m)) (nodes m)) tp Leaf) as Hrep.
  { split; cbn; [done|by simplify_map_eq|done|constructor|]. by intros ? ?%not_elem_of_nil. }
  unfold dfk_avltree_init. avl_steps. eapply wp_mono; [by eapply checks_tree|].
  intros [] m' ->. apply HQ. exists Leaf. split_and!; [done..|]. constructor.
Qed.
End programs.
