(* ===== verification/AvlTheorems.v ===== *)
(** * What is proved of [avltree.c]

    Refinement to a sorted sequence, insertion and removal on their own (with
    what they leave alone), the cost of a search, the order of iteration, and
    the insertion of a node that already is in the tree. *)

From S2P Require Import Prelude Avl AvlTree AvlRot AvlZip AvlErase AvlInsert AvlIter AvlSim.

Open Scope Z_scope.

(** Ascending order of addresses, for the examples. *)
Definition by_address (x y : Z) : Z := y - x.

#[export] Instance by_address_comparator : Comparator by_address.
Proof.
  split; unfold by_address; [|lia]. intros x y. rewrite <- Z.sgn_opp. f_equal. lia.
Qed.

(** The memory a tree occupies. *)
Fixpoint laid_out (p : Z) (t : tree) : gmap Z dfk_avltree_hook_t :=
  match t with
  | Leaf => ∅
  | Node l x b r => <[x := AHook (ptr l) (ptr r) p b]> (laid_out x l ∪ laid_out x r)
  end.

Definition sample_tree : tree :=
  Node (Node Leaf 16 1 (Node Leaf 24 0 Leaf)) 32 1
    (Node (Node Leaf 40 0 Leaf) 48 1 (Node Leaf 56 1 (Node Leaf 64 0 Leaf))).

Definition sample_mem : amem :=
  AMem {[ 1 := AvlTree 32 7; 2 := AvlTree 0 0 ]}
    (<[60 := AHook 0 0 0 0]> (<[100 := AHook 0 0 0 0]> (laid_out 0 sample_tree))).

Definition sample_avl_program : list avl_cmd :=
  [AInsert 40; AInsert 32; AInsert 16; AInsert 64; AInsert 48; AInsert 56; AInsert 8; AInsert 72;
   AWalk 20; AFind 48; AFind 50; AErase 40; AErase 16; AWalk 20; AErase 8; AErase 32; ASize;
   AInsert 16; AWalk 20].

Definition sample_avl_outputs : list (list Z) :=
  [[40]; [32]; [16]; [64]; [48]; [56]; [8]; [72]; [8; 16; 32; 40; 48; 56; 64; 72]; [48]; [0];
   []; []; [8; 32; 48; 56; 64; 72]; []; []; [4]; [16]; [16; 48; 56; 64; 72]].

Lemma sample_rep : tree_rep sample_mem 1 sample_tree /\ avl sample_tree.
Proof.
  split; [split|vm_compute; repeat split; discriminate].
  - done.
  - vm_compute. reflexivity.
  - cbn [sample_tree arep]. split_and!; try done; vm_compute; reflexivity.
  - by apply (bool_decide_unpack _).
  - assert (Forall valid_addr (elems sample_tree)) as HF 
      by (cbn; rewrite !Forall_cons, Forall_nil; split_and!; done).
    intros x. by apply Forall_forall.
Qed.

(** C4: a program that initialises a tree, then inserts nodes that are not in
    it, erases nodes that are in it, searches, asks for the size and iterates,
    runs to completion whatever the order of the operations and whatever the
    comparator, as long as it is a total preorder: no assertion fails, no stray
    pointer is followed, the loops and the recursive check end.  It returns
    what the operations on a sorted sequence return, and leaves a height
    balanced tree of that sequence. *)
Theorem avl_refines (cmp : Z -> Z -> Z) `{!Comparator cmp} (m : amem) (tree : Z)
    (cs : list avl_cmd) (xs : list Z) (outs : list (list Z))
    (Htree : tree <> 0) (Hlegal : abs_avl_steps cmp [] cs = Some (xs, outs)) :
  exists m' t,
    (dfk_avltree_init tree;; run_avl_cmds cmp tree cs) m = Ok (outs, m') /\
    tree_rep m' tree t /\ avl t /\ elems t = xs /\ sorted cmp xs.
Proof.
  assert (wp (dfk_avltree_init tree;; run_avl_cmds cmp tree cs) m
    (fun os m' => os = outs /\ avl_rep cmp m' tree xs)) as Hw.
  { apply wp_bind, (init_avl_rep cmp); [done|]. intros m1 Hrep. by eapply run_avl_cmds_refines. }
  apply wp_run in Hw as (os & m' & Hrun & -> & (t & ? & ? & ? & ?)). by exists m', t.
Qed.

Lemma avl_refines_witness :
  option_map snd (abs_avl_steps by_address [] sample_avl_program) = Some sample_avl_outputs /\
  exists m' t,
    (dfk_avltree_init 1;; run_avl_cmds by_address 1 sample_avl_program) (AMem ∅ ∅) =
      Ok (sample_avl_outputs, m') /\ avl t /\ elems t = [16; 48; 56; 64; 72].
Proof.
  split; [vm_compute; reflexivity|].
  edestruct (avl_refines by_address (AMem ∅ ∅) 1 sample_avl_program)
    as (m' & t & Hrun & _ & Hav & Hel & _); [done|vm_compute; reflexivity|].
  exists m', t. split; [exact Hrun|]. by split.
Defined.

(** C21: insertion of an initialised node [e] into a height balanced search tree:
    when no node compares equal it returns [e], the tree is again a height
    balanced search tree, of the old nodes and [e]; otherwise it returns NULL
    and memory is unchanged.  Nodes outside the tree and other trees are not
    touched. *)
Theorem avl_insert_correct (cmp : Z -> Z -> Z) `{!Comparator cmp} (m : amem) (tree e : Z)
    (t : AvlTree.tree)
    (Hrep : tree_rep m tree t) (Hav : avl t) (Hsorted : sorted cmp (elems t))
    (He : nodes m !! e = Some (AHook 0 0 0 0)) (Hev : valid_addr e) (Hout : e ∉ elems t) :
  exists res m' t',
    dfk_avltree_insert cmp tree e m = Ok (res, m') /\
    tree_rep m' tree t' /\ avl t' /\ sorted cmp (elems t') /\
    ((res = e /\ (forall x, x ∈ elems t -> cmp x e <> 0) /\ elems t' ≡ₚ e :: elems t /\
        outside tree (e :: elems t) m m') \/
     (res = 0 /\ (exists x, x ∈ elems t /\ cmp x e = 0) /\ m' = m)).
Proof.
  destruct (sorted_cut cmp e (elems t) Hsorted) as (pre & mid & suf & Hc & _).
  assert (fresh_node m e t) as Hfr by done.
  pose proof (dfk_avltree_insert_spec _ _ _ _ _ _ _ _ Hrep Hav Hfr Hc) as Hw.
  apply wp_run in Hw as (res & m' & Hrun & Hres).
  pose proof (abs_insert_cut cmp e _ _ _ _ Hc) as Hai.
  pose proof (abs_insert_sorted cmp e _ Hsorted) as Hsi. rewrite Hai in Hsi.
  destruct Hc as [Heq Hp Hm Hs]. case_decide as Hmid.
  - subst mid. destruct Hres as [-> (t' & Hrep' & Hav' & Hel' & Ho)].
    exists e, m', t'. rewrite Hel'. split_and!; [done..|]. left. split_and!; [done| | |done].
    + rewrite Heq. cbn. intros x [Hx%Hp|Hx%Hs]%elem_of_app; lia.
    + rewrite Heq. cbn. by rewrite <- Permutation_middle.
  - destruct Hres as [-> ->]. exists 0, m, t. split_and!; [done..|]. right. split_and!; [done| |done].
    destruct mid as [|x mid]; [done|]. exists x. split; [rewrite Heq|apply Hm]; set_solver.
Qed.

Lemma avl_insert_correct_witness :
  exists m' t', dfk_avltree_insert by_address 1 60 sample_mem = Ok (60, m') /\
    avl t' /\ elems t' ≡ₚ 60 :: elems sample_tree.
Proof.
  edestruct (avl_insert_correct by_address sample_mem 1 60 sample_tree)
    as (res & m' & t' & Hrun & Hrep & Hav & _ & [(-> & _ & Hel & _)|(_ & (x & Hx & Hcmp) & _)]).
  - apply sample_rep.
  - apply sample_rep.
  - repeat constructor.
  - vm_compute. reflexivity.
  - done.
  - by apply (bool_decide_unpack _).
  - exists m', t'. exact (conj Hrun (conj Hav Hel)).
  - exfalso. unfold by_address in Hcmp. assert (x = 60) as -> by lia.
    revert Hx. by apply (bool_decide_unpack _).
Defined.

(** C20: removal of a node of a height balanced tree, wherever it is: the tree
    is height balanced again and its nodes are the others, in the same order;
    the size is one less.  In particular the unconditional accesses to the
    left child of a node whose right subtree is two levels deep are safe. *)
Theorem avl_erase_correct (m : amem) (tree e : Z) (t : AvlTree.tree) (pre suf : list Z)
    (Hrep : tree_rep m tree t) (Hav : avl t) (Hel : elems t = pre ++ e :: suf) :
  exists m' t', dfk_avltree_erase tree e m = Ok (tt, m') /\
    tree_rep m' tree t' /\ avl t' /\ elems t' = pre ++ suf /\ outside tree (elems t) m m'.
Proof.
  pose proof (dfk_avltree_erase_spec _ _ _ _ _ _ Hrep Hav Hel) as Hw.
  apply wp_run in Hw as ([] & m' & Hrun & (t' & Ht')). by exists m', t'.
Qed.

Lemma avl_erase_correct_witness :
  exists m' t', dfk_avltree_erase 1 32 sample_mem = Ok (tt, m') /\
    avl t' /\ elems t' = [16; 24; 40; 48; 56; 64].
Proof.
  edestruct (avl_erase_correct sample_mem 1 32 sample_tree [16; 24] [40; 48; 56; 64])
    as (m' & t' & Hrun & _ & Hav & Hel & _).
  - apply sample_rep.
  - apply sample_rep.
  - reflexivity.
  - exists m', t'. exact (conj Hrun (conj Hav Hel)).
Defined.

(** C35: the search for [k] returns a node that compares equal to [k], or NULL
    when there is none, changes nothing, and its loop makes at most
    [2 log2 (n + 1) + 2] turns in a tree of [n] nodes. *)
Theorem avl_find_logarithmic (cmp : Z -> Z -> Z) `{!Comparator cmp} (m : amem) (tree k : Z)
    (t : AvlTree.tree) (turns : nat)
    (Hrep : tree_rep m tree t) (Hav : avl t) (Hsorted : sorted cmp (elems t))
    (Hturns : 2 * Z.log2 (Z.of_nat (length (elems t)) + 1) + 2 <= Z.of_nat turns) :
  exists res,
    loop turns (find_body (fun x => cmp x k)) (ptr t) m = Ok (res, m) /\
    dfk_avltree_find (fun x => cmp x k) tree m = Ok (res, m) /\
    (res ∈ elems t /\ cmp res k = 0 \/
     res = 0 /\ forall x, x ∈ elems t -> cmp x k <> 0).
Proof.
  destruct (sorted_cut cmp k (elems t) Hsorted) as (pre & mid & suf & Hc & Hlen).
  pose proof (avl_height_log t Hav) as Hh.
  assert (forall x, x ∈ elems t -> x <> 0) as Hv.
  { intros x Hx. by apply valid_ne, (tr_valid _ _ _ Hrep). }
  pose proof (find_loop _ m t 0 pre mid suf turns (tr_nodes _ _ _ Hrep) Hv Hc ltac:(lia)) as Hw.
  pose proof (dfk_avltree_find_spec _ _ _ _ _ _ _ Hrep Hav Hc) as Hf.
  apply wp_run in Hw as (res & m' & Hrun & -> & Hres).
  apply wp_run in Hf as (res' & m' & Hfind & -> & Hres').
  destruct Hc as [Heq Hp Hm Hs].
  assert (res' = res) as ->.
  { destruct mid as [|x [|]]; cbn in Hres, Hres', Hlen; [congruence| |lia].
    apply list_elem_of_singleton in Hres, Hres'. congruence. }
  exists res. split_and!; [done..|]. case_decide as Hmid.
  - right. subst mid. split; [done|]. rewrite Heq. cbn. intros x [Hx%Hp|Hx%Hs]%elem_of_app; lia.
  - left. split; [rewrite Heq; set_solver|auto].
Qed.

Lemma avl_find_logarithmic_witness :
  exists res, loop 8 (find_body (fun x => by_address x 56)) 32 sample_mem = Ok (res, sample_mem) /\
    res = 56.
Proof.
  destruct (avl_find_logarithmic by_address sample_mem 1 56 sample_tree 8)
    as (res & Hrun & _ & [[_ Hres]|[_ Hres]]).
  - apply sample_rep.
  - apply sample_rep.
  - repeat constructor.
  - vm_compute. discriminate.
  - exists res. split; [exact Hrun|]. unfold by_address in Hres. lia.
  - exfalso. apply (Hres 56); [|done]. by apply (bool_decide_unpack _).
Defined.

(** Iterating from [dfk_avltree_begin] to [dfk_avltree_end] with
    [dfk_avltree_it_next] visits every node once, in order, and ends; so the
    size computed by iteration ([DFK_AVLTREE_CONSTANT_TIME_SIZE] off) is the
    stored one. *)
Theorem avl_iterates_in_order (m : amem) (tree : Z) (t : AvlTree.tree) (bound : nat)
    (Hrep : tree_rep m tree t) (Hav : avl t) (Hbound : (length (elems t) < bound)%nat) :
  walk bound tree m = Ok (elems t, m) /\
  size_linear bound tree m = dfk_avltree_size tree m /\
  dfk_avltree_size tree m = Ok (Z.of_nat (length (elems t)), m).
Proof.
  pose proof (walk_spec _ _ _ _ Hrep Hav Hbound) as Hw.
  pose proof (size_linear_spec _ _ _ _ Hrep Hav Hbound) as Hl.
  pose proof (dfk_avltree_size_spec _ _ _ Hrep Hav) as Hs.
  apply wp_run in Hw as (? & ? & -> & -> & ->). apply wp_run in Hl as (? & ? & -> & -> & ->).
  by apply wp_run in Hs as (? & ? & -> & -> & ->).
Qed.

Lemma avl_iterates_in_order_witness :
  walk 8 1 sample_mem = Ok ([16; 24; 32; 40; 48; 56; 64], sample_mem) /\
  dfk_avltree_size 1 sample_mem = Ok (7, sample_mem).
Proof.
  edestruct (avl_iterates_in_order sample_mem 1 sample_tree 8) as (Hw & _ & Hs).
  - apply sample_rep.
  - apply sample_rep.
  - cbn. lia.
  - split; [exact Hw|exact Hs].
Defined.

(** A member of a tree has a neighbour, unless it is the only node. *)
Lemma member_hook m tp t e : tree_rep m tp t -> e ∈ elems t ->
  (exists b, t = Node Leaf e b Leaf) \/
  exists h, nodes m !! e = Some h /\ (_left h <> 0 \/ _right h <> 0 \/ _parent h <> 0).
Proof.
  intros Hrep (l & b & r & c & ->)%tree_split.
  pose proof (proj2 (zip_rep _ _ _ _) Hrep) as Hz. destruct (root_node _ _ _ _ _ _ _ _ Hz) as [He0 He].
  assert (forall x, x ∈ elems l \/ x ∈ elems r -> x <> 0) as Hv.
  { intros x Hx. apply valid_ne, (tr_valid _ _ _ Hrep), elem_plug_l. cbn. set_solver. }
  destruct c as [|f c].
  - destruct (decide (l = Leaf)) as [->|Hl]; [destruct (decide (r = Leaf)) as [->|Hr]|].
    + left. by exists b.
    + right. eexists. split; [done|]. right. left. apply ptr_ne; [|done]. auto.
    + right. eexists. split; [done|]. left. apply ptr_ne; [|done]. auto.
  - right. eexists. split; [done|]. right. right. by destruct (parent_node _ _ _ _ _ _ Hz).
Qed.

Lemma insert_dirty cmp m tp t e h :
  tree_rep m tp t -> avl t -> e <> 0 -> nodes m !! e = Some h ->
  (_left h <> 0 \/ _right h <> 0 \/ _parent h <> 0) ->
  dfk_avltree_insert cmp tp e m = Err AssertFailed.
Proof.
  intros Hrep Hav He0 He Hd. pose proof (checks_tree m tp t Hrep Hav) as Hc.
  unfold checks in Hc. apply wp_run in Hc as ([] & m' & Hc & ->).
  unfold dfk_avltree_insert, mbind, M_bind. rewrite Hc. unfold c_assert at 1.
  rewrite nonnull_true by done. cbn. unfold rd, mbind, M_bind, deref. cbn.
  rewrite decide_False, He by done. cbn.
  destruct (Z.eqb_spec (_left h) 0) as [Hl|Hl]; unfold isnull; [rewrite Hl; cbn|by rewrite (proj2 (Z.eqb_neq _ _) Hl)].
  rewrite decide_False, He by done. cbn.
  destruct (Z.eqb_spec (_right h) 0) as [Hr|Hr]; [cbn|done].
  rewrite decide_False, He by done. cbn.
  destruct (Z.eqb_spec (_parent h) 0) as [Hp|Hp]; [|done]. lia.
Qed.

(** Inserting a node a second time never damages a tree: either an
    assertion stops the program, or (when it is the only node) NULL is
    returned and memory is unchanged. *)
Theorem avl_insert_twice (cmp : Z -> Z -> Z) `{!Comparator cmp} (m : amem) (tree e : Z)
    (t : AvlTree.tree) (Hrep : tree_rep m tree t) (Hav : avl t) (Hin : e ∈ elems t) :
  dfk_avltree_insert cmp tree e m =
    if decide (length (elems t) = 1%nat) then Ok (0, m) else Err AssertFailed.
Proof.
  assert (e <> 0) as He0 by by apply valid_ne, (tr_valid _ _ _ Hrep).
  destruct (member_hook _ _ _ _ Hrep Hin) as [[b ->]|(h & He & Hd)].
  - cbn. pose proof Hav as (_ & _ & Hb & _). cbn in Hb. subst b.
    pose proof (tr_obj _ _ _ Hrep) as Hobj. pose proof (tr_nodes _ _ _ Hrep) as (He & _).
    pose proof (tr_ne _ _ _ Hrep). cbn in Hobj, He.
    assert (cmp e e = 0) as Hee by (pose proof (cmp_sign e e); destruct (Z.sgn_spec (cmp e e)); lia).
    assert (wp (dfk_avltree_insert cmp tree e) m (fun r m' => r = 0 /\ m' = m)) as Hw.
    { apply wp_checks; [by eapply checks_tree|intros _]. avl_steps.
      apply wp_bind.
      unfold descend_body at 1. rewrite Hee. by repeat apply wp_ret. }
    by apply wp_run in Hw as (? & ? & -> & -> & ->).
  - rewrite decide_False; [by eapply insert_dirty|]. intros Hlen.
    destruct t as [|l x b r]; [done|]. cbn in Hlen. rewrite length_app in Hlen. cbn in Hlen.
    destruct l as [|l1 l2 l3 l4]; [|cbn in Hlen; rewrite length_app in Hlen; cbn in Hlen; lia].
    destruct r as [|r1 r2 r3 r4]; [|cbn in Hlen; rewrite length_app in Hlen; cbn in Hlen; lia].
    apply list_elem_of_singleton in Hin as ->. destruct (tr_nodes _ _ _ Hrep) as (Hx & _).
    rewrite Hx in He. injection He as <-. cbn in Hd. tauto.
Qed.

Lemma avl_insert_twice_witness :
  dfk_avltree_insert by_address 1 48 sample_mem = Err AssertFailed.
Proof.
  rewrite (avl_insert_twice by_address sample_mem 1 48 sample_tree).
  - reflexivity.
  - apply sample_rep.
  - apply sample_rep.
  - by apply (bool_decide_unpack _).
Defined.
