(* ===== verification/StrMap.v ===== *)
(** * [strmap.c]: maps from strings to strings

    A map is an AVL tree of items, each with a key and a value buffer.  The
    hook of an item is its first member: item and hook have one address.  The
    comparator reads the keys from memory; the tree functions take a pure
    comparator, so a comparison that faults counts as equal there, which ends
    the descent at once, and [compared] then repeats it on the node the
    descent ended at and raises the fault. *)

From S2P Require Import Prelude Bytes ListSpec Arena Avl Misc.

Record dfk_strmap_item_t := Item { key : dfk_buf_t; value : dfk_buf_t }.

Record strmem (Mem : Type) := StrMem {
  sm_avl : amem;
  sm_arena : armem Mem;
  items : gmap Z dfk_strmap_item_t
}.
Arguments StrMem {Mem}.
Arguments sm_avl {Mem}.
Arguments sm_arena {Mem}.
Arguments items {Mem}.

Definition savl {Mem} : lens (strmem Mem) amem :=
  Lens sm_avl (fun a m => StrMem a (sm_arena m) (items m)).
Definition sarena {Mem} : lens (strmem Mem) (armem Mem) :=
  Lens sm_arena (fun a m => StrMem (sm_avl m) a (items m)).
Definition items_of {Mem} : heap_of (strmem Mem) dfk_strmap_item_t :=
  Heap items (fun h m => StrMem (sm_avl m) (sm_arena m) h).

(** Byte memory: the one the arenas are in. *)
Definition sm_bytes {Mem} (m : strmem Mem) : bmem := ar_bytes (sm_arena m).
Definition sbytes {Mem} : lens (strmem Mem) bmem :=
  Lens sm_bytes (fun b m => StrMem (sm_avl m) (lset abytes b (sm_arena m)) (items m)).

(** [sizeof(dfk_strmap_item_t)] *)
Definition ITEM_T : Z := 64.

(** C's [strncmp], on bytes as unsigned numbers; only its sign is specified. *)
Fixpoint strncmp (n : nat) (p q : Z) : M bmem Z :=
  match n with
  | O => mret 0
  | S n =>
      a ← load p; b ← load q;
      if negb (a =? b) then mret (a - b)
      else if a =? 0 then mret 0 else strncmp n (p + 1) (q + 1)
  end.

Section strmap.
Context {Mem It : Type} `{!ListOps Mem It} (malloc : bmem -> Z -> Z).

Definition dfk__strmap_lookup_cmp (l : Z) (r : dfk_buf_t) : M (strmem Mem) Z :=
  c_assert (nonnull l);;
  lh ← deref items_of l;
  let tocmp := Z.min (b_size (key lh)) (b_size r) in
  res ← zoom sbytes (strncmp (Z.to_nat tocmp) (b_data (key lh)) (b_data r));
  if negb (res =? 0) then mret res
  else mret (if b_size r <? b_size (key lh) then 1 else 0).

Definition dfk__strmap_cmp (l r : Z) : M (strmem Mem) Z :=
  c_assert (nonnull l);;
  c_assert (nonnull r);;
  rh ← deref items_of r;
  dfk__strmap_lookup_cmp l (key rh).

(** Value of a comparison in memory [m]. *)
Definition cmp_value (c : M (strmem Mem) Z) (m : strmem Mem) : Z :=
  match c m with Ok (v, _) => v | Err _ => 0 end.

(** The fault, if any, of the comparison with the node the descent ended at. *)
Definition compared (node : Z) (c : Z -> M (strmem Mem) Z) : M (strmem Mem) unit :=
  when (nonnull node) (c node;; mret tt).

(** ** Items *)

Definition dfk_strmap_item_init (item kdata keylen vdata valuelen : Z) : M (strmem Mem) unit :=
  c_assert (nonnull item);;
  c_assert (nonnull kdata);;
  c_assert (negb (keylen =? 0));;
  c_assert (nonnull vdata || (valuelen =? 0));;
  zoom savl (dfk_avltree_hook_init item);;
  store items_of item (Item (Buf kdata keylen) (Buf vdata valuelen)).

(** The assertions every constructor of items starts with. *)
Definition check_args (kdata keylen vdata valuelen : Z) : M (strmem Mem) unit :=
  c_assert (nonnull kdata);;
  c_assert (negb (keylen =? 0));;
  c_assert (nonnull vdata || (valuelen =? 0)).

Definition dfk_strmap_item_copy (kdata keylen vdata valuelen : Z) : M (strmem Mem) Z :=
  check_args kdata keylen vdata valuelen;;
  let toalloc := to_size (ITEM_T + keylen + valuelen) in
  item ← zoom sbytes (dfk__malloc malloc toalloc);
  if isnull item then mret 0 else
  let pkey := item + ITEM_T in
  let pvalue := pkey + keylen in
  zoom sbytes (memcpy pkey kdata keylen);;
  zoom sbytes (memcpy pvalue vdata valuelen);;
  dfk_strmap_item_init item pkey keylen pvalue valuelen;;
  mret item.

Definition dfk_strmap_item_copy_key (kdata keylen vdata valuelen : Z) : M (strmem Mem) Z :=
  check_args kdata keylen vdata valuelen;;
  let toalloc := to_size (ITEM_T + keylen) in
  item ← zoom sbytes (dfk__malloc malloc toalloc);
  if isnull item then mret 0 else
  let pkey := item + ITEM_T in
  zoom sbytes (memcpy pkey kdata keylen);;
  dfk_strmap_item_init item pkey keylen vdata valuelen;;
  mret item.

Definition dfk_strmap_item_copy_value (kdata keylen vdata valuelen : Z) : M (strmem Mem) Z :=
  check_args kdata keylen vdata valuelen;;
  let toalloc := to_size (ITEM_T + valuelen) in
  item ← zoom sbytes (dfk__malloc malloc toalloc);
  if isnull item then mret 0 else
  let pvalue := item + ITEM_T in
  zoom sbytes (memcpy pvalue vdata valuelen);;
  dfk_strmap_item_init item kdata keylen pvalue valuelen;;
  mret item.

(** [assert(arena->dfk)] *)
Definition check_arena (arena : Z) : M (strmem Mem) unit :=
  c_assert (nonnull arena);;
  a ← zoom sarena (deref arenas_of arena);
  c_assert (nonnull (adfk a)).

Definition dfk_strmap_item_acopy (arena kdata keylen vdata valuelen : Z) : M (strmem Mem) Z :=
  check_arena arena;;
  check_args kdata keylen vdata valuelen;;
  pkey ← zoom sarena (dfk_arena_alloc_copy malloc arena kdata keylen);
  if isnull pkey then mret 0 else
  pvalue ← zoom sarena (dfk_arena_alloc_copy malloc arena vdata valuelen);
  if isnull pvalue then mret 0 else
  item ← zoom sarena (dfk_arena_alloc malloc arena ITEM_T);
  if isnull item then mret 0 else
  dfk_strmap_item_init item pkey keylen pvalue valuelen;;
  mret item.

Definition dfk_strmap_item_acopy_key (arena kdata keylen vdata valuelen : Z) : M (strmem Mem) Z :=
  check_arena arena;;
  check_args kdata keylen vdata valuelen;;
  pkey ← zoom sarena (dfk_arena_alloc_copy malloc arena kdata keylen);
  if isnull pkey then mret 0 else
  item ← zoom sarena (dfk_arena_alloc malloc arena ITEM_T);
  if isnull item then mret 0 else
  dfk_strmap_item_init item pkey keylen vdata valuelen;;
  mret item.

Definition dfk_strmap_item_acopy_value (arena kdata keylen vdata valuelen : Z) : M (strmem Mem) Z :=
  check_arena arena;;
  check_args kdata keylen vdata valuelen;;
  pvalue ← zoom sarena (dfk_arena_alloc_copy malloc arena vdata valuelen);
  if isnull pvalue then mret 0 else
  item ← zoom sarena (dfk_arena_alloc malloc arena ITEM_T);
  if isnull item then mret 0 else
  dfk_strmap_item_init item kdata keylen pvalue valuelen;;
  mret item.

(** ** Maps *)

Definition dfk_strmap_init (map : Z) : M (strmem Mem) unit :=
  c_assert (nonnull map);;
  zoom savl (dfk_avltree_init map).

Definition dfk_strmap_size (map : Z) : M (strmem Mem) Z :=
  c_assert (nonnull map);;
  zoom savl (dfk_avltree_size map).

Definition dfk_strmap_get (map kdata keylen : Z) : M (strmem Mem) dfk_buf_t :=
  c_assert (nonnull map);;
  c_assert (nonnull kdata);;
  c_assert (negb (keylen =? 0));;
  let kkey := Buf kdata keylen in
  m ← get;
  item ← zoom savl
    (dfk_avltree_find (fun x => cmp_value (dfk__strmap_lookup_cmp x kkey) m) map);
  compared item (fun x => dfk__strmap_lookup_cmp x kkey);;
  if nonnull item then i ← deref items_of item; mret (value i) else mret (Buf 0 0).

Definition dfk_strmap_insert (map item : Z) : M (strmem Mem) unit :=
  c_assert (nonnull map);;
  c_assert (nonnull item);;
  m ← get;
  node ← zoom savl
    (dfk_avltree_find (fun x => cmp_value (dfk__strmap_cmp x item) m) map);
  compared node (fun x => dfk__strmap_cmp x item);;
  zoom savl (dfk_avltree_insert (fun x y => cmp_value (dfk__strmap_cmp x y) m) map item);;
  mret tt.

(** Iterators are the item they stand on; 0 is the end. *)
Definition dfk_strmap_erase (map it : Z) : M (strmem Mem) unit :=
  c_assert (nonnull map);;
  zoom savl (dfk_avltree_erase map it).

Definition dfk_strmap_begin (map : Z) : M (strmem Mem) Z :=
  c_assert (nonnull map);;
  zoom savl (dfk_avltree_begin map).

Definition dfk_strmap_end (map : Z) : M (strmem Mem) Z :=
  c_assert (nonnull map);;
  zoom savl (dfk_avltree_end map).

Definition dfk_strmap_it_next (it : Z) : M (strmem Mem) Z :=
  zoom savl (dfk_avltree_it_next it).

Definition dfk_strmap_it_equal (lhs rhs : Z) : M (strmem Mem) bool :=
  zoom savl (dfk_avltree_it_equal lhs rhs).

End strmap.
