(* ===== verification/StrMapTheorems.v ===== *)
(** * What is proved of [strmap.c]

    The comparator orders keys none of which is a prefix of another; on such
    keys a map is a finite map.  A key that extends a stored one is taken for
    it. *)

From stdpp Require Import sorting.
From S2P Require Import Prelude Bytes ListSpec ListPtr ListPtrSpec ListSim Arena ArenaTheorems.
From S2P Require Import Avl AvlTree AvlRot AvlZip AvlErase AvlInsert AvlIter AvlSim Misc StrMap.

Open Scope Z_scope.

(** ** Keys *)

(** [strncmp] on two texts. *)
Fixpoint text_cmp (xs ys : list Z) : Z :=
  match xs, ys with
  | x :: xs, y :: ys => if x =? y then if x =? 0 then 0 else text_cmp xs ys else x - y
  | _, _ => 0
  end.

(** [dfk__strmap_lookup_cmp] on two texts. *)
Definition key_cmp (xs ys : list Z) : Z :=
  let r := text_cmp xs ys in
  if negb (r =? 0) then r
  else if Z.of_nat (length ys) <? Z.of_nat (length xs) then 1 else 0.

(** [xs] is greater than [ys] at the first byte they differ in. *)
Fixpoint key_gt (xs ys : list Z) : Prop :=
  match xs, ys with
  | x :: xs, y :: ys => y < x \/ (x = y /\ key_gt xs ys)
  | _, _ => False
  end.

Lemma key_gt_trans xs : forall ys zs, key_gt xs ys -> key_gt ys zs -> key_gt xs zs.
Proof.
  induction xs as [|x xs IH]; intros [|y ys] [|z zs]; cbn; try done.
  intros [H1|[-> H1]] [H2|[-> H2]]; [left; lia..|]. right. eauto.
Qed.

Lemma key_gt_ext_r xs : forall ys zs, key_gt xs ys -> ys `prefix_of` zs -> key_gt xs zs.
Proof.
  intros ys zs Hg [s ->]. revert ys Hg. induction xs as [|x xs IH]; intros [|y ys]; cbn; try done.
  intros [H|[-> H]]; [by left|right; auto].
Qed.
Lemma key_gt_ext_l xs ys zs : key_gt xs ys -> xs `prefix_of` zs -> key_gt zs ys.
Proof.
  intros Hg [s ->]. revert ys Hg. induction xs as [|x xs IH]; intros [|y ys]; cbn; try done.
  intros [H|[-> H]]; [by left|right; auto].
Qed.

Lemma key_gt_prefix xs ys : key_gt xs ys -> ~ xs `prefix_of` ys /\ ~ ys `prefix_of` xs.
Proof.
  revert ys. induction xs as [|x xs IH]; intros [|y ys]; cbn; try done. intros Hg. split.
  - intros Hp. pose proof (prefix_cons_inv_1 _ _ _ _ Hp) as ->. apply prefix_cons_inv_2 in Hp.
    destruct Hg as [|[_ Hg]]; [lia|]. exact (proj1 (IH _ Hg) Hp).
  - intros Hp. pose proof (prefix_cons_inv_1 _ _ _ _ Hp) as ->. apply prefix_cons_inv_2 in Hp.
    destruct Hg as [|[_ Hg]]; [lia|]. exact (proj2 (IH _ Hg) Hp).
Qed.

Lemma key_gt_irrefl xs : ~ key_gt xs xs.
Proof. intros H%key_gt_prefix. by apply (proj1 H). Qed.

Definition no_nul (xs : list Z) : Prop := Forall (fun c => c <> 0) xs.

#[export] Instance no_nul_dec xs : Decision (no_nul xs).
Proof. unfold no_nul. apply _. Defined.

Lemma text_cmp_cases xs : forall ys, no_nul xs ->
  (key_gt xs ys /\ 0 < text_cmp xs ys) \/ (key_gt ys xs /\ text_cmp xs ys < 0) \/
  (xs `prefix_of` ys /\ text_cmp xs ys = 0) \/
  (ys `prefix_of` xs /\ (length ys < length xs)%nat /\ text_cmp xs ys = 0).
Proof.
  induction xs as [|x xs IH]; intros [|y ys] Hz; cbn [text_cmp key_gt].
  - right. right. by left.
  - right. right. left. split; [apply prefix_nil|done].
  - right. right. right. split_and!; [apply prefix_nil|cbn; lia|done].
  - apply Forall_cons in Hz as [Hx Hz]. destruct (Z.eqb_spec x y) as [->|Hne].
    + rewrite (proj2 (Z.eqb_neq _ _)) by done.
      destruct (IH ys Hz) as [[H1 H2]|[[H1 H2]|[[H1 H2]|(H1 & H2 & H3)]]].
      * left. auto.
      * right. left. auto.
      * right. right. left. split; [by apply prefix_cons|done].
      * right. right. right. split_and!; [by apply prefix_cons|cbn; lia|done].
    + destruct (Z.lt_ge_cases y x); [left|right; left]; split; lia.
Qed.

(** The order [key_cmp] gives: a proper extension is greater, but a prefix is
    equal. *)
Lemma key_cmp_cases xs ys : no_nul xs ->
  (key_gt xs ys /\ 0 < key_cmp xs ys) \/ (key_gt ys xs /\ key_cmp xs ys < 0) \/
  (xs `prefix_of` ys /\ key_cmp xs ys = 0) \/
  (ys `prefix_of` xs /\ (length ys < length xs)%nat /\ 0 < key_cmp xs ys).
Proof.
  intros Hz. unfold key_cmp.
  destruct (text_cmp_cases xs ys Hz) as [[H1 H2]|[[H1 H2]|[[H1 H2]|(H1 & H2 & H3)]]].
  - left. by rewrite (proj2 (Z.eqb_neq _ _)) by lia.
  - right. left. by rewrite (proj2 (Z.eqb_neq _ _)) by lia.
  - right. right. left. rewrite H2. cbn. apply prefix_length in H1 as Hl.
    by rewrite (proj2 (Z.ltb_ge _ _)) by lia.
  - right. right. right. rewrite H3. cbn. by rewrite (proj2 (Z.ltb_lt _ _)) by lia.
Qed.

Lemma strncmp_spec xs : forall ys m p q (Q : Z -> bmem -> Prop),
  bytes_at m p xs -> bytes_at m q ys -> Q (text_cmp xs ys) m ->
  wp (strncmp (Nat.min (length xs) (length ys)) p q) m Q.
Proof.
  induction xs as [|x xs IH]; intros [|y ys] m p q Q Hx Hy HQ; try done.
  apply bytes_cons in Hx as (Hp & Hxp & Hx). apply bytes_cons in Hy as (Hq & Hyq & Hy).
  cbn [length Nat.min strncmp]. apply wp_bind. eapply wp_load; [lia|done|].
  apply wp_bind. eapply wp_load; [lia|done|]. cbn [text_cmp] in HQ.
  destruct (x =? y); cbn; [|by apply wp_ret]. destruct (x =? 0); [by apply wp_ret|]. by apply (IH ys).
Qed.

(** ** Representation *)

Record entry := Entry { e_addr : Z; e_key : list Z; e_item : dfk_strmap_item_t }.

Definition e_gt (e f : entry) : Prop := key_gt (e_key e) (e_key f).

Section rep.
Context {Mem It : Type} `{!ListOps Mem It}.

(** The buffer [b] holds the key [k]: bytes that are not NUL, one at least. *)
Record key_ok (m : strmem Mem) (b : dfk_buf_t) (k : list Z) : Prop := KeyOk {
  ko_size : b_size b = Z.of_nat (length k);
  ko_bytes : bytes_at (sm_bytes m) (b_data b) k;
  ko_ne : k <> [];
  ko_nul : no_nul k
}.

Definition entry_ok (m : strmem Mem) (e : entry) : Prop :=
  items m !! e_addr e = Some (e_item e) /\ key_ok m (key (e_item e)) (e_key e).

(** The map at [mp] holds the entries [es], in descending order. *)
Record map_rep (m : strmem Mem) (mp : Z) (es : list entry) : Prop := MapRep {
  mr_tree : exists t, tree_rep (sm_avl m) mp t /\ avl t /\ elems t = e_addr <$> es;
  mr_entries : forall e, e ∈ es -> entry_ok m e;
  mr_sorted : StronglySorted e_gt es
}.

Lemma set_bytes_same (m : strmem Mem) : lset sbytes (sm_bytes m) m = m.
Proof. by destruct m as [? [] ?]. Qed.

Lemma set_avl_same (m : strmem Mem) : lset savl (sm_avl m) m = m.
Proof. by destruct m. Qed.

Lemma lookup_cmp_run m a i k kb k' : a <> 0 -> items m !! a = Some i ->
  key_ok m (key i) k -> key_ok m kb k' ->
  dfk__strmap_lookup_cmp a kb m = Ok (key_cmp k k', m).
Proof.
  intros Ha Hi [Hs Hb _ _] [Hs' Hb' _ _].
  assert (wp (dfk__strmap_lookup_cmp a kb) m (fun r m' => r = key_cmp k k' /\ m' = m)) as Hw.
  { unfold dfk__strmap_lookup_cmp. apply wp_bind, wp_assert; [by apply nonnull_true|].
    apply wp_bind. eapply wp_deref; [done|exact Hi|]. apply wp_bind, wp_zoom.
    rewrite Hs, Hs', <- Nat2Z.inj_min, Nat2Z.id. eapply strncmp_spec; [exact Hb|exact Hb'|].
    cbn [lget sbytes]. rewrite set_bytes_same. unfold key_cmp.
    destruct (negb (text_cmp k k' =? 0)); by apply wp_ret. }
  by apply wp_run in Hw as (? & ? & -> & -> & ->).
Qed.

Lemma cmp_run m a b i j k k' : a <> 0 -> b <> 0 -> items m !! a = Some i -> items m !! b = Some j ->
  key_ok m (key i) k -> key_ok m (key j) k' ->
  dfk__strmap_cmp a b m = Ok (key_cmp k k', m).
Proof.
  intros Ha Hb Hi Hj Hk Hk'. pose proof (lookup_cmp_run m a i k (key j) k' Ha Hi Hk Hk') as Hr.
  unfold dfk__strmap_cmp, mbind, M_bind, c_assert. rewrite !nonnull_true by done. cbn.
  unfold deref. rewrite decide_False by done. cbn. by rewrite Hj.
Qed.

(** ** Where a key belongs *)

Record map_cut (k : list Z) (es pre mid suf : list entry) : Prop := MapCut {
  mc_split : es = pre ++ mid ++ suf;
  mc_pre : forall e, e ∈ pre -> 0 < key_cmp (e_key e) k;
  mc_mid : forall e, e ∈ mid -> key_cmp (e_key e) k = 0;
  mc_suf : forall e, e ∈ suf -> key_cmp (e_key e) k < 0;
  mc_one : (length mid <= 1)%nat
}.

Lemma cmp_neg xs ys : no_nul xs -> key_gt ys xs -> key_cmp xs ys < 0.
Proof.
  intros Hz Hg. pose proof (key_gt_prefix _ _ Hg) as [Hp1 Hp2].
  destruct (key_cmp_cases xs ys Hz) as [[H1 _]|[[_ H]|[[H1 _]|(H1 & _)]]]; try done.
  by apply (key_gt_trans _ _ _ Hg), key_gt_irrefl in H1.
Qed.

Lemma sorted_map_cut k es : (forall e, e ∈ es -> no_nul (e_key e)) -> StronglySorted e_gt es ->
  exists pre mid suf, map_cut k es pre mid suf.
Proof.
  induction es as [|e es IH]; intros Hz Hs.
  - exists [], [], []. by split; try (cbn; lia); try intros e He%not_elem_of_nil.
  - apply StronglySorted_inv in Hs as [Hs He]. rewrite Forall_forall in He.
    assert (forall f, f ∈ es -> key_gt k (e_key e) \/ e_key e `prefix_of` k -> key_cmp (e_key f) k < 0) as Hneg.
    { intros f Hf Hk. apply cmp_neg; [apply Hz; set_solver|]. specialize (He f Hf). unfold e_gt in He.
      destruct Hk as [Hk|Hk]; [by eapply key_gt_trans|by eapply key_gt_ext_l]. }
    destruct (key_cmp_cases (e_key e) k) as [[_ H]|[[H1 H]|[[H1 H]|(_ & _ & H)]]]; [apply Hz; set_solver|..].
    2: { exists [], [], (e :: es). split; cbn; try lia; try done; try by intros ? ?%not_elem_of_nil.
         - intros f [->|Hf]%elem_of_cons; auto. }
    2: { exists [], [e], es. split; cbn; try lia; try done; try by intros ? ?%not_elem_of_nil.
         - by intros f ->%list_elem_of_singleton.
         - auto. }
    all: destruct (IH ltac:(set_solver) Hs) as (pre & mid & suf & [Heq Hp Hm Hsf Hone]);
      exists (e :: pre), mid, suf; split; cbn; try done;
      [by rewrite Heq|intros f [->|Hf]%elem_of_cons; auto].
Qed.

Lemma cut_addresses es k (c : Z -> Z) pre mid suf : map_cut k es pre mid suf ->
  (forall e, e ∈ es -> c (e_addr e) = key_cmp (e_key e) k) ->
  cut_at c (e_addr <$> es) (e_addr <$> pre) (e_addr <$> mid) (e_addr <$> suf).
Proof.
  intros [-> Hp Hm Hs _] Hc. split.
  - by rewrite !fmap_app.
  - intros x (e & -> & He)%list_elem_of_fmap. rewrite Hc by set_solver. auto.
  - intros x (e & -> & He)%list_elem_of_fmap. rewrite Hc by set_solver. auto.
  - intros x (e & -> & He)%list_elem_of_fmap. rewrite Hc by set_solver. auto.
Qed.
End rep.

(** ** Operations *)

(** The value [dfk_strmap_get] finds for [k]: that of the entry whose key is a
    prefix of [k]. *)
Definition map_get (es : list entry) (k : list Z) : dfk_buf_t :=
  default (Buf 0 0) ((fun e => value (e_item e)) <$> head (filter (fun e => e_key e `prefix_of` k) es)).

Section ops.
Context {Mem It : Type} `{!ListOps Mem It}.
Implicit Types m : strmem Mem.

Lemma cut_prefix es k pre mid suf : (forall e, e ∈ es -> no_nul (e_key e)) -> map_cut k es pre mid suf ->
  (forall e, e ∈ es -> e_key e `prefix_of` k <-> e ∈ mid) /\
  filter (fun e => e_key e `prefix_of` k) es = mid.
Proof.
  intros Hz [-> Hp Hm Hs _].
  assert (forall e, e ∈ mid -> e_key e `prefix_of` k) as H1.
  { intros e He. pose proof (Hm e He). specialize (Hz e ltac:(set_solver)).
    destruct (key_cmp_cases (e_key e) k Hz) as [[? ?]|[[? ?]|[[? ?]|(? & ? & ?)]]]; first [done|lia]. }
  assert (forall e, e ∈ pre ++ suf -> ~ e_key e `prefix_of` k) as H2.
  { intros e He Hpx. assert (key_cmp (e_key e) k <> 0) as Hne.
    { apply elem_of_app in He as [He|He]; [specialize (Hp e He)|specialize (Hs e He)]; lia. }
    specialize (Hz e ltac:(set_solver)).
    destruct (key_cmp_cases (e_key e) k Hz) as [[Hg _]|[[Hg _]|[[_ ?]|(_ & Hl & _)]]]; [| |done|].
    - exact (proj1 (key_gt_prefix _ _ Hg) Hpx).
    - exact (proj2 (key_gt_prefix _ _ Hg) Hpx).
    - apply prefix_length in Hpx. lia. }
  split.
  - intros e He. split; [|auto]. intros Hpx.
    apply elem_of_app in He as [He|[He|He]%elem_of_app]; [|done|]; exfalso; apply (H2 e); set_solver.
  - rewrite !filter_app, (filter_none _ pre), (filter_none _ suf), (filter_all _ mid) by set_solver.
    by rewrite app_nil_r.
Qed.

Lemma rep_no_nul m mp es : map_rep m mp es -> forall e, e ∈ es -> no_nul (e_key e).
Proof. intros [_ He _] e Hin. destruct (He e Hin) as [_ Hk]. apply Hk. Qed.

Lemma rep_addr_ne m mp es e : map_rep m mp es -> e ∈ es -> valid_addr (e_addr e).
Proof.
  intros [(t & Ht & _ & Hel) _ _] He. apply (tr_valid _ _ _ Ht). rewrite Hel. by apply list_elem_of_fmap_2.
Qed.

Lemma lookup_value m mp es kb k e : map_rep m mp es -> key_ok m kb k -> e ∈ es ->
  dfk__strmap_lookup_cmp (e_addr e) kb m = Ok (key_cmp (e_key e) k, m).
Proof.
  intros Hrep Hk He. destruct (mr_entries _ _ _ Hrep e He) as [Hi Hke].
  eapply lookup_cmp_run; [by eapply valid_ne, rep_addr_ne|done..].
Qed.

(** The search of the tree for a key, by any way of comparing with it. *)
Lemma find_spec m mp es k (cmp : Z -> M (strmem Mem) Z) (Q : Z -> strmem Mem -> Prop) :
  map_rep m mp es -> no_nul k ->
  (forall e, e ∈ es -> cmp (e_addr e) m = Ok (key_cmp (e_key e) k, m)) ->
  (forall pre mid suf, map_cut k es pre mid suf ->
     Q (from_option e_addr 0 (head mid)) m) ->
  wp (node ← zoom savl (dfk_avltree_find (fun x => cmp_value (cmp x) m) mp);
      compared node cmp;; mret node) m Q.
Proof.
  intros Hrep Hz Hcmp HQ. pose proof (rep_no_nul _ _ _ Hrep) as Hnul.
  destruct (sorted_map_cut k es Hnul (mr_sorted _ _ _ Hrep)) as (pre & mid & suf & Hcut).
  destruct (mr_tree _ _ _ Hrep) as (t & Ht & Hav & Hel).
  assert (cut_at (fun x => cmp_value (cmp x) m) (elems t) (e_addr <$> pre) (e_addr <$> mid) (e_addr <$> suf)) as Hc.
  { rewrite Hel. eapply cut_addresses; [exact Hcut|]. intros e He. unfold cmp_value. by rewrite Hcmp. }
  apply wp_bind, wp_zoom. eapply wp_mono; [by eapply dfk_avltree_find_spec|].
  intros r a [-> Hr]. change (lget savl m) with (sm_avl m). rewrite set_avl_same.
  specialize (HQ _ _ _ Hcut). destruct Hcut as [-> Hp Hm Hs Hone].
  assert (r = from_option e_addr 0 (head mid)) as ->.
  { destruct mid as [|e [|]]; cbn in Hr, Hone |- *; [done| |lia]. by apply list_elem_of_singleton in Hr. }
  apply wp_bind. unfold compared. destruct mid as [|e mid]; cbn [head from_option] in *.
  - apply wp_when_false; [done|]. by apply wp_ret.
  - assert (e ∈ pre ++ (e :: mid) ++ suf) as He by set_solver.
    apply wp_when_true; [by eapply nonnull_true, valid_ne, rep_addr_ne|].
    apply wp_bind. unfold wp at 1. rewrite Hcmp by done. apply wp_ret. by apply wp_ret.
Qed.

Lemma dfk_strmap_get_spec m mp es kd kl k :
  map_rep m mp es -> key_ok m (Buf kd kl) k ->
  wp (dfk_strmap_get mp kd kl) m (fun r m' => r = map_get es k /\ m' = m).
Proof.
  intros Hrep Hk. destruct (mr_tree _ _ _ Hrep) as (t & Ht & _).
  pose proof (ko_size _ _ _ Hk) as Hs. cbn in Hs. pose proof (ko_ne _ _ _ Hk) as Hne.
  destruct (ko_bytes _ _ _ Hk) as [Hkd _]. cbn in Hkd.
  unfold dfk_strmap_get. apply wp_bind, wp_assert; [apply nonnull_true, Ht|].
  apply wp_bind, wp_assert; [apply nonnull_true; lia|].
  apply wp_bind, wp_assert; [apply negb_true_iff, Z.eqb_neq; destruct k; [done|cbn in Hs; lia]|].
  apply wp_bind, wp_get.
  assert (wp (node ← zoom savl (dfk_avltree_find (fun x => cmp_value (dfk__strmap_lookup_cmp x (Buf kd kl)) m) mp);
      compared node (fun x => dfk__strmap_lookup_cmp x (Buf kd kl));; mret node) m
    (fun r m' => m' = m /\ exists pre mid suf, map_cut k es pre mid suf /\ r = from_option e_addr 0 (head mid))) as Hw.
  { eapply (find_spec _ _ _ _ (fun x => dfk__strmap_lookup_cmp x (Buf kd kl)));
      [done|apply Hk|by intros; eapply lookup_value|].
    intros pre mid suf Hc. split; [done|]. eauto 6. }
  unfold wp in Hw at 1. unfold mbind, M_bind, wp in Hw |- *.
  destruct (zoom savl _ m) as [[node m1]|]; [|done]. destruct (compared node _ m1) as [[[] m2]|]; [|done].
  cbn in Hw. destruct Hw as [-> (pre & mid & suf & Hc & ->)].
  unfold map_get. rewrite (proj2 (cut_prefix es k pre mid suf (rep_no_nul _ _ _ Hrep) Hc)).
  destruct mid as [|e mid]; cbn; [done|].
  assert (e ∈ es) as He by (destruct Hc as [-> _ _ _ _]; set_solver).
  pose proof (valid_ne _ (rep_addr_ne _ _ _ _ Hrep He)) as He0.
  rewrite nonnull_true by done. unfold deref. rewrite decide_False by done.
  destruct (mr_entries _ _ _ Hrep e He) as [Hi _]. cbn. by rewrite Hi.
Qed.

Lemma cmp_value_run m c v : c m = Ok (v, m) -> cmp_value (Mem := Mem) c m = v.
Proof. intros Hc. unfold cmp_value. by rewrite Hc. Qed.

(** An item that is not in the map, with its key, and a hook as initialised. *)
Record fresh_item (m : strmem Mem) (es : list entry) (e : entry) : Prop := FreshItem {
  fi_hook : nodes (sm_avl m) !! e_addr e = Some (AHook 0 0 0 0);
  fi_valid : valid_addr (e_addr e);
  fi_new : e_addr e ∉ e_addr <$> es;
  fi_item : entry_ok m e
}.

(** No key of [es] is a proper extension of [k]. *)
Definition no_extension (es : list entry) (k : list Z) : Prop :=
  forall e, e ∈ es -> k `prefix_of` e_key e -> e_key e `prefix_of` k.

Lemma insert_sorted e pre suf : no_nul (e_key e) -> (forall f, f ∈ pre ++ suf -> no_nul (e_key f)) ->
  StronglySorted e_gt (pre ++ suf) -> map_cut (e_key e) (pre ++ suf) pre [] suf ->
  no_extension (pre ++ suf) (e_key e) -> StronglySorted e_gt (pre ++ e :: suf).
Proof.
  intros Hz Hnul Hs [_ Hp _ Hsuf _] Hext.
  assert (forall f, f ∈ pre -> e_gt f e) as H1.
  { intros f Hf. specialize (Hp f Hf). pose proof (Hext f ltac:(set_solver)) as Hx.
    destruct (key_cmp_cases (e_key f) (e_key e) (Hnul f ltac:(set_solver)))
      as [[? ?]|[[? ?]|[[? ?]|(Hpx & Hl & ?)]]]; [done|lia|lia|].
    apply Hx, prefix_length in Hpx. lia. }
  assert (forall f, f ∈ suf -> e_gt e f) as H2.
  { intros f Hf. specialize (Hsuf f Hf).
    by destruct (key_cmp_cases (e_key f) (e_key e) (Hnul f ltac:(set_solver)))
      as [[? ?]|[[? ?]|[[? ?]|(? & ? & ?)]]]; [lia|done|lia|lia]. }
  clear Hp Hsuf Hext Hnul. induction pre as [|f pre IH]; cbn in *.
  - constructor; [done|]. by apply Forall_forall.
  - apply StronglySorted_inv in Hs as [Hs Hf]. apply Forall_app in Hf as [Hf1 Hf2].
    constructor; [apply IH; [done|intros; apply H1; set_solver]|].
    apply Forall_app. split; [done|]. constructor; [apply H1; set_solver|done].
Qed.

(** Memory after the trees changed. *)
Definition with_avl (a : amem) (m : strmem Mem) : strmem Mem := StrMem a (sm_arena m) (items m).

Lemma rep_with_avl m mp es' a : (forall e, e ∈ es' -> entry_ok m e) ->
  (exists t, tree_rep a mp t /\ avl t /\ elems t = e_addr <$> es') ->
  StronglySorted e_gt es' -> map_rep (with_avl a m) mp es'.
Proof.
  intros He Ht Hs. split; [done| |done]. intros e Hin. destruct (He e Hin) as [Hi [Q1 Q2 Q3 Q4]].
  split; [done|]. by split.
Qed.

Lemma dfk_strmap_insert_spec m mp es e :
  map_rep m mp es -> fresh_item m es e -> no_extension es (e_key e) ->
  wp (dfk_strmap_insert mp (e_addr e)) m (fun _ m' =>
    if decide (Exists (fun f => e_key f `prefix_of` e_key e) es) then m' = m
    else exists a es', m' = with_avl a m /\ map_rep m' mp es' /\ es' ≡ₚ e :: es /\
      outside mp (e_addr e :: (e_addr <$> es)) (sm_avl m) a).
Proof.
  intros Hrep [Hhook Hv Hnew [Hi Hk]] Hext. destruct (mr_tree _ _ _ Hrep) as (t & Ht & Hav & Hel).
  pose proof (rep_no_nul _ _ _ Hrep) as Hnul. pose proof (valid_ne _ Hv) as He0.
  assert (forall f, f ∈ es ->
    dfk__strmap_cmp (e_addr f) (e_addr e) m = Ok (key_cmp (e_key f) (e_key e), m)) as Hcmp.
  { intros f Hf. destruct (mr_entries _ _ _ Hrep f Hf) as [Hfi Hfk].
    eapply cmp_run; [by eapply valid_ne, rep_addr_ne|done..]. }
  unfold dfk_strmap_insert. apply wp_bind, wp_assert; [apply nonnull_true, Ht|].
  apply wp_bind, wp_assert; [by apply nonnull_true|]. apply wp_bind, wp_get.
  assert (wp (node ← zoom savl (dfk_avltree_find (fun x => cmp_value (dfk__strmap_cmp x (e_addr e)) m) mp);
      compared node (fun x => dfk__strmap_cmp x (e_addr e));; mret node) m (fun _ m' => m' = m)) as Hw.
  { eapply (find_spec _ _ _ _ (fun x => dfk__strmap_cmp x (e_addr e))); [done|apply Hk|done|done]. }
  unfold wp in Hw at 1. unfold mbind at 1, M_bind at 1, wp. unfold mbind, M_bind in Hw.
  destruct (zoom savl _ m) as [[node m1]|]; [|done]. unfold mbind at 1, M_bind at 1.
  destruct (compared node _ m1) as [[[] m2]|]; [|done]. cbn in Hw. subst m2.
  match goal with |- match ?c m with _ => _ end => change (wp c m (fun (_ : unit) (m' : strmem Mem) =>
    if decide (Exists (fun f => e_key f `prefix_of` e_key e) es) then m' = m
    else exists a es', m' = with_avl a m /\ map_rep m' mp es' /\ es' ≡ₚ e :: es /\
      outside mp (e_addr e :: (e_addr <$> es)) (sm_avl m) a)) end.
  destruct (sorted_map_cut (e_key e) es Hnul (mr_sorted _ _ _ Hrep)) as (pre & mid & suf & Hcut).
  destruct (cut_prefix _ _ _ _ _ Hnul Hcut) as [Hpre _].
  assert (cut_at (fun x => cmp_value (dfk__strmap_cmp x (e_addr e)) m) (elems t)
    (e_addr <$> pre) (e_addr <$> mid) (e_addr <$> suf)) as Hc.
  { rewrite Hel. eapply cut_addresses; [exact Hcut|]. intros f Hf. by apply cmp_value_run, Hcmp. }
  apply wp_bind, wp_zoom. eapply wp_mono; [eapply dfk_avltree_insert_spec; [exact Ht|done| |exact Hc]|].
  { split_and!; [done..|]. by rewrite Hel. }
  intros r a Hr. apply wp_ret.
  assert (Exists (fun f => e_key f `prefix_of` e_key e) es <-> mid <> []) as Hmid.
  { rewrite Exists_exists. split.
    - intros (f & Hf & Hpf). apply Hpre in Hpf; [|done]. by intros ->; apply not_elem_of_nil in Hpf.
    - destruct mid as [|f mid]; [done|]. intros _. assert (f ∈ es) as Hf.
      { rewrite (mc_split _ _ _ _ _ Hcut). set_solver. }
      exists f. split; [done|]. apply Hpre; set_solver. }
  destruct mid as [|f mid].
  - rewrite decide_True in Hr by done. rewrite decide_False by (intros HE%Hmid; done).
    destruct Hr as [-> (t' & Ht' & Hav' & Hel' & Ho)]. pose proof (mc_split _ _ _ _ _ Hcut) as Hes.
    cbn in Hes. exists a, (pre ++ e :: suf). split; [by destruct m|]. split_and!.
    + apply rep_with_avl.
      * intros g Hg. assert (g = e \/ g ∈ es) as [->|Hin]; [rewrite Hes in *; set_solver|done|].
        by apply (mr_entries _ _ _ Hrep).
      * exists t'. split_and!; [done..|]. by rewrite Hel', fmap_app.
      * subst es. apply insert_sorted; try done; [apply Hk|apply (mr_sorted _ _ _ Hrep)].
    + rewrite Hes. by rewrite Permutation_middle.
    + by rewrite <- Hel.
  - rewrite decide_False in Hr by done. rewrite decide_True by (by apply Hmid).
    destruct Hr as [_ ->]. apply set_avl_same.
Qed.

Lemma dfk_strmap_erase_spec m mp es e pre suf :
  map_rep m mp es -> es = pre ++ e :: suf ->
  wp (dfk_strmap_erase mp (e_addr e)) m (fun _ m' => exists a,
    m' = with_avl a m /\ map_rep m' mp (pre ++ suf) /\ outside mp (e_addr <$> es) (sm_avl m) a).
Proof.
  intros Hrep ->. destruct (mr_tree _ _ _ Hrep) as (t & Ht & Hav & Hel).
  unfold dfk_strmap_erase. apply wp_bind, wp_assert; [apply nonnull_true, Ht|]. apply wp_zoom.
  rewrite fmap_app in Hel. cbn in Hel.
  eapply wp_mono; [by eapply dfk_avltree_erase_spec|]. intros _ a (t' & Ht' & Hav' & Hel' & Ho).
  exists a. split; [by destruct m|]. split.
  - apply rep_with_avl.
    + intros g Hg. apply (mr_entries _ _ _ Hrep). set_solver.
    + exists t'. split_and!; [done..|]. by rewrite Hel', fmap_app.
    + pose proof (mr_sorted _ _ _ Hrep) as Hs. clear -Hs. induction pre as [|f pre IH]; cbn in *.
      * by apply StronglySorted_inv in Hs as [Hs _].
      * apply StronglySorted_inv in Hs as [Hs Hf]. constructor; [auto|].
        apply Forall_app in Hf as [Hf1 Hf2]. apply Forall_app. split; [done|]. by inversion Hf2.
  - rewrite fmap_app. cbn. by rewrite <- Hel.
Qed.

Lemma dfk_strmap_size_spec m mp es : map_rep m mp es ->
  wp (dfk_strmap_size mp) m (fun r m' => r = Z.of_nat (length es) /\ m' = m).
Proof.
  intros Hrep. destruct (mr_tree _ _ _ Hrep) as (t & Ht & Hav & Hel).
  unfold dfk_strmap_size. apply wp_bind, wp_assert; [apply nonnull_true, Ht|]. apply wp_zoom.
  eapply wp_mono; [by eapply dfk_avltree_size_spec|]. intros r a [-> ->].
  split; [by rewrite Hel, length_fmap|apply set_avl_same].
Qed.

Lemma dfk_strmap_init_spec m mp : mp <> 0 ->
  wp (dfk_strmap_init mp) m (fun _ m' => exists a, m' = with_avl a m /\ map_rep m' mp []).
Proof.
  intros Hmp. unfold dfk_strmap_init. apply wp_bind, wp_assert; [by apply nonnull_true|].
  apply wp_zoom. apply (init_avl_rep (fun _ _ => 0)); [done|].
  intros a (t & Ht & Hav & Hel & _). exists a. split; [by destruct m|].
  apply rep_with_avl; [by intros e ?%not_elem_of_nil| |constructor]. by exists t.
Qed.

(** An item outside of the map is initialised. *)
Lemma item_init_spec m mp es a kd kl vd vl k : map_rep m mp es -> valid_addr a ->
  a ∉ e_addr <$> es -> key_ok m (Buf kd kl) k -> (vd <> 0 \/ vl = 0) ->
  wp (dfk_strmap_item_init a kd kl vd vl) m (fun _ m' =>
    map_rep m' mp es /\ sm_arena m' = sm_arena m /\
    fresh_item m' es (Entry a k (Item (Buf kd kl) (Buf vd vl)))).
Proof.
  intros Hrep Hv Hnew [Hs Hb Hne Hz] Hvd. cbn in Hs, Hb. destruct (mr_tree _ _ _ Hrep) as (t & Ht & Hav & Hel).
  destruct Hb as [Hkd Hb]. pose proof (valid_ne _ Hv) as Ha.
  unfold dfk_strmap_item_init. apply wp_bind, wp_assert; [by apply nonnull_true|].
  apply wp_bind, wp_assert; [apply nonnull_true; lia|].
  apply wp_bind, wp_assert; [apply negb_true_iff, Z.eqb_neq; destruct k; [done|cbn in Hs; lia]|].
  apply wp_bind, wp_assert.
  { destruct Hvd as [Hvd| ->]; [by rewrite nonnull_true|]. by rewrite orb_true_r. }
  apply wp_bind, wp_zoom. eapply hook_init_fresh; [exact Ht|done|by rewrite Hel|].
  intros m1 Ht1 Hf. apply wp_store; [done|]. split_and!; [split| |split].
  - by exists t.
  - intros e He. destruct (mr_entries _ _ _ Hrep e He) as [Hi [Q1 Q2 Q3 Q4]]. split; [|by split].
    cbn. rewrite lookup_insert_ne; [done|]. intros ->. apply Hnew. by apply list_elem_of_fmap_2.
  - apply (mr_sorted _ _ _ Hrep).
  - done.
  - cbn. apply Hf.
  - done.
  - done.
  - split; [cbn; by rewrite lookup_insert_eq|]. by split.
Qed.
End ops.

(** ** Programs over a map

    The abstract map: the item and the value each key is bound to. *)

Notation strings := (gmap (list Z) (Z * dfk_buf_t)).

Inductive map_cmd :=
| MInsert (item : Z) (k : list Z) (kdata : Z) (v : dfk_buf_t)
| MGet (k : list Z) (kdata : Z)
| MErase (item : Z) (k : list Z)
| MSize.

Definition cmd_key (c : map_cmd) : list (list Z) :=
  match c with MInsert _ k _ _ | MGet k _ => [k] | _ => [] end.

Definition run_map_cmd {Mem} (mp : Z) (c : map_cmd) : M (strmem Mem) (list dfk_buf_t) :=
  match c with
  | MInsert item k kdata v =>
      dfk_strmap_item_init item kdata (Z.of_nat (length k)) (b_data v) (b_size v);;
      dfk_strmap_insert mp item;;
      mret []
  | MGet k kdata => v ← dfk_strmap_get mp kdata (Z.of_nat (length k)); mret [v]
  | MErase item _ => dfk_strmap_erase mp item;; mret []
  | MSize => n ← dfk_strmap_size mp; mret [Buf 0 n]
  end.

Fixpoint run_map_cmds {Mem} (mp : Z) (cs : list map_cmd) : M (strmem Mem) (list (list dfk_buf_t)) :=
  match cs with
  | [] => mret []
  | c :: cs => r ← run_map_cmd mp c; rs ← run_map_cmds mp cs; mret (r :: rs)
  end.

(** [None] where a command violates a precondition: an item is initialised
    only outside of the map, and erased only while it is in. *)
Definition abs_map_step (s : strings) (c : map_cmd) : option (strings * list dfk_buf_t) :=
  match c with
  | MInsert item k _ v =>
      if decide (valid_addr item /\ (b_data v <> 0 \/ b_size v = 0) /\
                 map_Forall (fun _ b => fst b <> item) s) then
        Some (match s !! k with Some _ => s | None => <[k := (item, v)]> s end, [])
      else None
  | MGet k _ => Some (s, [from_option snd (Buf 0 0) (s !! k)])
  | MErase item k => if decide (fst <$> s !! k = Some item) then Some (delete k s, []) else None
  | MSize => Some (s, [Buf 0 (Z.of_nat (size s))])
  end.

Fixpoint abs_map_steps (s : strings) (cs : list map_cmd) : option (strings * list (list dfk_buf_t)) :=
  match cs with
  | [] => Some (s, [])
  | c :: cs =>
      '(s', o) ← abs_map_step s c;
      '(s'', os) ← abs_map_steps s' cs;
      Some (s'', o :: os)
  end.

(** The buffers a command names hold its key. *)
Definition texts_ok (b : bmem) (c : map_cmd) : Prop :=
  match c with
  | MInsert _ k kdata _ | MGet k kdata => bytes_at b kdata k /\ k <> [] /\ no_nul k
  | _ => True
  end.

(** No key of [ks] is a proper prefix of another. *)
Definition prefix_free (ks : list (list Z)) : Prop :=
  Forall (fun k => Forall (fun k' => k `prefix_of` k' -> k = k') ks) ks.

#[export] Instance prefix_free_dec ks : Decision (prefix_free ks).
Proof. unfold prefix_free. apply _. Defined.

Definition entry_binding (e : entry) : list Z * (Z * dfk_buf_t) :=
  (e_key e, (e_addr e, value (e_item e))).

Section programs.
Context {Mem It : Type} `{!ListOps Mem It}.
Implicit Types m : strmem Mem.

Definition strings_rep m (mp : Z) (s : strings) : Prop :=
  exists es, map_rep m mp es /\ s = list_to_map (entry_binding <$> es).

Lemma binding_keys es : (entry_binding <$> es).*1 = e_key <$> es.
Proof. rewrite <- list_fmap_compose. done. Qed.

Lemma sorted_keys_nodup es : StronglySorted e_gt es -> NoDup (e_key <$> es).
Proof.
  induction 1 as [|e es Hs IH Hf]; cbn; constructor; [|done].
  intros (f & Heq & Hin)%list_elem_of_fmap. rewrite Forall_forall in Hf.
  specialize (Hf f Hin). unfold e_gt in Hf. rewrite Heq in Hf. by apply key_gt_irrefl in Hf.
Qed.

Lemma rep_nodup m mp es : map_rep m mp es -> NoDup (entry_binding <$> es).*1.
Proof. intros Hrep. rewrite binding_keys. apply sorted_keys_nodup, (mr_sorted _ _ _ Hrep). Qed.

Lemma bound_entry m mp es k b : map_rep m mp es ->
  (list_to_map (entry_binding <$> es) : strings) !! k = Some b <->
  exists e, e ∈ es /\ e_key e = k /\ b = (e_addr e, value (e_item e)).
Proof.
  intros Hrep. rewrite <- elem_of_list_to_map by (by eapply rep_nodup). rewrite list_elem_of_fmap. split.
  - intros (e & [= -> ->] & He). by exists e.
  - intros (e & He & <- & ->). by exists e.
Qed.

(** With prefix-free keys the entry found is the one bound to the key. *)
Lemma map_get_bound m mp es k : map_rep m mp es ->
  (forall e, e ∈ es -> e_key e `prefix_of` k -> e_key e = k) ->
  map_get es k = from_option snd (Buf 0 0) ((list_to_map (entry_binding <$> es) : strings) !! k).
Proof.
  intros Hrep Hpf. unfold map_get. destruct (filter _ es) as [|e fs] eqn:Ef; cbn.
  - destruct (_ !! k) as [b|] eqn:Eb; [|done]. apply (bound_entry _ _ _ _ _ Hrep) in Eb as (e & He & <- & _).
    exfalso. assert (e ∈ filter (fun e' => e_key e' `prefix_of` e_key e) es) as Hin by by apply list_elem_of_filter.
    rewrite Ef in Hin. by apply not_elem_of_nil in Hin.
  - assert (e ∈ filter (fun e => e_key e `prefix_of` k) es) as [Hp He]%list_elem_of_filter
      by (rewrite Ef; set_solver).
    assert ((list_to_map (entry_binding <$> es) : strings) !! k = Some (e_addr e, value (e_item e))) as ->; [|done].
    eapply bound_entry; [exact Hrep|]. exists e. auto.
Qed.

Lemma key_ok_bytes m m' b k : sm_arena m' = sm_arena m -> key_ok m b k -> key_ok m' b k.
Proof. intros He [Q1 Q2 Q3 Q4]. split; try done. unfold sm_bytes. by rewrite He. Qed.

Lemma run_map_cmd_refines m mp s c s' o (ks : list (list Z)) :
  strings_rep m mp s -> texts_ok (sm_bytes m) c -> prefix_free ks ->
  (forall k, k ∈ cmd_key c -> k ∈ ks) -> (forall k b, s !! k = Some b -> k ∈ ks) ->
  abs_map_step s c = Some (s', o) ->
  wp (run_map_cmd mp c) m (fun o' m' => o' = o /\ strings_rep m' mp s' /\ sm_arena m' = sm_arena m /\
    forall k b, s' !! k = Some b -> k ∈ ks).
Proof.
  intros (es & Hrep & ->) Htext Hpf Hck Hsk.
  assert (forall k k', k ∈ ks -> k' ∈ ks -> k `prefix_of` k' -> k = k') as Hpf'.
  { intros k k' Hk Hk' Hp. unfold prefix_free in Hpf. rewrite Forall_forall in Hpf.
    specialize (Hpf k Hk). rewrite Forall_forall in Hpf. auto. }
  assert (forall e, e ∈ es -> e_key e ∈ ks) as Hek.
  { intros e He. eapply Hsk, bound_entry; [exact Hrep|]. by exists e. }
  pose proof (rep_nodup _ _ _ Hrep) as Hnd.
  destruct c as [a k kd v|k kd|a k|]; cbn [abs_map_step run_map_cmd texts_ok] in *.
  - destruct (decide _) as [(Hv & Hvd & Hall)|]; [|done]. intros [= <- <-].
    destruct Htext as (Hkb & Hkn & Hkz). assert (k ∈ ks) as Hk by (apply Hck; set_solver).
    assert (a ∉ e_addr <$> es) as Hnew.
    { intros (e & -> & He)%list_elem_of_fmap. apply (Hall (e_key e) (e_addr e, value (e_item e))); [|done].
      eapply bound_entry; [exact Hrep|]. by exists e. }
    apply wp_bind. eapply wp_mono; [eapply (item_init_spec _ _ _ _ _ _ _ _ k); [exact Hrep|done|done|by split|done]|].
    intros [] m1 (Hrep1 & Ha1 & Hf1). apply wp_bind.
    eapply wp_mono; [eapply (dfk_strmap_insert_spec _ _ _ _ Hrep1 Hf1)|].
    { intros f Hf Hp. cbn in Hp |- *. by rewrite (Hpf' k (e_key f)) by auto. }
    intros [] m2 Hm2. apply wp_ret. split; [done|]. cbn [e_key] in Hm2.
    destruct (list_to_map (entry_binding <$> es) !! k) as [b|] eqn:Eb.
    + apply (bound_entry _ _ _ _ _ Hrep) in Eb as (e & He & Hke & _).
      rewrite decide_True in Hm2 by (apply Exists_exists; exists e; rewrite Hke; done). subst m2.
      split_and!; [by exists es|done|done].
    + rewrite decide_False in Hm2.
      2: { intros (f & Hf & Hp)%Exists_exists. pose proof (Hpf' _ _ (Hek f Hf) Hk Hp) as E.
           assert ((list_to_map (entry_binding <$> es) : strings) !! k =
             Some (e_addr f, value (e_item f))) as Hb by (eapply bound_entry; [exact Hrep|]; by exists f).
           by rewrite Eb in Hb. }
      destruct Hm2 as (a' & es' & -> & Hrep2 & Hperm & _). split_and!.
      * exists es'. split; [done|]. symmetry. rewrite (list_to_map_proper (entry_binding <$> es')
          (entry_binding <$> (Entry a k (Item (Buf kd (Z.of_nat (length k))) (Buf (b_data v) (b_size v))) :: es))).
        -- cbn. by destruct v.
        -- by eapply rep_nodup.
        -- by rewrite Hperm.
      * done.
      * intros k' b. rewrite lookup_insert_Some. intros [[<- _]|[_ Hb]]; [done|by eapply Hsk].
  - intros [= <- <-]. destruct Htext as (Hkb & Hkn & Hkz). apply wp_bind.
    eapply wp_mono; [eapply (dfk_strmap_get_spec _ _ _ _ _ k Hrep); by split|].
    intros r m' [-> ->]. apply wp_ret. split_and!; [|by exists es|done|done].
    f_equal. eapply map_get_bound; [exact Hrep|]. intros e He. apply Hpf'; [auto|apply Hck; set_solver].
  - destruct (decide _) as [Hb|]; [|done]. intros [= <- <-].
    destruct (list_to_map (entry_binding <$> es) !! k) as [b|] eqn:Eb; [|done].
    cbn in Hb. injection Hb as Hb. apply (bound_entry _ _ _ _ _ Hrep) in Eb as (e & He & <- & ->).
    cbn in Hb. subst a. apply list_elem_of_split in He as (pre & suf & ->). apply wp_bind.
    eapply wp_mono; [by eapply dfk_strmap_erase_spec|]. intros [] m' (a & -> & Hrep' & _). apply wp_ret.
    split_and!; [done| |done|].
    + exists (pre ++ suf). split; [done|]. apply map_eq. intros k.
      rewrite binding_keys, fmap_app in Hnd. cbn in Hnd. apply NoDup_app in Hnd as (N1 & N2 & N3).
      apply NoDup_cons in N3 as [N3 N4].
      rewrite !fmap_app, fmap_cons.
      change (entry_binding e) with (e_key e, (e_addr e, value (e_item e))).
      rewrite !list_to_map_app, list_to_map_cons.
      destruct (decide (k = e_key e)) as [->|Hne].
      * rewrite lookup_delete_eq. symmetry. apply lookup_union_None. split; apply not_elem_of_list_to_map_1.
        -- rewrite binding_keys. intros Hin. apply (N2 _ Hin). set_solver.
        -- by rewrite binding_keys.
      * rewrite lookup_delete_ne, !lookup_union, lookup_insert_ne by done. done.
    + intros k' b'. rewrite lookup_delete_Some. intros [_ Hb]. by eapply Hsk.
  - intros [= <- <-]. apply wp_bind. eapply wp_mono; [by eapply dfk_strmap_size_spec|].
    intros r m' [-> ->]. apply wp_ret. split_and!; [|by exists es|done|done]. do 3 f_equal.
    rewrite <- (length_fmap entry_binding es). rewrite <- (length_map_to_list (list_to_map (entry_binding <$> es) : strings)).
    apply Permutation_length. symmetry. by apply map_to_list_to_map.
Qed.

Lemma run_map_cmds_refines cs : forall m mp s s' os (ks : list (list Z)),
  strings_rep m mp s -> Forall (texts_ok (sm_bytes m)) cs -> prefix_free ks ->
  (forall k, k ∈ (cs ≫= cmd_key) -> k ∈ ks) -> (forall k b, s !! k = Some b -> k ∈ ks) ->
  abs_map_steps s cs = Some (s', os) ->
  wp (run_map_cmds mp cs) m (fun os' m' => os' = os /\ strings_rep m' mp s').
Proof.
  induction cs as [|c cs IH]; intros m mp s s' os ks Hrep Ht Hpf Hck Hsk; cbn.
  - intros [= <- <-]. by apply wp_ret.
  - destruct (abs_map_step s c) as [[s1 o]|] eqn:Hstep; [|done]. cbn.
    destruct (abs_map_steps s1 cs) as [[s2 os2]|] eqn:Hsteps; [|done]. cbn. intros [= <- <-].
    apply Forall_cons in Ht as [Hc Ht]. cbn in Hck.
    apply wp_bind. eapply wp_mono; [eapply (run_map_cmd_refines _ _ _ _ _ _ ks); try done|].
    { intros k Hk. apply Hck. apply elem_of_app. by left. }
    intros o' m' (-> & Hrep' & Ha & Hsk'). apply wp_bind.
    eapply wp_mono; [eapply (IH _ _ _ _ _ ks Hrep'); try done|].
    + unfold sm_bytes. by rewrite Ha.
    + intros k Hk. apply Hck. apply elem_of_app. by right.
    + intros os' m'' [-> Hr]. by apply wp_ret.
Qed.
End programs.

(** ** What is proved *)

Section examples.
Definition sample_keys : bmem :=
  put_bytes 300 [97; 98] (put_bytes 310 [97; 99] (put_bytes 320 [98] (put_bytes 330 [97; 98; 99]
    (put_bytes 340 [118; 119] (BMem ∅ ∅))))).

Definition sample_strmem : strmem mem :=
  StrMem (AMem ∅ ∅) (ArMem (LMem ∅ ∅) sample_keys ∅ ∅ ∅ []) ∅.

Definition sample_map_program : list map_cmd :=
  [MInsert 64 [97; 98] 300 (Buf 340 2); MInsert 128 [98] 320 (Buf 341 1); MGet [97; 98] 300;
   MGet [97; 99] 310; MInsert 192 [97; 98] 300 (Buf 0 0); MInsert 256 [97; 99] 310 (Buf 0 0);
   MSize; MGet [97; 98] 300; MErase 64 [97; 98]; MGet [97; 98] 300; MSize].

Lemma map_sample_bytes p bs : bool_decide (0 < p) = true ->
  bool_decide (Forall2 (fun a b => cells sample_keys !! a = Some (Some b))
    (seqZ p (Z.of_nat (length bs))) bs) = true ->
  bytes_at sample_keys p bs.
Proof.
  intros Hp%bool_decide_eq_true Hf%bool_decide_eq_true. split; [done|]. intros i b Hb.
  pose proof (lookup_lt_Some _ _ _ Hb) as Hi.
  assert (seqZ p (Z.of_nat (length bs)) !! i = Some (p + Z.of_nat i)) as Hs by (apply lookup_seqZ; lia).
  by apply (Forall2_lookup_lr _ _ _ _ _ _ Hf Hs Hb).
Qed.
End examples.

(** C11: on keys of which none is a proper prefix of another, without NUL bytes, a
    map is a finite map: a program of insertions of fresh items, look-ups,
    removals and size queries runs without fault and returns what the finite
    map says, where the first binding of a key stays until it is erased. *)
Theorem strmap_refines {Mem It : Type} `{!ListOps Mem It} (m : strmem Mem) (map : Z)
    (cs : list map_cmd) (s : gmap (list Z) (Z * dfk_buf_t)) (outs : list (list dfk_buf_t))
    (Hmap : map <> 0) (Htexts : Forall (texts_ok (sm_bytes m)) cs)
    (Hkeys : prefix_free (cs ≫= cmd_key)) (Hlegal : abs_map_steps ∅ cs = Some (s, outs)) :
  exists m' es, (dfk_strmap_init map;; run_map_cmds map cs) m = Ok (outs, m') /\
    map_rep m' map es /\ s = list_to_map (entry_binding <$> es).
Proof.
  assert (wp (dfk_strmap_init map;; run_map_cmds map cs) m
    (fun os m' => os = outs /\ strings_rep m' map s)) as Hw.
  { apply wp_bind. eapply wp_mono; [by apply dfk_strmap_init_spec|]. intros [] m1 (a & -> & Hrep).
    eapply run_map_cmds_refines; [|exact Htexts|exact Hkeys|done| |exact Hlegal].
    - by exists [].
    - intros k b. by rewrite lookup_empty. }
  apply wp_run in Hw as (os & m' & Hrun & -> & (es & Hrep & ->)). by exists m', es.
Qed.

Lemma strmap_refines_witness :
  exists m', (dfk_strmap_init 8;; run_map_cmds 8 sample_map_program) sample_strmem =
    Ok ([[]; []; [Buf 340 2]; [Buf 0 0]; []; []; [Buf 0 3]; [Buf 340 2]; []; [Buf 0 0]; [Buf 0 2]], m').
Proof.
  edestruct (strmap_refines sample_strmem 8 sample_map_program) as (m' & es & Hrun & _).
  - done.
  - apply Forall_forall. intros c Hc. unfold sm_bytes, sample_strmem. cbn [sm_arena ar_bytes].
    repeat (apply elem_of_cons in Hc as [->|Hc]; [cbn [texts_ok]; try done;
      (split; [by apply map_sample_bytes; vm_compute|]); (split; [done|]);
      apply (bool_decide_unpack _); vm_compute; exact I|]).
    by apply not_elem_of_nil in Hc.
  - apply (bool_decide_unpack _). vm_compute. exact I.
  - vm_compute. reflexivity.
  - exists m'. exact Hrun.
Defined.

(** A look-up in a map with prefix-free keys takes a stored key for every key
    that extends it: it returns the value of the stored key that is a prefix
    of the one asked for, NULL when there is none, and changes nothing. *)
Theorem strmap_get_by_prefix {Mem It : Type} `{!ListOps Mem It} (m : strmem Mem) (map kdata : Z)
    (es : list entry) (k : list Z)
    (Hrep : map_rep m map es) (Htext : bytes_at (sm_bytes m) kdata k) (Hk : k <> []) (Hz : no_nul k) :
  exists v, dfk_strmap_get map kdata (Z.of_nat (length k)) m = Ok (v, m) /\
    ((exists e, e ∈ es /\ e_key e `prefix_of` k /\ v = value (e_item e)) \/
     ((forall e, e ∈ es -> ~ e_key e `prefix_of` k) /\ v = Buf 0 0)).
Proof.
  pose proof (dfk_strmap_get_spec m map es kdata (Z.of_nat (length k)) k Hrep) as Hw.
  specialize (Hw ltac:(by split)). apply wp_run in Hw as (v & m' & Hrun & -> & ->).
  exists (map_get es k). split; [done|]. unfold map_get.
  destruct (filter (fun e => e_key e `prefix_of` k) es) as [|e fs] eqn:Ef; cbn.
  - right. split; [|done]. intros e He Hp.
    assert (e ∈ filter (fun e => e_key e `prefix_of` k) es) as Hin by by apply list_elem_of_filter.
    rewrite Ef in Hin. by apply not_elem_of_nil in Hin.
  - left. exists e. assert (e ∈ filter (fun e => e_key e `prefix_of` k) es) as [Hp He]%list_elem_of_filter
      by (rewrite Ef; set_solver).
    done.
Qed.

Lemma strmap_get_by_prefix_witness :
  exists m1 v, (dfk_strmap_init 8;; run_map_cmd 8 (MInsert 64 [97; 98] 300 (Buf 340 2))) sample_strmem =
      Ok ([], m1) /\
    dfk_strmap_get 8 330 3 m1 = Ok (v, m1) /\ v = Buf 340 2.
Proof.
  assert (wp (dfk_strmap_init 8;; run_map_cmd 8 (MInsert 64 [97; 98] 300 (Buf 340 2))) sample_strmem
    (fun o m' => o = [] /\ strings_rep m' 8 {[ [97; 98] := (64, Buf 340 2) ]} /\
      sm_arena m' = sm_arena sample_strmem /\
      forall k b, ({[ [97; 98] := (64, Buf 340 2) ]} : gmap (list Z) (Z * dfk_buf_t)) !! k = Some b ->
        k ∈ [[97; 98]])) as Hw.
  { apply wp_bind. eapply wp_mono; [by apply dfk_strmap_init_spec|]. intros [] m1 (a & -> & Hrep).
    eapply wp_mono; [eapply (run_map_cmd_refines _ _ _ _ _ _ [[97; 98]])|intros o' m' Hpost; exact Hpost].
    - by exists [].
    - split; [by apply map_sample_bytes; vm_compute|]. split; [done|].
      apply (bool_decide_unpack _); vm_compute; exact I.
    - apply (bool_decide_unpack _). vm_compute. exact I.
    - done.
    - intros k b. cbn. by rewrite lookup_empty.
    - vm_compute. reflexivity. }
  apply wp_run in Hw as (o & m1 & Hrun & -> & (es & Hrep & Hs) & Ha & _).
  destruct (strmap_get_by_prefix m1 8 330 es [97; 98; 99] Hrep) as (v & Hget & [(e & He & _ & ->)|[Hno _]]).
  - unfold sm_bytes. rewrite Ha. by apply map_sample_bytes; vm_compute.
  - done.
  - apply (bool_decide_unpack _). vm_compute. exact I.
  - exists m1, (value (e_item e)). split; [exact Hrun|]. split; [exact Hget|].
    assert (({[ [97; 98] := (64, Buf 340 2) ]} : gmap (list Z) (Z * dfk_buf_t)) !! e_key e =
      Some (e_addr e, value (e_item e))) as Hb.
    { rewrite Hs. eapply bound_entry; [exact Hrep|]. by exists e. }
    apply lookup_singleton_Some in Hb as [_ [= _ Hb]]. by rewrite Hb.
  - exfalso. assert (({[ [97; 98] := (64, Buf 340 2) ]} : gmap (list Z) (Z * dfk_buf_t)) !! [97; 98] =
      Some (64, Buf 340 2)) as Hb by by rewrite lookup_singleton_eq.
    rewrite Hs in Hb. apply (bound_entry _ _ _ _ _ Hrep) in Hb as (e & He & Hke & _).
    apply (Hno e He). rewrite Hke. by exists [99].
Defined.

(** Inserting a key that extends one that is in the map does nothing, and
    looking it up gives the value of the shorter key. *)
Theorem strmap_shadows_extension {Mem It : Type} `{!ListOps Mem It} (m : strmem Mem)
    (map item : Z) (e : entry) (k : list Z) (kdata : Z) (v : dfk_buf_t)
    (Hrep : map_rep m map [e]) (Hk : e_key e `prefix_of` k) (Hz : no_nul k)
    (Htext : bytes_at (sm_bytes m) kdata k) (Hitem : valid_addr item) (Hnew : item <> e_addr e)
    (Hv : b_data v <> 0 \/ b_size v = 0) :
  exists m', run_map_cmds map [MInsert item k kdata v; MGet k kdata; MSize] m =
    Ok ([[]; [value (e_item e)]; [Buf 0 1]], m').
Proof.
  destruct (mr_entries _ _ _ Hrep e ltac:(set_solver)) as [_ Hke].
  assert (k <> []) as Hk0.
  { intros ->. apply prefix_nil_inv in Hk. by apply (ko_ne _ _ _ Hke). }
  assert (key_ok m (Buf kdata (Z.of_nat (length k))) k) as Hkey by by split.
  enough (wp (run_map_cmds map [MInsert item k kdata v; MGet k kdata; MSize]) m
    (fun os _ => os = [[]; [value (e_item e)]; [Buf 0 1]])) as Hw.
  { apply wp_run in Hw as (os & m' & Hrun & ->). by exists m'. }
  cbn [run_map_cmds run_map_cmd]. do 2 apply wp_bind.
  eapply wp_mono; [eapply (item_init_spec _ _ _ _ _ _ _ _ k); [exact Hrep|done| |done|done]|].
  { cbn. set_solver. }
  intros [] m1 (Hrep1 & Ha & Hf). apply wp_bind.
  eapply wp_mono; [eapply (dfk_strmap_insert_spec _ _ _ _ Hrep1 Hf)|].
  { intros f ->%list_elem_of_singleton _. done. }
  intros [] m2 Hm2. rewrite decide_True in Hm2 by (by apply Exists_cons_hd). subst m2.
  apply wp_ret. do 3 apply wp_bind.
  eapply wp_mono; [eapply (dfk_strmap_get_spec _ _ _ _ _ k Hrep1); by eapply key_ok_bytes|].
  intros r m2 [-> ->]. apply wp_ret. do 3 apply wp_bind.
  eapply wp_mono; [by eapply dfk_strmap_size_spec|]. intros n m2 [-> ->]. wp_pures.
  unfold map_get. by rewrite filter_cons_True.
Qed.

(** A map with one binding. *)
Lemma singleton_rep (m : strmem mem) map item k kdata v :
  map <> 0 -> valid_addr item -> key_ok m (Buf kdata (Z.of_nat (length k))) k ->
  (b_data v <> 0 \/ b_size v = 0) ->
  wp (dfk_strmap_init map;; run_map_cmd map (MInsert item k kdata v)) m (fun o m' =>
    sm_arena m' = sm_arena m /\
    exists e, map_rep m' map [e] /\ e_key e = k /\ e_addr e = item /\ value (e_item e) = v).
Proof.
  intros Hmap Hi Hk Hv. apply wp_bind. eapply wp_mono; [by apply dfk_strmap_init_spec|].
  intros [] m1 (a & -> & Hrep). cbn [run_map_cmd]. apply wp_bind.
  eapply wp_mono; [eapply (item_init_spec _ _ _ _ _ _ _ _ k); [exact Hrep|done| | |done]|].
  { by intros ?%not_elem_of_nil. }
  { eapply key_ok_bytes; [|exact Hk]. done. }
  intros [] m2 (Hrep2 & Ha & Hf). apply wp_bind.
  eapply wp_mono; [eapply (dfk_strmap_insert_spec _ _ _ _ Hrep2 Hf)|].
  { by intros e ?%not_elem_of_nil. }
  intros [] m3 Hm3. rewrite decide_False in Hm3 by (by intros ?%Exists_nil).
  destruct Hm3 as (a3 & es & -> & Hrep3 & Hperm & _). apply wp_ret. split; [done|].
  apply Permutation_singleton_r in Hperm as ->. eexists. split; [exact Hrep3|]. by destruct v.
Qed.

Lemma strmap_shadows_extension_witness :
  exists m1, (dfk_strmap_init 8;; run_map_cmd 8 (MInsert 64 [97; 98] 300 (Buf 340 2))) sample_strmem = Ok ([], m1) /\
  exists m2, run_map_cmds 8 [MInsert 128 [97; 98; 99] 330 (Buf 341 1); MGet [97; 98; 99] 330; MSize] m1 =
    Ok ([[]; [Buf 340 2]; [Buf 0 1]], m2).
Proof.
  pose proof (singleton_rep sample_strmem 8 64 [97; 98] 300 (Buf 340 2)) as Hw.
  apply wp_run in Hw as (o & m1 & Hrun & Ha & (e & Hrep & Hk & He & Hv)).
  - exists m1. assert (o = []) as ->.
    { assert (match (dfk_strmap_init 8;; run_map_cmd 8 (MInsert 64 [97; 98] 300 (Buf 340 2))) sample_strmem with
        | Ok (o, _) => o = [] | Err _ => False end) as Ho by (vm_compute; reflexivity).
      by rewrite Hrun in Ho. }
    split; [exact Hrun|].
    destruct (strmap_shadows_extension m1 8 128 e [97; 98; 99] 330 (Buf 341 1) Hrep) as (m2 & Hrun2).
    + rewrite Hk. by exists [99].
    + apply (bool_decide_unpack _). vm_compute. exact I.
    + unfold sm_bytes. rewrite Ha. by apply map_sample_bytes; vm_compute.
    + done.
    + by rewrite He.
    + by left.
    + exists m2. rewrite Hv in Hrun2. exact Hrun2.
  - done.
  - done.
  - split; [done| |done|apply (bool_decide_unpack _); vm_compute; exact I].
    unfold sm_bytes, sample_strmem. cbn [sm_arena ar_bytes]. by apply map_sample_bytes; vm_compute.
  - by left.
Defined.

(** [dfk_strmap_item_copy] returns NULL and changes nothing when memory runs
    out; otherwise it returns an initialised item in one new block, whose key
    and value are copies of the arguments that lie in that block behind the
    item, and all other memory is as it was. *)
Theorem strmap_item_copy_correct {Mem It : Type} `{!ListOps Mem It} (malloc : bmem -> Z -> Z)
    (Hmalloc : malloc_ok malloc) (m : strmem Mem) (kdata vdata : Z) (k v : list Z)
    (Hkey : bytes_at (sm_bytes m) kdata k) (Hvalue : bytes_at (sm_bytes m) vdata v) (Hk : k <> [])
    (Hsize : ITEM_T + Z.of_nat (length k) + Z.of_nat (length v) < SIZE_MOD) :
  exists item m', dfk_strmap_item_copy malloc kdata (Z.of_nat (length k)) vdata (Z.of_nat (length v)) m =
      Ok (item, m') /\
    (item = 0 /\ m' = m \/
     exists i, items m' = <[item := i]> (items m) /\ 0 < item /\
       nodes (sm_avl m') = <[item := AHook 0 0 0 0]> (nodes (sm_avl m)) /\
       let len := ITEM_T + Z.of_nat (length k) + Z.of_nat (length v) in
       blocks (sm_bytes m') = <[item := len]> (blocks (sm_bytes m)) /\
       blocks (sm_bytes m) !! item = None /\
       key i = Buf (item + ITEM_T) (Z.of_nat (length k)) /\
       value i = Buf (item + ITEM_T + Z.of_nat (length k)) (Z.of_nat (length v)) /\
       bytes_at (sm_bytes m') (b_data (key i)) k /\ bytes_at (sm_bytes m') (b_data (value i)) v /\
       forall a, ~ (item <= a < item + len) -> cells (sm_bytes m') !! a = cells (sm_bytes m) !! a).
Proof.
  set (lk := Z.of_nat (length k)) in *. set (lv := Z.of_nat (length v)) in *.
  assert (0 < lk) as Hlk by (unfold lk; destruct k; [done|cbn; lia]). assert (0 <= lv) as Hlv by lia.
  set (len := ITEM_T + lk + lv) in *. unfold ITEM_T in *. assert (0 < len) as Hlen by lia.
  destruct Hkey as [Hkd Hkb] eqn:Ek. clear Ek. destruct Hvalue as [Hvd Hvb] eqn:Ev. clear Ev.
  enough (wp (dfk_strmap_item_copy malloc kdata lk vdata lv) m (fun item m' =>
    item = 0 /\ m' = m \/
     exists i, items m' = <[item := i]> (items m) /\ 0 < item /\
       nodes (sm_avl m') = <[item := AHook 0 0 0 0]> (nodes (sm_avl m)) /\
       blocks (sm_bytes m') = <[item := len]> (blocks (sm_bytes m)) /\
       blocks (sm_bytes m) !! item = None /\
       key i = Buf (item + 64) lk /\ value i = Buf (item + 64 + lk) lv /\
       bytes_at (sm_bytes m') (b_data (key i)) k /\ bytes_at (sm_bytes m') (b_data (value i)) v /\
       forall a, ~ (item <= a < item + len) -> cells (sm_bytes m') !! a = cells (sm_bytes m) !! a)) as Hw.
  { apply wp_run in Hw as (item & m' & Hrun & Hpost). exists item, m'. split; [exact Hrun|exact Hpost]. }
  unfold dfk_strmap_item_copy, check_args. apply wp_bind, wp_bind, wp_assert; [apply nonnull_true; lia|].
  apply wp_bind, wp_assert; [apply negb_true_iff, Z.eqb_neq; lia|].
  apply wp_assert; [by rewrite nonnull_true by lia|].
  unfold ITEM_T. fold len. rewrite to_size_small by lia. apply wp_bind, wp_zoom. apply wp_malloc; [done|done| |].
  { change (lget sbytes m) with (sm_bytes m). rewrite set_bytes_same. apply wp_ret. by left. }
  intros p b Hal. pose proof (al_pos _ _ _ _ Hal) as Hp.
  pose proof (allocated_room _ _ _ _ Hal ltac:(lia)) as Hroom.
  cbn [lget sbytes] in Hal.
  assert (forall q bs, bytes_at (sm_bytes m) q bs -> apart_ranges p len q (Z.of_nat (length bs)) /\ bytes_at b q bs) as Hold.
  { intros q bs Hq. pose proof (allocated_apart _ _ _ _ q _ Hal Hlen (Nat2Z.is_nonneg _) (bytes_room _ _ _ Hq)) as Hap.
    split; [done|]. eapply bytes_same; [|exact Hq]. eapply same_allocated; [exact Hal|lia|done]. }
  destruct (Hold kdata k (conj Hkd Hkb)) as [Hka Hkb']. destruct (Hold vdata v (conj Hvd Hvb)) as [Hva Hvb'].
  apply wp_if_false; [apply isnull_false; lia|].
  assert (room_at b (p + 64) (lk + lv)) as Hr1.
  { replace (lk + lv) with (len - 64) by lia. apply room_tail; [lia|done]. }
  apply wp_bind, wp_zoom, (wp_memcpy _ _ _ _ k); [done|exact Hkb'|eapply room_mono; [|exact Hr1]; lia| |].
  { unfold apart_ranges in Hka. lia. }
  apply wp_bind, wp_zoom, (wp_memcpy _ _ _ _ v); [done| | | |].
  { eapply bytes_same; [|exact Hvb']. apply same_put. unfold apart_ranges in Hva |- *. lia. }
  { apply room_put. replace lv with (lk + lv - lk) by lia. apply room_tail; [lia|done]. }
  { unfold apart_ranges in Hva. destruct (decide (lv = 0)) as [E|]; [|lia].
    unfold lv in E. destruct v; [|done]. lia. }
  unfold dfk_strmap_item_init. apply wp_bind, wp_bind, wp_assert; [apply nonnull_true; lia|].
  apply wp_bind, wp_assert; [apply nonnull_true; lia|].
  apply wp_bind, wp_assert; [apply negb_true_iff, Z.eqb_neq; lia|].
  apply wp_bind, wp_assert; [by rewrite nonnull_true by lia|].
  apply wp_bind, wp_zoom. unfold dfk_avltree_hook_init.
  apply wp_bind, wp_assert; [apply nonnull_true; lia|]. apply wp_bind, wp_store; [lia|].
  apply wp_assert; [apply nonnull_true; lia|]. apply wp_store; [lia|]. apply wp_ret.
  right. exists (Item (Buf (p + 64) lk) (Buf (p + 64 + lk) lv)). destruct Hal as [A1 A2 A3 A4 A5 ->].
  cbn [sbytes lset abytes sm_arena sm_bytes ar_bytes items_of hset items savl sm_avl nodes_of nodes put_bytes
    blocks add_block key value b_data lget].
  split_and!; [done|done|done|done|done|done|done| | |].
  - unfold sm_bytes. cbn. apply bytes_put_apart; [right; unfold lk; lia|]. apply bytes_put_same. lia.
  - unfold sm_bytes. cbn. apply bytes_put_same. lia.
  - intros a Ha. unfold sm_bytes. cbn -[put_bytes]. rewrite !cells_put, !decide_False by (fold lk lv; lia).
    rewrite cells_add_block by lia. by rewrite decide_False by done.
Qed.

Lemma strmap_item_copy_correct_witness :
  exists item m', dfk_strmap_item_copy first_fit 300 2 341 1 sample_strmem = Ok (item, m') /\
    item = 352 /\ read_bytes 416 3 (sm_bytes m') = Ok ([97; 98; 119], sm_bytes m').
Proof.
  destruct (strmap_item_copy_correct first_fit first_fit_ok sample_strmem 300 341 [97; 98] [119])
    as (item & m' & Hrun & Hpost).
  - unfold sm_bytes, sample_strmem. cbn [sm_arena ar_bytes]. by apply map_sample_bytes; vm_compute.
  - unfold sm_bytes, sample_strmem. cbn [sm_arena ar_bytes]. by apply map_sample_bytes; vm_compute.
  - done.
  - done.
  - exists item, m'. split; [exact Hrun|]. assert (item = 352) as ->.
    { assert (match dfk_strmap_item_copy first_fit 300 2 341 1 sample_strmem with
        | Ok (r, _) => r = 352 | Err _ => False end) as Ho by (vm_compute; reflexivity).
      change 2 with (Z.of_nat (length [97; 98])) in Ho. change 1 with (Z.of_nat (length [119])) in Ho.
      by rewrite Hrun in Ho. }
    split; [reflexivity|].
    destruct Hpost as [[Hpost _]|(i & _ & _ & _ & _ & _ & Hki & Hvi & Hk & Hv & _)]; [discriminate Hpost|].
    rewrite Hki in Hk. rewrite Hvi in Hv. cbn in Hk, Hv.
    assert (bytes_at (sm_bytes m') 416 [97; 98; 119]) as Hb.
    { change [97; 98; 119] with ([97; 98] ++ [119]). apply bytes_app. exact (conj Hk (conj eq_refl Hv)). }
    pose proof (wp_read_bytes [97; 98; 119] (sm_bytes m') 416 (fun r m2 => r = [97; 98; 119] /\ m2 = sm_bytes m')
      Hb (conj eq_refl eq_refl)) as Hw.
    by apply wp_run in Hw as (? & ? & Hr & -> & ->).
Defined.

(** Although their first assertions admit an empty value, the constructors
    that copy a value into an arena cannot be given one: [acopy_value] fails
    an assertion, and [acopy] does too unless there was no memory for the
    key. *)
Theorem strmap_acopy_empty_value {Mem It : Type} `{!ListOps Mem It} (malloc : bmem -> Z -> Z)
    (m : strmem Mem) (arena kdata keylen vdata : Z) (a : dfk_arena_t)
    (Harena : arena <> 0) (Ha : arenas (sm_arena m) !! arena = Some a) (Hdfk : adfk a <> 0)
    (Hk : kdata <> 0) (Hlen : keylen <> 0) :
  dfk_strmap_item_acopy_value malloc arena kdata keylen vdata 0 m = Err AssertFailed /\
  match dfk_strmap_item_acopy malloc arena kdata keylen vdata 0 m with
  | Ok (item, _) => item = 0
  | Err f => f = AssertFailed \/
      zoom sarena (dfk_arena_alloc_copy malloc arena kdata keylen) m = Err f
  end.
Proof.
  assert (check_arena (Mem := Mem) arena m = Ok (tt, m)) as Hca.
  { unfold check_arena, mbind, M_bind, c_assert, zoom, deref. rewrite nonnull_true by done. cbn.
    rewrite decide_False by done. rewrite Ha, nonnull_true by done. by destruct m. }
  assert (check_args (Mem := Mem) kdata keylen vdata 0 m = Ok (tt, m)) as Hck.
  { unfold check_args, mbind, M_bind, c_assert. rewrite nonnull_true by done.
    rewrite (proj2 (Z.eqb_neq _ _)) by done. cbn. by rewrite orb_true_r. }
  assert (forall m', zoom sarena (dfk_arena_alloc_copy malloc arena vdata 0) m' = Err AssertFailed
    :> result (Z * strmem Mem)) as Hempty.
  { intros m'. unfold zoom, dfk_arena_alloc_copy, mbind, M_bind, c_assert. rewrite nonnull_true by done.
    cbn. by destruct (nonnull vdata). }
  split.
  - unfold dfk_strmap_item_acopy_value, mbind, M_bind. by rewrite Hca, Hck, Hempty.
  - unfold dfk_strmap_item_acopy, mbind, M_bind. rewrite Hca, Hck.
    destruct (zoom sarena (dfk_arena_alloc_copy malloc arena kdata keylen) m) as [[p m']|f]; [|by right].
    destruct (isnull p); [done|]. rewrite Hempty. by left.
Qed.

Lemma strmap_acopy_empty_value_witness :
  exists m1, zoom sarena (dfk_arena_init 8 9) sample_strmem = Ok (tt, m1) /\
    dfk_strmap_item_acopy_value first_fit 8 300 2 340 0 m1 = Err AssertFailed.
Proof.
  eexists. split; [reflexivity|].
  eapply (strmap_acopy_empty_value first_fit _ 8 300 2 340 (ArenaObj 9)); [done|reflexivity|done..].
Defined.
