(* ===== verification/Fiber.v ===== *)
(** * [fiber.c], and the scheduler's operations on fibers

    The objects of the fiber runtime, [src/src/fiber.c], and the functions of
    [src/src/scheduler.c] that fibers call.

    A fiber is a coroutine.  What it still has to do is its saved context, a
    [code]: the calls of the library it makes, with its own computation in the
    continuations, which may depend on what a call returned; or a machine that
    computes and makes calls, for ever perhaps, whose state is coded as a
    number.  A call that gives up the processor ends with [coro_transfer], which only changes the
    context that executes; what the C function does after the transfer is a
    [code] of its own. *)

From S2P Require Import Prelude Bytes ListSpec Error.

(** What a program with a state of its own does in a state: it computes on, or
    makes a call and goes on in a new state, which may depend on the result. *)
Variant act :=
| DoCompute (s : Z)
| DoReturn
| DoMutexFree (mutex s : Z)
| DoLock (mutex s : Z)
| DoUnlock (mutex s : Z)
| DoTrylock (mutex : Z) (k : Z -> Z)
| DoCondFree (cond s : Z)
| DoWait (cond mutex s : Z)
| DoSignal (cond s : Z)
| DoBroadcast (cond s : Z)
| DoSpawn (ep : Z -> Z) (arg argsize : Z) (k : Z -> Z)
| DoPostpone (s : Z)
| DoIo (socket events : Z) (k : Z -> Z).

Inductive code :=
| Machine (next : Z -> act) (s : Z)    (** a program that need not end, in state [s] *)
| Return
| MutexFree (mutex : Z) (k : code)
| Lock (mutex : Z) (k : code)
| Locked (mutex : Z) (k : code)        (** [dfk_mutex_lock] after its [if] *)
| Unlock (mutex : Z) (k : code)
| Trylock (mutex : Z) (k : Z -> code)
| CondFree (cond : Z) (k : code)
| Wait (cond mutex : Z) (k : code)
| Signal (cond : Z) (k : code)
| Broadcast (cond : Z) (k : code)
| Spawn (ep : Z -> code) (arg argsize : Z) (k : Z -> code)
| Postpone (k : code)
| Io (socket events : Z) (k : Z -> code)
| IoDone (e : Z) (k : Z -> code)       (** [dfk__io] after [DFK_IOSUSPEND] *)
| LoopStart (loop : Z)                 (** the head of the event loop *)
| LoopSelect (loop : Z)                (** the event loop before [select] *)
| SchedulerMain (mainf : Z).           (** the scheduler *)

Definition unroll (next : Z -> act) (s : Z) : code :=
  match next s with
  | DoCompute s => Machine next s
  | DoReturn => Return
  | DoMutexFree m s => MutexFree m (Machine next s)
  | DoLock m s => Lock m (Machine next s)
  | DoUnlock m s => Unlock m (Machine next s)
  | DoTrylock m k => Trylock m (fun r => Machine next (k r))
  | DoCondFree c s => CondFree c (Machine next s)
  | DoWait c m s => Wait c m (Machine next s)
  | DoSignal c s => Signal c (Machine next s)
  | DoBroadcast c s => Broadcast c (Machine next s)
  | DoSpawn ep arg size k => Spawn (fun p => Machine next (ep p)) arg size (fun r => Machine next (k r))
  | DoPostpone s => Postpone (Machine next s)
  | DoIo fd ev k => Io fd ev (fun r => Machine next (k r))
  end.

Record dfk_t := Dfk {
  _scheduler : Z; _eventloop : Z; default_stack_size : Z; dfk_errno : Z; sys_errno : Z
}.
Record dfk_fiber_t := FiberObj { f_dfk : Z; _arg : Z }.
Record dfk_scheduler_t := SchedObj { s_fiber : Z; s_current : Z; s_eventloop : Z; iowait : Z }.
Record dfk_mutex_t := MutexObj { m_dfk : Z; _owner : Z }.
Record dfk_cond_t := CondObj { c_dfk : Z }.
Record dfk_eventloop_t := LoopObj { l_dfk : Z }.
Record dfk_fdlist_element_t := FdElem { e_fd : Z; e_events : Z; yieldback : Z }.

(** Memory of the runtime.  [k_ctx] holds the saved contexts, [k_at] is the
    fiber that executes, [k_selects] counts the calls of [select]. *)
Record kmem (Mem : Type) := KMem {
  k_lists : Mem;
  k_bytes : bmem;
  k_dfks : gmap Z dfk_t;
  k_fibers : gmap Z dfk_fiber_t;
  k_scheds : gmap Z dfk_scheduler_t;
  k_mutexes : gmap Z dfk_mutex_t;
  k_conds : gmap Z dfk_cond_t;
  k_loops : gmap Z dfk_eventloop_t;
  k_fds : gmap Z dfk_fdlist_element_t;
  k_ctx : gmap Z code;
  k_at : Z;
  k_selects : nat
}.
Arguments KMem {Mem}.
Arguments k_lists {Mem}. Arguments k_bytes {Mem}. Arguments k_dfks {Mem}.
Arguments k_fibers {Mem}. Arguments k_scheds {Mem}. Arguments k_mutexes {Mem}.
Arguments k_conds {Mem}. Arguments k_loops {Mem}. Arguments k_fds {Mem}.
Arguments k_ctx {Mem}. Arguments k_at {Mem}. Arguments k_selects {Mem}.

Section lenses.
Context {Mem : Type}.
Implicit Types m : kmem Mem.

Definition klists : lens (kmem Mem) Mem := Lens k_lists (fun l m =>
  KMem l (k_bytes m) (k_dfks m) (k_fibers m) (k_scheds m) (k_mutexes m) (k_conds m) (k_loops m)
    (k_fds m) (k_ctx m) (k_at m) (k_selects m)).
Definition kbytes : lens (kmem Mem) bmem := Lens k_bytes (fun b m =>
  KMem (k_lists m) b (k_dfks m) (k_fibers m) (k_scheds m) (k_mutexes m) (k_conds m) (k_loops m)
    (k_fds m) (k_ctx m) (k_at m) (k_selects m)).
Definition dfks_of : heap_of (kmem Mem) dfk_t := Heap k_dfks (fun h m =>
  KMem (k_lists m) (k_bytes m) h (k_fibers m) (k_scheds m) (k_mutexes m) (k_conds m) (k_loops m)
    (k_fds m) (k_ctx m) (k_at m) (k_selects m)).
Definition fibers_of : heap_of (kmem Mem) dfk_fiber_t := Heap k_fibers (fun h m =>
  KMem (k_lists m) (k_bytes m) (k_dfks m) h (k_scheds m) (k_mutexes m) (k_conds m) (k_loops m)
    (k_fds m) (k_ctx m) (k_at m) (k_selects m)).
Definition scheds_of : heap_of (kmem Mem) dfk_scheduler_t := Heap k_scheds (fun h m =>
  KMem (k_lists m) (k_bytes m) (k_dfks m) (k_fibers m) h (k_mutexes m) (k_conds m) (k_loops m)
    (k_fds m) (k_ctx m) (k_at m) (k_selects m)).
Definition mutexes_of : heap_of (kmem Mem) dfk_mutex_t := Heap k_mutexes (fun h m =>
  KMem (k_lists m) (k_bytes m) (k_dfks m) (k_fibers m) (k_scheds m) h (k_conds m) (k_loops m)
    (k_fds m) (k_ctx m) (k_at m) (k_selects m)).
Definition conds_of : heap_of (kmem Mem) dfk_cond_t := Heap k_conds (fun h m =>
  KMem (k_lists m) (k_bytes m) (k_dfks m) (k_fibers m) (k_scheds m) (k_mutexes m) h (k_loops m)
    (k_fds m) (k_ctx m) (k_at m) (k_selects m)).
Definition loops_of : heap_of (kmem Mem) dfk_eventloop_t := Heap k_loops (fun h m =>
  KMem (k_lists m) (k_bytes m) (k_dfks m) (k_fibers m) (k_scheds m) (k_mutexes m) (k_conds m) h
    (k_fds m) (k_ctx m) (k_at m) (k_selects m)).
Definition fds_of : heap_of (kmem Mem) dfk_fdlist_element_t := Heap k_fds (fun h m =>
  KMem (k_lists m) (k_bytes m) (k_dfks m) (k_fibers m) (k_scheds m) (k_mutexes m) (k_conds m)
    (k_loops m) h (k_ctx m) (k_at m) (k_selects m)).
Definition ctx_of : heap_of (kmem Mem) code := Heap k_ctx (fun h m =>
  KMem (k_lists m) (k_bytes m) (k_dfks m) (k_fibers m) (k_scheds m) (k_mutexes m) (k_conds m)
    (k_loops m) (k_fds m) h (k_at m) (k_selects m)).
Definition switch (to : Z) (m : kmem Mem) : kmem Mem :=
  KMem (k_lists m) (k_bytes m) (k_dfks m) (k_fibers m) (k_scheds m) (k_mutexes m) (k_conds m)
    (k_loops m) (k_fds m) (k_ctx m) to (k_selects m).
Definition count_select (m : kmem Mem) : kmem Mem :=
  KMem (k_lists m) (k_bytes m) (k_dfks m) (k_fibers m) (k_scheds m) (k_mutexes m) (k_conds m)
    (k_loops m) (k_fds m) (k_ctx m) (k_at m) (S (k_selects m)).
End lenses.

(** Layout: [sizeof(dfk_fiber_t)], the hook of a fiber, and the lists of a
    scheduler. *)
Definition FIBER_T : Z := 88.
Definition STACK_ALIGNMENT : Z := 16.
Definition f_hook (fiber : Z) : Z := fiber + 16.
Definition to_fiber (hook : Z) : Z := hook - 16.
Definition s_pending (scheduler : Z) : Z := scheduler + 24.
Definition s_terminated (scheduler : Z) : Z := scheduler + 56.

Definition set_current (f : Z) (s : dfk_scheduler_t) := SchedObj (s_fiber s) f (s_eventloop s) (iowait s).
Definition set_iowait (n : Z) (s : dfk_scheduler_t) := SchedObj (s_fiber s) (s_current s) (s_eventloop s) n.
Definition set_errno (e : Z) (d : dfk_t) := Dfk (_scheduler d) (_eventloop d) (default_stack_size d) e (sys_errno d).
Definition set_sys_errno (e : Z) (d : dfk_t) := Dfk (_scheduler d) (_eventloop d) (default_stack_size d) (dfk_errno d) e.

Section fiber.
Context {Mem It : Type} `{!ListOps Mem It}.
(** The allocator, and [DFK_STACK_GUARD_SIZE]. *)
Context (malloc : bmem -> Z -> Z) (guard : Z).

(** [DFK_THIS_FIBER] *)
Definition dfk__this_fiber (scheduler : Z) : M (kmem Mem) Z :=
  c_assert (nonnull scheduler);;
  s ← deref scheds_of scheduler;
  mret (s_current s).

Definition dfk__yielded (scheduler from to : Z) : M (kmem Mem) unit :=
  c_assert (nonnull scheduler);;
  c_assert (nonnull from);;
  c_assert (nonnull to);;
  update scheds_of scheduler (set_current to).

(** The last line is [coro_transfer(&from->_ctx, &to->_ctx)]. *)
Definition dfk_yield (from to : Z) : M (kmem Mem) unit :=
  c_assert (nonnull from);;
  c_assert (nonnull to);;
  f ← deref fibers_of from;
  d ← deref dfks_of (f_dfk f);
  dfk__yielded (_scheduler d) from to;;
  deref fibers_of to;;
  modify (switch to).

Definition dfk__resume (scheduler fiber : Z) : M (kmem Mem) unit :=
  c_assert (nonnull fiber);;
  c_assert (nonnull scheduler);;
  zoom klists (list_append (s_pending scheduler) (f_hook fiber)).

Definition dfk__terminate (scheduler fiber : Z) : M (kmem Mem) unit :=
  c_assert (nonnull scheduler);;
  c_assert (nonnull fiber);;
  zoom klists (list_append (s_terminated scheduler) (f_hook fiber));;
  s ← deref scheds_of scheduler;
  dfk_yield fiber (s_fiber s).

Definition dfk__suspend (scheduler : Z) : M (kmem Mem) unit :=
  c_assert (nonnull scheduler);;
  s ← deref scheds_of scheduler;
  this ← dfk__this_fiber scheduler;
  dfk_yield this (s_fiber s).

Definition dfk__iosuspend (scheduler : Z) : M (kmem Mem) unit :=
  c_assert (nonnull scheduler);;
  s ← deref scheds_of scheduler;
  this ← dfk__this_fiber scheduler;
  update scheds_of scheduler (fun s => set_iowait (to_size (iowait s + 1)) s);;
  dfk_yield this (s_fiber s).

Definition dfk__ioresume (scheduler fiber : Z) : M (kmem Mem) unit :=
  c_assert (nonnull scheduler);;
  c_assert (nonnull fiber);;
  update scheds_of scheduler (fun s => set_iowait (to_size (iowait s - 1)) s);;
  zoom klists (list_append (s_pending scheduler) (f_hook fiber)).

Definition dfk__postpone (scheduler : Z) : M (kmem Mem) unit :=
  c_assert (nonnull scheduler);;
  s ← deref scheds_of scheduler;
  this ← dfk__this_fiber scheduler;
  zoom klists (list_append (s_pending scheduler) (f_hook this));;
  dfk_yield this (s_fiber s).

(** ** Creation and release *)

(** Stack pointers are aligned by adding the padding. *)
Definition align_stack (p : Z) : Z :=
  if p mod STACK_ALIGNMENT =? 0 then p
  else p + (STACK_ALIGNMENT - p mod STACK_ALIGNMENT).

(** The last command is [coro_create]: once it is given the processor, the
    fiber runs [ep] on its argument and then [dfk__terminate]. *)
Definition dfk__spawn (dfk : Z) (ep : Z -> code) (arg argsize : Z) : M (kmem Mem) Z :=
  c_assert (nonnull dfk);;
  d ← deref dfks_of dfk;
  fiber ← zoom kbytes (dfk__malloc malloc (default_stack_size d));
  if isnull fiber then
    update dfks_of dfk (set_errno (err_code dfk_err_nomem));;
    mret 0
  else
    let stack_base := fiber + FIBER_T in
    let stack_end := fiber + default_stack_size d in
    st ←
      (if negb (argsize =? 0) then
         zoom kbytes (memcpy stack_base arg argsize);;
         mret (stack_base, stack_base + argsize)
       else mret (arg, stack_base));
    let '(farg, stack_base) := st in
    let stack_base := align_stack (stack_base + guard) in
    zoom klists (hook_init (f_hook fiber));;
    store fibers_of fiber (FiberObj dfk farg);;
    c_assert (stack_base <? stack_end);;
    store ctx_of fiber (ep farg);;
    mret fiber.

(** The lifetime of the fiber object ends with its block. *)
Definition dfk__fiber_free (dfk fiber : Z) : M (kmem Mem) unit :=
  zoom kbytes (dfk__free fiber);;
  zoom klists (hook_dispose (f_hook fiber));;
  dispose fibers_of fiber.

Definition dfk_spawn (dfk : Z) (ep : Z -> code) (arg argsize : Z) : M (kmem Mem) Z :=
  fiber ← dfk__spawn dfk ep arg argsize;
  if isnull fiber then mret 0 else
  d ← deref dfks_of dfk;
  dfk__resume (_scheduler d) fiber;;
  mret fiber.

End fiber.
