(* ===== verification/Sync.v ===== *)
(** * [mutex.c] and [cond.c]

    [dfk_mutex_lock] and [dfk_cond_wait] are split at [dfk__suspend]: the
    definitions below end with the transfer to the scheduler (or, when a mutex
    is taken at once, go on), and the rest is [dfk_mutex_locked], respectively
    a call of [dfk_mutex_lock]. *)

From S2P Require Import Prelude ListSpec Error Fiber.

(** The wait queues are members of the objects. *)
Definition m_waitqueue (mutex : Z) : Z := mutex + 8.
Definition c_waitqueue (cond : Z) : Z := cond + 8.

Definition set_owner (f : Z) (m : dfk_mutex_t) := MutexObj (m_dfk m) f.

Section sync.
Context {Mem It : Type} `{!ListOps Mem It}.
(** Address of the variable that a function keeps in the frame of a fiber. *)
Context (frame : Z -> Z).

(** [dfk->_scheduler] *)
Definition scheduler_of (dfk : Z) : M (kmem Mem) Z :=
  d ← deref dfks_of dfk;
  mret (_scheduler d).

(** ** Mutexes *)

Definition dfk_mutex_init (mutex dfk : Z) : M (kmem Mem) unit :=
  c_assert (nonnull mutex);;
  c_assert (nonnull dfk);;
  zoom klists (list_init (m_waitqueue mutex));;
  store mutexes_of mutex (MutexObj dfk 0).

Definition dfk_mutex_free (mutex : Z) : M (kmem Mem) unit :=
  c_assert (nonnull mutex);;
  empty ← zoom klists (list_empty (m_waitqueue mutex));
  c_assert empty;;
  mu ← deref mutexes_of mutex;
  c_assert (isnull (_owner mu)).

Definition dfk_mutex_lock (mutex : Z) : M (kmem Mem) unit :=
  c_assert (nonnull mutex);;
  mu ← deref mutexes_of mutex;
  sched ← scheduler_of (m_dfk mu);
  this ← dfk__this_fiber sched;
  if isnull (_owner mu) then update mutexes_of mutex (set_owner this)
  else if _owner mu =? this then mret tt
  else
    zoom klists (list_append (m_waitqueue mutex) (f_hook this));;
    dfk__suspend sched.

(** [this] is the local variable of [dfk_mutex_lock]: the fiber that called
    it. *)
Definition dfk_mutex_locked (mutex this : Z) : M (kmem Mem) unit :=
  mu ← deref mutexes_of mutex;
  c_assert (_owner mu =? this).

(** The owner releases a mutex: it is free, or passes to the fiber that has
    waited longest.  [dfk_mutex_unlock] and [dfk_cond_wait] share it. *)
Definition release_mutex (mutex sched : Z) : M (kmem Mem) unit :=
  empty ← zoom klists (list_empty (m_waitqueue mutex));
  if empty : bool then update mutexes_of mutex (set_owner 0)
  else
    h ← zoom klists (list_front (m_waitqueue mutex));
    let next := to_fiber h in
    zoom klists (list_pop_front (m_waitqueue mutex));;
    update mutexes_of mutex (set_owner next);;
    dfk__resume sched next.

Definition dfk_mutex_unlock (mutex : Z) : M (kmem Mem) unit :=
  c_assert (nonnull mutex);;
  mu ← deref mutexes_of mutex;
  c_assert (nonnull (_owner mu));;
  sched ← scheduler_of (m_dfk mu);
  this ← dfk__this_fiber sched;
  c_assert (_owner mu =? this);;
  release_mutex mutex sched.

Definition dfk_mutex_trylock (mutex : Z) : M (kmem Mem) Z :=
  c_assert (nonnull mutex);;
  mu ← deref mutexes_of mutex;
  sched ← scheduler_of (m_dfk mu);
  this ← dfk__this_fiber sched;
  if nonnull (_owner mu) then
    if _owner mu =? this then mret (err_code dfk_err_ok)
    else mret (err_code dfk_err_busy)
  else
    update mutexes_of mutex (set_owner this);;
    mret (err_code dfk_err_ok).

(** ** Condition variables *)

Definition dfk_cond_init (cond dfk : Z) : M (kmem Mem) unit :=
  c_assert (nonnull cond);;
  c_assert (nonnull dfk);;
  zoom klists (list_init (c_waitqueue cond));;
  store conds_of cond (CondObj dfk).

Definition dfk_cond_free (cond : Z) : M (kmem Mem) unit :=
  c_assert (nonnull cond);;
  empty ← zoom klists (list_empty (c_waitqueue cond));
  c_assert empty.

Definition dfk_cond_wait (cond mutex : Z) : M (kmem Mem) unit :=
  c_assert (nonnull cond);;
  c_assert (nonnull mutex);;
  c ← deref conds_of cond;
  sched ← scheduler_of (c_dfk c);
  this ← dfk__this_fiber sched;
  mu ← deref mutexes_of mutex;
  c_assert (c_dfk c =? m_dfk mu);;
  c_assert (nonnull (_owner mu));;
  c_assert (_owner mu =? this);;
  release_mutex mutex sched;;
  zoom klists (list_append (c_waitqueue cond) (f_hook this));;
  dfk__suspend sched.

Definition dfk_cond_signal (cond : Z) : M (kmem Mem) unit :=
  c_assert (nonnull cond);;
  c ← deref conds_of cond;
  empty ← zoom klists (list_empty (c_waitqueue cond));
  when (negb empty)
    (h ← zoom klists (list_front (c_waitqueue cond));
     let fiber := to_fiber h in
     zoom klists (list_pop_front (c_waitqueue cond));;
     sched ← scheduler_of (c_dfk c);
     dfk__resume sched fiber).

Definition broadcast_body (waitqueue sched : Z) (u : unit) : M (kmem Mem) (unit + unit) :=
  empty ← zoom klists (list_empty waitqueue);
  if empty : bool then mret (inr tt) else
  h ← zoom klists (list_front waitqueue);
  let fiber := to_fiber h in
  zoom klists (list_pop_front waitqueue);;
  dfk__resume sched fiber;;
  mret (inl tt).

(** [fuel] bounds the number of waiting fibers; the local list lies in the
    frame of the caller. *)
Definition dfk_cond_broadcast (fuel : nat) (cond : Z) : M (kmem Mem) unit :=
  c_assert (nonnull cond);;
  c ← deref conds_of cond;
  sched ← scheduler_of (c_dfk c);
  at_ ← gets k_at;
  let waitqueue := frame at_ in
  zoom klists (list_init waitqueue);;
  zoom klists (list_move (c_waitqueue cond) waitqueue);;
  loop fuel (broadcast_body waitqueue sched) tt.

End sync.
