(* ===== verification/Select.v ===== *)
(** * [select.c]: the event loop on top of [select]

    The event loop is a fiber; its code is split where it gives up the
    processor.  The outcome of the [n]-th call of [select] is the
    environment's. *)

From S2P Require Import Prelude ListSpec Error Misc Fiber Sync.

(** The ready descriptors are those of each of the three sets. *)
Inductive select_result :=
| SelReady (readfds writefds exceptfds : list Z)
| SelIntr
| SelError (errno : Z).

Definition l_fds (loop : Z) : Z := loop + 8.

(** Capacity of a [fd_set]. *)
Definition FD_SETSIZE : Z := 1024.

Definition set_events (n : Z) (e : dfk_fdlist_element_t) := FdElem (e_fd e) n (yieldback e).

Section select.
Context {Mem It : Type} `{!ListOps Mem It}.
Context (frame : Z -> Z).
(** [select n maxfd readfds writefds exceptfds] *)
Context (select : nat -> Z -> list Z -> list Z -> list Z -> select_result).

Definition dfk__eventloop_init (loop dfk : Z) : M (kmem Mem) Z :=
  c_assert (nonnull loop);;
  c_assert (nonnull dfk);;
  store loops_of loop (LoopObj dfk);;
  zoom klists (list_init (l_fds loop));;
  mret 0.

Definition dfk__eventloop_free (loop : Z) : M (kmem Mem) Z :=
  c_assert (nonnull loop);;
  mret 0.

(** [FD_SET]: a descriptor that does not fit is undefined behaviour. *)
Definition fd_set (fd : Z) (set : list Z) : M (kmem Mem) (list Z) :=
  if (0 <=? fd) && (fd <? FD_SETSIZE) then mret (fd :: set) else fail Undefined.

Definition fd_isset (fd : Z) (set : list Z) : bool := bool_decide (fd ∈ set).

(** The first loop over [loop->fds]: the state is the iterator, the three sets
    and [maxfd]. *)
Definition collect_body (end_ : It) (st : It * list Z * list Z * list Z * Z) :
    M (kmem Mem) ((It * list Z * list Z * list Z * Z) + (list Z * list Z * list Z * Z)) :=
  let '(it, r, w, x, maxfd) := st in
  stop ← zoom klists (list_it_equal it end_);
  if stop : bool then mret (inr (r, w, x, maxfd)) else
  e ← deref fds_of (it_value it);
  r ← (if negb (Z.land (e_events e) DFK_IO_IN =? 0) then fd_set (e_fd e) r else mret r);
  w ← (if negb (Z.land (e_events e) DFK_IO_OUT =? 0) then fd_set (e_fd e) w else mret w);
  x ← fd_set (e_fd e) x;
  it' ← zoom klists (list_it_next it);
  mret (inl (it', r, w, x, Z.max maxfd (e_fd e))).

(** What [e->events] becomes. *)
Definition ready_events (r w x : bool) : Z :=
  Z.lor (if r then DFK_IO_IN else 0) (Z.lor (if w then DFK_IO_OUT else 0) (if x then DFK_IO_ERR else 0)).

(** The second loop: the state is the iterator and [any_ready]. *)
Definition deliver_body (loop : Z) (readfds writefds exceptfds : list Z) (end_ : It)
    (st : It * bool) : M (kmem Mem) ((It * bool) + bool) :=
  let '(it, any_ready) := st in
  stop ← zoom klists (list_it_equal it end_);
  if stop : bool then mret (inr any_ready) else
  e ← deref fds_of (it_value it);
  let r := fd_isset (e_fd e) readfds in
  let w := fd_isset (e_fd e) writefds in
  let x := fd_isset (e_fd e) exceptfds in
  if r || w || x then
    update fds_of (it_value it) (set_events (ready_events r w x));;
    it' ← zoom klists (list_it_next it);
    zoom klists (list_erase (l_fds loop) it);;
    y ← deref fibers_of (yieldback e);
    sched ← scheduler_of (f_dfk y);
    dfk__ioresume sched (yieldback e);;
    mret (inl (it', true))
  else
    it' ← zoom klists (list_it_next it);
    mret (inl (it', any_ready)).

(** The loop [while (1)] up to its first [DFK_SUSPEND]; [dfk] is that of the
    loop's fiber [this].  The assertions before the loop are part of it: what
    they are about never changes.  The new context is saved before the
    transfer. *)
Definition dfk__eventloop_start (loop dfk this : Z) : M (kmem Mem) unit :=
  c_assert (nonnull loop);;
  l ← deref loops_of loop;
  c_assert (l_dfk l =? dfk);;
  store ctx_of this (LoopSelect loop);;
  empty ← zoom klists (list_empty (l_fds loop));
  when empty (sched ← scheduler_of dfk; dfk__suspend sched).

(** The rest of the body of the loop; leaving the loop ends the fiber. *)
Definition dfk__eventloop_select (fuel : nat) (loop dfk this : Z) : M (kmem Mem) unit :=
  it ← zoom klists (list_begin (l_fds loop));
  end_ ← zoom klists (list_end (l_fds loop));
  sets ← Prelude.loop fuel (collect_body end_) (it, [], [], [], 0);
  let '(readfds, writefds, exceptfds, maxfd) := sets in
  n ← gets k_selects;
  modify count_select;;
  match select n (maxfd + 1) readfds writefds exceptfds with
  | SelIntr => store ctx_of this (LoopStart loop)
  | SelError errno =>
      update dfks_of dfk (set_sys_errno errno);;
      store ctx_of this Return
  | SelReady readfds writefds exceptfds =>
      store ctx_of this (LoopStart loop);;
      if Z.of_nat (length readfds + length writefds + length exceptfds) =? 0 then
        sched ← scheduler_of dfk; dfk__suspend sched
      else
        it ← zoom klists (list_begin (l_fds loop));
        end_ ← zoom klists (list_end (l_fds loop));
        any_ready ← Prelude.loop fuel
          (deliver_body loop readfds writefds exceptfds end_) (it, false);
        when any_ready (sched ← scheduler_of dfk; dfk__suspend sched)
  end.

(** [dfk__io] up to the transfer; the element of the list lies in the frame of
    the caller, and its hook is zero as [dfk_list_hook_init] leaves it. *)
Definition dfk__io (loop socket events : Z) : M (kmem Mem) unit :=
  c_assert (nonnull loop);;
  c_assert (negb (socket =? 0));;
  l ← deref loops_of loop;
  c_assert (nonnull (l_dfk l));;
  sched ← scheduler_of (l_dfk l);
  this ← dfk__this_fiber sched;
  let e := frame this in
  zoom klists (hook_init e);;
  store fds_of e (FdElem socket events this);;
  zoom klists (list_append (l_fds loop) e);;
  dfk__iosuspend sched.

(** [return e.events]: the lifetime of [e] ends. *)
Definition dfk__io_done (e : Z) : M (kmem Mem) Z :=
  el ← deref fds_of e;
  zoom klists (hook_dispose e);;
  dispose fds_of e;;
  mret (e_events el).

End select.
