(* ===== verification/Scheduler.v ===== *)
(** * The scheduler, and a fiber's turn

    [step] runs one call of the fiber that executes; [dfk__scheduler] and
    [dfk__scheduler_main] of [src/src/scheduler.c] and [dfk_work] of
    [src/src/context.c] run in direct style: where the scheduler transfers to
    a fiber, [run_fibers] steps until control is back. *)

From S2P Require Import Prelude Bytes ListSpec Error Fiber Sync Select.

Section scheduler.
Context {Mem It : Type} `{!ListOps Mem It}.
Context (malloc : bmem -> Z -> Z) (guard : Z) (frame : Z -> Z).
Context (select : nat -> Z -> list Z -> list Z -> list Z -> select_result).
(** Bound of every loop. *)
Context (fuel : nat).

(** The call the executing fiber makes next, or a step of its own.  Its context is replaced first
    by what follows the call, whether the call gives up the processor or
    not. *)
Definition step : M (kmem Mem) unit :=
  this ← gets k_at;
  f ← deref fibers_of this;
  c ← deref ctx_of this;
  let dfk := f_dfk f in
  match c with
  | Machine next s => store ctx_of this (unroll next s)
  | Return => sched ← scheduler_of dfk; dfk__terminate sched this
  | MutexFree mutex k => store ctx_of this k;; dfk_mutex_free mutex
  | Lock mutex k => store ctx_of this (Locked mutex k);; dfk_mutex_lock mutex
  | Locked mutex k => store ctx_of this k;; dfk_mutex_locked mutex this
  | Unlock mutex k => store ctx_of this k;; dfk_mutex_unlock mutex
  | Trylock mutex k => r ← dfk_mutex_trylock mutex; store ctx_of this (k r)
  | CondFree cond k => store ctx_of this k;; dfk_cond_free cond
  | Wait cond mutex k => store ctx_of this (Lock mutex k);; dfk_cond_wait cond mutex
  | Signal cond k => store ctx_of this k;; dfk_cond_signal cond
  | Broadcast cond k => store ctx_of this k;; dfk_cond_broadcast frame fuel cond
  | Spawn ep arg argsize k =>
      r ← dfk_spawn malloc guard dfk ep arg argsize;
      store ctx_of this (k r)
  | Postpone k =>
      store ctx_of this k;; sched ← scheduler_of dfk; dfk__postpone sched
  | Io socket events k =>
      store ctx_of this (IoDone (frame this) k);;
      d ← deref dfks_of dfk;
      dfk__io frame (_eventloop d) socket events
  | IoDone e k => r ← dfk__io_done e; store ctx_of this (k r)
  | LoopStart loop => dfk__eventloop_start loop dfk this
  | LoopSelect loop => dfk__eventloop_select select fuel loop dfk this
  | SchedulerMain _ => fail Undefined
  end.

(** Until the scheduler's fiber executes again. *)
Definition fibers_body (sched_fiber : Z) (u : unit) : M (kmem Mem) (unit + unit) :=
  at_ ← gets k_at;
  if at_ =? sched_fiber then mret (inr tt) else step;; mret (inl tt).

Definition run_fibers (sched_fiber : Z) : M (kmem Mem) unit := loop fuel (fibers_body sched_fiber) tt.

Definition dfk__scheduler_init (scheduler self eventloop : Z) : M (kmem Mem) unit :=
  zoom klists (list_init (s_pending scheduler));;
  zoom klists (list_init (s_terminated scheduler));;
  store scheds_of scheduler (SchedObj self 0 eventloop 0).

(** [while (!dfk_list_empty(&scheduler->terminated))] *)
Definition cleanup_fibers_body (scheduler dfk : Z) (u : unit) : M (kmem Mem) (unit + unit) :=
  empty ← zoom klists (list_empty (s_terminated scheduler));
  if empty : bool then mret (inr tt) else
  it ← zoom klists (list_begin (s_terminated scheduler));
  let fiber := to_fiber (it_value it) in
  zoom klists (list_pop_front (s_terminated scheduler));;
  dfk__fiber_free dfk fiber;;
  mret (inl tt).

(** [while (!dfk_list_empty(&pending))], on the local list. *)
Definition pending_body (scheduler pending : Z) (u : unit) : M (kmem Mem) (unit + unit) :=
  empty ← zoom klists (list_empty pending);
  if empty : bool then mret (inr tt) else
  h ← zoom klists (list_front pending);
  let fiber := to_fiber h in
  zoom klists (list_pop_front pending);;
  update scheds_of scheduler (set_current fiber);;
  s ← deref scheds_of scheduler;
  dfk_yield (s_fiber s) fiber;;
  run_fibers (s_fiber s);;
  mret (inl tt).

(** Scheduler loop iteration; true when there is nothing left to do. *)
Definition dfk__scheduler (scheduler : Z) : M (kmem Mem) bool :=
  s ← deref scheds_of scheduler;
  sf ← deref fibers_of (s_fiber s);
  let dfk := f_dfk sf in
  dead ← zoom klists (list_empty (s_terminated scheduler));
  idle ← (if dead : bool then zoom klists (list_empty (s_pending scheduler)) else mret false);
  if idle && (iowait s =? 0) then mret true else
  loop fuel (cleanup_fibers_body scheduler dfk) tt;;
  let pending := frame (s_fiber s) in
  zoom klists (list_init pending);;
  zoom klists (list_move (s_pending scheduler) pending);;
  loop fuel (pending_body scheduler pending) tt;;
  none ← zoom klists (list_empty (s_pending scheduler));
  s ← deref scheds_of scheduler;
  when (none && negb (iowait s =? 0))
    (update scheds_of scheduler (set_current (s_eventloop s));;
     dfk_yield (s_fiber s) (s_eventloop s);;
     run_fibers (s_fiber s));;
  mret false.

Definition scheduler_loop_body (scheduler : Z) (u : unit) : M (kmem Mem) (unit + unit) :=
  ret ← dfk__scheduler scheduler;
  mret (if ret : bool then inr tt else inl tt).

(** The local variables of [dfk__scheduler_main]: their distance from the
    object of the fiber that executes it. *)
Context (o_scheduler o_eventloop : Z).

(** The function never returns: it ends with the transfer to
    [dfk->_comeback], that is to [dfk_work]. *)
Definition dfk__scheduler_main (fiber arg : Z) : M (kmem Mem) unit :=
  c_assert (nonnull fiber);;
  f ← deref fibers_of fiber;
  c_assert (nonnull (f_dfk f));;
  c_assert (nonnull arg);;
  let dfk := f_dfk f in
  let v_scheduler := fiber + o_scheduler in
  let v_eventloop := fiber + o_eventloop in
  loopf ← dfk__spawn malloc guard dfk (fun arg => LoopStart arg) v_eventloop 0;
  if isnull loopf then
    dfk__fiber_free dfk arg;;
    modify (switch 0)
  else
    dfk__eventloop_init v_eventloop dfk;;
    dfk__scheduler_init v_scheduler fiber loopf;;
    update dfks_of dfk (fun d =>
      Dfk v_scheduler v_eventloop (default_stack_size d) (dfk_errno d) (sys_errno d));;
    dfk__resume v_scheduler arg;;
    loop fuel (scheduler_loop_body v_scheduler) tt;;
    update scheds_of v_scheduler (set_current 0);;
    dfk__eventloop_free v_eventloop;;
    dfk__fiber_free dfk loopf;;
    modify (switch 0).

(** [dfk->_comeback] is the context of the caller, written 0. *)
Definition dfk_work (dfk : Z) (ep : Z -> code) (arg argsize : Z) : M (kmem Mem) Z :=
  c_assert (nonnull dfk);;
  mainf ← dfk__spawn malloc guard dfk ep arg argsize;
  if isnull mainf then d ← deref dfks_of dfk; mret (dfk_errno d) else
  scheduler ← dfk__spawn malloc guard dfk (fun arg => SchedulerMain arg) mainf 0;
  if isnull scheduler then
    dfk__fiber_free dfk mainf;;
    d ← deref dfks_of dfk;
    mret (dfk_errno d)
  else
    modify (switch scheduler);;
    dfk__scheduler_main scheduler mainf;;
    dfk__fiber_free dfk scheduler;;
    mret (err_code dfk_err_ok).

End scheduler.
