(* ===== verification/Fuel.v ===== *)
(** * Fuel

    The runtime's loops run with a bound.  A bound that is large enough plays
    no role: a run that does not exhaust it is the run with any larger one. *)

From S2P Require Import Prelude Bytes ListSpec Error Fiber Sync Select Scheduler.

(** [m] is [m'], unless it runs out of fuel. *)
Definition fuel_le {S A} (m m' : M S A) : Prop := forall s, m s = Err OutOfFuel \/ m s = m' s.

Section rules.
Context {S : Type}.

Lemma fuel_refl {A} (m : M S A) : fuel_le m m.
Proof. by right. Qed.

Lemma fuel_bind {A B} (m m' : M S A) (k k' : A -> M S B) :
  fuel_le m m' -> (forall a, fuel_le (k a) (k' a)) -> fuel_le (m ≫= k) (m' ≫= k').
Proof.
  intros Hm Hk s. unfold mbind, M_bind. destruct (Hm s) as [-> | ->]; [by left|].
  destruct (m' s) as [[a s']|f]; [apply Hk|by right].
Qed.

Lemma fuel_if {A} (b : bool) (m1 m1' m2 m2' : M S A) :
  fuel_le m1 m1' -> fuel_le m2 m2' -> fuel_le (if b then m1 else m2) (if b then m1' else m2').
Proof. by destruct b. Qed.

Lemma fuel_when (b : bool) (m m' : M S unit) : fuel_le m m' -> fuel_le (when b m) (when b m').
Proof. intros H. destruct b; [done|by apply fuel_refl]. Qed.

Lemma fuel_zoom {T A} (L : lens T S) (m m' : M S A) : fuel_le m m' -> fuel_le (zoom L m) (zoom L m').
Proof. intros H s. unfold zoom. destruct (H (lget L s)) as [-> | ->]; [by left|by right]. Qed.

Lemma fuel_loop {A B} (n n' : nat) (body body' : A -> M S (A + B)) a :
  (n <= n')%nat -> (forall a, fuel_le (body a) (body' a)) -> fuel_le (loop n body a) (loop n' body' a).
Proof.
  intros Hn Hb. revert n' a Hn. induction n as [|n IH]; intros n' a Hn; [by left|].
  destruct n' as [|n']; [lia|]. apply fuel_bind; [apply Hb|]. intros [a'|b]; [apply IH; lia|apply fuel_refl].
Qed.

Lemma wpe_weaken {A} (m : M S A) (E E' : fault -> Prop) s (P Q : A -> S -> Prop) :
  wpe m E s P -> (forall f, E f -> E' f) -> (forall a s', P a s' -> Q a s') -> wpe m E' s Q.
Proof. unfold wpe. destruct (m s) as [[a s']|f]; auto. Qed.

Lemma wpe_bind_assoc {A B C} (m : M S A) (h : A -> M S B) (j : B -> M S C) (E : fault -> Prop) s
    (Q : C -> S -> Prop) :
  wpe ((m ≫= h) ≫= j) E s Q -> wpe (m ≫= fun a => h a ≫= j) E s Q.
Proof. unfold wpe, mbind, M_bind. by destruct (m s) as [[a s']|f]. Qed.

(** A bound can be raised in a proof. *)
Lemma wpe_fuel {A} (m m' : M S A) (E E' : fault -> Prop) s (Q : A -> S -> Prop) :
  fuel_le m m' -> wpe m' E s Q -> (forall f, E f -> E' f) -> E' OutOfFuel -> wpe m E' s Q.
Proof.
  intros Hm H HE HO. unfold wpe in *. destruct (Hm s) as [-> | ->]; [done|].
  destruct (m' s) as [[a s']|f]; auto.
Qed.
End rules.

Ltac fuel_step :=
  match goal with
  | |- fuel_le ?m ?m => apply fuel_refl
  | |- fuel_le (_ ≫= _) (_ ≫= _) => apply fuel_bind; [|intros ?]
  | |- fuel_le (when _ _) (when _ _) => apply fuel_when
  | |- fuel_le (loop _ _ _) (loop _ _ _) => apply fuel_loop; [done|intros ?]
  | |- fuel_le (if ?b then _ else _) (if ?b then _ else _) => destruct b
  | |- fuel_le (match ?x with _ => _ end) (match ?x with _ => _ end) => destruct x
  | |- fuel_le (let '_ := ?x in _) _ => destruct x
  end.
Ltac fuel_steps := repeat fuel_step.

Section runtime.
Context {Mem It : Type} `{!ListOps Mem It}.
Context (malloc : bmem -> Z -> Z) (guard : Z) (frame : Z -> Z).
Context (select : nat -> Z -> list Z -> list Z -> list Z -> select_result).
Context (n n' : nat) (Hn : (n <= n')%nat).

Lemma step_fuel : fuel_le (step malloc guard frame select n) (step malloc guard frame select n').
Proof using Hn.
  unfold step. fuel_steps.
  - unfold dfk_cond_broadcast. fuel_steps.
  - unfold dfk__eventloop_select. fuel_steps.
Qed.

Lemma run_fibers_fuel sf : fuel_le (run_fibers malloc guard frame select n sf)
  (run_fibers malloc guard frame select n' sf).
Proof using Hn.
  unfold run_fibers, fibers_body. fuel_steps. apply step_fuel.
Qed.

Lemma dfk__scheduler_fuel s : fuel_le (dfk__scheduler malloc guard frame select n s)
  (dfk__scheduler malloc guard frame select n' s).
Proof using Hn.
  unfold dfk__scheduler, pending_body. fuel_steps; apply run_fibers_fuel.
Qed.

Lemma dfk_work_fuel_le vs vl dfk ep arg argsize :
  fuel_le (dfk_work malloc guard frame select n vs vl dfk ep arg argsize)
    (dfk_work malloc guard frame select n' vs vl dfk ep arg argsize).
Proof using Hn.
  unfold dfk_work, dfk__scheduler_main, scheduler_loop_body. fuel_steps. apply dfk__scheduler_fuel.
Qed.
End runtime.
