(* ===== verification/Runtime.v ===== *)
(** * Abstract specification of the fiber runtime

    The state of scheduler, mutexes, condition variables and event loop as
    queues of fibers, and its invariant: every fiber is in exactly one place,
    and what it does next fits that place.  The lemmas say how the invariant
    survives the moves all operations are made of. *)

From S2P Require Import Prelude Fiber.

(** The lists of the runtime; [LLocal f] is the list variable in the frame of
    fiber [f]. *)
Inductive lname := LPend | LTerm | LFds | LLocal (f : Z) | LMutex (m : Z) | LCond (c : Z).

#[export] Instance lname_eq_dec : EqDecision lname.
Proof. solve_decision. Defined.

(** [LFds] holds elements, the other lists hold fibers.  [aio] is the number of
    fibers that wait for I/O, [cur] the fiber that executes, [locals] are the fibers whose
    list variable was initialised. *)
Record astate := AState {
  q : lname -> list Z;
  owner : gmap Z Z;
  conds : gset Z;
  codes : gmap Z code;
  fibers : gset Z;
  elems : gmap Z dfk_fdlist_element_t;
  aio : Z;
  cur : Z;
  locals : gset Z
}.

Definition set_q (n : lname) (xs : list Z) (a : astate) : astate :=
  AState (fun n' => if decide (n' = n) then xs else q a n') (owner a) (conds a) (codes a)
    (fibers a) (elems a) (aio a) (cur a) (locals a).
Definition push (n : lname) (f : Z) (a : astate) : astate := set_q n (q a n ++ [f]) a.
Definition set_own (m f : Z) (a : astate) : astate :=
  AState (q a) (<[m := f]> (owner a)) (conds a) (codes a) (fibers a) (elems a) (aio a) (cur a) (locals a).
Definition set_code (f : Z) (c : code) (a : astate) : astate :=
  AState (q a) (owner a) (conds a) (<[f := c]> (codes a)) (fibers a) (elems a) (aio a) (cur a) (locals a).
Definition set_elem (e : Z) (el : dfk_fdlist_element_t) (a : astate) : astate :=
  AState (q a) (owner a) (conds a) (codes a) (fibers a) (<[e := el]> (elems a)) (aio a) (cur a) (locals a).
Definition del_elem (e : Z) (a : astate) : astate :=
  AState (q a) (owner a) (conds a) (codes a) (fibers a) (delete e (elems a)) (aio a) (cur a) (locals a).
Definition set_aio (n : Z) (a : astate) : astate :=
  AState (q a) (owner a) (conds a) (codes a) (fibers a) (elems a) n (cur a) (locals a).
Definition transfer (f : Z) (a : astate) : astate :=
  AState (q a) (owner a) (conds a) (codes a) (fibers a) (elems a) (aio a) f (locals a).
Definition add_local (f : Z) (a : astate) : astate :=
  AState (q a) (owner a) (conds a) (codes a) (fibers a) (elems a) (aio a) (cur a) ({[f]} ∪ locals a).
Definition add_fiber (f : Z) (c : code) (a : astate) : astate :=
  AState (q a) (owner a) (conds a) (<[f := c]> (codes a)) ({[f]} ∪ fibers a) (elems a) (aio a) (cur a) (locals a).
Definition del_fiber (f : Z) (a : astate) : astate :=
  AState (q a) (owner a) (conds a) (codes a) (fibers a ∖ {[f]}) (elems a) (aio a) (cur a) (locals a).

Lemma q_set n n' xs a : q (set_q n xs a) n' = if decide (n' = n) then xs else q a n'.
Proof. done. Qed.
Lemma q_set_eq n xs a : q (set_q n xs a) n = xs.
Proof. rewrite q_set. by case_decide. Qed.
Lemma q_set_ne n n' xs a : n' <> n -> q (set_q n xs a) n' = q a n'.
Proof. intros. rewrite q_set. by case_decide. Qed.

(** ** What a fiber may do *)

Section runtime.
Context (sfiber efiber loop : Z) (frame : Z -> Z) (mutexes conditions : gset Z).

(** Code of a client: it uses the given mutexes and condition variables and
    descriptors that fit an [fd_set], and passes no argument block to the
    fibers it creates. *)
Definition act_user (a : act) : Prop :=
  match a with
  | DoCompute _ | DoReturn | DoPostpone _ => True
  | DoMutexFree m _ | DoLock m _ | DoUnlock m _ | DoTrylock m _ => m ∈ mutexes
  | DoCondFree c _ | DoSignal c _ | DoBroadcast c _ => c ∈ conditions
  | DoWait c m _ => c ∈ conditions /\ m ∈ mutexes
  | DoSpawn _ _ size _ => size = 0
  | DoIo fd _ _ => 0 < fd < 1024
  end.

Inductive user : code -> Prop :=
| user_machine next s : (forall s, act_user (next s)) -> user (Machine next s)
| user_return : user Return
| user_mutex_free m k : m ∈ mutexes -> user k -> user (MutexFree m k)
| user_lock m k : m ∈ mutexes -> user k -> user (Lock m k)
| user_unlock m k : m ∈ mutexes -> user k -> user (Unlock m k)
| user_trylock m k : m ∈ mutexes -> (forall r, user (k r)) -> user (Trylock m k)
| user_cond_free c k : c ∈ conditions -> user k -> user (CondFree c k)
| user_wait c m k : c ∈ conditions -> m ∈ mutexes -> user k -> user (Wait c m k)
| user_signal c k : c ∈ conditions -> user k -> user (Signal c k)
| user_broadcast c k : c ∈ conditions -> user k -> user (Broadcast c k)
| user_spawn ep arg k : (forall p, user (ep p)) -> (forall r, user (k r)) -> user (Spawn ep arg 0 k)
| user_postpone k : user k -> user (Postpone k)
| user_io fd ev k : 0 < fd < 1024 -> (forall r, user (k r)) -> user (Io fd ev k).

Lemma user_unroll next s : user (Machine next s) -> user (unroll next s).
Proof using.
  clear sfiber efiber loop frame.
  inversion 1 as [next' s' Hnext| | | | | | | | | | | |]; subst. pose proof (Hnext s) as Hs. unfold unroll.
  destruct (next s); cbn in Hs; subst; constructor; intros; solve [apply Hnext | by constructor | tauto].
Qed.

(** Where a fiber is: about to execute or executing, in a list, or waiting for
    I/O. *)
Inductive place := Hand | Queued (n : lname) | Waiting.

#[export] Instance place_eq_dec : EqDecision place.
Proof. solve_decision. Defined.

(** A fiber that can go on: its own code, or the end of a lock it now holds,
    or the end of a call of [dfk__io] whose element is still there. *)
Inductive runnable (a : astate) (f : Z) : code -> Prop :=
| run_user c : user c -> runnable a f c
| run_locked m k : m ∈ mutexes -> user k -> owner a !! m = Some f -> runnable a f (Locked m k)
| run_io_done k el : (forall r, user (k r)) -> elems a !! frame f = Some el ->
    runnable a f (IoDone (frame f) k).

Definition fits (a : astate) (f : Z) (p : place) (c : code) : Prop :=
  match p with
  | Hand => True
  | Queued LPend => runnable a f c
  | Queued (LLocal g) => runnable a f c /\ g = sfiber
  | Queued LTerm => c = Return
  | Queued (LMutex m) => exists k o, c = Locked m k /\ user k /\ m ∈ mutexes /\
      owner a !! m = Some o /\ o <> 0 /\ o <> f
  | Queued (LCond _) => exists m k, c = Lock m k /\ user c
  | Queued LFds => False
  | Waiting => exists k el, c = IoDone (frame f) k /\ (forall r, user (k r)) /\
      elems a !! frame f = Some el /\ yieldback el = f /\ 0 <= e_fd el < 1024
  end.

Record ainv (a : astate) (loc : gmap Z place) : Prop := AInv {
  ai_nodup : forall n, NoDup (q a n);
  ai_queued : forall n f, n <> LFds -> f ∈ q a n <-> loc !! f = Some (Queued n);
  ai_waiting : forall e, e ∈ q a LFds <-> exists f, e = frame f /\ loc !! f = Some Waiting;
  ai_fibers : fibers a = {[sfiber]} ∪ ({[efiber]} ∪ dom loc);
  ai_system : sfiber <> efiber /\ sfiber ∉ dom loc /\ efiber ∉ dom loc /\ 0 ∉ fibers a;
  ai_code : forall f p, loc !! f = Some p -> exists c, codes a !! f = Some c /\ fits a f p c;
  ai_loop : codes a !! efiber = Some (LoopStart loop) \/ codes a !! efiber = Some (LoopSelect loop);
  ai_owner : dom (owner a) = mutexes;
  ai_conds : conds a = conditions;
  ai_aio : aio a = Z.of_nat (length (q a LFds));
  ai_elems : forall e el, elems a !! e = Some el ->
    exists f, e = frame f /\ (loc !! f = Some Hand \/
      exists p k, loc !! f = Some p /\ codes a !! f = Some (IoDone e k))
}.

(** Between two calls only the fiber that executes is at hand, and it can go
    on. *)
Definition executing (a : astate) (loc : gmap Z place) : Prop :=
  (cur a = sfiber \/ cur a = efiber \/ loc !! cur a = Some Hand) /\
  (forall f, loc !! f = Some Hand -> f = cur a /\
     exists c, codes a !! f = Some c /\ runnable a f c /\
       (is_Some (elems a !! frame f) -> exists k, c = IoDone (frame f) k)).

Context (frame_inj : Inj (=) (=) frame).

(** [fits] only depends on the owner of the mutex and the element named in the
    code. *)
Lemma runnable_frame a a' f c : runnable a f c ->
  (forall m k, c = Locked m k -> owner a !! m = Some f -> owner a' !! m = Some f) ->
  (forall k el, c = IoDone (frame f) k -> elems a !! frame f = Some el -> is_Some (elems a' !! frame f)) ->
  runnable a' f c.
Proof.
  intros [c' Hu|m k Hm Hk Ho|k el Hk He] H1 H2; [by constructor| |].
  - apply run_locked; [done..|]. by eapply H1.
  - destruct (H2 _ _ eq_refl He) as [el' He']. by eapply run_io_done.
Qed.

Lemma fits_same a a' f p c : owner a' = owner a -> elems a' = elems a -> fits a f p c -> fits a' f p c.
Proof.
  intros Ho He. destruct p as [|[]|]; cbn; rewrite ?Ho, ?He; try done.
  - intros Hr. eapply runnable_frame; [done|by rewrite Ho|]. rewrite He. by eauto.
  - intros [Hr ->]. split; [|done]. eapply runnable_frame; [done|by rewrite Ho|]. rewrite He. by eauto.
Qed.

Lemma loc_cases a loc f : ainv a loc -> f ∈ fibers a -> f = sfiber \/ f = efiber \/ is_Some (loc !! f).
Proof. intros Hi. rewrite (ai_fibers _ _ Hi), !elem_of_union, !elem_of_singleton, elem_of_dom. tauto. Qed.

Lemma loc_fiber a loc f p : ainv a loc -> loc !! f = Some p ->
  f ∈ fibers a /\ f <> sfiber /\ f <> efiber /\ f <> 0.
Proof.
  intros Hi Hl. apply elem_of_dom_2 in Hl. destruct (ai_system _ _ Hi) as (H1 & H2 & H3 & H4).
  assert (f ∈ fibers a) by (rewrite (ai_fibers _ _ Hi); set_solver).
  split_and!; [done|by intros ->..].
Qed.

(** ** Moves *)

(** The elements stay accounted for when [f] comes to the hand, or leaves it
    with an element only if it waits for it. *)
Lemma elems_hand a loc f p e el : ainv a loc -> loc !! f = Some p -> elems a !! e = Some el ->
  exists g, e = frame g /\ (<[f := Hand]> loc !! g = Some Hand \/
    exists p' k, <[f := Hand]> loc !! g = Some p' /\ codes a !! g = Some (IoDone e k)).
Proof.
  intros Hi Hf He. destruct (ai_elems _ _ Hi _ _ He) as (g & -> & Hg). exists g. split; [done|].
  destruct (decide (g = f)) as [->|Hne]; [left; by rewrite lookup_insert_eq|].
  by rewrite !lookup_insert_ne by done.
Qed.

Lemma elems_coded a loc f p e el : ainv a loc -> elems a !! e = Some el ->
  (is_Some (elems a !! frame f) -> exists k, codes a !! f = Some (IoDone (frame f) k)) ->
  exists g, e = frame g /\ (<[f := p]> loc !! g = Some Hand \/
    exists p' k, <[f := p]> loc !! g = Some p' /\ codes a !! g = Some (IoDone e k)).
Proof.
  intros Hi He Hk. destruct (ai_elems _ _ Hi _ _ He) as (g & -> & Hg). exists g. split; [done|].
  destruct (decide (g = f)) as [->|Hne]; [|by rewrite !lookup_insert_ne by done].
  destruct Hk as [k Hk]; [by eexists|]. right. exists p, k. by rewrite lookup_insert_eq.
Qed.

(** [f] leaves a list for the hand. *)
Lemma ainv_leave a loc n pre f suf : ainv a loc -> n <> LFds -> q a n = pre ++ f :: suf ->
  ainv (set_q n (pre ++ suf) a) (<[f := Hand]> loc).
Proof.
  intros Hi Hn Hq. pose proof (ai_nodup _ _ Hi n) as Hnd. rewrite Hq in Hnd.
  assert (loc !! f = Some (Queued n)) as Hf.
  { apply (ai_queued _ _ Hi); [done|]. rewrite Hq. set_solver. }
  assert (f ∉ pre ++ suf /\ NoDup (pre ++ suf)) as [Hnin Hnd'].
  { rewrite <- Permutation_middle in Hnd. by apply NoDup_cons in Hnd. }
  split; cbn [set_q owner conds codes fibers elems aio].
  - intros n'. rewrite q_set. case_decide; [done|apply Hi].
  - intros n' g Hn'. rewrite q_set. destruct (decide (g = f)) as [->|Hg].
    + rewrite lookup_insert_eq. split; [|done]. case_decide as E; [done|].
      intros Hin. apply (ai_queued _ _ Hi) in Hin; [congruence|done].
    + rewrite lookup_insert_ne by done. rewrite <- (ai_queued _ _ Hi) by done.
      case_decide as E; [subst; rewrite Hq; set_solver|done].
  - intros e. rewrite q_set, decide_False by done. rewrite (ai_waiting _ _ Hi). split.
    + intros (g & -> & Hg). exists g. split; [done|]. rewrite lookup_insert_ne by congruence. done.
    + intros (g & -> & Hg). exists g. split; [done|].
      apply lookup_insert_Some in Hg as [[_ ?]|[_ ?]]; [done|done].
  - rewrite dom_insert_lookup_L by (by eexists). apply Hi.
  - rewrite dom_insert_lookup_L by (by eexists). apply Hi.
  - intros g p. rewrite lookup_insert_Some. intros [[<- <-]|[Hne Hg]].
    + destruct (ai_code _ _ Hi f _ Hf) as (d & Hd & _). by exists d.
    + destruct (ai_code _ _ Hi g p Hg) as (d & Hd & Hfit). exists d. split; [done|].
      by eapply (fits_same a).
  - apply Hi.
  - apply Hi.
  - apply Hi.
  - rewrite q_set, decide_False by done. apply Hi.
  - intros e el' He. by eapply (elems_hand a).
Qed.

(** [f] goes from the hand to the end of a list. *)
Lemma ainv_enter a loc n f c : ainv a loc -> n <> LFds -> loc !! f = Some Hand ->
  codes a !! f = Some c -> fits a f (Queued n) c ->
  (is_Some (elems a !! frame f) -> exists k, c = IoDone (frame f) k) ->
  ainv (push n f a) (<[f := Queued n]> loc).
Proof.
  intros Hi Hn Hf Hc Hfit Hel.
  assert (forall n', f ∈ q a n' -> n' = LFds) as Hnin.
  { intros n' Hin. destruct (decide (n' = LFds)) as [|Hne]; [done|].
    apply (ai_queued _ _ Hi) in Hin; [congruence|done]. }
  unfold push. split; cbn [set_q owner conds codes fibers elems aio].
  - intros n'. rewrite q_set. case_decide as E; [|apply Hi]. subst. apply NoDup_app. split_and!.
    + apply Hi.
    + intros x Hx ->%list_elem_of_singleton. apply Hn, Hnin, Hx.
    + apply NoDup_singleton.
  - intros n' g Hn'. rewrite q_set. destruct (decide (g = f)) as [->|Hg].
    + rewrite lookup_insert_eq. case_decide as E.
      * subst. split; [done|]. intros _. set_solver.
      * split; [intros Hin%Hnin; done|]. by intros [= ->].
    + rewrite lookup_insert_ne by done. rewrite <- (ai_queued _ _ Hi) by done.
      case_decide as E; [subst; set_solver|done].
  - intros e. rewrite q_set, decide_False by done. rewrite (ai_waiting _ _ Hi). split.
    + intros (g & -> & Hg). exists g. split; [done|]. rewrite lookup_insert_ne by congruence. done.
    + intros (g & -> & Hg). exists g. split; [done|].
      apply lookup_insert_Some in Hg as [[_ ?]|[_ ?]]; [done|done].
  - rewrite dom_insert_lookup_L by (by eexists). apply Hi.
  - rewrite dom_insert_lookup_L by (by eexists). apply Hi.
  - intros g p. rewrite lookup_insert_Some. intros [[<- <-]|[Hne Hg]].
    + exists c. split; [done|]. by eapply (fits_same a).
    + destruct (ai_code _ _ Hi g p Hg) as (d & Hd & Hfd). exists d. split; [done|].
      by eapply (fits_same a).
  - apply Hi.
  - apply Hi.
  - apply Hi.
  - rewrite q_set, decide_False by done. apply Hi.
  - intros e el He. eapply (elems_coded a); [done..|]. intros Hs. destruct (Hel Hs) as [k ->]. by exists k.
Qed.

(** The element of [f], which holds [f] back, enters or leaves the list of the
    event loop. *)
Lemma ainv_enter_io a loc f k el : ainv a loc -> loc !! f = Some Hand ->
  codes a !! f = Some (IoDone (frame f) k) -> (forall r, user (k r)) ->
  elems a !! frame f = Some el -> yieldback el = f -> 0 <= e_fd el < 1024 ->
  ainv (set_aio (aio a + 1) (push LFds (frame f) a)) (<[f := Waiting]> loc).
Proof.
  intros Hi Hf Hc Hk Hel Hy Hfd.
  assert (frame f ∉ q a LFds) as Hnin.
  { intros Hin. apply (ai_waiting _ _ Hi) in Hin as (g & Hg%frame_inj & Hl). congruence. }
  unfold push. split; cbn [set_aio set_q owner conds codes fibers elems aio].
  - intros n'. cbn. case_decide as E; [|apply Hi]. subst. apply NoDup_app. split_and!.
    + apply Hi.
    + by intros x Hx ->%list_elem_of_singleton.
    + apply NoDup_singleton.
  - intros n' g Hn'. cbn. rewrite decide_False by done. rewrite (ai_queued _ _ Hi) by done.
    rewrite lookup_insert_Some. split; [|by intros [[_ ?]|[_ ?]]].
    intros Hg. right. split; [congruence|done].
  - intros e. cbn. rewrite decide_True by done. rewrite elem_of_app, list_elem_of_singleton, (ai_waiting _ _ Hi). split.
    + intros [(g & -> & Hg)| ->].
      * exists g. split; [done|]. rewrite lookup_insert_ne by congruence. done.
      * exists f. by rewrite lookup_insert_eq.
    + intros (g & -> & Hg). apply lookup_insert_Some in Hg as [[<- _]|[Hne Hg]]; [by right|left].
      by exists g.
  - rewrite dom_insert_lookup_L by (by eexists). apply Hi.
  - rewrite dom_insert_lookup_L by (by eexists). apply Hi.
  - intros g p. rewrite lookup_insert_Some. intros [[<- <-]|[Hne Hg]].
    + eexists. split; [done|]. by exists k, el.
    + destruct (ai_code _ _ Hi g p Hg) as (d & Hd & Hfit). exists d. split; [done|].
      by eapply (fits_same a).
  - apply Hi.
  - apply Hi.
  - apply Hi.
  - cbn. rewrite decide_True by done. rewrite length_app, (ai_aio _ _ Hi). cbn. lia.
  - intros e el' He. eapply (elems_coded a); [done..|]. intros _. by exists k.
Qed.

Lemma ainv_leave_io a loc f pre suf : ainv a loc -> loc !! f = Some Waiting ->
  q a LFds = pre ++ frame f :: suf ->
  ainv (set_aio (aio a - 1) (set_q LFds (pre ++ suf) a)) (<[f := Hand]> loc).
Proof.
  intros Hi Hf Hq. pose proof (ai_nodup _ _ Hi LFds) as Hnd. rewrite Hq in Hnd.
  assert (frame f ∉ pre ++ suf /\ NoDup (pre ++ suf)) as [Hnin Hnd'].
  { rewrite <- Permutation_middle in Hnd. by apply NoDup_cons in Hnd. }
  destruct (ai_code _ _ Hi _ _ Hf) as (c & Hc & (k & el & -> & Hk & Hel & Hy & Hfd)).
  split; cbn [set_aio set_q owner conds codes fibers elems aio].
  - intros n'. cbn. case_decide; [done|apply Hi].
  - intros n' g Hn'. cbn. rewrite decide_False by done. rewrite (ai_queued _ _ Hi) by done.
    rewrite lookup_insert_Some. split; [|by intros [[_ ?]|[_ ?]]].
    intros Hg. right. split; [congruence|done].
  - intros e. cbn. rewrite decide_True by done. split.
    + intros Hin. assert (e ∈ q a LFds) as Hin' by (rewrite Hq; set_solver).
      apply (ai_waiting _ _ Hi) in Hin' as (g & -> & Hg). exists g. split; [done|].
      rewrite lookup_insert_ne; [done|]. by intros ->.
    + intros (g & -> & Hg). apply lookup_insert_Some in Hg as [[_ ?]|[Hne Hg]]; [done|].
      assert (frame g ∈ q a LFds) as Hin by (apply (ai_waiting _ _ Hi); eauto).
      rewrite Hq in Hin. apply elem_of_app in Hin as [?|[E|?]%elem_of_cons]; [set_solver| |set_solver].
      by apply frame_inj in E.
  - rewrite dom_insert_lookup_L by (by eexists). apply Hi.
  - rewrite dom_insert_lookup_L by (by eexists). apply Hi.
  - intros g p. rewrite lookup_insert_Some. intros [[<- <-]|[Hne Hg]].
    + by eexists.
    + destruct (ai_code _ _ Hi g p Hg) as (d & Hd & Hfit). exists d. split; [done|].
      by eapply (fits_same a).
  - apply Hi.
  - apply Hi.
  - apply Hi.
  - cbn. rewrite decide_True by done. rewrite (ai_aio _ _ Hi), Hq, !length_app. cbn. lia.
  - intros e el' He. by eapply (elems_hand a).
Qed.

(** The code of a fiber at hand is free to change. *)
Lemma ainv_code a loc f c : ainv a loc -> loc !! f = Some Hand -> ainv (set_code f c a) loc.
Proof.
  intros Hi Hf. destruct (loc_fiber _ _ _ _ Hi Hf) as (_ & _ & Hne & _).
  split; cbn [set_code q owner conds codes fibers elems aio]; try apply Hi.
  - intros g p Hg. destruct (ai_code _ _ Hi g p Hg) as (d & Hd & Hfit).
    destruct (decide (g = f)) as [->|Hgf].
    + exists c. rewrite lookup_insert_eq. split; [done|]. by rewrite Hf in Hg; injection Hg as <-.
    + exists d. rewrite lookup_insert_ne by done. split; [done|]. by eapply (fits_same a).
  - rewrite !lookup_insert_ne by done. apply Hi.
  - intros e el He. destruct (ai_elems _ _ Hi _ _ He) as (g & -> & Hg). exists g. split; [done|].
    destruct (decide (g = f)) as [->|Hgf]; [by left|].
    destruct Hg as [Hg|(p & k & Hg & Hk)]; [by left|right]. exists p, k. by rewrite lookup_insert_ne.
Qed.

Lemma ainv_loop_code a loc c : ainv a loc -> c = LoopStart loop \/ c = LoopSelect loop ->
  ainv (set_code efiber c a) loc.
Proof.
  intros Hi Hc. assert (forall g p, loc !! g = Some p -> g <> efiber) as Hne.
  { intros g p Hg. by destruct (loc_fiber _ _ _ _ Hi Hg) as (_ & _ & ? & _). }
  split; cbn [set_code q owner conds codes fibers elems aio]; try apply Hi.
  - intros g p Hg. destruct (ai_code _ _ Hi g p Hg) as (d & Hd & Hfit). exists d.
    pose proof (Hne _ _ Hg). rewrite lookup_insert_ne by done. split; [done|]. by eapply (fits_same a).
  - rewrite !lookup_insert_eq. destruct Hc as [-> | ->]; auto.
  - intros e el He. destruct (ai_elems _ _ Hi _ _ He) as (g & -> & Hg). exists g. split; [done|].
    destruct Hg as [Hg|(p & k & Hg & Hk)]; [by left|right]. exists p, k.
    pose proof (Hne _ _ Hg). by rewrite lookup_insert_ne.
Qed.

(** A mutex changes hands: only a fiber at hand (or none) could rely on the old
    owner, and no fiber waits for the new one to be another. *)
Lemma ainv_own a loc m o f : ainv a loc -> m ∈ mutexes -> owner a !! m = Some o ->
  (forall p, loc !! o = Some p -> p = Hand) ->
  q a (LMutex m) = [] \/ (f <> 0 /\ f ∉ q a (LMutex m)) ->
  ainv (set_own m f a) loc.
Proof.
  intros Hi Hm Ho Hold Hnew. split; cbn [set_own q owner conds codes fibers elems aio]; try apply Hi.
  - intros g p Hg. destruct (ai_code _ _ Hi g p Hg) as (d & Hd & Hfit). exists d. split; [done|].
    assert (p <> Hand -> runnable a g d -> runnable (set_own m f a) g d) as Hrun.
    { intros Hp Hr. eapply runnable_frame; [done| |by eauto].
      intros m' k -> Hm'. cbn. destruct (decide (m' = m)) as [->|]; [|by rewrite lookup_insert_ne].
      rewrite Ho in Hm'. injection Hm' as ->. by apply Hold in Hg. }
    destruct p as [|[]|]; cbn in Hfit |- *; try done.
    + by apply Hrun.
    + destruct Hfit as [Hr ->]. split; [by apply Hrun|done].
    + destruct Hfit as (k & o' & -> & Hu & Hm' & Ho' & H0 & Hne).
      destruct (decide (m0 = m)) as [->|Hmm].
      * assert (g ∈ q a (LMutex m)) as Hin by (by apply (ai_queued _ _ Hi)).
        destruct Hnew as [Hq|[Hf0 Hnf]]; [rewrite Hq in Hin; by apply not_elem_of_nil in Hin|].
        exists k, f. split_and!; try done; [by rewrite lookup_insert_eq|]. by intros ->.
      * exists k, o'. by rewrite lookup_insert_ne.
  - rewrite dom_insert_L, (ai_owner _ _ Hi). set_solver.
Qed.

(** The element in the frame of a fiber at hand. *)
Lemma ainv_elem a loc f el : ainv a loc -> loc !! f = Some Hand -> ainv (set_elem (frame f) el a) loc.
Proof.
  intros Hi Hf. split; cbn [set_elem q owner conds codes fibers elems aio]; try apply Hi.
  - intros g p Hg. destruct (ai_code _ _ Hi g p Hg) as (d & Hd & Hfit). exists d. split; [done|].
    assert (p <> Hand -> frame g <> frame f) as Hgf.
    { intros Hp ->%frame_inj. congruence. }
    assert (p <> Hand -> runnable a g d -> runnable (set_elem (frame f) el a) g d) as Hrun.
    { intros Hp Hr. eapply runnable_frame; [done|by eauto|]. intros k el' -> Hel'. cbn.
      rewrite lookup_insert_ne by (symmetry; auto). by eexists. }
    destruct p as [|[]|]; cbn in Hfit |- *; try done.
    + by apply Hrun.
    + destruct Hfit as [Hr ->]. split; [by apply Hrun|done].
    + destruct Hfit as (k & el' & -> & Hk & Hel' & Hy). exists k, el'.
      rewrite lookup_insert_ne by (symmetry; auto). done.
  - intros e el'. rewrite lookup_insert_Some. intros [[<- _]|[_ He]]; [exists f; auto|].
    by eapply (ai_elems _ _ Hi).
Qed.

Lemma ainv_del_elem a loc f : ainv a loc -> loc !! f = Some Hand -> ainv (del_elem (frame f) a) loc.
Proof.
  intros Hi Hf. split; cbn [del_elem q owner conds codes fibers elems aio]; try apply Hi.
  - intros g p Hg. destruct (ai_code _ _ Hi g p Hg) as (d & Hd & Hfit). exists d. split; [done|].
    assert (p <> Hand -> frame g <> frame f) as Hgf.
    { intros Hp ->%frame_inj. congruence. }
    assert (p <> Hand -> runnable a g d -> runnable (del_elem (frame f) a) g d) as Hrun.
    { intros Hp Hr. eapply runnable_frame; [done|by eauto|]. intros k el' -> Hel'. cbn.
      rewrite lookup_delete_ne by (symmetry; auto). by eexists. }
    destruct p as [|[]|]; cbn in Hfit |- *; try done.
    + by apply Hrun.
    + destruct Hfit as [Hr ->]. split; [by apply Hrun|done].
    + destruct Hfit as (k & el' & -> & Hk & Hel' & Hy). exists k, el'.
      rewrite lookup_delete_ne by (symmetry; auto). done.
  - intros e el'. rewrite lookup_delete_Some. intros [_ He]. by eapply (ai_elems _ _ Hi).
Qed.

Lemma ainv_transfer a loc f : ainv a loc -> ainv (transfer f a) loc.
Proof.
  intros Hi. split; try apply Hi.
  intros g p Hg. destruct (ai_code _ _ Hi g p Hg) as (d & Hd & Hfit). exists d. split; [done|].
  by eapply (fits_same a).
Qed.

(** Birth and death. *)
Lemma ainv_add a loc f c : ainv a loc -> f ∉ fibers a -> f <> 0 ->
  ainv (add_fiber f c a) (<[f := Hand]> loc).
Proof.
  intros Hi Hf H0. rewrite (ai_fibers _ _ Hi), !not_elem_of_union, !not_elem_of_singleton in Hf.
  destruct Hf as (Hs & He & Hd). apply not_elem_of_dom in Hd.
  destruct (ai_system _ _ Hi) as (S1 & S2 & S3 & S4).
  split; cbn [add_fiber q owner conds codes fibers elems aio]; try apply Hi.
  - intros n g Hn. rewrite (ai_queued _ _ Hi) by done. rewrite lookup_insert_Some.
    split; [|by intros [[_ ?]|[_ ?]]]. intros Hg. right. split; [congruence|done].
  - intros e. rewrite (ai_waiting _ _ Hi). split; intros (g & -> & Hg); exists g; (split; [done|]).
    + rewrite lookup_insert_ne by congruence. done.
    + by apply lookup_insert_Some in Hg as [[_ ?]|[_ ?]].
  - rewrite (ai_fibers _ _ Hi), dom_insert_L. set_solver.
  - rewrite dom_insert_L. split_and!; [done|set_solver..|].
    rewrite (ai_fibers _ _ Hi) in S4 |- *. set_solver.
  - intros g p. rewrite lookup_insert_Some. intros [[<- <-]|[Hne Hg]].
    + exists c. by rewrite lookup_insert_eq.
    + destruct (ai_code _ _ Hi g p Hg) as (d & Hd' & Hfit). exists d.
      rewrite lookup_insert_ne by done. split; [done|]. by eapply (fits_same a).
  - rewrite !lookup_insert_ne by done. apply Hi.
  - intros e el Hel. destruct (ai_elems _ _ Hi _ _ Hel) as (g & -> & Hg). exists g. split; [done|].
    assert (g <> f) as Hgf by (intros ->; destruct Hg as [|(? & ? & ? & ?)]; congruence).
    by rewrite !lookup_insert_ne by done.
Qed.

Lemma ainv_del a loc f : ainv a loc -> loc !! f = Some Hand -> elems a !! frame f = None ->
  ainv (del_fiber f a) (delete f loc).
Proof.
  intros Hi Hf Hel. destruct (ai_system _ _ Hi) as (S1 & S2 & S3 & S4).
  destruct (loc_fiber _ _ _ _ Hi Hf) as (_ & Hs & He & _).
  split; cbn [del_fiber q owner conds codes fibers elems aio]; try apply Hi.
  - intros n g Hn. rewrite (ai_queued _ _ Hi) by done. rewrite lookup_delete_Some.
    split; [|by intros [_ ?]]. intros Hg. split; [congruence|done].
  - intros e. rewrite (ai_waiting _ _ Hi). split; intros (g & -> & Hg); exists g; (split; [done|]).
    + rewrite lookup_delete_ne by congruence. done.
    + by apply lookup_delete_Some in Hg as [_ ?].
  - rewrite (ai_fibers _ _ Hi), dom_delete_L. apply elem_of_dom_2 in Hf. set_solver.
  - rewrite dom_delete_L. split_and!; [done|set_solver..].
  - intros g p. rewrite lookup_delete_Some. intros [Hne Hg].
    destruct (ai_code _ _ Hi g p Hg) as (d & Hd' & Hfit). exists d. split; [done|]. by eapply (fits_same a).
  - intros e el Hel'. destruct (ai_elems _ _ Hi _ _ Hel') as (g & -> & Hg). exists g. split; [done|].
    assert (g <> f) as Hgf by congruence. by rewrite !lookup_delete_ne by done.
Qed.

(** The local lists of the scheduler: all pending fibers at once. *)
Lemma ainv_batch a loc : ainv a loc -> q a (LLocal sfiber) = [] ->
  exists loc', ainv (set_q LPend [] (set_q (LLocal sfiber) (q a LPend) a)) loc' /\
    forall f, loc !! f <> Some (Queued LPend) -> loc' !! f = loc !! f.
Proof.
  intros Hi Hq.
  set (mv := fun p => if decide (p = Queued LPend) then Queued (LLocal sfiber) else p).
  exists (mv <$> loc). assert (forall f p, (mv <$> loc) !! f = Some p <->
      (exists p', loc !! f = Some p' /\ p = mv p')) as Hmv.
  { intros f p. rewrite lookup_fmap. destruct (loc !! f) as [p'|]; cbn; naive_solver. }
  assert (forall f, loc !! f <> Some (Queued (LLocal sfiber))) as Hnone.
  { intros f Hf. apply (ai_queued _ _ Hi) in Hf; [|done]. rewrite Hq in Hf. by apply not_elem_of_nil in Hf. }
  split.
  - split; cbn [set_q owner conds codes fibers elems aio].
    + intros n. cbn. repeat case_decide; [constructor|apply Hi..].
    + intros n f Hn. cbn. rewrite Hmv. unfold mv. destruct (decide (n = LPend)) as [->|Hnp].
      * split; [by intros ?%not_elem_of_nil|]. intros (p' & _ & E). by case_decide; subst.
      * destruct (decide (n = LLocal sfiber)) as [->|Hnl].
        -- rewrite (ai_queued _ _ Hi) by done. split.
           ++ intros Hf. exists (Queued LPend). by rewrite decide_True by done.
           ++ intros (p' & Hp & E). case_decide; [by subst|]. subst p'. by apply Hnone in Hp.
        -- rewrite (ai_queued _ _ Hi) by done. split.
           ++ intros Hf. exists (Queued n). rewrite decide_False by congruence. done.
           ++ intros (p' & Hp & E). case_decide; [by injection E as ->|by subst].
    + intros e. cbn. rewrite (ai_waiting _ _ Hi). split; intros (f & -> & Hf); exists f; (split; [done|]).
      * apply Hmv. by exists Waiting.
      * apply Hmv in Hf as (p' & Hp & E). unfold mv in E. by case_decide; subst.
    + rewrite dom_fmap_L. apply Hi.
    + rewrite dom_fmap_L. apply Hi.
    + intros f p (p' & Hp & ->)%Hmv. destruct (ai_code _ _ Hi f p' Hp) as (d & Hd & Hfit).
      exists d. split; [done|]. unfold mv. case_decide as E.
      * subst p'. split; [|done]. eapply runnable_frame; [exact Hfit|by eauto|by eauto].
      * by eapply (fits_same a).
    + apply Hi.
    + apply Hi.
    + apply Hi.
    + cbn. apply Hi.
    + intros e el Hel. destruct (ai_elems _ _ Hi _ _ Hel) as (g & -> & Hg). exists g. split; [done|].
      destruct Hg as [Hg|(p & k & Hg & Hk)].
      * left. apply Hmv. by exists Hand.
      * right. exists (mv p), k. split; [|done]. apply Hmv. by exists p.
  - intros f Hf. rewrite lookup_fmap. unfold mv. destruct (loc !! f) as [p|]; [|done]. cbn.
    rewrite decide_False by congruence. done.
Qed.
End runtime.

Arguments ai_nodup {_ _ _ _ _ _ _ _}. Arguments ai_queued {_ _ _ _ _ _ _ _}.
Arguments ai_waiting {_ _ _ _ _ _ _ _}. Arguments ai_fibers {_ _ _ _ _ _ _ _}.
Arguments ai_system {_ _ _ _ _ _ _ _}. Arguments ai_code {_ _ _ _ _ _ _ _}.
Arguments ai_loop {_ _ _ _ _ _ _ _}. Arguments ai_owner {_ _ _ _ _ _ _ _}.
Arguments ai_conds {_ _ _ _ _ _ _ _}. Arguments ai_aio {_ _ _ _ _ _ _ _}.
Arguments ai_elems {_ _ _ _ _ _ _ _}.
Arguments loc_fiber {_ _ _ _ _ _ _}. Arguments loc_cases {_ _ _ _ _ _}.
Arguments ainv_leave {_ _ _ _ _ _ _}. Arguments ainv_enter {_ _ _ _ _ _ _}.
Arguments ainv_enter_io {_ _ _ _ _ _ _}. Arguments ainv_leave_io {_ _ _ _ _ _ _}.
Arguments ainv_code {_ _ _ _ _ _ _}. Arguments ainv_loop_code {_ _ _ _ _ _ _}.
Arguments ainv_own {_ _ _ _ _ _ _}. Arguments ainv_elem {_ _ _ _ _ _ _}.
Arguments ainv_del_elem {_ _ _ _ _ _ _}. Arguments ainv_add {_ _ _ _ _ _ _}.
Arguments ainv_del {_ _ _ _ _ _ _}. Arguments ainv_batch {_ _ _ _ _ _}.
Arguments ainv_transfer {_ _ _ _ _ _}. Arguments fits_same {_ _ _ _}.

(** ** States with the same queues

    Queues are a function of their names, so states are compared queue by
    queue. *)

Record astate_equiv (a b : astate) : Prop := AEquiv {
  ae_q : forall n, q a n = q b n;
  ae_owner : owner a = owner b;
  ae_conds : conds a = conds b;
  ae_codes : codes a = codes b;
  ae_fibers : fibers a = fibers b;
  ae_elems : elems a = elems b;
  ae_aio : aio a = aio b;
  ae_cur : cur a = cur b;
  ae_locals : locals a = locals b
}.
#[export] Instance astate_equiv_inst : Equiv astate := astate_equiv.

#[export] Instance astate_equivalence : Equivalence (≡@{astate}).
Proof.
  split.
  - by intros a.
  - by intros a b []; split.
  - intros a b c [] []; split; [intros n|..]; etrans; eauto.
Qed.

#[export] Instance set_q_proper n xs : Proper ((≡) ==> (≡@{astate})) (set_q n xs).
Proof. intros a b []. split; try done. intros n'. rewrite !q_set. by case_decide. Qed.

#[export] Instance transfer_proper f : Proper ((≡) ==> (≡@{astate})) (transfer f).
Proof. by intros a b []. Qed.

#[export] Instance ainv_proper sf ef l fr ms cs :
  Proper ((≡@{astate}) ==> (=) ==> iff) (ainv sf ef l fr ms cs).
Proof.
  assert (forall a b loc, a ≡ b -> ainv sf ef l fr ms cs a loc -> ainv sf ef l fr ms cs b loc) as H.
  { intros a b loc [E1 E2 E3 E4 E5 E6 E7 E8 E9] Hi. split.
    - intros n. rewrite <- E1. apply Hi.
    - intros n f. rewrite <- E1. apply Hi.
    - intros e. rewrite <- E1. apply Hi.
    - rewrite <- E5. apply Hi.
    - rewrite <- E5. apply Hi.
    - intros f p Hf. rewrite <- E4. destruct (ai_code Hi f p Hf) as (c & Hc & Hfit). exists c.
      split; [done|]. by eapply (fits_same a).
    - rewrite <- E4. apply Hi.
    - rewrite <- E2. apply Hi.
    - rewrite <- E3. apply Hi.
    - rewrite <- E1, <- E7. apply Hi.
    - intros e. rewrite <- E4, <- E6. apply Hi. }
  intros a b E loc ? <-. split; apply H; [done|by symmetry].
Qed.
