(* ===== verification/RuntimeStep.v ===== *)
(** * The steps of the fiber runtime, abstractly

    What every operation does to the queues, owners and contexts, and the step
    relation these make.  The theorems here are about every program: the
    invariant survives each step, a mutex changes hands in one way only, and
    its waiters are served in order. *)

From S2P Require Import Prelude Error Fiber Select Runtime.

Section steps.
Context (sfiber efiber loop : Z) (frame : Z -> Z) (mutexes conditions : gset Z).
#[local] Notation ainv := (ainv sfiber efiber loop frame mutexes conditions).
#[local] Notation executing := (executing sfiber efiber frame mutexes conditions).
#[local] Notation user := (user mutexes conditions).
#[local] Notation runnable := (runnable frame mutexes conditions).

(** ** Operations *)

(** The executing fiber gives up the processor and waits in a list. *)
Definition a_suspend (n : lname) (a : astate) : astate := transfer sfiber (push n (cur a) a).

Definition a_lock (m : Z) (a : astate) : astate :=
  match owner a !! m with
  | Some o =>
      if decide (o = 0) then set_own m (cur a) a
      else if decide (o = cur a) then a else a_suspend (LMutex m) a
  | None => a
  end.

Definition a_release (m : Z) (a : astate) : astate :=
  match q a (LMutex m) with
  | [] => set_own m 0 a
  | f :: xs => push LPend f (set_own m f (set_q (LMutex m) xs a))
  end.

Definition a_trylock (m : Z) (a : astate) : astate :=
  if decide (owner a !! m = Some 0) then set_own m (cur a) a else a.
Definition a_trylock_result (m : Z) (a : astate) : Z :=
  if decide (owner a !! m = Some 0 \/ owner a !! m = Some (cur a)) then err_code dfk_err_ok
  else err_code dfk_err_busy.

Definition a_signal (c : Z) (a : astate) : astate :=
  match q a (LCond c) with
  | [] => a
  | f :: xs => push LPend f (set_q (LCond c) xs a)
  end.

Definition a_broadcast (c : Z) (a : astate) : astate :=
  set_q LPend (q a LPend ++ q a (LCond c)) (set_q (LCond c) [] (add_local (cur a) a)).

Definition a_spawn (p : Z) (c : code) (a : astate) : astate := push LPend p (add_fiber p c a).

Definition a_io (fd ev : Z) (a : astate) : astate :=
  let f := cur a in
  transfer sfiber (set_aio (aio a + 1) (push LFds (frame f) (set_elem (frame f) (FdElem fd ev f) a))).

(** What [select] reports about an element. *)
Definition ready_in (r w x : list Z) (el : dfk_fdlist_element_t) : bool :=
  fd_isset (e_fd el) r || fd_isset (e_fd el) w || fd_isset (e_fd el) x.
Definition reported (r w x : list Z) (el : dfk_fdlist_element_t) : dfk_fdlist_element_t :=
  set_events (ready_events (fd_isset (e_fd el) r) (fd_isset (e_fd el) w) (fd_isset (e_fd el) x)) el.

Definition elem_ready (r w x : list Z) (a : astate) (e : Z) : bool :=
  match elems a !! e with Some el => ready_in r w x el | None => false end.

(** A ready element leaves the list and its fiber becomes pending. *)
Definition a_deliver1 (r w x : list Z) (a : astate) (e : Z) : astate :=
  match elems a !! e with
  | Some el =>
      if ready_in r w x el then
        push LPend (yieldback el) (set_elem e (reported r w x el)
          (set_aio (aio a - 1) (set_q LFds (filter (.≠ e) (q a LFds)) a)))
      else a
  | None => a
  end.
Definition a_deliver (r w x : list Z) (es : list Z) (a : astate) : astate := foldl (a_deliver1 r w x) a es.

(** The event loop goes on without a fiber's turn only if it found nothing. *)
Definition a_ready (r w x : list Z) (a : astate) : astate :=
  if (Z.of_nat (length r + length w + length x) =? 0) then transfer sfiber a
  else if existsb (elem_ready r w x a) (q a LFds) then transfer sfiber (a_deliver r w x (q a LFds) a)
  else a.

(** ** The step relation *)

(** [calls a c b]: the executing fiber makes the call that [c] begins with.
    A call that fails an assertion has no rule. *)
Inductive calls (a : astate) : code -> astate -> Prop :=
| calls_machine next s : calls a (Machine next s) (set_code (cur a) (unroll next s) a)
| calls_return : calls a Return (a_suspend LTerm a)
| calls_mutex_free m k : owner a !! m = Some 0 -> q a (LMutex m) = [] ->
    calls a (MutexFree m k) (set_code (cur a) k a)
| calls_lock m k : calls a (Lock m k) (a_lock m (set_code (cur a) (Locked m k) a))
| calls_locked m k : owner a !! m = Some (cur a) -> calls a (Locked m k) (set_code (cur a) k a)
| calls_unlock m k : owner a !! m = Some (cur a) ->
    calls a (Unlock m k) (a_release m (set_code (cur a) k a))
| calls_trylock m k :
    calls a (Trylock m k) (set_code (cur a) (k (a_trylock_result m a)) (a_trylock m a))
| calls_cond_free c k : q a (LCond c) = [] -> calls a (CondFree c k) (set_code (cur a) k a)
| calls_wait c m k : owner a !! m = Some (cur a) ->
    calls a (Wait c m k) (a_suspend (LCond c) (a_release m (set_code (cur a) (Lock m k) a)))
| calls_signal c k : calls a (Signal c k) (a_signal c (set_code (cur a) k a))
| calls_broadcast c k : calls a (Broadcast c k) (a_broadcast c (set_code (cur a) k a))
| calls_spawn_fail ep arg sz k : calls a (Spawn ep arg sz k) (set_code (cur a) (k 0) a)
| calls_spawn ep arg sz k p : p <> 0 -> p ∉ fibers a ->
    calls a (Spawn ep arg sz k)
      (set_code (cur a) (k p) (a_spawn p (ep (if sz =? 0 then arg else p + FIBER_T)) a))
| calls_postpone k : calls a (Postpone k) (a_suspend LPend (set_code (cur a) k a))
| calls_io fd ev k : calls a (Io fd ev k) (a_io fd ev (set_code (cur a) (IoDone (frame (cur a)) k) a))
| calls_io_done e k el : elems a !! e = Some el ->
    calls a (IoDone e k) (set_code (cur a) (k (e_events el)) (del_elem e a))
| calls_loop_start l : q a LFds <> [] -> calls a (LoopStart l) (set_code (cur a) (LoopSelect l) a)
| calls_loop_idle l : q a LFds = [] ->
    calls a (LoopStart l) (transfer sfiber (set_code (cur a) (LoopSelect l) a))
| calls_select_intr l : calls a (LoopSelect l) (set_code (cur a) (LoopStart l) a)
| calls_select l r w x : calls a (LoopSelect l) (a_ready r w x (set_code (cur a) (LoopStart l) a)).

Definition astep (a b : astate) : Prop :=
  cur a <> sfiber /\ exists c, codes a !! cur a = Some c /\ calls a c b.

(** A call its caller has no right to. *)
Definition misuse (a : astate) : Prop :=
  exists c, codes a !! cur a = Some c /\
    match c with
    | Unlock m _ | Wait _ m _ => owner a !! m <> Some (cur a)
    | MutexFree m _ => owner a !! m <> Some 0 \/ q a (LMutex m) <> []
    | CondFree c _ => q a (LCond c) <> []
    | _ => False
    end.

(** ** The invariant *)

Context (frame_inj : Inj (=) (=) frame).

Definition no_hand (loc : gmap Z place) : Prop := forall f, loc !! f <> Some Hand.
Definition at_hand (a : astate) (loc : gmap Z place) : Prop :=
  forall f, loc !! f = Some Hand <-> f = cur a.

Lemma at_hand_cur a loc : at_hand a loc -> loc !! cur a = Some Hand.
Proof. intros H. by apply H. Qed.

(** Putting the only fiber at hand somewhere. *)
Lemma at_hand_place a loc p : at_hand a loc -> p <> Hand -> no_hand (<[cur a := p]> loc).
Proof. intros H Hp f [[_ ?]|[Hne ?%H]]%lookup_insert_Some; congruence. Qed.

Lemma at_hand_insert a loc f p : at_hand a loc -> f <> cur a -> p <> Hand -> at_hand a (<[f := p]> loc).
Proof.
  intros H Hf Hp g. rewrite lookup_insert_Some, <- (H g). split; [by intros [[_ ?]|[_ ?]]|].
  intros Hg. right. split; [|done]. intros <-. by apply Hf, H.
Qed.

Lemma executing_yield a loc : no_hand loc -> executing (transfer sfiber a) loc.
Proof. intros H. split; [by left|]. intros f Hf. by apply H in Hf. Qed.

Lemma executing_loop a loc : cur a = efiber -> no_hand loc -> executing a loc.
Proof. intros E H. split; [by right; left|]. intros f Hf. by apply H in Hf. Qed.

Lemma executing_go a loc c : at_hand a loc -> codes a !! cur a = Some c -> user c ->
  elems a !! frame (cur a) = None -> executing a loc.
Proof.
  intros H Hc Hu He. split; [right; right; by apply H|]. intros f Hf%H. subst f. split; [done|].
  exists c. split; [done|]. split; [by constructor|]. rewrite He. by intros [].
Qed.

(** The element of a fiber that is not at hand is what it waits for. *)
Lemma elems_code a loc f p : ainv a loc -> loc !! f = Some p -> p <> Hand ->
  is_Some (elems a !! frame f) -> exists k, codes a !! f = Some (IoDone (frame f) k).
Proof.
  intros Hi Hf Hp [el He]. destruct (ai_elems Hi _ _ He) as (g & Hg%frame_inj & Hl).
  subst g. destruct Hl as [?|(p' & k & _ & Hk)]; [congruence|by exists k].
Qed.

(** A fiber is woken: from the head of a queue to the list of pending ones. *)
Lemma ainv_wake a loc n f xs c : ainv a loc -> n <> LFds -> q a n = f :: xs ->
  codes a !! f = Some c -> runnable a f c ->
  ainv (push LPend f (set_q n xs a)) (<[f := Queued LPend]> loc).
Proof.
  intros Hi Hn Hq Hc Hr.
  assert (loc !! f = Some (Queued n)) as Hf.
  { apply (ai_queued Hi); [done|]. rewrite Hq. set_solver. }
  pose proof (ainv_leave a loc n [] f xs Hi Hn Hq) as Hi'. cbn [app] in Hi'.
  rewrite <- (insert_insert_eq loc f (Queued LPend) Hand). eapply ainv_enter; [exact Hi'|done|..].
  - by rewrite lookup_insert_eq.
  - exact Hc.
  - cbn. eapply runnable_frame; [exact Hr|by eauto|by eauto].
  - cbn. intros He. destruct (elems_code a loc f (Queued n)) as [k Hk]; [done..|].
    exists k. congruence.
Qed.

Lemma loc_queued a loc n f xs : ainv a loc -> n <> LFds -> q a n = f :: xs -> loc !! f = Some (Queued n).
Proof using. intros Hi Hn Hq. apply (ai_queued Hi); [done|]. rewrite Hq. apply list_elem_of_here. Qed.

(** A state that the next step starts from. *)
Definition good (b : astate) : Prop := exists loc, ainv b loc /\ executing b loc.

(** ** Steps of a fiber *)

Section hand.
Context a loc (Hi : ainv a loc) (Hh : at_hand a loc).

Lemma hand_ne f p : loc !! f = Some p -> p <> Hand -> f <> cur a.
Proof using Hh. intros Hf Hp ->. apply Hp. pose proof (at_hand_cur _ _ Hh). congruence. Qed.

Lemma good_go c : user c -> elems a !! frame (cur a) = None -> good (set_code (cur a) c a).
Proof using Hi Hh frame_inj.
  intros Hu He. exists loc. split; [by apply ainv_code, at_hand_cur|].
  eapply executing_go; [done|cbn; by rewrite lookup_insert_eq|done|done].
Qed.

Lemma good_suspend n c : n <> LFds -> codes a !! cur a = Some c ->
  fits sfiber frame mutexes conditions a (cur a) (Queued n) c ->
  elems a !! frame (cur a) = None -> good (a_suspend n a).
Proof using Hi Hh frame_inj.
  intros Hn Hc Hfit He. exists (<[cur a := Queued n]> loc). split.
  - apply ainv_transfer. eapply ainv_enter; [done|done|by apply at_hand_cur|done|done|].
    rewrite He. by intros [].
  - by apply executing_yield, at_hand_place.
Qed.

Lemma release_keeps m : m ∈ mutexes -> owner a !! m = Some (cur a) ->
  exists loc', ainv (a_release m a) loc' /\ at_hand (a_release m a) loc'.
Proof using Hi Hh frame_inj.
  intros Hm Ho. unfold a_release. destruct (q a (LMutex m)) as [|f xs] eqn:Hq.
  { exists loc. split; [|done]. eapply ainv_own; [exact Hi|exact Hm|exact Ho| |by left].
    intros p Hp. rewrite at_hand_cur in Hp by done. by injection Hp. }
  assert (loc !! f = Some (Queued (LMutex m))) as Hf by (by eapply loc_queued).
  assert (f <> cur a) as Hne by (by eapply hand_ne).
  destruct (ai_code Hi _ _ Hf) as (c & Hc & k & o & -> & Hk & _ & _).
  destruct (loc_fiber _ _ _ _ Hi Hf) as (_ & _ & _ & Hf0).
  pose proof (ai_nodup Hi (LMutex m)) as Hnd. rewrite Hq in Hnd. apply NoDup_cons in Hnd as [Hnd _].
  exists (<[f := Queued LPend]> loc). split; [|by apply at_hand_insert].
  rewrite <- (insert_insert_eq loc f (Queued LPend) Hand).
  eapply ainv_enter; [|done|by rewrite lookup_insert_eq|exact Hc| |].
  - eapply ainv_own; [by apply (ainv_leave a loc (LMutex m) [])|done|exact Ho| |].
    + intros p. rewrite lookup_insert_ne by done. rewrite at_hand_cur by done. by intros [= <-].
    + right. by rewrite q_set_eq.
  - apply run_locked; [done|done|]. cbn. by rewrite lookup_insert_eq.
  - cbn. intros He. destruct (elems_code a loc f _ Hi Hf ltac:(done) He) as [k' Hk']. congruence.
Qed.

Lemma signal_keeps c : exists loc', ainv (a_signal c a) loc' /\ at_hand (a_signal c a) loc'.
Proof using Hi Hh frame_inj.
  unfold a_signal. destruct (q a (LCond c)) as [|f xs] eqn:Hq; [by exists loc|].
  assert (loc !! f = Some (Queued (LCond c))) as Hf by (by eapply loc_queued).
  assert (f <> cur a) as Hne by (by eapply hand_ne).
  destruct (ai_code Hi _ _ Hf) as (d & Hd & m & k & -> & Hu).
  exists (<[f := Queued LPend]> loc). split; [|by apply at_hand_insert].
  eapply ainv_wake; [done..|]. by apply run_user.
Qed.

Lemma spawn_keeps p c : p <> 0 -> p ∉ fibers a -> user c ->
  exists loc', ainv (a_spawn p c a) loc' /\ at_hand (a_spawn p c a) loc'.
Proof using Hi Hh frame_inj.
  intros H0 Hp Hc. pose proof (at_hand_cur _ _ Hh) as Hcur.
  destruct (loc_fiber _ _ _ _ Hi Hcur) as (Hcf & _).
  assert (p <> cur a) as Hne by (by intros ->).
  exists (<[p := Queued LPend]> loc). split; [|by apply at_hand_insert].
  rewrite <- (insert_insert_eq loc p (Queued LPend) Hand).
  eapply ainv_enter; [by apply ainv_add|done|by rewrite lookup_insert_eq|..].
  - cbn. by rewrite lookup_insert_eq.
  - by apply run_user.
  - cbn. intros [el He]. exfalso. destruct (ai_elems Hi _ _ He) as (g & <-%frame_inj & Hg).
    assert (is_Some (loc !! p)) as [p' Hp'] by (destruct Hg as [Hg|(? & ? & Hg & _)]; rewrite Hg; by eexists).
    by destruct (loc_fiber _ _ _ _ Hi Hp').
Qed.

Lemma hand_not_queued n : n <> LFds -> cur a ∉ q a n.
Proof using Hi Hh.
  intros Hn Hin. apply (ai_queued Hi) in Hin; [|done]. rewrite at_hand_cur in Hin by done. done.
Qed.

Lemma executing_locked m k : m ∈ mutexes -> user k -> owner a !! m = Some (cur a) ->
  codes a !! cur a = Some (Locked m k) -> elems a !! frame (cur a) = None -> executing a loc.
Proof using Hi Hh.
  intros Hm Hk Ho Hc He. split; [right; right; by apply Hh|]. intros f Hf%Hh. subst f. split; [done|].
  exists (Locked m k). split; [done|]. split; [by apply run_locked|]. rewrite He. by intros [].
Qed.

Lemma own_keeps m : m ∈ mutexes -> owner a !! m = Some 0 -> ainv (set_own m (cur a) a) loc.
Proof using Hi Hh frame_inj.
  intros Hm Ho. eapply ainv_own; [exact Hi|exact Hm|exact Ho| |].
  - intros p Hp. by destruct (loc_fiber _ _ _ _ Hi Hp) as (_ & _ & _ & ?).
  - right. split; [|by apply hand_not_queued]. destruct (loc_fiber _ _ _ _ Hi (at_hand_cur _ _ Hh)) as (_ & _ & _ & Hn). exact Hn.
Qed.

Lemma lock_good m k : m ∈ mutexes -> user k -> codes a !! cur a = Some (Locked m k) ->
  elems a !! frame (cur a) = None -> good (a_lock m a).
Proof using Hi Hh frame_inj.
  intros Hm Hk Hc He. assert (is_Some (owner a !! m)) as [o Ho].
  { apply elem_of_dom. by rewrite (ai_owner Hi). }
  unfold a_lock. rewrite Ho. repeat case_decide; subst.
  - exists loc. split; [by apply own_keeps|].
    split; [right; right; by apply Hh|]. intros f Hf%Hh. subst f. split; [done|].
    exists (Locked m k). split; [done|]. split; [apply run_locked; [done|done|]|].
    + cbn. by rewrite lookup_insert_eq.
    + cbn. rewrite He. by intros [].
  - exists loc. split; [done|]. by eapply executing_locked.
  - eapply good_suspend; [done|exact Hc| |done]. by exists k, o.
Qed.

Lemma io_good fd ev k : (forall r, user (k r)) -> 0 <= fd < 1024 ->
  codes a !! cur a = Some (IoDone (frame (cur a)) k) -> good (a_io fd ev a).
Proof using Hi Hh frame_inj.
  intros Hk Hfd Hc. exists (<[cur a := Waiting]> loc). split; [|by apply executing_yield, at_hand_place].
  apply ainv_transfer. set (el := FdElem fd ev (cur a)).
  apply (ainv_enter_io (set_elem (frame (cur a)) el a) loc (cur a) k el); try done.
  - by apply ainv_elem, at_hand_cur.
  - by apply at_hand_cur.
  - cbn. by rewrite lookup_insert_eq.
Qed.

End hand.

Lemma ainv_add_local a loc f : ainv a loc -> ainv (add_local f a) loc.
Proof.
  intros Hi. split; try apply Hi. intros g p Hg. destruct (ai_code Hi g p Hg) as (d & Hd & Hfit).
  exists d. split; [done|]. by eapply (fits_same a).
Qed.

(** All waiting fibers are woken, one by one. *)
Lemma wake_all_keeps c xs a loc : ainv a loc -> at_hand a loc -> q a (LCond c) = xs ->
  exists loc', ainv (set_q LPend (q a LPend ++ xs) (set_q (LCond c) [] a)) loc' /\ at_hand a loc'.
Proof.
  revert a loc. induction xs as [|f xs IH]; intros a loc Hi Hh Hq.
  - exists loc. split; [|done]. rewrite app_nil_r. eapply ainv_proper; [|reflexivity|exact Hi].
    split; try done. intros n. rewrite !q_set. repeat case_decide; congruence.
  - assert (loc !! f = Some (Queued (LCond c))) as Hf by (by eapply loc_queued).
    destruct (ai_code Hi _ _ Hf) as (d & Hd & m & k & -> & Hu).
    pose proof (ainv_wake a loc (LCond c) f xs _ Hi ltac:(discriminate) Hq Hd (run_user _ _ _ _ _ _ Hu)) as Hi1.
    destruct (IH _ _ Hi1) as (loc' & Hi' & Hh').
    + apply (at_hand_insert a); [done|by eapply hand_ne|done].
    + cbn. rewrite decide_False by done. by rewrite decide_True by done.
    + exists loc'. split; [|done]. eapply ainv_proper; [|reflexivity|exact Hi'].
      split; try done. intros n. cbn. repeat case_decide; try done. by rewrite <- app_assoc.
Qed.

(** ** Steps of the event loop *)

Lemma waiting_elem a loc e : ainv a loc -> e ∈ q a LFds -> exists f k el, e = frame f /\
  loc !! f = Some Waiting /\ codes a !! f = Some (IoDone e k) /\ (forall r, user (k r)) /\
  elems a !! e = Some el /\ yieldback el = f /\ 0 <= e_fd el < 1024.
Proof.
  intros Hi He. apply (ai_waiting Hi) in He as (f & -> & Hf).
  destruct (ai_code Hi _ _ Hf) as (c & Hc & k & el & -> & Hk & Hel & Hy & Hfd). by exists f, k, el.
Qed.

Lemma filter_mid (e : Z) pre suf : NoDup (pre ++ e :: suf) -> filter (.≠ e) (pre ++ e :: suf) = pre ++ suf.
Proof.
  intros Hnd. rewrite filter_app, filter_cons, decide_False by naive_solver.
  apply NoDup_app in Hnd as (_ & Hd & Hs). apply NoDup_cons in Hs as [Hs _].
  assert (forall l : list Z, e ∉ l -> filter (.≠ e) l = l) as Hf.
  { intros l Hl. apply filter_all. by intros y Hy ->. }
  rewrite !Hf; [done|done|]. intros He. by apply (Hd e He), list_elem_of_here.
Qed.

Lemma deliver1_keeps r w x a loc e : ainv a loc -> no_hand loc -> e ∈ q a LFds ->
  exists loc', ainv (a_deliver1 r w x a e) loc' /\ no_hand loc' /\
    (forall e', e' ∈ q a LFds -> e' <> e -> e' ∈ q (a_deliver1 r w x a e) LFds).
Proof.
  intros Hi Hn He. destruct (waiting_elem _ _ _ Hi He) as (f & k & el & -> & Hf & Hc & Hk & Hel & Hy & Hfd).
  unfold a_deliver1. rewrite Hel. destruct (ready_in r w x el); [|by exists loc].
  pose proof (ai_nodup Hi LFds) as Hnd. apply list_elem_of_split in He as (pre & suf & Hq).
  rewrite Hq in Hnd. rewrite Hq, filter_mid by done. rewrite Hy.
  exists (<[f := Queued LPend]> loc). split_and!.
  - rewrite <- (insert_insert_eq loc f (Queued LPend) Hand).
    apply (ainv_enter _ _ LPend f (IoDone (frame f) k)); [|done|by rewrite lookup_insert_eq|exact Hc| |by eauto].
    + apply ainv_elem; [by apply ainv_leave_io|by rewrite lookup_insert_eq].
    + eapply run_io_done; [done|]. cbn. by rewrite lookup_insert_eq.
  - intros g. rewrite lookup_insert_Some. intros [[_ ?]|[_ ?%Hn]]; done.
  - intros e' He' Hne. cbn. rewrite decide_False, decide_True by done. set_solver.
Qed.

Lemma deliver_keeps r w x es : forall a loc, ainv a loc -> no_hand loc -> NoDup es ->
  (forall e, e ∈ es -> e ∈ q a LFds) ->
  exists loc', ainv (a_deliver r w x es a) loc' /\ no_hand loc'.
Proof.
  induction es as [|e es IH]; intros a loc Hi Hn Hnd Hes; [by exists loc|].
  apply NoDup_cons in Hnd as [Hnin Hnd].
  destruct (deliver1_keeps r w x a loc e Hi Hn (Hes e (list_elem_of_here _ _))) as (loc1 & Hi1 & Hn1 & Hq1).
  apply (IH _ _ Hi1 Hn1 Hnd). intros e' He'. apply Hq1; [apply Hes; by right|]. by intros ->.
Qed.

Lemma ready_good r w x a loc : ainv a loc -> no_hand loc -> cur a = efiber -> good (a_ready r w x a).
Proof.
  intros Hi Hn Hc. unfold a_ready. case_match.
  { exists loc. split; [by apply ainv_transfer|by apply executing_yield]. }
  case_match; [|exists loc; split; [done|by apply executing_loop]].
  destruct (deliver_keeps r w x (q a LFds) a loc) as (loc' & Hi' & Hn'); [done|done|apply Hi|done|].
  exists loc'. split; [by apply ainv_transfer|by apply executing_yield].
Qed.

(** ** All steps *)

Lemma executing_cases a loc : ainv a loc -> executing a loc -> cur a <> sfiber ->
  (cur a = efiber /\ no_hand loc) \/
  (at_hand a loc /\ exists c, codes a !! cur a = Some c /\ runnable a (cur a) c /\
     (is_Some (elems a !! frame (cur a)) -> exists k, c = IoDone (frame (cur a)) k)).
Proof.
  intros Hi [Hc He] Hs. destruct Hc as [Hc|[Hc|Hc]]; [done|left|right].
  - split; [done|]. intros f Hf. destruct (He f Hf) as [-> _].
    by destruct (loc_fiber _ _ _ _ Hi Hf) as (_ & _ & ? & _).
  - split; [|by apply He]. intros f. split; [by intros [? _]%He|by intros ->].
Qed.

Lemma loop_good a loc b : ainv a loc -> no_hand loc -> cur a = efiber ->
  (exists c, codes a !! cur a = Some c /\ calls a c b) -> good b.
Proof.
  intros Hi Hn Hc (c & Hcode & Hcall).
  assert (forall l, c = LoopStart l \/ c = LoopSelect l -> l = loop) as Hl.
  { intros l Hor. rewrite Hc in Hcode. destruct (ai_loop Hi) as [E|E], Hor; congruence. }
  assert (forall c', c' = LoopStart loop \/ c' = LoopSelect loop -> ainv (set_code (cur a) c' a) loc) as Hset.
  { intros c' Hc'. rewrite Hc. by apply ainv_loop_code. }
  assert (c = LoopStart loop \/ c = LoopSelect loop) as Hor.
  { rewrite Hc in Hcode. destruct (ai_loop Hi) as [E|E]; [left|right]; congruence. }
  destruct Hcall; destruct Hor as [[= ->]|[= ->]].
  - exists loc. split; [by apply Hset; right|by apply executing_loop].
  - exists loc. split; [by apply ainv_transfer, Hset; right|by apply executing_yield].
  - exists loc. split; [by apply Hset; left|by apply executing_loop].
  - eapply ready_good; [by apply Hset; left|done|done].
Qed.

Lemma ainv_hand_code a loc c : ainv a loc -> at_hand a loc -> ainv (set_code (cur a) c a) loc.
Proof. intros Hi Hh. by apply ainv_code, at_hand_cur. Qed.

Lemma codes_hand a c : codes (set_code (cur a) c a) !! cur (set_code (cur a) c a) = Some c.
Proof. cbn. by rewrite lookup_insert_eq. Qed.

Lemma release_fields m a : cur (a_release m a) = cur a /\ codes (a_release m a) = codes a /\
  elems (a_release m a) = elems a /\ fibers (a_release m a) = fibers a /\ conds (a_release m a) = conds a /\
  aio (a_release m a) = aio a /\ locals (a_release m a) = locals a.
Proof. unfold a_release. by destruct (q a (LMutex m)). Qed.

(** Every call of client code, while it is the executing fiber's turn. *)
Lemma user_good a loc c b : ainv a loc -> at_hand a loc -> codes a !! cur a = Some c -> user c ->
  elems a !! frame (cur a) = None -> calls a c b -> good b.
Proof.
  intros Hi Hh Hc Hu He Hcall.
  pose proof (fun c' => ainv_hand_code a loc c' Hi Hh) as Hset.
  destruct Hcall; [apply user_unroll in Hu; by eapply good_go|inversion Hu; subst; clear Hu..].
  - by eapply good_suspend.
  - by eapply good_go.
  - eapply lock_good; [by apply Hset|done|done|done|apply codes_hand|done].
  - destruct (release_keeps _ _ (Hset k) Hh m) as (loc' & Hi' & Hh'); [done..|].
    exists loc'. split; [done|]. destruct (release_fields m (set_code (cur a) k a)) as (E1 & E2 & E3 & _).
    eapply executing_go; [done| |done|]; rewrite E1, ?E2, ?E3; [apply codes_hand|done].
  - unfold a_trylock. case_decide as Ho.
    + apply (good_go (set_own m (cur a) a) loc); [by apply own_keeps|done|by auto|done].
    + by eapply good_go.
  - by eapply good_go.
  - destruct (release_keeps _ _ (Hset (Lock m k)) Hh m) as (loc' & Hi' & Hh'); [done..|].
    destruct (release_fields m (set_code (cur a) (Lock m k) a)) as (E1 & E2 & E3 & _).
    eapply good_suspend; [done|done|done|rewrite E1, E2; apply codes_hand| |by rewrite E1, E3].
    exists m, k. split; [done|]. by constructor.
  - destruct (signal_keeps _ _ (Hset k) Hh c) as (loc' & Hi' & Hh'). exists loc'. split; [done|].
    revert Hh'. unfold a_signal. destruct (q _ _); intros Hh'; (eapply executing_go; [done|apply codes_hand|done|done]).
  - destruct (wake_all_keeps c _ _ _ (ainv_add_local _ _ (cur a) (Hset k)) Hh eq_refl) as (loc' & Hi' & Hh').
    exists loc'. split; [exact Hi'|]. eapply executing_go; [exact Hh'|apply codes_hand|done|done].
  - by eapply good_go.
  - destruct (spawn_keeps _ _ Hi Hh p (ep arg)) as (loc' & Hi' & Hh'); [done..|by auto|].
    eapply (good_go (a_spawn p (ep arg) a)); [done|done|by auto|done].
  - eapply good_suspend; [by apply Hset|done|done|apply codes_hand| |done]. by apply run_user.
  - eapply io_good; [by apply Hset|done|done|lia|apply codes_hand].
Qed.

Lemma fiber_good a loc c b : ainv a loc -> at_hand a loc -> codes a !! cur a = Some c ->
  runnable a (cur a) c -> (is_Some (elems a !! frame (cur a)) -> exists k, c = IoDone (frame (cur a)) k) ->
  calls a c b -> good b.
Proof.
  intros Hi Hh Hc Hr He Hcall. destruct Hr as [c Hu|m k Hm Hk Ho|k el Hk Hel].
  - eapply user_good; [done..| |done]. apply eq_None_not_Some. intros Hs. destruct (He Hs) as [k ->]. inversion Hu.
  - inversion Hcall; subst. eapply good_go; [done|done|done|].
    apply eq_None_not_Some. intros Hs. by destruct (He Hs).
  - inversion Hcall; subst. eapply (good_go (del_elem (frame (cur a)) a)); [|done|done|].
    + by apply ainv_del_elem, at_hand_cur.
    + cbn. by rewrite lookup_delete_eq.
Qed.

Lemma astep_good a b : good a -> astep a b -> good b.
Proof.
  intros (loc & Hi & He) (Hs & c & Hc & Hcall).
  destruct (executing_cases a loc Hi He Hs) as [[Hef Hn]|(Hh & c' & Hc' & Hr & Hel)].
  - eapply loop_good; [done..|by exists c].
  - rewrite Hc' in Hc. injection Hc as <-. by eapply fiber_good.
Qed.

End steps.
