(* ===== verification/RuntimeSched.v ===== *)
(** * Turns of the scheduler, abstractly

    The scheduler's own steps, and the theorems about all runs: runs stay in
    good states, the owner of a mutex changes in one way only, the fibers that
    wait for a mutex get it in the order of their calls, and when the
    scheduler stops every fiber left is blocked. *)

From S2P Require Import Prelude Error Fiber Select Runtime RuntimeStep.

Section sched.
Context (sfiber efiber loop : Z) (frame : Z -> Z) (mutexes conditions : gset Z).
#[local] Notation ainv := (ainv sfiber efiber loop frame mutexes conditions).
#[local] Notation executing := (executing sfiber efiber frame mutexes conditions).
#[local] Notation user := (user mutexes conditions).
#[local] Notation good := (good sfiber efiber loop frame mutexes conditions).
#[local] Notation astep := (astep sfiber frame).

(** ** Steps of the scheduler *)

Definition a_reap (f : Z) (xs : list Z) (a : astate) : astate := del_fiber f (set_q LTerm xs a).
Definition a_batch (a : astate) : astate :=
  set_q LPend [] (set_q (LLocal sfiber) (q a LPend) (add_local sfiber a)).
Definition a_run (f : Z) (xs : list Z) (a : astate) : astate := transfer f (set_q (LLocal sfiber) xs a).

Inductive sstep (a : astate) : astate -> Prop :=
| sstep_reap f xs : cur a = sfiber -> q a LTerm = f :: xs -> sstep a (a_reap f xs a)
| sstep_batch : cur a = sfiber -> q a (LLocal sfiber) = [] -> sstep a (a_batch a)
| sstep_run f xs : cur a = sfiber -> q a (LLocal sfiber) = f :: xs -> sstep a (a_run f xs a)
| sstep_poll : cur a = sfiber -> q a LPend = [] -> aio a <> 0 -> sstep a (transfer efiber a).

Definition rstep (a b : astate) : Prop := astep a b \/ sstep a b.

Context (frame_inj : Inj (=) (=) frame).

Lemma sched_no_hand a loc : ainv a loc -> executing a loc -> cur a = sfiber -> no_hand loc.
Proof.
  intros Hi [_ He] Hc f Hf. destruct (He f Hf) as [-> _].
  by destruct (loc_fiber _ _ _ _ Hi Hf) as (_ & ? & _).
Qed.

Lemma executing_sched a loc : cur a = sfiber -> no_hand loc -> executing a loc.
Proof. intros Hc Hn. split; [by left|]. intros f Hf. by apply Hn in Hf. Qed.

Lemma reap_good a loc f xs : ainv a loc -> no_hand loc -> cur a = sfiber -> q a LTerm = f :: xs ->
  exists loc', ainv (a_reap f xs a) loc' /\ no_hand loc'.
Proof.
  intros Hi Hn Hc Hq. assert (loc !! f = Some (Queued LTerm)) as Hf by (by eapply loc_queued).
  destruct (ai_code Hi _ _ Hf) as (c & Hcode & ->).
  exists (delete f (<[f := Hand]> loc)). split.
  - apply ainv_del; [by apply (ainv_leave a loc LTerm [])|by rewrite lookup_insert_eq|].
    apply eq_None_not_Some. intros He. destruct (elems_code _ _ _ _ _ _ _ a loc f _ Hi Hf ltac:(done) He). congruence.
  - intros g [Hne Hg]%lookup_delete_Some. rewrite lookup_insert_ne in Hg by done. by apply Hn in Hg.
Qed.

Lemma batch_good a loc : ainv a loc -> no_hand loc -> q a (LLocal sfiber) = [] ->
  exists loc', ainv (a_batch a) loc' /\ no_hand loc'.
Proof.
  intros Hi Hn Hq. apply (ainv_add_local _ _ _ _ _ _ _ _ sfiber) in Hi.
  destruct (ainv_batch _ _ Hi Hq) as (loc' & Hi' & Hl). exists loc'. split; [exact Hi'|].
  intros f Hf. destruct (decide (loc !! f = Some (Queued LPend))) as [E|E].
  - apply (ai_queued Hi) in E; [|done]. assert (f ∈ q (a_batch a) (LLocal sfiber)) as Hin.
    { unfold a_batch. rewrite q_set_ne, q_set_eq by done. exact E. }
    apply (ai_queued Hi') in Hin; [|done]. congruence.
  - rewrite Hl in Hf by done. by apply Hn in Hf.
Qed.

Lemma run_good a loc f xs : ainv a loc -> no_hand loc -> q a (LLocal sfiber) = f :: xs ->
  good (a_run f xs a).
Proof.
  intros Hi Hn Hq. assert (loc !! f = Some (Queued (LLocal sfiber))) as Hf by (by eapply loc_queued).
  destruct (ai_code Hi _ _ Hf) as (c & Hcode & Hr & _).
  exists (<[f := Hand]> loc). split; [by apply ainv_transfer, (ainv_leave a loc (LLocal sfiber) [])|].
  split; [right; right; cbn; by rewrite lookup_insert_eq|].
  intros g [[<- _]|[_ Hg]]%lookup_insert_Some; [|by apply Hn in Hg].
  split; [done|]. exists c. split; [done|]. split; [eapply runnable_frame; [exact Hr|by eauto|by eauto]|].
  intros He. destruct (elems_code _ _ _ _ _ _ _ a loc f _ Hi Hf ltac:(done) He) as [k Hk]. exists k. congruence.
Qed.

Lemma sstep_good a b : good a -> sstep a b -> good b.
Proof.
  intros (loc & Hi & He) Hs. assert (cur a = sfiber) as Hc by by destruct Hs.
  pose proof (sched_no_hand _ _ Hi He Hc) as Hn. destruct Hs as [f xs _ Hq|_ Hq|f xs _ Hq|_ _ _].
  - destruct (reap_good a loc f xs) as (loc' & ? & ?); [done..|]. exists loc'. split; [done|by apply executing_sched].
  - destruct (batch_good a loc) as (loc' & ? & ?); [done..|]. exists loc'. split; [done|by apply executing_sched].
  - by eapply run_good.
  - exists loc. split; [by apply ainv_transfer|by apply executing_loop].
Qed.

Lemma rstep_good a b : good a -> rstep a b -> good b.
Proof. intros Hg [Hs|Hs]; [by eapply astep_good|by eapply sstep_good]. Qed.

(** ** Mutexes over runs *)

(** A free mutex is taken by the fiber that executes; an owner that executes
    frees it or hands it to its first waiter, which becomes pending. *)
Definition taken (m : Z) (a b : astate) : Prop :=
  owner a !! m = Some 0 /\ owner b !! m = Some (cur a) /\ q b (LMutex m) = q a (LMutex m).
Definition handed (m : Z) (a b : astate) : Prop :=
  owner a !! m = Some (cur a) /\
  ((q a (LMutex m) = [] /\ q b (LMutex m) = [] /\ owner b !! m = Some 0) \/
   (exists f xs, q a (LMutex m) = f :: xs /\ q b (LMutex m) = xs /\ owner b !! m = Some f /\ f ∈ q b LPend)).

Lemma a_release_handed m a b : owner a !! m = Some (cur a) ->
  owner b = owner (a_release m a) -> q b (LMutex m) = q (a_release m a) (LMutex m) ->
  (forall f, f ∈ q (a_release m a) LPend -> f ∈ q b LPend) -> handed m a b.
Proof.
  intros Ho Hob Hqb Hpb. split; [done|]. unfold a_release in *.
  destruct (q a (LMutex m)) as [|f xs] eqn:Hq.
  - left. rewrite Hob, Hqb. cbn. by rewrite lookup_insert_eq.
  - right. exists f, xs. rewrite Hob, Hqb. split_and!; [done|..].
    + cbn. rewrite decide_False by done. by rewrite decide_True by done.
    + cbn. by rewrite lookup_insert_eq.
    + apply Hpb. cbn. rewrite decide_True by done. set_solver.
Qed.

Lemma a_release_other m m' a : m' <> m ->
  owner (a_release m a) !! m' = owner a !! m' /\ q (a_release m a) (LMutex m') = q a (LMutex m').
Proof.
  intros Hne. unfold a_release. destruct (q a (LMutex m)) as [|f xs].
  - cbn. by rewrite lookup_insert_ne.
  - cbn. rewrite lookup_insert_ne by done. repeat case_decide; try done. congruence.
Qed.

(** What a step does to a mutex. *)
Inductive mutex_change (m : Z) (a b : astate) : Prop :=
| mc_same : owner b !! m = owner a !! m -> q b (LMutex m) = q a (LMutex m) -> mutex_change m a b
| mc_wait : owner b !! m = owner a !! m -> q b (LMutex m) = q a (LMutex m) ++ [cur a] -> mutex_change m a b
| mc_taken : taken m a b -> mutex_change m a b
| mc_handed : handed m a b -> mutex_change m a b.

Lemma deliver_mutex m r w x es : forall a,
  owner (a_deliver r w x es a) = owner a /\ q (a_deliver r w x es a) (LMutex m) = q a (LMutex m).
Proof.
  induction es as [|e es IH]; intros a; [done|]. cbn [a_deliver foldl]. fold (a_deliver r w x es (a_deliver1 r w x a e)).
  destruct (IH (a_deliver1 r w x a e)) as [-> ->]. unfold a_deliver1. repeat case_match; done.
Qed.

Lemma astep_mutex m a b : astep a b -> mutex_change m a b.
Proof.
  intros (_ & c & _ & Hcall). destruct Hcall; try by apply mc_same.
  - unfold a_lock. cbn [owner set_code]. destruct (owner a !! m0) as [o|] eqn:Ho; [|by apply mc_same].
    destruct (decide (m0 = m)) as [->|Hne].
    + repeat case_decide; subst; [|by apply mc_same|].
      * apply mc_taken. unfold taken. cbn. by rewrite lookup_insert_eq.
      * apply mc_wait; [done|]. cbn. by rewrite decide_True.
    + repeat case_decide; apply mc_same; try done; cbn.
      * by rewrite lookup_insert_ne.
      * rewrite decide_False; [done|congruence].
  - destruct (decide (m0 = m)) as [->|Hne].
    + apply mc_handed. by apply (a_release_handed m (set_code (cur a) k a)).
    + destruct (a_release_other m0 m (set_code (cur a) k a)) as [H1 H2]; [done|]. by apply mc_same.
  - unfold a_trylock. case_decide as Ho; [|by apply mc_same]. destruct (decide (m0 = m)) as [->|Hne].
    + apply mc_taken. unfold taken. cbn. by rewrite lookup_insert_eq.
    + apply mc_same; [|done]. cbn. by rewrite lookup_insert_ne.
  - set (a1 := set_code (cur a) (Lock m0 k) a). destruct (decide (m0 = m)) as [->|Hne].
    + apply mc_handed. by apply (a_release_handed m a1).
    + destruct (a_release_other m0 m a1) as [H1 H2]; [done|]. apply mc_same; [exact H1|].
      change (q a (LMutex m)) with (q a1 (LMutex m)). by rewrite <- H2.
  - unfold a_signal. case_match; by apply mc_same.
  - unfold a_ready. repeat case_match; [by apply mc_same| |by apply mc_same].
    apply mc_same; cbn [transfer owner q]; by rewrite ?(proj1 (deliver_mutex m _ _ _ _ _)), ?(proj2 (deliver_mutex m _ _ _ _ _)).
Qed.

Lemma sstep_mutex m a b : sstep a b -> owner b !! m = owner a !! m /\ q b (LMutex m) = q a (LMutex m).
Proof. by destruct 1. Qed.

Lemma rstep_mutex m a b : rstep a b -> mutex_change m a b.
Proof. intros [H|H]; [by apply astep_mutex|]. apply mc_same; by apply sstep_mutex. Qed.

(** The waiters of a mutex get it in order: nobody passes [f]. *)
Definition got (m f : Z) (a b : astate) : Prop :=
  exists c, rtc rstep a c /\ rtc rstep c b /\ owner c !! m = Some f /\ f ∈ q c LPend.

Lemma mutex_fifo m f a b : rtc rstep a b -> forall pre suf, q a (LMutex m) = pre ++ f :: suf ->
  (exists pre' suf', q b (LMutex m) = pre' ++ f :: suf' /\ pre' `suffix_of` pre /\ suf `prefix_of` suf') \/
  got m f a b.
Proof.
  induction 1 as [a|a a' b Hs Hr IH]; intros pre suf Hq; [left; by exists pre, suf|].
  assert ((exists pre' suf', q a' (LMutex m) = pre' ++ f :: suf' /\ pre' `suffix_of` pre /\ suf `prefix_of` suf') \/
    (owner a' !! m = Some f /\ f ∈ q a' LPend)) as [(pre1 & suf1 & Hq1 & Hp1 & Hs1)|[Ho Hp]].
  { destruct (rstep_mutex m a a' Hs) as [_ E|_ E|(_ & _ & E)|(_ & [(E & _)|(g & xs & E & E' & Ho & Hp)])].
    - left. exists pre, suf. by rewrite E.
    - left. exists pre, (suf ++ [cur a]). rewrite E, Hq, <- app_assoc. split_and!; [done..|by exists [cur a]].
    - left. exists pre, suf. by rewrite E.
    - rewrite Hq in E. by destruct pre.
    - rewrite Hq in E. destruct pre as [|p pre]; injection E as -> <-; [by right|left].
      exists pre, suf. split_and!; [done|by exists [g]|done]. }
  - destruct (IH _ _ Hq1) as [(pre2 & suf2 & ? & ? & ?)|(c & ? & ? & ? & ?)]; [left|right].
    + exists pre2, suf2. split_and!; [done|by etrans|by etrans].
    + exists c. split_and!; [by eapply rtc_l|done..].
  - right. exists a'. split_and!; [by eapply rtc_once|done..].
Qed.

(** When nothing is pending, terminated or waiting for I/O, the fibers that
    are left are all blocked. *)
Lemma idle_blocked a : good a -> cur a = sfiber -> q a LPend = [] -> q a LTerm = [] ->
  q a (LLocal sfiber) = [] -> aio a = 0 ->
  forall f, f ∈ fibers a -> f = sfiber \/ f = efiber \/
    (exists m o, f ∈ q a (LMutex m) /\ owner a !! m = Some o /\ o <> 0 /\ o <> f) \/
    (exists c, f ∈ q a (LCond c)).
Proof.
  intros (loc & Hi & He) Hc Hp Ht Hl Ha f Hf. pose proof (sched_no_hand _ _ Hi He Hc) as Hn.
  destruct (loc_cases _ _ f Hi Hf) as [?|[?|[p Hloc]]]; [auto|auto|]. right. right.
  assert (q a LFds = []) as Hfd.
  { rewrite (ai_aio Hi) in Ha. destruct (q a LFds); [done|cbn in Ha; lia]. }
  destruct p as [|n|]; [by apply Hn in Hloc| |].
  - destruct (ai_code Hi _ _ Hloc) as (d & Hd & Hfit).
    assert (n <> LFds) as Hnf by by intros ->. apply (ai_queued Hi) in Hloc; [|done].
    destruct n as [| | |g|m|c']; try done.
    + rewrite Hp in Hloc. by apply not_elem_of_nil in Hloc.
    + rewrite Ht in Hloc. by apply not_elem_of_nil in Hloc.
    + destruct Hfit as [_ ->]. rewrite Hl in Hloc. by apply not_elem_of_nil in Hloc.
    + left. destruct Hfit as (k & o & _ & _ & _ & ? & ? & ?). by exists m, o.
    + right. by exists c'.
  - assert (frame f ∈ q a LFds) as Hin by (apply (ai_waiting Hi); by exists f).
    rewrite Hfd in Hin. by apply not_elem_of_nil in Hin.
Qed.

(** ** An iteration of the scheduler *)

(** Every terminated fiber is released. *)
Inductive reaps : list Z -> astate -> astate -> Prop :=
| reaps_nil a : q a LTerm = [] -> reaps [] a a
| reaps_cons f fs a b : q a LTerm = f :: fs -> reaps fs (a_reap f fs a) b -> reaps (f :: fs) a b.

(** The fibers of the local list have their turns, in order. *)
Inductive turns : list Z -> astate -> astate -> Prop :=
| turns_nil a : q a (LLocal sfiber) = [] -> turns [] a a
| turns_cons f fs a b c : q a (LLocal sfiber) = f :: fs -> rtc astep (a_run f fs a) b ->
    cur b = sfiber -> turns fs b c -> turns (f :: fs) a c.

(** The event loop has a turn if there is nothing else to do. *)
Definition poll (a b : astate) : Prop :=
  if bool_decide (q a LPend = []) && negb (aio a =? 0)
  then rtc astep (transfer efiber a) b /\ cur b = sfiber
  else b = a.

Definition iteration (a b : astate) : Prop :=
  exists a1 a2, reaps (q a LTerm) a a1 /\ turns (q a1 LPend) (a_batch a1) a2 /\ poll a2 b.

Lemma astep_rtc a b : rtc astep a b -> rtc rstep a b.
Proof. apply rtc_subrel. intros x y Hs. by left. Qed.

Lemma reaps_rtc fs a b : reaps fs a b -> cur a = sfiber -> rtc rstep a b.
Proof.
  induction 1 as [a|f fs a b Hq Hr IH]; intros Hc; [done|].
  eapply rtc_l; [|by apply IH]. right. by apply sstep_reap.
Qed.

Lemma turns_rtc fs a b : turns fs a b -> cur a = sfiber -> rtc rstep a b.
Proof.
  induction 1 as [a|f fs a b c Hq Hr Hb Ht IH]; intros Hc; [done|].
  eapply rtc_l; [right; by apply sstep_run|]. etrans; [by apply astep_rtc|by apply IH].
Qed.

Lemma poll_rtc a b : poll a b -> cur a = sfiber -> rtc rstep a b.
Proof.
  unfold poll. destruct (_ && _) eqn:E; [|by intros ->]. intros [Hr _] Hc.
  apply andb_true_iff in E as [E1%bool_decide_eq_true E2%negb_true_iff%Z.eqb_neq].
  eapply rtc_l; [right; by apply sstep_poll|]. by apply astep_rtc.
Qed.

Lemma reaps_cur fs a b : reaps fs a b -> cur b = cur a /\ q b (LLocal sfiber) = q a (LLocal sfiber).
Proof. induction 1 as [|f fs a b _ _ IH]; [done|]. destruct IH as [-> ->]. done. Qed.

Lemma turns_cur fs a b : turns fs a b -> cur a = sfiber -> cur b = sfiber.
Proof. induction 1 as [|f fs a b c _ _ Hb _ IH]; [done|]. intros _. by apply IH. Qed.

Lemma iteration_rtc a b : cur a = sfiber -> q a (LLocal sfiber) = [] -> iteration a b -> rtc rstep a b.
Proof.
  intros Hc Hl (a1 & a2 & Hre & Htu & Hpo). destruct (reaps_cur _ _ _ Hre) as [Hc1 Hl1].
  etrans; [by eapply reaps_rtc|]. eapply rtc_l; [right; apply sstep_batch; congruence|].
  assert (cur (a_batch a1) = sfiber) as Hcb by (cbn; congruence).
  etrans; [by eapply turns_rtc|]. eapply poll_rtc; [done|]. by eapply turns_cur.
Qed.

(** A fiber's step leaves the local lists alone. *)
Lemma deliver_local f r w x es : forall a, q (a_deliver r w x es a) (LLocal f) = q a (LLocal f) /\
  locals (a_deliver r w x es a) = locals a.
Proof.
  induction es as [|e es IH]; intros a; [done|]. cbn [a_deliver foldl]. fold (a_deliver r w x es (a_deliver1 r w x a e)).
  destruct (IH (a_deliver1 r w x a e)) as [-> ->]. unfold a_deliver1. by repeat case_match.
Qed.

Lemma astep_local f a b : astep a b -> q b (LLocal f) = q a (LLocal f) /\ locals a ⊆ locals b.
Proof.
  intros (_ & c & _ & Hcall). destruct Hcall; try (cbn; split; [done|set_solver]).
  - unfold a_lock. repeat case_match; by split.
  - unfold a_release. case_match; by split.
  - unfold a_trylock. case_match; by split.
  - unfold a_release. case_match; by split.
  - unfold a_signal. case_match; by split.
  - unfold a_ready. repeat case_match; [by split| |by split]. cbn [transfer q locals].
    rewrite (proj1 (deliver_local f r w x _ _)), (proj2 (deliver_local f r w x _ _)). by split.
Qed.

Lemma astep_locals f a b : rtc astep a b -> q b (LLocal f) = q a (LLocal f) /\ locals a ⊆ locals b.
Proof.
  induction 1 as [a|a b c Hs _ [IH1 IH2]]; [done|]. destruct (astep_local f a b Hs) as [E1 E2].
  split; [congruence|set_solver].
Qed.

End sched.
