(* ===== verification/RuntimeSim.v ===== *)
(** * The runtime's memory represents the abstract state

    [krep k a]: memory [k] holds the abstract state [a].  The lemmas below
    give, for each access the operations are made of, the abstract state it
    leads to. *)

From S2P Require Import Prelude Bytes ListSpec ListSeg Error Misc Fiber Sync Select Scheduler Runtime.

Open Scope Z_scope.

(** Where the objects of a runtime are: the context, the scheduler and the
    event loop with their fibers, the size of a stack, the distance of local
    variables from a fiber object. *)
Record layout := Layout {
  l_dfk_at : Z; l_sched : Z; l_loop_at : Z; l_sfiber : Z; l_efiber : Z;
  l_stack : Z; l_frame : Z; l_guard : Z;
  l_mutexes : gset Z; l_conds : gset Z
}.

Section sim.
Context (ly : layout).
#[local] Notation D := (l_dfk_at ly).
#[local] Notation SCH := (l_sched ly).
#[local] Notation LOOP := (l_loop_at ly).
#[local] Notation SF := (l_sfiber ly).
#[local] Notation EF := (l_efiber ly).
#[local] Notation stack := (l_stack ly).
Definition frame_at (f : Z) : Z := f + l_frame ly.
#[local] Notation frame := frame_at.

#[export] Instance frame_at_inj : Inj (=) (=) frame_at.
Proof. intros x y. unfold frame_at. lia. Qed.

Definition laddr (n : lname) : Z :=
  match n with
  | LPend => s_pending SCH
  | LTerm => s_terminated SCH
  | LFds => l_fds LOOP
  | LLocal f => frame f
  | LMutex m => m_waitqueue m
  | LCond c => c_waitqueue c
  end.

(** The lists that exist all the time. *)
Definition static (n : lname) : Prop :=
  match n with
  | LPend | LTerm | LFds => True
  | LLocal _ => False
  | LMutex m => m ∈ l_mutexes ly
  | LCond c => c ∈ l_conds ly
  end.

Record layout_ok : Prop := LayoutOk {
  lo_frame : FIBER_T <= l_frame ly < stack;
  lo_guard : 0 <= l_guard ly;
  lo_stack : FIBER_T + l_guard ly + STACK_ALIGNMENT <= stack <= USER_END;
  lo_ne : 0 < D /\ 0 < SCH /\ 0 < LOOP;
  lo_objects : 0 ∉ l_mutexes ly /\ 0 ∉ l_conds ly;
  lo_apart : forall n n', static n -> static n' -> laddr n = laddr n' -> n = n';
  lo_local : forall n, static n -> laddr n <> frame SF;
  lo_zero : forall n, static n -> laddr n <> 0
}.

Context `{Mem : Type, It : Type, !ListOps Mem It, !ListLaws Mem It}.
Context (Hly : layout_ok).
Implicit Types k : kmem Mem.

(** The hook of a member of list [n]. *)
Definition hk (n : lname) (x : Z) : Z := match n with LFds => x | _ => f_hook x end.

#[export] Instance hk_inj n : Inj (=) (=) (hk n).
Proof. intros x y. destruct n; cbn; unfold f_hook; lia. Qed.

Definition in_block (f p : Z) : Prop := f <= p < f + stack.

(** A fiber is in no list. *)
Definition unqueued (a : astate) (f : Z) : Prop := forall n, n <> LFds -> f ∉ q a n.

(** What the list memory holds. *)
Record lists_ok (a : astate) (σ : lspec) : Prop := ListsOk {
  lk_static : forall n, static n -> chains σ !! laddr n = Some (hk n <$> q a n);
  lk_local : forall f, f ∈ fibers a -> default [] (chains σ !! frame f) = f_hook <$> q a (LLocal f);
  lk_init : forall f, f ∈ locals a -> is_Some (chains σ !! frame f);
  lk_only : forall l xs, chains σ !! l = Some xs ->
    (exists n, static n /\ l = laddr n) \/ (exists f, f ∈ fibers a /\ l = frame f) \/ xs = [];
  lk_spare : forall f, f ∈ fibers a -> unqueued a f -> f_hook f ∈ spare σ;
  lk_elems : forall e el, elems a !! e = Some el -> e ∉ q a LFds -> e ∈ spare σ
}.

Record krep (k : kmem Mem) (a : astate) : Prop := KRep {
  kr_at : k_at k = cur a;
  kr_dfk : exists d, k_dfks k !! D = Some d /\ _scheduler d = SCH /\ _eventloop d = LOOP /\
    default_stack_size d = stack;
  kr_sched : exists s, k_scheds k !! SCH = Some s /\ s_fiber s = SF /\ s_eventloop s = EF /\
    iowait s = aio a /\ (cur a <> SF -> s_current s = cur a);
  kr_loop : k_loops k !! LOOP = Some (LoopObj D);
  kr_mutexes : forall m, k_mutexes k !! m = MutexObj D <$> owner a !! m;
  kr_conds : forall c, c ∈ conds a -> k_conds k !! c = Some (CondObj D);
  kr_ctx : k_ctx k = codes a;
  kr_fds : k_fds k = elems a;
  kr_fibers : forall f, f ∈ fibers a <-> is_Some (k_fibers k !! f);
  kr_fiber_dfk : forall f fo, k_fibers k !! f = Some fo -> f_dfk fo = D;
  kr_blocks : forall f, f ∈ fibers a -> 0 < f /\ aligned f = true /\ f + stack <= USER_END /\
    blocks (k_bytes k) !! f = Some stack /\ room_at (k_bytes k) f stack;
  kr_apart : forall f g, f ∈ fibers a -> g ∈ fibers a -> f <> g -> f + stack <= g \/ g + stack <= f;
  kr_statics : forall n, static n -> is_Some (cells (k_bytes k) !! laddr n) /\
    forall f, f ∈ fibers a -> f <> SF -> ~ in_block f (laddr n);
  kr_members : forall n f, n <> LFds -> f ∈ q a n -> f ∈ fibers a;
  kr_fd_members : forall e, e ∈ q a LFds -> exists f, f ∈ fibers a /\ e = frame f;
  kr_elems : forall e el, elems a !! e = Some el -> exists f, f ∈ fibers a /\ e = frame f;
  kr_lists : exists σ, lrep (k_lists k) σ /\ lists_ok a σ
}.

(** ** Addresses *)

Lemma fiber_pos k a f : krep k a -> f ∈ fibers a -> 0 < f.
Proof. intros Hk Hf. apply (kr_blocks _ _ Hk f Hf). Qed.

Lemma fiber_obj k a f : krep k a -> f ∈ fibers a -> exists fo, k_fibers k !! f = Some fo /\ f_dfk fo = D.
Proof.
  intros Hk Hf. apply (kr_fibers _ _ Hk) in Hf as [fo Hfo]. exists fo. split; [done|].
  by eapply (kr_fiber_dfk _ _ Hk).
Qed.

Lemma frame_in f : in_block f (frame f).
Proof using Hly. unfold in_block, frame_at. pose proof (lo_frame Hly). unfold FIBER_T in *. lia. Qed.

(** The list names that are in use. *)
Definition live (a : astate) (n : lname) : Prop :=
  match n with LLocal f => f ∈ fibers a /\ f ∈ locals a | _ => static n end.
Definition named (a : astate) (n : lname) : Prop :=
  match n with LLocal f => f ∈ fibers a | _ => static n end.

Lemma live_named a n : live a n -> named a n.
Proof. destruct n; cbn; tauto. Qed.

Lemma laddr_inj k a n n' : krep k a -> named a n -> named a n' -> laddr n = laddr n' -> n = n'.
Proof using Hly.
  intros Hk Hn Hn' Heq.
  assert (forall f m, f ∈ fibers a -> static m -> laddr m = frame f -> False) as Hno.
  { intros f m Hf Hm E. destruct (decide (f = SF)) as [->|Hne]; [by apply (lo_local Hly m)|].
    destruct (kr_statics _ _ Hk m Hm) as [_ Hs]. apply (Hs f Hf Hne). rewrite E. apply frame_in. }
  destruct n as [| | |f|m|c], n' as [| | |g|m'|c']; try by apply (lo_apart Hly).
  all: try (exfalso; eapply Hno; [| |symmetry; exact Heq]; [exact Hn|exact Hn']).
  all: try (exfalso; eapply Hno; [| |exact Heq]; [exact Hn'|exact Hn]).
  cbn in Heq. by apply frame_at_inj in Heq as ->.
Qed.

(** The hook of a fiber is not the element of another, or of itself. *)
Lemma hook_frame k a f g : krep k a -> f ∈ fibers a -> g ∈ fibers a -> f_hook f <> frame g.
Proof using Hly.
  intros Hk Hf Hg E. pose proof (frame_in g) as Hin. rewrite <- E in Hin. unfold in_block, f_hook in Hin.
  pose proof (lo_frame Hly). pose proof (lo_stack Hly). pose proof (lo_guard Hly). unfold FIBER_T, STACK_ALIGNMENT in *.
  destruct (decide (f = g)) as [->|Hne].
  - unfold f_hook, frame_at in E. lia.
  - pose proof (kr_apart _ _ Hk f g Hf Hg Hne). lia.
Qed.

(** ** Frames: the parts of memory an access does not touch *)

Lemma krep_lists k a n ys l σ : krep k a -> named a n -> (n = LFds \/ forall f, f ∈ ys -> f ∈ fibers a) ->
  (n = LFds -> forall e, e ∈ ys -> exists f, f ∈ fibers a /\ e = frame f) ->
  lists_ok a σ -> forall F, lrep l (rechain (laddr n) (hk n <$> ys) F σ) ->
  (forall f, f ∈ fibers a -> unqueued (set_q n ys a) f -> f_hook f ∈ F) ->
  (forall e el, elems a !! e = Some el -> e ∉ q (set_q n ys a) LFds -> e ∈ F) ->
  krep (lset klists l k) (set_q n ys a).
Proof using Hly.
  intros Hk Hn Hys Hfd Hσ F Hl HF1 HF2.
  split; try apply Hk.
  - intros n' f Hn' Hf. destruct (decide (n' = n)) as [->|Hne].
    + rewrite q_set_eq in Hf. destruct Hys as [?|Hys]; [done|by apply Hys].
    + rewrite q_set_ne in Hf by done. by eapply (kr_members _ _ Hk).
  - intros e He. destruct (decide (n = LFds)) as [->|Hne].
    + rewrite q_set_eq in He. by apply Hfd.
    + rewrite q_set_ne in He by congruence. by apply (kr_fd_members _ _ Hk).
  - exists (rechain (laddr n) (hk n <$> ys) F σ). split; [exact Hl|]. split; cbn [rechain chains spare].
    + intros n' Hs'. destruct (decide (n' = n)) as [->|Hne].
      * by rewrite lookup_insert_eq, q_set_eq.
      * rewrite lookup_insert_ne, q_set_ne; [by apply Hσ|done|].
        intros E. apply Hne. symmetry. eapply (laddr_inj k a); [done|done| |exact E]. by destruct n'.
    + intros f Hf. destruct (decide (n = LLocal f)) as [->|Hne].
      * change (frame f) with (laddr (LLocal f)). by rewrite lookup_insert_eq, q_set_eq.
      * rewrite lookup_insert_ne, q_set_ne; [by apply Hσ|congruence|].
        intros E. apply Hne. by eapply (laddr_inj k a); [done|done|exact Hf|exact E].
    + intros f Hf. rewrite lookup_insert_is_Some. destruct (decide (laddr n = frame f)); [by left|right].
      split; [done|]. by apply (lk_init _ _ Hσ).
    + intros l' xs. rewrite lookup_insert_Some. intros [[<- _]|[_ Hx]]; [|by eapply (lk_only _ _ Hσ)].
      destruct n as [| | |f|m|c]; [left; by exists LPend|left; by exists LTerm|left; by exists LFds| |
        left; by exists (LMutex m)|left; by exists (LCond c)].
      right. left. by exists f.
    + done.
    + done.
Qed.

(** ** Accesses to the lists *)

Lemma live_chain k a n σ : krep k a -> live a n -> lists_ok a σ ->
  chains σ !! laddr n = Some (hk n <$> q a n).
Proof.
  intros Hk Hn Hσ. destruct n as [| | |f|m|c]; try by apply (lk_static _ _ Hσ).
  destruct Hn as [Hf Hi]. destruct (lk_init _ _ Hσ f Hi) as [xs Hx].
  pose proof (lk_local _ _ Hσ f Hf) as Hl. rewrite Hx in Hl. cbn in Hl |- *. by rewrite Hx, Hl.
Qed.

Lemma set_lists_same k : lset klists (k_lists k) k = k.
Proof. by destruct k. Qed.

(** A read of a list. *)
Lemma wp_lists_read {A} k (c : M Mem A) (P : A -> Prop) (Q : A -> kmem Mem -> Prop) :
  wp c (k_lists k) (fun r l => P r /\ l = k_lists k) -> (forall r, P r -> Q r k) ->
  wp (zoom klists c) k Q.
Proof.
  intros Hc HQ. apply wp_zoom. eapply wp_mono; [exact Hc|]. intros r l [Hr ->].
  rewrite set_lists_same. auto.
Qed.

Lemma krep_empty k a n (Q : bool -> kmem Mem -> Prop) : krep k a -> live a n ->
  Q (bool_decide (q a n = [])) k -> wp (zoom klists (list_empty (laddr n))) k Q.
Proof.
  intros Hk Hn HQ. destruct (kr_lists _ _ Hk) as (σ & Hl & Hσ).
  eapply wp_lists_read; [by eapply law_empty, live_chain|]. intros r ->.
  destruct (q a n); [by rewrite bool_decide_eq_true_2 in HQ |- *|].
  by rewrite bool_decide_eq_false_2 in HQ |- *.
Qed.

Lemma krep_front k a n (Q : Z -> kmem Mem -> Prop) f xs : krep k a -> live a n ->
  q a n = f :: xs -> Q (hk n f) k -> wp (zoom klists (list_front (laddr n))) k Q.
Proof.
  intros Hk Hn Hq HQ. destruct (kr_lists _ _ Hk) as (σ & Hl & Hσ).
  eapply wp_lists_read; [by eapply law_front, live_chain|]. intros r ->. by rewrite Hq.
Qed.

Lemma to_fiber_hook f : to_fiber (f_hook f) = f.
Proof. unfold to_fiber, f_hook. lia. Qed.

Lemma krep_append k a n f (Q : unit -> kmem Mem -> Prop) : krep k a -> static n -> n <> LFds ->
  f ∈ fibers a -> unqueued a f -> (forall l, krep (lset klists l k) (push n f a) -> Q tt (lset klists l k)) ->
  wp (zoom klists (list_append (laddr n) (f_hook f))) k Q.
Proof using Hly.
  intros Hk Hn Hfd Hf Hu HQ. destruct (kr_lists _ _ Hk) as (σ & Hl & Hσ).
  assert (live a n) as Hlive by (destruct n; done).
  apply wp_zoom. eapply wp_mono.
  { eapply law_append; [exact Hl|by eapply live_chain|]. by apply (lk_spare _ _ Hσ). }
  intros [] l Hl'. apply HQ. unfold push.
  assert (hk n f = f_hook f) as Hhk by by destruct n.
  eapply krep_lists; [done|by apply live_named| | |exact Hσ| | |].
  - right. intros g [Hg| ->%list_elem_of_singleton]%elem_of_app; [by eapply (kr_members _ _ Hk)|done].
  - done.
  - rewrite fmap_app. cbn. rewrite Hhk. exact Hl'.
  - intros g Hg Hug. unfold occupy. apply elem_of_difference. split.
    + apply (lk_spare _ _ Hσ); [done|]. intros n' Hn'. specialize (Hug n' Hn'). rewrite q_set in Hug.
      case_decide; [subst; set_solver|done].
    + intros E%elem_of_singleton. unfold f_hook in E. assert (g = f) as -> by lia.
      apply (Hug n Hfd). rewrite q_set_eq. set_solver.
  - intros e el He Hne. rewrite q_set_ne in Hne by done. unfold occupy. apply elem_of_difference.
    split; [by eapply (lk_elems _ _ Hσ)|]. intros ->%elem_of_singleton.
    destruct (kr_elems _ _ Hk _ _ He) as (g & Hg & E). by eapply (hook_frame k a f g).
Qed.

Lemma krep_pop k a n f xs (Q : unit -> kmem Mem -> Prop) : krep k a -> live a n -> n <> LFds ->
  q a n = f :: xs -> (forall l, krep (lset klists l k) (set_q n xs a) -> Q tt (lset klists l k)) ->
  wp (zoom klists (list_pop_front (laddr n))) k Q.
Proof using Hly.
  intros Hk Hn Hfd Hq HQ. destruct (kr_lists _ _ Hk) as (σ & Hl & Hσ).
  assert (hk n f = f_hook f) as Hhk by by destruct n.
  pose proof (live_chain _ _ _ _ Hk Hn Hσ) as Hch. rewrite Hq in Hch.
  apply wp_zoom. eapply wp_mono; [by eapply law_pop_front|].
  intros [] l Hl'. apply HQ. eapply krep_lists; [done|by apply live_named| | |exact Hσ|exact Hl'| |].
  - right. intros g Hg. eapply (kr_members _ _ Hk n); [done|]. rewrite Hq. set_solver.
  - done.
  - intros g Hg Hug. unfold release. apply elem_of_union. destruct (decide (g = f)) as [->|Hne].
    + right. rewrite Hhk. set_solver.
    + left. apply (lk_spare _ _ Hσ); [done|]. intros n' Hn'. specialize (Hug n' Hn').
      rewrite q_set in Hug. case_decide; [subst; rewrite Hq; set_solver|done].
  - intros e el He Hne. rewrite q_set_ne in Hne by done. unfold release. apply elem_of_union. left.
    by eapply (lk_elems _ _ Hσ).
Qed.

(** The element of [f] is appended to the list of the event loop. *)
Lemma krep_append_fd k a f el (Q : unit -> kmem Mem -> Prop) : krep k a -> f ∈ fibers a ->
  elems a !! frame f = Some el -> frame f ∉ q a LFds ->
  (forall l, krep (lset klists l k) (push LFds (frame f) a) -> Q tt (lset klists l k)) ->
  wp (zoom klists (list_append (l_fds LOOP) (frame f))) k Q.
Proof using Hly.
  intros Hk Hf Hel Hu HQ. destruct (kr_lists _ _ Hk) as (σ & Hl & Hσ).
  apply wp_zoom. eapply wp_mono.
  { eapply law_append; [exact Hl|by apply (lk_static _ _ Hσ LFds)|]. by eapply (lk_elems _ _ Hσ). }
  intros [] l Hl'. apply HQ. unfold push.
  eapply (krep_lists k a LFds); [done|done|by left| |exact Hσ| | |].
  - intros _ e [He| ->%list_elem_of_singleton]%elem_of_app; [by apply (kr_fd_members _ _ Hk)|by exists f].
  - rewrite fmap_app. exact Hl'.
  - intros g Hg Hug. unfold occupy. apply elem_of_difference. split.
    + apply (lk_spare _ _ Hσ); [done|]. intros n' Hn'. specialize (Hug n' Hn'). by rewrite q_set_ne in Hug.
    + intros E%elem_of_singleton. by eapply (hook_frame k a g f).
  - intros e el' He Hne. rewrite q_set_eq in Hne. unfold occupy. apply elem_of_difference.
    split; [eapply (lk_elems _ _ Hσ); [done|set_solver]|set_solver].
Qed.

(** The list of the event loop, by iterators. *)
Lemma krep_begin k a n (Q : It -> kmem Mem -> Prop) : krep k a -> live a n ->
  (forall it, it_at it [] (hk n <$> q a n) -> Q it k) -> wp (zoom klists (list_begin (laddr n))) k Q.
Proof.
  intros Hk Hn HQ. destruct (kr_lists _ _ Hk) as (σ & Hl & Hσ).
  eapply wp_lists_read; [by eapply law_begin, live_chain|]. auto.
Qed.
Lemma krep_end k a n (Q : It -> kmem Mem -> Prop) : krep k a -> live a n ->
  (forall it, it_at it (hk n <$> q a n) [] -> Q it k) -> wp (zoom klists (list_end (laddr n))) k Q.
Proof.
  intros Hk Hn HQ. destruct (kr_lists _ _ Hk) as (σ & Hl & Hσ).
  eapply wp_lists_read; [by eapply law_end, live_chain|]. auto.
Qed.

Section fds.
Context k a (Hk : krep k a).

Lemma krep_fd_next it pre e suf (Q : It -> kmem Mem -> Prop) : q a LFds = pre ++ e :: suf ->
  it_at it pre (e :: suf) -> (forall it', it_at it' (pre ++ [e]) suf -> Q it' k) ->
  wp (zoom klists (list_it_next it)) k Q.
Proof using Hk.
  intros Hq Hit HQ. destruct (kr_lists _ _ Hk) as (σ & Hl & Hσ).
  pose proof (lk_static _ _ Hσ LFds I) as Hc. cbn in Hc. rewrite list_fmap_id, Hq in Hc.
  eapply wp_lists_read; [by eapply law_it_next|]. auto.
Qed.

Lemma krep_fd_equal it1 pre1 suf1 it2 pre2 suf2 (Q : bool -> kmem Mem -> Prop) :
  q a LFds = pre1 ++ suf1 -> q a LFds = pre2 ++ suf2 -> it_at it1 pre1 suf1 -> it_at it2 pre2 suf2 ->
  Q (bool_decide (suf1 = suf2)) k -> wp (zoom klists (list_it_equal it1 it2)) k Q.
Proof using Hk.
  intros H1 H2 Hi1 Hi2 HQ. destruct (kr_lists _ _ Hk) as (σ & Hl & Hσ).
  pose proof (lk_static _ _ Hσ LFds I) as Hc. cbn in Hc. rewrite list_fmap_id in Hc.
  eapply wp_lists_read; [by eapply law_it_equal|]. by intros r ->.
Qed.

Lemma krep_fd_erase it pre e suf (Q : unit -> kmem Mem -> Prop) : q a LFds = pre ++ e :: suf ->
  it_at it pre (e :: suf) ->
  (forall l, krep (lset klists l k) (set_q LFds (pre ++ suf) a) -> Q tt (lset klists l k)) ->
  wp (zoom klists (list_erase (l_fds LOOP) it)) k Q.
Proof using Hk Hly.
  intros Hq Hit HQ. destruct (kr_lists _ _ Hk) as (σ & Hl & Hσ).
  pose proof (lk_static _ _ Hσ LFds I) as Hc. cbn in Hc. rewrite list_fmap_id, Hq in Hc.
  apply wp_zoom. eapply wp_mono; [by eapply law_erase|]. intros [] l Hl'. apply HQ.
  eapply (krep_lists k a LFds); [done|done|by left| |exact Hσ| | |].
  - intros _ e' He'. apply (kr_fd_members _ _ Hk). rewrite Hq. set_solver.
  - cbn [hk]. rewrite list_fmap_id. exact Hl'.
  - intros g Hg Hug. unfold release. apply elem_of_union. left.
    apply (lk_spare _ _ Hσ); [done|]. intros n' Hn'. specialize (Hug n' Hn'). by rewrite q_set_ne in Hug.
  - intros e' el He Hne. rewrite q_set_eq in Hne. unfold release. apply elem_of_union.
    destruct (decide (e' = e)) as [->|Hee]; [right; set_solver|left].
    eapply (lk_elems _ _ Hσ); [done|]. rewrite Hq. set_solver.
Qed.
End fds.

(** Clearing and moving the local list of a fiber. *)
Lemma krep_init_local k a f (Q : unit -> kmem Mem -> Prop) : krep k a -> f ∈ fibers a ->
  q a (LLocal f) = [] ->
  (forall l, krep (lset klists l k) (add_local f a) -> Q tt (lset klists l k)) ->
  wp (zoom klists (list_init (frame f))) k Q.
Proof using Hly.
  intros Hk Hf Hq HQ. destruct (kr_lists _ _ Hk) as (σ & Hl & Hσ). pose proof (fiber_pos _ _ _ Hk Hf).
  assert (forall n, static n -> laddr n <> frame f) as Hne.
  { intros n Hn E. assert (named a n) as Hnn by by destruct n.
    pose proof (laddr_inj k a n (LLocal f) Hk Hnn Hf E) as ->. done. }
  apply wp_zoom. eapply wp_mono.
  { eapply law_init; [exact Hl| |].
    - unfold frame_at. pose proof (lo_frame Hly). unfold FIBER_T in *. lia.
    - by rewrite (lk_local _ _ Hσ f Hf), Hq. }
  intros [] l Hl'. apply HQ. split; try apply Hk.
  eexists. split; [exact Hl'|]. split; cbn [rechain chains spare add_local].
  - intros n Hn. rewrite lookup_insert_ne by (symmetry; auto). by apply (lk_static _ _ Hσ).
  - intros g Hg. destruct (decide (g = f)) as [->|Hgf]; [rewrite lookup_insert_eq; cbn; by rewrite Hq|].
    rewrite lookup_insert_ne by (intros ?%frame_at_inj; congruence). by apply Hσ.
  - intros g Hg. rewrite lookup_insert_is_Some. apply elem_of_union in Hg as [->%elem_of_singleton|Hg]; [by left|].
    destruct (decide (frame f = frame g)); [by left|right]. split; [done|]. by apply Hσ.
  - intros l' xs. rewrite lookup_insert_Some. intros [[<- _]|[_ Hx]]; [|by eapply (lk_only _ _ Hσ)].
    right. left. by exists f.
  - apply Hσ.
  - apply Hσ.
Qed.

(** [dfk_list_move] into an empty local list. *)
Lemma krep_move k a n f (Q : unit -> kmem Mem -> Prop) : krep k a -> static n -> n <> LFds ->
  f ∈ fibers a -> f ∈ locals a -> q a (LLocal f) = [] ->
  (forall l, krep (lset klists l k) (set_q n [] (set_q (LLocal f) (q a n) a)) -> Q tt (lset klists l k)) ->
  wp (zoom klists (list_move (laddr n) (frame f))) k Q.
Proof using Hly.
  intros Hk Hn Hfd Hf Hi Hq HQ. destruct (kr_lists _ _ Hk) as (σ & Hl & Hσ).
  assert (forall n, static n -> laddr n <> frame f) as Hne.
  { intros n' Hn' E. assert (named a n') as Hnn by by destruct n'.
    pose proof (laddr_inj k a n' (LLocal f) Hk Hnn Hf E) as ->. done. }
  pose proof (live_chain k a (LLocal f) σ Hk (conj Hf Hi) Hσ) as Hc. rewrite Hq in Hc.
  assert (hk n <$> q a n = f_hook <$> q a n) as Hhk by by destruct n.
  apply wp_zoom. eapply wp_mono.
  { eapply law_move; [exact Hl|by apply Hne|by apply (lk_static _ _ Hσ)|exact Hc]. }
  intros [] l Hl'. apply HQ. rewrite Hhk in Hl'. cbn in Hl'. rewrite union_empty_r_L in Hl'.
  split; try apply Hk.
  - intros n' g Hn'. rewrite !q_set. repeat case_decide; [by intros ?%not_elem_of_nil| |by eapply (kr_members _ _ Hk)].
    by eapply (kr_members _ _ Hk).
  - intros e. rewrite !q_set. rewrite !decide_False by done. apply Hk.
  - eexists. split; [exact Hl'|]. split; cbn [chains spare set_q fibers locals elems].
    + intros n' Hs'. rewrite !q_set. destruct (decide (n' = n)) as [->|Hnn].
      * rewrite lookup_insert_eq. by destruct n.
      * rewrite lookup_insert_ne.
        2: { intros E. apply Hnn. symmetry. by apply (lo_apart Hly). }
        rewrite lookup_insert_ne by (symmetry; by apply Hne).
        rewrite decide_False by (intros ->; done). by apply (lk_static _ _ Hσ).
    + intros g Hg. rewrite !q_set. rewrite lookup_insert_ne.
      2: { intros E. assert (named a n) as Hnn by by destruct n.
           pose proof (laddr_inj k a n (LLocal g) Hk Hnn Hg E) as ->. done. }
      rewrite (decide_False (P := LLocal g = n)) by (intros <-; done).
      destruct (decide (LLocal g = LLocal f)) as [E|Hgf].
      * injection E as ->. by rewrite lookup_insert_eq.
      * rewrite lookup_insert_ne by (intros ?%frame_at_inj; congruence). by apply Hσ.
    + intros g Hg. rewrite !lookup_insert_is_Some.
      destruct (decide (laddr n = frame g)); [by left|right]. split; [done|].
      destruct (decide (frame f = frame g)); [by left|right]. split; [done|]. by apply Hσ.
    + intros l' xs. rewrite !lookup_insert_Some.
      intros [[<- _]|[_ [[<- _]|[_ Hx]]]]; [left; by exists n|right; left; by exists f|by eapply (lk_only _ _ Hσ)].
    + intros g Hg Hug. apply (lk_spare _ _ Hσ); [done|]. intros n' Hn' Hin.
      destruct (decide (n' = n)) as [->|].
      * apply (Hug (LLocal f)); [done|]. rewrite !q_set, decide_False, decide_True; [done|done|].
        intros <-. done.
      * destruct (decide (n' = LLocal f)) as [->|]; [rewrite Hq in Hin; by apply not_elem_of_nil in Hin|].
        apply (Hug n' Hn'). rewrite !q_set, !decide_False by done. done.
    + intros e el He Hni. apply (lk_elems _ _ Hσ e el He). rewrite !q_set, !decide_False in Hni by done. done.
Qed.

(** The representation does not tell equivalent states apart. *)
#[export] Instance krep_proper : Proper ((=) ==> (≡) ==> iff) krep.
Proof.
  assert (forall k a b, a ≡ b -> krep k a -> krep k b) as H.
  { intros k [q1 ? ? ? ? ? ? ? ?] [q2 ? ? ? ? ? ? ? ?] [E1 E2 E3 E4 E5 E6 E7 E8 E9] Hk. cbn in *. subst.
    split; try apply Hk.
    - intros n f Hn. cbn. rewrite <- E1. by apply (kr_members _ _ Hk).
    - intros e. cbn. rewrite <- E1. apply (kr_fd_members _ _ Hk).
    - destruct (kr_lists _ _ Hk) as (σ & Hl & [H1 H2 H3 H4 H5 H6]). exists σ. split; [done|].
      split; cbn in *; try done.
      + intros n Hn. rewrite <- E1. by apply H1.
      + intros f Hf. rewrite <- E1. by apply H2.
      + intros f Hf Hu. apply H5; [done|]. intros n Hn. cbn. rewrite E1. by apply Hu.
      + intros e el He. rewrite <- E1. by apply (H6 e el). }
  intros k ? <- a b E. split; apply H; [done|by symmetry].
Qed.

End sim.
