(* ===== verification/RuntimeOps.v ===== *)
(** * The operations of the runtime and the abstract state

    For every operation of fibers, mutexes, condition variables and event loop
    the abstract state it leads to; an operation that a caller has no right to
    (the release of a mutex by another fiber) fails an assertion. *)

From S2P Require Import Prelude Bytes ListSpec ListSeg Error Misc Fiber Sync Select Scheduler.
From S2P Require Import Runtime RuntimeStep RuntimeSched RuntimeSim.

Open Scope Z_scope.

Section ops.
Context (ly : layout).
#[local] Notation D := (l_dfk_at ly).
#[local] Notation SCH := (l_sched ly).
#[local] Notation LOOP := (l_loop_at ly).
#[local] Notation SF := (l_sfiber ly).
#[local] Notation EF := (l_efiber ly).
#[local] Notation stack := (l_stack ly).
#[local] Notation frame := (frame_at ly).
#[local] Notation krep := (krep ly).
#[local] Notation laddr := (laddr ly).
#[local] Notation a_suspend := (a_suspend SF).
#[local] Notation a_lock := (a_lock SF).

Context `{Mem : Type, It : Type, !ListOps Mem It, !ListLaws Mem It}.
Context (Hly : layout_ok ly).
Implicit Types k : kmem Mem.

(** ** Objects *)

Lemma mutex_nz m : m ∈ l_mutexes ly -> m <> 0.
Proof using Hly. intros Hm ->. by apply (proj1 (lo_objects _ Hly)). Qed.
Lemma cond_nz c : c ∈ l_conds ly -> c <> 0.
Proof using Hly. intros Hc ->. by apply (proj2 (lo_objects _ Hly)). Qed.

Lemma krep_own k a m f : krep k a -> is_Some (owner a !! m) ->
  krep (hset mutexes_of (<[m := MutexObj D f]> (k_mutexes k)) k) (set_own m f a).
Proof.
  intros Hk [o Ho]. split; try apply Hk.
  - intros m'. cbn. destruct (decide (m' = m)) as [->|Hne].
    + by rewrite !lookup_insert_eq.
    + rewrite !lookup_insert_ne by done. apply Hk.
  - destruct (kr_lists _ _ _ Hk) as (σ & Hl & Hσ). exists σ. split; [done|]. by destruct Hσ; split.
Qed.

Lemma krep_code k a f c : krep k a ->
  krep (hset ctx_of (<[f := c]> (k_ctx k)) k) (set_code f c a).
Proof.
  intros Hk. split; try apply Hk.
  - cbn. by rewrite (kr_ctx _ _ _ Hk).
  - destruct (kr_lists _ _ _ Hk) as (σ & Hl & Hσ). exists σ. split; [done|]. by destruct Hσ; split.
Qed.

Lemma wp_code k a f c (Q : unit -> kmem Mem -> Prop) : krep k a -> f <> 0 ->
  (forall k', krep k' (set_code f c a) -> Q tt k') -> wp (store ctx_of f c) k Q.
Proof. intros Hk Hf HQ. apply wp_store; [done|]. by apply HQ, krep_code. Qed.

Lemma krep_aio k a s n : krep k a -> k_scheds k !! SCH = Some s ->
  krep (hset scheds_of (<[SCH := set_iowait n s]> (k_scheds k)) k) (set_aio n a).
Proof.
  intros Hk Hs. destruct (kr_sched _ _ _ Hk) as (s' & Hs' & H1 & H2 & H3 & H4).
  rewrite Hs in Hs'. injection Hs' as <-. split; try apply Hk.
  - exists (set_iowait n s). cbn. rewrite lookup_insert_eq. by split_and!.
  - destruct (kr_lists _ _ _ Hk) as (σ & Hl & Hσ). exists σ. split; [done|]. by destruct Hσ; split.
Qed.

Lemma wp_sched k a (Q : dfk_scheduler_t -> kmem Mem -> Prop) : krep k a ->
  (forall s, k_scheds k !! SCH = Some s -> s_fiber s = SF -> s_eventloop s = EF ->
     iowait s = aio a -> (cur a <> SF -> s_current s = cur a) -> Q s k) ->
  wp (deref scheds_of SCH) k Q.
Proof using Hly.
  intros Hk HQ. destruct (kr_sched _ _ _ Hk) as (s & Hs & H1 & H2 & H3 & H4).
  destruct (lo_ne _ Hly) as (_ & Hne & _). eapply wp_deref; [lia|exact Hs|]. by apply HQ.
Qed.

Lemma wp_scheduler_of k a (Q : Z -> kmem Mem -> Prop) : krep k a -> Q SCH k -> wp (scheduler_of D) k Q.
Proof using Hly.
  intros Hk HQ. destruct (kr_dfk _ _ _ Hk) as (d & Hd & Hs & _). destruct (lo_ne _ Hly) as (Hne & _).
  unfold scheduler_of. apply wp_bind. eapply wp_deref; [lia|exact Hd|]. apply wp_ret. by rewrite Hs.
Qed.

Lemma wp_this k a (Q : Z -> kmem Mem -> Prop) : krep k a -> cur a <> SF -> Q (cur a) k ->
  wp (dfk__this_fiber SCH) k Q.
Proof using Hly.
  intros Hk Hc HQ. destruct (lo_ne _ Hly) as (_ & Hne & _).
  unfold dfk__this_fiber. apply wp_bind, wp_assert; [apply nonnull_true; lia|].
  apply wp_bind. eapply wp_sched; [done|]. intros s _ _ _ _ Hcur. apply wp_ret. by rewrite Hcur.
Qed.

Lemma wp_fiber k a f (Q : dfk_fiber_t -> kmem Mem -> Prop) : krep k a -> f ∈ fibers a ->
  (forall fo, f_dfk fo = D -> Q fo k) -> wp (deref fibers_of f) k Q.
Proof.
  intros Hk Hf HQ. destruct (fiber_obj _ _ _ _ Hk Hf) as (fo & Hfo & Hd).
  pose proof (fiber_pos _ _ _ _ Hk Hf). eapply wp_deref; [lia|exact Hfo|]. by apply HQ.
Qed.

Lemma wp_mutex k a m o (Q : dfk_mutex_t -> kmem Mem -> Prop) : krep k a -> m <> 0 ->
  owner a !! m = Some o -> Q (MutexObj D o) k -> wp (deref mutexes_of m) k Q.
Proof.
  intros Hk Hm Ho HQ. eapply wp_deref; [done| |exact HQ]. cbn. by rewrite (kr_mutexes _ _ _ Hk), Ho.
Qed.

Lemma wp_set_owner k a m o f (Q : unit -> kmem Mem -> Prop) : krep k a -> m <> 0 ->
  owner a !! m = Some o -> (forall k', krep k' (set_own m f a) -> Q tt k') ->
  wp (update mutexes_of m (set_owner f)) k Q.
Proof.
  intros Hk Hm Ho HQ. eapply wp_update; [done| |].
  - cbn. by rewrite (kr_mutexes _ _ _ Hk), Ho.
  - apply HQ. apply krep_own; [done|by eexists].
Qed.

(** ** Transfers *)

Lemma dfk_yield_spec k a from to (Q : unit -> kmem Mem -> Prop) : krep k a ->
  from ∈ fibers a -> to ∈ fibers a ->
  (forall k', krep k' (transfer to a) -> Q tt k') -> wp (dfk_yield from to) k Q.
Proof using Hly.
  intros Hk Hf Ht HQ. pose proof (fiber_pos _ _ _ _ Hk Hf). pose proof (fiber_pos _ _ _ _ Hk Ht).
  destruct (kr_dfk _ _ _ Hk) as (d & Hd & Hs & _). destruct (lo_ne _ Hly) as (HD & HS & _).
  unfold dfk_yield. apply wp_bind, wp_assert; [apply nonnull_true; lia|].
  apply wp_bind, wp_assert; [apply nonnull_true; lia|].
  apply wp_bind. eapply wp_fiber; [done|done|]. intros fo ->.
  apply wp_bind. eapply wp_deref; [lia|exact Hd|]. rewrite Hs. apply wp_bind.
  unfold dfk__yielded. apply wp_bind, wp_assert; [apply nonnull_true; lia|].
  apply wp_bind, wp_assert; [apply nonnull_true; lia|].
  apply wp_bind, wp_assert; [apply nonnull_true; lia|].
  destruct (kr_sched _ _ _ Hk) as (s & Hsc & H1 & H2 & H3 & H4).
  eapply wp_update; [lia|exact Hsc|].
  destruct (fiber_obj _ _ _ _ Hk Ht) as (to' & Hto & _).
  apply wp_bind. eapply wp_deref; [lia|exact Hto|]. apply wp_modify, HQ.
  split; try apply Hk.
  - done.
  - exists (set_current to s). cbn. rewrite lookup_insert_eq. by split_and!.
  - destruct (kr_lists _ _ _ Hk) as (σ & Hl & Hσ). exists σ. split; [done|]. by destruct Hσ; split.
Qed.


(** The scheduler's fiber lives as long as the runtime. *)
Lemma dfk__suspend_spec k a (Q : unit -> kmem Mem -> Prop) : krep k a ->
  SF ∈ fibers a -> cur a ∈ fibers a -> cur a <> SF ->
  (forall k', krep k' (transfer SF a) -> Q tt k') -> wp (dfk__suspend SCH) k Q.
Proof using Hly.
  intros Hk HS Hc Hne HQ. destruct (lo_ne _ Hly) as (_ & HS0 & _).
  unfold dfk__suspend. apply wp_bind, wp_assert; [apply nonnull_true; lia|].
  apply wp_bind. eapply wp_sched; [done|]. intros s _ -> _ _ _.
  apply wp_bind. eapply wp_this; [done|done|]. by eapply dfk_yield_spec.
Qed.

Lemma aio_range k a : krep k a -> aio a = Z.of_nat (length (q a LFds)) -> 0 <= aio a < SIZE_MOD.
Proof.
  intros Hk ->. split; [lia|]. destruct (kr_lists _ _ _ Hk) as (σ & Hl & Hσ).
  pose proof (lk_static _ _ _ Hσ LFds I) as Hc. cbn in Hc. rewrite list_fmap_id in Hc.
  pose proof (lrep_wf _ _ Hl) as Hwf. apply nodup_valid_length.
  - by eapply wf_nodup.
  - intros x Hx. by eapply wf_chain_valid.
Qed.

Lemma dfk__resume_spec k a f (Q : unit -> kmem Mem -> Prop) : krep k a -> f ∈ fibers a -> unqueued a f ->
  (forall k', krep k' (push LPend f a) -> Q tt k') -> wp (dfk__resume SCH f) k Q.
Proof using Hly.
  intros Hk Hf Hu HQ. destruct (lo_ne _ Hly) as (_ & HS0 & _). pose proof (fiber_pos _ _ _ _ Hk Hf).
  unfold dfk__resume. apply wp_bind, wp_assert; [apply nonnull_true; lia|].
  apply wp_bind, wp_assert; [apply nonnull_true; lia|].
  eapply (krep_append ly Hly k a LPend); [done..|]. intros l. apply HQ.
Qed.

Lemma dfk__postpone_spec k a (Q : unit -> kmem Mem -> Prop) : krep k a ->
  SF ∈ fibers a -> cur a ∈ fibers a -> cur a <> SF -> unqueued a (cur a) ->
  (forall k', krep k' (transfer SF (push LPend (cur a) a)) -> Q tt k') -> wp (dfk__postpone SCH) k Q.
Proof using Hly.
  intros Hk HS Hc Hne Hu HQ. destruct (lo_ne _ Hly) as (_ & HS0 & _).
  unfold dfk__postpone. apply wp_bind, wp_assert; [apply nonnull_true; lia|].
  apply wp_bind. eapply wp_sched; [done|]. intros s _ -> _ _ _.
  apply wp_bind. eapply wp_this; [done|done|].
  apply wp_bind. eapply (krep_append ly Hly k a LPend); [done..|]. intros l Hk'.
  by eapply dfk_yield_spec.
Qed.

Lemma dfk__terminate_spec k a (Q : unit -> kmem Mem -> Prop) : krep k a ->
  SF ∈ fibers a -> cur a ∈ fibers a -> cur a <> SF -> unqueued a (cur a) ->
  (forall k', krep k' (transfer SF (push LTerm (cur a) a)) -> Q tt k') ->
  wp (dfk__terminate SCH (cur a)) k Q.
Proof using Hly.
  intros Hk HS Hc Hne Hu HQ. destruct (lo_ne _ Hly) as (_ & HS0 & _). pose proof (fiber_pos _ _ _ _ Hk Hc).
  unfold dfk__terminate. apply wp_bind, wp_assert; [apply nonnull_true; lia|].
  apply wp_bind, wp_assert; [apply nonnull_true; lia|].
  apply wp_bind. eapply (krep_append ly Hly k a LTerm); [done..|]. intros l Hk'.
  apply wp_bind. eapply wp_sched; [done|]. intros s _ -> _ _ _. by eapply dfk_yield_spec.
Qed.

(** ** Mutexes *)

(** What every operation of a fiber starts from. *)
Record busy (a : astate) : Prop := Busy {
  bz_sched : SF ∈ fibers a;
  bz_cur : cur a ∈ fibers a;
  bz_ne : cur a <> SF;
  bz_free : unqueued a (cur a);
  bz_nodup : forall n, NoDup (q a n);
  bz_disjoint : forall n n' f, n <> LFds -> n' <> LFds -> f ∈ q a n -> f ∈ q a n' -> n = n'
}.

Lemma unqueued_push a n f g : unqueued a g -> g <> f -> unqueued (push n f a) g.
Proof.
  intros Hu Hne n' Hn'. unfold push. rewrite q_set. case_decide; [subst|by apply Hu].
  rewrite not_elem_of_app. split; [by apply Hu|]. by intros ->%list_elem_of_singleton.
Qed.

(** The head of a queue is in no list once it is popped. *)
Lemma unqueued_pop a n f xs : busy a -> n <> LFds -> q a n = f :: xs ->
  unqueued (set_q n xs a) f /\ f <> cur a.
Proof.
  intros Hb Hn Hq. assert (f ∈ q a n) as Hin by (rewrite Hq; set_solver). split.
  - intros n' Hn' Hf. rewrite q_set in Hf. case_decide as E.
    + pose proof (bz_nodup _ Hb n) as Hnd. rewrite Hq in Hnd. apply NoDup_cons in Hnd as [H1 _]. done.
    + apply E. by eapply (bz_disjoint _ Hb).
  - intros ->. by apply (bz_free _ Hb n Hn).
Qed.

Lemma dfk_mutex_lock_spec k a m (Q : unit -> kmem Mem -> Prop) : krep k a -> busy a ->
  m ∈ l_mutexes ly -> is_Some (owner a !! m) ->
  (forall k', krep k' (a_lock m a) -> Q tt k') -> wp (dfk_mutex_lock m) k Q.
Proof using Hly.
  intros Hk [B1 B2 B3 B4 B5 B6] Hm [o Ho] HQ.
  pose proof (mutex_nz m Hm) as Hm0.
  unfold dfk_mutex_lock. apply wp_bind, wp_assert; [by apply nonnull_true|].
  apply wp_bind. eapply wp_mutex; [done..|]. apply wp_bind. eapply wp_scheduler_of; [done|].
  apply wp_bind. eapply wp_this; [done..|]. cbn [_owner].
  unfold a_lock in HQ. rewrite Ho in HQ. destruct (decide (o = 0)) as [->|Ho0].
  - apply wp_if_true; [done|]. by eapply wp_set_owner.
  - apply wp_if_false; [by apply isnull_false|]. destruct (decide (o = cur a)) as [->|Hne].
    + apply wp_if_true; [apply Z.eqb_refl|]. apply wp_ret. by apply HQ.
    + apply wp_if_false; [by apply Z.eqb_neq|]. apply wp_bind.
      eapply (krep_append ly Hly k a (LMutex m)); [done..|]. intros l Hk'.
      by eapply dfk__suspend_spec.
Qed.

(** A fiber without the mutex fails. *)
Lemma dfk_mutex_locked_spec k a m this o (E : fault -> Prop) (Q : unit -> kmem Mem -> Prop) :
  krep k a -> m <> 0 -> owner a !! m = Some o ->
  (o = this -> Q tt k) -> (o <> this -> E AssertFailed) -> wpe (dfk_mutex_locked m this) E k Q.
Proof.
  intros Hk Hm Ho HQ HE. unfold dfk_mutex_locked. apply wpe_bind_wp. eapply wp_mutex; [done..|].
  cbn [_owner]. apply wpe_assert; [intros H%Z.eqb_eq; by apply HQ|intros H%Z.eqb_neq; by apply HE].
Qed.

Lemma release_mutex_spec k a m (Q : unit -> kmem Mem -> Prop) : krep k a -> busy a ->
  m ∈ l_mutexes ly -> is_Some (owner a !! m) ->
  (forall k', krep k' (a_release m a) -> Q tt k') -> wp (release_mutex m SCH) k Q.
Proof using Hly.
  intros Hk Hb Hm [o Ho] HQ. pose proof (mutex_nz m Hm) as Hm0.
  unfold release_mutex, a_release in *. apply wp_bind.
  eapply (krep_empty ly k a (LMutex m)); [done|done|]. destruct (q a (LMutex m)) as [|f xs] eqn:Hq.
  - rewrite bool_decide_eq_true_2 by done. by eapply wp_set_owner.
  - rewrite bool_decide_eq_false_2 by done. apply wp_bind.
    eapply (krep_front ly k a (LMutex m)); [done|done|exact Hq|].
    change (hk (LMutex m) f) with (f_hook f). rewrite to_fiber_hook. apply wp_bind.
    eapply (krep_pop ly Hly k a (LMutex m)); [done..|]. intros l Hk1. apply wp_bind.
    eapply wp_set_owner; [exact Hk1|done|exact Ho|]. intros k2 Hk2.
    destruct (unqueued_pop a (LMutex m) f xs Hb) as [Hu _]; [done..|].
    eapply dfk__resume_spec; [exact Hk2| |exact Hu|exact HQ].
    eapply (kr_members _ _ _ Hk (LMutex m)); [done|]. rewrite Hq. set_solver.
Qed.

Lemma dfk_mutex_unlock_spec k a m o (E : fault -> Prop) (Q : unit -> kmem Mem -> Prop) :
  krep k a -> busy a -> m ∈ l_mutexes ly -> owner a !! m = Some o ->
  (o = cur a -> forall k', krep k' (a_release m a) -> Q tt k') ->
  (o <> cur a -> E AssertFailed) -> wpe (dfk_mutex_unlock m) E k Q.
Proof using Hly.
  intros Hk Hb Hm Ho HQ HE. pose proof (mutex_nz m Hm) as Hm0.
  pose proof (fiber_pos _ _ _ _ Hk (bz_cur _ Hb)).
  unfold dfk_mutex_unlock. apply wpe_bind_wp, wp_assert; [by apply nonnull_true|].
  apply wpe_bind_wp. eapply wp_mutex; [done..|]. cbn [_owner m_dfk]. apply wpe_bind, wpe_assert.
  2: { intros Hn. apply HE. intros ->. rewrite nonnull_true in Hn by lia. done. }
  intros _. apply wpe_bind_wp. eapply wp_scheduler_of; [done|].
  apply wpe_bind_wp. eapply wp_this; [done|apply Hb|]. apply wpe_bind, wpe_assert.
  - intros ->%Z.eqb_eq. apply wp_wpe. eapply release_mutex_spec; [done..|by eexists|]. by apply HQ.
  - intros ?%Z.eqb_neq. by apply HE.
Qed.

Lemma dfk_mutex_trylock_spec k a m (Q : Z -> kmem Mem -> Prop) : krep k a -> busy a ->
  m ∈ l_mutexes ly -> is_Some (owner a !! m) ->
  (forall k', krep k' (a_trylock m a) -> Q (a_trylock_result m a) k') ->
  wp (dfk_mutex_trylock m) k Q.
Proof using Hly.
  intros Hk Hb Hm [o Ho] HQ. pose proof (mutex_nz m Hm) as Hm0.
  unfold dfk_mutex_trylock. apply wp_bind, wp_assert; [by apply nonnull_true|].
  apply wp_bind. eapply wp_mutex; [done..|]. apply wp_bind. eapply wp_scheduler_of; [done|].
  apply wp_bind. eapply wp_this; [done|apply Hb|]. cbn [_owner].
  unfold a_trylock, a_trylock_result in HQ. rewrite Ho in HQ. destruct (decide (o = 0)) as [->|Hne].
  - apply wp_if_false; [done|]. apply wp_bind. eapply wp_set_owner; [done..|]. intros k' Hk'.
    apply wp_ret. rewrite !decide_True in HQ by auto. by apply HQ.
  - apply wp_if_true; [by apply nonnull_true|]. rewrite (decide_False (P := Some o = Some 0)) in HQ by congruence.
    destruct (decide (o = cur a)) as [->|Hc].
    + apply wp_if_true; [apply Z.eqb_refl|]. apply wp_ret. rewrite decide_True in HQ by auto. by apply HQ.
    + apply wp_if_false; [by apply Z.eqb_neq|]. apply wp_ret.
      rewrite decide_False in HQ by (intros [|]; congruence). by apply HQ.
Qed.

Lemma dfk_mutex_free_spec k a m o (E : fault -> Prop) (Q : unit -> kmem Mem -> Prop) :
  krep k a -> m ∈ l_mutexes ly -> owner a !! m = Some o ->
  (o = 0 -> q a (LMutex m) = [] -> Q tt k) ->
  (o <> 0 \/ q a (LMutex m) <> [] -> E AssertFailed) -> wpe (dfk_mutex_free m) E k Q.
Proof using Hly.
  intros Hk Hm Ho HQ HE. pose proof (mutex_nz m Hm) as Hm0.
  unfold dfk_mutex_free. apply wpe_bind_wp, wp_assert; [by apply nonnull_true|].
  apply wpe_bind_wp. eapply (krep_empty ly k a (LMutex m)); [done|done|].
  apply wpe_bind, wpe_assert.
  - intros Hq%bool_decide_eq_true. apply wpe_bind_wp. eapply wp_mutex; [done..|]. cbn [_owner].
    apply wpe_assert.
    + intros ->%Z.eqb_eq. by apply HQ.
    + intros Hn%Z.eqb_neq. apply HE. by left.
  - intros Hq%bool_decide_eq_false. apply HE. by right.
Qed.

(** ** Condition variables *)

Lemma wp_cond k a c (Q : dfk_cond_t -> kmem Mem -> Prop) : krep k a -> c <> 0 -> c ∈ conds a ->
  Q (CondObj D) k -> wp (deref conds_of c) k Q.
Proof. intros Hk Hc Hin HQ. eapply wp_deref; [done|by apply (kr_conds _ _ _ Hk)|done]. Qed.

Lemma dfk_cond_free_spec k a c (E : fault -> Prop) (Q : unit -> kmem Mem -> Prop) :
  krep k a -> c ∈ l_conds ly -> (q a (LCond c) = [] -> Q tt k) ->
  (q a (LCond c) <> [] -> E AssertFailed) -> wpe (dfk_cond_free c) E k Q.
Proof using Hly.
  intros Hk Hc HQ HE. pose proof (cond_nz c Hc) as Hc0.
  unfold dfk_cond_free. apply wpe_bind_wp, wp_assert; [by apply nonnull_true|].
  apply wpe_bind_wp. eapply (krep_empty ly k a (LCond c)); [done|done|].
  apply wpe_assert; [intros Hq%bool_decide_eq_true; by apply HQ|intros Hq%bool_decide_eq_false; by apply HE].
Qed.

Lemma release_queues m a n : n <> LPend -> n <> LMutex m -> q (a_release m a) n = q a n.
Proof.
  intros H1 H2. unfold a_release. destruct (q a (LMutex m)) as [|f xs]; [done|].
  unfold push. rewrite q_set_ne by done. cbn. by rewrite decide_False.
Qed.

Lemma release_unqueued m a f : busy a -> unqueued a f -> unqueued (a_release m a) f.
Proof.
  intros Hb Hu. unfold a_release. destruct (q a (LMutex m)) as [|g xs] eqn:Hq; [done|].
  apply unqueued_push.
  - intros n Hn. cbn. specialize (Hu n Hn). case_decide; [subst; rewrite Hq in Hu; set_solver|done].
  - intros ->. apply (Hu (LMutex m)); [done|]. rewrite Hq. set_solver.
Qed.

Lemma dfk_cond_wait_spec k a c m o (E : fault -> Prop) (Q : unit -> kmem Mem -> Prop) :
  krep k a -> busy a -> c ∈ l_conds ly -> c ∈ conds a -> m ∈ l_mutexes ly -> owner a !! m = Some o ->
  (o = cur a -> forall k', krep k' (a_suspend (LCond c) (a_release m a)) -> Q tt k') ->
  (o <> cur a -> E AssertFailed) -> wpe (dfk_cond_wait c m) E k Q.
Proof using Hly.
  intros Hk Hb Hc Hca Hm Ho HQ HE.
  pose proof (mutex_nz m Hm) as Hm0.
  pose proof (cond_nz c Hc) as Hc0.
  pose proof (fiber_pos _ _ _ _ Hk (bz_cur _ Hb)).
  unfold dfk_cond_wait. apply wpe_bind_wp, wp_assert; [by apply nonnull_true|].
  apply wpe_bind_wp, wp_assert; [by apply nonnull_true|].
  apply wpe_bind_wp. eapply wp_cond; [done..|]. cbn [c_dfk].
  apply wpe_bind_wp. eapply wp_scheduler_of; [done|].
  apply wpe_bind_wp. eapply wp_this; [done|apply Hb|].
  apply wpe_bind_wp. eapply wp_mutex; [done..|]. cbn [m_dfk _owner].
  apply wpe_bind_wp, wp_assert; [apply Z.eqb_refl|].
  apply wpe_bind, wpe_assert.
  2: { intros Hn. apply HE. intros ->. rewrite nonnull_true in Hn by lia. done. }
  intros _. apply wpe_bind, wpe_assert; [|by intros ?%Z.eqb_neq; auto].
  intros ->%Z.eqb_eq. apply wpe_bind_wp. eapply release_mutex_spec; [done..|by eexists|].
  intros k1 Hk1. destruct (release_fields m a) as (R1 & _ & _ & R2 & _).
  apply wpe_bind_wp. rewrite <- R1. eapply (krep_append ly Hly k1 _ (LCond c)); [done|done|done| | |].
  { rewrite R1, R2. apply Hb. }
  { rewrite R1. apply release_unqueued; [done|apply Hb]. }
  intros l Hk2. apply wp_wpe. eapply dfk__suspend_spec; [exact Hk2|..].
  - cbn. rewrite R2. apply Hb.
  - cbn. rewrite R1, R2. apply Hb.
  - cbn. rewrite R1. apply Hb.
  - by apply HQ.
Qed.

Lemma dfk_cond_signal_spec k a c (Q : unit -> kmem Mem -> Prop) : krep k a -> busy a ->
  c ∈ l_conds ly -> c ∈ conds a ->
  (forall k', krep k' (a_signal c a) -> Q tt k') -> wp (dfk_cond_signal c) k Q.
Proof using Hly.
  intros Hk Hb Hc Hca HQ. pose proof (cond_nz c Hc) as Hc0.
  unfold dfk_cond_signal, a_signal in *. apply wp_bind, wp_assert; [by apply nonnull_true|].
  apply wp_bind. eapply wp_cond; [done..|]. cbn [c_dfk].
  apply wp_bind. eapply (krep_empty ly k a (LCond c)); [done|done|]. destruct (q a (LCond c)) as [|f xs] eqn:Hq.
  - rewrite bool_decide_eq_true_2 by done. apply wp_when_false; [done|]. by apply HQ.
  - rewrite bool_decide_eq_false_2 by done. apply wp_when_true; [done|]. apply wp_bind.
    eapply (krep_front ly k a (LCond c)); [done|done|exact Hq|].
    change (hk (LCond c) f) with (f_hook f). rewrite to_fiber_hook. apply wp_bind.
    eapply (krep_pop ly Hly k a (LCond c)); [done..|]. intros l Hk1.
    apply wp_bind. eapply wp_scheduler_of; [exact Hk1|].
    destruct (unqueued_pop a (LCond c) f xs Hb) as [Hu _]; [done..|].
    eapply dfk__resume_spec; [exact Hk1| |exact Hu|exact HQ].
    eapply (kr_members _ _ _ Hk (LCond c)); [done|]. rewrite Hq. set_solver.
Qed.

(** The waiting fibers move to the caller's list, and from there, in order, to
    the pending ones. *)
Definition broadcasting (c : Z) (ys xs : list Z) (a : astate) : astate :=
  set_q (LLocal (cur a)) xs (set_q LPend (q a LPend ++ ys) (set_q (LCond c) [] (add_local (cur a) a))).

Lemma broadcasting_unqueued c ys f xs a : busy a -> q a (LCond c) = ys ++ f :: xs ->
  unqueued (set_q (LLocal (cur a)) xs (broadcasting c ys (f :: xs) a)) f.
Proof.
  intros Hb Hq. assert (f ∈ q a (LCond c)) as Hf by (rewrite Hq; set_solver).
  pose proof (bz_nodup _ Hb (LCond c)) as Hnd. rewrite Hq in Hnd.
  apply NoDup_app in Hnd as (_ & Hd & Hs). apply NoDup_cons in Hs as [Hs _].
  intros n Hn. unfold broadcasting. rewrite !q_set. repeat case_decide; subst; try done.
  - intros [Hin|Hin]%elem_of_app; [|by apply (Hd f Hin), list_elem_of_here].
    assert (LPend = LCond c) by (by eapply (bz_disjoint _ Hb)). done.
  - by apply not_elem_of_nil.
  - intros Hin. assert (n = LCond c) by (by eapply (bz_disjoint _ Hb)). done.
Qed.

Lemma broadcast_body_spec c ys xs a k : busy a -> krep k (broadcasting c ys xs a) ->
  q a (LCond c) = ys ++ xs -> (forall f, f ∈ q a (LCond c) -> f ∈ fibers a) ->
  wp (broadcast_body (frame (cur a)) SCH tt) k (fun r k' =>
    match r with
    | inl _ => exists f xs', xs = f :: xs' /\ krep k' (broadcasting c (ys ++ [f]) xs' a)
    | inr _ => xs = [] /\ k' = k
    end).
Proof using Hly.
  intros Hb Hk Hq Hm. unfold broadcast_body.
  assert (q (broadcasting c ys xs a) (LLocal (cur a)) = xs) as Hl by apply q_set_eq.
  assert (live ly (broadcasting c ys xs a) (LLocal (cur a))) as Hlive by (cbn; split; [apply Hb|set_solver]).
  apply wp_bind. eapply (krep_empty ly k _ (LLocal (cur a))); [done|done|]. rewrite Hl.
  destruct xs as [|f xs]; [by rewrite bool_decide_eq_true_2|]. rewrite bool_decide_eq_false_2 by done.
  apply wp_bind. eapply (krep_front ly k _ (LLocal (cur a))); [done|done|exact Hl|].
  change (hk (LLocal (cur a)) f) with (f_hook f). rewrite to_fiber_hook.
  apply wp_bind. eapply (krep_pop ly Hly k _ (LLocal (cur a))); [done..|]. intros l Hk1.
  apply wp_bind. eapply dfk__resume_spec; [exact Hk1|apply Hm; rewrite Hq; set_solver| |].
  { by apply broadcasting_unqueued. }
  intros k' Hk'. apply wp_ret. exists f, xs. split; [done|].
  eapply krep_proper; [reflexivity| |exact Hk'].
  split; try done. intros n. unfold broadcasting, push. rewrite !q_set.
  repeat case_decide; subst; try done. by rewrite <- app_assoc.
Qed.

Lemma dfk_cond_broadcast_spec fuel k a c (Q : unit -> kmem Mem -> Prop) : krep k a -> busy a ->
  c ∈ l_conds ly -> c ∈ conds a -> q a (LLocal (cur a)) = [] -> (length (q a (LCond c)) < fuel)%nat ->
  (forall k', krep k' (a_broadcast c a) -> Q tt k') -> wp (dfk_cond_broadcast frame fuel c) k Q.
Proof using Hly.
  intros Hk Hb Hc Hca Hloc Hfuel HQ. pose proof (cond_nz c Hc) as Hc0.
  unfold dfk_cond_broadcast. apply wp_bind, wp_assert; [by apply nonnull_true|].
  apply wp_bind. eapply wp_cond; [done..|]. cbn [c_dfk].
  apply wp_bind. eapply wp_scheduler_of; [done|].
  apply wp_bind, wp_gets. rewrite (kr_at _ _ _ Hk). cbn zeta.
  apply wp_bind. eapply (krep_init_local ly Hly); [done|apply Hb|done|]. intros l1 Hk1.
  apply wp_bind. eapply (krep_move ly Hly _ _ (LCond c)); [exact Hk1|done|done|apply Hb|set_solver|done|].
  intros l2 Hk2.
  eapply (wp_loop (fun n _ k' => exists ys xs, q a (LCond c) = ys ++ xs /\ n = length xs /\
    krep k' (broadcasting c ys xs a))).
  - intros n [] k' (ys & xs & Hq & -> & Hk'). eapply wp_mono.
    { apply broadcast_body_spec; [done|done|done|]. intros f. by eapply (kr_members _ _ _ Hk). }
    intros [[]|[]] k'' Hr; cbn.
    + destruct Hr as (f & xs' & -> & Hk''). exists (length xs'). split; [cbn; lia|].
      exists (ys ++ [f]), xs'. rewrite <- app_assoc. by split_and!.
    + destruct Hr as [-> ->]. apply HQ. eapply krep_proper; [reflexivity| |exact Hk'].
      rewrite app_nil_r in Hq. subst ys. unfold broadcasting, a_broadcast.
      split; try done. intros n'. rewrite !q_set. by repeat case_decide; subst.
  - exists [], (q a (LCond c)). split_and!; [done|reflexivity|].
    eapply krep_proper; [reflexivity| |exact Hk2].
    unfold broadcasting. split; try done. intros n'. rewrite app_nil_r, !q_set. by repeat case_decide; subst.
  - done.
Qed.

End ops.
