(* ===== verification/RuntimeIo.v ===== *)
(** * I/O of the runtime and the abstract state

    [dfk__io] and the event loop of [select.c].  The event loop erases
    elements while it iterates, so its lemmas need iterators that survive
    that ([IterStable]). *)

From S2P Require Import Prelude Bytes ListSpec ListSeg Error Misc Fiber Sync Select Scheduler.
From S2P Require Import Runtime RuntimeStep RuntimeSched RuntimeSim RuntimeOps.

Open Scope Z_scope.

Section io.
Context (ly : layout).
#[local] Notation D := (l_dfk_at ly).
#[local] Notation SCH := (l_sched ly).
#[local] Notation LOOP := (l_loop_at ly).
#[local] Notation SF := (l_sfiber ly).
#[local] Notation EF := (l_efiber ly).
#[local] Notation stack := (l_stack ly).
#[local] Notation frame := (frame_at ly).
#[local] Notation krep := (krep ly).
#[local] Notation laddr := (laddr ly).

Context `{Mem : Type, It : Type, !ListOps Mem It, !ListLaws Mem It}.
Context (Hly : layout_ok ly).
Implicit Types k : kmem Mem.

(** ** Elements *)

Lemma frame_pos k a f : krep k a -> f ∈ fibers a -> valid_addr (frame f).
Proof using Hly.
  intros Hk Hf. destruct (kr_blocks _ _ _ Hk f Hf) as (H0 & _ & He & _). pose proof (lo_frame _ Hly).
  unfold valid_addr, frame_at, FIBER_T, USER_END, SIZE_MOD, SIZE_BITS in *. lia.
Qed.

Lemma fd_unchained k a f σ : krep k a -> f ∈ fibers a -> frame f ∉ q a LFds -> lists_ok ly a σ ->
  unchained σ (frame f).
Proof using Hly.
  intros Hk Hf Hq Hσ l xs Hx Hin.
  assert (forall n, n <> LFds -> frame f ∈ f_hook <$> q a n -> False) as Hno.
  { intros n Hn (g & Hg & Hgn)%list_elem_of_fmap. eapply (hook_frame ly Hly k a g f); [done| |done|done].
    by eapply (kr_members _ _ _ Hk). }
  destruct (lk_only _ _ _ Hσ l xs Hx) as [(n & Hs & ->)|[(g & Hg & ->)| ->]].
  - rewrite (lk_static _ _ _ Hσ n Hs) in Hx. injection Hx as <-. destruct (decide (n = LFds)) as [->|Hn].
    + cbn in Hin. by rewrite list_fmap_id in Hin.
    + apply (Hno n Hn). by destruct n.
  - pose proof (lk_local _ _ _ Hσ g Hg) as Hl. rewrite Hx in Hl. cbn in Hl. subst xs.
    by apply (Hno (LLocal g)).
  - by apply not_elem_of_nil in Hin.
Qed.

(** The element in the frame of [f] is made. *)
Lemma krep_new_elem k a f el (Q : unit -> kmem Mem -> Prop) : krep k a -> f ∈ fibers a ->
  frame f ∉ q a LFds -> (forall k', krep k' (set_elem (frame f) el a) -> Q tt k') ->
  wp (zoom klists (hook_init (frame f))) k (fun _ k1 => wp (store fds_of (frame f) el) k1 Q).
Proof using Hly.
  intros Hk Hf Hq HQ. destruct (kr_lists _ _ _ Hk) as (σ & Hl & Hσ).
  pose proof (frame_pos _ _ _ Hk Hf) as Hv.
  apply wp_zoom. eapply wp_mono.
  { eapply law_hook_init; [exact Hl|exact Hv|]. by eapply fd_unchained. }
  intros [] l Hl'. apply wp_store; [by apply valid_ne|]. apply HQ.
  split; try apply Hk.
  - cbn. by rewrite (kr_fds _ _ _ Hk).
  - intros e el'. cbn. rewrite lookup_insert_Some. intros [[<- _]|[_ He]]; [by exists f|].
    by eapply (kr_elems _ _ _ Hk).
  - eexists. split; [exact Hl'|]. split; cbn; try apply Hσ.
    + intros g Hg Hu. unfold release. apply elem_of_union. left. by apply (lk_spare _ _ _ Hσ).
    + intros e el'. unfold release. rewrite lookup_insert_Some, elem_of_union. intros [[<- _]|[_ He]] Hne.
      * right. by apply elem_of_singleton.
      * left. by eapply (lk_elems _ _ _ Hσ).
Qed.

(** An element that is there changes. *)
Lemma krep_set_elem k a e el el' : krep k a -> elems a !! e = Some el ->
  krep (hset fds_of (<[e := el']> (k_fds k)) k) (set_elem e el' a).
Proof.
  intros Hk He. split; try apply Hk.
  - cbn. by rewrite (kr_fds _ _ _ Hk).
  - intros e' el''. cbn. rewrite lookup_insert_Some. intros [[<- _]|[_ He']]; by eapply (kr_elems _ _ _ Hk).
  - destruct (kr_lists _ _ _ Hk) as (σ & Hl & Hσ). exists σ. split; [done|].
    split; try apply Hσ. intros e' el''. cbn. rewrite lookup_insert_Some.
    intros [[<- _]|[_ He']]; by eapply (lk_elems _ _ _ Hσ).
Qed.

(** The frame of [f] ends. *)
Lemma dfk__io_done_spec k a f el (Q : Z -> kmem Mem -> Prop) : krep k a -> f ∈ fibers a ->
  elems a !! frame f = Some el -> frame f ∉ q a LFds ->
  (forall k', krep k' (del_elem (frame f) a) -> Q (e_events el) k') ->
  wp (dfk__io_done (frame f)) k Q.
Proof using Hly.
  intros Hk Hf Hel Hq HQ. pose proof (frame_pos _ _ _ Hk Hf) as Hv. pose proof (valid_ne _ Hv).
  destruct (kr_lists _ _ _ Hk) as (σ & Hl & Hσ). unfold dfk__io_done.
  apply wp_bind. eapply wp_deref; [done|cbn; by rewrite (kr_fds _ _ _ Hk)|].
  apply wp_bind, wp_zoom. eapply wp_mono.
  { eapply law_hook_dispose; [exact Hl|]. by eapply (lk_elems _ _ _ Hσ). }
  intros [] l Hl'. apply wp_bind. eapply wp_dispose; [cbn; rewrite (kr_fds _ _ _ Hk); exact Hel|].
  apply wp_ret, HQ. split; try apply Hk.
  - cbn. by rewrite (kr_fds _ _ _ Hk).
  - intros e el' He. cbn in He. apply lookup_delete_Some in He as [_ He]. by eapply (kr_elems _ _ _ Hk).
  - eexists. split; [exact Hl'|]. split; cbn; try apply Hσ.
    + intros g Hg Hu. unfold occupy. apply elem_of_difference. split; [by apply (lk_spare _ _ _ Hσ)|].
      intros E%elem_of_singleton. by eapply (hook_frame ly Hly k a g f).
    + intros e el' [Hne He]%lookup_delete_Some Hni. unfold occupy. apply elem_of_difference.
      split; [by eapply (lk_elems _ _ _ Hσ)|]. intros E%elem_of_singleton. congruence.
Qed.

(** ** Waiting for I/O *)

Lemma fds_length k a : krep k a -> Z.of_nat (length (q a LFds)) < SIZE_MOD.
Proof.
  intros Hk. destruct (kr_lists _ _ _ Hk) as (σ & Hl & Hσ).
  pose proof (lk_static _ _ _ Hσ LFds I) as Hc. cbn in Hc. rewrite list_fmap_id in Hc.
  pose proof (lrep_wf _ _ Hl) as Hwf. apply nodup_valid_length.
  - by eapply wf_nodup.
  - intros x Hx. by eapply wf_chain_valid.
Qed.

Lemma wp_set_iowait k a n (Q : unit -> kmem Mem -> Prop) :
  krep k a -> 0 <= aio a + n < SIZE_MOD ->
  (forall k', krep k' (set_aio (aio a + n) a) -> Q tt k') ->
  wp (update scheds_of SCH (fun s => set_iowait (to_size (iowait s + n)) s)) k Q.
Proof using Hly.
  intros Hk Hn HQ. destruct (kr_sched _ _ _ Hk) as (s & Hs & H1 & H2 & H3 & H4).
  destruct (lo_ne _ Hly) as (_ & HS & _). eapply wp_update; [lia|exact Hs|].
  rewrite H3, to_size_small by done. apply HQ. by eapply krep_aio.
Qed.

Lemma dfk__iosuspend_spec k a (Q : unit -> kmem Mem -> Prop) : krep k a ->
  SF ∈ fibers a -> cur a ∈ fibers a -> cur a <> SF -> 0 <= aio a + 1 < SIZE_MOD ->
  (forall k', krep k' (transfer SF (set_aio (aio a + 1) a)) -> Q tt k') -> wp (dfk__iosuspend SCH) k Q.
Proof using Hly.
  intros Hk HS Hc Hne Hn HQ. destruct (lo_ne _ Hly) as (_ & HS0 & _).
  unfold dfk__iosuspend. apply wp_bind, wp_assert; [apply nonnull_true; lia|].
  apply wp_bind. eapply wp_sched; [done|done|]. intros s _ -> _ _ _.
  apply wp_bind. eapply wp_this; [done|done|done|].
  apply wp_bind. eapply wp_set_iowait; [done|done|]. intros k1 Hk1.
  eapply dfk_yield_spec; [exact Hly|exact Hk1|done|done|done].
Qed.

Lemma dfk__ioresume_spec k a f (Q : unit -> kmem Mem -> Prop) : krep k a -> f ∈ fibers a ->
  unqueued a f -> 0 <= aio a - 1 < SIZE_MOD ->
  (forall k', krep k' (push LPend f (set_aio (aio a - 1) a)) -> Q tt k') ->
  wp (dfk__ioresume SCH f) k Q.
Proof using Hly.
  intros Hk Hf Hu Hn HQ. destruct (lo_ne _ Hly) as (_ & HS0 & _). pose proof (fiber_pos _ _ _ _ Hk Hf).
  unfold dfk__ioresume. apply wp_bind, wp_assert; [apply nonnull_true; lia|].
  apply wp_bind, wp_assert; [apply nonnull_true; lia|].
  apply wp_bind. eapply (wp_set_iowait k a (-1)); [done|done|]. intros k1 Hk1.
  eapply (krep_append ly Hly k1 _ LPend); [exact Hk1|done..|]. intros l. apply HQ.
Qed.

Lemma wp_loop_obj k a (Q : dfk_eventloop_t -> kmem Mem -> Prop) : krep k a -> Q (LoopObj D) k ->
  wp (deref loops_of LOOP) k Q.
Proof using Hly.
  intros Hk HQ. destruct (lo_ne _ Hly) as (_ & _ & HL). eapply wp_deref; [lia|apply (kr_loop _ _ _ Hk)|done].
Qed.

Lemma dfk__io_spec k a fd ev (Q : unit -> kmem Mem -> Prop) : krep k a -> busy ly a -> fd <> 0 ->
  frame (cur a) ∉ q a LFds -> aio a = Z.of_nat (length (q a LFds)) ->
  (forall k', krep k' (a_io SF frame fd ev a) -> Q tt k') -> wp (dfk__io frame LOOP fd ev) k Q.
Proof using Hly.
  intros Hk Hb Hfd Hq Ha HQ. destruct (lo_ne _ Hly) as (HD & HS0 & HL).
  unfold dfk__io. apply wp_bind, wp_assert; [apply nonnull_true; lia|].
  apply wp_bind, wp_assert; [by apply negb_true_iff, Z.eqb_neq|].
  apply wp_bind. eapply wp_loop_obj; [done|]. cbn [l_dfk].
  apply wp_bind, wp_assert; [apply nonnull_true; lia|].
  apply wp_bind. eapply wp_scheduler_of; [done|done|].
  apply wp_bind. eapply wp_this; [done|done|apply Hb|]. cbn zeta.
  set (el := FdElem fd ev (cur a)). apply wp_bind. eapply wp_mono.
  { apply (krep_new_elem k a (cur a) el (fun _ k1 => krep k1 (set_elem (frame (cur a)) el a)));
      [done|apply Hb|done|done]. }
  intros [] k0 Hst. apply wp_bind. eapply wp_mono; [exact Hst|]. clear k0 Hst. intros [] k1 Hk1.
  apply wp_bind. eapply (krep_append_fd ly Hly k1 _ (cur a)); [exact Hk1|apply Hb| |done|].
  { cbn. by rewrite lookup_insert_eq. }
  intros l Hk2. eapply dfk__iosuspend_spec; [exact Hk2|apply Hb|apply Hb|apply Hb| |exact HQ].
  pose proof (fds_length _ _ Hk2) as Hlen. unfold push in Hlen. rewrite q_set_eq, length_app in Hlen.
  cbn in Hlen |- *. lia.
Qed.

End io.
