(* ===== verification/RuntimeLoop.v ===== *)
(** * The event loop and the abstract state

    The two passes of [select.c] over the waiting elements: the first collects
    descriptors, the second takes ready elements out while it iterates. *)

From S2P Require Import Prelude Bytes ListSpec ListSeg Error Misc Fiber Sync Select Scheduler.
From S2P Require Import Runtime RuntimeStep RuntimeSched RuntimeSim RuntimeOps RuntimeIo.

Open Scope Z_scope.

Section eventloop.
Context (ly : layout).
#[local] Notation D := (l_dfk_at ly).
#[local] Notation SCH := (l_sched ly).
#[local] Notation LOOP := (l_loop_at ly).
#[local] Notation SF := (l_sfiber ly).
#[local] Notation EF := (l_efiber ly).
#[local] Notation frame := (frame_at ly).
#[local] Notation krep := (krep ly).
#[local] Notation ainv := (ainv SF EF LOOP frame (l_mutexes ly) (l_conds ly)).

Context `{Mem : Type, It : Type, !ListOps Mem It, !ListLaws Mem It}.
Context (Hly : layout_ok ly).
Implicit Types k : kmem Mem.

(** ** The first pass *)

Lemma wp_fd_set fd set k (Q : list Z -> kmem Mem -> Prop) :
  0 <= fd < 1024 -> Q (fd :: set) k -> wp (fd_set fd set) k Q.
Proof. intros Hfd HQ. apply wp_if_true; [unfold FD_SETSIZE; lia|]. by apply wp_ret. Qed.

Lemma wp_fd_set_if (b : bool) fd set k (Q : list Z -> kmem Mem -> Prop) :
  0 <= fd < 1024 -> (forall set', Q set' k) -> wp (if b then fd_set fd set else mret set) k Q.
Proof. intros Hfd HQ. destruct b; [by apply wp_fd_set|by apply wp_ret]. Qed.

Lemma wp_elem k a e el (Q : dfk_fdlist_element_t -> kmem Mem -> Prop) : krep k a -> e <> 0 ->
  elems a !! e = Some el -> Q el k -> wp (deref fds_of e) k Q.
Proof. intros Hk He Hel HQ. eapply wp_deref; [done|cbn; by rewrite (kr_fds _ _ _ Hk)|done]. Qed.

Lemma fd_member_pos k a e : krep k a -> e ∈ q a LFds -> e <> 0.
Proof using Hly.
  intros Hk He. destruct (kr_fd_members _ _ _ Hk e He) as (f & Hf & ->).
  by eapply valid_ne, frame_pos.
Qed.

Lemma collect_spec k a (fuel : nat) end_ (Q : list Z * list Z * list Z * Z -> kmem Mem -> Prop) :
  krep k a -> (forall e, e ∈ q a LFds -> exists el, elems a !! e = Some el /\ 0 <= e_fd el < 1024) ->
  it_at end_ (q a LFds) [] -> (length (q a LFds) < fuel)%nat -> (forall r, Q r k) ->
  forall it, it_at it [] (q a LFds) -> wp (loop fuel (collect_body end_) (it, [], [], [], 0)) k Q.
Proof using Hly.
  intros Hk Hel Hend Hfuel HQ it0 Hit0.
  apply (wp_loop (fun n st k' => k' = k /\ exists pre suf, q a LFds = pre ++ suf /\ n = length suf /\
    it_at st.1.1.1.1 pre suf)) with (n := length (q a LFds)); [|split; [done|]; by exists [], (q a LFds)|done].
  intros n [[[[it r] w] x] maxfd] k' (-> & pre & suf & Hq & -> & Hit). cbn in Hit. unfold collect_body.
  apply wp_bind. eapply (krep_fd_equal ly k a Hk it pre suf end_ (q a LFds) []); [done|by rewrite app_nil_r|done..|].
  destruct suf as [|e suf]; [rewrite bool_decide_eq_true_2 by done; by apply wp_ret|].
  rewrite bool_decide_eq_false_2 by done. assert (e ∈ q a LFds) as He by (rewrite Hq; set_solver).
  destruct (Hel e He) as (el & Hele & Hfd).
  apply wp_bind. rewrite (it_at_value _ _ _ Hit). cbn [head_or head default].
  eapply wp_elem; [done|by eapply fd_member_pos|done|].
  apply wp_bind, wp_fd_set_if; [done|]. intros r'. apply wp_bind, wp_fd_set_if; [done|]. intros w'.
  apply wp_bind, wp_fd_set; [done|]. apply wp_bind. eapply (krep_fd_next ly k a Hk); [exact Hq|exact Hit|].
  intros it' Hit'. apply wp_ret. exists (length suf). split; [cbn; lia|]. split; [done|].
  exists (pre ++ [e]), suf. by rewrite <- app_assoc.
Qed.

(** ** The second pass *)

Section deliver.
Context `{!IterStable Mem It}.
Context (r w x : list Z).

Lemma deliver_elems a es e : e ∉ es -> elems (a_deliver r w x es a) !! e = elems a !! e.
Proof.
  revert a. induction es as [|e' es IH]; intros a He; [done|].
  cbn. fold (a_deliver r w x es (a_deliver1 r w x a e')). rewrite IH by set_solver.
  unfold a_deliver1. repeat case_match; try done. cbn. rewrite lookup_insert_ne; [done|set_solver].
Qed.

Lemma deliver_fields a es : fibers (a_deliver r w x es a) = fibers a /\ cur (a_deliver r w x es a) = cur a /\
  codes (a_deliver r w x es a) = codes a.
Proof.
  revert a. induction es as [|e' es IH]; intros a; [done|].
  cbn. fold (a_deliver r w x es (a_deliver1 r w x a e')). destruct (IH (a_deliver1 r w x a e')) as (-> & -> & ->).
  unfold a_deliver1. by repeat case_match.
Qed.

Lemma deliver_snoc a es e : a_deliver r w x (es ++ [e]) a = a_deliver1 r w x (a_deliver r w x es a) e.
Proof. unfold a_deliver. by rewrite foldl_app. Qed.

(** One element. *)
Lemma deliver_body_spec k a loc it end_ any pre e suf el : krep k a -> ainv a loc -> no_hand loc ->
  q a LFds = pre ++ e :: suf -> it_at it pre (e :: suf) -> it_at end_ (q a LFds) [] ->
  elems a !! e = Some el ->
  wp (deliver_body LOOP r w x end_ (it, any)) k (fun res k' =>
    exists it' pre', res = inl (it', any || ready_in r w x el) /\ krep k' (a_deliver1 r w x a e) /\
      q (a_deliver1 r w x a e) LFds = pre' ++ suf /\ it_at it' pre' suf).
Proof using Hly IterStable0.
  intros Hk Hi Hn Hq Hit Hend Hel. unfold deliver_body.
  apply wp_bind. eapply (krep_fd_equal ly k a Hk it pre (e :: suf) end_ (q a LFds) []);
    [done|by rewrite app_nil_r|done..|]. rewrite bool_decide_eq_false_2 by done.
  assert (e ∈ q a LFds) as He by (rewrite Hq; set_solver). pose proof (fd_member_pos k a e Hk He) as He0.
  destruct (waiting_elem _ _ _ _ _ _ _ _ _ Hi He) as (f & kk & el' & Hef & Hf & Hc & _ & Hel' & Hy & Hfd).
  rewrite Hel in Hel'. injection Hel' as <-. rewrite (it_at_value _ _ _ Hit). cbn [head_or head default].
  pose proof (ai_nodup Hi LFds) as Hnd. rewrite Hq in Hnd.
  apply wp_bind. eapply wp_elem; [done..|]. unfold a_deliver1. rewrite Hel. fold (ready_in r w x el).
  destruct (ready_in r w x el) eqn:Hr.
  - rewrite orb_true_r. rewrite Hq, filter_mid by done. apply wp_bind. eapply wp_update; [done|cbn; by rewrite (kr_fds _ _ _ Hk)|].
    fold (reported r w x el). pose proof (krep_set_elem ly k a e el (reported r w x el) Hk Hel) as Hk1.
    apply wp_bind. eapply (krep_fd_next ly _ _ Hk1); [exact Hq|exact Hit|]. intros it' Hit'.
    apply wp_bind. eapply (krep_fd_erase ly Hly _ _ Hk1); [exact Hq|exact Hit|]. intros l Hk2.
    destruct (loc_fiber _ _ _ _ Hi Hf) as (Hff & _).
    pose proof (ai_aio Hi) as Ha. pose proof (fds_length ly _ _ Hk) as Hlen. rewrite Hq, length_app in Ha, Hlen. cbn in Ha, Hlen.
    rewrite Hy. apply wp_bind. eapply wp_fiber; [exact Hk2|exact Hff|]. intros y ->.
    apply wp_bind. eapply wp_scheduler_of; [done|exact Hk2|].
    apply wp_bind. eapply (dfk__ioresume_spec ly Hly); [exact Hk2|done| |cbn; lia|].
    + intros n Hnf. rewrite q_set_ne by done. intros Hin. apply (ai_queued Hi) in Hin; [|done]. congruence.
    + intros k' Hk'. apply wp_ret. exists it', pre. split; [done|]. split; [exact Hk'|]. split.
      * cbn. rewrite decide_False, decide_True by done. done.
      * by eapply it_stable.
  - rewrite orb_false_r. apply wp_bind. eapply (krep_fd_next ly _ _ Hk); [exact Hq|exact Hit|]. intros it' Hit'.
    apply wp_ret. exists it', (pre ++ [e]). rewrite <- app_assoc. by split_and!.
Qed.

Lemma deliver_spec k a loc (fuel : nat) it0 end_ (Q : bool -> kmem Mem -> Prop) :
  krep k a -> ainv a loc -> no_hand loc -> it_at it0 [] (q a LFds) -> it_at end_ (q a LFds) [] ->
  (length (q a LFds) < fuel)%nat ->
  (forall k', krep k' (a_deliver r w x (q a LFds) a) ->
     Q (existsb (elem_ready r w x a) (q a LFds)) k') ->
  wp (loop fuel (deliver_body LOOP r w x end_) (it0, false)) k Q.
Proof using Hly IterStable0.
  intros Hk Hi Hn Hit0 Hend Hfuel HQ. pose proof (ai_nodup Hi LFds) as Hnd. set (es := q a LFds) in *.
  apply (wp_loop (fun n st k' => exists done rest pre, es = done ++ rest /\ n = length rest /\
    krep k' (a_deliver r w x done a) /\ q (a_deliver r w x done a) LFds = pre ++ rest /\
    it_at st.1 pre rest /\ st.2 = existsb (elem_ready r w x a) done)) with (n := length es); [| |done].
  2: { exists [], es, []. by split_and!. }
  intros n [it any] k' (dn & rest & pre & Hes & -> & Hk' & Hq & Hit & Hany). cbn in Hit, Hany.
  assert (NoDup dn /\ (forall e, e ∈ dn -> e ∈ q a LFds)) as [Hnd' Hsub].
  { rewrite Hes in Hnd. apply NoDup_app in Hnd as (? & _ & _). split; [done|].
    intros e He. fold es. rewrite Hes. set_solver. }
  destruct (deliver_keeps _ _ _ _ _ _ _ r w x dn a loc Hi Hn Hnd' Hsub) as (loc' & Hi' & Hn').
  destruct rest as [|e suf].
  - rewrite app_nil_r in Hes. subst dn. eapply wp_mono.
    + unfold deliver_body. apply wp_bind.
      eapply (krep_fd_equal ly k' _ Hk' it pre [] end_ (q (a_deliver r w x es a) LFds) []);
        [done|by rewrite app_nil_r|done|by eapply it_stable|].
      rewrite bool_decide_eq_true_2 by done. apply wp_ret.
      instantiate (1 := fun r k'' => r = inr any /\ k'' = k'). done.
    + intros ? ? [-> ->]. rewrite Hany. by apply HQ.
  - assert (e ∈ q (a_deliver r w x dn a) LFds) as He by (rewrite Hq; set_solver).
    destruct (waiting_elem _ _ _ _ _ _ _ _ _ Hi' He) as (f & kk & el & _ & _ & _ & _ & Hel & _).
    eapply wp_mono.
    { eapply deliver_body_spec; [exact Hk'|exact Hi'|exact Hn'|exact Hq|exact Hit| |exact Hel]. by eapply it_stable. }
    intros res k'' (it' & pre' & -> & Hk'' & Hq'' & Hit'). exists (length suf). split; [cbn; lia|].
    exists (dn ++ [e]), suf, pre'. rewrite deliver_snoc, <- app_assoc. split_and!; [done..|].
    cbn. rewrite existsb_app, Hany. cbn. rewrite orb_false_r. f_equal. unfold elem_ready.
    rewrite deliver_elems in Hel; [by rewrite Hel|]. rewrite Hes in Hnd. apply NoDup_app in Hnd as (_ & Hd & _).
    intros Hin. by apply (Hd e Hin), list_elem_of_here.
Qed.

End deliver.

(** ** The slices of the event loop *)

Lemma krep_count k a : krep k a -> krep (count_select k) a.
Proof. intros Hk. split; apply Hk. Qed.

Lemma eventloop_live a loc : ainv a loc -> cur a = EF -> SF ∈ fibers a /\ cur a ∈ fibers a /\ cur a <> SF.
Proof.
  intros Hi ->. rewrite (ai_fibers Hi). destruct (ai_system Hi) as (Hne & _). split_and!; [set_solver..|congruence].
Qed.

Lemma dfk__eventloop_start_spec k a (Q : unit -> kmem Mem -> Prop) : krep k a ->
  SF ∈ fibers a -> cur a ∈ fibers a -> cur a <> SF ->
  (forall b k', calls SF frame a (LoopStart LOOP) b -> krep k' b -> Q tt k') ->
  wp (dfk__eventloop_start LOOP D (cur a)) k Q.
Proof using Hly.
  intros Hk HS Hc Hne HQ. pose proof (fiber_pos ly k a _ Hk Hc). unfold dfk__eventloop_start.
  destruct (lo_ne _ Hly) as (_ & _ & HL). apply wp_bind, wp_assert; [apply nonnull_true; lia|].
  apply wp_bind. eapply wp_loop_obj; [done|done|]. cbn [l_dfk].
  apply wp_bind, wp_assert; [apply Z.eqb_refl|].
  apply wp_bind. eapply wp_code; [done|lia|]. intros k1 Hk1.
  apply wp_bind. eapply (krep_empty ly k1 _ LFds); [done|done|]. cbn [set_code q].
  destruct (q a LFds) as [|e es] eqn:Hq.
  - rewrite bool_decide_eq_true_2 by done. apply wp_when_true; [done|].
    apply wp_bind. eapply wp_scheduler_of; [done|done|].
    eapply dfk__suspend_spec; [done|exact Hk1|done..|]. intros k' Hk'. eapply HQ; [|exact Hk'].
    by apply calls_loop_idle.
  - rewrite bool_decide_eq_false_2 by done. apply wp_when_false; [done|]. eapply HQ; [|exact Hk1].
    apply calls_loop_start. by rewrite Hq.
Qed.

(** [select] is given no closed descriptor, so it only reports interrupts. *)
Definition no_select_error (select : nat -> Z -> list Z -> list Z -> list Z -> select_result) : Prop :=
  forall n maxfd r w x e, select n maxfd r w x <> SelError e.

Lemma dfk__eventloop_select_spec `{!IterStable Mem It} select (fuel : nat) k a loc
    (Q : unit -> kmem Mem -> Prop) :
  no_select_error select -> krep k a -> ainv a loc -> no_hand loc -> cur a = EF ->
  (length (q a LFds) < fuel)%nat ->
  (forall b k', calls SF frame a (LoopSelect LOOP) b -> krep k' b -> Q tt k') ->
  wp (dfk__eventloop_select select fuel LOOP D (cur a)) k Q.
Proof using Hly.
  intros Hse Hk Hi Hn Hef Hfuel HQ. destruct (eventloop_live a loc Hi Hef) as (HS & Hc & Hne).
  pose proof (fiber_pos ly k a _ Hk Hc). unfold dfk__eventloop_select.
  apply wp_bind. eapply (krep_begin ly k a LFds); [done|done|]. intros it Hit.
  apply wp_bind. eapply (krep_end ly k a LFds); [done|done|]. intros end_ Hend.
  cbn [hk] in Hit, Hend. rewrite list_fmap_id in Hit, Hend.
  apply wp_bind. eapply collect_spec; [done| |done|done| |done].
  { intros e He. destruct (waiting_elem _ _ _ _ _ _ _ _ _ Hi He) as (f & kk & el & _ & _ & _ & _ & ? & _ & ?).
    by exists el. }
  intros [[[r0 w0] x0] maxfd]. apply wp_bind, wp_gets. apply wp_bind, wp_modify.
  pose proof (krep_count _ _ Hk) as Hk0. pose proof (Hse (k_selects k) (maxfd + 1) r0 w0 x0) as He.
  destruct (select (k_selects k) (maxfd + 1) r0 w0 x0) as [r w x| |errno]; [|..|by destruct (He errno)].
  2: { eapply wp_code; [done|lia|]. intros k' Hk'. eapply HQ; [apply calls_select_intr|exact Hk']. }
  apply wp_bind. eapply wp_code; [exact Hk0|lia|]. intros k1 Hk1.
  assert (forall k' b, krep k' b -> b = a_ready SF r w x (set_code (cur a) (LoopStart LOOP) a) -> Q tt k') as HQ'.
  { intros k' b Hk' ->. eapply HQ; [apply calls_select|exact Hk']. }
  assert (ainv (set_code (cur a) (LoopStart LOOP) a) loc) as Hi1.
  { rewrite Hef. apply ainv_loop_code; auto. }
  unfold a_ready in HQ'. case_match.
  { apply wp_bind. eapply wp_scheduler_of; [done|exact Hk1|].
    eapply dfk__suspend_spec; [done|exact Hk1|done..|]. intros k' Hk'. by eapply HQ'. }
  apply wp_bind. eapply (krep_begin ly k1 _ LFds); [exact Hk1|done|]. intros it1 Hit1.
  apply wp_bind. eapply (krep_end ly k1 _ LFds); [exact Hk1|done|]. intros end1 Hend1.
  cbn [hk] in Hit1, Hend1. rewrite list_fmap_id in Hit1, Hend1.
  apply wp_bind. eapply deliver_spec; [exact Hk1|exact Hi1|done|exact Hit1|exact Hend1|done|].
  intros k2 Hk2. destruct (existsb _ _) eqn:Hany.
  - apply wp_when_true; [done|]. apply wp_bind. eapply wp_scheduler_of; [done|exact Hk2|].
    set (a1 := set_code (cur a) (LoopStart LOOP) a) in *.
    destruct (deliver_fields r w x a1 (q a1 LFds)) as (E1 & E2 & _).
    eapply dfk__suspend_spec; [done|exact Hk2|..].
    + by rewrite E1.
    + by rewrite E1, E2.
    + by rewrite E2.
    + intros k' Hk'. by eapply HQ'.
  - apply wp_when_false; [done|]. eapply HQ'; [exact Hk2|].
    assert (forall es b, existsb (elem_ready r w x b) es = false -> a_deliver r w x es b = b) as Hid.
    { clear. induction es as [|e es IH]; intros b; [done|]. cbn. intros [H1 H2]%orb_false_iff.
      fold (a_deliver r w x es (a_deliver1 r w x b e)). unfold elem_ready in H1. unfold a_deliver1.
      destruct (elems b !! e); [rewrite H1|]; by apply IH. }
    by apply Hid.
Qed.

End eventloop.
