(* ===== verification/RuntimeSpawn.v ===== *)
(** * Birth and death of fibers, and the abstract state *)

From S2P Require Import Prelude Bytes ListSpec ListSeg Error Misc Fiber Sync Select Scheduler.
From S2P Require Import Runtime RuntimeStep RuntimeSched RuntimeSim RuntimeOps RuntimeIo.

Open Scope Z_scope.

Section spawn.
Context (ly : layout).
#[local] Notation D := (l_dfk_at ly).
#[local] Notation SCH := (l_sched ly).
#[local] Notation SF := (l_sfiber ly).
#[local] Notation stack := (l_stack ly).
#[local] Notation frame := (frame_at ly).
#[local] Notation krep := (krep ly).
#[local] Notation laddr := (laddr ly).

Context `{Mem : Type, It : Type, !ListOps Mem It, !ListLaws Mem It}.
Context (Hly : layout_ok ly).
Implicit Types k : kmem Mem.

(** Only the scheduler's local list ever survives a call. *)
Definition quiet (a : astate) : Prop := forall f, f <> SF -> q a (LLocal f) = [].

Lemma stack_pos : 0 < stack.
Proof using Hly.
  pose proof (lo_stack _ Hly). pose proof (lo_guard _ Hly). unfold FIBER_T, STACK_ALIGNMENT in *. lia.
Qed.

(** ** A new block *)

Section block.
Context k a p m' (Hk : krep k a) (Hal : allocated (k_bytes k) p stack m').

Lemma new_not_fiber : p ∉ fibers a.
Proof using Hk Hal.
  intros Hp. destruct (kr_blocks _ _ _ Hk p Hp) as (_ & _ & _ & Hb & _).
  pose proof (al_new _ _ _ _ Hal). congruence.
Qed.

Lemma new_apart f : f ∈ fibers a -> f + stack <= p \/ p + stack <= f.
Proof using Hk Hal Hly.
  intros Hf. destruct (kr_blocks _ _ _ Hk f Hf) as (_ & _ & _ & _ & Hr). pose proof stack_pos.
  destruct (allocated_apart _ _ _ _ f stack Hal) as [?|[?|?]]; [lia|lia|done|lia|by left|by right].
Qed.

Lemma new_static n : static ly n -> ~ in_block ly p (laddr n).
Proof using Hk Hal.
  intros Hn Hin. destruct (kr_statics _ _ _ Hk n Hn) as [[c Hc] _].
  pose proof (al_fresh _ _ _ _ Hal (laddr n - p)) as Hf. unfold in_block in Hin.
  rewrite Zplus_minus in Hf. rewrite Hf in Hc by lia. done.
Qed.

Lemma in_own_block f x : FIBER_T <= x < stack \/ x = 16 -> in_block ly f (f + x).
Proof using Hly.
  pose proof (lo_stack _ Hly). pose proof (lo_guard _ Hly). unfold in_block, FIBER_T, STACK_ALIGNMENT in *. lia.
Qed.

Lemma new_hook_unchained σ : lists_ok ly a σ -> unchained σ (f_hook p).
Proof using Hk Hal Hly.
  intros Hσ. pose proof (in_own_block p 16 ltac:(by right)) as Hp. fold (f_hook p) in Hp.
  assert (forall g x, g ∈ fibers a -> in_block ly g x -> f_hook p <> x) as Hno.
  { intros g x Hg Hx <-. pose proof (new_apart g Hg). unfold in_block in *. lia. }
  assert (forall g, g ∈ fibers a -> f_hook p <> f_hook g /\ f_hook p <> frame g) as Hg.
  { intros g Hg. split; apply (Hno g); try done.
    - apply in_own_block. by right.
    - unfold frame_at. apply in_own_block. left. apply (lo_frame _ Hly). }
  assert (forall n, n <> LFds -> f_hook p ∉ f_hook <$> q a n) as Hq.
  { intros n Hn (g & E & Hin)%list_elem_of_fmap. destruct (Hg g) as [? _]; [|done].
    by eapply (kr_members _ _ _ Hk). }
  intros l xs Hx Hin. destruct (lk_only _ _ _ Hσ l xs Hx) as [(n & Hs & ->)|[(g & Hgf & ->)| ->]].
  - rewrite (lk_static _ _ _ Hσ n Hs) in Hx. injection Hx as <-. destruct (decide (n = LFds)) as [->|Hn].
    + cbn in Hin. rewrite list_fmap_id in Hin. destruct (kr_fd_members _ _ _ Hk _ Hin) as (g & Hgf & E).
      by destruct (Hg g Hgf).
    + apply (Hq n Hn). by destruct n.
  - pose proof (lk_local _ _ _ Hσ g Hgf) as Hl. rewrite Hx in Hl. cbn in Hl. subst xs. by apply (Hq (LLocal g)).
  - by apply not_elem_of_nil in Hin.
Qed.

(** The memory in which the new fiber is. *)
Definition born (l : Mem) (farg : Z) (c : code) : kmem Mem :=
  let k1 := lset klists l (lset kbytes m' k) in
  let k2 := hset fibers_of (<[p := FiberObj D farg]> (k_fibers k1)) k1 in
  hset ctx_of (<[p := c]> (k_ctx k2)) k2.

Lemma krep_born σ l farg c : quiet a -> SF ∈ fibers a -> lists_ok ly a σ ->
  lrep l (LSpec (chains σ) (release (f_hook p) σ)) -> krep (born l farg c) (add_fiber p c a).
Proof using Hk Hal Hly.
  intros Hqu HS Hσ Hl. pose proof new_not_fiber as Hp. pose proof stack_pos as Hst.
  assert (forall f, f ∈ fibers a -> f <> p) as Hne by by intros f Hf ->.
  split; cbn [born add_fiber]; try apply Hk.
  - cbn. by rewrite (kr_ctx _ _ _ Hk).
  - intros f. cbn. rewrite elem_of_union, elem_of_singleton, lookup_insert_is_Some, (kr_fibers _ _ _ Hk f).
    destruct (decide (p = f)); naive_solver.
  - intros f fo. cbn. rewrite lookup_insert_Some. intros [[_ <-]|[_ Hf]]; [done|by eapply (kr_fiber_dfk _ _ _ Hk)].
  - intros f [->%elem_of_singleton|Hf]%elem_of_union; cbn.
    + destruct Hal as [H1 H2 H3 H4 H5 ->]. split_and!; [done..| |].
      * cbn. by rewrite lookup_insert_eq.
      * eapply allocated_room; [by split|lia].
    + destruct (kr_blocks _ _ _ Hk f Hf) as (H1 & H2 & H3 & H4 & H5). split_and!; [done..| |].
      * destruct Hal as [_ _ _ _ _ ->]. cbn. rewrite lookup_insert_ne; [done|]. intros <-. by apply (Hne p).
      * eapply room_same; [|exact H5]. eapply same_allocated; [exact Hal|lia|]. right. by apply new_apart.
  - intros f g [->%elem_of_singleton|Hf]%elem_of_union [->%elem_of_singleton|Hg]%elem_of_union Hfg; try done.
    + destruct (new_apart g Hg); auto.
    + by apply new_apart.
    + by apply (kr_apart _ _ _ Hk).
  - intros n Hn. destruct (kr_statics _ _ _ Hk n Hn) as [Hc Hs]. split; cbn.
    + erewrite cells_allocated; [exact Hc|exact Hal|lia|]. by apply new_static.
    + intros f [->%elem_of_singleton|Hf]%elem_of_union HfS; [by apply new_static|by apply Hs].
  - intros n f Hn Hf. apply elem_of_union. right. by eapply (kr_members _ _ _ Hk).
  - intros e He. destruct (kr_fd_members _ _ _ Hk e He) as (f & Hf & ->). exists f. set_solver.
  - intros e el He. destruct (kr_elems _ _ _ Hk e el He) as (f & Hf & ->). exists f. set_solver.
  - exists (LSpec (chains σ) (release (f_hook p) σ)). split; [done|]. split; cbn; try apply Hσ.
    + intros f [->%elem_of_singleton|Hf]%elem_of_union; [|by apply Hσ].
      rewrite Hqu by (intros ->; done). destruct (chains σ !! frame p) as [xs|] eqn:Hx; [|done].
      destruct (lk_only _ _ _ Hσ _ _ Hx) as [(n & Hn & E)|[(g & Hg & E)| ->]]; [..|done].
      * exfalso. apply (new_static n Hn). rewrite <- E. by apply frame_in.
      * apply frame_at_inj in E as ->. done.
    + intros l' xs Hx. destruct (lk_only _ _ _ Hσ l' xs Hx) as [?|[(g & Hg & ->)|?]]; auto.
      right. left. exists g. set_solver.
    + intros f [->%elem_of_singleton|Hf]%elem_of_union Hu; unfold release; set_unfold; [auto|left].
      by apply (lk_spare _ _ _ Hσ).
    + intros e el He Hne'. unfold release. apply elem_of_union. left. by eapply (lk_elems _ _ _ Hσ).
Qed.
End block.

(** ** [dfk__fiber_free] *)

Lemma dfk__fiber_free_spec k a f (Q : unit -> kmem Mem -> Prop) : krep k a -> f ∈ fibers a -> f <> SF ->
  quiet a -> unqueued a f -> frame f ∉ q a LFds -> elems a !! frame f = None ->
  (forall k', krep k' (del_fiber f a) -> blocks (k_bytes k') !! f = None -> Q tt k') ->
  wp (dfk__fiber_free D f) k Q.
Proof using Hly.
  intros Hk Hf HS Hqu Hu Hfd Hel HQ. destruct (kr_blocks _ _ _ Hk f Hf) as (H0 & Ha & He & Hb & Hr).
  destruct (kr_lists _ _ _ Hk) as (σ & Hl & Hσ). pose proof stack_pos as Hst.
  assert (is_Some (k_fibers k !! f)) as [fo Hfo] by (by apply (kr_fibers _ _ _ Hk)).
  unfold dfk__fiber_free. apply wp_bind, wp_zoom. eapply wp_free; [done..|].
  apply wp_bind, wp_zoom. eapply wp_mono.
  { eapply law_hook_dispose; [exact Hl|]. by apply (lk_spare _ _ _ Hσ). }
  intros [] l Hl'. eapply wp_dispose; [exact Hfo|]. apply HQ; [|cbn; by rewrite lookup_delete_eq]. cbn [hget hset lset lget kbytes klists fibers_of].
  assert (forall n g, n <> LFds -> g ∈ q a n -> g <> f) as Hnf by (by intros n g Hn Hg ->; apply (Hu n)).
  split; cbn [del_fiber]; try apply Hk.
  - intros g. cbn. rewrite elem_of_difference, not_elem_of_singleton, lookup_delete_is_Some, (kr_fibers _ _ _ Hk g).
    naive_solver.
  - intros g go. cbn. rewrite lookup_delete_Some. intros [_ Hg]. by eapply (kr_fiber_dfk _ _ _ Hk).
  - intros g [Hg Hne%not_elem_of_singleton]%elem_of_difference.
    destruct (kr_blocks _ _ _ Hk g Hg) as (? & ? & ? & Hgb & Hgr). split_and!; [done..| |]; cbn.
    + by rewrite lookup_delete_ne.
    + eapply room_same; [|exact Hgr]. apply same_removed; [lia|]. right.
      destruct (kr_apart _ _ _ Hk g f Hg Hf Hne); auto.
  - intros g h [Hg _]%elem_of_difference [Hh _]%elem_of_difference. by apply (kr_apart _ _ _ Hk).
  - intros n Hn. destruct (kr_statics _ _ _ Hk n Hn) as [Hc Hs]. split.
    + cbn -[remove_block]. rewrite cells_remove_block by lia. rewrite decide_False; [done|]. by apply Hs.
    + intros g [Hg _]%elem_of_difference. by apply Hs.
  - intros n g Hn Hg. apply elem_of_difference. split; [by eapply (kr_members _ _ _ Hk)|].
    apply not_elem_of_singleton. by eapply Hnf.
  - intros e Hin. destruct (kr_fd_members _ _ _ Hk e Hin) as (g & Hg & ->). exists g. split; [|done].
    apply elem_of_difference. split; [done|]. apply not_elem_of_singleton. by intros ->.
  - intros e el Hin. destruct (kr_elems _ _ _ Hk e el Hin) as (g & Hg & ->). exists g. split; [|done].
    apply elem_of_difference. split; [done|]. apply not_elem_of_singleton. intros ->. cbn in Hin. congruence.
  - eexists. split; [exact Hl'|]. split; cbn; try apply Hσ.
    + intros g [Hg _]%elem_of_difference. by apply Hσ.
    + intros l' xs Hx. destruct (lk_only _ _ _ Hσ l' xs Hx) as [?|[(g & Hg & ->)|?]]; [by left| |by right; right].
      right. destruct (decide (g = f)) as [->|Hne]; [right|left; exists g; set_solver].
      pose proof (lk_local _ _ _ Hσ f Hf) as Hloc. rewrite Hx in Hloc. cbn in Hloc. subst xs.
      by rewrite Hqu.
    + intros g [Hg Hne%not_elem_of_singleton]%elem_of_difference Hug. unfold occupy. apply elem_of_difference.
      split; [by apply (lk_spare _ _ _ Hσ)|]. intros E%elem_of_singleton. unfold f_hook in E. apply Hne. lia.
    + intros e el Hin Hne. unfold occupy. apply elem_of_difference. split; [by eapply (lk_elems _ _ _ Hσ)|].
      intros ->%elem_of_singleton. destruct (kr_elems _ _ _ Hk _ _ Hin) as (g & Hg & E).
      by eapply (hook_frame ly Hly k a f g).
Qed.

(** ** [dfk__spawn] *)

Lemma krep_errno k a d e : krep k a -> k_dfks k !! D = Some d ->
  krep (hset dfks_of (<[D := set_errno e d]> (k_dfks k)) k) a.
Proof.
  intros Hk Hd. destruct (kr_dfk _ _ _ Hk) as (d' & Hd' & H1 & H2 & H3). rewrite Hd in Hd'. injection Hd' as <-.
  split; try apply Hk. exists (set_errno e d). cbn. by rewrite lookup_insert_eq.
Qed.

Lemma align_stack_lt p : 0 <= p -> p <= align_stack p < p + STACK_ALIGNMENT.
Proof.
  intros Hp. unfold align_stack, STACK_ALIGNMENT. pose proof (Z.mod_pos_bound p 16 ltac:(lia)).
  destruct (p mod 16 =? 0) eqn:E; lia.
Qed.

Context (malloc : bmem -> Z -> Z) (Hmalloc : malloc_ok malloc).

Lemma dfk__spawn_spec k a ep arg (Q : Z -> kmem Mem -> Prop) : krep k a -> quiet a -> SF ∈ fibers a ->
  (forall k', krep k' a -> Q 0 k') ->
  (forall p k', p <> 0 -> p ∉ fibers a -> krep k' (add_fiber p (ep arg) a) -> Q p k') ->
  wp (dfk__spawn malloc (l_guard ly) D ep arg 0) k Q.
Proof using Hly Hmalloc.
  intros Hk Hqu HS H0 HQ. destruct (kr_dfk _ _ _ Hk) as (d & Hd & _ & _ & Hsz). destruct (lo_ne _ Hly) as (HD & _).
  pose proof stack_pos as Hst. unfold dfk__spawn. apply wp_bind, wp_assert; [apply nonnull_true; lia|].
  apply wp_bind. eapply wp_deref; [lia|exact Hd|]. rewrite Hsz. apply wp_bind, wp_zoom.
  eapply wp_malloc; [done|done| |].
  - cbv beta. apply wp_if_true; [done|]. apply wp_bind.
    replace (lset kbytes (lget kbytes k) k) with k by by destruct k.
    eapply wp_update; [lia|exact Hd|]. apply wp_ret, H0. by apply krep_errno.
  - intros p m' Hal. pose proof (al_pos _ _ _ _ Hal) as Hp. pose proof (al_end _ _ _ _ Hal) as Hend.
    destruct (kr_lists _ _ _ Hk) as (σ & Hl & Hσ).
    apply wp_if_false; [apply isnull_false; lia|]. apply wp_bind. apply wp_if_false; [done|]. apply wp_ret.
    apply wp_bind, wp_zoom. eapply wp_mono.
    { eapply law_hook_init; [exact Hl| |by eapply new_hook_unchained].
      unfold valid_addr, f_hook, USER_END, SIZE_MOD, SIZE_BITS in *. pose proof (lo_stack _ Hly).
      pose proof (lo_guard _ Hly). unfold FIBER_T, STACK_ALIGNMENT in *. lia. }
    intros [] l Hl'. apply wp_bind, wp_store; [lia|]. apply wp_bind, wp_assert.
    { apply Z.ltb_lt. pose proof (lo_stack _ Hly). pose proof (lo_guard _ Hly).
      pose proof (align_stack_lt (p + FIBER_T + l_guard ly)). unfold FIBER_T, STACK_ALIGNMENT in *. lia. }
    apply wp_bind, wp_store; [lia|]. apply wp_ret. apply HQ; [lia|by eapply new_not_fiber|].
    by eapply (krep_born k a p m' Hk Hal σ l arg (ep arg)).
Qed.

Lemma dfk_spawn_spec k a ep arg (Q : Z -> kmem Mem -> Prop) : krep k a -> quiet a -> SF ∈ fibers a ->
  (forall k', krep k' a -> Q 0 k') ->
  (forall p k', p <> 0 -> p ∉ fibers a -> krep k' (a_spawn p (ep arg) a) -> Q p k') ->
  wp (dfk_spawn malloc (l_guard ly) D ep arg 0) k Q.
Proof using Hly Hmalloc.
  intros Hk Hqu HS H0 HQ. unfold dfk_spawn. apply wp_bind. eapply dfk__spawn_spec; [done..| |].
  - intros k' Hk'. apply wp_if_true; [done|]. by apply wp_ret, H0.
  - intros p k1 Hp0 Hp Hk1. apply wp_if_false; [by apply isnull_false|].
    destruct (kr_dfk _ _ _ Hk1) as (d & Hd & Hs & _). destruct (lo_ne _ Hly) as (HD & _).
    apply wp_bind. eapply wp_deref; [lia|exact Hd|]. rewrite Hs.
    apply wp_bind. eapply dfk__resume_spec; [done|exact Hk1|cbn; set_solver| |].
    + intros n Hn Hin. by apply Hp, (kr_members _ _ _ Hk n).
    + intros k' Hk'. apply wp_ret. by apply HQ.
Qed.

End spawn.
