(* ===== verification/RuntimeRun.v ===== *)
(** * A fiber's step refines the abstract one

    [step_refines]: from a good state the step of the executing fiber
    succeeds and does what its call does abstractly; the only failures are the
    assertions that a caller without the right to the call meets. *)

From S2P Require Import Prelude Bytes ListSpec ListSeg Error Misc Fiber Sync Select Scheduler.
From S2P Require Import Runtime RuntimeStep RuntimeSched RuntimeSim RuntimeOps RuntimeIo RuntimeLoop RuntimeSpawn.

Open Scope Z_scope.

Section run.
Context (ly : layout).
#[local] Notation D := (l_dfk_at ly).
#[local] Notation SCH := (l_sched ly).
#[local] Notation LOOP := (l_loop_at ly).
#[local] Notation SF := (l_sfiber ly).
#[local] Notation EF := (l_efiber ly).
#[local] Notation frame := (frame_at ly).
#[local] Notation krep := (krep ly).
#[local] Notation ainv := (ainv SF EF LOOP frame (l_mutexes ly) (l_conds ly)).
#[local] Notation executing := (executing SF EF frame (l_mutexes ly) (l_conds ly)).
#[local] Notation good := (good SF EF LOOP frame (l_mutexes ly) (l_conds ly)).
#[local] Notation user := (user (l_mutexes ly) (l_conds ly)).
#[local] Notation astep := (astep SF frame).
#[local] Notation calls := (calls SF frame).

Context `{Mem : Type, It : Type, !ListOps Mem It, !ListLaws Mem It}.
Context (Hly : layout_ok ly).
Implicit Types k : kmem Mem.

(** ** What the invariant gives the operations *)

Lemma ainv_quiet a loc : ainv a loc -> quiet ly a.
Proof.
  intros Hi f Hf. destruct (q a (LLocal f)) as [|g xs] eqn:Hq; [done|]. exfalso.
  assert (loc !! g = Some (Queued (LLocal f))) as Hg by (by eapply loc_queued).
  destruct (ai_code Hi _ _ Hg) as (c & _ & _ & E). by apply Hf.
Qed.

Lemma ainv_busy a loc : ainv a loc -> at_hand a loc -> busy ly a.
Proof.
  intros Hi Hh. destruct (loc_fiber _ _ _ _ Hi (at_hand_cur _ _ Hh)) as (Hc & Hs & _).
  split; [|done|done| |apply Hi|].
  - rewrite (ai_fibers Hi). set_solver.
  - intros n Hn. by eapply hand_not_queued.
  - intros n n' f Hn Hn' Hf Hf'. apply (ai_queued Hi) in Hf; [|done]. apply (ai_queued Hi) in Hf'; [|done]. congruence.
Qed.

Lemma nodup_size (xs : list Z) (X : gset Z) : NoDup xs -> (forall x, x ∈ xs -> x ∈ X) -> (length xs <= size X)%nat.
Proof.
  intros Hnd Hsub. rewrite <- (size_list_to_set (C := gset Z)) by done.
  apply subseteq_size. intros x. rewrite elem_of_list_to_set. apply Hsub.
Qed.

Lemma queue_size k a loc n : krep k a -> ainv a loc -> n <> LFds -> (length (q a n) <= size (fibers a))%nat.
Proof. intros Hk Hi Hn. apply nodup_size; [apply Hi|]. intros f. by apply (kr_members _ _ _ Hk). Qed.

Lemma fds_size k a loc : krep k a -> ainv a loc -> (length (q a LFds) <= size (fibers a))%nat.
Proof.
  intros Hk Hi. rewrite <- (length_fmap (fun e => e - l_frame ly)). apply nodup_size.
  - apply NoDup_fmap_2; [intros x y; lia|apply Hi].
  - intros f (e & -> & He)%list_elem_of_fmap. destruct (kr_fd_members _ _ _ Hk e He) as (g & Hg & ->).
    unfold frame_at. by replace (g + l_frame ly - l_frame ly) with g by lia.
Qed.

Lemma busy_code a f c : busy ly a -> busy ly (set_code f c a).
Proof. intros []. by split. Qed.

(** ** One step *)

Section step.
Context `{!IterStable Mem It}.
Context (malloc : bmem -> Z -> Z) (Hmalloc : malloc_ok malloc).
Context (select : nat -> Z -> list Z -> list Z -> list Z -> select_result) (Hselect : no_select_error select).
Context (fuel : nat).
#[local] Notation step := (step malloc (l_guard ly) frame select fuel).

Definition misused (a : astate) (e : fault) : Prop := e = AssertFailed /\ misuse a.

Section hand.
Context k a loc (Hk : krep k a) (Hi : ainv a loc) (Hh : at_hand a loc).

Lemma hand_elem : frame (cur a) ∉ q a LFds.
Proof using Hi Hh.
  intros Hin. apply (ai_waiting Hi) in Hin as (f & Hf%frame_at_inj & Hl). subst f.
  pose proof (at_hand_cur _ _ Hh). congruence.
Qed.

Lemma hand_owner m : m ∈ l_mutexes ly -> is_Some (owner a !! m).
Proof using Hi. intros Hm. apply elem_of_dom. by rewrite (ai_owner Hi). Qed.

Lemma hand_fiber : cur a ∈ fibers a /\ cur a <> SF /\ 0 < cur a.
Proof using Hk Hi Hh.
  destruct (loc_fiber _ _ _ _ Hi (at_hand_cur _ _ Hh)) as (Hc & Hs & _).
  split_and!; [done..|by eapply fiber_pos].
Qed.

(** The outcome of the call [c]. *)
Definition outcome (c : code) (k' : kmem Mem) : Prop := exists b, calls a c b /\ krep k' b.

(** The code is looked up, and replaced by what follows the call. *)
Ltac step_in Hc :=
  destruct hand_fiber as (Hf & Hs & H0); unfold Scheduler.step;
  apply wpe_bind_wp, wp_gets; rewrite (kr_at _ _ _ Hk);
  apply wpe_bind_wp; eapply wp_fiber; [exact Hk|exact Hf|]; intros fo ->;
  apply wpe_bind_wp; eapply wp_deref; [lia|cbn; rewrite (kr_ctx _ _ _ Hk); exact Hc|]; cbv zeta iota beta.
Ltac step_store k1 Hk1 := apply wpe_bind_wp; eapply wp_code; [exact Hk|lia|]; intros k1 Hk1.

Lemma misused_intro c : codes a !! cur a = Some c ->
  match c with
  | Unlock m _ | Wait _ m _ => owner a !! m <> Some (cur a)
  | MutexFree m _ => owner a !! m <> Some 0 \/ q a (LMutex m) <> []
  | CondFree c _ => q a (LCond c) <> []
  | _ => False
  end -> misused a AssertFailed.
Proof. intros Hc Hm. split; [done|by exists c]. Qed.

Section calls.
Context (c : code) (Hc : codes a !! cur a = Some c).
#[local] Notation holds := (wpe step (misused a) k (fun _ => outcome c)).

Lemma step_machine next s : c = Machine next s -> holds.
Proof using Hk Hi Hh Hc.
  intros ->. step_in Hc. apply wp_wpe. eapply wp_code; [exact Hk|lia|]. intros k1 Hk1.
  eexists. split; [apply calls_machine|exact Hk1].
Qed.

Lemma step_return : c = Return -> holds.
Proof using Hly Hk Hi Hh Hc.
  intros ->. pose proof (ainv_busy _ _ Hi Hh) as Hb. step_in Hc.
  apply wpe_bind_wp. eapply wp_scheduler_of; [done|done|]. apply wp_wpe.
  eapply dfk__terminate_spec; [done|done|apply Hb..|]. intros k' Hk'. eexists. split; [apply calls_return|done].
Qed.

Lemma step_mutex_free m cc : c = MutexFree m cc -> m ∈ l_mutexes ly -> holds.
Proof using Hly Hk Hi Hh Hc.
  intros -> Hm. destruct (hand_owner m Hm) as [o Ho]. step_in Hc. step_store k1 Hk1.
  eapply dfk_mutex_free_spec; [done|exact Hk1|done|exact Ho|..].
  - intros -> Hq. eexists. split; [by apply calls_mutex_free|exact Hk1].
  - intros Hor. apply (misused_intro _ Hc). rewrite Ho. destruct Hor as [Hne|Hq]; [left; by intros [= ->]|by right].
Qed.

Lemma step_lock m cc : c = Lock m cc -> m ∈ l_mutexes ly -> holds.
Proof using Hly Hk Hi Hh Hc.
  intros -> Hm. pose proof (ainv_busy _ _ Hi Hh) as Hb. step_in Hc. step_store k1 Hk1. apply wp_wpe.
  eapply dfk_mutex_lock_spec; [done|exact Hk1|by apply busy_code|done|by apply hand_owner|].
  intros k' Hk'. eexists. split; [apply calls_lock|exact Hk'].
Qed.

Lemma step_locked m cc : c = Locked m cc -> m ∈ l_mutexes ly -> owner a !! m = Some (cur a) -> holds.
Proof using Hly Hk Hi Hh Hc.
  intros -> Hm Ho. step_in Hc. step_store k1 Hk1.
  eapply dfk_mutex_locked_spec; [exact Hk1|by eapply mutex_nz|exact Ho| |done].
  intros _. eexists. split; [by apply calls_locked|exact Hk1].
Qed.

Lemma step_unlock m cc : c = Unlock m cc -> m ∈ l_mutexes ly -> holds.
Proof using Hly Hk Hi Hh Hc.
  intros -> Hm. pose proof (ainv_busy _ _ Hi Hh) as Hb. destruct (hand_owner m Hm) as [o Ho].
  step_in Hc. step_store k1 Hk1.
  eapply dfk_mutex_unlock_spec; [done|exact Hk1|by apply busy_code|done|exact Ho|..].
  - intros -> k' Hk'. eexists. split; [by apply calls_unlock|exact Hk'].
  - intros Hne. apply (misused_intro _ Hc). rewrite Ho. by intros [= ->].
Qed.

Lemma step_trylock m cc : c = Trylock m cc -> m ∈ l_mutexes ly -> holds.
Proof using Hly Hk Hi Hh Hc.
  intros -> Hm. pose proof (ainv_busy _ _ Hi Hh) as Hb. step_in Hc.
  apply wpe_bind_wp. eapply dfk_mutex_trylock_spec; [done|done|done|done|by apply hand_owner|].
  intros k1 Hk1. apply wp_wpe. eapply wp_code; [exact Hk1|lia|]. intros k' Hk'.
  eexists. split; [apply calls_trylock|exact Hk'].
Qed.

Lemma step_cond_free d cc : c = CondFree d cc -> d ∈ l_conds ly -> holds.
Proof using Hly Hk Hi Hh Hc.
  intros -> Hd. step_in Hc. step_store k1 Hk1. eapply dfk_cond_free_spec; [done|exact Hk1|done|..].
  - intros Hq. eexists. split; [by apply calls_cond_free|exact Hk1].
  - intros Hq. apply (misused_intro _ Hc). exact Hq.
Qed.

Lemma step_wait d m cc : c = Wait d m cc -> d ∈ l_conds ly -> m ∈ l_mutexes ly -> holds.
Proof using Hly Hk Hi Hh Hc.
  intros -> Hd Hm. pose proof (ainv_busy _ _ Hi Hh) as Hb. destruct (hand_owner m Hm) as [o Ho].
  step_in Hc. step_store k1 Hk1.
  eapply dfk_cond_wait_spec; [done|exact Hk1|by apply busy_code|done|cbn; by rewrite (ai_conds Hi)|done|exact Ho|..].
  - intros -> k' Hk'. eexists. split; [by apply calls_wait|exact Hk'].
  - intros Hne. apply (misused_intro _ Hc). rewrite Ho. by intros [= ->].
Qed.

Lemma step_signal d cc : c = Signal d cc -> d ∈ l_conds ly -> holds.
Proof using Hly Hk Hi Hh Hc.
  intros -> Hd. pose proof (ainv_busy _ _ Hi Hh) as Hb. step_in Hc. step_store k1 Hk1. apply wp_wpe.
  eapply dfk_cond_signal_spec; [done|exact Hk1|by apply busy_code|done|cbn; by rewrite (ai_conds Hi)|].
  intros k' Hk'. eexists. split; [apply calls_signal|exact Hk'].
Qed.

Lemma step_broadcast d cc : c = Broadcast d cc -> d ∈ l_conds ly -> (size (fibers a) < fuel)%nat -> holds.
Proof using Hly Hk Hi Hh Hc.
  intros -> Hd Hfuel. pose proof (ainv_busy _ _ Hi Hh) as Hb. pose proof (queue_size k a loc (LCond d) Hk Hi ltac:(done)).
  step_in Hc. step_store k1 Hk1. apply wp_wpe.
  eapply dfk_cond_broadcast_spec; [done|exact Hk1|by apply busy_code|done|cbn; by rewrite (ai_conds Hi)|..].
  - by apply (ainv_quiet _ _ Hi).
  - cbn. lia.
  - intros k' Hk'. eexists. split; [apply calls_broadcast|exact Hk'].
Qed.

Lemma step_spawn ep arg cc : c = Spawn ep arg 0 cc -> holds.
Proof using Hly Hk Hi Hh Hc Hmalloc.
  intros ->. pose proof (ainv_busy _ _ Hi Hh) as Hb. step_in Hc.
  apply wpe_bind_wp. eapply dfk_spawn_spec; [done|done|done|by eapply ainv_quiet|apply Hb|..].
  - intros k1 Hk1. apply wp_wpe. eapply wp_code; [exact Hk1|lia|]. intros k' Hk'.
    eexists. split; [apply calls_spawn_fail|exact Hk'].
  - intros p k1 Hp0 Hp Hk1. apply wp_wpe. eapply wp_code; [exact Hk1|lia|]. intros k' Hk'.
    eexists. split; [by apply (calls_spawn SF frame a ep arg 0 cc p)|exact Hk'].
Qed.

Lemma step_postpone cc : c = Postpone cc -> holds.
Proof using Hly Hk Hi Hh Hc.
  intros ->. pose proof (ainv_busy _ _ Hi Hh) as Hb. step_in Hc. step_store k1 Hk1.
  apply wpe_bind_wp. eapply wp_scheduler_of; [done|done|]. apply wp_wpe.
  eapply dfk__postpone_spec; [done|exact Hk1|apply Hb..|]. intros k' Hk'. eexists. split; [apply calls_postpone|exact Hk'].
Qed.

Lemma step_io fd ev cc : c = Io fd ev cc -> fd <> 0 -> holds.
Proof using Hly Hk Hi Hh Hc.
  intros -> Hfd. pose proof (ainv_busy _ _ Hi Hh) as Hb. step_in Hc. step_store k1 Hk1.
  destruct (kr_dfk _ _ _ Hk1) as (d & Hd & _ & Hel & _). destruct (lo_ne _ Hly) as (HD & _).
  apply wpe_bind_wp. eapply wp_deref; [lia|exact Hd|]. rewrite Hel. apply wp_wpe.
  eapply dfk__io_spec; [done|exact Hk1|by apply busy_code|done|by apply hand_elem|apply (ai_aio Hi)|].
  intros k' Hk'. eexists. split; [apply calls_io|exact Hk'].
Qed.

Lemma step_io_done cc el : c = IoDone (frame (cur a)) cc -> elems a !! frame (cur a) = Some el -> holds.
Proof using Hly Hk Hi Hh Hc.
  intros -> Hel. step_in Hc. apply wpe_bind_wp.
  eapply dfk__io_done_spec; [done|done|exact Hf|exact Hel|by apply hand_elem|].
  intros k1 Hk1. apply wp_wpe. eapply wp_code; [exact Hk1|lia|]. intros k' Hk'.
  eexists. split; [by apply calls_io_done|exact Hk'].
Qed.
End calls.

Lemma hand_step c : codes a !! cur a = Some c -> runnable frame (l_mutexes ly) (l_conds ly) a (cur a) c ->
  (size (fibers a) < fuel)%nat -> wpe step (misused a) k (fun _ => outcome c).
Proof using Hly Hk Hi Hh Hmalloc.
  intros Hc Hr Hfuel. destruct Hr as [c Hu|m cc Hm Hk0 Ho|cc el _ Hel].
  - destruct Hu; eauto using step_machine, step_return, step_mutex_free, step_lock, step_unlock, step_trylock,
      step_cond_free, step_wait, step_signal, step_broadcast, step_spawn, step_postpone.
    eapply step_io; [done|done|lia].
  - by eapply step_locked.
  - by eapply step_io_done.
Qed.

End hand.

(** The event loop's step. *)
Lemma loop_step k a loc : krep k a -> ainv a loc -> no_hand loc -> cur a = EF ->
  (size (fibers a) < fuel)%nat ->
  wp step k (fun _ k' => exists b, astep a b /\ krep k' b).
Proof using Hly Hselect IterStable0.
  intros Hk Hi Hn Hef Hfuel. destruct (eventloop_live ly Hly a loc Hi Hef) as (HS & Hf & Hs).
  pose proof (fiber_pos _ _ _ _ Hk Hf) as H0. pose proof (fds_size k a loc Hk Hi).
  unfold Scheduler.step. apply wp_bind, wp_gets. rewrite (kr_at _ _ _ Hk).
  apply wp_bind. eapply wp_fiber; [exact Hk|exact Hf|]. intros fo ->.
  assert (exists c, codes a !! cur a = Some c /\ (c = LoopStart LOOP \/ c = LoopSelect LOOP)) as (c & Hc & Hor).
  { rewrite Hef. destruct (ai_loop Hi); eauto. }
  apply wp_bind. eapply wp_deref; [lia|cbn; rewrite (kr_ctx _ _ _ Hk); exact Hc|]. cbv zeta.
  destruct Hor as [-> | ->].
  - eapply dfk__eventloop_start_spec; [done|done|done..|]. intros b k' Hb Hk'. exists b. split; [|done].
    split; [done|by eexists].
  - eapply dfk__eventloop_select_spec; [done|done|done|done|done|done|done|lia|]. intros b k' Hb Hk'. exists b.
    split; [|done]. split; [done|by eexists].
Qed.

Lemma step_refines k a : krep k a -> good a -> cur a <> SF -> (size (fibers a) < fuel)%nat ->
  wpe step (misused a) k (fun _ k' => exists b, astep a b /\ krep k' b).
Proof using Hly Hselect IterStable0 Hmalloc.
  intros Hk (loc & Hi & He) Hs Hfuel.
  destruct (executing_cases _ _ _ _ _ _ _ _ _ Hi He Hs) as [[Hef Hn]|(Hh & c & Hc & Hr & _)].
  - by eapply wp_wpe, loop_step.
  - eapply wpe_mono; [by eapply (hand_step k a loc)|]. intros _ k' (b & Hb & Hk'). exists b. split; [|done].
    split; [done|by exists c].
Qed.

End step.
End run.
