(* ===== verification/RuntimeMain.v ===== *)
(** * The scheduler refines its abstract iteration *)

From S2P Require Import Prelude Bytes ListSpec ListSeg Error Misc Fiber Sync Select Scheduler Fuel.
From S2P Require Import Runtime RuntimeStep RuntimeSched RuntimeSim RuntimeOps RuntimeIo RuntimeLoop RuntimeSpawn.
From S2P Require Import RuntimeRun.

Open Scope Z_scope.

Section main.
Context (ly : layout).
#[local] Notation D := (l_dfk_at ly).
#[local] Notation SCH := (l_sched ly).
#[local] Notation LOOP := (l_loop_at ly).
#[local] Notation SF := (l_sfiber ly).
#[local] Notation EF := (l_efiber ly).
#[local] Notation frame := (frame_at ly).
#[local] Notation krep := (krep ly).
#[local] Notation ainv := (ainv SF EF LOOP frame (l_mutexes ly) (l_conds ly)).
#[local] Notation good := (good SF EF LOOP frame (l_mutexes ly) (l_conds ly)).
#[local] Notation astep := (astep SF frame).
#[local] Notation rstep := (rstep SF EF frame).
#[local] Notation reaps := (reaps).
#[local] Notation turns := (turns SF frame).
#[local] Notation poll := (poll SF EF frame).
#[local] Notation iteration := (iteration SF EF frame).

Context `{Mem : Type, It : Type, !ListOps Mem It, !ListLaws Mem It, !IterStable Mem It}.
Context (Hly : layout_ok ly).
Context (malloc : bmem -> Z -> Z) (Hmalloc : malloc_ok malloc).
Context (select : nat -> Z -> list Z -> list Z -> list Z -> select_result) (Hselect : no_select_error select).
Context (fuel : nat).
Implicit Types k : kmem Mem.
#[local] Notation step := (step malloc (l_guard ly) frame select fuel).
#[local] Notation run_fibers := (run_fibers malloc (l_guard ly) frame select fuel).

(** What can go wrong from [a] on: the bound is exhausted, or some fiber makes
    a call it has no right to. *)
Definition failed (a : astate) (e : fault) : Prop :=
  e = OutOfFuel \/ (e = AssertFailed /\ exists b, rtc rstep a b /\ misuse b).

Lemma good_rtc a b : good a -> rtc rstep a b -> good b.
Proof. intros Hg. induction 1 as [|a b c Hs _ IH]; [done|]. apply IH. eapply rstep_good; [apply _|done|done]. Qed.

Lemma failed_later a b e : rtc rstep a b -> failed b e -> failed a e.
Proof.
  intros Hr [->|(-> & c & Hc & Hm)]; [by left|right]. split; [done|]. exists c. split; [by etrans|done].
Qed.

(** A step with any bound. *)
Lemma step_bounded k a : krep k a -> good a -> cur a <> SF ->
  wpe step (failed a) k (fun _ k' => exists b, astep a b /\ krep k' b).
Proof using Hly Hmalloc Hselect IterStable0.
  intros Hk Hg Hs. set (n := Nat.max fuel (S (size (fibers a)))).
  eapply (wpe_fuel _ (Scheduler.step malloc (l_guard ly) frame select n) (misused a)).
  - apply step_fuel. unfold n. lia.
  - eapply step_refines; [done..|]. unfold n. lia.
  - intros f [-> Hm]. right. split; [done|]. by exists a.
  - by left.
Qed.

(** A turn: the fibers run until the scheduler's fiber has control. *)
Lemma run_fibers_spec a0 k a : rtc rstep a0 a -> krep k a -> good a ->
  wpe (run_fibers SF) (failed a0) k (fun _ k' => exists b, rtc astep a b /\ cur b = SF /\ krep k' b /\ good b).
Proof using Hly Hmalloc Hselect IterStable0.
  intros Ha0 Hk Hg. unfold Scheduler.run_fibers.
  apply (wpe_loop (failed a0) (fun _ k' => exists b, rtc astep a b /\ krep k' b /\ good b)); [by left| |by exists a].
  intros [] k' (b & Hr & Hk' & Hg'). unfold fibers_body. apply wpe_bind, wpe_gets. rewrite (kr_at _ _ _ Hk').
  destruct (cur b =? SF) eqn:E.
  - apply wpe_ret. apply Z.eqb_eq in E. by exists b.
  - apply Z.eqb_neq in E. apply wpe_bind. eapply wpe_weaken; [by apply step_bounded| |].
    + intros f Hf. eapply failed_later; [|exact Hf]. etrans; [exact Ha0|]. by apply astep_rtc.
    + intros _ k'' (c & Hs & Hk''). apply wpe_ret. exists c. split_and!; [by eapply rtc_r|done|].
      eapply astep_good; [apply _|done|exact Hs].
Qed.

(** ** The parts of an iteration *)

Lemma sched_live a loc : ainv a loc -> SF ∈ fibers a.
Proof. intros Hi. rewrite (ai_fibers Hi). apply elem_of_union. left. by apply elem_of_singleton. Qed.

(** One terminated fiber. *)
Lemma cleanup_body_spec k a : krep k a -> good a -> cur a = SF ->
  wp (cleanup_fibers_body SCH D tt) k (fun r k' =>
    match r with
    | inl _ => exists f fs, q a LTerm = f :: fs /\ krep k' (a_reap f fs a)
    | inr _ => q a LTerm = [] /\ k' = k
    end).
Proof using Hly.
  intros Hk (loc & Hi & He) Hc. pose proof (sched_no_hand _ _ _ _ _ _ _ _ _ Hi He Hc) as Hn.
  unfold cleanup_fibers_body. apply wp_bind. eapply (krep_empty ly k a LTerm); [done|done|].
  destruct (q a LTerm) as [|f fs] eqn:Hq; [by rewrite bool_decide_eq_true_2|].
  rewrite bool_decide_eq_false_2 by done. apply wp_bind. eapply (krep_begin ly k a LTerm); [done|done|].
  intros it Hit. rewrite Hq in Hit. rewrite (it_at_value _ _ _ Hit). cbv zeta.
  change (head_or 0 (hk LTerm <$> f :: fs)) with (f_hook f). rewrite to_fiber_hook. apply wp_bind. eapply (krep_pop ly Hly k a LTerm); [done..|]. intros l Hk1.
  assert (loc !! f = Some (Queued LTerm)) as Hf by (by eapply loc_queued).
  destruct (ai_code Hi _ _ Hf) as (c & Hcode & ->). destruct (loc_fiber _ _ _ _ Hi Hf) as (Hff & Hfs & _).
  apply wp_bind. eapply (dfk__fiber_free_spec ly Hly); [exact Hk1|done|done|..].
  - intros g Hg. rewrite q_set_ne by done. by apply (ainv_quiet ly _ _ Hi).
  - intros n Hnf Hin. rewrite q_set in Hin. case_decide as E.
    + pose proof (ai_nodup Hi LTerm) as Hnd. rewrite Hq in Hnd. by apply NoDup_cons in Hnd as [? _].
    + apply (ai_queued Hi) in Hin; [|done]. congruence.
  - rewrite q_set_ne by done. intros Hin. apply (ai_waiting Hi) in Hin as (g & Hg%frame_at_inj & Hl). congruence.
  - cbn. apply eq_None_not_Some. intros Hel.
    destruct (elems_code _ _ _ _ _ _ _ a loc f _ Hi Hf ltac:(done) Hel). congruence.
  - intros k' Hk' _. apply wp_ret. by exists f, fs.
Qed.

Lemma cleanup_spec k a : krep k a -> good a -> cur a = SF ->
  wpe (loop fuel (cleanup_fibers_body SCH D) tt) (failed a) k (fun _ k' => exists b,
    reaps (q a LTerm) a b /\ krep k' b /\ good b /\ cur b = SF /\ forall f, q b (LLocal f) = q a (LLocal f)).
Proof using Hly.
  intros Hk Hg Hc.
  eapply wpe_mono.
  - apply (wpe_loop (failed a) (fun _ k' => exists b, krep k' b /\ good b /\ cur b = SF /\
      (forall f, q b (LLocal f) = q a (LLocal f)) /\
      forall c, reaps (q b LTerm) b c -> reaps (q a LTerm) a c)); [by left| |by exists a].
    intros [] k' (b & Hk' & Hg' & Hc' & Hloc & Hre). eapply wpe_mono; [by apply wp_wpe, cleanup_body_spec|].
    intros [[]|[]] k''.
    + intros (f & fs & Hq & Hk''). exists (a_reap f fs b). split_and!; [done| |done|..].
      * eapply sstep_good; [apply _|exact Hg'|]. by apply sstep_reap.
      * intros g. cbn. by apply Hloc.
      * intros c Hr. apply Hre. rewrite Hq. by econstructor.
    + intros [Hq ->]. instantiate (1 := fun _ k' => exists b, krep k' b /\ good b /\ cur b = SF /\
        (forall f, q b (LLocal f) = q a (LLocal f)) /\ reaps (q a LTerm) a b).
      exists b. split_and!; [done..|]. apply Hre. rewrite Hq. by constructor.
  - intros [] k' (b & ? & ? & ? & ? & ?). by exists b.
Qed.

(** One turn. *)
Lemma pending_body_spec a0 k a : rtc rstep a0 a -> krep k a -> good a -> cur a = SF -> SF ∈ locals a ->
  wpe (pending_body malloc (l_guard ly) frame select fuel SCH (frame SF) tt) (failed a0) k (fun r k' =>
    match r with
    | inl _ => exists f fs b, q a (LLocal SF) = f :: fs /\ rtc astep (a_run SF f fs a) b /\ cur b = SF /\
        krep k' b /\ good b
    | inr _ => q a (LLocal SF) = [] /\ k' = k
    end).
Proof using Hly Hmalloc Hselect IterStable0.
  intros Ha0 Hk Hg Hc Hloc. destruct Hg as (loc & Hi & He). pose proof (sched_live _ _ Hi) as HS.
  unfold pending_body. apply wpe_bind_wp. eapply (krep_empty ly k a (LLocal SF)); [done|done|].
  destruct (q a (LLocal SF)) as [|f fs] eqn:Hq; [by rewrite bool_decide_eq_true_2|].
  rewrite bool_decide_eq_false_2 by done. apply wpe_bind_wp.
  eapply (krep_front ly k a (LLocal SF)); [done|done|exact Hq|].
  change (hk (LLocal SF) f) with (f_hook f). rewrite to_fiber_hook.
  apply wpe_bind_wp. eapply (krep_pop ly Hly k a (LLocal SF)); [done..|]. intros l Hk1.
  assert (loc !! f = Some (Queued (LLocal SF))) as Hf by (by eapply loc_queued).
  destruct (loc_fiber _ _ _ _ Hi Hf) as (Hff & _).
  destruct (kr_sched _ _ _ Hk1) as (s & Hs & H1 & H2 & H3 & H4). destruct (lo_ne _ Hly) as (_ & HS0 & _).
  apply wpe_bind_wp. eapply wp_update; [lia|exact Hs|].
  set (k2 := hset _ _ _). assert (krep k2 (set_q (LLocal SF) fs a)) as Hk2.
  { split; try apply Hk1. exists (set_current f s). cbn. rewrite lookup_insert_eq. by split_and!. }
  apply wpe_bind_wp. eapply wp_sched; [done|exact Hk2|]. intros s' _ -> _ _ _.
  apply wpe_bind_wp. eapply dfk_yield_spec; [done|exact Hk2|done|done|]. intros k3 Hk3.
  assert (rstep a (a_run SF f fs a)) as Hstep by (right; by apply sstep_run).
  assert (good (a_run SF f fs a)) as Hg3 by (eapply rstep_good; [apply _|by exists loc|exact Hstep]).
  apply wpe_bind. eapply wpe_mono; [eapply (run_fibers_spec a0 k3 (a_run SF f fs a)); [by eapply rtc_r|exact Hk3|done]|].
  intros [] k' (b & Hr & Hcb & Hk' & Hgb). apply wpe_ret. exists f, fs, b. by split_and!.
Qed.

Lemma pending_spec a0 k a : rtc rstep a0 a -> krep k a -> good a -> cur a = SF -> SF ∈ locals a ->
  wpe (loop fuel (pending_body malloc (l_guard ly) frame select fuel SCH (frame SF)) tt) (failed a0) k
    (fun _ k' => exists b, turns (q a (LLocal SF)) a b /\ krep k' b /\ good b /\ cur b = SF /\ q b (LLocal SF) = []).
Proof using Hly Hmalloc Hselect IterStable0.
  intros Ha0 Hk Hg Hc Hloc. eapply wpe_mono.
  - apply (wpe_loop (failed a0) (fun _ k' => exists b, krep k' b /\ good b /\ cur b = SF /\ SF ∈ locals b /\
      rtc rstep a0 b /\ forall c, turns (q b (LLocal SF)) b c -> turns (q a (LLocal SF)) a c)); [by left| |by exists a].
    intros [] k' (b & Hk' & Hg' & Hc' & Hlb & Hrb & Htu). eapply wpe_mono; [by apply pending_body_spec|].
    intros [[]|[]] k''.
    + intros (f & fs & c & Hq & Hr & Hcc & Hk'' & Hgc). destruct (astep_locals SF frame _ SF _ _ Hr) as [E1 E2].
      unfold a_run in E1. cbn [transfer q] in E1. rewrite q_set_eq in E1. exists c. split_and!; [done..| | |].
      * apply E2. exact Hlb.
      * etrans; [exact Hrb|]. eapply rtc_l; [right; by apply sstep_run|]. by apply astep_rtc.
      * intros d Hd. apply Htu. rewrite Hq. eapply turns_cons; [done|exact Hr|done|]. by rewrite <- E1.
    + intros [Hq ->]. instantiate (1 := fun _ k' => exists b, krep k' b /\ good b /\ cur b = SF /\
        q b (LLocal SF) = [] /\ turns (q a (LLocal SF)) a b).
      exists b. split_and!; [done..|]. apply Htu. rewrite Hq. by constructor.
  - intros [] k' (b & ? & ? & ? & ? & ?). by exists b.
Qed.

(** The local list of the scheduler takes over the pending fibers. *)
Lemma batch_spec k a (Q : unit -> kmem Mem -> Prop) : krep k a -> good a -> q a (LLocal SF) = [] ->
  (forall k', krep k' (a_batch SF a) -> Q tt k') ->
  wp (zoom klists (list_init (frame SF));; zoom klists (list_move (s_pending SCH) (frame SF))) k Q.
Proof using Hly.
  intros Hk (loc & Hi & _) Hq HQ. pose proof (sched_live _ _ Hi) as HS.
  apply wp_bind. eapply (krep_init_local ly Hly); [exact Hk|done|done|]. intros l1 Hk1.
  eapply (krep_move ly Hly _ _ LPend); [exact Hk1|done|done|done| |done|].
  { apply elem_of_union. left. by apply elem_of_singleton. }
  intros l2 Hk2. by apply HQ.
Qed.

Lemma poll_spec a0 k a : rtc rstep a0 a -> krep k a -> good a -> cur a = SF -> q a (LLocal SF) = [] ->
  wpe (none ← zoom klists (list_empty (s_pending SCH));
       s ← deref scheds_of SCH;
       when (none && negb (iowait s =? 0))
         (update scheds_of SCH (set_current (s_eventloop s));;
          dfk_yield (s_fiber s) (s_eventloop s);;
          run_fibers (s_fiber s));;
       mret false) (failed a0) k
    (fun r k' => r = false /\ exists b, poll a b /\ krep k' b /\ good b /\ cur b = SF /\ q b (LLocal SF) = []).
Proof using Hly Hmalloc Hselect IterStable0.
  intros Ha0 Hk Hg Hc Hloc. pose proof Hg as (loc & Hi & He). pose proof (sched_live _ _ Hi) as HS.
  apply wpe_bind_wp. eapply (krep_empty ly k a LPend); [done|done|].
  apply wpe_bind_wp. eapply wp_sched; [done|done|]. intros s Hs HsF -> Hio _. rewrite Hio, HsF.
  unfold RuntimeSched.poll. destruct (bool_decide (q a LPend = []) && negb (aio a =? 0)) eqn:E.
  2: { apply wpe_bind_wp, wp_when_false; [done|]. apply wpe_ret. split; [done|]. by exists a. }
  apply andb_true_iff in E as [E1%bool_decide_eq_true E2%negb_true_iff%Z.eqb_neq].
  destruct (kr_sched _ _ _ Hk) as (s' & Hs' & H1 & H2 & H3 & H4). rewrite Hs in Hs'. injection Hs' as <-.
  destruct (lo_ne _ Hly) as (_ & HS0 & _). apply wpe_bind. unfold when.
  apply wpe_bind_wp. eapply wp_update; [lia|exact Hs|].
  set (k2 := hset _ _ _). assert (krep k2 a) as Hk2.
  { split; try apply Hk. exists (set_current EF s). cbn. rewrite lookup_insert_eq. by split_and!. }
  assert (EF ∈ fibers a) as HE by (rewrite (ai_fibers Hi); set_solver).
  apply wpe_bind_wp. eapply dfk_yield_spec; [done|exact Hk2|done|done|]. intros k3 Hk3.
  assert (rstep a (transfer EF a)) as Hstep by (right; by apply sstep_poll).
  assert (good (transfer EF a)) as Hg3 by (eapply rstep_good; [apply _|exact Hg|exact Hstep]).
  eapply wpe_mono; [eapply (run_fibers_spec a0 k3 (transfer EF a)); [by eapply rtc_r|exact Hk3|done]|].
  intros [] k' (b & Hr & Hcb & Hk' & Hgb). apply wpe_ret. split; [done|]. exists b. split_and!; try done.
  by rewrite (proj1 (astep_locals SF frame _ SF _ _ Hr)).
Qed.

(** The result of [dfk__scheduler]: true, and nothing is done, if there is
    nothing left to do. *)
Definition idle (a : astate) : Prop := q a LTerm = [] /\ q a LPend = [] /\ aio a = 0.

Lemma dfk__scheduler_refines k a : krep k a -> good a -> cur a = SF -> q a (LLocal SF) = [] ->
  wpe (dfk__scheduler malloc (l_guard ly) frame select fuel SCH) (failed a) k (fun r k' =>
    if r then k' = k /\ idle a
    else ~ idle a /\ exists b, iteration a b /\ krep k' b /\ good b /\ cur b = SF /\ q b (LLocal SF) = []).
Proof using Hly Hmalloc Hselect IterStable0.
  intros Hk Hg Hc Hloc. pose proof Hg as (loc & Hi & He). pose proof (sched_live _ _ Hi) as HS.
  unfold dfk__scheduler. apply wpe_bind_wp. eapply wp_sched; [done|done|]. intros s Hs -> _ Hio _.
  apply wpe_bind_wp. eapply wp_fiber; [done|done|]. intros sf ->.
  apply wpe_bind_wp. eapply (krep_empty ly k a LTerm); [done|done|].
  apply wpe_bind_wp. eapply (wp_mono _ _ (fun (idle : bool) k' =>
    idle = bool_decide (q a LTerm = []) && bool_decide (q a LPend = []) /\ k' = k)).
  { destruct (bool_decide (q a LTerm = [])); [|by apply wp_ret].
    by eapply (krep_empty ly k a LPend). }
  intros ? ? [-> ->]. rewrite Hio.
  destruct (bool_decide (q a LTerm = []) && bool_decide (q a LPend = []) && (aio a =? 0)) eqn:E.
  { apply wpe_ret. apply andb_true_iff in E as [[E1 E2]%andb_true_iff E3%Z.eqb_eq].
    apply bool_decide_eq_true in E1, E2. done. }
  assert (~ idle a) as Hni.
  { intros (E1 & E2 & E3). by rewrite !bool_decide_eq_true_2, E3 in E by done. }
  apply wpe_bind. eapply wpe_mono; [by apply cleanup_spec|]. intros [] k1 (a1 & Hre & Hk1 & Hg1 & Hc1 & Hl1).
  pose proof (reaps_rtc _ EF frame _ _ _ Hre Hc) as Hr1.
  assert (q a1 (LLocal SF) = []) as Hloc1 by by rewrite Hl1.
  assert (rstep a1 (a_batch SF a1)) as Hb by (right; by apply sstep_batch).
  apply wpe_bind_assoc, wpe_bind_wp. eapply batch_spec; [exact Hk1|done|done|]. intros k2 Hk2.
  apply wpe_bind. eapply wpe_mono.
  { eapply (pending_spec a k2 (a_batch SF a1)); [by eapply rtc_r|done| |done|cbn; set_solver].
    eapply rstep_good; [apply _|exact Hg1|exact Hb]. }
  intros [] k3 (a2 & Htu & Hk3 & Hg3 & Hc3 & Hl3).
  assert (q (a_batch SF a1) (LLocal SF) = q a1 LPend) as Hqb.
  { unfold a_batch. rewrite q_set_ne by done. by rewrite q_set_eq. }
  rewrite Hqb in Htu. eapply wpe_mono.
  { eapply (poll_spec a k3 a2); [|done..]. etrans; [by eapply rtc_r|]. by eapply turns_rtc. }
  intros ? k4 (-> & b & Hp & Hk4 & Hg4 & Hc4 & Hl4). split; [done|]. exists b. split_and!; try done.
  by exists a1, a2.
Qed.

End main.
