(* ===== verification/RuntimeBoot.v ===== *)
(** * From the caller's memory to a running scheduler

    [dfk_work] spawns three fibers before there is a scheduler.  [seeds] is
    what memory holds meanwhile; once the scheduler's objects are made it
    represents the initial abstract state, which is good. *)

From S2P Require Import Prelude Bytes ListSpec ListSeg Error Misc Fiber Sync Select Scheduler.
From S2P Require Import Runtime RuntimeStep RuntimeSched RuntimeSim RuntimeOps RuntimeIo RuntimeSpawn.

Open Scope Z_scope.

(** The program's constants and objects. *)
Record setup := Setup {
  b_dfk : Z; b_stack : Z; b_guard : Z; b_frame : Z; b_sched : Z; b_loop : Z;
  b_mutexes : gset Z; b_conds : gset Z
}.

Definition layout_of (b : setup) (sf ef : Z) : layout :=
  Layout (b_dfk b) (sf + b_sched b) (sf + b_loop b) sf ef (b_stack b) (b_frame b) (b_guard b)
    (b_mutexes b) (b_conds b).

Section boot.
Context (b : setup).
#[local] Notation D := (b_dfk b).
#[local] Notation stack := (b_stack b).

(** The wait queues of the program's objects. *)
Definition waitqueue (l : Z) : Prop :=
  (exists m, m ∈ b_mutexes b /\ l = m_waitqueue m) \/ (exists c, c ∈ b_conds b /\ l = c_waitqueue c).

(** Objects are distinct, and local variables lie within a stack. *)
Record setup_ok : Prop := SetupOk {
  so_dfk : 0 < D;
  so_stack : FIBER_T + b_guard b + STACK_ALIGNMENT <= stack <= USER_END;
  so_guard : 0 <= b_guard b;
  so_frame : FIBER_T <= b_frame b < stack;
  so_sched : FIBER_T <= b_sched b /\ b_sched b + 64 <= stack;
  so_loop : FIBER_T <= b_loop b /\ b_loop b + 16 <= stack;
  so_locals : b_sched b + 24 <> b_loop b + 8 /\ b_sched b + 56 <> b_loop b + 8 /\
    b_frame b <> b_sched b + 24 /\ b_frame b <> b_sched b + 56 /\ b_frame b <> b_loop b + 8;
  so_objects : forall x, x ∈ b_mutexes b ∪ b_conds b -> 0 < x;
  so_disjoint : b_mutexes b ## b_conds b
}.

Context `{Mem : Type, It : Type, !ListOps Mem It, !ListLaws Mem It}.
Context (Hok : setup_ok).
Implicit Types k : kmem Mem.

Definition within (f p : Z) : Prop := f <= p < f + stack.

Record seeds k (F : gset Z) : Prop := Seeds {
  sd_dfk : exists d, k_dfks k !! D = Some d /\ default_stack_size d = stack;
  sd_fibers : forall f, f ∈ F <-> is_Some (k_fibers k !! f);
  sd_fiber_dfk : forall f fo, k_fibers k !! f = Some fo -> f_dfk fo = D;
  sd_blocks : forall f, f ∈ F -> 0 < f /\ aligned f = true /\ f + stack <= USER_END /\
    blocks (k_bytes k) !! f = Some stack /\ room_at (k_bytes k) f stack;
  sd_apart : forall f g, f ∈ F -> g ∈ F -> f <> g -> f + stack <= g \/ g + stack <= f;
  sd_mutexes : forall m, k_mutexes k !! m = if decide (m ∈ b_mutexes b) then Some (MutexObj D 0) else None;
  sd_conds : forall c, c ∈ b_conds b -> k_conds k !! c = Some (CondObj D);
  sd_fds : k_fds k = ∅;
  sd_queues : forall l, waitqueue l -> is_Some (cells (k_bytes k) !! l) /\ forall f, f ∈ F -> ~ within f l;
  sd_lists : exists σ, lrep (k_lists k) σ /\ (forall l, waitqueue l -> chains σ !! l = Some []) /\
    (forall l xs, chains σ !! l = Some xs -> xs = []) /\ (forall f, f ∈ F -> f_hook f ∈ spare σ)
}.

Lemma seeds_fiber k F f : seeds k F -> f ∈ F -> 0 < f.
Proof. intros Hs Hf. apply (sd_blocks _ _ Hs f Hf). Qed.

Lemma seeds_switch k F f : seeds k F -> seeds (switch f k) F.
Proof. intros Hs. split; apply Hs. Qed.

(** ** A new fiber *)

(** The argument block, if there is one, fits the stack. *)
Definition arg_ok k (arg argsize : Z) : Prop :=
  argsize = 0 \/ (0 < argsize /\ FIBER_T + argsize + b_guard b + STACK_ALIGNMENT <= stack /\
    exists bs, argsize = Z.of_nat (length bs) /\ bytes_at (k_bytes k) arg bs).
Definition arg_of (p arg argsize : Z) : Z := if argsize =? 0 then arg else p + FIBER_T.

Section new.
Context k F p m' (Hs : seeds k F) (Hal : allocated (k_bytes k) p stack m').

Lemma stack_bounds : FIBER_T + STACK_ALIGNMENT <= stack <= USER_END.
Proof using Hok. pose proof (so_stack Hok). pose proof (so_guard Hok). lia. Qed.

Lemma seed_new : p ∉ F.
Proof using Hs Hal.
  intros Hp. destruct (sd_blocks _ _ Hs p Hp) as (_ & _ & _ & Hb & _). pose proof (al_new _ _ _ _ Hal). congruence.
Qed.

Lemma seed_apart f : f ∈ F -> f + stack <= p \/ p + stack <= f.
Proof using Hs Hal Hok.
  intros Hf. destruct (sd_blocks _ _ Hs f Hf) as (_ & _ & _ & _ & Hr). pose proof stack_bounds.
  unfold FIBER_T, STACK_ALIGNMENT in *.
  destruct (allocated_apart _ _ _ _ f stack Hal) as [?|[?|?]]; [lia|lia|done|lia|by left|by right].
Qed.

(** Memory with the new fiber in it; [m''] is [m'] with the argument copied. *)
Definition seeded (m'' : bmem) (l : Mem) (farg : Z) (c : code) : kmem Mem :=
  let k1 := lset klists l (lset kbytes m'' k) in
  let k2 := hset fibers_of (<[p := FiberObj D farg]> (k_fibers k1)) k1 in
  hset ctx_of (<[p := c]> (k_ctx k2)) k2.

Lemma seeds_born m'' σ l farg c :
  blocks m'' = blocks m' -> (forall q n, room_at m' q n -> room_at m'' q n) ->
  (forall a, is_Some (cells m' !! a) -> is_Some (cells m'' !! a)) ->
  lrep l (LSpec (chains σ) (release (f_hook p) σ)) ->
  (forall l, waitqueue l -> chains σ !! l = Some []) ->
  (forall l xs, chains σ !! l = Some xs -> xs = []) -> (forall f, f ∈ F -> f_hook f ∈ spare σ) ->
  seeds (seeded m'' l farg c) ({[p]} ∪ F).
Proof using Hs Hal Hok.
  intros Hb Hroom Hcells Hl Hc1 Hc2 Hsp. pose proof seed_new as Hp. pose proof stack_bounds as Hst.
  unfold FIBER_T, STACK_ALIGNMENT in Hst.
  split; cbn [seeded]; try apply Hs.
  - intros f. cbn. rewrite elem_of_union, elem_of_singleton, lookup_insert_is_Some, (sd_fibers _ _ Hs f).
    destruct (decide (p = f)); naive_solver.
  - intros f fo. cbn. rewrite lookup_insert_Some. intros [[_ <-]|[_ Hf]]; [done|by eapply (sd_fiber_dfk _ _ Hs)].
  - intros f [->%elem_of_singleton|Hf]%elem_of_union; cbn; rewrite Hb.
    + pose proof (allocated_room _ _ _ _ Hal ltac:(lia)) as Hr. destruct Hal as [H1 H2 H3 H4 H5 H6].
      split_and!; [done..| |by apply Hroom]. rewrite H6. cbn. by rewrite lookup_insert_eq.
    + destruct (sd_blocks _ _ Hs f Hf) as (H1 & H2 & H3 & H4 & H5). split_and!; [done..| |].
      * rewrite (al_mem _ _ _ _ Hal). cbn. rewrite lookup_insert_ne; [done|]. by intros <-.
      * apply Hroom. eapply room_same; [|exact H5]. eapply same_allocated; [exact Hal|lia|]. right. by apply seed_apart.
  - intros f g [->%elem_of_singleton|Hf]%elem_of_union [->%elem_of_singleton|Hg]%elem_of_union Hfg; try done.
    + destruct (seed_apart g Hg); auto.
    + by apply seed_apart.
    + by apply (sd_apart _ _ Hs).
  - intros w Hw. destruct (sd_queues _ _ Hs w Hw) as [[v Hv] Hn].
    assert (~ within p w) as Hnp.
    { intros Hin. pose proof (al_fresh _ _ _ _ Hal (w - p)) as Hf. unfold within in Hin.
      rewrite Zplus_minus in Hf. rewrite Hf in Hv by lia. done. }
    split; cbn.
    + apply Hcells. erewrite cells_allocated; [by eexists|exact Hal|lia|exact Hnp].
    + intros f [->%elem_of_singleton|Hf]%elem_of_union; [done|by apply Hn].
  - eexists. split; [exact Hl|]. split_and!; [done..|]. intros f Hf. cbn. unfold release.
    apply elem_of_union. apply elem_of_union in Hf as [->%elem_of_singleton|Hf].
    + right. by apply elem_of_singleton.
    + left. by apply Hsp.
Qed.
End new.

Lemma seeds_errno k F d e : seeds k F -> k_dfks k !! D = Some d ->
  seeds (hset dfks_of (<[D := set_errno e d]> (k_dfks k)) k) F.
Proof.
  intros Hs Hd. destruct (sd_dfk _ _ Hs) as (d' & Hd' & H3). rewrite Hd in Hd'. injection Hd' as <-.
  split; try apply Hs. exists (set_errno e d). cbn. by rewrite lookup_insert_eq.
Qed.

Lemma put_cells_some p bs m a : is_Some (cells m !! a) -> is_Some (cells (put_bytes p bs m) !! a).
Proof.
  intros Ha. rewrite cells_put. case_decide; [|done]. rewrite fmap_is_Some. apply lookup_lt_is_Some_2. lia.
Qed.

(** The argument is copied onto the new stack. *)
Lemma copy_arg k m' p arg argsize (Q : unit -> bmem -> Prop) : allocated (k_bytes k) p stack m' ->
  arg_ok k arg argsize -> argsize <> 0 ->
  (forall bs, bytes_at (k_bytes k) arg bs -> argsize = Z.of_nat (length bs) ->
     Q tt (put_bytes (p + FIBER_T) bs m')) ->
  wp (memcpy (p + FIBER_T) arg argsize) m' Q.
Proof using Hok.
  intros Hal [?|(H0 & Hfit & bs & Hlen & Hbs)] Hne HQ; [done|]. pose proof stack_bounds as Hst.
  pose proof (so_guard Hok) as Hg. unfold FIBER_T, STACK_ALIGNMENT in *.
  pose proof (allocated_apart _ _ _ _ arg argsize Hal ltac:(lia) ltac:(lia)) as Hap.
  rewrite Hlen in Hap. specialize (Hap (bytes_room _ _ _ Hbs)).
  eapply wp_memcpy; [exact Hlen| | | |by apply HQ].
  - eapply bytes_same; [|exact Hbs]. eapply same_allocated; [exact Hal|lia|done].
  - pose proof (room_tail m' p stack 88 ltac:(lia) (allocated_room _ _ _ _ Hal ltac:(lia))) as Hr.
    eapply room_mono; [|exact Hr]. lia.
  - unfold apart_ranges in Hap. rewrite Hlen. destruct Hap as [?|[?|?]]; lia.
Qed.

(** ** The scheduler's objects *)

Section assemble.
Context (sf ef mf : Z) (k : kmem Mem) (Hs : seeds k ({[sf]} ∪ ({[ef]} ∪ {[mf]}))).
#[local] Notation ly := (layout_of b sf ef).
#[local] Notation F := ({[sf]} ∪ ({[ef]} ∪ {[mf]}) : gset Z).

Lemma seed_in f : f ∈ F <-> f = sf \/ f = ef \/ f = mf.
Proof using. rewrite !elem_of_union, !elem_of_singleton. tauto. Qed.

Lemma queue_static n : static ly n -> match n with
  | LMutex _ | LCond _ => waitqueue (laddr ly n)
  | _ => within sf (laddr ly n)
  end.
Proof using Hok.
  pose proof (so_sched Hok). pose proof (so_loop Hok). unfold FIBER_T in *.
  destruct n as [| | |f|m|c]; cbn; intros Hn; try done; unfold within, s_pending, s_terminated, l_fds; try lia.
  - left. by exists m.
  - right. by exists c.
Qed.

Lemma waitqueue_off l : waitqueue l -> ~ within sf l.
Proof using Hs. intros Hl. apply (sd_queues _ _ Hs l Hl), seed_in. by left. Qed.

Context (Hne : sf <> ef /\ sf <> mf /\ ef <> mf).

Lemma layout_of_ok : layout_ok ly.
Proof using Hok Hs Hne.
  pose proof (so_locals Hok) as Hloc. pose proof (so_objects Hok) as Hob. pose proof (so_disjoint Hok) as Hd.
  pose proof (so_sched Hok). pose proof (so_loop Hok). pose proof (so_frame Hok).
  assert (0 < sf) as Hsf by (eapply seeds_fiber; [done|set_solver]). unfold FIBER_T in *.
  assert (forall n n', static ly n -> static ly n' -> laddr ly n = laddr ly n' ->
    (waitqueue (laddr ly n) -> within sf (laddr ly n') -> False)) as Hsep.
  { intros n n' _ _ E Hw Hi. rewrite <- E in Hi. by eapply waitqueue_off. }
  split; cbn [layout_of l_frame l_stack l_guard l_dfk_at l_sched l_loop_at l_mutexes l_conds l_sfiber].
  - apply Hok.
  - apply Hok.
  - apply Hok.
  - pose proof (so_dfk Hok). split_and!; lia.
  - split; intros Hz; specialize (Hob 0 ltac:(set_solver)); lia.
  - intros n n' Hn Hn' E. pose proof (queue_static n Hn) as Q1. pose proof (queue_static n' Hn') as Q2.
    pose proof (Hsep n n' Hn Hn' E) as Q3. pose proof (Hsep n' n Hn' Hn (eq_sym E)) as Q4.
    destruct n as [| | |f|m|c], n' as [| | |f'|m'|c']; try done; try (by destruct (Q3 Q1 Q2)); try (by destruct (Q4 Q2 Q1));
      cbn in E, Hn, Hn'; unfold s_pending, s_terminated, l_fds, m_waitqueue, c_waitqueue in E; try lia.
    + f_equal. lia.
    + exfalso. assert (m = c') as -> by lia. set_solver.
    + exfalso. assert (c = m') as -> by lia. set_solver.
    + f_equal. lia.
  - intros n Hn E. pose proof (queue_static n Hn) as Q. destruct n as [| | |f|m|c]; try done;
      cbn in E, Q; unfold s_pending, s_terminated, l_fds, frame_at in E; cbn in E; try lia.
    all: apply waitqueue_off in Q; apply Q; rewrite E; unfold within, frame_at; cbn; lia.
  - intros n Hn E. pose proof (queue_static n Hn) as Q. destruct n as [| | |f|m|c]; try done; cbn in E, Hn;
      unfold s_pending, s_terminated, l_fds, m_waitqueue, c_waitqueue in E; try lia.
    + specialize (Hob m ltac:(set_solver)). lia.
    + specialize (Hob c ltac:(set_solver)). lia.
Qed.
(** The state before the first iteration. *)
Definition boot_empty : astate :=
  AState (fun _ => []) (gset_to_gmap 0 (b_mutexes b)) (b_conds b) (k_ctx k) F ∅ 0 sf ∅.
Definition boot_state : astate := push LPend mf boot_empty.

(** The lists after [dfk__eventloop_init] and [dfk__scheduler_init]. *)
Definition boot_chains (σ : lspec) : gmap Z (list Z) :=
  <[s_terminated (l_sched ly) := []]> (<[s_pending (l_sched ly) := []]> (<[l_fds (l_loop_at ly) := []]> (chains σ))).

Lemma boot_chain_nil σ l xs : (forall l xs, chains σ !! l = Some xs -> xs = []) ->
  boot_chains σ !! l = Some xs -> xs = [].
Proof using.
  intros Hc. unfold boot_chains. rewrite !lookup_insert_Some. intros [[_ <-]|[_ [[_ <-]|[_ [[_ <-]|[_ Hx]]]]]]; try done.
  by eapply Hc.
Qed.

Lemma boot_chain_static σ n : static ly n -> (forall l, waitqueue l -> chains σ !! l = Some []) ->
  boot_chains σ !! laddr ly n = Some [].
Proof using Hok.
  intros Hn Hc. pose proof (queue_static n Hn) as Q. unfold boot_chains.
  destruct (decide (s_terminated (l_sched ly) = laddr ly n)) as [->|]; [by rewrite lookup_insert_eq|].
  rewrite lookup_insert_ne by done.
  destruct (decide (s_pending (l_sched ly) = laddr ly n)) as [->|]; [by rewrite lookup_insert_eq|].
  rewrite lookup_insert_ne by done.
  destruct (decide (l_fds (l_loop_at ly) = laddr ly n)) as [->|]; [by rewrite lookup_insert_eq|].
  rewrite lookup_insert_ne by done. destruct n; try done; by apply Hc.
Qed.

Definition booted (l : Mem) (d : dfk_t) : kmem Mem :=
  let vs := sf + b_sched b in
  let vl := sf + b_loop b in
  KMem l (k_bytes k)
    (<[D := Dfk vs vl (default_stack_size d) (dfk_errno d) (sys_errno d)]> (k_dfks k)) (k_fibers k)
    (<[vs := SchedObj sf 0 ef 0]> (k_scheds k)) (k_mutexes k) (k_conds k)
    (<[vl := LoopObj D]> (k_loops k)) (k_fds k) (k_ctx k) (k_at k) (k_selects k).

Lemma krep_boot σ l d : k_at k = sf -> default_stack_size d = stack ->
  lrep l (LSpec (boot_chains σ) (spare σ)) -> (forall l, waitqueue l -> chains σ !! l = Some []) ->
  (forall l xs, chains σ !! l = Some xs -> xs = []) -> (forall f, f ∈ F -> f_hook f ∈ spare σ) ->
  krep ly (booted l d) boot_empty.
Proof using Hs Hok Hne.
  intros Hat Hd Hl Hc1 Hc2 Hsp.
  assert (sf ∈ F) as HsF by (apply seed_in; by left).
  split; try apply Hs; cbn [booted boot_empty k_at k_dfks k_scheds k_loops k_mutexes k_ctx k_fds k_bytes k_lists
    cur owner conds codes fibers elems aio locals].
  - done.
  - eexists. split; [apply lookup_insert_eq|]. done.
  - eexists. split; [apply lookup_insert_eq|]. by split_and!.
  - apply lookup_insert_eq.
  - intros m. rewrite (sd_mutexes _ _ Hs m), lookup_gset_to_gmap. case_decide.
    + by rewrite option_guard_True.
    + by rewrite option_guard_False.
  - done.
  - intros n Hn. pose proof (queue_static n Hn) as Q.
    destruct (decide (within sf (laddr ly n))) as [Hin|Hout].
    + split.
      * destruct (sd_blocks _ _ Hs sf HsF) as (_ & _ & _ & _ & _ & Hr).
        specialize (Hr (laddr ly n - sf)). rewrite Zplus_minus in Hr. apply Hr. unfold within in Hin. lia.
      * intros f Hf Hfs Hb. unfold in_block, within in *. cbn in Hb.
        destruct (sd_apart _ _ Hs f sf Hf HsF Hfs); lia.
    + assert (waitqueue (laddr ly n)) as Hw by (by destruct n).
      destruct (sd_queues _ _ Hs _ Hw) as [Hc Hn']. split; [done|]. intros f Hf _. by apply Hn'.
  - intros n f _ Hin. by apply not_elem_of_nil in Hin.
  - intros e Hin. by apply not_elem_of_nil in Hin.
  - intros e el Hel. by rewrite lookup_empty in Hel.
  - eexists. split; [exact Hl|]. split; cbn.
    + intros n Hn. by apply boot_chain_static.
    + intros f Hf. destruct (boot_chains σ !! frame_at ly f) as [xs|] eqn:Hx; [|done].
      by apply boot_chain_nil in Hx as ->.
    + intros f Hf. set_solver.
    + intros l' xs Hx. right. right. by eapply boot_chain_nil.
    + intros f Hf _. by apply Hsp.
    + intros e el Hel. by rewrite lookup_empty in Hel.
Qed.

#[local] Notation good := (good sf ef (l_loop_at ly) (frame_at ly) (b_mutexes b) (b_conds b)).

Lemma good_boot c : k_ctx k !! mf = Some c -> user (b_mutexes b) (b_conds b) c ->
  k_ctx k !! ef = Some (LoopStart (l_loop_at ly)) -> good boot_state.
Proof using Hs Hok Hne.
  intros Hc Hu Hef. exists {[mf := Queued LPend]}. destruct Hne as (N1 & N2 & N3).
  assert (forall n, q boot_state n = if decide (n = LPend) then [mf] else []) as Hq by done.
  split.
  - split.
    + intros n. rewrite Hq. case_decide; [apply NoDup_singleton|constructor].
    + intros n f Hn. rewrite Hq, lookup_singleton_Some. case_decide as E.
      * subst. rewrite list_elem_of_singleton. naive_solver.
      * split; [by intros ?%not_elem_of_nil|]. by intros [_ [= <-]].
    + intros e. rewrite Hq. rewrite decide_False by done. split; [by intros ?%not_elem_of_nil|].
      intros (f & _ & [_ ?]%lookup_singleton_Some). done.
    + rewrite dom_singleton_L. done.
    + change (fibers boot_state) with F. rewrite dom_singleton_L, !not_elem_of_singleton. split_and!; [done..|].
      intros H0%(seeds_fiber _ _ _ Hs). lia.
    + intros f p [<- <-]%lookup_singleton_Some. exists c. split; [done|]. by apply run_user.
    + by left.
    + apply dom_gset_to_gmap.
    + done.
    + rewrite Hq, decide_False by done. done.
    + intros e el Hel. cbn in Hel. by rewrite lookup_empty in Hel.
  - apply executing_sched; [done|]. intros f [_ ?]%lookup_singleton_Some. done.
Qed.

(** The startup code of [dfk__scheduler_main], after its fiber was made. *)
Lemma boot_spec (Q : unit -> kmem Mem -> Prop) : k_at k = sf ->
  (forall k', krep ly k' boot_state -> Q tt k') ->
  wp (((dfk__eventloop_init (l_loop_at ly) D;;
        dfk__scheduler_init (l_sched ly) sf ef);;
       update dfks_of D (fun d =>
         Dfk (l_sched ly) (l_loop_at ly) (default_stack_size d) (dfk_errno d) (sys_errno d)));;
      dfk__resume (l_sched ly) mf) k Q.
Proof using Hs Hok Hne.
  intros Hat HQ. destruct (sd_lists _ _ Hs) as (σ & Hl & Hc1 & Hc2 & Hsp). destruct (sd_dfk _ _ Hs) as (d & Hd & Hsz).
  pose proof layout_of_ok as Hly. destruct (lo_ne _ Hly) as (_ & HS & HL). pose proof (so_dfk Hok) as HD.
  pose proof (lo_zero _ Hly) as Hz. assert (forall l, default [] (chains σ !! l) = []) as Hdef.
  { intros l. destruct (chains σ !! l) as [xs|] eqn:Hx; [by apply Hc2 in Hx|done]. }
  unfold dfk__eventloop_init. apply wp_bind, wp_bind, wp_bind, wp_bind, wp_assert; [apply nonnull_true; lia|].
  apply wp_bind, wp_assert; [apply nonnull_true; lia|]. apply wp_bind, wp_store; [lia|].
  apply wp_bind, wp_zoom. eapply wp_mono; [eapply law_init; [exact Hl|by apply (Hz LFds)|done]|].
  intros [] l1 Hl1. apply wp_ret. unfold dfk__scheduler_init.
  apply wp_bind, wp_zoom. eapply wp_mono; [eapply law_init; [exact Hl1|by apply (Hz LPend)|]|].
  { cbn. rewrite lookup_insert. by case_decide. }
  intros [] l2 Hl2. apply wp_bind, wp_zoom. eapply wp_mono; [eapply law_init; [exact Hl2|by apply (Hz LTerm)|]|].
  { cbn. rewrite !lookup_insert. by repeat case_decide. }
  intros [] l3 Hl3. apply wp_store; [lia|]. eapply wp_update; [lia|exact Hd|].
  pose proof (krep_boot σ l3 d Hat Hsz Hl3 Hc1 Hc2 Hsp) as Hk.
  eapply dfk__resume_spec; [done|exact Hk|apply seed_in; auto| |exact HQ].
  intros n _ Hin. by apply not_elem_of_nil in Hin.
Qed.
End assemble.

Context (malloc : bmem -> Z -> Z) (Hmalloc : malloc_ok malloc).

Lemma seed_spawn k F ep arg argsize (Q : Z -> kmem Mem -> Prop) : seeds k F -> arg_ok k arg argsize ->
  (forall k' d, seeds k' F -> k_ctx k' = k_ctx k -> k_dfks k' !! D = Some d ->
     dfk_errno d = err_code dfk_err_nomem -> Q 0 k') ->
  (forall p k', p <> 0 -> p ∉ F -> seeds k' ({[p]} ∪ F) ->
     k_ctx k' = <[p := ep (arg_of p arg argsize)]> (k_ctx k) -> k_at k' = k_at k -> Q p k') ->
  wp (dfk__spawn malloc (b_guard b) D ep arg argsize) k Q.
Proof using Hok Hmalloc.
  intros Hs Harg H0 HQ. destruct (sd_dfk _ _ Hs) as (d & Hd & Hsz). pose proof (so_dfk Hok) as HD.
  pose proof stack_bounds as Hst. pose proof (so_guard Hok) as Hg. pose proof (so_stack Hok) as Hstk.
  unfold FIBER_T, STACK_ALIGNMENT in Hst, Hstk.
  unfold dfk__spawn. apply wp_bind, wp_assert; [apply nonnull_true; lia|].
  apply wp_bind. eapply wp_deref; [lia|exact Hd|]. rewrite Hsz. apply wp_bind, wp_zoom.
  eapply wp_malloc; [done|lia| |].
  - cbv beta. apply wp_if_true; [done|]. apply wp_bind.
    replace (lset kbytes (lget kbytes k) k) with k by by destruct k.
    eapply wp_update; [lia|exact Hd|]. apply wp_ret. eapply H0; [by apply seeds_errno|done| |].
    + cbn. apply lookup_insert_eq.
    + done.
  - intros p m' Hal. pose proof (al_pos _ _ _ _ Hal) as Hp. pose proof (al_end _ _ _ _ Hal) as Hend.
    destruct (sd_lists _ _ Hs) as (σ & Hl & Hc1 & Hc2 & Hsp).
    apply wp_if_false; [apply isnull_false; lia|]. cbv zeta. apply wp_bind.
    apply (wp_mono _ _ (fun r k1 => exists m'', r = (arg_of p arg argsize, p + FIBER_T + argsize) /\
      k1 = lset kbytes m'' k /\ blocks m'' = blocks m' /\ (forall q n, room_at m' q n -> room_at m'' q n) /\
      (forall a, is_Some (cells m' !! a) -> is_Some (cells m'' !! a)))).
    { unfold arg_of. destruct (argsize =? 0) eqn:E.
      - apply Z.eqb_eq in E as ->. apply wp_ret. exists m'. rewrite Z.add_0_r. by split_and!.
      - apply Z.eqb_neq in E. cbn [negb]. apply wp_bind, wp_zoom. apply (copy_arg k m' p); [exact Hal|exact Harg|exact E|].
        intros bs _ Hlen. apply wp_ret. exists (put_bytes (p + FIBER_T) bs m'). split_and!; [done|done|done| |].
        + intros q n. apply room_put.
        + intros a. apply put_cells_some. }
    intros ? ? (m'' & -> & -> & Hb & Hroom & Hcells). apply wp_bind, wp_zoom. eapply wp_mono.
    { eapply law_hook_init; [exact Hl| |].
      - unfold valid_addr, f_hook, USER_END, SIZE_MOD, SIZE_BITS in *. lia.
      - intros l xs Hx Hin. rewrite (Hc2 l xs Hx) in Hin. by apply not_elem_of_nil in Hin. }
    intros [] l Hl'. apply wp_bind, wp_store; [lia|]. apply wp_bind, wp_assert.
    { apply Z.ltb_lt. assert (0 <= argsize /\ FIBER_T + argsize + b_guard b + 16 <= stack) as [? ?].
      { destruct Harg as [->|(? & ? & _)]; unfold FIBER_T, STACK_ALIGNMENT in *; lia. }
      pose proof (align_stack_lt (p + FIBER_T + argsize + b_guard b)). unfold FIBER_T, STACK_ALIGNMENT in *. lia. }
    apply wp_bind, wp_store; [lia|]. apply wp_ret. apply HQ; [lia|by eapply seed_new| |done|done].
    by eapply (seeds_born k F p m' Hs Hal m'' σ l).
Qed.

(** ** Release of a fiber *)

Lemma seed_free k F f (Q : unit -> kmem Mem -> Prop) : seeds k F -> f ∈ F ->
  (forall k', seeds k' (F ∖ {[f]}) -> k_dfks k' = k_dfks k -> k_ctx k' = k_ctx k -> Q tt k') ->
  wp (dfk__fiber_free D f) k Q.
Proof using Hok.
  intros Hs Hf HQ. destruct (sd_blocks _ _ Hs f Hf) as (H0 & Ha & He & Hb & Hr). pose proof stack_bounds as Hst.
  unfold FIBER_T, STACK_ALIGNMENT in Hst.
  destruct (sd_lists _ _ Hs) as (σ & Hl & Hc1 & Hc2 & Hsp).
  assert (is_Some (k_fibers k !! f)) as [fo Hfo] by (by apply (sd_fibers _ _ Hs)).
  unfold dfk__fiber_free. apply wp_bind, wp_zoom. eapply wp_free; [done..|].
  apply wp_bind, wp_zoom. eapply wp_mono; [eapply law_hook_dispose; [exact Hl|by apply Hsp]|].
  intros [] l Hl'. eapply wp_dispose; [exact Hfo|]. apply HQ; [|done|done].
  cbn [hget hset lset lget kbytes klists fibers_of]. split; try apply Hs.
  - intros g. cbn. rewrite elem_of_difference, not_elem_of_singleton, lookup_delete_is_Some, (sd_fibers _ _ Hs g).
    naive_solver.
  - intros g go. cbn. rewrite lookup_delete_Some. intros [_ Hg]. by eapply (sd_fiber_dfk _ _ Hs).
  - intros g [Hg Hne%not_elem_of_singleton]%elem_of_difference.
    destruct (sd_blocks _ _ Hs g Hg) as (? & ? & ? & Hgb & Hgr). split_and!; [done..| |]; cbn.
    + by rewrite lookup_delete_ne.
    + eapply room_same; [|exact Hgr]. apply same_removed; [lia|]. right.
      destruct (sd_apart _ _ Hs g f Hg Hf Hne); auto.
  - intros g h [Hg _]%elem_of_difference [Hh _]%elem_of_difference. by apply (sd_apart _ _ Hs).
  - intros w Hw. destruct (sd_queues _ _ Hs w Hw) as [Hc Hn]. split.
    + cbn -[remove_block]. rewrite cells_remove_block by lia. rewrite decide_False; [done|]. by apply Hn.
    + intros g [Hg _]%elem_of_difference. by apply Hn.
  - eexists. split; [exact Hl'|]. split_and!; [done..|]. intros g [Hg Hne%not_elem_of_singleton]%elem_of_difference.
    cbn. unfold occupy. apply elem_of_difference. split; [by apply Hsp|]. intros E%elem_of_singleton.
    unfold f_hook in E. apply Hne. lia.
Qed.

End boot.
