(* ===== verification/RuntimeWork.v ===== *)
(** * [dfk_work] from beginning to end *)

From S2P Require Import Prelude Bytes ListSpec ListSeg Error Misc Fiber Sync Select Scheduler Fuel.
From S2P Require Import Runtime RuntimeStep RuntimeSched RuntimeSim RuntimeOps RuntimeIo RuntimeLoop RuntimeSpawn.
From S2P Require Import RuntimeRun RuntimeMain RuntimeBoot.

Open Scope Z_scope.

Section work.
Context (b : setup).
#[local] Notation D := (b_dfk b).
#[local] Notation frame := (fun f => f + b_frame b).

Context `{Mem : Type, It : Type, !ListOps Mem It, !ListLaws Mem It}.
Implicit Types k : kmem Mem.

(** ** The end *)

(** The fibers of the runtime are gone; of the others those are left that
    nobody can wake. *)
Record worked (sf ef : Z) (a : astate) k : Prop := Worked {
  wk_fibers : forall f, is_Some (k_fibers k !! f) <-> f ∈ fibers a /\ f <> sf /\ f <> ef;
  wk_sched : blocks (k_bytes k) !! sf = None;
  wk_loop : blocks (k_bytes k) !! ef = None;
  wk_rest : forall f, f ∈ fibers a -> f <> sf -> f <> ef -> blocks (k_bytes k) !! f = Some (b_stack b) /\
    ((exists m o, f ∈ q a (LMutex m) /\ owner a !! m = Some o /\ o <> 0 /\ o <> f) \/
     (exists c, f ∈ q a (LCond c)))
}.

Lemma free_scheduler sf ef k a f0 (Q : unit -> kmem Mem -> Prop) : let ly := layout_of b sf ef in
  layout_ok ly -> krep ly k (del_fiber ef a) -> sf ∈ fibers a -> sf <> ef -> unqueued (del_fiber ef a) sf ->
  blocks (k_bytes k) !! ef = None ->
  (forall f, f ∈ fibers a -> f <> sf -> f <> ef ->
    (exists m o, f ∈ q a (LMutex m) /\ owner a !! m = Some o /\ o <> 0 /\ o <> f) \/
    (exists c, f ∈ q a (LCond c))) ->
  (forall k', worked sf ef a k' -> Q tt k') -> wp (dfk__fiber_free D sf) (switch f0 k) Q.
Proof.
  intros ly Hly Hk HS Hne Hu Hef Hrest HQ.
  assert (sf ∈ fibers (del_fiber ef a)) as HS' by (cbn; set_solver).
  destruct (kr_blocks _ _ _ Hk sf HS') as (H0 & Ha & He & Hb & Hr).
  destruct (kr_lists _ _ _ Hk) as (σ & Hl & Hσ).
  assert (is_Some (k_fibers k !! sf)) as [fo Hfo] by (by apply (kr_fibers _ _ _ Hk)).
  unfold dfk__fiber_free. apply wp_bind, wp_zoom. eapply wp_free; [done..|].
  apply wp_bind, wp_zoom. eapply wp_mono.
  { eapply law_hook_dispose; [exact Hl|]. by apply (lk_spare _ _ _ Hσ). }
  intros [] l Hl'. eapply wp_dispose; [exact Hfo|]. apply HQ. split; cbn.
  - intros f. rewrite lookup_delete_is_Some, <- (kr_fibers _ _ _ Hk f). cbn. set_solver.
  - by rewrite lookup_delete_eq.
  - by rewrite lookup_delete_ne.
  - intros f Hf Hfs Hfe. rewrite lookup_delete_ne by done. split; [|by apply Hrest].
    apply (kr_blocks _ _ _ Hk f). cbn. set_solver.
Qed.

(** ** The loop *)

Context `{!IterStable Mem It}.
Context (Hok : setup_ok b).
Context (malloc : bmem -> Z -> Z) (Hmalloc : malloc_ok malloc).
Context (select : nat -> Z -> list Z -> list Z -> list Z -> select_result) (Hselect : no_select_error select).
Context (fuel : nat).

Section loop.
Context (sf ef : Z) (a0 : astate).
#[local] Notation ly := (layout_of b sf ef).
#[local] Notation rstep := (rstep sf ef (frame_at ly)).
#[local] Notation good := (good sf ef (l_loop_at ly) (frame_at ly) (b_mutexes b) (b_conds b)).
#[local] Notation failed := (failed ly a0).

(** Iterations until there is nothing left to do. *)
Lemma scheduler_loop_spec k : layout_ok ly -> krep ly k a0 -> good a0 -> cur a0 = sf -> q a0 (LLocal sf) = [] ->
  wpe (loop fuel (scheduler_loop_body malloc (b_guard b) (frame_at ly) select fuel (l_sched ly)) tt) failed k
    (fun _ k' => exists a, rtc rstep a0 a /\ krep ly k' a /\ good a /\ cur a = sf /\ q a (LLocal sf) = [] /\ idle a).
Proof using Hmalloc Hselect IterStable0.
  intros Hly Hk Hg Hc Hl.
  apply (wpe_loop failed (fun _ k' => exists a, rtc rstep a0 a /\ krep ly k' a /\ good a /\ cur a = sf /\
    q a (LLocal sf) = [])); [by left| |by exists a0].
  intros [] k' (a & Hr & Hk' & Hg' & Hc' & Hl'). unfold scheduler_loop_body. apply wpe_bind.
  eapply wpe_weaken.
  - by apply (dfk__scheduler_refines ly Hly malloc Hmalloc select Hselect fuel k' a).
  - intros e He. by eapply failed_later.
  - intros [] k'' Hit; apply wpe_ret.
    + destruct Hit as [-> Hid]. by exists a.
    + destruct Hit as (_ & c & (a1 & a2 & Hre & Htu & Hpo) & Hk'' & Hg'' & Hc'' & Hl''). exists c. split_and!; try done.
      etrans; [exact Hr|]. eapply iteration_rtc; [done|done|]. by exists a1, a2.
Qed.
End loop.

(** ** [dfk_work] *)

#[local] Notation spawn := (dfk__spawn malloc (b_guard b) D).

(** [dfk_work] starts the program from memory [k]: it makes the fibers of the
    program, of the scheduler and of the event loop, one after the other. *)
Definition booted k (ep : Z -> code) (arg argsize : Z) (mf sf ef : Z) k3 : Prop := exists k1 k2,
  spawn ep arg argsize k = Ok (mf, k1) /\
  spawn (fun arg => SchedulerMain arg) mf 0 k1 = Ok (sf, k2) /\
  spawn (fun arg => LoopStart arg) (sf + b_loop b) 0 (switch sf k2) = Ok (ef, k3).

(** The only ways to fail: the bound is exhausted, or some fiber makes a call it
    has no right to, in a state that the steps of the runtime lead to from the
    one in which this program was started. *)
Definition program_fault k (ep : Z -> code) (arg argsize : Z) (e : fault) : Prop :=
  e = OutOfFuel \/ (e = AssertFailed /\ exists mf sf ef k3 a,
    booted k ep arg argsize mf sf ef k3 /\
    rtc (rstep sf ef frame) (boot_state b sf ef mf k3) a /\ misuse a).

Definition main_fault k (sf mf : Z) (e : fault) : Prop :=
  e = OutOfFuel \/ (e = AssertFailed /\ exists ef k3 a,
    spawn (fun arg => LoopStart arg) (sf + b_loop b) 0 k = Ok (ef, k3) /\
    rtc (rstep sf ef frame) (boot_state b sf ef mf k3) a /\ misuse a).

(** Nothing is left, or what nobody can wake. *)
Definition outcome_ok k : Prop :=
  (forall f, k_fibers k !! f = None) \/ (exists sf ef a, worked sf ef a k).

Lemma seeds_none k : seeds b k ∅ -> forall f, k_fibers k !! f = None.
Proof using. intros Hs f. apply eq_None_not_Some. rewrite <- (sd_fibers _ _ _ Hs f). apply not_elem_of_empty. Qed.

(** The last lines of [dfk__scheduler_main], and of [dfk_work]. *)
Lemma finish_spec sf ef k a (Q : unit -> kmem Mem -> Prop) : let ly := layout_of b sf ef in
  let gd := good sf ef (l_loop_at ly) (frame_at ly) (b_mutexes b) (b_conds b) in
  layout_ok ly -> krep ly k a -> gd a -> cur a = sf -> q a (LLocal sf) = [] -> idle a ->
  (forall k', (forall f0 (R : unit -> kmem Mem -> Prop), (forall k'', worked sf ef a k'' -> R tt k'') ->
     wp (dfk__fiber_free D sf) (switch f0 k') R) -> Q tt k') ->
  wp ((update scheds_of (l_sched ly) (set_current 0);;
       dfk__eventloop_free (l_loop_at ly));;
      dfk__fiber_free D ef) k Q.
Proof using.
  intros ly gd Hly Hk Hg Hc Hl (Ht & Hp & Ha) HQ. pose proof Hg as (loc & Hi & He).
  destruct (ai_system Hi) as (Hne & HsL & HeL & _). destruct (lo_ne _ Hly) as (_ & HS & HL).
  assert (forall f, f = sf \/ f = ef -> f ∈ fibers a) as Hin.
  { intros f Hf. rewrite (ai_fibers Hi), !elem_of_union, !elem_of_singleton. tauto. }
  assert (forall f, f = sf \/ f = ef -> loc !! f = None) as Hno.
  { intros f [->| ->]; by apply not_elem_of_dom. }
  assert (forall f, f = sf \/ f = ef -> unqueued a f) as Hu.
  { intros f Hf n Hn Hq. apply (ai_queued Hi) in Hq; [|done]. rewrite Hno in Hq by done. done. }
  destruct (kr_sched _ _ _ Hk) as (s & Hs & H1 & H2 & H3 & H4).
  apply wp_bind, wp_bind. eapply wp_update; [lia|exact Hs|].
  set (k2 := hset _ _ _). assert (krep ly k2 a) as Hk2.
  { split; try apply Hk. exists (set_current 0 s). cbn. rewrite lookup_insert_eq. by split_and!. }
  unfold dfk__eventloop_free. apply wp_bind, wp_assert; [apply nonnull_true; lia|]. apply wp_ret.
  destruct (kr_blocks _ _ _ Hk2 ef (Hin ef (or_intror eq_refl))) as (He0 & Hea & _ & Heb & _).
  eapply (dfk__fiber_free_spec ly Hly); [exact Hk2|by auto|by apply not_eq_sym|by eapply ainv_quiet|by auto|..].
  - intros Hq. apply (ai_waiting Hi) in Hq as (g & Hg2%frame_at_inj & Hl2). subst g. rewrite Hno in Hl2 by auto. done.
  - apply eq_None_not_Some. intros [el Hel]. destruct (ai_elems Hi _ _ Hel) as (g & Hg2%frame_at_inj & Hl2). subst g.
    rewrite Hno in Hl2 by auto. destruct Hl2 as [?|(? & ? & ? & _)]; done.
  - intros k3 Hk3 Hfree. apply HQ. intros f0 R HR. eapply (free_scheduler sf ef k3 a); [done|done|by auto|done|by apply Hu; left|done| |exact HR].
    intros f Hf Hfs Hfe.
    destruct (idle_blocked sf ef (l_loop_at ly) (frame_at ly) (b_mutexes b) (b_conds b) _ a Hg Hc Hp Ht Hl Ha f Hf)
      as [?|[?|?]]; done.
Qed.


#[local] Notation main := (dfk__scheduler_main malloc (b_guard b) frame select fuel (b_sched b) (b_loop b)).

(** The scheduler's fiber, and its release. *)
Lemma scheduler_main_spec k sf mf c : seeds b k ({[sf]} ∪ {[mf]}) -> sf <> mf -> k_at k = sf ->
  k_ctx k !! mf = Some c -> user (b_mutexes b) (b_conds b) c ->
  wpe (main sf mf;; dfk__fiber_free D sf) (main_fault k sf mf) k (fun _ k' => outcome_ok k').
Proof using Hok Hmalloc Hselect IterStable0.
  intros Hs Hne Hat Hc Hu. assert (0 < sf) as Hsf by (eapply seeds_fiber; [done|set_solver]).
  assert (0 < mf) as Hmf by (eapply seeds_fiber; [done|set_solver]). pose proof (so_dfk _ Hok) as HD.
  assert (sf ∈ ({[sf]} ∪ {[mf]} : gset Z)) as Hin by set_solver.
  apply wpe_bind. unfold dfk__scheduler_main. apply wpe_bind_wp, wp_assert; [apply nonnull_true; lia|].
  pose proof Hin as Hobj. apply (sd_fibers _ _ _ Hs) in Hobj as [fo Hfo].
  apply wpe_bind_wp. eapply wp_deref; [lia|exact Hfo|]. rewrite (sd_fiber_dfk _ _ _ Hs _ _ Hfo).
  apply wpe_bind_wp, wp_assert; [apply nonnull_true; lia|]. apply wpe_bind_wp, wp_assert; [apply nonnull_true; lia|].
  cbv zeta. apply wpe_bind_wp, wp_ran. eapply (seed_spawn b Hok malloc Hmalloc); [exact Hs|by left|..].
  - (* no event loop *)
    intros k1 d Hs1 _ _ _ _. change (isnull 0) with true. cbv iota.
    apply wpe_bind_wp. eapply (seed_free b Hok); [exact Hs1|set_solver|]. intros k2 Hs2 _ _.
    apply wp_wpe, wp_modify, wp_wpe. eapply (seed_free b Hok); [by apply seeds_switch|set_solver|].
    intros k3 Hs3 _ _. left. apply seeds_none. by replace (∅ : gset Z) with (({[sf]} ∪ {[mf]}) ∖ {[mf]} ∖ {[sf]} : gset Z) by set_solver.
  - intros ef k1 Hef0 Hef Hs1 Hctx Hat1 Hrun1. rewrite (isnull_false ef Hef0).
    assert (sf <> ef /\ sf <> mf /\ ef <> mf) as Hd by (split_and!; set_solver).
    assert (({[ef]} ∪ ({[sf]} ∪ {[mf]}) : gset Z) = {[sf]} ∪ ({[ef]} ∪ {[mf]})) as HF by set_solver.
    rewrite HF in Hs1.
    pose proof (layout_of_ok b Hok sf ef mf k1 Hs1 Hd) as Hly.
    assert (good sf ef (sf + b_loop b) frame (b_mutexes b) (b_conds b) (boot_state b sf ef mf k1)) as Hg.
    { eapply (good_boot b Hok sf ef mf k1 Hs1 Hd c); [|done|].
      - rewrite Hctx, lookup_insert_ne by naive_solver. done.
      - by rewrite Hctx, lookup_insert_eq. }
    do 3 apply wpe_bind_assoc. apply wpe_bind_wp.
    eapply (boot_spec b Hok sf ef mf k1 Hs1 Hd); [congruence|]. intros k2 Hk2.
    apply wpe_bind. eapply wpe_weaken;
      [by apply (scheduler_loop_spec sf ef (boot_state b sf ef mf k1) k2 Hly Hk2 Hg)| |].
    + intros e [->|(-> & a & Hr & Hm)]; [by left|right]. split; [done|]. by exists ef, k1, a.
    + intros [] k3 (a & Hr & Hk3 & Hg3 & Hc3 & Hl3 & Hid). do 2 apply wpe_bind_assoc. apply wpe_bind_wp.
      eapply (finish_spec sf ef k3 a); [exact Hly|exact Hk3|exact Hg3|done..|].
      intros k4 Hfin. apply wp_wpe, wp_modify, wp_wpe, Hfin. intros k5 Hw. right. by exists sf, ef, a.
Qed.

(** What [dfk_work] returns, and leaves behind. *)
Lemma dfk_work_spec k ep arg argsize : seeds b k ∅ -> arg_ok b k arg argsize ->
  (forall p, user (b_mutexes b) (b_conds b) (ep p)) ->
  wpe (dfk_work malloc (b_guard b) frame select fuel (b_sched b) (b_loop b) D ep arg argsize)
    (program_fault k ep arg argsize) k (fun r k' =>
    (r = err_code dfk_err_nomem /\ forall f, k_fibers k' !! f = None) \/ (r = err_code dfk_err_ok /\ outcome_ok k')).
Proof using Hok Hmalloc Hselect IterStable0.
  intros Hs Harg Hu. pose proof (so_dfk _ Hok) as HD.
  unfold dfk_work. apply wpe_bind_wp, wp_assert; [apply nonnull_true; lia|].
  apply wpe_bind_wp, wp_ran. eapply (seed_spawn b Hok malloc Hmalloc); [exact Hs|exact Harg|..].
  - intros k1 d Hs1 _ Hd Herr _. change (isnull 0) with true. cbv iota.
    apply wpe_bind_wp. eapply wp_deref; [lia|exact Hd|]. apply wpe_ret. left. split; [done|by apply seeds_none].
  - intros mf k1 Hmf0 _ Hs1 Hctx1 _ Hrun1. rewrite (isnull_false mf Hmf0). rewrite union_empty_r_L in Hs1.
    apply wpe_bind_wp, wp_ran. eapply (seed_spawn b Hok malloc Hmalloc); [exact Hs1|by left|..].
    + intros k2 d Hs2 _ Hd Herr _. change (isnull 0) with true. cbv iota.
      apply wpe_bind_wp. eapply (seed_free b Hok); [exact Hs2|by apply elem_of_singleton|]. intros k3 Hs3 Hd3 _.
      apply wpe_bind_wp. eapply wp_deref; [lia|cbn; by rewrite Hd3|]. apply wpe_ret. left. split; [done|].
      apply seeds_none. by rewrite difference_diag_L in Hs3.
    + intros sf k2 Hsf0 Hsf Hs2 Hctx2 _ Hrun2. rewrite (isnull_false sf Hsf0).
      rewrite not_elem_of_singleton in Hsf. apply wpe_bind_wp, wp_modify.
      set (c := ep (arg_of mf arg argsize)).
      apply wpe_bind_assoc. apply wpe_bind. eapply wpe_weaken; [eapply (scheduler_main_spec _ sf mf c)| |].
      * by apply seeds_switch.
      * done.
      * done.
      * cbn. rewrite Hctx2, lookup_insert_ne, Hctx1, lookup_insert_eq by done. done.
      * apply Hu.
      * intros e [->|(-> & ef & k3 & a & Hrun3 & Ha)]; [by left|right]. split; [done|]. exists mf, sf, ef, k3, a.
        split; [|exact Ha]. by exists k1, k2.
      * intros [] k3 Hk3. apply wpe_ret. by right.
Qed.

(** If there is no memory for the fiber of the event loop, that of the program
    is freed unused. *)
Lemma no_loop_spec k ep arg argsize mf sf k3 : seeds b k ∅ -> arg_ok b k arg argsize ->
  booted k ep arg argsize mf sf 0 k3 -> mf <> 0 -> sf <> 0 ->
  wp (dfk_work malloc (b_guard b) frame select fuel (b_sched b) (b_loop b) D ep arg argsize) k (fun r k' =>
    r = err_code dfk_err_ok /\ k_ctx k' !! mf = Some (ep (arg_of mf arg argsize)) /\
    (forall f, k_fibers k' !! f = None) /\ dfk_errno <$> (k_dfks k' !! D) = Some (err_code dfk_err_nomem)).
Proof using Hok Hmalloc.
  clear IterStable0 Hselect. intros Hs Harg (k1 & k2 & Hrun1 & Hrun2 & Hrun3) Hmf0 Hsf0. pose proof (so_dfk _ Hok) as HD.
  unfold dfk_work. apply wp_bind, wp_assert; [apply nonnull_true; lia|].
  apply wp_bind, wp_ran. eapply (seed_spawn b Hok malloc Hmalloc); [exact Hs|exact Harg|..].
  { intros k1' d _ _ _ _ E. congruence. }
  intros mf' k1' _ _ Hs1 Hctx1 _ E. rewrite Hrun1 in E. injection E as <- <-. rewrite (isnull_false mf Hmf0).
  rewrite union_empty_r_L in Hs1. apply wp_bind, wp_ran.
  eapply (seed_spawn b Hok malloc Hmalloc); [exact Hs1|by left|..].
  { intros k2' d _ _ _ _ E. congruence. }
  intros sf' k2' _ Hsf Hs2 Hctx2 _ E. rewrite Hrun2 in E. injection E as <- <-. rewrite (isnull_false sf Hsf0).
  rewrite not_elem_of_singleton in Hsf. apply wp_bind, wp_modify.
  pose proof (seeds_switch b _ _ sf Hs2) as Hs2'. set (k2' := switch sf k2) in *.
  assert (0 < mf /\ 0 < sf) as [Hmf Hsf1] by (split; (eapply seeds_fiber; [exact Hs2'|set_solver])).
  assert (is_Some (k_fibers k2' !! sf)) as [fo Hfo] by (apply (sd_fibers _ _ _ Hs2'); set_solver).
  apply wp_bind. unfold dfk__scheduler_main. apply wp_bind, wp_assert; [apply nonnull_true; lia|].
  apply wp_bind. eapply wp_deref; [lia|exact Hfo|]. rewrite (sd_fiber_dfk _ _ _ Hs2' _ _ Hfo).
  do 2 (apply wp_bind, wp_assert; [apply nonnull_true; lia|]). cbv zeta. apply wp_bind, wp_ran.
  eapply (seed_spawn b Hok malloc Hmalloc); [exact Hs2'|by left|..].
  - intros k3' d Hs3 Hctx3 Hd Herr E. rewrite Hrun3 in E. injection E as <-. change (isnull 0) with true. cbv iota.
    apply wp_bind. eapply (seed_free b Hok); [exact Hs3|set_solver|]. intros k4 Hs4 Hd4 Hctx4.
    apply wp_modify, wp_bind. eapply (seed_free b Hok); [by apply seeds_switch|set_solver|]. intros k5 Hs5 Hd5 Hctx5.
    apply wp_ret. split; [done|]. split; [|split].
    + rewrite Hctx5. change (k_ctx (switch 0 k4)) with (k_ctx k4). rewrite Hctx4, Hctx3. change (k_ctx k2') with (k_ctx k2).
      rewrite Hctx2, lookup_insert_ne, Hctx1, lookup_insert_eq by done. done.
    + apply seeds_none. by replace (∅ : gset Z) with (({[sf]} ∪ {[mf]}) ∖ {[mf]} ∖ {[sf]} : gset Z) by set_solver.
    + rewrite Hd5. change (k_dfks (switch 0 k4)) with (k_dfks k4). rewrite Hd4, Hd. cbn. by rewrite Herr.
  - intros ef k3' Hef0 _ _ _ _ E. congruence.
Qed.

End work.
