(* ===== verification/RuntimeTurn.v ===== *)
(** * A fiber's turn ends

    A turn of a client fiber reaches the scheduler after finitely many steps if
    the program itself comes to a call that gives up the processor: no call of
    the library loops. *)

From S2P Require Import Prelude Bytes ListSpec ListSeg Error Misc Fiber Sync Select Scheduler Fuel.
From S2P Require Import Runtime RuntimeStep RuntimeSched RuntimeSim RuntimeOps RuntimeIo RuntimeLoop RuntimeSpawn.
From S2P Require Import RuntimeRun.

Open Scope Z_scope.

(** Whatever its calls return, the program ends or comes to a call that gives up
    the processor, after finitely many steps: what a fiber has to do, since no
    other fiber runs meanwhile.  A lock of a mutex that is free does not count,
    nor does what [dfk_cond_wait] goes on with. *)
Inductive settles : code -> Prop :=
| settles_return : settles Return
| settles_postpone k : settles (Postpone k)
| settles_wait c m k : settles (Wait c m k)
| settles_io fd ev k : settles (Io fd ev k)
| settles_machine next s : settles (unroll next s) -> settles (Machine next s)
| settles_mutex_free m k : settles k -> settles (MutexFree m k)
| settles_lock m k : settles k -> settles (Lock m k)
| settles_locked m k : settles k -> settles (Locked m k)
| settles_unlock m k : settles k -> settles (Unlock m k)
| settles_trylock m k : (forall r, settles (k r)) -> settles (Trylock m k)
| settles_cond_free c k : settles k -> settles (CondFree c k)
| settles_signal c k : settles k -> settles (Signal c k)
| settles_broadcast c k : settles k -> settles (Broadcast c k)
| settles_spawn ep arg size k : (forall r, settles (k r)) -> settles (Spawn ep arg size k)
| settles_io_done e k : (forall r, settles (k r)) -> settles (IoDone e k).

(** A program that tries a mutex until it gets it never gives up the
    processor. *)
Definition spin (m s : Z) : act := if s =? 0 then DoReturn else DoTrylock m (fun r => r).

Lemma spin_unsettled m : ~ settles (Machine (spin m) 1).
Proof.
  assert (forall c, settles c -> c <> Machine (spin m) 1 /\ c <> Trylock m (fun r => Machine (spin m) r)) as H;
    [|by intros [? _]%H].
  induction 1 as [| | | |next s _ [_ IH]| | | | |m' k _ IH| | | | |]; try done.
  - split; [|done]. intros [= -> ->]. by apply IH.
  - split; [done|]. intros [= -> ->]. by destruct (IH 1) as [? _].
Qed.

Section turn.
Context (ly : layout).
#[local] Notation SF := (l_sfiber ly).
#[local] Notation EF := (l_efiber ly).
#[local] Notation frame := (frame_at ly).
#[local] Notation krep := (krep ly).
#[local] Notation good := (good SF EF (l_loop_at ly) frame (l_mutexes ly) (l_conds ly)).
#[local] Notation astep := (astep SF frame).
#[local] Notation calls := (calls SF frame).

Context `{Mem : Type, It : Type, !ListOps Mem It, !ListLaws Mem It, !IterStable Mem It}.
Context (Hly : layout_ok ly).
Context (malloc : bmem -> Z -> Z) (Hmalloc : malloc_ok malloc).
Context (select : nat -> Z -> list Z -> list Z -> list Z -> select_result) (Hselect : no_select_error select).
Implicit Types k : kmem Mem.
#[local] Notation step := (step malloc (l_guard ly) frame select).
#[local] Notation body := (fun fuel => fibers_body malloc (l_guard ly) frame select fuel SF).

(** A call without the right to it, later in the turn. *)
Definition turn_fault (a : astate) (e : fault) : Prop :=
  e = AssertFailed /\ exists b, rtc astep a b /\ misuse b.

Definition turn_done (a : astate) k : Prop := exists b, rtc astep a b /\ krep k b /\ good b /\ cur b = SF.

(** Enough iterations, and a bound that is large enough for each, end the
    turn. *)
Definition ends k (a : astate) : Prop := exists n0 f0 : nat, forall n fuel, (n0 <= n)%nat -> (f0 <= fuel)%nat ->
  wpe (loop n (body fuel) tt) (turn_fault a) k (fun _ => turn_done a).

Lemma ends_later k a b : astep a b -> ends k b -> exists n0 f0 : nat, forall n fuel,
  (n0 <= n)%nat -> (f0 <= fuel)%nat -> wpe (loop n (body fuel) tt) (turn_fault a) k (fun _ => turn_done a).
Proof.
  intros Hs (n0 & f0 & H). exists n0, f0. intros n fuel Hn Hf. eapply wpe_weaken; [by apply H| |].
  - intros e (-> & c & Hr & Hm). split; [done|]. exists c. split; [by eapply rtc_l|done].
  - intros _ k' (c & Hr & Hk & Hg & Hc). exists c. split; [by eapply rtc_l|done].
Qed.

Lemma ends_sched k a : krep k a -> good a -> cur a = SF -> ends k a.
Proof.
  intros Hk Hg Hc. exists 1%nat, 0%nat. intros [|n] fuel Hn _; [lia|]. cbn [loop].
  apply wpe_bind. unfold fibers_body. apply wpe_bind, wpe_gets. rewrite (kr_at _ _ _ Hk), Hc, Z.eqb_refl.
  apply wpe_ret, wpe_ret. by exists a.
Qed.

(** A step does not depend on the bound once it is large enough. *)
Lemma step_settled k a : krep k a -> good a -> cur a <> SF -> exists f0 : nat, forall fuel, (f0 <= fuel)%nat ->
  step fuel k = step f0 k /\ wpe (step f0) (misused a) k (fun _ k' => exists b, astep a b /\ krep k' b).
Proof using Hly Hmalloc Hselect IterStable0.
  intros Hk Hg Hc. exists (S (size (fibers a))). intros fuel Hf.
  assert (wpe (step (S (size (fibers a)))) (misused a) k (fun _ k' => exists b, astep a b /\ krep k' b)) as H.
  { eapply step_refines; [done..|]. lia. }
  split; [|done]. destruct (step_fuel malloc (l_guard ly) frame select _ _ Hf k) as [E|E]; [|done].
  unfold wpe in H. rewrite E in H. by destruct H.
Qed.

Lemma ends_step k a : krep k a -> good a -> cur a <> SF ->
  (forall k' b, astep a b -> krep k' b -> good b -> ends k' b) -> ends k a.
Proof using Hly Hmalloc Hselect IterStable0.
  intros Hk Hg Hc IH. destruct (step_settled k a Hk Hg Hc) as (f1 & Hst).
  destruct (Hst f1 (le_n _)) as [_ Hw]. unfold wpe in Hw. destruct (step f1 k) as [[[] k1]|e] eqn:E.
  - destruct Hw as (b & Hs & Hk1). assert (good b) as Hg1 by (eapply astep_good; [apply _|exact Hg|exact Hs]).
    destruct (ends_later _ _ _ Hs (IH k1 b Hs Hk1 Hg1)) as (n0 & f0 & Hend).
    exists (S n0), (Nat.max f1 f0). intros [|n] fuel Hn Hf; [lia|]. cbn [loop].
    apply wpe_bind. unfold fibers_body at 1. apply wpe_bind, wpe_gets. rewrite (kr_at _ _ _ Hk).
    rewrite (proj2 (Z.eqb_neq _ _) Hc). apply wpe_bind. unfold wpe at 1.
    destruct (Hst fuel ltac:(lia)) as [-> _]. apply wpe_ret. apply Hend; lia.
  - exists 1%nat, f1. intros [|n] fuel Hn Hf; [lia|]. cbn [loop].
    apply wpe_bind. unfold fibers_body at 1. apply wpe_bind, wpe_gets. rewrite (kr_at _ _ _ Hk).
    rewrite (proj2 (Z.eqb_neq _ _) Hc). apply wpe_bind. unfold wpe.
    destruct (Hst fuel ltac:(lia)) as [-> _].
    destruct Hw as [-> Hm]. split; [done|]. by exists a.
Qed.

(** ** By induction on what the fiber still has to do *)

(** A step that stays with the fiber leads to [c']. *)
Definition leads (a b : astate) (P : code -> Prop) : Prop :=
  cur b = SF \/ (cur b = cur a /\ exists c', codes b !! cur b = Some c' /\ P c').

Definition ending (c : code) : Prop := forall k a, krep k a -> good a -> cur a <> SF -> cur a <> EF ->
  codes a !! cur a = Some c -> ends k a.

Lemma ending_step c : (forall a b, calls a c b -> leads a b ending) -> ending c.
Proof using Hly Hmalloc Hselect IterStable0.
  intros Hl k a Hk Hg Hs He Hc. apply ends_step; [done..|]. intros k' b (_ & c' & Hc' & Hcall) Hk' Hg'.
  rewrite Hc in Hc'. injection Hc' as <-. destruct (Hl a b Hcall) as [Hb|(Hb & c' & Hcb & Hend)].
  - by apply ends_sched.
  - apply Hend; [done|done|congruence|congruence|done].
Qed.

Lemma leads_code a c (P : code -> Prop) : P c -> leads a (set_code (cur a) c a) P.
Proof. intros HP. right. split; [done|]. exists c. split; [apply codes_hand|done]. Qed.

Lemma ending_locked m c : ending c -> ending (Locked m c).
Proof using Hly Hmalloc Hselect IterStable0.
  intros H. apply ending_step. intros a b Hcall. inversion Hcall; subst. by apply leads_code.
Qed.

Lemma release_leads m c a : ending c -> leads a (a_release m (set_code (cur a) c a)) ending.
Proof.
  intros H. destruct (release_fields m (set_code (cur a) c a)) as (E1 & E2 & _). right.
  rewrite E1, E2. split; [done|]. exists c. split; [apply codes_hand|done].
Qed.

Lemma settled_ends c : settles c -> ending c.
Proof using Hly Hmalloc Hselect IterStable0.
  induction 1; apply ending_step; intros a b Hcall; inversion Hcall; subst; try (by left); try (by apply leads_code).
  - unfold a_lock. cbn [owner set_code].
    assert (leads a (set_code (cur a) (Locked m k) a) ending) as Hgo by (by apply leads_code, ending_locked).
    repeat case_match; try done. by left.
  - by apply release_leads.
  - right. unfold a_trylock. case_decide; cbn; (split; [done|]; eexists; split; [apply lookup_insert_eq|done]).
  - right. unfold a_signal. case_match; cbn; (split; [done|]; eexists; split; [apply lookup_insert_eq|done]).
  - right. cbn. split; [done|]. eexists. split; [apply lookup_insert_eq|done].
  - right. cbn. split; [done|]. eexists. split; [apply lookup_insert_eq|done].
Qed.

End turn.
