(* ===== verification/RuntimeExamples.v ===== *)
(** * A small program on the fiber runtime

    A concrete set-up (one mutex, one condition variable, a first-fit
    allocator, a [select] that reports everything it is asked for) and a
    program of two fibers that share the mutex; the memories its run goes
    through represent good abstract states. *)

From S2P Require Import Prelude Bytes ListSpec ListSeg ListCheck ListCommon ListPtr ListPtrSpec ListSim Error Misc.
From S2P Require Import Fiber Sync Select Scheduler Fuel.
From S2P Require Import Runtime RuntimeStep RuntimeSched RuntimeSim RuntimeOps RuntimeIo RuntimeLoop RuntimeSpawn.
From S2P Require Import RuntimeRun RuntimeMain RuntimeBoot.

Open Scope Z_scope.

Definition ex_setup : setup := Setup 64 256 16 120 136 208 {[1024]} {[2048]}.

Lemma ex_setup_ok : setup_ok ex_setup.
Proof.
  split; cbn; unfold FIBER_T, STACK_ALIGNMENT, USER_END; try lia.
  - intros x [->%elem_of_singleton| ->%elem_of_singleton]%elem_of_union; lia.
  - set_solver.
Qed.

(** Memory before [dfk_work]: the context, and the objects with empty wait
    queues. *)
Definition ex_lists : mem :=
  match (dfk_list_init 1032;; dfk_list_init 2056) (LMem ∅ ∅) with Ok (_, m) => m | Err _ => LMem ∅ ∅ end.
Definition ex_mem : kmem mem :=
  KMem ex_lists (BMem {[1032 := None; 2056 := None]} ∅) {[64 := Dfk 0 0 256 0 0]} ∅ ∅
    {[1024 := MutexObj 64 0]} {[2048 := CondObj 64]} ∅ ∅ ∅ 0 0.

Lemma ex_queues l : waitqueue ex_setup l -> l = 1032 \/ l = 2056.
Proof.
  intros [(m & Hm & ->)|(c & Hc & ->)].
  - change (m ∈ ({[1024]} : gset Z)) in Hm. apply elem_of_singleton in Hm as ->. by left.
  - change (c ∈ ({[2048]} : gset Z)) in Hc. apply elem_of_singleton in Hc as ->. by right.
Qed.

Lemma ex_seeds : seeds (It := dfk_list_it) ex_setup ex_mem ∅.
Proof.
  split; try (intros f Hf; by apply not_elem_of_empty in Hf);
    try (intros f g Hf; by apply not_elem_of_empty in Hf); cbn.
  - by eexists.
  - intros f. rewrite lookup_empty. split; [by intros ?%not_elem_of_empty|by intros []].
  - intros f fo. by rewrite lookup_empty.
  - intros m. change (({[1024 := MutexObj 64 0]} : gmap Z dfk_mutex_t) !! m =
      if decide (m ∈ ({[1024]} : gset Z)) then Some (MutexObj 64 0) else None).
    destruct (decide (m = 1024)) as [->|Hm]; [by rewrite lookup_singleton_eq, decide_True by set_solver|].
    by rewrite lookup_singleton_ne, decide_False by set_solver.
  - intros c Hc. change (c ∈ ({[2048]} : gset Z)) in Hc. by apply elem_of_singleton in Hc as ->.
  - done.
  - intros l [->| ->]%ex_queues; split; try (intros f Hf; by apply not_elem_of_empty in Hf); by eexists.
  - assert (wp (list_init (It := dfk_list_it) 1032;; list_init (It := dfk_list_it) 2056) (LMem ∅ ∅ : mem)
      (fun _ m => lrep m (LSpec (<[2056 := []]> (<[1032 := []]> ∅)) ∅))) as H.
    { apply wp_bind. eapply wp_mono; [eapply law_init; [apply no_lists_rep|done|done]|].
      intros [] m Hm. eapply wp_mono; [by eapply law_init|]. done. }
    exists (LSpec (<[2056 := []]> (<[1032 := []]> ∅)) ∅). split; [exact H|]. split_and!; cbn.
    + by intros l [->| ->]%ex_queues.
    + intros l xs. rewrite !lookup_insert_Some, lookup_empty. naive_solver.
    + intros f Hf. by apply not_elem_of_empty in Hf.
Qed.

(** [select] reports every descriptor it is given. *)
Definition ex_select (n : nat) (maxfd : Z) (r w x : list Z) : select_result := SelReady r w [].

Lemma ex_select_ok : no_select_error ex_select.
Proof. done. Qed.

(** The worker takes the mutex; the main fiber holds it for two more turns
    after the worker was spawned, then reads from descriptor 5. *)
Definition ex_worker (arg : Z) : code := Lock 1024 (Unlock 1024 Return).
Definition ex_main (arg : Z) : code :=
  Lock 1024 (Spawn ex_worker 0 0 (fun _ => Postpone (Postpone (Unlock 1024 (Io 5 DFK_IO_IN (fun _ => Return)))))).

Lemma ex_main_user p : user (b_mutexes ex_setup) (b_conds ex_setup) (ex_main p).
Proof.
  repeat (constructor; intros); cbn; try set_solver; lia.
Qed.

(** The state a successful run leaves. *)
Definition final {S A} (m : M S A) (s : S) : S := match m s with Ok (_, s') => s' | Err _ => s end.
Definition succeeds {S A} (m : M S A) (s : S) (P : A -> bool) : bool :=
  match m s with Ok (a, _) => P a | Err _ => false end.

Lemma wp_final {S A} (m : M S A) s (P : A -> bool) (Q : A -> S -> Prop) :
  wp m s Q -> succeeds m s P = true -> exists a, P a = true /\ Q a (final m s).
Proof.
  unfold wp, succeeds, final. destruct (m s) as [[a s']|]; [|done]. intros HQ HP. by exists a.
Qed.

Lemma wpe_final {S A} (m : M S A) (E : fault -> Prop) s (P : A -> bool) (Q : A -> S -> Prop) :
  wpe m E s Q -> succeeds m s P = true -> exists a, P a = true /\ Q a (final m s).
Proof.
  unfold wpe, succeeds, final. destruct (m s) as [[a s']|]; [|done]. intros HQ HP. by exists a.
Qed.

Lemma final_ok {S A} (m : M S A) s (P : A -> bool) : succeeds m s P = true -> exists a, m s = Ok (a, final m s) /\ P a = true.
Proof. unfold succeeds, final. destruct (m s) as [[a s']|]; [|done]. intros HP. by exists a. Qed.

(** ** Startup *)

#[local] Notation spawn ep arg := (dfk__spawn (It := dfk_list_it) first_fit 16 64 ep arg 0).

Definition ex_k1 : kmem mem := final (spawn ex_main 7) ex_mem.
Definition ex_k2 : kmem mem := switch 2320 (final (spawn (fun arg => SchedulerMain arg) 2064) ex_k1).
Definition ex_k3 : kmem mem := final (spawn (fun arg => LoopStart arg) 2528) ex_k2.
Definition ex_start : M (kmem mem) unit :=
  ((dfk__eventloop_init (It := dfk_list_it) 2528 64;;
    dfk__scheduler_init (It := dfk_list_it) 2456 2320 2576);;
   update dfks_of 64 (fun d => Dfk 2456 2528 (default_stack_size d) (dfk_errno d) (sys_errno d)));;
  dfk__resume (It := dfk_list_it) 2456 2064.
Definition ex_boot : kmem mem := final ex_start ex_k3.

Lemma ex_spawn k F ep arg p : seeds (It := dfk_list_it) ex_setup k F -> p <> 0 ->
  succeeds (spawn ep arg) k (Z.eqb p) = true ->
  let k' := final (spawn ep arg) k in
  p ∉ F /\ seeds (It := dfk_list_it) ex_setup k' ({[p]} ∪ F) /\ k_ctx k' = <[p := ep arg]> (k_ctx k) /\ k_at k' = k_at k.
Proof.
  intros Hs Hp Hrun k'. edestruct (wp_final (spawn ep arg) k (Z.eqb p)) as (r & Hr & HQ); [|exact Hrun|].
  - eapply (seed_spawn ex_setup ex_setup_ok first_fit first_fit_ok k F ep arg 0
      (fun r k' => r <> 0 -> r ∉ F /\ seeds (It := dfk_list_it) ex_setup k' ({[r]} ∪ F) /\
        k_ctx k' = <[r := ep arg]> (k_ctx k) /\ k_at k' = k_at k)); [done|by left|done|].
    intros p' k1 _ Hp' Hs1 Hc1 Ha1 _. by split_and!.
  - apply Z.eqb_eq in Hr as <-. by apply HQ.
Qed.

Lemma ex_seeds3 : seeds (It := dfk_list_it) ex_setup ex_k3 ({[2320]} ∪ ({[2576]} ∪ {[2064]})) /\
  k_ctx ex_k3 !! 2064 = Some (ex_main 7) /\ k_ctx ex_k3 !! 2576 = Some (LoopStart 2528) /\ k_at ex_k3 = 2320.
Proof.
  destruct (ex_spawn ex_mem ∅ ex_main 7 2064 ex_seeds) as (_ & S1 & C1 & _); [done|by vm_compute|].
  fold ex_k1 in S1, C1.
  destruct (ex_spawn ex_k1 _ (fun arg => SchedulerMain arg) 2064 2320 S1) as (_ & S2 & C2 & _); [done|by vm_compute|].
  apply (seeds_switch ex_setup _ _ 2320) in S2. fold ex_k2 in S2.
  destruct (ex_spawn ex_k2 _ (fun arg => LoopStart arg) 2528 2576 S2) as (_ & S3 & C3 & A3); [done|by vm_compute|].
  fold ex_k3 in S3, C3, A3. split_and!.
  - by replace ({[2320]} ∪ ({[2576]} ∪ {[2064]}) : gset Z) with ({[2576]} ∪ ({[2320]} ∪ ({[2064]} ∪ ∅)) : gset Z) by set_solver.
  - rewrite C3, lookup_insert_ne by done. change (k_ctx ex_k2) with (k_ctx (final (spawn (fun arg => SchedulerMain arg) 2064) ex_k1)).
    rewrite C2, lookup_insert_ne, C1 by done. by rewrite lookup_insert_eq.
  - rewrite C3. by rewrite lookup_insert_eq.
  - by rewrite A3.
Qed.

(** ** The run *)

Definition ex_layout : layout := layout_of ex_setup 2320 2576.
#[local] Notation ly := ex_layout.
#[local] Notation ex_good := (good 2320 2576 2528 (frame_at ly) {[1024]} {[2048]}).

Lemma ex_layout_ok : layout_ok ly.
Proof.
  destruct ex_seeds3 as (Hs & _). by apply (layout_of_ok ex_setup ex_setup_ok 2320 2576 2064 ex_k3 Hs).
Qed.

Lemma ex_boot_rep : exists a, krep ly ex_boot a /\ ex_good a /\ cur a = 2320 /\ q a (LLocal 2320) = [] /\
  q a LPend = [2064] /\ (size (fibers a) < 30)%nat.
Proof.
  destruct ex_seeds3 as (Hs & Hc & Hl & Ha). set (a := boot_state ex_setup 2320 2576 2064 ex_k3).
  assert (krep ly ex_boot a) as Hk.
  { edestruct (wp_final ex_start ex_k3 (fun _ => true) (fun _ k' => krep ly k' a)) as (_ & _ & Hk);
      [|vm_compute; reflexivity|exact Hk].
    apply (boot_spec ex_setup ex_setup_ok 2320 2576 2064 ex_k3 Hs); [|exact Ha|].
    - split_and!; discriminate.
    - intros k' Hk'. exact Hk'. }
  assert (ex_good a) as Hg.
  { apply (good_boot ex_setup ex_setup_ok 2320 2576 2064 ex_k3 Hs) with (c := ex_main 7);
      [split_and!; discriminate|exact Hc|apply ex_main_user|exact Hl]. }
  exists a. refine (conj Hk (conj Hg (conj eq_refl (conj eq_refl (conj eq_refl _))))).
  apply Nat.ltb_lt. vm_compute. reflexivity.
Qed.

#[local] Notation sched := (dfk__scheduler (It := dfk_list_it) first_fit 16 (frame_at ly) ex_select 30 2456).

(** Memory [k] is between two iterations of the scheduler. *)
Definition ex_between (k : kmem mem) (a : astate) : Prop :=
  krep ly k a /\ ex_good a /\ cur a = 2320 /\ q a (LLocal 2320) = [].

Lemma ex_iterate k a : ex_between k a -> succeeds sched k negb = true ->
  exists b, iteration 2320 2576 (frame_at ly) a b /\ ex_between (final sched k) b.
Proof.
  intros (Hk & Hg & Hc & Hl) Hrun.
  edestruct (wpe_final sched _ k negb _ (dfk__scheduler_refines ly ex_layout_ok first_fit first_fit_ok ex_select
    ex_select_ok 30 k a Hk Hg Hc Hl) Hrun) as (r & Hr & HQ).
  destruct r; [discriminate Hr|]. destruct HQ as (_ & b & Hit & Hk' & Hg' & Hc' & Hl'). exists b.
  exact (conj Hit (conj Hk' (conj Hg' (conj Hc' Hl')))).
Qed.

(** What is known of a queue from its first element in memory. *)
Lemma ex_front k a n h : krep ly k a -> static ly n -> n <> LFds -> h <> 0 ->
  succeeds (dfk_list_front (laddr ly n)) (k_lists k) (Z.eqb h) = true ->
  exists xs, q a n = to_fiber h :: xs.
Proof.
  intros Hk Hn Hfd Hh Hrun. destruct (kr_lists _ _ _ Hk) as (σ & Hl & Hσ).
  destruct (wp_final _ _ (Z.eqb h) _ (law_front (It := dfk_list_it) _ σ _ (hk n <$> q a n) Hl (lk_static _ _ _ Hσ n Hn)) Hrun)
    as (r & Hr & HQ & _).
  - apply Z.eqb_eq in Hr as <-. destruct (q a n) as [|f xs]; [by subst h|]. exists xs.
    cbn in HQ. subst h. assert (hk n f = f_hook f) as -> by by destruct n. by rewrite to_fiber_hook.
Qed.

(** After one iteration the worker is pending, after two it waits for the
    mutex, after three it has it. *)
Definition ex_run1 : kmem mem := final sched ex_boot.
Definition ex_run2 : kmem mem := final sched ex_run1.
Definition ex_run3 : kmem mem := final sched ex_run2.

Lemma ex_run2_rep : exists a xs, ex_between ex_run2 a /\ q a (LMutex 1024) = 2832 :: xs.
Proof.
  destruct ex_boot_rep as (a0 & Hk & Hg & Hc & Hl & _).
  destruct (ex_iterate ex_boot a0) as (a1 & _ & H1); [exact (conj Hk (conj Hg (conj Hc Hl)))|vm_compute; reflexivity|].
  fold ex_run1 in H1.
  destruct (ex_iterate ex_run1 a1 H1) as (a2 & _ & H2); [vm_compute; reflexivity|]. fold ex_run2 in H2.
  destruct (ex_front ex_run2 a2 (LMutex 1024) 2848 (proj1 H2)) as (xs & Hq).
  - change (1024 ∈ ({[1024]} : gset Z)). by apply elem_of_singleton.
  - discriminate.
  - discriminate.
  - vm_compute. reflexivity.
  - exists a2, xs. exact (conj H2 Hq).
Qed.

(** The first turn of the main fiber has begun. *)
#[local] Notation to_local := (zoom klists (list_init (It := dfk_list_it) (frame_at ly (l_sfiber ly)));;
  zoom klists (list_move (It := dfk_list_it) (s_pending (l_sched ly)) (frame_at ly (l_sfiber ly)))).
Definition ex_turn : M (kmem mem) unit :=
  to_local;;
  zoom klists (list_pop_front (It := dfk_list_it) (laddr ly (LLocal 2320)));;
  update scheds_of 2456 (set_current 2064);;
  dfk_yield 2320 2064.
Definition ex_turning : kmem mem := final ex_turn ex_boot.

Lemma ex_turn_rep : exists a, krep ly ex_turning a /\ ex_good a /\ cur a = 2064 /\ (size (fibers a) < 30)%nat.
Proof.
  destruct ex_boot_rep as (a & Hk & Hg & Hc & Hl & Hp & Hsz).
  assert (good 2320 2576 2528 (frame_at ly) {[1024]} {[2048]} (a_batch 2320 a)) as Hg1.
  { eapply rstep_good; [apply _|exact Hg|]. right. by apply sstep_batch. }
  set (b := a_run 2320 2064 [] (a_batch 2320 a)).
  assert (q (a_batch 2320 a) (LLocal 2320) = [2064]) as Hq.
  { unfold a_batch. rewrite q_set_ne by done. by rewrite q_set_eq. }
  assert (ex_good b) as Hgb.
  { eapply rstep_good; [apply _|exact Hg1|]. right. by apply sstep_run. }
  assert (krep ly ex_turning b) as Hkb.
  { edestruct (wp_final ex_turn ex_boot (fun _ => true) (fun _ k' => krep ly k' b)) as (_ & _ & H);
      [|vm_compute; reflexivity|exact H].
    apply wp_bind. eapply (batch_spec ly ex_layout_ok ex_boot a); [exact Hk|exact Hg|exact Hl|]. intros k1 Hk1.
    destruct Hg1 as (loc & Hi & He). pose proof (sched_live ly _ _ Hi) as HS.
    assert (2064 ∈ fibers (a_batch 2320 a)) as Hf.
    { assert (loc !! 2064 = Some (Queued (LLocal 2320))) as Hloc
        by (eapply loc_queued; [exact Hi|discriminate|exact Hq]).
      exact (proj1 (loc_fiber _ _ _ _ Hi Hloc)). }
    apply wp_bind. eapply (krep_pop ly ex_layout_ok k1 _ (LLocal 2320)); [exact Hk1|cbn; set_solver|discriminate|exact Hq|]. intros l Hk2.
    destruct (kr_sched _ _ _ Hk2) as (s & Hs & H1 & H2 & H3 & H4).
    apply wp_bind. eapply wp_update; [done|exact Hs|].
    set (k2 := hset _ _ _). assert (krep ly k2 (set_q (LLocal 2320) [] (a_batch 2320 a))) as Hk3.
    { split; try apply Hk2. exists (set_current 2064 s). cbn. rewrite lookup_insert_eq. by split_and!. }
    eapply dfk_yield_spec; [exact ex_layout_ok|exact Hk3|exact HS|exact Hf|]. intros k4 Hk4. exact Hk4. }
  exists b. split; [exact Hkb|]. split; [exact Hgb|]. split; [reflexivity|exact Hsz].
Qed.

Lemma ex_next k : (exists a, ex_between k a) -> succeeds sched k negb = true -> exists a, ex_between (final sched k) a.
Proof. intros [a Ha] Hrun. destruct (ex_iterate k a Ha Hrun) as (b & _ & Hb). by exists b. Qed.

(** After three more there is nothing left to do. *)
Definition ex_run6 : kmem mem := final sched (final sched (final sched ex_run3)).

Lemma ex_run6_rep : exists a, ex_between ex_run6 a.
Proof.
  destruct ex_run2_rep as (a & _ & H & _). unfold ex_run6.
  do 3 (apply ex_next; [|vm_compute; reflexivity]). unfold ex_run3.
  apply ex_next; [by exists a|vm_compute; reflexivity].
Qed.
