(* ===== verification/RuntimeTheorems.v ===== *)
(** * What is proved of the fiber runtime

    The theorems are about programs whose fibers run [code] on a given
    set of mutexes and condition variables, with any allocator that satisfies
    [malloc_ok] and any [select] that does not fail for good. *)

From S2P Require Import Prelude Bytes ListSpec ListSeg ListCheck ListCommon ListPtr ListPtrSpec ListSim Error Misc.
From S2P Require Import Fiber Sync Select Scheduler Fuel.
From S2P Require Import Runtime RuntimeStep RuntimeSched RuntimeSim RuntimeOps RuntimeIo RuntimeLoop RuntimeSpawn.
From S2P Require Import RuntimeRun RuntimeMain RuntimeBoot RuntimeWork RuntimeTurn RuntimeExamples.

Open Scope Z_scope.

Section whole.
Context (b : setup) (Hok : setup_ok b).
Context (malloc : bmem -> Z -> Z) (Hmalloc : malloc_ok malloc).
Context (select : nat -> Z -> list Z -> list Z -> list Z -> select_result) (Hselect : no_select_error select).
#[local] Notation work fuel := (dfk_work (It := dfk_list_it) malloc (b_guard b)
  (fun f => f + b_frame b) select fuel (b_sched b) (b_loop b) (b_dfk b)).

(** [dfk_work] runs every program safely.  Whatever its fibers do, the run
    follows no pointer outside the live objects, corrupts no queue, and frees
    nothing twice.  It can fail in two ways only: the bound on the iterations
    of its loops is reached, or a fiber makes, in a state that the steps of the
    runtime lead to from the one in which the program was started, a call that
    the interface forbids (an unlock or a wait by a fiber that does not own the
    mutex, the release of a mutex or condition variable in use), and this is
    what the assertion catches.  When it returns [dfk_err_nomem] no
    fiber is left; when it returns [dfk_err_ok] the fibers that are left wait
    for a mutex that another fiber owns or for a condition variable. *)
Theorem dfk_work_safe (fuel : nat) (k : kmem mem) (ep : Z -> code) (arg argsize : Z)
    (Hk : seeds (It := dfk_list_it) b k ∅) (Harg : arg_ok b k arg argsize)
    (Hep : forall p, user (b_mutexes b) (b_conds b) (ep p)) :
  match work fuel ep arg argsize k with
  | Ok (r, k') =>
      (r = err_code dfk_err_nomem /\ forall f, k_fibers k' !! f = None) \/
      (r = err_code dfk_err_ok /\ outcome_ok b k')
  | Err e => program_fault b malloc k ep arg argsize e
  end.
Proof using Hok Hmalloc Hselect. exact (dfk_work_spec b Hok malloc Hmalloc select Hselect fuel k ep arg argsize Hk Harg Hep). Qed.

End whole.

Section states.
Context (ly : layout) (Hly : layout_ok ly).
Context (malloc : bmem -> Z -> Z) (Hmalloc : malloc_ok malloc).
Context (select : nat -> Z -> list Z -> list Z -> list Z -> select_result) (Hselect : no_select_error select).
#[local] Notation frame := (frame_at ly).
#[local] Notation krep := (krep (Mem := mem) (It := dfk_list_it) ly).
#[local] Notation good := (good (l_sfiber ly) (l_efiber ly) (l_loop_at ly) frame (l_mutexes ly) (l_conds ly)).
#[local] Notation scheduler fuel := (dfk__scheduler (It := dfk_list_it) malloc (l_guard ly) frame select fuel (l_sched ly)).
#[local] Notation step fuel := (step (It := dfk_list_it) malloc (l_guard ly) frame select fuel).

(** C2: an iteration of the scheduler refines its abstract description.  It
    returns true, and changes nothing, exactly when no fiber is terminated,
    pending or waiting for I/O.  Otherwise it frees the terminated fibers in
    order, gives every fiber that was pending at the start exactly one turn, in
    order, gives the event loop a turn if after that nothing is pending and
    some fiber waits for I/O, and returns with the memory in a state that
    satisfies the invariant again. *)
Theorem scheduler_iteration (fuel : nat) (k : kmem mem) (a : astate)
    (Hk : krep k a) (Hgood : good a) (Hcur : cur a = l_sfiber ly) (Hlocal : q a (LLocal (l_sfiber ly)) = []) :
  match scheduler fuel k with
  | Ok (true, k') => k' = k /\ idle a
  | Ok (false, k') => ~ idle a /\ exists b, iteration (l_sfiber ly) (l_efiber ly) frame a b /\
      krep k' b /\ good b /\ cur b = l_sfiber ly
  | Err e => failed ly a e
  end.
Proof using Hly Hmalloc Hselect.
  pose proof (dfk__scheduler_refines ly Hly malloc Hmalloc select Hselect fuel k a Hk Hgood Hcur Hlocal) as H.
  unfold wpe in H. destruct (scheduler fuel k) as [[[] k']|e]; [exact H| |exact H].
  destruct H as (Hi & c & ? & ? & ? & ? & _). split; [exact Hi|]. by exists c.
Qed.

(** C18: when the scheduler stops, every fiber but its own and the event loop's
    is blocked for good: it waits for a mutex that another fiber owns, or for a
    condition variable; so no runnable fiber is ever abandoned. *)
Theorem scheduler_stops_blocked (fuel : nat) (k k' : kmem mem) (a : astate)
    (Hk : krep k a) (Hgood : good a) (Hcur : cur a = l_sfiber ly) (Hlocal : q a (LLocal (l_sfiber ly)) = [])
    (Hstop : scheduler fuel k = Ok (true, k')) :
  forall f, f ∈ fibers a -> f = l_sfiber ly \/ f = l_efiber ly \/
    (exists m o, f ∈ q a (LMutex m) /\ owner a !! m = Some o /\ o <> 0 /\ o <> f) \/
    (exists c, f ∈ q a (LCond c)).
Proof using Hly Hmalloc Hselect.
  pose proof (dfk__scheduler_refines ly Hly malloc Hmalloc select Hselect fuel k a Hk Hgood Hcur Hlocal) as H.
  unfold wpe in H. rewrite Hstop in H. destruct H as (_ & Ht & Hp & Ha).
  exact (idle_blocked _ _ _ _ _ _ (frame_at_inj ly) a Hgood Hcur Hp Ht Hlocal Ha).
Qed.

(** C19: a waiter of a mutex is never passed.  If a fiber waits for a mutex
    before an iteration of the scheduler, then afterwards it still waits, with
    no new waiter before it and none of those behind it gone, or at some moment of the iteration
    it was made the owner of the mutex and pending. *)
Theorem mutex_waiters_in_order (fuel : nat) (k k' : kmem mem) (a : astate) (m f : Z) (pre suf : list Z)
    (Hk : krep k a) (Hgood : good a) (Hcur : cur a = l_sfiber ly) (Hlocal : q a (LLocal (l_sfiber ly)) = [])
    (Hwaits : q a (LMutex m) = pre ++ f :: suf)
    (Hrun : scheduler fuel k = Ok (false, k')) :
  exists b, krep k' b /\
    ((exists pre' suf', q b (LMutex m) = pre' ++ f :: suf' /\ pre' `suffix_of` pre /\ suf `prefix_of` suf') \/
     got (l_sfiber ly) (l_efiber ly) frame m f a b).
Proof using Hly Hmalloc Hselect.
  pose proof (dfk__scheduler_refines ly Hly malloc Hmalloc select Hselect fuel k a Hk Hgood Hcur Hlocal) as H.
  unfold wpe in H. rewrite Hrun in H. destruct H as (_ & c & Hit & Hkc & _). exists c. split; [exact Hkc|].
  eapply mutex_fifo; [apply _|by apply iteration_rtc|exact Hwaits].
Qed.

(** C5: one call of a fiber, or one step of the event loop, from any state that
    satisfies the invariant, with a bound that exceeds the number of fibers:
    it does what the abstract step relation says and the invariant holds
    again, or it fails an assertion, and then the call is one that the
    interface forbids.  In particular the loops in it end, and no memory error
    is possible. *)
Theorem fiber_step_refines (fuel : nat) (k : kmem mem) (a : astate)
    (Hk : krep k a) (Hgood : good a) (Hcur : cur a <> l_sfiber ly) (Hfuel : (size (fibers a) < fuel)%nat) :
  match step fuel k with
  | Ok (_, k') => exists b, astep (l_sfiber ly) frame a b /\ krep k' b /\ good b
  | Err e => e = AssertFailed /\ misuse a
  end.
Proof using Hly Hmalloc Hselect.
  pose proof (step_refines ly Hly malloc Hmalloc select Hselect fuel k a Hk Hgood Hcur Hfuel) as H.
  unfold wpe in H. destruct (step fuel k) as [[[] k']|e]; [|exact H].
  destruct H as (c & Hs & Hkc). exists c. split; [exact Hs|]. split; [exact Hkc|].
  eapply astep_good; [apply _|exact Hgood|exact Hs].
Qed.

(** C9: a mutex changes hands in the ways of a lock only.  In any step of a
    fiber or of the event loop, a mutex and its waiters stay as they are, or
    the fiber that executes joins the end of the waiters, or it takes the mutex
    from nobody, or it owns the mutex and gives it up: to nobody if there are
    no waiters, to the first of them, which becomes pending, if there are. *)
Theorem mutex_changes_hands (fuel : nat) (k k' : kmem mem) (a : astate) (m : Z)
    (Hk : krep k a) (Hgood : good a) (Hcur : cur a <> l_sfiber ly) (Hfuel : (size (fibers a) < fuel)%nat)
    (Hrun : step fuel k = Ok (tt, k')) :
  exists b, krep k' b /\
    ((owner b !! m = owner a !! m /\
        (q b (LMutex m) = q a (LMutex m) \/ q b (LMutex m) = q a (LMutex m) ++ [cur a])) \/
     taken m a b \/ handed m a b).
Proof using Hly Hmalloc Hselect.
  pose proof (step_refines ly Hly malloc Hmalloc select Hselect fuel k a Hk Hgood Hcur Hfuel) as H.
  unfold wpe in H. rewrite Hrun in H. destruct H as (c & Hs & Hkc). exists c. split; [exact Hkc|].
  destruct (astep_mutex _ _ _ m a c Hs); auto.
Qed.

(** C22: no call of the library keeps the processor for ever.  If the program of
    the fiber that executes comes, whatever its calls return, to its end or to
    a call that gives up the processor, then after finitely many steps, with a
    bound that is large enough, the scheduler's fiber has control again, in a
    state that satisfies the invariant; or the fiber makes a call that the
    interface forbids.  The turn of a program that does not, like [spin], may
    be endless. *)
Theorem fiber_turn_ends (k : kmem mem) (a : astate) (c : code)
    (Hk : krep k a) (Hgood : good a) (Hcur : cur a <> l_sfiber ly) (Hclient : cur a <> l_efiber ly)
    (Hcode : k_ctx k !! cur a = Some c) (Hsettles : settles c) :
  exists n : nat, forall fuel, (n <= fuel)%nat ->
    match run_fibers (It := dfk_list_it) malloc (l_guard ly) frame select fuel (l_sfiber ly) k with
    | Ok (_, k') => exists b, rtc (astep (l_sfiber ly) frame) a b /\ krep k' b /\ good b /\ cur b = l_sfiber ly
    | Err e => turn_fault ly a e
    end.
Proof using Hly Hmalloc Hselect.
  rewrite (kr_ctx _ _ _ Hk) in Hcode.
  destruct (settled_ends ly Hly malloc Hmalloc select Hselect c Hsettles k a Hk Hgood Hcur Hclient Hcode) as (n & f & H).
  exists (Nat.max n f). intros fuel Hf. apply (H fuel fuel); lia.
Qed.

End states.

(** The bounds decide only whether there is a result, never which.  If
    [dfk_work] does not run into the bound on its loops, a larger bound leads to
    the same value and the same memory, or the same failed assertion. *)
Theorem dfk_work_bound (malloc : bmem -> Z -> Z) (guard : Z) (frame : Z -> Z)
    (select : nat -> Z -> list Z -> list Z -> list Z -> select_result) (n n' : nat) (os ol dfk : Z)
    (ep : Z -> code) (arg argsize : Z) (k : kmem mem) (Hn : (n <= n')%nat)
    (Hrun : dfk_work (It := dfk_list_it) malloc guard frame select n os ol dfk ep arg argsize k <> Err OutOfFuel) :
  dfk_work (It := dfk_list_it) malloc guard frame select n' os ol dfk ep arg argsize k =
  dfk_work (It := dfk_list_it) malloc guard frame select n os ol dfk ep arg argsize k.
Proof.
  pose proof (dfk_work_fuel_le (It := dfk_list_it) malloc guard frame select n n' Hn os ol dfk ep arg argsize) as H.
  specialize (H k). destruct H as [E|E]; [exfalso; exact (Hrun E)|symmetry; exact E].
Qed.

(** ** At the program of [RuntimeExamples] *)

#[local] Notation ex_work malloc fuel := (dfk_work (It := dfk_list_it) malloc 16 (fun f => f + 120) ex_select fuel
  136 208 64 ex_main 7 0 ex_mem).
#[local] Notation ex_sched := (dfk__scheduler (It := dfk_list_it) first_fit 16 (frame_at ex_layout) ex_select 30 2456).
#[local] Notation ex_step := (step (It := dfk_list_it) first_fit 16 (frame_at ex_layout) ex_select 30).

Lemma dfk_work_safe_witness :
  match ex_work first_fit 30 with
  | Ok (r, k') =>
      (r = err_code dfk_err_nomem /\ forall f, k_fibers k' !! f = None) \/
      (r = err_code dfk_err_ok /\ outcome_ok ex_setup k')
  | Err e => program_fault (It := dfk_list_it) ex_setup first_fit ex_mem ex_main 7 0 e
  end /\
  match ex_work first_fit 30 with Ok (r, _) => r =? 0 | Err _ => false end = true.
Proof.
  split; [|vm_compute; reflexivity].
  apply (dfk_work_safe ex_setup ex_setup_ok first_fit first_fit_ok ex_select ex_select_ok 30 ex_mem ex_main 7 0 ex_seeds).
  - left. reflexivity.
  - exact ex_main_user.
Defined.

Lemma scheduler_iteration_witness : exists a,
  match ex_sched ex_boot with
  | Ok (true, k') => k' = ex_boot /\ idle a
  | Ok (false, k') => ~ idle a /\ exists b, iteration 2320 2576 (frame_at ex_layout) a b /\
      krep ex_layout k' b /\ good 2320 2576 2528 (frame_at ex_layout) {[1024]} {[2048]} b /\ cur b = 2320
  | Err e => failed ex_layout a e
  end.
Proof.
  destruct ex_boot_rep as (a & Hk & Hg & Hc & Hl & _). exists a.
  exact (scheduler_iteration ex_layout ex_layout_ok first_fit first_fit_ok ex_select ex_select_ok 30 ex_boot a Hk Hg Hc Hl).
Defined.

Lemma scheduler_stops_blocked_witness : exists a, forall f, f ∈ fibers a -> f = 2320 \/ f = 2576 \/
  (exists m o, f ∈ q a (LMutex m) /\ owner a !! m = Some o /\ o <> 0 /\ o <> f) \/
  (exists c, f ∈ q a (LCond c)).
Proof.
  destruct ex_run6_rep as (a & Hk & Hg & Hc & Hl). exists a.
  destruct (final_ok ex_sched ex_run6 (fun r => r)) as ([] & Hrun & Hr); [vm_compute; reflexivity| |discriminate Hr].
  exact (scheduler_stops_blocked ex_layout ex_layout_ok first_fit first_fit_ok ex_select ex_select_ok 30 ex_run6
    (final ex_sched ex_run6) a Hk Hg Hc Hl Hrun).
Defined.

Lemma mutex_waiters_in_order_witness : exists (a b : astate) xs k', q a (LMutex 1024) = 2832 :: xs /\ krep ex_layout k' b /\
  ((exists pre' suf', q b (LMutex 1024) = pre' ++ 2832 :: suf' /\ pre' `suffix_of` [] /\ xs `prefix_of` suf') \/
   got 2320 2576 (frame_at ex_layout) 1024 2832 a b).
Proof.
  destruct ex_run2_rep as (a & xs & (Hk & Hg & Hc & Hl) & Hq).
  destruct (final_ok ex_sched ex_run2 negb) as ([] & Hrun & Hr); [vm_compute; reflexivity|discriminate Hr|].
  destruct (mutex_waiters_in_order ex_layout ex_layout_ok first_fit first_fit_ok ex_select ex_select_ok 30 ex_run2 ex_run3
    a 1024 2832 [] xs Hk Hg Hc Hl Hq Hrun) as (b & Hkb & H).
  exists a, b, xs, ex_run3. exact (conj Hq (conj Hkb H)).
Defined.

Lemma fiber_step_refines_witness : exists a, cur a = 2064 /\
  match ex_step ex_turning with
  | Ok (_, k') => exists b, astep 2320 (frame_at ex_layout) a b /\ krep ex_layout k' b /\
      good 2320 2576 2528 (frame_at ex_layout) {[1024]} {[2048]} b
  | Err e => e = AssertFailed /\ misuse a
  end.
Proof.
  destruct ex_turn_rep as (a & Hk & Hg & Hc & Hs). exists a. split; [exact Hc|].
  apply (fiber_step_refines ex_layout ex_layout_ok first_fit first_fit_ok ex_select ex_select_ok 30 ex_turning a Hk Hg);
    [rewrite Hc; discriminate|exact Hs].
Defined.

Lemma mutex_changes_hands_witness : exists a b, cur a = 2064 /\ krep ex_layout (final ex_step ex_turning) b /\
  ((owner b !! 1024 = owner a !! 1024 /\
      (q b (LMutex 1024) = q a (LMutex 1024) \/ q b (LMutex 1024) = q a (LMutex 1024) ++ [cur a])) \/
   taken 1024 a b \/ handed 1024 a b).
Proof.
  destruct ex_turn_rep as (a & Hk & Hg & Hc & Hs). exists a.
  destruct (final_ok ex_step ex_turning (fun _ => true)) as ([] & Hrun & _); [vm_compute; reflexivity|].
  destruct (mutex_changes_hands ex_layout ex_layout_ok first_fit first_fit_ok ex_select ex_select_ok 30 ex_turning
    (final ex_step ex_turning) a 1024 Hk Hg ltac:(rewrite Hc; discriminate) Hs Hrun) as (b & Hb & H).
  exists b. exact (conj Hc (conj Hb H)).
Defined.

Lemma fiber_turn_ends_witness : exists a, cur a = 2064 /\ exists n : nat, forall fuel, (n <= fuel)%nat ->
  match run_fibers (It := dfk_list_it) first_fit 16 (frame_at ex_layout) ex_select fuel 2320 ex_turning with
  | Ok (_, k') => exists b, rtc (astep 2320 (frame_at ex_layout)) a b /\ krep ex_layout k' b /\
      good 2320 2576 2528 (frame_at ex_layout) {[1024]} {[2048]} b /\ cur b = 2320
  | Err e => turn_fault ex_layout a e
  end.
Proof.
  destruct ex_turn_rep as (a & Hk & Hg & Hc & Hs). exists a. split; [exact Hc|].
  apply (fiber_turn_ends ex_layout ex_layout_ok first_fit first_fit_ok ex_select ex_select_ok ex_turning a (ex_main 7) Hk Hg);
    rewrite ?Hc; [discriminate|discriminate|vm_compute; reflexivity|repeat constructor].
Defined.

Lemma dfk_work_bound_witness : ex_work first_fit 1000 = ex_work first_fit 30.
Proof.
  apply (dfk_work_bound first_fit 16 (fun f => f + 120) ex_select 30 1000 136 208 64 ex_main 7 0 ex_mem).
  - lia.
  - intros H. assert (match ex_work first_fit 30 with Ok (r, _) => r =? 0 | Err _ => false end = true) as E
      by (vm_compute; reflexivity). rewrite H in E. discriminate E.
Defined.

(** ** No memory for the event loop *)

(** An allocator that fails while two blocks are allocated. *)
Definition two_blocks (m : bmem) (n : Z) : Z := if 2 <=? Z.of_nat (size (blocks m)) then 0 else first_fit m n.

Lemma two_blocks_ok : malloc_ok two_blocks.
Proof.
  intros m n Hn. unfold two_blocks. destruct (2 <=? _); [by left|]. by apply first_fit_ok.
Qed.

(** C37: the program may be lost without a report.  Whenever there is memory for
    the first two fibers but not for the one of the event loop, [dfk_work]
    returns [dfk_err_ok], although the main fiber has not made its first call:
    its code is as it was given.  No fiber is left, and the only trace is the
    error number in the context. *)
Theorem dfk_work_loses_main (b : setup) (Hok : setup_ok b) (malloc : bmem -> Z -> Z) (Hmalloc : malloc_ok malloc)
    (select : nat -> Z -> list Z -> list Z -> list Z -> select_result) (fuel : nat)
    (k : kmem mem) (ep : Z -> code) (arg argsize mf sf : Z) (k3 : kmem mem)
    (Hk : seeds (It := dfk_list_it) b k ∅) (Harg : arg_ok b k arg argsize)
    (Hboot : booted (It := dfk_list_it) b malloc k ep arg argsize mf sf 0 k3) (Hmade : mf <> 0 /\ sf <> 0) :
  exists k',
    dfk_work (It := dfk_list_it) malloc (b_guard b) (fun f => f + b_frame b) select fuel
      (b_sched b) (b_loop b) (b_dfk b) ep arg argsize k = Ok (err_code dfk_err_ok, k') /\
    k_ctx k' !! mf = Some (ep (arg_of mf arg argsize)) /\ (forall f, k_fibers k' !! f = None) /\
    dfk_errno <$> (k_dfks k' !! b_dfk b) = Some (err_code dfk_err_nomem).
Proof.
  destruct Hmade as [Hmf Hsf].
  pose proof (no_loop_spec b Hok malloc Hmalloc select fuel k ep arg argsize mf sf k3 Hk Harg Hboot Hmf Hsf) as Hw.
  apply wp_run in Hw as (r & k' & Hrun & -> & H). by exists k'.
Qed.

Lemma dfk_work_loses_main_witness : exists k',
  dfk_work (It := dfk_list_it) two_blocks 16 (fun f => f + 120) ex_select 30 136 208 64 ex_main 7 0 ex_mem =
    Ok (err_code dfk_err_ok, k') /\
  k_ctx k' !! 2064 = Some (ex_main 7) /\ k_fibers k' !! 2064 = None /\
  dfk_errno <$> (k_dfks k' !! 64) = Some (err_code dfk_err_nomem).
Proof.
  set (spawn ep arg := dfk__spawn (It := dfk_list_it) two_blocks 16 64 ep arg 0).
  set (k1 := final (spawn ex_main 7) ex_mem). set (k2 := final (spawn (fun arg => SchedulerMain arg) 2064) k1).
  set (k3 := final (spawn (fun arg => LoopStart arg) 2528) (switch 2320 k2)).
  destruct (dfk_work_loses_main ex_setup ex_setup_ok two_blocks two_blocks_ok ex_select 30 ex_mem ex_main 7 0 2064 2320 k3
    ex_seeds) as (k' & Hrun & Hctx & Hno & Herr).
  - by left.
  - exists k1, k2. split; [|split].
    + destruct (final_ok (spawn ex_main 7) ex_mem (Z.eqb 2064)) as (r & Hr & E%Z.eqb_eq); [vm_compute; reflexivity|].
      by rewrite <- E in Hr.
    + destruct (final_ok (spawn (fun arg => SchedulerMain arg) 2064) k1 (Z.eqb 2320)) as (r & Hr & E%Z.eqb_eq);
        [vm_compute; reflexivity|]. by rewrite <- E in Hr.
    + destruct (final_ok (spawn (fun arg => LoopStart arg) 2528) (switch 2320 k2) (Z.eqb 0)) as (r & Hr & E%Z.eqb_eq);
        [vm_compute; reflexivity|]. by rewrite <- E in Hr.
  - split; discriminate.
  - exists k'. split; [exact Hrun|]. split; [exact Hctx|]. split; [apply Hno|exact Herr].
Defined.
