(* ===== verification/Interact.v ===== *)
(** * Programs that talk to their environment

    Functions that make system calls, and may run for ever, are interaction
    trees.  The environment is a relation on a state: [allowed] says when an
    event is no fault, [answer] which answers it may have and how the state
    changes meanwhile (other fibers may run).  [steps] is a finite part of a
    run; [holds t s Q] says that every run of [t] from [s] makes allowed events
    only, and that [Q] holds if it ends. *)

From S2P Require Import Prelude.
From ITree Require Import ITree ITreeFacts.
From Paco Require Import paco.

#[export] Instance itree_ret E : MRet (itree E) := fun A x => Ret x.
#[export] Instance itree_bind E : MBind (itree E) := fun A B k t => ITree.bind t k.

Definition returns {E R} (t : itree E R) (r : R) : Prop := observe t = RetF r.

Section logic.
Context {E : Type -> Type} {S : Type}.
Context (allowed : forall X, E X -> S -> Prop).
Context (answer : forall X, E X -> S -> X -> S -> Prop).
Arguments allowed {X}.
Arguments answer {X}.

(** ** Runs *)

Inductive step1 {R} (t : itree E R) (s : S) : itree E R -> S -> Prop :=
| step_tau t' : observe t = TauF t' -> step1 t s t' s
| step_vis X (e : E X) k x s' : observe t = VisF e k -> answer e s x s' -> step1 t s (k x) s'.

Inductive steps {R} : itree E R -> S -> itree E R -> S -> Prop :=
| steps_refl t s : steps t s t s
| steps_more t s t' s' t'' s'' : step1 t s t' s' -> steps t' s' t'' s'' -> steps t s t'' s''.

(** What a state of a run is about to do: an event that is allowed, or the end
    with a result that satisfies [Q]. *)
Definition fine {R} (Q : R -> S -> Prop) (t : itree E R) (s : S) : Prop :=
  match observe t with
  | RetF r => Q r s
  | TauF _ => True
  | VisF e _ => allowed e s
  end.

(** ** All runs *)

Section gen.
Context {R : Type} (Q : R -> S -> Prop).

Definition holdsF (rec : itree E R -> S -> Prop) (t : itree E R) (s : S) : Prop :=
  match observe t with
  | RetF r => Q r s
  | TauF t => rec t s
  | VisF e k => allowed e s /\ forall x s', answer e s x s' -> rec (k x) s'
  end.

Lemma holdsF_mono : monotone2 holdsF.
Proof.
  unfold monotone2, holdsF. intros t s r r' H Hle. destruct (observe t); [done|by apply Hle|].
  destruct H as [Ha Hk]. split; [done|]. intros x s' Hx. by apply Hle, Hk.
Qed.

Definition holds : itree E R -> S -> Prop := paco2 holdsF bot2.
End gen.

#[local] Hint Resolve holdsF_mono : paco.

Lemma holds_unfold {R} (Q : R -> S -> Prop) t s : holds Q t s <-> holdsF Q (holds Q) t s.
Proof.
  unfold holds. split; intros H.
  - punfold H. eapply holdsF_mono; [exact H|]. intros t' s' Hu. pclearbot. exact Hu.
  - pfold. eapply holdsF_mono; [exact H|]. intros t' s' Hu. by left.
Qed.

Lemma holds_steps {R} (Q : R -> S -> Prop) t s t' s' : holds Q t s -> steps t s t' s' -> holds Q t' s'.
Proof.
  intros H. induction 1 as [|t s t' s' t'' s'' Hs _ IH]; [done|]. apply IH. apply holds_unfold in H. unfold holdsF in H.
  destruct Hs as [t' Ho|X e k x s' Ho Hx]; rewrite Ho in H; [done|]. by apply H.
Qed.

(** What [holds] says of runs. *)
Lemma holds_fine {R} (Q : R -> S -> Prop) t s t' s' : holds Q t s -> steps t s t' s' -> fine Q t' s'.
Proof.
  intros H Hs. apply (holds_steps _ _ _ _ _ H), holds_unfold in Hs. unfold holdsF, fine in *.
  destruct (observe t'); [done..|]. apply Hs.
Qed.

Lemma fine_returns {R} (Q : R -> S -> Prop) t s r : fine Q t s -> returns t r -> Q r s.
Proof. unfold fine, returns. intros H Hr. by rewrite Hr in H. Qed.

(** ** Rules *)

Lemma holds_ret {R} (Q : R -> S -> Prop) r s : Q r s -> holds Q (mret r) s.
Proof. intros H. apply holds_unfold. exact H. Qed.

Lemma holds_bind {A B} (P : A -> S -> Prop) (Q : B -> S -> Prop) (t : itree E A) (k : A -> itree E B) s :
  holds P t s -> (forall a s', P a s' -> holds Q (k a) s') -> holds Q (t ≫= k) s.
Proof.
  intros Ht Hk. unfold mbind, itree_bind. revert t s Ht. pcofix CIH. intros t s Ht.
  apply holds_unfold in Ht. pfold. unfold holdsF in *. unfold observe. cbn.
  destruct (observe t) as [r0|t0|X e k0] eqn:Ho; cbn.
  - specialize (Hk _ _ Ht). unfold holds in Hk. punfold Hk. unfold holdsF in Hk. unfold observe in Hk.
    change (_observe (k r0)) with (observe (k r0)) in *.
    destruct (observe (k r0)) as [b|t1|Y e1 k1]; [done| |].
    + pclearbot. left. eapply paco2_mon; [exact Hk|done].
    + destruct Hk as [Ha Hk]. split; [done|]. intros x s' Hx. specialize (Hk x s' Hx). pclearbot.
      left. eapply paco2_mon; [exact Hk|done].
  - right. by apply CIH.
  - destruct Ht as [Ha Hx]. split; [done|]. intros x s' H. right. apply CIH. by apply Hx.
Qed.

Lemma holds_trigger {X} (e : E X) (Q : X -> S -> Prop) s : allowed e s ->
  (forall x s', answer e s x s' -> Q x s') -> holds Q (ITree.trigger e) s.
Proof.
  intros Ha HQ. apply holds_unfold. unfold holdsF. cbn. split; [done|]. intros x s' Hx. by apply holds_ret, HQ.
Qed.

Lemma holds_call {X B} (e : E X) (k : X -> itree E B) (Q : B -> S -> Prop) s : allowed e s ->
  (forall x s', answer e s x s' -> holds Q (k x) s') -> holds Q (ITree.trigger e ≫= k) s.
Proof. intros Ha Hk. eapply holds_bind; [by apply holds_trigger|]. done. Qed.

Lemma holds_mono {R} (P Q : R -> S -> Prop) (t : itree E R) s : holds P t s ->
  (forall r s', P r s' -> Q r s') -> holds Q t s.
Proof.
  intros Ht HPQ. revert t s Ht. pcofix CIH. intros t s Ht. apply holds_unfold in Ht. pfold. unfold holdsF in *.
  destruct (observe t); [by apply HPQ|right; by apply CIH|]. destruct Ht as [Ha Hk]. split; [done|].
  intros x s' Hx. right. by apply CIH, Hk.
Qed.

(** The loop [while (1)]: an invariant for the states in which the body starts. *)
Lemma holds_iter {I R} (inv : I -> S -> Prop) (Q : R -> S -> Prop) (body : I -> itree E (I + R)) i s :
  inv i s -> (forall i s, inv i s -> holds (fun r s' => match r with inl i' => inv i' s' | inr r => Q r s' end) (body i) s) ->
  holds Q (ITree.iter body i) s.
Proof.
  intros Hi Hbody.
  set (k := fun lr : I + R => ITree.on_left lr l (Tau (ITree.iter body l))).
  assert (forall t s u, holds (fun r s' => match r with inl i' => inv i' s' | inr r => Q r s' end) t s ->
    observe u = observe (ITree.bind t k) -> holds Q u s) as H.
  { clear Hi i s. pcofix CIH. intros t s u Ht Hu. apply holds_unfold in Ht. pfold. unfold holdsF in *. rewrite Hu.
    unfold observe at 1. cbn. destruct (observe t) as [[i|r0]|t0|X e k0]; cbn.
    - right. apply (CIH (body i)); [by apply Hbody|done].
    - done.
    - right. by apply (CIH t0).
    - destruct Ht as [Ha Hk]. split; [done|]. intros x s' Hx. right. apply (CIH (k0 x)); [by apply Hk|done]. }
  apply (H (body i)); [by apply Hbody|done].
Qed.

End logic.

(** A finite part of an interaction, in an environment that answers every
    event. *)
Fixpoint interact {E : Type -> Type} {S A} (handle : forall X, E X -> M S X) (fuel : nat) (t : itree E A) : M S A :=
  match fuel with
  | O => fail OutOfFuel
  | Datatypes.S n =>
      match observe t with
      | RetF a => mret a
      | TauF t => interact handle n t
      | VisF e k => x ← handle _ e; interact handle n (k x)
      end
  end.
