(* ===== verification/Socket.v ===== *)
(** * [tcp_socket.c], [read.c], [close.c], [make_nonblock.c]: TCP sockets

    System calls, the operations of the runtime that give up the processor and
    the accesses to memory that other fibers see are events.  A descriptor, an
    address or a size is a [Z]; a call that fails returns a negative value and
    leaves its reason in [errno].  Linux's values of the constants. *)

From S2P Require Import Prelude Error Misc Interact.
From ITree Require Import ITree.

Definition EAGAIN : Z := 11.
Definition EWOULDBLOCK : Z := EAGAIN.
Definition ECONNREFUSED : Z := 111.
Definition EINPROGRESS : Z := 115.
Definition O_NONBLOCK : Z := 2048.
Definition SHUT_RD : Z := 0.
Definition SHUT_WR : Z := 1.
Definition SHUT_RDWR : Z := 2.

Definition DFK_SHUT_RD : Z := 1.
Definition DFK_SHUT_WR : Z := 2.
Definition DFK_SHUT_RDWR : Z := 3.

(** Without the member [user], which is the application's. *)
Record dfk_tcp_socket_t := TcpSocket { t_dfk : Z; _socket : Z }.

(** [struct iovec]: address and size. *)
Record iovec := Iov { iov_data : Z; iov_size : Z }.

(** A function pointer with the pointer it is given. *)
Record callback_t := Callback { cb_fun : Z; cb_ud : Z }.

Record dfk_tcp_socket_accepted_main_arg_t := Accepted { a_socket : dfk_tcp_socket_t; a_callback : callback_t }.

Record dfk_tcp_server_t := TcpServer { ts_dfk : Z; _active_connections : Z; _state : Z }.

(** The last argument of [Spawn] is the block that is copied to the new
    fiber; [Garbage] is the value of memory that was not written;
    [ListElements] is a walk over a list that is not changed meanwhile. *)
Variant netE : Type -> Type :=
| Socket : netE Z
| GetFlags (fd : Z) : netE Z
| SetFlags (fd flags : Z) : netE Z
| Close (fd : Z) : netE Z
| InetAton (endpoint : Z) : netE (option Z)
| Garbage : netE Z
| Connect (fd addr port : Z) : netE Z
| SoError (fd : Z) : netE (Z * Z)
| Bind (fd addr port : Z) : netE Z
| Listen (fd backlog : Z) : netE Z
| Accept (fd : Z) : netE Z
| Shutdown (fd how : Z) : netE Z
| Read (fd buf nbytes : Z) : netE Z
| Write (fd buf nbytes : Z) : netE Z
| Errno : netE Z
| Io (dfk fd events : Z) : netE Z
| Suspend (dfk : Z) : netE unit
| Resume (fiber : Z) : netE unit
| ThisFiber (dfk : Z) : netE Z
| Spawn (dfk : Z) (arg : dfk_tcp_socket_accepted_main_arg_t) : netE Z
| CallAccepted (cb : callback_t) (fiber sock : Z) : netE unit
| CallHandler (cb : callback_t) (server fiber sock : Z) : netE unit
| GetSocket (sock : Z) : netE dfk_tcp_socket_t
| SetSocket (sock : Z) (s : dfk_tcp_socket_t) : netE unit
| GetServer (server : Z) : netE dfk_tcp_server_t
| SetServer (server : Z) (s : dfk_tcp_server_t) : netE unit
| HookInit (hook : Z) : netE unit
| ListAppend (lst hook : Z) : netE unit
| ListElements (lst : Z) : netE (list Z)
| GetStopped (dfk : Z) : netE bool
| SetStopped (dfk : Z) : netE unit
| SetDfkErrno (dfk err : Z) : netE unit
| SetSysErrno (dfk err : Z) : netE unit
| AssertFails : netE Empty_set.

Abbreviation net := (itree netE).

Definition call {X} (e : netE X) : net X := ITree.trigger e.
Definition n_assert (b : bool) : net unit :=
  if b then mret tt else call AssertFails ≫= (fun x : Empty_set => match x with end).

(** [DFK_ERROR_SYSCALL] *)
Definition error_syscall (dfk : Z) : net unit :=
  e ← call Errno; call (SetSysErrno dfk e).

(** The two lines after a failed read or write. *)
Definition io_failed (dfk : Z) : net Z :=
  error_syscall dfk;;
  call (SetDfkErrno dfk (err_code dfk_err_sys));;
  mret (-1).

Definition has_event (events ev : Z) : bool := negb (Z.land events ev =? 0).

Definition dfk__read (dfk fd buf nbytes : Z) : net Z :=
  n_assert (nonnull buf);;
  n_assert (negb (nbytes =? 0));;
  n_assert (nonnull dfk);;
  nread ← call (Read fd buf nbytes);
  if 0 <=? nread then mret nread else
  errno ← call Errno;
  if negb (errno =? EAGAIN) then io_failed dfk else
  ioret ← call (Io dfk fd DFK_IO_IN);
  if has_event ioret DFK_IO_ERR then io_failed dfk else
  n_assert (has_event ioret DFK_IO_IN);;
  nread ← call (Read fd buf nbytes);
  if nread <? 0 then io_failed dfk else mret nread.

Definition dfk__close (dfk sock : Z) : net Z :=
  r ← call (Close sock);
  if r =? -1 then error_syscall dfk;; mret (err_code dfk_err_sys)
  else mret (err_code dfk_err_ok).

Definition dfk__make_nonblock (dfk s : Z) : net Z :=
  flags ← call (GetFlags s);
  if flags =? -1 then error_syscall dfk;; mret (err_code dfk_err_sys) else
  flags ← call (SetFlags s (Z.lor flags O_NONBLOCK));
  if flags =? -1 then error_syscall dfk;; mret (err_code dfk_err_sys) else
  mret (err_code dfk_err_ok).

(** [DFK_HAVE_SOCK_NONBLOCK]: [socket] makes non-blocking sockets. *)
Definition dfk_tcp_socket_init (have_sock_nonblock : bool) (sock dfk : Z) : net Z :=
  n_assert (nonnull sock);;
  n_assert (nonnull dfk);;
  s ← call Socket;
  if s =? -1 then error_syscall dfk;; mret (err_code dfk_err_sys) else
  err ← (if have_sock_nonblock then mret (err_code dfk_err_ok)
         else
           err ← dfk__make_nonblock dfk s;
           if err =? err_code dfk_err_ok then mret err
           else dfk__close dfk s;; mret err);
  if negb (err =? err_code dfk_err_ok) then mret err else
  call (SetSocket sock (TcpSocket dfk s));;
  mret (err_code dfk_err_ok).

Definition dfk_tcp_socket_close (sock : Z) : net Z :=
  n_assert (nonnull sock);;
  s ← call (GetSocket sock);
  n_assert (nonnull (t_dfk s));;
  dfk__close (t_dfk s) (_socket s).

(** [htons], on a little-endian machine *)
Definition htons (port : Z) : Z := Z.lor (Z.shiftl (Z.land port 255) 8) (Z.shiftr port 8).

Definition dfk_tcp_socket_connect (sock endpoint port : Z) : net Z :=
  n_assert (nonnull sock);;
  n_assert (nonnull endpoint);;
  s ← call (GetSocket sock);
  let dfk := t_dfk s in
  n_assert (nonnull dfk);;
  a ← call (InetAton endpoint);
  ret ← call (Connect (_socket s) (default 0 a) (htons port));
  if negb (ret =? -1) then mret (err_code dfk_err_ok) else
  errno ← call Errno;
  if errno =? EINPROGRESS then
    ioret ← call (Io dfk (_socket s) DFK_IO_OUT);
    if has_event ioret DFK_IO_ERR then error_syscall dfk;; mret (err_code dfk_err_sys) else
    re ← call (SoError (_socket s));
    let '(ret, err) := re in
    if ret =? -1 then error_syscall dfk;; mret (err_code dfk_err_sys) else
    if negb (err =? 0) then
      if err =? ECONNREFUSED then mret (err_code dfk_err_connection_refused)
      else call (SetSysErrno dfk err);; mret (err_code dfk_err_sys)
    else mret (err_code dfk_err_ok)
  else if errno =? ECONNREFUSED then mret (err_code dfk_err_connection_refused)
  else mret (err_code dfk_err_ok).

Definition dfk_tcp_socket_read (sock buf nbytes : Z) : net Z :=
  n_assert (nonnull sock);;
  n_assert (nonnull buf);;
  n_assert (negb (nbytes =? 0));;
  s ← call (GetSocket sock);
  n_assert (nonnull (t_dfk s));;
  dfk__read (t_dfk s) (_socket s) buf nbytes.

Definition dfk_tcp_socket_write (sock buf nbytes : Z) : net Z :=
  n_assert (nonnull sock);;
  n_assert (nonnull buf);;
  n_assert (negb (nbytes =? 0));;
  s ← call (GetSocket sock);
  let dfk := t_dfk s in
  n_assert (nonnull dfk);;
  nwritten ← call (Write (_socket s) buf nbytes);
  if 0 <=? nwritten then mret nwritten else
  errno ← call Errno;
  if negb (errno =? EAGAIN) then io_failed dfk else
  ioret ← call (Io dfk (_socket s) DFK_IO_OUT);
  if has_event ioret DFK_IO_ERR then io_failed dfk else
  n_assert (has_event ioret DFK_IO_OUT);;
  nwritten ← call (Write (_socket s) buf nbytes);
  if nwritten <? 0 then io_failed dfk else mret nwritten.

(** The main function of the fiber of an accepted connection; [arg] is the
    address of its copy of the argument, which starts with the socket. *)
Definition dfk__tcp_socket_accepted_main (fiber arg : Z) (a : dfk_tcp_socket_accepted_main_arg_t) : net unit :=
  n_assert (nonnull fiber);;
  n_assert (nonnull arg);;
  n_assert (nonnull (cb_fun (a_callback a)));;
  call (CallAccepted (a_callback a) fiber arg).

(** The body of [while (1)]: [inl] goes on, [inr] returns. *)
Definition accept_body (dfk fd : Z) (cb : callback_t) (u : unit) : net (unit + Z) :=
  s ← call (Accept fd);
  if s <? 0 then
    errno ← call Errno;
    if errno =? EWOULDBLOCK then
      ioret ← call (Io dfk fd DFK_IO_IN);
      if has_event ioret DFK_IO_ERR then error_syscall dfk;; mret (inr (err_code dfk_err_sys))
      else mret (inl tt)
    else error_syscall dfk;; mret (inr (err_code dfk_err_sys))
  else
    err ← dfk__make_nonblock dfk s;
    if negb (err =? err_code dfk_err_ok) then dfk__close dfk s;; mret (inl tt)
    else
      call (Spawn dfk (Accepted (TcpSocket dfk s) cb));;
      mret (inl tt).

(** The address is not initialised if [inet_aton] rejects [endpoint]. *)
Definition dfk_tcp_socket_listen (sock endpoint port : Z) (cb : callback_t) (backlog : Z) : net Z :=
  n_assert (nonnull sock);;
  n_assert (nonnull endpoint);;
  n_assert (negb (port =? 0));;
  n_assert (nonnull (cb_fun cb));;
  n_assert (negb (backlog =? 0));;
  s ← call (GetSocket sock);
  let dfk := t_dfk s in
  a ← call (InetAton endpoint);
  addr ← match a with Some addr => mret addr | None => call Garbage end;
  err ← call (Bind (_socket s) addr (htons port));
  if err <? 0 then error_syscall dfk;; mret (err_code dfk_err_sys) else
  err ← call (Listen (_socket s) backlog);
  if err <? 0 then error_syscall dfk;; mret (err_code dfk_err_sys) else
  ITree.iter (accept_body dfk (_socket s) cb) tt.

Definition dfk_tcp_socket_shutdown (sock how : Z) : net Z :=
  n_assert (nonnull sock);;
  s ← call (GetSocket sock);
  native_how ←
    (if how =? DFK_SHUT_RD then mret SHUT_RD
     else if how =? DFK_SHUT_WR then mret SHUT_WR
     else if how =? DFK_SHUT_RDWR then mret SHUT_RDWR
     else n_assert false;; mret 0);
  err ← call (Shutdown (_socket s) native_how);
  if negb (err =? 0) then error_syscall (t_dfk s);; mret (err_code dfk_err_sys)
  else mret (err_code dfk_err_ok).

(** The loops over the blocks; the conversions to [size_t] wrap. *)
Fixpoint readv_loop (sock : Z) (iov : list iovec) (totalread : Z) : net Z :=
  match iov with
  | [] => mret totalread
  | v :: iov =>
      nread ← dfk_tcp_socket_read sock (iov_data v) (iov_size v);
      if nread <? 0 then mret nread
      else if negb (to_size nread =? iov_size v) then mret (totalread + nread)
      else readv_loop sock iov (totalread + nread)
  end.

Definition dfk_tcp_socket_readv (sock piov : Z) (iov : list iovec) : net Z :=
  n_assert (nonnull sock);;
  n_assert (nonnull piov);;
  n_assert (negb (Z.of_nat (length iov) =? 0));;
  readv_loop sock iov 0.

(** After a short write it is the last count that is returned. *)
Fixpoint writev_loop (sock : Z) (iov : list iovec) (totalwritten : Z) : net Z :=
  match iov with
  | [] => mret totalwritten
  | v :: iov =>
      nwritten ← dfk_tcp_socket_write sock (iov_data v) (iov_size v);
      if nwritten <? 0 then mret nwritten
      else if negb (to_size nwritten =? iov_size v) then mret nwritten
      else writev_loop sock iov (totalwritten + nwritten)
  end.

Definition dfk_tcp_socket_writev (sock piov : Z) (iov : list iovec) : net Z :=
  n_assert (nonnull sock);;
  n_assert (nonnull piov);;
  n_assert (negb (Z.of_nat (length iov) =? 0));;
  writev_loop sock iov 0.
