(* ===== verification/TcpServer.v ===== *)
(** * [tcp_server.c]: TCP servers *)

From S2P Require Import Prelude Error Misc Interact Socket.

Definition DFK_TCP_SERVER_INITIALIZED : Z := 0.
Definition DFK_TCP_SERVER_SERVING : Z := 1.
Definition DFK_TCP_SERVER_STOP_REQUESTED : Z := 2.
Definition DFK_TCP_SERVER_STOP_WAIT_CONNECTIONS : Z := 3.
Definition DFK_TCP_SERVER_STOPPED : Z := 4.

(** [&server->_s] *)
Definition _s (server : Z) : Z := server + 32.
(** [&server->_hook], [TO_TCP_SERVER], [&dfk->_tcp_servers] *)
Definition server_hook (server : Z) : Z := server + 8.
Definition to_tcp_server (hook : Z) : Z := hook - 8.
Definition _tcp_servers (dfk : Z) : Z := dfk + 88.

Definition set_state (st : Z) (s : dfk_tcp_server_t) : dfk_tcp_server_t :=
  TcpServer (ts_dfk s) (_active_connections s) st.
Definition set_active (n : Z) (s : dfk_tcp_server_t) : dfk_tcp_server_t :=
  TcpServer (ts_dfk s) n (_state s).

Definition modify_server (server : Z) (f : dfk_tcp_server_t -> dfk_tcp_server_t) : net unit :=
  s ← call (GetServer server); call (SetServer server (f s)).

Definition dfk_tcp_server_init (server dfk : Z) : net unit :=
  n_assert (nonnull server);;
  n_assert (nonnull dfk);;
  call (HookInit (server_hook server));;
  call (SetServer server (TcpServer dfk 0 DFK_TCP_SERVER_INITIALIZED)).

Definition dfk_tcp_server_free (server : Z) : net unit :=
  s ← call (GetServer server);
  n_assert ((_state s =? DFK_TCP_SERVER_INITIALIZED) || (_state s =? DFK_TCP_SERVER_STOPPED)).

Record listen_ud := ListenUd { lud_server : Z; lud_handler : callback_t; serve_fiber : Z }.

(** [lud]: what the pointer [ud] of the callback points to. *)
Definition dfk_tcp_server_callback (lud : listen_ud) (fiber socket ud : Z) : net unit :=
  n_assert (nonnull fiber);;
  n_assert (nonnull socket);;
  n_assert (nonnull ud);;
  modify_server (lud_server lud) (fun s => set_active (to_size (_active_connections s + 1)) s);;
  call (CallHandler (lud_handler lud) (lud_server lud) fiber socket);;
  modify_server (lud_server lud) (fun s => set_active (to_size (_active_connections s - 1)) s);;
  s ← call (GetServer (lud_server lud));
  if (_active_connections s =? 0) && (_state s =? DFK_TCP_SERVER_STOP_WAIT_CONNECTIONS)
  then call (Resume (serve_fiber lud)) else mret tt.

(** [cb] is [dfk_tcp_server_callback] with the address of the local variable
    [lud]. *)
Definition dfk_tcp_serve (have_sock_nonblock : bool) (server endpoint port backlog : Z) (cb : callback_t) : net Z :=
  s ← call (GetServer server);
  let dfk := ts_dfk s in
  call (ListAppend (_tcp_servers dfk) (server_hook server));;
  serve_fiber ← call (ThisFiber dfk);
  err ← dfk_tcp_socket_init have_sock_nonblock (_s server) dfk;
  if negb (err =? err_code dfk_err_ok) then mret err else
  modify_server server (set_state DFK_TCP_SERVER_SERVING);;
  err ← dfk_tcp_socket_listen (_s server) endpoint port cb backlog;
  if negb (err =? err_code dfk_err_ok) then mret err else
  s ← call (GetServer server);
  (if negb (_active_connections s =? 0) then
     modify_server server (set_state DFK_TCP_SERVER_STOP_WAIT_CONNECTIONS);;
     call (Suspend dfk)
   else mret tt);;
  err ← dfk_tcp_socket_close (_s server);
  if negb (err =? err_code dfk_err_ok) then mret err else
  modify_server server (set_state DFK_TCP_SERVER_STOPPED);;
  mret (err_code dfk_err_ok).

Definition dfk_tcp_server_is_stopping (server : Z) : net bool :=
  n_assert (nonnull server);;
  s ← call (GetServer server);
  mret ((_state s =? DFK_TCP_SERVER_STOP_REQUESTED)
    || (_state s =? DFK_TCP_SERVER_STOP_WAIT_CONNECTIONS)
    || (_state s =? DFK_TCP_SERVER_STOPPED)).

Definition dfk_tcp_server_stop (server : Z) : net Z :=
  n_assert (nonnull server);;
  s ← call (GetServer server);
  n_assert (_state s =? DFK_TCP_SERVER_SERVING);;
  err ← dfk_tcp_socket_shutdown (_s server) DFK_SHUT_RDWR;
  if negb (err =? err_code dfk_err_ok) then mret err else
  modify_server server (set_state DFK_TCP_SERVER_STOP_REQUESTED);;
  mret (err_code dfk_err_ok).

(** [dfk_stop] of [context.c]: the errors of the servers are only logged. *)
Fixpoint stop_servers (hooks : list Z) : net unit :=
  match hooks with
  | [] => mret tt
  | h :: hooks => dfk_tcp_server_stop (to_tcp_server h);; stop_servers hooks
  end.

Definition dfk_stop (dfk : Z) : net Z :=
  n_assert (nonnull dfk);;
  stopped ← call (GetStopped dfk);
  if stopped : bool then mret (err_code dfk_err_ok) else
  call (SetStopped dfk);;
  hooks ← call (ListElements (_tcp_servers dfk));
  stop_servers hooks;;
  mret (err_code dfk_err_ok).
