(* ===== verification/NetTheorems.v ===== *)
(** * What is proved of sockets and servers

    The environment is a kernel that answers as its manual pages say, and
    other fibers that run while this one waits.  A ledger records what became
    of the descriptors that were accepted and which bytes were moved. *)

From ITree Require Import ITreeDefinition.
From S2P Require Import Prelude Error Misc Interact Socket TcpServer.
From Stdlib Require Import Permutation.

(** Bytes that a system call moved: written or read, through which descriptor,
    from or to which address, and how many. *)
Record move := Move { mv_out : bool; mv_fd : Z; mv_buf : Z; mv_bytes : Z }.

(** [moves]: the reads and writes that moved bytes; [last_result]: what the last
    read or write returned. *)
Record kstate := KState {
  ks_socks : gmap Z dfk_tcp_socket_t;
  ks_servers : gmap Z dfk_tcp_server_t;
  accepted : list Z;
  given : list Z;
  closed : list Z;
  lost : list Z;
  moves : list move;
  last_result : Z
}.

Definition with_accepted (fd : Z) (s : kstate) : kstate :=
  KState (ks_socks s) (ks_servers s) (accepted s ++ [fd]) (given s) (closed s) (lost s) (moves s) (last_result s).
Definition with_given (fd : Z) (s : kstate) : kstate :=
  KState (ks_socks s) (ks_servers s) (accepted s) (given s ++ [fd]) (closed s) (lost s) (moves s) (last_result s).
Definition with_closed (fd : Z) (s : kstate) : kstate :=
  KState (ks_socks s) (ks_servers s) (accepted s) (given s) (closed s ++ [fd]) (lost s) (moves s) (last_result s).
Definition with_lost (fd : Z) (s : kstate) : kstate :=
  KState (ks_socks s) (ks_servers s) (accepted s) (given s) (closed s) (lost s ++ [fd]) (moves s) (last_result s).
Definition moved_bytes (out : bool) (fd buf n : Z) : list move := if 0 <? n then [Move out fd buf n] else [].
Definition with_moved (out : bool) (fd buf n : Z) (s : kstate) : kstate :=
  KState (ks_socks s) (ks_servers s) (accepted s) (given s) (closed s) (lost s) (moves s ++ moved_bytes out fd buf n) n.
Definition with_socks (h : gmap Z dfk_tcp_socket_t) (s : kstate) : kstate :=
  KState h (ks_servers s) (accepted s) (given s) (closed s) (lost s) (moves s) (last_result s).
Definition with_servers (h : gmap Z dfk_tcp_server_t) (s : kstate) : kstate :=
  KState (ks_socks s) h (accepted s) (given s) (closed s) (lost s) (moves s) (last_result s).

(** The number of bytes that a read or write of [n] bytes may return. *)
Definition count_ok (n r : Z) : Prop := r = -1 \/ 0 <= r <= n.

(** While a fiber waits the others may serve connections, and stop a server
    that is serving. *)
Definition server_moves (a b : dfk_tcp_server_t) : Prop :=
  ts_dfk b = ts_dfk a /\
  (_state b = _state a \/
   (_state a = DFK_TCP_SERVER_SERVING /\ _state b = DFK_TCP_SERVER_STOP_REQUESTED)).

Definition others (s s' : kstate) : Prop :=
  exists h, s' = with_servers h s /\
    forall p a, ks_servers s !! p = Some a -> exists b, h !! p = Some b /\ server_moves a b.

Definition answer {X} (e : netE X) (s : kstate) : X -> kstate -> Prop :=
  match e in netE Y return Y -> kstate -> Prop with
  | Accept _ => fun r s' => (r < 0 /\ s' = s) \/ (0 <= r /\ s' = with_accepted r s)
  | Close fd => fun _ s' => s' = with_closed fd s
  | Spawn _ a => fun f s' =>
      s' = if decide (f = 0) then with_lost (_socket (a_socket a)) s else with_given (_socket (a_socket a)) s
  | Read fd buf n => fun r s' => count_ok n r /\ s' = with_moved false fd buf r s
  | Write fd buf n => fun r s' => count_ok n r /\ s' = with_moved true fd buf r s
  | Io _ _ ev => fun r s' => Z.land r (Z.lor ev DFK_IO_ERR) <> 0 /\ others s s'
  | Suspend _ => fun _ s' => others s s'
  | CallHandler _ _ _ _ => fun _ s' => others s s'
  | CallAccepted _ _ _ => fun _ s' => others s s'
  | GetSocket p => fun r s' => s' = s /\ ks_socks s !! p = Some r
  | SetSocket p v => fun _ s' => s' = with_socks (<[p := v]> (ks_socks s)) s
  | GetServer p => fun r s' => s' = s /\ ks_servers s !! p = Some r
  | SetServer p v => fun _ s' => s' = with_servers (<[p := v]> (ks_servers s)) s
  | _ => fun _ s' => s' = s
  end.

(** Every descriptor this fiber accepted was handed to a new fiber, closed, or
    lost because no fiber could be made. *)
Definition balanced (s : kstate) : Prop := accepted s ≡ₚ given s ++ closed s ++ lost s.

(** No assertion fails, objects that are accessed exist, and the fiber waits
    only while it has no descriptor in hand. *)
Definition allowed {X} (e : netE X) (s : kstate) : Prop :=
  match e with
  | AssertFails => False
  | GetSocket p => is_Some (ks_socks s !! p)
  | GetServer p => is_Some (ks_servers s !! p)
  | Accept _ | Io _ _ _ => balanced s
  | _ => True
  end.

(** The same without a claim on assertions and waiting. *)
Definition unfailing {X} (e : netE X) (s : kstate) : Prop := True.

Section rules.
Context (ok : forall X, netE X -> kstate -> Prop).
#[local] Notation holds := (holds ok (@answer)).

(** [gives P t]: [P] relates the state before [t] to its result and the state
    after it. *)
Definition gives {A} (P : A -> kstate -> kstate -> Prop) (t : net A) : Prop :=
  forall s, holds (fun a s' => P a s s') t s.

Lemma holds_assert {B} (b : bool) (k : unit -> net B) (Q : B -> kstate -> Prop) s :
  b = true -> holds Q (k tt) s -> holds Q (n_assert b ≫= k) s.
Proof.
  intros -> H. eapply holds_bind; [by apply (holds_ret _ _ (fun _ s' => s' = s))|].
  intros [] s' ->. exact H.
Qed.

Lemma holds_then {A B} (P : A -> kstate -> kstate -> Prop) (t : net A) (k : A -> net B) (Q : B -> kstate -> Prop) s :
  gives P t -> (forall a s', P a s s' -> holds Q (k a) s') -> holds Q (t ≫= k) s.
Proof. intros Ht Hk. eapply holds_bind; [apply Ht|]. done. Qed.

Lemma gives_call {X} (e : netE X) : (forall s, ok X e s) -> gives (fun x s s' => answer e s x s') (call e).
Proof. intros Ha s. by apply holds_trigger. Qed.

End rules.

(** ** The pieces *)

Section pieces.
Context (ok : forall X, netE X -> kstate -> Prop).
Context (ok_errno : forall s, ok _ Errno s).
Context (ok_sys : forall d e s, ok _ (SetSysErrno d e) s).
#[local] Notation holds := (holds ok (@answer)).
#[local] Notation gives := (gives ok).

Lemma error_syscall_quiet dfk : gives (fun _ s s' => s' = s) (error_syscall dfk).
Proof using ok_errno ok_sys.
  intros s. unfold error_syscall. apply holds_call; [apply ok_errno|]. intros x s' ->.
  apply holds_trigger; [apply ok_sys|]. by intros [] s' ->.
Qed.

Lemma make_nonblock_quiet dfk fd : (forall s, ok _ (GetFlags fd) s) -> (forall f s, ok _ (SetFlags fd f) s) ->
  gives (fun r s s' => s' = s /\ (r = err_code dfk_err_ok \/ r = err_code dfk_err_sys)) (dfk__make_nonblock dfk fd).
Proof using ok_errno ok_sys.
  intros H1 H2 s. unfold dfk__make_nonblock. apply holds_call; [apply H1|]. intros fl s' ->.
  destruct (fl =? -1).
  - eapply holds_then; [apply error_syscall_quiet|]. intros [] s' ->. apply holds_ret. auto.
  - apply holds_call; [apply H2|]. intros fl' s' ->. destruct (fl' =? -1); [|apply holds_ret; auto].
    eapply holds_then; [apply error_syscall_quiet|]. intros [] s' ->. apply holds_ret. auto.
Qed.

Lemma close_closes dfk fd : (forall s, ok _ (Close fd) s) ->
  gives (fun r s s' => s' = with_closed fd s /\ (r = err_code dfk_err_ok \/ r = err_code dfk_err_sys)) (dfk__close dfk fd).
Proof using ok_errno ok_sys.
  intros H s. unfold dfk__close. apply holds_call; [apply H|]. intros r s' ->. destruct (r =? -1).
  - eapply holds_then; [apply error_syscall_quiet|]. intros [] s' ->. apply holds_ret. auto.
  - apply holds_ret. auto.
Qed.

End pieces.

(** ** The loop of [dfk_tcp_socket_listen] *)

Section listen.
Context (ok : forall X, netE X -> kstate -> Prop).
(** Whether the caller claims that its ledger is balanced. *)
Context (claimed : Prop).
Context (ok_quiet : forall X (e : netE X) s, (claimed -> balanced s) ->
  match e with AssertFails | GetSocket _ | GetServer _ => True | _ => ok X e s end).
Context (ok_always : forall X (e : netE X) s,
  match e with Accept _ | Io _ _ _ | AssertFails | GetSocket _ | GetServer _ => True | _ => ok X e s end).
(** What the caller knows of the sockets and servers, whatever other fibers do. *)
Context (P : gmap Z dfk_tcp_socket_t -> gmap Z dfk_tcp_server_t -> Prop).
Context (P_stable : forall s s', others s s' -> P (ks_socks s) (ks_servers s) -> P (ks_socks s') (ks_servers s')).
#[local] Notation holds := (holds ok (@answer)).
#[local] Notation gives := (gives ok).

Definition listening (s : kstate) : Prop := (claimed -> balanced s) /\ P (ks_socks s) (ks_servers s).

Lemma others_balanced s s' : others s s' -> balanced s -> balanced s'.
Proof. by intros (h & -> & _). Qed.

Lemma listening_others s s' : others s s' -> listening s -> listening s'.
Proof using P_stable. intros Ho [Hb HP]. split; [intros Hc; by eapply others_balanced, Hb|by eapply P_stable]. Qed.

(** A descriptor in hand is closed, given or lost. *)
Lemma listening_closed fd s : listening s -> listening (with_closed fd (with_accepted fd s)).
Proof using. intros [Hb HP]. split; [|done]. intros Hc. specialize (Hb Hc). unfold balanced in *. cbn. rewrite Hb. solve_Permutation. Qed.
Lemma listening_given fd s : listening s -> listening (with_given fd (with_accepted fd s)).
Proof using. intros [Hb HP]. split; [|done]. intros Hc. specialize (Hb Hc). unfold balanced in *. cbn. rewrite Hb. solve_Permutation. Qed.
Lemma listening_lost fd s : listening s -> listening (with_lost fd (with_accepted fd s)).
Proof using. intros [Hb HP]. split; [|done]. intros Hc. specialize (Hb Hc). unfold balanced in *. cbn. rewrite Hb. solve_Permutation. Qed.

#[local] Ltac always := intros; match goal with |- ok ?X ?e ?s => exact (ok_always X e s) end.

Lemma sys_failed {R} dfk (v : R) (Q : R -> kstate -> Prop) s : Q v s -> holds Q (error_syscall dfk;; mret v) s.
Proof using ok_always.
  intros HQ. eapply holds_then; [apply error_syscall_quiet; always|].
  intros [] s' ->. by apply holds_ret.
Qed.

Lemma accept_body_spec dfk fd cb s : listening s ->
  holds (fun r s' => match r with inl _ => listening s' | inr r => r = err_code dfk_err_sys /\ listening s' end)
    (accept_body dfk fd cb tt) s.
Proof using ok_quiet ok_always P_stable.
  intros Hl. unfold accept_body. apply holds_call; [exact (ok_quiet _ (Accept fd) s (proj1 Hl))|].
  intros c s' [[Hc ->]|[Hc ->]].
  - rewrite (proj2 (Z.ltb_lt _ _) Hc). apply holds_call; [always|]. intros e s' ->.
    destruct (e =? EWOULDBLOCK); [|by apply sys_failed].
    apply holds_call; [exact (ok_quiet _ (Io dfk fd DFK_IO_IN) s (proj1 Hl))|]. intros ev s' [_ Ho].
    pose proof (listening_others _ _ Ho Hl) as Hl'.
    destruct (has_event ev DFK_IO_ERR); [by apply sys_failed|by apply holds_ret].
  - rewrite (proj2 (Z.ltb_ge _ _) Hc).
    eapply holds_then; [apply make_nonblock_quiet; always|]. intros err s' [-> _].
    destruct (negb (err =? err_code dfk_err_ok)).
    + eapply holds_then; [apply close_closes; always|]. intros r s' [-> _].
      apply holds_ret. by apply listening_closed.
    + apply holds_call; [always|]. intros f s' ->. apply holds_ret.
      case_decide; [by apply listening_lost|by apply listening_given].
Qed.

Lemma listen_spec sock endpoint port cb backlog s : sock <> 0 -> endpoint <> 0 -> port <> 0 -> cb_fun cb <> 0 ->
  backlog <> 0 -> ok _ (GetSocket sock) s -> listening s ->
  holds (fun r s' => r = err_code dfk_err_sys /\ listening s') (dfk_tcp_socket_listen sock endpoint port cb backlog) s.
Proof using ok_quiet ok_always P_stable.
  intros H1 H2 H3 H4 H5 Hs Hl. unfold dfk_tcp_socket_listen.
  do 2 (apply holds_assert; [by apply nonnull_true|]). apply holds_assert; [by apply negb_true_iff, Z.eqb_neq|].
  apply holds_assert; [by apply nonnull_true|]. apply holds_assert; [by apply negb_true_iff, Z.eqb_neq|].
  apply holds_call; [exact Hs|]. intros v s' [-> _]. cbv zeta.
  apply holds_call; [always|]. intros a s' ->.
  eapply (holds_bind _ _ (fun _ s' => s' = s)).
  { destruct a; [by apply holds_ret|]. apply holds_trigger; [always|]. by intros x s' ->. }
  intros addr s' ->. apply holds_call; [always|]. intros e1 s' ->.
  destruct (e1 <? 0); [by apply sys_failed|].
  apply holds_call; [always|]. intros e2 s' ->. destruct (e2 <? 0); [by apply sys_failed|].
  apply (holds_iter _ _ (fun _ s => listening s)); [done|]. intros [] s' Hl'. by apply accept_body_spec.
Qed.

End listen.

(** ** Reads and writes *)

#[local] Notation sure := (holds (@allowed) (@answer)).

(** What a transfer of at most [n] bytes gives. *)
Definition transferred (out : bool) (fd buf n r : Z) (s s' : kstate) : Prop :=
  balanced s' /\ ks_socks s' = ks_socks s /\ count_ok n r /\ last_result s' = r /\
  moves s' = moves s ++ moved_bytes out fd buf r.

Lemma has_event_other r ev : Z.land r (Z.lor ev DFK_IO_ERR) <> 0 -> has_event r DFK_IO_ERR = false ->
  has_event r ev = true.
Proof.
  unfold has_event. intros Hr He%negb_false_iff%Z.eqb_eq. apply negb_true_iff, Z.eqb_neq. intros Hev.
  by rewrite Z.land_lor_distr_r, Hev, He in Hr.
Qed.

Lemma moved_nothing out fd buf r : r <= 0 -> moved_bytes out fd buf r = [].
Proof. intros Hr. unfold moved_bytes. by rewrite (proj2 (Z.ltb_ge _ _)). Qed.

Lemma failed_count n r : count_ok n r -> r < 0 -> r = -1.
Proof. intros [->|Hr]; [done|lia]. Qed.

Lemma io_failed_spec dfk out fd buf n s0 s : balanced s -> ks_socks s = ks_socks s0 -> moves s = moves s0 ->
  last_result s = -1 -> sure (fun r s' => transferred out fd buf n r s0 s') (io_failed dfk) s.
Proof.
  intros Hb Hs Hm Hl. unfold io_failed. eapply holds_then; [by apply error_syscall_quiet|]. intros [] s' ->.
  apply holds_call; [done|]. intros [] s' ->. apply holds_ret. unfold transferred. cbn [moved_bytes Z.ltb].
  rewrite app_nil_r. split_and!; [done..|by left|done|done].
Qed.

(** A call that is repeated once after the descriptor became ready. *)
Definition xfer (X : netE Z) (out : bool) (fd buf n : Z) : Prop := forall s,
  (forall r s', answer X s r s' <-> count_ok n r /\ s' = with_moved out fd buf r s) /\ allowed X s.

Lemma attempt_spec X n dfk out fd buf fd' ev s : xfer X out fd buf n -> balanced s ->
  sure (fun r s' => transferred out fd buf n r s s')
    (nread ← call X;
     if 0 <=? nread then mret nread else
     errno ← call Errno;
     if negb (errno =? EAGAIN) then io_failed dfk else
     ioret ← call (Io dfk fd' ev);
     if has_event ioret DFK_IO_ERR then io_failed dfk else
     n_assert (has_event ioret ev);;
     nread ← call X;
     if nread <? 0 then io_failed dfk else mret nread) s.
Proof.
  intros HX Hb. apply holds_call; [apply HX|]. intros r s' [Hr ->]%HX.
  destruct (Z.leb_spec 0 r) as [H0|H0]; [by apply holds_ret|].
  assert (moves (with_moved out fd buf r s) = moves s) as Hm by (cbn; rewrite moved_nothing by lia; apply app_nil_r).
  pose proof (failed_count _ _ Hr H0) as ->. set (s0 := with_moved out fd buf (-1) s) in *.
  apply holds_call; [done|]. intros e s' ->. destruct (negb (e =? EAGAIN)); [by apply io_failed_spec|].
  apply holds_call; [done|]. intros io s1 [Hio (h & -> & _)]. set (s1 := with_servers h s0).
  destruct (has_event io DFK_IO_ERR) eqn:He; [by apply io_failed_spec|].
  apply holds_assert; [by apply has_event_other|].
  apply holds_call; [apply HX|]. intros r' s' [Hr' ->]%HX. destruct (Z.ltb_spec r' 0) as [H1|H1].
  - pose proof (failed_count _ _ Hr' H1) as ->. apply io_failed_spec; [done|done| |done].
    cbn [with_moved moves]. rewrite moved_nothing by lia. by rewrite app_nil_r.
  - apply holds_ret. split_and!; [done..|]. cbn [with_moved moves]. by f_equal.
Qed.

(** ** Vectors of blocks *)

Definition block_ok (b : iovec) : Prop := iov_data b <> 0 /\ 0 < iov_size b < 2 ^ 63.

Definition blocks_size (iov : list iovec) : Z := foldr (fun b n => iov_size b + n) 0 iov.

(** The moves of [w] bytes that fill the blocks in their order. *)
Fixpoint cover (out : bool) (fd : Z) (iov : list iovec) (w : Z) : list move :=
  match iov with
  | [] => []
  | b :: iov =>
      if w <? iov_size b then moved_bytes out fd (iov_data b) w
      else Move out fd (iov_data b) (iov_size b) :: cover out fd iov (w - iov_size b)
  end.

(** How much of the first block that is not full [w] bytes fill. *)
Fixpoint part (iov : list iovec) (w : Z) : option Z :=
  match iov with
  | [] => None
  | b :: iov => if w <? iov_size b then Some w else part iov (w - iov_size b)
  end.

(** What a vectored operation does from [s] to [s'], when [total] bytes were moved
    before: it moves [w] bytes, filling the blocks in their order; it returns -1
    if the last call failed, the number of bytes if all blocks are full, and
    otherwise, when the last call gave the [k] bytes of the block that is not
    full, [short (total + w) k]. *)
Definition vectored (out : bool) (fd : Z) (short : Z -> Z -> Z) (total : Z) (iov : list iovec) (s s' : kstate) (r : Z) : Prop :=
  exists w, 0 <= w <= blocks_size iov /\ moves s' = moves s ++ cover out fd iov w /\
    if last_result s' <? 0 then r = -1 /\ w < blocks_size iov
    else match part iov w with
         | None => r = total + w
         | Some k => last_result s' = k /\ r = short (total + w) k
         end.

Lemma blocks_size_nonneg iov : Forall block_ok iov -> 0 <= blocks_size iov.
Proof. induction 1 as [|b iov [_ Hb] _ IH]; unfold blocks_size in *; cbn [foldr]; lia. Qed.

Section vectors.
Context (out : bool) (fd : Z) (short : Z -> Z -> Z) (total : Z) (b : iovec) (iov : list iovec).
Context (Hb : block_ok b) (Hiov : Forall block_ok iov).

Lemma vectored_failed s s' : transferred out fd (iov_data b) (iov_size b) (-1) s s' ->
  vectored out fd short total (b :: iov) s s' (-1).
Proof using Hb Hiov.
  intros (_ & _ & _ & Hl & Hm). pose proof (blocks_size_nonneg _ Hiov) as Ht. destruct Hb as [_ Hs].
  exists 0. cbn [blocks_size foldr cover part]. fold (blocks_size iov). rewrite Hl, (proj2 (Z.ltb_lt 0 _)) by lia.
  split; [lia|]. split; [exact Hm|]. cbn. lia.
Qed.

Lemma vectored_short s s' r : 0 <= r -> r <> iov_size b -> transferred out fd (iov_data b) (iov_size b) r s s' ->
  vectored out fd short total (b :: iov) s s' (short (total + r) r).
Proof using Hb Hiov.
  intros H0 Hne (_ & _ & Hr & Hl & Hm). pose proof (blocks_size_nonneg _ Hiov) as Ht.
  exists r. cbn [blocks_size foldr cover part]. fold (blocks_size iov). destruct Hr as [->|Hr]; [lia|].
  rewrite Hl, (proj2 (Z.ltb_lt r _)), (proj2 (Z.ltb_ge r 0)) by lia. split; [lia|]. done.
Qed.

Lemma vectored_full s s1 s' r : transferred out fd (iov_data b) (iov_size b) (iov_size b) s s1 ->
  vectored out fd short (total + iov_size b) iov s1 s' r -> vectored out fd short total (b :: iov) s s' r.
Proof using Hb.
  intros (_ & _ & _ & _ & Hm1) (w & Hw & Hm & Hr). destruct Hb as [_ Hs]. exists (iov_size b + w).
  cbn [blocks_size foldr cover part]. fold (blocks_size iov). rewrite (proj2 (Z.ltb_ge _ _)) by lia.
  assert (iov_size b + w - iov_size b = w) as -> by lia. split; [lia|]. split.
  - rewrite Hm, Hm1, <- app_assoc. unfold moved_bytes. by rewrite (proj2 (Z.ltb_lt _ _)) by lia.
  - rewrite Z.add_assoc. revert Hr. destruct (last_result s' <? 0); [lia|done].
Qed.

End vectors.

Lemma vectored_nil out fd short total s : 0 <= last_result s -> vectored out fd short total [] s s total.
Proof.
  intros H. exists 0. rewrite (proj2 (Z.ltb_ge _ _)) by done. cbn. rewrite app_nil_r. split; [lia|]. split; [done|lia].
Qed.

Section transfers.
Context (sock : Z) (v : dfk_tcp_socket_t).
Context (Hsock : sock <> 0) (Hdfk : t_dfk v <> 0).

Lemma tcp_read_spec b s : block_ok b -> balanced s -> ks_socks s !! sock = Some v ->
  sure (fun r s' => transferred false (_socket v) (iov_data b) (iov_size b) r s s')
    (dfk_tcp_socket_read sock (iov_data b) (iov_size b)) s.
Proof using Hsock Hdfk.
  intros [Hd Hn] Hb Hs. unfold dfk_tcp_socket_read, dfk__read.
  do 2 (apply holds_assert; [by apply nonnull_true|]). apply holds_assert; [apply negb_true_iff, Z.eqb_neq; lia|].
  apply holds_call; [by eexists|]. intros w s' [-> Hw]. rewrite Hs in Hw. injection Hw as <-.
  apply holds_assert; [by apply nonnull_true|]. apply holds_assert; [by apply nonnull_true|].
  apply holds_assert; [apply negb_true_iff, Z.eqb_neq; lia|]. apply holds_assert; [by apply nonnull_true|].
  by apply attempt_spec.
Qed.

Lemma tcp_write_spec b s : block_ok b -> balanced s -> ks_socks s !! sock = Some v ->
  sure (fun r s' => transferred true (_socket v) (iov_data b) (iov_size b) r s s')
    (dfk_tcp_socket_write sock (iov_data b) (iov_size b)) s.
Proof using Hsock Hdfk.
  intros [Hd Hn] Hb Hs. unfold dfk_tcp_socket_write.
  do 2 (apply holds_assert; [by apply nonnull_true|]). apply holds_assert; [apply negb_true_iff, Z.eqb_neq; lia|].
  apply holds_call; [by eexists|]. intros w s' [-> Hw]. rewrite Hs in Hw. injection Hw as <-.
  apply holds_assert; [by apply nonnull_true|]. by apply attempt_spec.
Qed.

Lemma to_size_count b r : block_ok b -> 0 <= r <= iov_size b -> to_size r = r.
Proof using. intros [_ Hs] Hr. apply to_size_small. unfold SIZE_MOD, SIZE_BITS. lia. Qed.

(** The two loops differ in what they return after a block that is not full. *)
Lemma tcp_readv_loop_spec iov : forall total s, Forall block_ok iov -> balanced s -> ks_socks s !! sock = Some v ->
  (iov = [] -> 0 <= last_result s) ->
  sure (fun r s' => vectored false (_socket v) (fun w _ => w) total iov s s' r) (readv_loop sock iov total) s.
Proof using Hsock Hdfk.
  induction iov as [|b iov IH]; intros total s Hok Hb Hs Hlast; cbn [readv_loop].
  { by apply holds_ret, vectored_nil, Hlast. }
  apply Forall_cons in Hok as [Hbo Hok]. eapply holds_bind; [by apply tcp_read_spec|].
  intros r s' Ht. pose proof Ht as (Hb' & Hs' & Hr & Hl & _). destruct (Z.ltb_spec r 0) as [H0|H0].
  { pose proof (failed_count _ _ Hr H0) as ->. by apply holds_ret, vectored_failed. }
  destruct Hr as [->|Hr]; [lia|]. rewrite (to_size_count b r) by done.
  destruct (Z.eqb_spec r (iov_size b)) as [->|E]; cbn [negb].
  - eapply holds_mono; [apply IH; [done|done|by rewrite Hs'|lia]|]. intros r' s''. by apply vectored_full.
  - apply holds_ret. by apply (vectored_short false _ (fun w _ => w)).
Qed.

Lemma tcp_writev_loop_spec iov : forall total s, Forall block_ok iov -> balanced s -> ks_socks s !! sock = Some v ->
  (iov = [] -> 0 <= last_result s) ->
  sure (fun r s' => vectored true (_socket v) (fun _ k => k) total iov s s' r) (writev_loop sock iov total) s.
Proof using Hsock Hdfk.
  induction iov as [|b iov IH]; intros total s Hok Hb Hs Hlast; cbn [writev_loop].
  { by apply holds_ret, vectored_nil, Hlast. }
  apply Forall_cons in Hok as [Hbo Hok]. eapply holds_bind; [by apply tcp_write_spec|].
  intros r s' Ht. pose proof Ht as (Hb' & Hs' & Hr & Hl & _). destruct (Z.ltb_spec r 0) as [H0|H0].
  { pose proof (failed_count _ _ Hr H0) as ->. by apply holds_ret, vectored_failed. }
  destruct Hr as [->|Hr]; [lia|]. rewrite (to_size_count b r) by done.
  destruct (Z.eqb_spec r (iov_size b)) as [->|E]; cbn [negb].
  - eapply holds_mono; [apply IH; [done|done|by rewrite Hs'|lia]|]. intros r' s''. by apply vectored_full.
  - apply holds_ret. by apply (vectored_short true _ (fun _ k => k)).
Qed.

End transfers.

(** ** Servers *)

#[local] Notation may := (holds (@unfailing) (@answer)).

Lemma holds_if_assert {B} (b : bool) (k : unit -> net B) (Q : B -> kstate -> Prop) s :
  (b = true -> may Q (k tt) s) -> may Q (n_assert b ≫= k) s.
Proof.
  intros H. destruct b; [by apply holds_assert, H|]. apply (holds_bind _ _ (fun _ _ => False)); [|done].
  apply holds_call; [done|]. by intros [].
Qed.

(** What is about to fail an assertion. *)
Definition aborts {R} (t : net R) : Prop := exists k, observe t = VisF AssertFails k.

Lemma step1_vis {R X} (t : net R) (e : netE X) k s t' s' : observe t = VisF e k -> step1 (@answer) t s t' s' ->
  exists x, answer e s x s' /\ t' = k x.
Proof.
  intros Ho Hs. set (P := fun o : itreeF netE R (net R) =>
    match o with VisF e k => exists x, answer e s x s' /\ t' = k x | _ => False end).
  change (P (VisF e k)). rewrite <- Ho. destruct Hs as [t' Ho'|Y e' k' x s' Ho' Hx]; subst P; rewrite Ho'.
  - by rewrite Ho in Ho'.
  - by exists x.
Qed.

(** One event of a run that is given, and that is built. *)
#[local] Ltac answers x :=
  eapply steps_more;
  [match goal with |- step1 _ ?t _ _ _ =>
     let o := eval hnf in (observe t) in
     match o with VisF ?e ?k => apply (step_vis (@answer) t _ _ e k x); [reflexivity|] end end|].
#[local] Ltac silent :=
  eapply steps_more;
  [match goal with |- step1 _ ?t _ _ _ =>
     let o := eval hnf in (observe t) in
     match o with TauF ?u => apply (step_tau (@answer) t _ u); reflexivity end end|].
#[local] Tactic Notation "asked" hyp(H) "as" simple_intropattern(p) :=
  match type of H with step1 _ ?t _ _ _ =>
    let o := eval hnf in (observe t) in
    match o with VisF ?e ?k => destruct (step1_vis t e k _ _ _ eq_refl H) as p end end.

(** [dfk_tcp_server_free] fails its assertion as soon as it has read the server. *)
Section unfree.
Context (server : Z) (s : kstate) (a : dfk_tcp_server_t).
Context (Ha : ks_servers s !! server = Some a).
Context (Hinit : _state a <> DFK_TCP_SERVER_INITIALIZED) (Hstop : _state a <> DFK_TCP_SERVER_STOPPED).

Lemma server_free_step t' s' : step1 (@answer) (dfk_tcp_server_free server) s t' s' -> aborts t'.
Proof using Ha Hinit Hstop.
  intros Hs. asked Hs as (b & [Es Hb] & ->). rewrite Ha in Hb. injection Hb as <-.
  change (aborts (n_assert ((_state a =? DFK_TCP_SERVER_INITIALIZED) || (_state a =? DFK_TCP_SERVER_STOPPED)))).
  rewrite (proj2 (Z.eqb_neq _ _) Hinit), (proj2 (Z.eqb_neq _ _) Hstop). unfold aborts; cbn; by eexists.
Qed.

Lemma server_free_aborts t' s' : steps (@answer) (dfk_tcp_server_free server) s t' s' ->
  t' = dfk_tcp_server_free server \/ aborts t'.
Proof using Ha Hinit Hstop.
  intros Hrun. inversion Hrun as [|? ? t1 s1 ? ? Hs1 Hrun1]; subst; [by left|right].
  apply server_free_step in Hs1 as [k Hk]. inversion Hrun1 as [|? ? t2 s2 ? ? Hs2 _]; subst; [by exists k|].
  by apply (step1_vis _ _ _ _ _ _ Hk) in Hs2 as ([] & _).
Qed.

Lemma server_free_run : exists t' s', steps (@answer) (dfk_tcp_server_free server) s t' s' /\ aborts t'.
Proof using Ha Hinit Hstop.
  assert (exists t', step1 (@answer) (dfk_tcp_server_free server) s t' s) as [t' Hs].
  { eexists. match goal with |- step1 _ ?t _ _ _ => let o := eval hnf in (observe t) in
      match o with VisF ?e ?k => apply (step_vis (@answer) t _ _ e k a) end end; [reflexivity|done]. }
  exists t', s. split; [|by apply server_free_step in Hs]. eapply steps_more; [exact Hs|apply steps_refl].
Qed.

End unfree.

(** Nothing here depends on what is allowed. *)
#[local] Ltac free := intros; exact I.

(** A socket is stored exactly if the function succeeds. *)
Definition made (sock r : Z) (s s' : kstate) : Prop :=
  ks_servers s' = ks_servers s /\
  ((r = err_code dfk_err_ok /\ is_Some (ks_socks s' !! sock)) \/
   (r = err_code dfk_err_sys /\ ks_socks s' = ks_socks s)).

Lemma socket_init_spec nb sock dfk s : sock <> 0 -> dfk <> 0 ->
  may (fun r s' => made sock r s s') (dfk_tcp_socket_init nb sock dfk) s.
Proof.
  intros H1 H2. unfold dfk_tcp_socket_init. do 2 (apply holds_assert; [by apply nonnull_true|]).
  apply holds_call; [done|]. intros fd s' ->. destruct (fd =? -1).
  { eapply holds_then; [by apply error_syscall_quiet|]. intros [] s' ->. apply holds_ret. split; [done|by right]. }
  eapply (holds_bind _ _ (fun r s' => ks_servers s' = ks_servers s /\ ks_socks s' = ks_socks s /\
    (r = err_code dfk_err_ok \/ r = err_code dfk_err_sys))).
  - destruct nb; [apply holds_ret; auto|]. eapply holds_then; [by apply make_nonblock_quiet|]. intros e s' [-> He].
    destruct (e =? err_code dfk_err_ok); [by apply holds_ret|]. eapply holds_then; [by apply close_closes|].
    intros r s' [-> _]. by apply holds_ret.
  - intros e s' (Hs & Hk & [-> | ->]).
    + apply holds_call; [done|]. intros [] s'' ->. apply holds_ret. split; [done|left]. split; [done|].
      cbn. rewrite lookup_insert_eq. by eexists.
    + apply holds_ret. split; [done|by right].
Qed.

(** The server has its socket, and is between its start and its end. *)
Definition serving (server : Z) (socks : gmap Z dfk_tcp_socket_t) (h : gmap Z dfk_tcp_server_t) : Prop :=
  is_Some (socks !! _s server) /\ exists a, h !! server = Some a /\
    (_state a = DFK_TCP_SERVER_SERVING \/ _state a = DFK_TCP_SERVER_STOP_REQUESTED).

Lemma serving_stable server s s' : others s s' -> serving server (ks_socks s) (ks_servers s) ->
  serving server (ks_socks s') (ks_servers s').
Proof.
  intros (h & -> & Hh) (Hk & a & Ha & Hst). split; [done|]. destruct (Hh _ _ Ha) as (b & Hb & _ & Hm). exists b. split; [done|].
  destruct Hm as [->|[_ ->]]; auto.
Qed.

(** The server is as it was: there is no socket. *)
Definition unserved (server : Z) (s s' : kstate) : Prop :=
  ks_socks s' = ks_socks s /\ exists a, ks_servers s' !! server = Some a /\ _state a = DFK_TCP_SERVER_INITIALIZED.

Lemma serve_spec nb server endpoint port backlog cb d n s : 0 < server -> endpoint <> 0 -> port <> 0 ->
  cb_fun cb <> 0 -> backlog <> 0 -> d <> 0 ->
  ks_servers s !! server = Some (TcpServer d n DFK_TCP_SERVER_INITIALIZED) ->
  may (fun r s' => r = err_code dfk_err_sys /\ (unserved server s s' \/ serving server (ks_socks s') (ks_servers s')))
    (dfk_tcp_serve nb server endpoint port backlog cb) s.
Proof.
  intros H1 H2 H3 H4 H5 Hd Hs. unfold dfk_tcp_serve. apply holds_call; [done|]. intros a s' [-> Ha].
  rewrite Hs in Ha. injection Ha as <-. cbv zeta. cbn [ts_dfk].
  apply holds_call; [done|]. intros [] s' ->. apply holds_call; [done|]. intros tf s' ->.
  eapply holds_bind; [apply socket_init_spec; [unfold _s; lia|done]|]. intros e s1 (Hs1 & [[-> Hk]|[-> Hk]]); cbn [negb Z.eqb].
  2: { apply holds_ret. split; [done|left]. split; [done|]. rewrite Hs1, Hs. by eexists. }
  change (negb (err_code dfk_err_ok =? err_code dfk_err_ok)) with false. cbv iota.
  eapply (holds_bind _ _ (fun _ s' => serving server (ks_socks s') (ks_servers s'))).
  { unfold modify_server. apply holds_call; [done|]. intros a s' [-> Ha]. apply holds_trigger; [done|].
    intros [] s' ->. split; [exact Hk|]. exists (set_state DFK_TCP_SERVER_SERVING a). cbn. rewrite lookup_insert_eq.
    split; [done|]. by left. }
  intros [] s2 Hs2. eapply holds_bind.
  { apply (listen_spec (@unfailing) False) with (P := serving server); try done.
    - intros X ev st _. by destruct ev.
    - intros X ev st. by destruct ev.
    - apply serving_stable.
    - unfold _s. lia. }
  intros e s3 [-> [_ Hs3]]. change (negb (err_code dfk_err_sys =? err_code dfk_err_ok)) with true. cbv iota.
  apply holds_ret. split; [done|by right].
Qed.

(** ** Theorems *)

(** C25: the listening fiber loses no descriptor.  In every run of
    [dfk_tcp_socket_listen], finite or not, whatever the kernel answers and the
    other fibers do: no assertion fails; whenever the fiber waits, each
    descriptor it accepted was handed to a new fiber, was closed, or belongs to
    a connection for which [dfk_spawn] returned NULL (only those leak); and if
    the function returns, then with [dfk_err_sys]. *)
Theorem tcp_listen_accounts (sock endpoint port backlog : Z) (cb : callback_t) (s s' : kstate) (t' : net Z)
    (Hargs : sock <> 0 /\ endpoint <> 0 /\ port <> 0 /\ cb_fun cb <> 0 /\ backlog <> 0)
    (Hsock : is_Some (ks_socks s !! sock)) (Hbalanced : balanced s)
    (Hrun : steps (@answer) (dfk_tcp_socket_listen sock endpoint port cb backlog) s t' s') :
  fine (@allowed) (fun r s => r = err_code dfk_err_sys /\ balanced s) t' s'.
Proof.
  destruct Hargs as (H1 & H2 & H3 & H4 & H5). eapply holds_fine; [|exact Hrun].
  eapply holds_mono; [apply (listen_spec _ True) with (P := fun _ _ => True); try done|].
  - intros X e st Hb. specialize (Hb I). by destruct e.
  - intros X e st. by destruct e.
  - intros r st [-> [Hb _]]. by split; [|apply Hb].
Qed.

(** C38: a server never reaches the state "stopped".  [dfk_tcp_serve] on an
    initialised server (whose socket has not been made) returns [dfk_err_sys] if
    at all, whatever happens, since the loop that accepts connections ends with
    an error only; the lines after it, which wait for the connections, close the
    socket and set the state, are never executed.  If no socket could be made
    the server is still initialised when it returns; if one was made, it is
    serving or asked to stop, and [dfk_tcp_server_free] does nothing but read
    the state of the server and fail its assertion. *)
Theorem tcp_server_never_stops (have_sock_nonblock : bool) (server endpoint port backlog : Z) (cb : callback_t)
    (s s' : kstate) (t' : net Z) (r : Z)
    (Hargs : 0 < server /\ endpoint <> 0 /\ port <> 0 /\ cb_fun cb <> 0 /\ backlog <> 0)
    (Hserver : exists d n, d <> 0 /\ ks_servers s !! server = Some (TcpServer d n DFK_TCP_SERVER_INITIALIZED))
    (Hunmade : ks_socks s !! _s server = None)
    (Hrun : steps (@answer) (dfk_tcp_serve have_sock_nonblock server endpoint port backlog cb) s t' s')
    (Hreturns : returns t' r) :
  r = err_code dfk_err_sys /\
  match ks_socks s' !! _s server with
  | None => _state <$> (ks_servers s' !! server) = Some DFK_TCP_SERVER_INITIALIZED
  | Some _ =>
      (exists a, ks_servers s' !! server = Some a /\
        (_state a = DFK_TCP_SERVER_SERVING \/ _state a = DFK_TCP_SERVER_STOP_REQUESTED)) /\
      (exists t'' s'', steps (@answer) (dfk_tcp_server_free server) s' t'' s'' /\ aborts t'') /\
      forall t'' s'', steps (@answer) (dfk_tcp_server_free server) s' t'' s'' ->
        t'' = dfk_tcp_server_free server \/ aborts t''
  end.
Proof.
  destruct Hargs as (H1 & H2 & H3 & H4 & H5). destruct Hserver as (d & n & Hd & Hs).
  pose proof (serve_spec have_sock_nonblock server endpoint port backlog cb d n s H1 H2 H3 H4 H5 Hd Hs) as Hspec.
  pose proof (holds_fine _ _ _ _ _ _ _ Hspec Hrun) as Hfine.
  apply (fine_returns (@unfailing) _ _ _ _ Hfine) in Hreturns as [-> Hst]. split; [done|].
  destruct Hst as [(Hk & a & Ha & Hst)|[[v Hv] (a & Ha & Hst)]].
  - rewrite Hk, Hunmade, Ha. cbn. by rewrite Hst.
  - assert (_state a <> DFK_TCP_SERVER_INITIALIZED /\ _state a <> DFK_TCP_SERVER_STOPPED) as [Hn1 Hn2]
      by by destruct Hst as [->| ->].
    rewrite Hv. split; [by exists a|]. split; [by apply (server_free_run _ _ a)|].
    intros t'' s''. by apply server_free_aborts with a.
Qed.

(** C39: vectored reads and writes.  In every run of [dfk_tcp_socket_readv] and
    [dfk_tcp_socket_writev] on blocks that are there no assertion fails, and a run
    that returns has filled (or written) the blocks in their order, with the
    number of bytes and the result that [vectored] says: -1 exactly if the last
    system call failed, whatever was moved before; the number of all bytes if
    every block was completed; and otherwise, when the last call moved the [k]
    bytes that the block after the complete ones has, the read returns the
    number of all bytes, but the write [k] only. *)
Theorem tcp_vectored_io (sock piov : Z) (v : dfk_tcp_socket_t) (iov : list iovec) (s s' : kstate) (t' : net Z)
    (Hargs : sock <> 0 /\ piov <> 0 /\ iov <> [] /\ t_dfk v <> 0) (Hblocks : Forall block_ok iov)
    (Hsock : ks_socks s !! sock = Some v) (Hbalanced : balanced s) :
  (steps (@answer) (dfk_tcp_socket_readv sock piov iov) s t' s' ->
   fine (@allowed) (fun r s' => vectored false (_socket v) (fun w _ => w) 0 iov s s' r) t' s') /\
  (steps (@answer) (dfk_tcp_socket_writev sock piov iov) s t' s' ->
   fine (@allowed) (fun r s' => vectored true (_socket v) (fun _ k => k) 0 iov s s' r) t' s').
Proof.
  destruct Hargs as (H1 & H2 & H3 & H4).
  assert (negb (Z.of_nat (length iov) =? 0) = true) as Hn.
  { apply negb_true_iff, Z.eqb_neq. destruct iov; [done|cbn; lia]. }
  split; intros Hrun; (eapply holds_fine; [|exact Hrun]).
  - unfold dfk_tcp_socket_readv. do 2 (apply holds_assert; [by apply nonnull_true|]). apply holds_assert; [done|].
    by eapply tcp_readv_loop_spec.
  - unfold dfk_tcp_socket_writev. do 2 (apply holds_assert; [by apply nonnull_true|]). apply holds_assert; [done|].
    by eapply tcp_writev_loop_spec.
Qed.

(** ** Runs *)

Definition ex_kernel : kstate :=
  KState {[100 := TcpSocket 64 3]} {[200 := TcpServer 64 0 DFK_TCP_SERVER_INITIALIZED]} [] [] [] [] [] 0.

(** A connection is accepted and given to a fiber; for a second one there is
    no memory. *)
Lemma ex_listen_run : exists t' s', accepted s' = [7; 8] /\ given s' = [7] /\ lost s' = [8] /\
  steps (@answer) (dfk_tcp_socket_listen 100 400 80 (Callback 500 0) 10) ex_kernel t' s'.
Proof.
  eexists. eexists ?[st]. do 3 (split; [shelve|]).
  answers (TcpSocket 64 3). { by split. }
  do 3 (answers 0 || answers (Some 0); [reflexivity|]).
  answers 7. { right. by split. }
  answers 0. { reflexivity. }
  answers 0. { reflexivity. }
  answers 1. { reflexivity. }
  silent.
  answers 8. { right. by split. }
  answers 0. { reflexivity. }
  answers 0. { reflexivity. }
  answers 0. { reflexivity. }
  apply steps_refl.
  Unshelve. all: reflexivity.
Qed.

Lemma tcp_listen_accounts_witness : exists t' s', accepted s' = [7; 8] /\ given s' = [7] /\ lost s' = [8] /\
  fine (@allowed) (fun r s => r = err_code dfk_err_sys /\ balanced s) t' s'.
Proof.
  destruct ex_listen_run as (t' & s' & H1 & H2 & H3 & Hrun). exists t', s'.
  split; [exact H1|]. split; [exact H2|]. split; [exact H3|].
  apply (tcp_listen_accounts 100 400 80 10 (Callback 500 0) ex_kernel s' t').
  - split_and!; discriminate.
  - eexists. reflexivity.
  - exact (perm_nil Z).
  - exact Hrun.
Defined.

(** The socket is made, but the address cannot be bound. *)
Lemma ex_serve_run : exists t' s', returns t' (err_code dfk_err_sys) /\ is_Some (ks_socks s' !! 232) /\
  steps (@answer) (dfk_tcp_serve true 200 400 80 10 (Callback 500 0)) ex_kernel t' s'.
Proof.
  eexists. eexists ?[st]. do 2 (split; [shelve|]).
  answers (TcpServer 64 0 DFK_TCP_SERVER_INITIALIZED). { by split. }
  answers tt. { reflexivity. }
  answers 900. { reflexivity. }
  answers 5. { reflexivity. }
  answers tt. { reflexivity. }
  answers (TcpServer 64 0 DFK_TCP_SERVER_INITIALIZED). { by split. }
  answers tt. { reflexivity. }
  answers (TcpSocket 64 5). { by split. }
  answers (Some 0). { reflexivity. }
  answers (-1). { reflexivity. }
  answers 98. { reflexivity. }
  answers tt. { reflexivity. }
  apply steps_refl.
  Unshelve. all: [> reflexivity | by eexists ].
Qed.

Lemma tcp_server_never_stops_witness : exists s' t'' s'',
  steps (@answer) (dfk_tcp_server_free 200) s' t'' s'' /\ aborts t''.
Proof.
  destruct ex_serve_run as (t' & s' & Hret & [v Hv] & Hrun). exists s'.
  destruct (tcp_server_never_stops true 200 400 80 10 (Callback 500 0) ex_kernel s' t' (err_code dfk_err_sys)) as [_ H].
  - split_and!; [reflexivity|discriminate..].
  - exists 64, 0. split; [discriminate|reflexivity].
  - reflexivity.
  - exact Hrun.
  - exact Hret.
  - change (_s 200) with 232 in H. rewrite Hv in H. apply H.
Defined.

(** Three blocks of four bytes: the second is written in part, and the result
    says 1 although 5 bytes were written. *)
Definition ex_blocks : list iovec := [Iov 300 4; Iov 304 4; Iov 308 4].
Definition ex_moves : list move := [Move true 3 300 4; Move true 3 304 1].

Lemma ex_writev_run : exists t' s', returns t' 1 /\ moves s' = ex_moves /\ last_result s' = 1 /\
  steps (@answer) (dfk_tcp_socket_writev 100 300 ex_blocks) ex_kernel t' s'.
Proof.
  eexists. eexists ?[st]. do 3 (split; [shelve|]).
  answers (TcpSocket 64 3). { by split. }
  answers 4. { split; [right; split; discriminate|reflexivity]. }
  answers (TcpSocket 64 3). { by split. }
  answers (-1). { split; [by left|reflexivity]. }
  answers EAGAIN. { reflexivity. }
  answers DFK_IO_OUT. { split; [discriminate|]. eexists. split; [reflexivity|].
    intros p a Ha. exists a. split; [exact Ha|]. split; [reflexivity|by left]. }
  answers 1. { split; [right; split; discriminate|reflexivity]. }
  apply steps_refl.
  Unshelve. all: reflexivity.
Qed.

(** The same for any result of a run that moves these bytes. *)
Lemma tcp_vectored_io_witness :
  (exists t' s', returns t' 1 /\ moves s' = ex_moves /\
    fine (@allowed) (fun r s' => vectored true 3 (fun _ k => k) 0 ex_blocks ex_kernel s' r) t' s') /\
  forall r s', moves s' = ex_moves -> last_result s' = 1 ->
    vectored true 3 (fun _ k => k) 0 ex_blocks ex_kernel s' r -> r = 1.
Proof.
  split.
  - destruct ex_writev_run as (t' & s' & Hret & Hm & _ & Hrun). exists t', s'. split; [exact Hret|]. split; [exact Hm|].
    apply (tcp_vectored_io 100 300 (TcpSocket 64 3) ex_blocks ex_kernel s' t').
    + split_and!; discriminate.
    + repeat (apply Forall_cons; split; [split; [discriminate|split; reflexivity]|]). exact (List.Forall_nil _).
    + reflexivity.
    + exact (perm_nil Z).
    + exact Hrun.
  - intros r s' Hm Hl (w & Hw & Hc & Hr). rewrite Hl in Hr. rewrite Hm in Hc. cbn in Hc, Hr, Hw.
    destruct (w <? 4) eqn:E1; [unfold moved_bytes in Hc; destruct (0 <? w); discriminate|].
    destruct (w - 4 <? 4) eqn:E2; [by destruct Hr as [<- ->]|]. discriminate.
Defined.
