(* ===== verification/HttpConstants.v ===== *)
(** * [http/constants.h], [http/constants.c]: status codes and their texts *)

From S2P Require Import Prelude.
From Stdlib Require Import String.

Inductive dfk_http_status_e :=
| DFK_HTTP_CONTINUE
| DFK_HTTP_SWITCHING_PROTOCOLS
| DFK_HTTP_PROCESSING
| DFK_HTTP_OK
| DFK_HTTP_CREATED
| DFK_HTTP_ACCEPTED
| DFK_HTTP_NON_AUTHORITATIVE_INFORMATION
| DFK_HTTP_NO_CONTENT
| DFK_HTTP_RESET_CONTENT
| DFK_HTTP_PARTIAL_CONTENT
| DFK_HTTP_MULTI_STATUS
| DFK_HTTP_ALREADY_REPORTED
| DFK_HTTP_IM_USED
| DFK_HTTP_MULTIPLE_CHOICES
| DFK_HTTP_MOVED_PERMANENTLY
| DFK_HTTP_FOUND
| DFK_HTTP_SEE_OTHER
| DFK_HTTP_NOT_MODIFIED
| DFK_HTTP_USE_PROXY
| DFK_HTTP_SWITCH_PROXY
| DFK_HTTP_TEMPORARY_REDIRECT
| DFK_HTTP_PERMANENT_REDIRECT
| DFK_HTTP_BAD_REQUEST
| DFK_HTTP_UNAUTHORIZED
| DFK_HTTP_PAYMENT_REQUIRED
| DFK_HTTP_FORBIDDEN
| DFK_HTTP_NOT_FOUND
| DFK_HTTP_METHOD_NOT_ALLOWED
| DFK_HTTP_NOT_ACCEPTABLE
| DFK_HTTP_PROXY_AUTHENTICATION_REQUIRED
| DFK_HTTP_REQUEST_TIMEOUT
| DFK_HTTP_CONFLICT
| DFK_HTTP_GONE
| DFK_HTTP_LENGTH_REQUIRED
| DFK_HTTP_PRECONDITION_FAILED
| DFK_HTTP_PAYLOAD_TOO_LARGE
| DFK_HTTP_URI_TOO_LONG
| DFK_HTTP_UNSUPPORTED_MEDIA_TYPE
| DFK_HTTP_RANGE_NOT_SATISFIABLE
| DFK_HTTP_EXPECTATION_FAILED
| DFK_HTTP_I_AM_A_TEAPOT
| DFK_HTTP_MISDIRECTED_REQUEST
| DFK_HTTP_UNPROCESSABLE_ENTITY
| DFK_HTTP_LOCKED
| DFK_HTTP_FAILED_DEPENDENCY
| DFK_HTTP_UPGRADE_REQUIRED
| DFK_HTTP_PRECONDITION_REQUIRED
| DFK_HTTP_TOO_MANY_REQUESTS
| DFK_HTTP_REQUEST_HEADER_FIELDS_TOO_LARGE
| DFK_HTTP_UNAVAILABLE_FOR_LEGAL_REASONS
| DFK_HTTP_INTERNAL_SERVER_ERROR
| DFK_HTTP_NOT_IMPLEMENTED
| DFK_HTTP_BAD_GATEWAY
| DFK_HTTP_SERVICE_UNAVAILABLE
| DFK_HTTP_GATEWAY_TIMEOUT
| DFK_HTTP_HTTP_VERSION_NOT_SUPPORTED
| DFK_HTTP_VARIANT_ALSO_NEGOTIATES
| DFK_HTTP_INSUFFICIENT_STORAGE
| DFK_HTTP_LOOP_DETECTED
| DFK_HTTP_NOT_EXTENDED
| DFK_HTTP_NETWORK_AUTHENTICATION_REQUIRED.

Definition status_code (s : dfk_http_status_e) : Z :=
  match s with
  | DFK_HTTP_CONTINUE => 100
  | DFK_HTTP_SWITCHING_PROTOCOLS => 101
  | DFK_HTTP_PROCESSING => 102
  | DFK_HTTP_OK => 200
  | DFK_HTTP_CREATED => 201
  | DFK_HTTP_ACCEPTED => 202
  | DFK_HTTP_NON_AUTHORITATIVE_INFORMATION => 203
  | DFK_HTTP_NO_CONTENT => 204
  | DFK_HTTP_RESET_CONTENT => 205
  | DFK_HTTP_PARTIAL_CONTENT => 206
  | DFK_HTTP_MULTI_STATUS => 207
  | DFK_HTTP_ALREADY_REPORTED => 208
  | DFK_HTTP_IM_USED => 226
  | DFK_HTTP_MULTIPLE_CHOICES => 300
  | DFK_HTTP_MOVED_PERMANENTLY => 301
  | DFK_HTTP_FOUND => 302
  | DFK_HTTP_SEE_OTHER => 303
  | DFK_HTTP_NOT_MODIFIED => 304
  | DFK_HTTP_USE_PROXY => 305
  | DFK_HTTP_SWITCH_PROXY => 306
  | DFK_HTTP_TEMPORARY_REDIRECT => 307
  | DFK_HTTP_PERMANENT_REDIRECT => 308
  | DFK_HTTP_BAD_REQUEST => 400
  | DFK_HTTP_UNAUTHORIZED => 401
  | DFK_HTTP_PAYMENT_REQUIRED => 402
  | DFK_HTTP_FORBIDDEN => 403
  | DFK_HTTP_NOT_FOUND => 404
  | DFK_HTTP_METHOD_NOT_ALLOWED => 405
  | DFK_HTTP_NOT_ACCEPTABLE => 406
  | DFK_HTTP_PROXY_AUTHENTICATION_REQUIRED => 407
  | DFK_HTTP_REQUEST_TIMEOUT => 408
  | DFK_HTTP_CONFLICT => 409
  | DFK_HTTP_GONE => 410
  | DFK_HTTP_LENGTH_REQUIRED => 411
  | DFK_HTTP_PRECONDITION_FAILED => 412
  | DFK_HTTP_PAYLOAD_TOO_LARGE => 413
  | DFK_HTTP_URI_TOO_LONG => 414
  | DFK_HTTP_UNSUPPORTED_MEDIA_TYPE => 415
  | DFK_HTTP_RANGE_NOT_SATISFIABLE => 416
  | DFK_HTTP_EXPECTATION_FAILED => 417
  | DFK_HTTP_I_AM_A_TEAPOT => 418
  | DFK_HTTP_MISDIRECTED_REQUEST => 421
  | DFK_HTTP_UNPROCESSABLE_ENTITY => 422
  | DFK_HTTP_LOCKED => 423
  | DFK_HTTP_FAILED_DEPENDENCY => 424
  | DFK_HTTP_UPGRADE_REQUIRED => 426
  | DFK_HTTP_PRECONDITION_REQUIRED => 428
  | DFK_HTTP_TOO_MANY_REQUESTS => 429
  | DFK_HTTP_REQUEST_HEADER_FIELDS_TOO_LARGE => 431
  | DFK_HTTP_UNAVAILABLE_FOR_LEGAL_REASONS => 451
  | DFK_HTTP_INTERNAL_SERVER_ERROR => 500
  | DFK_HTTP_NOT_IMPLEMENTED => 501
  | DFK_HTTP_BAD_GATEWAY => 502
  | DFK_HTTP_SERVICE_UNAVAILABLE => 503
  | DFK_HTTP_GATEWAY_TIMEOUT => 504
  | DFK_HTTP_HTTP_VERSION_NOT_SUPPORTED => 505
  | DFK_HTTP_VARIANT_ALSO_NEGOTIATES => 506
  | DFK_HTTP_INSUFFICIENT_STORAGE => 507
  | DFK_HTTP_LOOP_DETECTED => 508
  | DFK_HTTP_NOT_EXTENDED => 510
  | DFK_HTTP_NETWORK_AUTHENTICATION_REQUIRED => 511
  end.

Open Scope string_scope.

(** The argument is an [int] like any other at run time. *)
Definition dfk_http_reason_phrase (status : Z) : string :=
  if (status =? status_code DFK_HTTP_CONTINUE)%Z then "Continue" else
  if (status =? status_code DFK_HTTP_SWITCHING_PROTOCOLS)%Z then "Switching Protocols" else
  if (status =? status_code DFK_HTTP_PROCESSING)%Z then "Processing" else
  if (status =? status_code DFK_HTTP_OK)%Z then "OK" else
  if (status =? status_code DFK_HTTP_CREATED)%Z then "Created" else
  if (status =? status_code DFK_HTTP_ACCEPTED)%Z then "Accepted" else
  if (status =? status_code DFK_HTTP_NON_AUTHORITATIVE_INFORMATION)%Z then "Non Authoritative information" else
  if (status =? status_code DFK_HTTP_NO_CONTENT)%Z then "No Content" else
  if (status =? status_code DFK_HTTP_RESET_CONTENT)%Z then "Reset Content" else
  if (status =? status_code DFK_HTTP_PARTIAL_CONTENT)%Z then "Partial Content" else
  if (status =? status_code DFK_HTTP_MULTI_STATUS)%Z then "Multi Status" else
  if (status =? status_code DFK_HTTP_ALREADY_REPORTED)%Z then "Already Reported" else
  if (status =? status_code DFK_HTTP_IM_USED)%Z then "IM Used" else
  if (status =? status_code DFK_HTTP_MULTIPLE_CHOICES)%Z then "Multiple Choices" else
  if (status =? status_code DFK_HTTP_MOVED_PERMANENTLY)%Z then "Moved Permanently" else
  if (status =? status_code DFK_HTTP_FOUND)%Z then "Found" else
  if (status =? status_code DFK_HTTP_SEE_OTHER)%Z then "See Other" else
  if (status =? status_code DFK_HTTP_NOT_MODIFIED)%Z then "Not Modified" else
  if (status =? status_code DFK_HTTP_USE_PROXY)%Z then "Use Proxy" else
  if (status =? status_code DFK_HTTP_SWITCH_PROXY)%Z then "Switch Proxy" else
  if (status =? status_code DFK_HTTP_TEMPORARY_REDIRECT)%Z then "Temporary Redirect" else
  if (status =? status_code DFK_HTTP_PERMANENT_REDIRECT)%Z then "Permanent Redirect" else
  if (status =? status_code DFK_HTTP_BAD_REQUEST)%Z then "Bad Request" else
  if (status =? status_code DFK_HTTP_UNAUTHORIZED)%Z then "Unauthorized" else
  if (status =? status_code DFK_HTTP_PAYMENT_REQUIRED)%Z then "Payment Required" else
  if (status =? status_code DFK_HTTP_FORBIDDEN)%Z then "Forbidden" else
  if (status =? status_code DFK_HTTP_NOT_FOUND)%Z then "Not Found" else
  if (status =? status_code DFK_HTTP_METHOD_NOT_ALLOWED)%Z then "Method Not Allowed" else
  if (status =? status_code DFK_HTTP_NOT_ACCEPTABLE)%Z then "Not Acceptable" else
  if (status =? status_code DFK_HTTP_PROXY_AUTHENTICATION_REQUIRED)%Z then "Proxy Authentication Required" else
  if (status =? status_code DFK_HTTP_REQUEST_TIMEOUT)%Z then "Request Timeout" else
  if (status =? status_code DFK_HTTP_CONFLICT)%Z then "Conflict" else
  if (status =? status_code DFK_HTTP_GONE)%Z then "Gone" else
  if (status =? status_code DFK_HTTP_LENGTH_REQUIRED)%Z then "Length Required" else
  if (status =? status_code DFK_HTTP_PRECONDITION_FAILED)%Z then "Precondition Failed" else
  if (status =? status_code DFK_HTTP_PAYLOAD_TOO_LARGE)%Z then "Payload Too Large" else
  if (status =? status_code DFK_HTTP_URI_TOO_LONG)%Z then "Uri Too Long" else
  if (status =? status_code DFK_HTTP_UNSUPPORTED_MEDIA_TYPE)%Z then "Unsupported Media Type" else
  if (status =? status_code DFK_HTTP_RANGE_NOT_SATISFIABLE)%Z then "Range Not Satisfiable" else
  if (status =? status_code DFK_HTTP_EXPECTATION_FAILED)%Z then "Expectation Failed" else
  if (status =? status_code DFK_HTTP_I_AM_A_TEAPOT)%Z then "I'm a teapot" else
  if (status =? status_code DFK_HTTP_MISDIRECTED_REQUEST)%Z then "Misdirected Request" else
  if (status =? status_code DFK_HTTP_UNPROCESSABLE_ENTITY)%Z then "Unprocessable Entity" else
  if (status =? status_code DFK_HTTP_LOCKED)%Z then "Locked" else
  if (status =? status_code DFK_HTTP_FAILED_DEPENDENCY)%Z then "Failed Dependency" else
  if (status =? status_code DFK_HTTP_UPGRADE_REQUIRED)%Z then "Upgrade Required" else
  if (status =? status_code DFK_HTTP_PRECONDITION_REQUIRED)%Z then "Precondition Required" else
  if (status =? status_code DFK_HTTP_TOO_MANY_REQUESTS)%Z then "Too Many Requests" else
  if (status =? status_code DFK_HTTP_REQUEST_HEADER_FIELDS_TOO_LARGE)%Z then "Request Header Fields Too Large" else
  if (status =? status_code DFK_HTTP_UNAVAILABLE_FOR_LEGAL_REASONS)%Z then "Unavailable For Legal Reasons" else
  if (status =? status_code DFK_HTTP_INTERNAL_SERVER_ERROR)%Z then "Internal Server Error" else
  if (status =? status_code DFK_HTTP_NOT_IMPLEMENTED)%Z then "Not Implemented" else
  if (status =? status_code DFK_HTTP_BAD_GATEWAY)%Z then "Bad Gateway" else
  if (status =? status_code DFK_HTTP_SERVICE_UNAVAILABLE)%Z then "Service Unavailable" else
  if (status =? status_code DFK_HTTP_GATEWAY_TIMEOUT)%Z then "Gateway Timeout" else
  if (status =? status_code DFK_HTTP_HTTP_VERSION_NOT_SUPPORTED)%Z then "HTTP Version Not Supported" else
  if (status =? status_code DFK_HTTP_VARIANT_ALSO_NEGOTIATES)%Z then "Variant Also Negotiates" else
  if (status =? status_code DFK_HTTP_INSUFFICIENT_STORAGE)%Z then "Insufficient Storage" else
  if (status =? status_code DFK_HTTP_LOOP_DETECTED)%Z then "Loop Detected" else
  if (status =? status_code DFK_HTTP_NOT_EXTENDED)%Z then "Not Extended" else
  if (status =? status_code DFK_HTTP_NETWORK_AUTHENTICATION_REQUIRED)%Z then "Network Authentication Required" else
  "Unknown".
