(* ===== verification/HttpData.v ===== *)
(** * The memory of the HTTP server

    Requests and responses live on top of string maps and arenas.  Their
    headers are the maps at a fixed distance from the object.  Sockets are
    reached through [dfk__mocked_read] and its like: a sponge in the tests, a
    TCP socket otherwise, whose interaction tree is then run against the
    environment [handle] (the kernel and the runtime). *)

From S2P Require Import Prelude ListSpec Bytes Arena Avl Misc StrMap Sponge Interact Socket.
From ITree Require Import ITreeDefinition.
From coqutil Require Export Datatypes.RecordSetters.
Export DoubleBraceUpdate.
#[global] Arguments constant {E} newValue _ /.
From Stdlib Require Import String Ascii.

(** The bytes of a string literal, without the NUL that ends it. *)
Definition text (s : string) : list Z := (fun c => Z.of_N (N_of_ascii c)) <$> list_ascii_of_string s.

(** The line end of HTTP. *)
Definition CRLF : string := String "013"%char (String "010"%char EmptyString).

Record dfk_http_t := Http {
  http_dfk : Z; keepalive_requests : Z; header_max_size : Z; headers_buffer_size : Z; headers_buffer_count : Z
}.

(** The parser of a request is kept in [h_parsers], at the same address. *)
Record dfk_http_request_t := Request {
  rq_http : Z; major_version : Z; minor_version : Z; method : Z;
  url : dfk_buf_t; path : dfk_buf_t; query : dfk_buf_t; fragment : dfk_buf_t;
  host : dfk_buf_t; user_agent : dfk_buf_t; accept : dfk_buf_t; content_type : dfk_buf_t;
  content_length : Z; keepalive : bool; chunked : bool;
  _connection_arena : Z; _request_arena : Z; rq_socket : Z;
  _remainder : dfk_buf_t; _body_nread : Z; _socket_mocked : bool; _socket_mock : Z
}.

Record dfk_http_response_t := Response {
  rs_http : Z; rs_major_version : Z; rs_minor_version : Z; status : Z;
  rs_content_length : Z; rs_chunked : bool; rs_keepalive : bool;
  rs_connection_arena : Z; rs_request_arena : Z; rs_socket : Z;
  rs_socket_mocked : bool; rs_socket_mock : Z; _headers_flushed : Z
}.

(** What the callbacks of the parser are given. *)
Record dfk_header_parser_data_t := HeaderData {
  hp_req : Z; cheader_field : dfk_buf_t; cheader_value : dfk_buf_t; hp_errno : Z
}.
Record dfk_body_parser_data_t := BodyData { bp_req : Z; outbuf : dfk_buf_t; bp_errno : Z }.

(** Addresses of the members that are objects themselves. *)
Definition headers (req : Z) : Z := req + 176.
Definition arguments (req : Z) : Z := req + 192.
Definition _buffers (req : Z) : Z := req + 232.
Definition rs_headers (resp : Z) : Z := resp + 40.

(** A [buflist_item_t] is at the address of its hook. *)
Definition BUFLIST_ITEM_T : Z := 32.

(** [W]: what the environment knows. *)
Record hmem (Mem P W : Type) := HMem {
  h_str : strmem Mem;
  h_sponges : gmap Z dfk__sponge_t;
  h_https : gmap Z dfk_http_t;
  h_reqs : gmap Z dfk_http_request_t;
  h_resps : gmap Z dfk_http_response_t;
  h_bufitems : gmap Z dfk_buf_t;
  h_hdata : gmap Z dfk_header_parser_data_t;
  h_bdata : gmap Z dfk_body_parser_data_t;
  h_iovs : gmap Z dfk_iovec_t;
  h_parsers : gmap Z P;
  h_errno : Z;
  h_world : W
}.
Arguments HMem {Mem P W}.
Arguments h_str {Mem P W}.
Arguments h_sponges {Mem P W}.
Arguments h_https {Mem P W}.
Arguments h_reqs {Mem P W}.
Arguments h_resps {Mem P W}.
Arguments h_bufitems {Mem P W}.
Arguments h_hdata {Mem P W}.
Arguments h_bdata {Mem P W}.
Arguments h_iovs {Mem P W}.
Arguments h_parsers {Mem P W}.
Arguments h_errno {Mem P W}.
Arguments h_world {Mem P W}.

Section lenses.
Context {Mem P W : Type}.
#[local] Notation hm := (hmem Mem P W).

Definition hstr : lens hm (strmem Mem) := Lens h_str (fun v m => m{{h_str := v}}).
Definition hbytes : lens hm bmem := Lens (fun m => sm_bytes (h_str m)) (fun b m => m{{h_str := lset sbytes b (h_str m)}}).
Definition harena : lens hm (armem Mem) :=
  Lens (fun m => sm_arena (h_str m)) (fun a m => m{{h_str := lset sarena a (h_str m)}}).
Definition hlists : lens hm Mem :=
  Lens (fun m => ar_lists (sm_arena (h_str m)))
       (fun l m => m{{h_str := lset sarena (lset alists l (sm_arena (h_str m))) (h_str m)}}).
(** Sponges share the bytes with everything else. *)
Definition hsponge : lens hm smem :=
  Lens (fun m => SMem (h_sponges m) (sm_bytes (h_str m)))
       (fun s m => m{{h_sponges := sponges s; h_str := lset sbytes (smem_bytes s) (h_str m)}}).
Definition https_of : heap_of hm dfk_http_t := Heap h_https (fun h m => m{{h_https := h}}).
Definition reqs_of : heap_of hm dfk_http_request_t := Heap h_reqs (fun h m => m{{h_reqs := h}}).
Definition resps_of : heap_of hm dfk_http_response_t := Heap h_resps (fun h m => m{{h_resps := h}}).
Definition bufitems_of : heap_of hm dfk_buf_t := Heap h_bufitems (fun h m => m{{h_bufitems := h}}).
Definition hdata_of : heap_of hm dfk_header_parser_data_t := Heap h_hdata (fun h m => m{{h_hdata := h}}).
Definition bdata_of : heap_of hm dfk_body_parser_data_t := Heap h_bdata (fun h m => m{{h_bdata := h}}).
Definition iovs_of : heap_of hm dfk_iovec_t := Heap h_iovs (fun h m => m{{h_iovs := h}}).
Definition parsers_of : heap_of hm P := Heap h_parsers (fun h m => m{{h_parsers := h}}).

(** [dfk->dfk_errno] *)
Definition set_dfk_errno (e : Z) : M hm unit := modify (fun m => m{{h_errno := e}}).

End lenses.
