(* ===== verification/HttpRequest.v ===== *)
(** * [http/request.c]: requests

    [http_parser] is third-party code: a parser is a state and what it does
    with a piece of input, as a tree of the bytes it looks at and the
    callbacks it makes.  A callback returns its result and whether it paused
    the parser. *)

From S2P Require Import HttpData Prelude ListSpec Bytes Arena Avl Error Misc UrlEncoding StrMap Sponge Interact Socket.
From Stdlib Require Import String.

Open Scope Z_scope.

(** The outcomes of [http_parser_execute] that the code tells apart. *)
Inductive http_errno := HPE_OK | HPE_CB | HPE_PAUSED | HPE_OTHER.

#[export] Instance http_errno_dec : EqDecision http_errno.
Proof. solve_decision. Defined.

Inductive parser_event :=
| OnMessageBegin
| OnUrl (at_ size : Z)
| OnHeaderField (at_ size : Z)
| OnHeaderValue (at_ size : Z)
| OnHeadersComplete
| OnBody (at_ size : Z)
| OnMessageComplete
| OnChunkHeader
| OnChunkComplete.

Inductive parse (P : Type) : Type :=
| Parsed (p : P) (nparsed : Z) (err : http_errno)
| LooksAt (addr : Z) (k : Z -> parse P)
| CallsBack (e : parser_event) (k : Z -> bool -> parse P).
Arguments Parsed {P}.
Arguments LooksAt {P}.
Arguments CallsBack {P}.

(** The interface of the library. *)
Record http_parser (P : Type) := HttpParser {
  http_parser_init : P;
  http_parser_execute : P -> Z -> Z -> parse P;
  http_parser_unpause : P -> P;
  http_major : P -> Z;
  http_minor : P -> Z;
  parser_method : P -> Z;
  http_should_keep_alive : P -> bool;
  f_chunked : P -> bool;
  (** Offset and length of path, query and fragment. *)
  http_parser_parse_url : list Z -> option (option (Z * Z) * option (Z * Z) * option (Z * Z))
}.
Arguments http_parser_init {P}.
Arguments http_parser_execute {P}.
Arguments http_parser_unpause {P}.
Arguments http_major {P}.
Arguments http_minor {P}.
Arguments parser_method {P}.
Arguments http_should_keep_alive {P}.
Arguments f_chunked {P}.
Arguments http_parser_parse_url {P}.

Section request.
Context {Mem It P W : Type} `{!ListOps Mem It}.
#[local] Notation hm := (hmem Mem P W).
Context (malloc : bmem -> Z -> Z) (lib : http_parser P).
Context (handle : forall X, netE X -> M hm X).
(** Addresses of string literals and of local variables; the configured
    maximal size of a header; the bound of loops. *)
Context (literal : string -> Z) (v_pdata v_bdata : Z) (HEADER_MAX_SIZE : Z) (fuel : nat).

Definition dfk__mocked_read (req buf toread : Z) : M hm Z :=
  r ← deref reqs_of req;
  if _socket_mocked r then zoom hsponge (dfk__sponge_read (_socket_mock r) buf toread)
  else interact handle fuel (dfk_tcp_socket_read (rq_socket r) buf toread).

(** The second component is [*outbuf]. *)
Definition dfk__http_request_allocate_headers_buf (req : Z) : M hm (Z * dfk_buf_t) :=
  c_assert (nonnull req);;
  r ← deref reqs_of req;
  http ← deref https_of (rq_http r);
  buf ← zoom hbytes (dfk__malloc malloc (headers_buffer_size http));
  if isnull buf then mret (err_code dfk_err_nomem, Buf 0 0) else
  let outbuf := Buf buf (headers_buffer_size http) in
  item ← zoom harena (dfk_arena_alloc malloc (_request_arena r) BUFLIST_ITEM_T);
  if isnull item then
    zoom hbytes (dfk__free buf);;
    mret (err_code dfk_err_nomem, outbuf)
  else
    store bufitems_of item outbuf;;
    zoom hlists (hook_init item);;
    zoom hlists (list_append (_buffers req) item);;
    mret (err_code dfk_err_ok, outbuf).

Definition no_buf : dfk_buf_t := Buf 0 0.

Definition dfk__http_request_init (req http request_arena connection_arena sock : Z) : M hm unit :=
  c_assert (nonnull req);;
  c_assert (nonnull request_arena);;
  c_assert (nonnull connection_arena);;
  c_assert (nonnull sock);;
  zoom hlists (list_init (_buffers req));;
  zoom hstr (dfk_strmap_init (headers req));;
  zoom hstr (dfk_strmap_init (arguments req));;
  store reqs_of req (Request http 0 0 0 no_buf no_buf no_buf no_buf no_buf no_buf no_buf no_buf
    (-1) false false connection_arena request_arena sock no_buf 0 false 0).

(** The items themselves are in the request arena. *)
Definition free_buffers_body (end_ : It) (it : It) : M hm (It + unit) :=
  stop ← zoom hlists (list_it_equal it end_);
  if stop : bool then mret (inr tt) else
  b ← deref bufitems_of (it_value it);
  zoom hbytes (dfk__free (b_data b));;
  it' ← zoom hlists (list_it_next it);
  mret (inl it').

Definition dfk__http_request_free (req : Z) : M hm unit :=
  it ← zoom hlists (list_begin (_buffers req));
  end_ ← zoom hlists (list_end (_buffers req));
  loop fuel (free_buffers_body end_) it.

(** ** Callbacks of the parser; [p] is [parser->data] *)

Definition set_hdata_errno (p : Z) (e : dfk_error_e) : M hm unit :=
  update hdata_of p (fun d => d{{hp_errno := err_code e}}).

Definition dfk_http_request_on_url (p at_ size : Z) : M hm Z :=
  d ← deref hdata_of p;
  r ← deref reqs_of (hp_req d);
  u ← dfk_buf_append (url r) at_ size;
  update reqs_of (hp_req d) (fun r => r{{url := u}});;
  if HEADER_MAX_SIZE <? b_size u then set_hdata_errno p dfk_err_overflow;; mret 1 else mret 0.

Definition dfk__http_request_flush_header (p : Z) : M hm Z :=
  c_assert (nonnull p);;
  d ← deref hdata_of p;
  r ← deref reqs_of (hp_req d);
  item ← zoom harena (dfk_arena_alloc malloc (_request_arena r) ITEM_T);
  if isnull item then set_hdata_errno p dfk_err_nomem;; mret 1 else
  zoom hstr (dfk_strmap_item_init item (b_data (cheader_field d)) (b_size (cheader_field d))
    (b_data (cheader_value d)) (b_size (cheader_value d)));;
  zoom hstr (dfk_strmap_insert (headers (hp_req d)) item);;
  mret 0.

Definition too_large (p size : Z) : M hm Z :=
  if HEADER_MAX_SIZE <? size then set_hdata_errno p dfk_err_overflow;; mret 1 else mret 0.

Definition dfk_http_request_on_header_field (p at_ size : Z) : M hm Z :=
  d ← deref hdata_of p;
  if nonnull (b_data (cheader_value d)) then
    failed ← dfk__http_request_flush_header p;
    if negb (failed =? 0) then mret 1 else
    update hdata_of p (fun d =>
      d{{cheader_value := Buf 0 (b_size (cheader_value d)); cheader_field := Buf at_ size}});;
    too_large p size
  else
    f ← dfk_cbuf_append (cheader_field d) at_ size;
    update hdata_of p (fun d => d{{cheader_field := f}});;
    too_large p (b_size f).

Definition dfk_http_request_on_header_value (p at_ size : Z) : M hm Z :=
  d ← deref hdata_of p;
  v ← (if isnull (b_data (cheader_value d)) then mret (Buf at_ size)
       else dfk_cbuf_append (cheader_value d) at_ size);
  update hdata_of p (fun d => d{{cheader_value := v}});;
  too_large p (b_size v).

(** The result of the flush is ignored; the parser is paused. *)
Definition dfk_http_request_on_headers_complete (p : Z) : M hm (Z * bool) :=
  d ← deref hdata_of p;
  when (nonnull (b_data (cheader_field d)))
    (c_assert (nonnull (b_data (cheader_value d)));;
     dfk__http_request_flush_header p;;
     mret tt);;
  mret (0, true).

Definition dfk_http_request_on_body (p at_ size : Z) : M hm Z :=
  d ← deref bdata_of p;
  zoom hbytes (memmove (b_data (outbuf d)) at_ size);;
  c_assert (size <=? b_size (outbuf d));;
  update bdata_of p (fun d =>
    d{{outbuf := Buf (b_data (outbuf d) + size) (to_size (b_size (outbuf d) - size))}});;
  update reqs_of (bp_req d) (fun r => r{{_body_nread := to_size (_body_nread r + size)}});;
  mret 0.

(** [dfk_parser_settings], with the pointer the parser was given. *)
Definition callback (p : Z) (e : parser_event) : M hm (Z * bool) :=
  match e with
  | OnUrl at_ size => r ← dfk_http_request_on_url p at_ size; mret (r, false)
  | OnHeaderField at_ size => r ← dfk_http_request_on_header_field p at_ size; mret (r, false)
  | OnHeaderValue at_ size => r ← dfk_http_request_on_header_value p at_ size; mret (r, false)
  | OnHeadersComplete => dfk_http_request_on_headers_complete p
  | OnBody at_ size => r ← dfk_http_request_on_body p at_ size; mret (r, false)
  | OnMessageComplete => mret (0, true)
  | OnMessageBegin | OnChunkHeader | OnChunkComplete => mret (0, false)
  end.

Fixpoint run_parse (p : Z) (t : parse P) : M hm (P * Z * http_errno) :=
  match t with
  | Parsed s n e => mret (s, n, e)
  | LooksAt a k => b ← zoom hbytes (load a); run_parse p (k b)
  | CallsBack e k => r ← callback p e; run_parse p (k r.1 r.2)
  end.

(** [http_parser_execute] on the parser of [req] *)
Definition execute (req p data len : Z) : M hm (Z * http_errno) :=
  s ← deref parsers_of req;
  r ← run_parse p (http_parser_execute lib s data len);
  store parsers_of req r.1.1;;
  mret (r.1.2, r.2).

(** ** Arguments *)

Definition dfk_http_request_add_argument (req key_begin key_end value_begin value_end : Z) : M hm Z :=
  c_assert (key_begin <=? key_end);;
  c_assert (value_begin <=? value_end);;
  r ← deref reqs_of req;
  item ← zoom harena (dfk_arena_alloc malloc (_request_arena r) ITEM_T);
  if isnull item then mret (err_code dfk_err_nomem) else
  zoom hstr (dfk_strmap_item_init item key_begin (key_end - key_begin) value_begin (value_end - value_begin));;
  zoom hstr (dfk_strmap_insert (arguments req) item);;
  mret (err_code dfk_err_ok).

(** The variables of the loop over the decoded query. *)
Record query_vars := QueryVars { state : Z; key_begin : Z; key_end : Z; value_begin : Z; qi : Z }.

(** One turn: the loop goes on, ends, or the function returns an error. *)
Definition query_body (req end_ : Z) (v : query_vars) : M hm (query_vars + (query_vars + Z)) :=
  if qi v =? end_ then mret (inr (inl v)) else
  let next v := v{{qi := qi v + 1}} in
  if state v =? 0 then mret (inl (next v{{key_begin := qi v; state := 1}}))
  else if state v =? 1 then
    c ← zoom hbytes (load (qi v));
    mret (inl (next (if c =? 61 then v{{key_end := qi v; state := 2}} else v)))
  else if state v =? 2 then mret (inl (next v{{value_begin := qi v; state := 3}}))
  else if state v =? 3 then
    c ← zoom hbytes (load (qi v));
    if c =? 38 then
      err ← dfk_http_request_add_argument req (key_begin v) (key_end v) (value_begin v) (qi v);
      if negb (err =? err_code dfk_err_ok) then mret (inr (inr err))
      else mret (inl (next v{{key_begin := 0; state := 0}}))
    else mret (inl (next v))
  else fail AssertFailed.

Definition parse_arguments (req decoded_query decoded_query_size : Z) : M hm Z :=
  let end_ := decoded_query + decoded_query_size in
  r ← loop fuel (query_body req end_) (QueryVars 0 0 0 0 decoded_query);
  match r with
  | inr err => mret err
  | inl v =>
      if negb (state v =? 0) && negb (state v =? 3) then mret (err_code dfk_err_protocol)
      else if state v =? 3 then
        err ← dfk_http_request_add_argument req (key_begin v) (key_end v) (value_begin v) end_;
        if negb (err =? err_code dfk_err_ok) then mret err else mret (err_code dfk_err_ok)
      else mret (err_code dfk_err_ok)
  end.

Definition parse_query (req : Z) : M hm Z :=
  r ← deref reqs_of req;
  if b_size (query r) =? 0 then mret (err_code dfk_err_ok) else
  decoded_query ← zoom harena (dfk_arena_alloc malloc (_request_arena r) (b_size (query r)));
  if isnull decoded_query then mret (err_code dfk_err_nomem) else
  d ← zoom hbytes (dfk_urldecode (b_data (query r)) (b_size (query r)) decoded_query);
  if negb (d.1 =? b_size (query r)) then mret (err_code dfk_err_protocol) else
  parse_arguments req decoded_query d.2.

(** ** Headers *)

(** One turn of [while (1)]: the next buffer, or the end of the loop, by
    [break] or with an error. *)
Definition read_headers_body (req : Z) (curbuf : dfk_buf_t) : M hm (dfk_buf_t + option Z) :=
  c_assert (HEADER_MAX_SIZE <=? b_size curbuf);;
  nread ← dfk__mocked_read req (b_data curbuf) (b_size curbuf);
  if nread <=? 0 then mret (inr (Some (err_code dfk_err_eof))) else
  x ← execute req v_pdata (b_data curbuf) (b_size curbuf);
  let '(nparsed, e) := x in
  c_assert (nparsed <=? nread);;
  if decide (e = HPE_PAUSED) then
    update reqs_of req (fun r => r{{_remainder := Buf (b_data curbuf + nparsed) (to_size (nread - nparsed))}});;
    update parsers_of req (http_parser_unpause lib);;
    mret (inr None)
  else if decide (e = HPE_CB) then
    d ← deref hdata_of v_pdata;
    mret (inr (Some (hp_errno d)))
  else if decide (e <> HPE_OK) then mret (inr (Some (err_code dfk_err_protocol)))
  else
    d ← deref hdata_of v_pdata;
    if nonnull (b_data (cheader_field d)) &&
       (b_data curbuf + b_size curbuf - b_data (cheader_field d) <? HEADER_MAX_SIZE) then
      r ← deref reqs_of req;
      http ← deref https_of (rq_http r);
      n ← zoom hlists (list_size (_buffers req));
      if n =? headers_buffer_count http then mret (inr (Some (err_code dfk_err_overflow))) else
      a ← dfk__http_request_allocate_headers_buf req;
      if negb (a.1 =? err_code dfk_err_ok) then mret (inr (Some a.1)) else
      let curbuf := a.2 in
      zoom hbytes (memcpy (b_data curbuf) (b_data (cheader_field d)) nparsed);;
      when (nonnull (b_data (cheader_value d)))
        (update hdata_of v_pdata (fun d => d{{cheader_value :=
           Buf (b_data curbuf + (b_data (cheader_value d) - b_data (cheader_field d)))
               (b_size (cheader_value d))}}));;
      update hdata_of v_pdata (fun d => d{{cheader_field := Buf (b_data curbuf) (b_size (cheader_field d))}});;
      mret (inl (Buf (b_data curbuf + nparsed) (to_size (b_size curbuf - nparsed))))
    else mret (inl (Buf (b_data curbuf + nparsed) (to_size (b_size curbuf - nparsed)))).

(** A header by its name, a literal. *)
Definition get_header (req : Z) (name : string) : M hm dfk_buf_t :=
  zoom hstr (dfk_strmap_get (headers req) (literal name) (Z.of_nat (String.length name))).

Definition populate_headers (req : Z) : M hm unit :=
  p ← deref parsers_of req;
  update reqs_of req (fun r => r{{major_version := http_major lib p; minor_version := http_minor lib p;
    method := parser_method lib p}});;
  b ← get_header req "User-Agent"; update reqs_of req (fun r => r{{user_agent := b}});;
  b ← get_header req "Host"; update reqs_of req (fun r => r{{host := b}});;
  b ← get_header req "Accept"; update reqs_of req (fun r => r{{accept := b}});;
  b ← get_header req "Content-Type"; update reqs_of req (fun r => r{{content_type := b}});;
  cl ← get_header req "Content-Length";
  when (negb (b_size cl =? 0))
    (v ← zoom hbytes (dfk_strtoll cl 10);
     match v with
     | (_, Some (_, intval)) => update reqs_of req (fun r => r{{content_length := intval}})
     | (_, None) => mret tt
     end);;
  update reqs_of req (fun r => r{{keepalive := http_should_keep_alive lib p; chunked := f_chunked lib p}});;
  update reqs_of req (fun r =>
    if (content_length r =? -1) && negb (chunked r) then r{{content_length := 0}} else r).

(** [fields\[i\]->data = ..] *)
Definition url_field (u : dfk_buf_t) (f : option (Z * Z)) (old : dfk_buf_t) : dfk_buf_t :=
  match f with Some (off, len) => Buf (b_data u + off) len | None => old end.

Definition dfk__http_request_read_headers (req : Z) : M hm Z :=
  c_assert (nonnull req);;
  r ← deref reqs_of req;
  c_assert (nonnull (rq_http r));;
  store hdata_of v_pdata (HeaderData req no_buf no_buf (err_code dfk_err_ok));;
  store parsers_of req (http_parser_init lib);;
  a ← dfk__http_request_allocate_headers_buf req;
  if negb (a.1 =? err_code dfk_err_ok) then mret a.1 else
  e ← loop fuel (read_headers_body req) a.2;
  match e with
  | Some err => mret err
  | None =>
      populate_headers req;;
      r ← deref reqs_of req;
      u ← zoom hbytes (read_bytes (b_data (url r)) (Z.to_nat (b_size (url r))));
      match http_parser_parse_url lib u with
      | None => mret (err_code dfk_err_protocol)
      | Some (fpath, fquery, ffragment) =>
          update reqs_of req (fun r => r{{path := url_field (url r) fpath (path r);
            query := url_field (url r) fquery (query r);
            fragment := url_field (url r) ffragment (fragment r)}});;
          parse_query req
      end
  end.

(** ** The body *)

(** The variables of the loop: what is left of the caller's buffer. *)
Definition read_body (req buf_ : Z) (v : dfk_buf_t) : M hm (dfk_buf_t + Z) :=
  r ← deref reqs_of req;
  d ← deref bdata_of v_bdata;
  let '(Buf buf size) := v in
  if negb (negb (size =? 0) && ((b_data (outbuf d) =? buf_) || negb (b_size (_remainder r) =? 0)))
  then mret (inr (b_data (outbuf d) - buf_)) else
  let toread := Z.min size (to_size (content_length r - _body_nread r)) in
  inbuf ←
    (if negb (b_size (_remainder r) =? 0)
     then mret (inl (Buf (b_data (_remainder r)) (Z.min toread (b_size (_remainder r)))))
     else
       nread ← dfk__mocked_read req buf toread;
       let nread := to_size nread in
       mret (if nread <=? 0 then inr nread else inl (Buf buf nread)));
  match inbuf with
  | inr n => mret (inr n)
  | inl inbuf =>
      c_assert (nonnull (b_data inbuf));;
      c_assert (0 <? b_size inbuf);;
      x ← execute req v_bdata (b_data inbuf) (b_size inbuf);
      let '(nparsed, e) := x in
      if decide (e <> HPE_PAUSED /\ e <> HPE_OK) then mret (inr (err_code dfk_err_protocol)) else
      c_assert (nparsed <=? b_size inbuf);;
      update reqs_of req (fun r =>
        if negb (b_size (_remainder r) =? 0) then
          r{{_remainder := Buf (b_data (_remainder r) + nparsed) (to_size (b_size (_remainder r) - nparsed))}}
        else r);;
      d ← deref bdata_of v_bdata;
      mret (inl (outbuf d))
  end.

Definition dfk_http_request_read (req buf size : Z) : M hm Z :=
  if isnull req then mret (-1) else
  r ← deref reqs_of req;
  http ← deref https_of (rq_http r);
  if isnull buf && negb (size =? 0) then set_dfk_errno (err_code dfk_err_badarg);; mret (-1) else
  if (content_length r =? 0) && negb (chunked r) then set_dfk_errno (err_code dfk_err_eof);; mret (-1) else
  store bdata_of v_bdata (BodyData req (Buf buf size) (err_code dfk_err_ok));;
  loop fuel (read_body req buf) (Buf buf size).

Definition dfk_http_request_readv (req iov niov : Z) : M hm Z :=
  if isnull req || (isnull iov && negb (niov =? 0)) then mret (err_code dfk_err_badarg) else
  v ← deref iovs_of iov;
  dfk_http_request_read req (Sponge.iov_data v) (Sponge.iov_size v).

End request.
