(* ===== verification/HttpResponse.v ===== *)
(** * [http/response.c]: responses

    A response is mocked by a sponge in the tests; otherwise it is written to a
    TCP socket.  The block of an array of [dfk_iovec_t] is in the arena, its
    elements are typed objects. *)

From S2P Require Import HttpData Prelude ListSpec Bytes Arena Avl Error Misc StrMap Sponge Interact Socket HttpConstants.
From Stdlib Require Import String.

Open Scope Z_scope.

(** ** C's [snprintf] for the formats of this file *)

Fixpoint digits (fuel : nat) (n : Z) (acc : list Z) : list Z :=
  match fuel with
  | O => acc
  | S f => if n <? 10 then 48 + n :: acc else digits f (n / 10) (48 + n mod 10 :: acc)
  end.

(** [%d] and [%llu]: at most twenty digits *)
Definition decimal (n : Z) : list Z :=
  if n <? 0 then 45 :: digits 20 (- n) [] else digits 20 n [].

(** A field of width [w] *)
Definition padded (w : nat) (s : list Z) : list Z := replicate (w - Datatypes.length s) 32 ++ s.

(** The characters that fit, a NUL, and the length of the whole text. *)
Definition snprintf (p n : Z) (s : list Z) : M bmem Z :=
  write_bytes p (take (Z.to_nat n - 1) s ++ [0]);;
  mret (Z.of_nat (Datatypes.length s)).

Definition status_line (major minor status : Z) : list Z :=
  text "HTTP/" ++ decimal major ++ text "." ++ decimal minor ++ text " " ++ padded 3 (decimal status)
  ++ text " " ++ text (dfk_http_reason_phrase status) ++ [13; 10].

(** ** The functions *)

Section response.
Context {Mem It P W : Type} `{!ListOps Mem It}.
#[local] Notation hm := (hmem Mem P W).
Context (malloc : bmem -> Z -> Z).
Context (handle : forall X, netE X -> M hm X).
(** Addresses of string literals; of local variables. *)
Context (literal : string -> Z) (v_buf v_sbuf v_iov : Z) (fuel : nat).

(** [sizeof(dfk_iovec_t)], and [iov\[0\]] to [iov\[niov - 1\]] *)
Definition IOVEC_T : Z := 16.

Fixpoint read_iovs (iov : Z) (niov : nat) : M hm (list dfk_iovec_t) :=
  match niov with
  | O => mret []
  | S n => v ← deref iovs_of iov; vs ← read_iovs (iov + IOVEC_T) n; mret (v :: vs)
  end.

Definition dfk__mocked_write (resp buf nbytes : Z) : M hm Z :=
  r ← deref resps_of resp;
  if rs_socket_mocked r then zoom hsponge (dfk__sponge_write malloc (rs_socket_mock r) buf nbytes)
  else interact handle fuel (dfk_tcp_socket_write (rs_socket r) buf nbytes).

Definition dfk__mocked_writev (resp iov niov : Z) : M hm Z :=
  r ← deref resps_of resp;
  vs ← read_iovs iov (Z.to_nat niov);
  if rs_socket_mocked r then zoom hsponge (dfk__sponge_writev malloc (rs_socket_mock r) vs)
  else interact handle fuel (dfk_tcp_socket_writev (rs_socket r) iov
         ((fun v => Iov (Sponge.iov_data v) (Sponge.iov_size v)) <$> vs)).

Definition dfk__http_response_init (resp req request_arena connection_arena sock keepalive_ : Z) : M hm unit :=
  c_assert (nonnull resp);;
  c_assert (nonnull req);;
  c_assert (nonnull request_arena);;
  c_assert (nonnull connection_arena);;
  c_assert (nonnull sock);;
  zoom hstr (dfk_strmap_init (rs_headers resp));;
  r ← deref reqs_of req;
  store resps_of resp (Response (rq_http r) (major_version r) (minor_version r) (status_code DFK_HTTP_OK)
    (to_size (-1)) false (negb (keepalive_ =? 0)) connection_arena request_arena sock false 0 0).

(** Sets "Content-Length" unless it was set; a failed allocation is passed on
    to [dfk_strmap_insert]. *)
Definition flush_content_length (resp : Z) : M hm unit :=
  r ← deref resps_of resp;
  when (negb (rs_content_length r =? to_size (-1)))
    (let name := "Content-Length"%string in
     let len := Z.of_nat (String.length name) in
     content_length ← zoom hstr (dfk_strmap_get (rs_headers resp) (literal name) len);
     when (isnull (b_data content_length))
       (zoom hbytes (write_bytes v_buf (replicate 64 0));;
        n ← zoom hbytes (snprintf v_buf 64 (decimal (rs_content_length r)));
        cl ← zoom hstr (dfk_strmap_item_acopy_value malloc (rs_request_arena r) (literal name) len v_buf n);
        zoom hstr (dfk_strmap_insert (rs_headers resp) cl))).

(** The loop that fills [iov]: the iterator and [i]; [inr] is the final [i]. *)
Definition fill_iov_body (iov niov end_ : Z) (st : Z * Z) : M hm ((Z * Z) + Z) :=
  let '(it, i) := st in
  stop ← zoom hstr (dfk_strmap_it_equal it end_);
  if stop || (niov <=? i) then mret (inr i) else
  item ← zoom hstr (deref items_of it);
  store iovs_of (iov + IOVEC_T * i) (Iovec (b_data (key item)) (b_size (key item)));;
  store iovs_of (iov + IOVEC_T * (i + 1)) (Iovec (literal ": ") 2);;
  store iovs_of (iov + IOVEC_T * (i + 2)) (Iovec (b_data (value item)) (b_size (value item)));;
  store iovs_of (iov + IOVEC_T * (i + 3)) (Iovec (literal CRLF) 2);;
  it' ← zoom hstr (dfk_strmap_it_next it);
  mret (inl (it', i + 4)).

Definition dfk__http_response_flush_headers (resp : Z) : M hm Z :=
  c_assert (nonnull resp);;
  r ← deref resps_of resp;
  if negb (_headers_flushed r =? 0) then mret (err_code dfk_err_ok) else
  flush_content_length resp;;
  totalheaders ← zoom hstr (dfk_strmap_size (rs_headers resp));
  let niov := to_size (4 * totalheaders + 2) in
  iov ← zoom harena (dfk_arena_alloc malloc (rs_request_arena r) (to_size (niov * IOVEC_T)));
  when (isnull iov)
    (update resps_of resp (fun r => r{{status := status_code DFK_HTTP_INTERNAL_SERVER_ERROR}}));;
  zoom hbytes (write_bytes v_sbuf (replicate 128 0));;
  r ← deref resps_of resp;
  ssize ← zoom hbytes (snprintf v_sbuf 128 (status_line (rs_major_version r) (rs_minor_version r) (status r)));
  (if isnull iov then dfk__mocked_write resp v_sbuf ssize;; mret tt
   else
     store iovs_of iov (Iovec v_sbuf ssize);;
     it ← zoom hstr (dfk_strmap_begin (rs_headers resp));
     end_ ← zoom hstr (dfk_strmap_end (rs_headers resp));
     i ← loop fuel (fill_iov_body iov niov end_) (it, 1);
     store iovs_of (iov + IOVEC_T * i) (Iovec (literal CRLF) 2);;
     dfk__mocked_writev resp iov niov;;
     mret tt);;
  update resps_of resp (fun r => r{{_headers_flushed := 1}});;
  mret (err_code dfk_err_ok).

Definition dfk_http_response_writev (resp iov niov : Z) : M hm Z :=
  c_assert (nonnull resp);;
  c_assert (nonnull iov && negb (niov =? 0));;
  dfk__http_response_flush_headers resp;;
  dfk__mocked_writev resp iov niov.

Definition dfk_http_response_write (resp buf nbytes : Z) : M hm Z :=
  c_assert (nonnull resp);;
  c_assert (nonnull buf && negb (nbytes =? 0));;
  store iovs_of v_iov (Iovec buf nbytes);;
  dfk_http_response_writev resp v_iov 1.

(** The assertions every setter starts with. *)
Definition check_header (resp name namelen value valuelen : Z) : M hm unit :=
  c_assert (nonnull resp);;
  c_assert (nonnull name && negb (namelen =? 0));;
  c_assert (nonnull value && negb (valuelen =? 0)).

Definition dfk_http_response_set (resp name namelen value valuelen : Z) : M hm Z :=
  check_header resp name namelen value valuelen;;
  r ← deref resps_of resp;
  item ← zoom harena (dfk_arena_alloc malloc (rs_request_arena r) ITEM_T);
  if isnull item then mret (err_code dfk_err_nomem) else
  zoom hstr (dfk_strmap_item_init item name namelen value valuelen);;
  zoom hstr (dfk_strmap_insert (rs_headers resp) item);;
  mret (err_code dfk_err_ok).

Definition dfk_http_response_set_copy (resp name namelen value valuelen : Z) : M hm Z :=
  check_header resp name namelen value valuelen;;
  r ← deref resps_of resp;
  i ← zoom hstr (dfk_strmap_item_acopy malloc (rs_request_arena r) name namelen value valuelen);
  if isnull i then mret (err_code dfk_err_nomem) else
  zoom hstr (dfk_strmap_insert (rs_headers resp) i);;
  mret (err_code dfk_err_ok).

Definition dfk_http_response_set_copy_name (resp name namelen value valuelen : Z) : M hm Z :=
  check_header resp name namelen value valuelen;;
  r ← deref resps_of resp;
  i ← zoom hstr (dfk_strmap_item_acopy_key malloc (rs_request_arena r) name namelen value valuelen);
  if isnull i then mret (err_code dfk_err_nomem) else
  zoom hstr (dfk_strmap_insert (rs_headers resp) i);;
  mret (err_code dfk_err_ok).

Definition dfk_http_response_set_copy_value (resp name namelen value valuelen : Z) : M hm Z :=
  check_header resp name namelen value valuelen;;
  r ← deref resps_of resp;
  i ← zoom hstr (dfk_strmap_item_acopy_value malloc (rs_request_arena r) name namelen value valuelen);
  if isnull i then mret (err_code dfk_err_nomem) else
  zoom hstr (dfk_strmap_insert (rs_headers resp) i);;
  mret (err_code dfk_err_ok).

Definition dfk_http_response_bset (resp : Z) (name value : dfk_buf_t) : M hm Z :=
  dfk_http_response_set resp (b_data name) (b_size name) (b_data value) (b_size value).
Definition dfk_http_response_bset_copy (resp : Z) (name value : dfk_buf_t) : M hm Z :=
  dfk_http_response_set_copy resp (b_data name) (b_size name) (b_data value) (b_size value).
Definition dfk_http_response_bset_copy_name (resp : Z) (name value : dfk_buf_t) : M hm Z :=
  dfk_http_response_set_copy_name resp (b_data name) (b_size name) (b_data value) (b_size value).
Definition dfk_http_response_bset_copy_value (resp : Z) (name value : dfk_buf_t) : M hm Z :=
  dfk_http_response_set_copy_value resp (b_data name) (b_size name) (b_data value) (b_size value).

End response.
