(* ===== verification/HttpServer.v ===== *)
(** * [http/protocol.c], [http/server.c]: connections and servers

    A handler is the application's: a command on the memory.  Local variables
    lie at addresses of their own; they are parameters. *)

From S2P Require Import HttpData Prelude ListSpec Bytes Arena Avl Error Misc StrMap Sponge Interact Socket TcpServer HttpConstants HttpRequest HttpResponse.
From Stdlib Require Import String.

Open Scope Z_scope.

Definition DFK_HTTP_KEEPALIVE_REQUESTS : Z := 100.
Definition DFK_HTTP_HEADERS_BUFFER_SIZE : Z := 16384.
Definition DFK_HTTP_HEADERS_BUFFER_COUNT : Z := 8.

(** Addresses of the local variables. *)
Record locals := Locals {
  v_connection_arena : Z; v_request_arena : Z; v_req : Z; v_resp : Z; v_body : Z;
  v_pdata : Z; v_bdata : Z; v_lenbuf : Z; v_sbuf : Z; v_args : Z
}.

Section server.
Context {Mem It P W : Type} `{!ListOps Mem It}.
#[local] Notation hm := (hmem Mem P W).
Context (malloc : bmem -> Z -> Z) (lib : http_parser P).
Context (handle : forall X, netE X -> M hm X).
Context (literal : string -> Z) (v : locals) (HEADER_MAX_SIZE : Z) (fuel : nat).

#[local] Notation read_headers :=
  (dfk__http_request_read_headers malloc lib handle literal (v_pdata v) HEADER_MAX_SIZE fuel).
#[local] Notation read_request :=
  (dfk_http_request_read malloc lib handle (v_bdata v) HEADER_MAX_SIZE fuel).
#[local] Notation flush_headers :=
  (dfk__http_response_flush_headers malloc handle literal (v_lenbuf v) (v_sbuf v) fuel).

Definition literal_size (s : string) : Z := Z.of_nat (String.length s).

(** [!strncmp(b.data, s, DFK_MIN(b.size, n))] *)
Definition starts_like (b : dfk_buf_t) (s : string) : M hm bool :=
  r ← zoom hbytes (strncmp (Z.to_nat (Z.min (b_size b) (literal_size s))) (b_data b) (literal s));
  mret (r =? 0).

(** What the client asked for; [old] stays for other values of the header. *)
Definition requested_keepalive (req : Z) (old : bool) : M hm bool :=
  connection ← zoom hstr (dfk_strmap_get (headers req) (literal "Connection") (literal_size "Connection"));
  if negb (b_size connection =? 0) then
    close ← starts_like connection "close";
    let keep := if close : bool then false else old in
    alive ← starts_like connection "Keep-Alive";
    mret (if alive : bool then true else keep)
  else
    r ← deref reqs_of req;
    mret (negb ((major_version r =? 1) && (minor_version r =? 0))).

(** The handler cannot answer in a later version than the request's. *)
Definition fix_version (req resp : Z) : M hm unit :=
  r ← deref reqs_of req;
  update resps_of resp (fun s =>
    if major_version r <? rs_major_version s then
      s{{rs_major_version := major_version r; rs_minor_version := minor_version r}}
    else if minor_version r <? rs_minor_version s then s{{rs_minor_version := minor_version r}}
    else s).

Definition final_keepalive (http resp nrequests : Z) (keepalive : bool) : M hm bool :=
  s ← deref resps_of resp;
  h ← deref https_of http;
  let keepalive := keepalive && rs_keepalive s in
  mret (if keepalive && (0 <=? keepalive_requests h) && (keepalive_requests h <=? nrequests + 1)
        then false else keepalive).

Definition set_literals (resp : Z) (name value : string) : M hm unit :=
  dfk_http_response_set malloc resp (literal name) (literal_size name) (literal value) (literal_size value);;
  mret tt.

(** [while (bytesremain)]; [false] when the connection is given up. *)
Definition flush_body_step (req : Z) (bytesremain : Z) : M hm (Z + bool) :=
  if bytesremain =? 0 then mret (inr true) else
  nread ← read_request req (v_body v) (Z.min bytesremain 1024);
  if nread <? 0 then mret (inr false) else mret (inl (to_size (bytesremain - nread))).

Definition to_int64 (z : Z) : Z := (z + 2 ^ 63) mod 2 ^ 64 - 2 ^ 63.

Definition flush_body (req : Z) : M hm bool :=
  r ← deref reqs_of req;
  if (0 <? content_length r) && (to_int64 (_body_nread r) <? content_length r) then
    loop fuel (flush_body_step req) (to_size (content_length r - _body_nread r))
  else mret true.

Context (handler : Z -> Z -> Z -> Z -> M hm Z).

(** From the initialisation of a request to the label [cleanup]: whether the
    connection stays open, and whether the request was counted. *)
Definition serve_request (http sock user nrequests : Z) : M hm (bool * bool) :=
  let req := v_req v in
  let resp := v_resp v in
  err ← read_headers req;
  if negb (err =? err_code dfk_err_ok) then mret (false, false) else
  keepalive ← requested_keepalive req true;
  dfk__http_response_init resp req (v_request_arena v) (v_connection_arena v) sock (if keepalive : bool then 1 else 0);;
  hres ← handler http req resp user;
  when (negb (hres =? err_code dfk_err_ok))
    (update resps_of resp (fun s => s{{status := status_code DFK_HTTP_INTERNAL_SERVER_ERROR}}));;
  fix_version req resp;;
  keepalive ← final_keepalive http resp nrequests keepalive;
  set_literals resp "Connection" (if keepalive : bool then "Keep-Alive" else "close");;
  set_literals resp "Content-Length" "0";;
  flush_headers resp;;
  flushed ← flush_body req;
  if negb flushed then mret (false, false) else mret (keepalive, true).

(** One turn of [while (keepalive)]. *)
Definition connection_body (http sock user : Z) (st : Z * bool) : M hm ((Z * bool) + unit) :=
  let '(nrequests, keepalive) := st in
  if negb keepalive then mret (inr tt) else
  h ← deref https_of http;
  zoom harena (dfk_arena_init (v_request_arena v) (http_dfk h));;
  dfk__http_request_init (v_req v) http (v_request_arena v) (v_connection_arena v) sock;;
  r ← serve_request http sock user nrequests;
  dfk__http_request_free fuel (v_req v);;
  zoom harena (dfk_arena_free fuel (v_request_arena v));;
  let '(keepalive, counted) := r : bool * bool in
  mret (inl (if counted then nrequests + 1 else nrequests, keepalive)).

(** [handler_]: the address of the handler.  The error of the last call is
    only logged. *)
Definition dfk__http_protocol (http fiber sock handler_ user : Z) : M hm unit :=
  c_assert (nonnull http);;
  c_assert (nonnull fiber);;
  c_assert (nonnull sock);;
  c_assert (nonnull handler_);;
  h ← deref https_of http;
  zoom harena (dfk_arena_init (v_connection_arena v) (http_dfk h));;
  loop fuel (connection_body http sock user) (0, true);;
  zoom harena (dfk_arena_free fuel (v_connection_arena v));;
  interact handle fuel (dfk_tcp_socket_close sock);;
  mret tt.

(** ** [server.c] *)

(** The server is the first member: [tcpserver] is the HTTP server. *)
Definition dfk_http_connection (tcpserver fiber sock handler_ user : Z) : M hm unit :=
  let http := tcpserver in
  dfk__http_protocol http fiber sock handler_ user.

Definition dfk_http_init (http dfk : Z) : M hm unit :=
  c_assert (nonnull http);;
  c_assert (nonnull dfk);;
  store https_of http (Http dfk DFK_HTTP_KEEPALIVE_REQUESTS HEADER_MAX_SIZE
    DFK_HTTP_HEADERS_BUFFER_SIZE DFK_HTTP_HEADERS_BUFFER_COUNT);;
  interact handle fuel (dfk_tcp_server_init http dfk).

Definition dfk_http_is_stopping (http : Z) : M hm bool :=
  c_assert (nonnull http);;
  interact handle fuel (dfk_tcp_server_is_stopping http).

Definition dfk_http_stop (http : Z) : M hm Z :=
  c_assert (nonnull http);;
  err ← interact handle fuel (dfk_tcp_server_stop http);
  if negb (err =? err_code dfk_err_ok) then mret err else mret (err_code dfk_err_ok).

Definition dfk_http_free (http : Z) : M hm unit :=
  c_assert (nonnull http);;
  interact handle fuel (dfk_tcp_server_free http).

(** The connections are served by other fibers, which are part of the
    environment; [cb] is [dfk_http_connection] with the address of [args]. *)
Definition dfk_http_serve (have_sock_nonblock : bool) (http endpoint port backlog handler_ : Z) (cb : callback_t) : M hm Z :=
  c_assert (nonnull http);;
  c_assert (nonnull endpoint);;
  c_assert (nonnull handler_);;
  c_assert (negb (port =? 0));;
  interact handle fuel (dfk_tcp_serve have_sock_nonblock http endpoint port backlog cb).

End server.
