(* ===== verification/HttpBody.v ===== *)
(** * What is proved of reading request bodies ([dfk_http_request_read])

    [http_parser] is any library that keeps the documented behaviour of bodies
    with a length, [body_law].  What is read are the next bytes of the body;
    reads that go past its end, or past it into the next request, fail an
    assertion. *)

From S2P Require Import HttpData Prelude ListSpec Bytes Arena Error Misc StrMap Sponge SpongeTheorems Interact Socket HttpRequest.
From ITree Require Import ITreeDefinition.

Section body.
Context {Mem It P W : Type} `{!ListOps Mem It}.
#[local] Notation hm := (hmem Mem P W).
Implicit Types m : hm.

Definition hb m : bmem := sm_bytes (h_str m).

(** [body_state p n]: parser [p] expects [n] more bytes of a body.  It hands
    over what it is given, and stops at the end of the message. *)
Definition body_law (lib : http_parser P) (body_state : P -> Z -> Prop) : Prop :=
  forall p n data len, body_state p n -> 0 < len <= n -> exists p' k,
    http_parser_execute lib p data len = CallsBack (OnBody data len) k /\
    (len < n -> k 0 false = Parsed p' len HPE_OK /\ body_state p' (n - len)) /\
    (len = n -> exists k', k 0 false = CallsBack OnMessageComplete k' /\ k' 0 true = Parsed p' len HPE_PAUSED).

Context (malloc : bmem -> Z -> Z) (lib : http_parser P).
Context (handle : forall X, netE X -> M hm X) (v_bdata HEADER_MAX_SIZE : Z).

#[local] Notation request_read := (dfk_http_request_read malloc lib handle v_bdata HEADER_MAX_SIZE).
#[local] Notation run_body := (read_body malloc lib handle v_bdata HEADER_MAX_SIZE).
#[local] Notation exec := (execute malloc lib HEADER_MAX_SIZE).

(** A request, its parser and the data of the callbacks. *)
Record body_at m (req : Z) (r : dfk_http_request_t) (p : P) (out osize : Z) : Prop := BodyAt {
  ba_req : req <> 0 /\ h_reqs m !! req = Some r;
  ba_parser : h_parsers m !! req = Some p;
  ba_data : v_bdata <> 0 /\ exists e, h_bdata m !! v_bdata = Some (BodyData req (Buf out osize) e)
}.

(** What the request is once [n] more bytes of its body were read. *)
Definition read_more (n : Z) (r : dfk_http_request_t) : dfk_http_request_t :=
  r{{_body_nread := to_size (_body_nread r + n)}}.

Lemma on_body_spec m req r p out osize data bs (Q : Z -> hm -> Prop) :
  let n := Z.of_nat (length bs) in
  body_at m req r p out osize -> bytes_at (hb m) data bs -> room_at (hb m) out n ->
  n <= osize < SIZE_MOD ->
  (forall m', hb m' = put_bytes out bs (hb m) ->
     body_at m' req (read_more n r) p (out + n) (osize - n) ->
     h_sponges m' = h_sponges m -> Q 0 m') ->
  wp (dfk_http_request_on_body v_bdata data n) m Q.
Proof.
  intros n [[Hr0 Hr] Hp [Hv0 [e Hv]]] Hbs Hroom Hle HQ. unfold dfk_http_request_on_body.
  apply wp_bind. eapply wp_deref; [done|exact Hv|]. cbn [outbuf b_data b_size bp_req].
  apply wp_bind, wp_zoom. unfold memmove. unfold n at 1. rewrite Nat2Z.id.
  apply wp_bind. eapply wp_read_bytes; [exact Hbs|]. apply wp_write_bytes; [exact Hroom|].
  apply wp_bind, wp_assert; [apply Z.leb_le; lia|].
  apply wp_bind. eapply wp_update; [done|exact Hv|].
  apply wp_bind. eapply wp_update; [done|exact Hr|]. apply wp_ret. apply HQ.
  - by destruct m as [[? [] ?] ? ? ? ? ? ? ? ? ? ? ?].
  - split.
    + split; [done|]. cbn. by rewrite lookup_insert_eq.
    + done.
    + split; [done|]. exists e. cbn. rewrite lookup_insert_eq. rewrite to_size_small by lia. done.
  - done.
Qed.

Lemma tcp_read_nothing sock buf : sock <> 0 -> buf <> 0 ->
  exists k, observe (dfk_tcp_socket_read sock buf 0) = VisF AssertFails k.
Proof. intros Hs Hb. unfold dfk_tcp_socket_read. rewrite !nonnull_true by done. eexists. lazy. reflexivity. Qed.

(** Nor does a turn that has nothing to ask the socket for. *)
Lemma read_body_nothing m req r p buf osize q B (fuel : nat) :
  (forall m, handle _ AssertFails m = Err AssertFailed) -> (1 <= fuel)%nat ->
  body_at m req r p buf osize -> content_length r = _body_nread r -> 0 < osize -> buf <> 0 ->
  b_size (_remainder r) = 0 ->
  (if _socket_mocked r then srep (lget hsponge m) (_socket_mock r) q B else rq_socket r <> 0) ->
  run_body fuel req buf (Buf buf osize) m = Err AssertFailed.
Proof.
  intros Hassert Hfuel [[Hr0 Hr] _ [Hv0 [e Hv]]] Hcl Hos Hbuf Hrem Hsock. unfold read_body, mbind, M_bind.
  unfold deref at 1. rewrite decide_False by done. cbn [hget reqs_of]. rewrite Hr.
  unfold deref at 1. rewrite decide_False by done. cbn [hget bdata_of]. rewrite Hv. cbn [outbuf b_data].
  rewrite (proj2 (Z.eqb_neq osize 0)), Hrem, Z.eqb_refl by lia.
  cbn [negb andb orb Z.eqb]. rewrite Hcl, Z.sub_diag.
  replace (Z.min osize (to_size 0)) with 0 by (change (to_size 0) with 0; lia).
  unfold dfk__mocked_read, mbind, M_bind. unfold deref at 1. rewrite decide_False by done. cbn [hget reqs_of]. rewrite Hr.
  destruct (_socket_mocked r).
  - unfold zoom, dfk__sponge_read. pose proof (checks_sponge _ _ _ _ Hsock) as Hc.
    apply wp_run in Hc as (u & s & Hc & ->). unfold mbind, M_bind. rewrite Hc. by rewrite nonnull_true.
  - destruct fuel as [|fuel]; [lia|]. cbn [interact].
    destruct (tcp_read_nothing (rq_socket r) buf Hsock Hbuf) as [k ->]. unfold mbind, M_bind. by rewrite Hassert.
Qed.

Context (body_state : P -> Z -> Prop) (Hlaw : body_law lib body_state).

Lemma execute_body m req r p out osize data bs left (Q : Z * http_errno -> hm -> Prop) :
  let n := Z.of_nat (length bs) in
  body_at m req r p out osize -> body_state p left -> bytes_at (hb m) data bs ->
  room_at (hb m) out n -> n <= osize < SIZE_MOD -> 0 < n <= left ->
  (forall m' p', hb m' = put_bytes out bs (hb m) ->
     body_at m' req (read_more n r) p' (out + n) (osize - n) -> (n < left -> body_state p' (left - n)) ->
     h_sponges m' = h_sponges m -> Q (n, if decide (n = left) then HPE_PAUSED else HPE_OK) m') ->
  wp (exec req v_bdata data n) m Q.
Proof.
  intros n Hb Hs Hbs Hroom Hle Hn HQ. destruct (Hlaw p left data n Hs Hn) as (p' & k & Hex & Hlt & Heq).
  unfold execute. apply wp_bind. eapply wp_deref; [apply (ba_req _ _ _ _ _ _ Hb)|apply (ba_parser _ _ _ _ _ _ Hb)|].
  rewrite Hex. apply wp_bind. cbn [run_parse callback]. apply wp_bind, wp_bind.
  eapply on_body_spec; [done..|]. intros m1 Hm1 Hb1 Hsp. apply wp_ret. cbn [fst snd].
  assert (forall e, wp (mret (p', n, e)) m1 (fun (a : P * Z * http_errno) s => wp (store parsers_of req a.1.1;; mret (a.1.2, a.2)) s
    (fun x s' => x = (n, e) /\ s' = lset (Lens h_parsers (fun h (m : hm) => m{{h_parsers := h}})) (<[req := p']> (h_parsers m1)) m1))) as Hend.
  { intros e. apply wp_ret, wp_bind, wp_store; [apply (ba_req _ _ _ _ _ _ Hb)|]. by apply wp_ret. }
  destruct Hb1 as [[Hr0 Hr] Hp1 [Hv0 Hv]].
  destruct (decide (n = left)) as [He|Hne].
  - destruct (Heq He) as (k' & -> & Hk'). cbn [run_parse callback]. apply wp_bind, wp_ret. cbn [fst snd].
    rewrite Hk'. cbn [run_parse]. eapply wp_mono; [apply Hend|]. intros a s Hw. eapply wp_mono; [exact Hw|].
    intros x s' [-> ->]. apply (HQ _ p'); [done| |lia|done]. split; [done| |done]. cbn. by rewrite lookup_insert_eq.
  - destruct (Hlt ltac:(lia)) as [-> Hs']. cbn [run_parse]. eapply wp_mono; [apply Hend|]. intros a s Hw.
    eapply wp_mono; [exact Hw|]. intros x s' [-> ->].
    apply (HQ _ p'); [done| |done|done]. split; [done| |done]. cbn. by rewrite lookup_insert_eq.
Qed.

(** ** One turn of the loop *)

(** The request once [n] bytes of what is cached of the body were read. *)
Definition advance (n : Z) (r : dfk_http_request_t) : dfk_http_request_t :=
  (read_more n r){{_remainder := Buf (b_data (_remainder r) + n) (to_size (b_size (_remainder r) - n))}}.

Lemma to_size_id n : 0 <= n < SIZE_MOD -> to_size n = n.
Proof. apply to_size_small. Qed.

(** The end of the loop: the caller's buffer is full, or something was read and
    nothing is cached. *)
Lemma read_body_stops m req r p buf out osize (Q : dfk_buf_t + Z -> hm -> Prop) (fuel : nat) :
  body_at m req r p out osize -> osize = 0 \/ out <> buf /\ b_size (_remainder r) = 0 ->
  Q (inr (out - buf)) m -> wp (run_body fuel req buf (Buf out osize)) m Q.
Proof.
  intros [[Hr0 Hr] _ [Hv0 [e Hv]]] Hstop HQ. unfold read_body.
  apply wp_bind. eapply wp_deref; [done|exact Hr|]. apply wp_bind. eapply wp_deref; [done|exact Hv|].
  cbn [outbuf b_data]. apply wp_if_true; [|by apply wp_ret].
  destruct Hstop as [->|[Hne ->]]; [done|]. rewrite (proj2 (Z.eqb_neq _ _) Hne). cbn. by rewrite andb_false_r.
Qed.

Lemma read_body_cached m req r p buf out osize bs left (fuel : nat) (Q : dfk_buf_t + Z -> hm -> Prop) :
  let n := Z.of_nat (length bs) in
  body_at m req r p out osize -> body_state p left ->
  content_length r - _body_nread r = left -> 0 <= _body_nread r -> content_length r < SIZE_MOD ->
  osize < SIZE_MOD -> 0 < n -> n = Z.min (Z.min osize left) (b_size (_remainder r)) ->
  b_size (_remainder r) < SIZE_MOD ->
  bytes_at (hb m) (b_data (_remainder r)) bs -> room_at (hb m) out n ->
  (forall m' p', hb m' = put_bytes out bs (hb m) ->
     body_at m' req (advance n r) p' (out + n) (osize - n) -> (n < left -> body_state p' (left - n)) ->
     Q (inl (Buf (out + n) (osize - n))) m') ->
  wp (run_body fuel req buf (Buf out osize)) m Q.
Proof.
  intros n Hb Hs Hleft Hnr Hcl Hos Hn Hmin Hrem Hbs Hroom HQ. pose proof Hb as [[Hr0 Hr] _ [Hv0 [e Hv]]].
  unfold read_body. apply wp_bind. eapply wp_deref; [done|exact Hr|].
  apply wp_bind. eapply wp_deref; [done|exact Hv|]. cbn [outbuf b_data].
  apply wp_if_false.
  { rewrite (proj2 (Z.eqb_neq osize 0)), (proj2 (Z.eqb_neq (b_size (_remainder r)) 0)) by lia.
    cbn. by rewrite orb_true_r. }
  rewrite Hleft, to_size_id by lia.
  apply wp_bind, wp_if_true; [apply negb_true_iff, Z.eqb_neq; lia|]. apply wp_ret. cbn [b_data b_size].
  rewrite <- Hmin. apply wp_bind, wp_assert; [apply nonnull_true; destruct Hbs; lia|].
  apply wp_bind, wp_assert; [by apply Z.ltb_lt|].
  apply wp_bind. eapply execute_body; [exact Hb|exact Hs|exact Hbs|exact Hroom|lia|lia|].
  intros m1 p' Hm1 Hb1 Hs1 _. fold n. pose proof Hb1 as [[_ Hr1] Hp1 [_ [e1 Hv1]]].
  destruct (decide _) as [[H1 H2]|_]; [by destruct (decide (n = left))|].
  apply wp_bind, wp_assert; [apply Z.leb_le; lia|].
  apply wp_bind. eapply wp_update; [done|exact Hr1|].
  apply wp_bind. eapply wp_deref; [done|exact Hv1|]. apply wp_ret. cbn [outbuf]. apply (HQ _ p').
  - done.
  - split; [split; [done|]| |].
    + change (<[req := if negb (b_size (_remainder r) =? 0) then advance n r else read_more n r]> (h_reqs m1) !! req
        = Some (advance n r)).
      by rewrite lookup_insert_eq, (proj2 (Z.eqb_neq (b_size (_remainder r)) 0)) by lia.
    + done.
    + split; [done|]. by exists e1.
  - done.
Qed.

(** The next turn asks for none of the bytes that follow the body. *)
Lemma read_body_crashes m req r p buf out osize (fuel : nat) :
  body_at m req r p out osize -> content_length r = _body_nread r -> 0 < osize ->
  0 < b_size (_remainder r) -> b_data (_remainder r) <> 0 ->
  run_body fuel req buf (Buf out osize) m = Err AssertFailed.
Proof.
  intros [[Hr0 Hr] _ [Hv0 [e Hv]]] Hcl Hos Hrem Hrd. unfold read_body, mbind, M_bind.
  unfold deref at 1. rewrite decide_False by done. cbn [hget reqs_of]. rewrite Hr.
  unfold deref at 1. rewrite decide_False by done. cbn [hget bdata_of]. rewrite Hv. cbn [outbuf b_data].
  rewrite (proj2 (Z.eqb_neq osize 0)), (proj2 (Z.eqb_neq (b_size (_remainder r)) 0)) by lia.
  cbn [negb andb orb]. rewrite orb_true_r. cbn [negb]. rewrite Hcl, Z.sub_diag.
  replace (Z.min (Z.min osize (to_size 0)) (b_size (_remainder r))) with 0
    by (change (to_size 0) with 0; lia).
  cbn. unfold c_assert. by rewrite nonnull_true.
Qed.

Lemma put_same (m0 : bmem) (p : Z) (bs : list Z) : bytes_at m0 p bs -> put_bytes p bs m0 = m0.
Proof.
  intros [Hp Hb]. destruct m0 as [c b]. unfold put_bytes. cbn in *. f_equal. apply map_eq. intros a.
  change (cells (put_bytes p bs (BMem c b)) !! a = c !! a). rewrite cells_put. case_decide; [|done].
  destruct (lookup_lt_is_Some_2 bs (Z.to_nat (a - p)) ltac:(lia)) as [x Hx]. rewrite Hx.
  specialize (Hb _ _ Hx). rewrite Z2Nat.id, Zplus_minus in Hb by lia. by rewrite Hb.
Qed.

(** The body comes from the stream of the test: [q] are its bytes. *)
Lemma read_body_stream m req r p buf osize q B left (fuel : nat) (Q : dfk_buf_t + Z -> hm -> Prop) :
  let k := Z.min (Z.min osize left) (Z.of_nat (length q)) in
  body_at m req r p buf osize -> body_state p left ->
  content_length r - _body_nread r = left -> 0 <= _body_nread r -> content_length r < SIZE_MOD ->
  0 < osize < SIZE_MOD -> 0 < left -> b_size (_remainder r) = 0 -> _socket_mocked r = true ->
  srep (lget hsponge m) (_socket_mock r) q B ->
  room_at (hb m) buf osize -> off_sponge (lget hsponge m) (_socket_mock r) buf osize ->
  (forall m' p', bytes_at (hb m') buf (take (Z.to_nat k) q) ->
     srep (lget hsponge m') (_socket_mock r) (drop (Z.to_nat k) q) B ->
     body_at m' req (read_more k r) p' (buf + k) (osize - k) -> (k < left -> body_state p' (left - k)) ->
     Q (if q then inr 0 else inl (Buf (buf + k) (osize - k))) m') ->
  wp (run_body fuel req buf (Buf buf osize)) m Q.
Proof.
  intros k Hb Hs Hleft Hnr Hcl Hos Hl0 Hrem Hmock Hrep Hroom Hoff HQ. pose proof Hb as [[Hr0 Hr] Hp [Hv0 [e Hv]]].
  unfold read_body. apply wp_bind. eapply wp_deref; [done|exact Hr|].
  apply wp_bind. eapply wp_deref; [done|exact Hv|]. cbn [outbuf b_data].
  apply wp_if_false.
  { rewrite (proj2 (Z.eqb_neq osize 0)) by lia. by rewrite Z.eqb_refl. }
  rewrite Hleft, (to_size_id left) by lia. rewrite Hrem. cbn [negb Z.eqb].
  apply wp_bind, wp_bind. unfold dfk__mocked_read. apply wp_bind. eapply wp_deref; [done|exact Hr|].
  rewrite Hmock. apply wp_zoom. set (n := Z.min osize left) in *.
  eapply wp_mono; [apply (dfk__sponge_read_spec _ _ q buf n B Hrep)|].
  { lia. }
  { eapply room_mono; [|exact Hroom]. lia. }
  { eapply off_mono; [|exact Hoff]. lia. }
  intros nread s (-> & Hrep1 & Hgot & _ & _ & Hrooms & _).
  set (got := take (Z.to_nat n) q) in *. set (m1 := lset hsponge s m).
  assert (hb m1 = smem_bytes s) as Hm1 by by destruct m as [[? [] ?] ? ? ? ? ? ? ? ? ? ? ?].
  assert (lget hsponge m1 = s) as Hg1 by by destruct m as [[? [] ?] ? ? ? ? ? ? ? ? ? ? ?], s.
  assert (body_at m1 req r p buf osize) as Hb1 by by split; [done|done|split; [done|by exists e]].
  assert (Z.of_nat (length got) = k) as Hk by (unfold got; rewrite length_take; lia).
  assert (take (Z.to_nat k) q = got /\ drop (Z.to_nat k) q = drop (Z.to_nat n) q) as [Hgk Hdk].
  { unfold got. destruct (Z.le_gt_cases n (Z.of_nat (length q))).
    - by replace k with n by lia.
    - rewrite !take_ge, !drop_ge by lia. done. }
  rewrite to_size_id by lia. apply wp_ret. rewrite Hk. destruct (Z.leb_spec k 0) as [Hk0|Hk0].
  - apply wp_ret. assert (q = []) as -> by (destruct q; [done|cbn in *; lia]).
    assert (k = 0) as Hk00 by (cbn in Hk; lia). rewrite Hk00 at 1. apply (HQ m1 p).
    + rewrite Hm1, take_nil. destruct Hgot as [? _]. by apply bytes_nil.
    + rewrite Hg1, Hdk. exact Hrep1.
    + rewrite Hk00, Z.add_0_r, Z.sub_0_r. destruct Hb1 as [[_ H1] H2 H3].
      assert (read_more 0 r = r) as ->; [|done]. unfold read_more. rewrite Z.add_0_r, to_size_id by lia. by destruct r.
    + intros _. by rewrite Hk00, Z.sub_0_r.
  - cbn [b_data b_size]. apply wp_bind, wp_assert; [apply nonnull_true; destruct Hgot; lia|].
    apply wp_bind, wp_assert; [by apply Z.ltb_lt|]. apply wp_bind. rewrite <- Hk.
    eapply (execute_body m1 req r p buf osize buf got left); [exact Hb1|exact Hs|by rewrite Hm1| |lia|lia|].
    { rewrite Hm1. split; [apply Hroom|]. intros i Hi. apply Hrooms. apply Hroom. lia. }
    intros m2 p' Hm2 Hb2 Hs2 Hsp2. rewrite Hk in *. pose proof Hb2 as [[_ Hr2] Hp2 [_ [e2 Hv2]]].
    destruct (decide _) as [[H1 H2]|_]; [by destruct (decide (k = left))|].
    apply wp_bind, wp_assert; [apply Z.leb_le; lia|].
    apply wp_bind. eapply wp_update; [done|exact Hr2|].
    apply wp_bind. eapply wp_deref; [done|exact Hv2|]. apply wp_ret. cbn [outbuf].
    rewrite Hm1 in Hm2. rewrite (put_same _ _ _ Hgot) in Hm2.
    replace (inl (Buf (buf + k) (osize - k))) with (if q then inr 0 else inl (Buf (buf + k) (osize - k)) : dfk_buf_t + Z)
      by (destruct q; [unfold k in Hk0; cbn in Hk0; lia|done]).
    apply (HQ _ p').
    + change (bytes_at (hb m2) buf (take (Z.to_nat k) q)). by rewrite Hm2, Hgk.
    + change (srep (SMem (h_sponges m2) (hb m2)) (_socket_mock r) (drop (Z.to_nat k) q) B).
      rewrite Hm2, Hsp2, Hdk. change (h_sponges m1) with (sponges s). by destruct s.
    + split; [split; [done|]| |].
      * change (<[req := if negb (b_size (_remainder r) =? 0) then advance k r else read_more k r]> (h_reqs m2) !! req
          = Some (read_more k r)). by rewrite lookup_insert_eq, Hrem.
      * done.
      * split; [done|]. by exists e2.
    + done.
Qed.

(** ** The whole function *)

(** Memory in which the application reads from request [r]. *)
Record readable m (req : Z) (r : dfk_http_request_t) : Prop := Readable {
  rd_req : req <> 0 /\ h_reqs m !! req = Some r;
  rd_http : rq_http r <> 0 /\ is_Some (h_https m !! rq_http r);
  rd_body : content_length r <> 0 \/ chunked r = true
}.

(** The local variable of the function is initialised. *)
Lemma request_read_starts m req r p buf size (fuel : nat) : readable m req r ->
  h_parsers m !! req = Some p -> v_bdata <> 0 -> buf <> 0 ->
  exists m1, request_read fuel req buf size m = loop fuel (run_body fuel req buf) (Buf buf size) m1 /\
    body_at m1 req r p buf size /\ hb m1 = hb m /\ lget hsponge m1 = lget hsponge m.
Proof.
  intros [[Hr0 Hr] [Hh0 [h Hh]] Hcl] Hp Hv Hbuf. eexists. split.
  - unfold dfk_http_request_read. rewrite isnull_false by done.
    unfold mbind, M_bind. unfold deref at 1. rewrite decide_False by done. cbn [hget reqs_of]. rewrite Hr.
    unfold deref at 1. rewrite decide_False by done. cbn [hget https_of]. rewrite Hh.
    rewrite isnull_false by done. cbn [andb].
    replace ((content_length r =? 0) && negb (chunked r)) with false.
    2:{ destruct Hcl as [Hcl| ->]; [by rewrite (proj2 (Z.eqb_neq _ _) Hcl)|by rewrite andb_false_r]. }
    unfold store at 1. rewrite decide_False by done. reflexivity.
  - split; [|by split]. split; [done|done|]. split; [done|]. eexists. cbn. by rewrite lookup_insert_eq.
Qed.

End body.
