(* ===== verification/HttpStore.v ===== *)
(** * Storage shared by arenas, string maps and sponges

    The objects of an HTTP connection lie in one byte memory.  An allocation
    from an arena changes nothing that was there ([grown]), and the items of a
    map are allocations of an arena ([items_in]). *)

From S2P Require Import HttpData Prelude ListSpec Bytes Arena ArenaTheorems Avl AvlTree AvlRot AvlIter Error Misc StrMap StrMapTheorems Sponge SpongeTheorems.

(** ** Growth of storage *)

(** Nothing was allocated, or one block. *)
Definition grown (b b' : bmem) : Prop := b' = b \/ exists p n, 0 < n /\ allocated b p n b'.

Lemma grown_refl b : grown b b.
Proof. by left. Qed.

Lemma grown_cells b b' a c : grown b b' -> cells b !! a = Some c -> cells b' !! a = Some c.
Proof.
  intros [->|(p & n & Hn & Hal)] Ha; [done|]. rewrite <- Ha. eapply cells_allocated; [done|lia|].
  intros Hin. pose proof (al_fresh _ _ _ _ Hal (a - p) ltac:(lia)) as Hf. rewrite Zplus_minus in Hf. congruence.
Qed.

Lemma bytes_grown b b' p bs : grown b b' -> bytes_at b p bs -> bytes_at b' p bs.
Proof. intros Hg [Hp Hb]. split; [done|]. intros i x Hx. eapply grown_cells; [done|]. by apply Hb. Qed.

Lemma room_grown b b' p n : grown b b' -> room_at b p n -> room_at b' p n.
Proof.
  intros Hg [Hp Hr]. split; [done|]. intros i Hi. destruct (Hr i Hi) as [c Hc]. exists c. by eapply grown_cells.
Qed.

Lemma shape_grown b b' s q B : grown b b' -> shape b s q B -> exists B', shape b' s q B'.
Proof.
  intros Hg Hsh. destruct Hg as [->|(p & n & Hn & Hal)]; [by exists B|]. assert (grown b b') as Hg by (right; eauto).
  destruct Hsh as [H1 H2 H3 H4 H5 H6|pre H1 H2 H3 H4 H5 H6 H7 H8 H9 H10].
  - exists (blocks b'). by apply shape_empty.
  - exists (<[p := n]> B). pose proof (al_new _ _ _ _ Hal) as Hnew. rewrite H5 in Hnew.
    apply lookup_insert_None in Hnew as [HBp Hne]. destruct Hal as [? ? ? ? ? ->].
    apply (shape_block _ _ _ _ pre); try done.
    + by rewrite lookup_insert_ne.
    + cbn. rewrite H5. by rewrite insert_insert_ne.
    + by eapply room_grown.
    + by eapply bytes_grown.
Qed.

Lemma srep_grown (m m' : smem) sp q B : grown (smem_bytes m) (smem_bytes m') -> sponges m' = sponges m ->
  srep m sp q B -> exists B', srep m' sp q B'.
Proof.
  intros Hg Hsp (H1 & s & H2 & H3 & Hsh). destruct (shape_grown _ _ _ _ _ Hg Hsh) as [B' HB].
  exists B'. split; [done|]. exists s. by rewrite Hsp.
Qed.

(** Writing to storage that is not the sponge's. *)
Lemma srep_put (m : smem) sp q B p bs : 0 < p -> off_sponge m sp p (Z.of_nat (length bs)) -> srep m sp q B ->
  srep (SMem (sponges m) (put_bytes p bs (smem_bytes m))) sp q B.
Proof.
  intros Hp Hoff (H1 & s & H2 & H3 & Hsh). destruct (decide (bs = [])) as [->|Hne].
  { rewrite put_nil. split; [done|]. by exists s. }
  assert (length bs <> 0%nat) by (by destruct bs). split; [done|]. exists s. split; [done|]. split; [done|].
  specialize (Hoff s H2). cbn [smem_bytes].
  destruct Hsh as [Q1 Q2 Q3 Q4 Q5 Q6|pre Q1 Q2 Q3 Q4 Q5 Q6 Q7 Q8 Q9 Q10].
  - by apply shape_empty.
  - apply (shape_block _ _ _ _ pre); try done; [by apply room_put|].
    eapply bytes_same; [|exact Q7]. apply same_put. rewrite <- Q8. unfold apart_ranges in *. lia.
Qed.

(** ** Allocation from an arena *)

Section alloc.
Context {Mem It : Type} `{!ListOps Mem It}.

Lemma wlp_lists {A} (c : M Mem A) (m : armem Mem) (Q : A -> armem Mem -> Prop) :
  (forall a l, Q a (lset alists l m)) -> wlp (zoom alists c) m Q.
Proof. intros HQ. apply wlp_zoom. intros a t _. apply HQ. Qed.

Lemma malloc_grows malloc m n : malloc_ok malloc -> 0 < n ->
  wlp (dfk__malloc malloc n) m (fun _ m' => grown m m').
Proof.
  intros Hok Hn. assert (wp (dfk__malloc malloc n) m (fun _ m' => grown m m')) as Hw.
  { apply wp_malloc; [done|done|by left|]. intros p m' Hal. right. eauto. }
  unfold wp, wlp in *. intros a s' Hr. by rewrite Hr in Hw.
Qed.

Lemma arena_alloc_grows malloc arena n (m : armem Mem) : malloc_ok malloc ->
  wlp (dfk_arena_alloc malloc arena n) m (fun _ m' => grown (ar_bytes m) (ar_bytes m')).
Proof.
  intros Hok. unfold dfk_arena_alloc. apply wlp_bind, wlp_assert. intros _. apply wlp_bind, wlp_assert. intros _.
  apply wlp_bind. apply (wlp_mono _ _ (fun _ m' => ar_bytes m' = ar_bytes m)).
  { unfold needs_segment. apply wlp_bind, wlp_lists. intros [] l; [by apply wlp_ret|].
    apply wlp_bind. unfold dfk__arena_bytes_available. apply wlp_bind, wlp_assert. intros _.
    apply wlp_bind, wlp_lists. intros seg l'. apply wlp_bind, wlp_assert. intros _.
    apply wlp_bind, wlp_deref. intros s _. apply wlp_bind, wlp_assert. intros _. by apply wlp_ret, wlp_ret. }
  intros [] m1 Hm1.
  - apply wlp_bind, wlp_deref. intros a _. apply wlp_bind, wlp_zoom.
    eapply wlp_mono; [apply malloc_grows; [done|unfold ARENA_SEGMENT_SIZE; lia]|].
    intros s b Hg. change (lget abytes m1) with (ar_bytes m1) in Hg. rewrite Hm1 in Hg.
    destruct (isnull s); [by apply wlp_ret|].
    apply wlp_bind, wlp_lists. intros _ l1. apply wlp_bind, wlp_lists. intros _ l2.
    apply wlp_bind. intros u s' Hs. unfold store in Hs. case_decide; [done|]. injection Hs as <- <-. by apply wlp_ret.
  - apply wlp_bind, wlp_lists. intros seg l. apply wlp_bind, wlp_deref. intros s _.
    apply wlp_bind, wlp_update. intros v _. apply wlp_ret. cbn. rewrite Hm1. by left.
Qed.

(** An allocation of [n] bytes from an arena failed since the allocator did. *)
Definition refused (malloc : bmem -> Z -> Z) (b : bmem) (n : Z) : Prop :=
  exists k, 0 < k <= Z.max ARENA_SEGMENT_SIZE (n + SEGMENT_T) /\ malloc b k = 0.

Lemma arena_alloc_null malloc arena n (m : armem Mem) : malloc_ok malloc -> 0 < n <= USER_END ->
  wlp (dfk_arena_alloc malloc arena n) m (fun r m' => r = 0 -> m' = m -> refused malloc (ar_bytes m) n).
Proof.
  intros Hok Hn. unfold dfk_arena_alloc. apply wlp_bind, wlp_assert. intros _. apply wlp_bind, wlp_assert. intros _.
  apply wlp_bind. apply (wlp_mono _ _ (fun _ m' => ar_bytes m' = ar_bytes m /\ segments m' = segments m)).
  { unfold needs_segment. apply wlp_bind, wlp_lists. intros [] l; [by apply wlp_ret|].
    apply wlp_bind. unfold dfk__arena_bytes_available. apply wlp_bind, wlp_assert. intros _.
    apply wlp_bind, wlp_lists. intros seg l'. apply wlp_bind, wlp_assert. intros _.
    apply wlp_bind, wlp_deref. intros s _. apply wlp_bind, wlp_assert. intros _. by apply wlp_ret, wlp_ret. }
  unfold USER_END in Hn. intros [] m1 [Hm1 Hs1].
  - apply wlp_bind, wlp_deref. intros a _. apply wlp_bind, wlp_zoom.
    rewrite to_size_small by (unfold SEGMENT_T, SIZE_MOD, SIZE_BITS; lia).
    set (k := Z.max _ _). assert (0 < k <= Z.max ARENA_SEGMENT_SIZE (n + SEGMENT_T)) as Hk
      by (unfold k, ARENA_SEGMENT_SIZE, SEGMENT_T; lia).
    assert (wp (dfk__malloc malloc k) (lget abytes m1) (fun s _ => s = 0 /\ refused malloc (ar_bytes m) n \/ 0 < s)) as Hw.
    { unfold dfk__malloc. apply wp_bind, wp_assert; [apply negb_true_iff, Z.eqb_neq; lia|].
      change (lget abytes m1) with (ar_bytes m1). rewrite Hm1.
      apply wp_bind, wp_gets, wp_bind. destruct (Hok (ar_bytes m) k ltac:(lia)) as [E|(Hp & Ha & _)].
      - rewrite E. apply wp_when_false; [done|]. apply wp_bind, wp_assert; [done|]. apply wp_ret. left. split; [done|]. by exists k.
      - apply wp_when_true; [apply nonnull_true; lia|]. apply wp_modify, wp_bind, wp_assert; [done|]. apply wp_ret. by right. }
    intros s b Hs. unfold wp in Hw. rewrite Hs in Hw.
    destruct (isnull s) eqn:E; [|apply Z.eqb_neq in E].
    + apply wlp_ret. intros _ _. apply Z.eqb_eq in E. destruct Hw as [[_ H]|H]; [exact H|lia].
    + apply wlp_bind, wlp_lists. intros _ l1. apply wlp_bind, wlp_lists. intros _ l2.
      apply wlp_bind. intros u s' Hst. apply wlp_ret. unfold SEGMENT_T. destruct Hw as [[? _]|?]; lia.
  - apply wlp_bind, wlp_lists. intros seg l. apply wlp_bind, wlp_deref. intros s Hs.
    apply wlp_bind, wlp_update. intros v Hv. apply wlp_ret. intros _ E. exfalso.
    apply (f_equal (fun m => segments m !! seg)) in E. cbn in Hs, Hv, E. rewrite lookup_insert_eq, <- Hs1 in E.
    rewrite Hs in Hv. injection Hv as <-. rewrite Hs in E. injection E as E.
    apply (f_equal used) in E. cbn in E. unfold to_size in E.
    assert (0 <= used s < SIZE_MOD) as Hu by (rewrite <- E; apply Z.mod_pos_bound; done).
    unfold SIZE_MOD, SIZE_BITS in *. destruct (Z.lt_ge_cases (used s + n) (2 ^ 64)) as [Hlt|Hge].
    + rewrite Z.mod_small in E; lia.
    + rewrite <- (Z_mod_plus_full _ (-1)), Z.mod_small in E; lia.
Qed.

End alloc.

(** The allocator refused to give up to [limit] bytes when at most [j] blocks
    had been added to those of [b]. *)
Definition starved (malloc : bmem -> Z -> Z) (b : bmem) (j : nat) (limit : Z) : Prop := exists b' k,
  blocks b ⊆ blocks b' /\ (base.size (blocks b') <= base.size (blocks b) + j)%nat /\ 0 < k <= limit /\ malloc b' k = 0.

Lemma starved_now malloc b j n limit : refused malloc b n -> Z.max ARENA_SEGMENT_SIZE (n + SEGMENT_T) <= limit ->
  starved malloc b j limit.
Proof. intros (k & Hk & Hm) Hl. exists b, k. split; [done|]. split; [lia|]. split; [lia|done]. Qed.

Lemma starved_later malloc b b' j limit : grown b b' -> starved malloc b' j limit -> starved malloc b (S j) limit.
Proof.
  intros Hg (b1 & k & H1 & H2 & H3). exists b1, k. destruct Hg as [->|(p & n & Hn & Hal)].
  - split; [done|]. split; [lia|done].
  - destruct Hal as [_ _ _ Hnew _ ->]. cbn in H1, H2. rewrite map_size_insert_None in H2 by done. split; [|split; [lia|done]].
    etrans; [|exact H1]. by apply insert_subseteq.
Qed.

Lemma starved_blocks malloc b b' j limit : blocks b' = blocks b -> starved malloc b' j limit -> starved malloc b j limit.
Proof. intros Hb (b1 & k & H1 & H2 & H3). exists b1, k. by rewrite <- Hb. Qed.

(** Commands on the strings that only read. *)
Lemma wp_read_str {Mem P W A} (m : hmem Mem P W) (c : M (strmem Mem) A) (R : A -> Prop) (Q : A -> hmem Mem P W -> Prop) :
  wp c (h_str m) (fun a t => t = h_str m /\ R a) -> (forall a, R a -> Q a m) -> wp (zoom hstr c) m Q.
Proof.
  intros Hc HQ. apply wp_zoom. eapply wp_mono; [exact Hc|]. intros a t [-> HR].
  replace (lset hstr (h_str m) m) with m by by destruct m. by apply HQ.
Qed.

(** Iteration over a map: 0 is the end. *)
Section iterators.
Context {Mem : Type}.
Implicit Types m : strmem Mem.

Lemma strmap_begin_spec m mp es : map_rep m mp es ->
  wp (dfk_strmap_begin mp) m (fun r m' => m' = m /\ r = head_or 0 (e_addr <$> es)).
Proof.
  intros Hrep. destruct (mr_tree _ _ _ Hrep) as (t & Ht & Hav & Hel). apply wp_bind, wp_assert; [apply nonnull_true, Ht|].
  apply wp_zoom. eapply wp_mono; [by eapply dfk_avltree_begin_spec|]. intros r a [-> ->].
  split; [apply set_avl_same|by rewrite Hel].
Qed.

Lemma strmap_end_spec m mp es : map_rep m mp es -> wp (dfk_strmap_end mp) m (fun r m' => m' = m /\ r = 0).
Proof.
  intros Hrep. destruct (mr_tree _ _ _ Hrep) as (t & Ht & Hav & Hel). apply wp_bind, wp_assert; [apply nonnull_true, Ht|].
  apply wp_zoom. unfold dfk_avltree_end. apply wp_checks; [by eapply checks_tree|intros _].
  apply wp_checks; [by eapply checks_tree|intros _]. apply wp_ret. split; [apply set_avl_same|done].
Qed.

Lemma strmap_next_spec m mp pre e suf : map_rep m mp (pre ++ e :: suf) ->
  wp (dfk_strmap_it_next (e_addr e)) m (fun r m' => m' = m /\ r = head_or 0 (e_addr <$> suf)).
Proof.
  intros Hrep. destruct (mr_tree _ _ _ Hrep) as (t & Ht & Hav & Hel). apply wp_zoom.
  eapply wp_mono; [eapply (dfk_avltree_it_next_spec _ _ t _ (e_addr <$> pre)); [exact Ht|]|].
  - by rewrite Hel, fmap_app.
  - intros r a [-> ->]. split; [apply set_avl_same|done].
Qed.

End iterators.

(** ** A sponge with room *)

(** Its block takes [n] more bytes. *)
Definition sponge_room (m : smem) (sp n : Z) : Prop :=
  exists s, sponges m !! sp = Some s /\ 0 < capacity s < SIZE_MOD /\ 0 <= size s /\ size s + n <= capacity s.

#[export] Instance sponge_room_dec m sp n : Decision (sponge_room m sp n).
Proof.
  destruct (sponges m !! sp) as [s|] eqn:E.
  - destruct (decide (0 < capacity s < SIZE_MOD /\ 0 <= size s /\ size s + n <= capacity s)) as [H|H].
    + left. by exists s.
    + right. intros (s' & Hs & ?). congruence.
  - right. intros (s & Hs & _). congruence.
Defined.

Lemma readonly_sponge_check sp : readonly (dfk__sponge_check_invariants sp).
Proof.
  unfold dfk__sponge_check_invariants. apply readonly_bind; [apply readonly_assert|intros _].
  apply readonly_bind; [apply readonly_deref|intros s]. apply readonly_bind; [apply readonly_assert|intros _].
  apply readonly_if; repeat (apply readonly_bind; [apply readonly_assert|intros _]); apply readonly_assert.
Qed.

Lemma sponge_write_room malloc (m : smem) sp buf n k : 0 < n -> 0 <= k -> sponge_room m sp (n + k) ->
  wlp (dfk__sponge_write malloc sp buf n) m (fun r m' => r = err_code dfk_err_ok /\ sponge_room m' sp k).
Proof.
  intros Hn Hk (s & Hs & Hcap & Hsz & Hfit). unfold dfk__sponge_write.
  apply wlp_bind. eapply wlp_mono; [apply readonly_sponge_check|]. intros _ ? ->.
  apply wlp_bind, wlp_assert. intros _. apply wlp_bind, wlp_assert. intros _.
  apply wlp_bind, wlp_deref. cbn. intros s' Hs'. rewrite Hs in Hs'. injection Hs' as <-.
  rewrite (proj2 (Z.eqb_neq (capacity s) 0)) by lia. rewrite to_size_small by lia.
  rewrite (proj2 (Z.leb_le n (capacity s - size s))) by lia.
  apply wlp_bind, wlp_zoom. intros [] b _. apply wlp_bind, wlp_update. cbn. intros s' Hs'. rewrite Hs in Hs'. injection Hs' as <-.
  apply wlp_bind. eapply wlp_mono; [apply readonly_sponge_check|]. intros _ ? ->. apply wlp_ret. split; [done|].
  eexists. cbn. rewrite lookup_insert_eq. split; [done|]. cbn. rewrite to_size_small by lia. lia.
Qed.

Definition total_size (iov : list dfk_iovec_t) : Z := foldr (fun v n => iov_size v + n) 0 iov.

Lemma total_size_nonneg iov : Forall (fun v => 0 < iov_size v) iov -> 0 <= total_size iov.
Proof. unfold total_size. induction 1; cbn; lia. Qed.

Lemma writev_room malloc iov : forall (m : smem) sp, Forall (fun v => 0 < iov_size v) iov ->
  sponge_room m sp (total_size iov) ->
  wlp (writev_loop malloc sp iov) m (fun r _ => r = err_code dfk_err_ok).
Proof.
  induction iov as [|v iov IH]; intros m sp Hf Hroom; cbn [writev_loop]; [by apply wlp_ret|].
  apply Forall_cons in Hf as [Hv Hf]. apply wlp_bind.
  eapply wlp_mono; [apply (sponge_write_room malloc m sp _ _ (total_size iov)); [done|by apply total_size_nonneg|exact Hroom]|].
  intros r m' [-> Hr]. by apply IH.
Qed.

(** ** Items allocated from an arena *)

Section items.
Context {Mem It P W : Type} `{!ListOps Mem It, !ListLaws Mem It}.

(** The map at [mp] holds the entries [es], whose items are allocations of
    the arena. *)
Record items_in (m : strmem Mem) (arena mp : Z) (es : list entry) (gs : list gseg) (rs : list region)
    (os : list (Z * Z)) (B : gmap Z Z) (ub un : Z) : Prop := ItemsIn {
  ii_arena : arena_rep (sm_arena m) arena gs rs os B ub un;
  ii_map : map_rep m mp es;
  ii_items : forall e, e ∈ es -> exists r, r ∈ rs /\ r_addr r = e_addr e
}.

(** A map keeps the first entry of a key, and of the keys it is a prefix of. *)
Definition entries_after (es : list entry) (e : entry) (es' : list entry) : Prop :=
  if decide (Exists (fun f => e_key f `prefix_of` e_key e) es) then es' = es else es' ≡ₚ e :: es.

Lemma key_ok_grown (m m' : strmem Mem) b k : grown (sm_bytes m) (sm_bytes m') -> key_ok m b k -> key_ok m' b k.
Proof. intros Hg [H1 H2 H3 H4]. split; try done. by eapply bytes_grown. Qed.

Lemma map_rep_grown (m m' : strmem Mem) mp es : sm_avl m' = sm_avl m -> items m' = items m ->
  grown (sm_bytes m) (sm_bytes m') -> map_rep m mp es -> map_rep m' mp es.
Proof.
  intros Ha Hi Hg [Ht He Hs]. split; [by rewrite Ha| |done].
  intros e Hin. destruct (He e Hin) as [H1 H2]. split; [by rewrite Hi|by eapply key_ok_grown].
Qed.

(** The address of the last allocation. *)
Lemma last_region (m : armem Mem) arena gs rs os B ub un a n : arena_rep m arena gs (rs ++ [Region a n None]) os B ub un ->
  valid_addr a /\ forall r, r ∈ rs -> r_addr r <> a.
Proof.
  intros [_ _ _ H4 _ _ _ H8 H9 _ _]. pose proof (H8 (Region a n None) ltac:(set_solver)) as [Hn (g & Hg & Hi1 & Hi2) _].
  cbn in Hn, Hi1, Hi2. split.
  - destruct (H4 g Hg) as [Q1 Q2 Q3 Q4 Q5 Q6 Q7]. unfold valid_addr, SEGMENT_T, USER_END, SIZE_MOD, SIZE_BITS in *. lia.
  - intros r Hr. rewrite fmap_app in H9. apply pairwise_snoc in H9 as [_ H9]. rewrite Forall_forall in H9.
    specialize (H9 (reg_range r) ltac:(by apply list_elem_of_fmap_2)).
    pose proof (ro_len _ _ _ (H8 r ltac:(set_solver))). unfold range_apart, reg_range in H9. cbn in H9. lia.
Qed.

Context (malloc : bmem -> Z -> Z) (Hmalloc : malloc_ok malloc).

(** An item is allocated, initialised and inserted. *)
Lemma new_item {A} (m : hmem Mem P W) arena mp es gs rs os B ub un kd kl vd vl k
    (no yes : M (hmem Mem P W) A) (Q : A -> hmem Mem P W -> Prop) :
  items_in (h_str m) arena mp es gs rs os B ub un -> ~ full (remaining gs) ->
  key_ok (h_str m) (Buf kd kl) k -> (vd <> 0 \/ vl = 0) -> no_extension es k ->
  (refused malloc (sm_bytes (h_str m)) ITEM_T -> wp no m Q) ->
  (forall s a gs' rs' es', items_in s arena mp es' gs' rs' os B ub un ->
     entries_after es (Entry a k (Item (Buf kd kl) (Buf vd vl))) es' ->
     remaining gs' = Some (take_bytes (remaining gs) ITEM_T) -> grown (sm_bytes (h_str m)) (sm_bytes s) ->
     wp yes (lset hstr s m) Q) ->
  wp (item ← zoom harena (dfk_arena_alloc malloc arena ITEM_T);
      if isnull item then no else
      zoom hstr (dfk_strmap_item_init item kd kl vd vl);;
      zoom hstr (dfk_strmap_insert mp item);;
      yes) m Q.
Proof.
  intros [Harena Hmap Hitems] Hfull Hkey Hv Hext Hno Hyes. apply wp_bind, wp_zoom.
  assert (0 < ITEM_T <= USER_END) as Hitem by (unfold ITEM_T, USER_END; lia).
  eapply wp_mono; [apply wp_wlp; [apply wp_wlp; [eapply dfk_arena_alloc_spec; [done|exact Harena|done|done]|
    by apply arena_alloc_grows]|by apply arena_alloc_null]|].
  intros a ar [[[[-> ->]|(Ha & _ & gs' & Har & Hrem)] Hg] Hnull].
  { apply wp_if_true; [done|]. replace (lset harena _ m) with m by by destruct m as [[] ? ? ? ? ? ? ? ? ? ? ?].
    apply Hno. by apply Hnull. }
  apply wp_if_false; [apply isnull_false; lia|]. set (s1 := lset sarena ar (h_str m)).
  change (lset harena ar m) with (lset hstr s1 m).
  destruct (last_region _ _ _ _ _ _ _ _ _ _ Har) as [Hva Hnew].
  assert (map_rep s1 mp es) as Hmap1 by by eapply map_rep_grown; [..|exact Hmap].
  assert (a ∉ e_addr <$> es) as Hfresh.
  { intros Hin. apply list_elem_of_fmap in Hin as (e & -> & He). destruct (Hitems e He) as (r & Hr & Hra).
    by apply (Hnew r Hr). }
  apply wp_bind, wp_zoom. cbn [lget hstr h_str lset].
  eapply wp_mono; [eapply (item_init_spec s1 mp es a kd kl vd vl k); [done|done|done| |done]|].
  { by eapply (key_ok_grown (h_str m)). }
  intros _ s2 (Hmap2 & Har2 & Hfi). apply wp_bind, wp_zoom. cbn [lget hstr h_str lset].
  eapply wp_mono; [apply (dfk_strmap_insert_spec s2 mp es (Entry a k (Item (Buf kd kl) (Buf vd vl)))); [done|done|done]|].
  intros [] s3 Hs3.
  assert (items_in s2 arena mp es gs' (rs ++ [Region a ITEM_T None]) os B ub un) as Hin2.
  { split; [by rewrite Har2|done|]. intros e He. destruct (Hitems e He) as (r & Hr & Hra). exists r. set_solver. }
  assert (grown (sm_bytes (h_str m)) (sm_bytes s2)) as Hg2 by (unfold sm_bytes at 2; by rewrite Har2).
  assert (forall s, lset hstr s (lset hstr s2 (lset hstr s1 m)) = lset hstr s m) as Hset by done.
  case_decide as Hex.
  - subst s3. apply (Hyes s2 a gs' (rs ++ [Region a ITEM_T None]) es); [done| |done|done].
    unfold entries_after. by rewrite decide_True.
  - destruct Hs3 as (t & es' & -> & Hmap3 & Hperm & _).
    apply (Hyes (with_avl t s2) a gs' (rs ++ [Region a ITEM_T None]) es'); [|by unfold entries_after; rewrite decide_False|done|done].
    split; [apply Hin2|done|]. intros e He. rewrite Hperm in He. apply elem_of_cons in He as [->|He].
    + exists (Region a ITEM_T None). split; [set_solver|done].
    + destruct (Hitems e He) as (r & Hr & Hra). exists r. set_solver.
Qed.

End items.

(** ** Several items *)

(** No allocation of [n] items in a row meets a full segment. *)
Fixpoint fits (rem : option Z) (n : nat) : Prop :=
  match n with
  | O => True
  | S n => ~ full rem /\ fits (Some (take_bytes rem ITEM_T)) n
  end.

Lemma fits_mono n : forall rem, fits rem (S n) -> fits rem n.
Proof. induction n as [|n IH]; intros rem [H1 H2]; [done|]. split; [done|]. by apply IH. Qed.

(** Keys that are new, and not prefixes of one another. *)
Lemma new_key (es es0 : list entry) ks k : es ≡ₚ es0 -> e_key <$> es0 = ks -> prefix_free (ks ++ [k]) -> NoDup (ks ++ [k]) ->
  no_extension es k /\ ~ Exists (fun f => e_key f `prefix_of` k) es.
Proof.
  intros Hp <- Hpf Hnd. unfold prefix_free in Hpf. rewrite Forall_forall in Hpf.
  assert (forall e, e ∈ es -> e_key e ∈ (e_key <$> es0) ++ [k]) as Hin.
  { intros e He. rewrite Hp in He. apply elem_of_app. left. by apply list_elem_of_fmap_2. }
  split.
  - intros e He Hpx. pose proof (Hpf k ltac:(set_solver)) as Hk. rewrite Forall_forall in Hk.
    by rewrite <- (Hk (e_key e) (Hin e He) Hpx).
  - rewrite Exists_exists. intros (f & Hf & Hpx). pose proof (Hpf (e_key f) (Hin f Hf)) as Hk. rewrite Forall_forall in Hk.
    apply NoDup_app in Hnd as (_ & Hnd & _). apply (Hnd k); [|set_solver].
    rewrite <- (Hk k ltac:(set_solver) Hpx). rewrite Hp in Hf. by apply list_elem_of_fmap_2.
Qed.

Lemma prefix_free_sub ks ks' : (forall k, k ∈ ks -> k ∈ ks') -> prefix_free ks' -> prefix_free ks.
Proof.
  unfold prefix_free. rewrite !Forall_forall. intros Hsub H k Hk. specialize (H k (Hsub k Hk)).
  rewrite Forall_forall in *. auto.
Qed.
