(* ===== verification/HttpResponseSpec.v ===== *)
(** * What [http/response.c] writes: representation and steps *)

From S2P Require Import HttpData Prelude ListSpec Bytes Arena ArenaTheorems Avl AvlTree AvlIter Error Misc StrMap StrMapTheorems Sponge SpongeTheorems Interact Socket HttpConstants HttpResponse HttpBody HttpStore.
From Stdlib Require Import String Sorting.Sorted.

#[local] Open Scope list_scope.
#[local] Open Scope Z_scope.
#[local] Notation length := Datatypes.length.

(** ** Arrays of blocks *)

(** Memory once [vs] are the elements from [iov] on. *)
Fixpoint put_iovs (iov : Z) (vs : list dfk_iovec_t) (h : gmap Z dfk_iovec_t) : gmap Z dfk_iovec_t :=
  match vs with
  | [] => h
  | v :: vs => put_iovs (iov + IOVEC_T) vs (<[iov := v]> h)
  end.

Lemma put_iovs_app iov vs vs' h :
  put_iovs iov (vs ++ vs') h = put_iovs (iov + IOVEC_T * Z.of_nat (length vs)) vs' (put_iovs iov vs h).
Proof.
  revert iov h. induction vs as [|v vs IH]; intros iov h; cbn [app put_iovs].
  - f_equal. cbn. lia.
  - rewrite IH. f_equal. cbn [length]. lia.
Qed.

Lemma put_iovs_before iov vs h a : a < iov -> put_iovs iov vs h !! a = h !! a.
Proof.
  revert iov h. induction vs as [|v vs IH]; intros iov h Ha; cbn [put_iovs]; [done|].
  rewrite IH by (unfold IOVEC_T; lia). by rewrite lookup_insert_ne by lia.
Qed.

(** ** The status line fits into its buffer *)

Lemma digits_length f : forall n acc, (length (digits f n acc) <= f + length acc)%nat.
Proof.
  induction f as [|f IH]; intros n acc; cbn [digits]; [done|]. case_match; [cbn; lia|].
  etrans; [apply IH|]. cbn. lia.
Qed.

Lemma decimal_length n : (length (decimal n) <= 21)%nat.
Proof.
  unfold decimal. case_match; cbn [length].
  - pose proof (digits_length 20 (- n) []) as H0. cbn [length] in H0. lia.
  - pose proof (digits_length 20 n []) as H0. cbn [length] in H0. lia.
Qed.

Lemma reason_length n : (length (text (dfk_http_reason_phrase n)) <= 31)%nat.
Proof.
  unfold dfk_http_reason_phrase.
  repeat match goal with |- context [if ?b then _ else _] => destruct b; [vm_compute; lia|] end. vm_compute. lia.
Qed.

Lemma status_line_length major minor st : (length (status_line major minor st) < 128)%nat.
Proof.
  unfold status_line, padded. rewrite !length_app, length_replicate.
  pose proof (decimal_length major). pose proof (decimal_length minor). pose proof (decimal_length st).
  pose proof (reason_length st). cbn [length text list_ascii_of_string fmap list_fmap]. lia.
Qed.

Lemma status_line_ne major minor st : status_line major minor st <> [].
Proof. done. Qed.

Section response.
Context {Mem It P W : Type} `{!ListOps Mem It}.
#[local] Notation hm := (hmem Mem P W).
Implicit Types m : hm.

Definition with_iovs (h : gmap Z dfk_iovec_t) m : hm := m{{h_iovs := h}}.

Lemma read_iovs_spec vs : forall m iov h (Q : list dfk_iovec_t -> hm -> Prop), 0 < iov ->
  h_iovs m = put_iovs iov vs h -> Q vs m -> wp (read_iovs iov (length vs)) m Q.
Proof.
  induction vs as [|v vs IH]; intros m iov h Q Hiov Hh HQ; cbn [read_iovs length]; [by apply wp_ret|].
  apply wp_bind. eapply wp_deref; [lia| |].
  { cbn. rewrite Hh. cbn [put_iovs]. rewrite put_iovs_before by (unfold IOVEC_T; lia). by rewrite lookup_insert_eq. }
  apply wp_bind. eapply IH; [unfold IOVEC_T; lia|exact Hh|]. by apply wp_ret.
Qed.

(** ** The lines of the headers *)

Context (literal : string -> Z).

(** The blocks of an entry's line. *)
Definition entry_iovs (e : entry) : list dfk_iovec_t :=
  [Iovec (b_data (key (e_item e))) (b_size (key (e_item e))); Iovec (literal ": ") 2;
   Iovec (b_data (value (e_item e))) (b_size (value (e_item e))); Iovec (literal CRLF) 2].

Lemma map_rep_ext (m m' : strmem Mem) mp es : sm_avl m' = sm_avl m -> items m' = items m ->
  (forall e, e ∈ es -> bytes_at (sm_bytes m') (b_data (key (e_item e))) (e_key e)) ->
  map_rep m mp es -> map_rep m' mp es.
Proof.
  intros Ha Hi Hb [Ht He Hs]. split; [by rewrite Ha| |done].
  intros e Hin. destruct (He e Hin) as [H1 [Q1 Q2 Q3 Q4]]. split; [by rewrite Hi|]. split; [done|by apply Hb|done|done].
Qed.

Lemma store_iov {A} m iov vs h v j (k : M hm A) (Q : A -> hm -> Prop) : 0 < iov -> j = Z.of_nat (length vs) ->
  wp k (with_iovs (put_iovs iov (vs ++ [v]) h) m) Q ->
  wp (store iovs_of (iov + IOVEC_T * j) v;; k) (with_iovs (put_iovs iov vs h) m) Q.
Proof.
  intros Hiov -> Hk. apply wp_bind, wp_store; [unfold IOVEC_T; lia|].
  rewrite put_iovs_app in Hk. exact Hk.
Qed.

Lemma fill_loop mp niov iov suf : forall m pre h vs fuel,
  0 < iov -> map_rep (h_str m) mp (pre ++ suf) -> niov = 4 * Z.of_nat (length (pre ++ suf)) + 2 ->
  Z.of_nat (length vs) = 1 + 4 * Z.of_nat (length pre) -> (length suf < fuel)%nat ->
  wp (loop fuel (fill_iov_body literal iov niov 0) (head_or 0 (e_addr <$> suf), Z.of_nat (length vs)))
    (with_iovs (put_iovs iov vs h) m)
    (fun i m' => i = Z.of_nat (length (vs ++ (suf ≫= entry_iovs))) /\
       m' = with_iovs (put_iovs iov (vs ++ (suf ≫= entry_iovs)) h) m).
Proof.
  induction suf as [|e suf IH]; intros m pre h vs fuel Hiov Hrep Hn Hlen Hf.
  - destruct fuel as [|fuel]; [cbn in Hf; lia|]. cbn [loop]. apply wp_bind. cbn [fill_iov_body].
    apply wp_bind, (wp_read_str _ _ (fun b => b = true)); [apply wp_zoom, wp_ret; split; [apply set_avl_same|done]|].
    intros b ->.
    apply wp_ret, wp_ret. by rewrite app_nil_r.
  - destruct fuel as [|fuel]; [cbn in Hf; lia|]. cbn [loop]. apply wp_bind. cbn [fill_iov_body].
    pose proof (rep_addr_ne _ _ _ e Hrep ltac:(set_solver)) as Hv. pose proof (valid_ne _ Hv) as He0.
    change (head_or 0 (e_addr <$> e :: suf)) with (e_addr e).
    apply wp_bind, (wp_read_str _ _ (fun b => b = false)).
    { apply wp_zoom, wp_ret. split; [apply set_avl_same|by apply Z.eqb_neq]. }
    intros b ->. cbn [orb]. rewrite length_app in Hn. cbn [length] in Hn. apply wp_if_false; [apply Z.leb_gt; lia|].
    destruct (mr_entries _ _ _ Hrep e ltac:(set_solver)) as [Hitem _].
    apply wp_bind, (wp_read_str _ _ (fun i => i = e_item e)).
    { eapply wp_deref; [done|exact Hitem|done]. }
    intros item ->.
    do 4 (apply store_iov; [done|rewrite ?length_app; cbn [length]; lia|]). rewrite <- !app_assoc. cbn [app].
    apply wp_bind, (wp_read_str _ _ (fun r => r = head_or 0 (e_addr <$> suf))).
    { eapply wp_mono; [by eapply strmap_next_spec|]. done. }
    intros it ->. apply wp_ret.
    replace (Z.of_nat (length vs) + 4) with (Z.of_nat (length (vs ++ entry_iovs e))) by (rewrite length_app; cbn; lia).
    eapply wp_mono; [apply (IH m (pre ++ [e]) h (vs ++ entry_iovs e) fuel)|].
    + done.
    + by rewrite <- app_assoc.
    + rewrite Hn, <- app_assoc, length_app. done.
    + rewrite !length_app. cbn [length entry_iovs]. lia.
    + cbn in Hf. lia.
    + cbn [mbind list_bind]. by rewrite <- app_assoc.
Qed.

(** ** The text of a response *)

Definition response_pieces (line : list Z) (kvs : list (list Z * list Z)) : list (list Z) :=
  line :: (kvs ≫= fun kv => [kv.1; text ": "; kv.2; text CRLF]) ++ [text CRLF].

(** A text the sponge [sp] can be given: it is neither in the sponge nor in
    the local buffer of the function. *)
Record text_ok (v_sbuf : Z) m (sp a : Z) (bs : list Z) : Prop := TextOk {
  tk_ne : bs <> [];
  tk_bytes : bytes_at (hb m) a bs;
  tk_off : off_sponge (lget hsponge m) sp a (Z.of_nat (length bs));
  tk_end : a + Z.of_nat (length bs) <= USER_END;
  tk_apart : apart_ranges v_sbuf 128 a (Z.of_nat (length bs))
}.

(** The header [kv] is the entry [e]. *)
Definition header_text (v_sbuf : Z) m (sp : Z) (e : entry) (kv : list Z * list Z) : Prop :=
  e_key e = kv.1 /\ text_ok v_sbuf m sp (b_data (key (e_item e))) kv.1 /\
  b_size (value (e_item e)) = Z.of_nat (length kv.2) /\ text_ok v_sbuf m sp (b_data (value (e_item e))) kv.2.

(** What the sponge needs of a block. *)
Definition block_text (m : smem) (sp : Z) (v : dfk_iovec_t) (bs : list Z) : Prop :=
  bs <> [] /\ Sponge.iov_size v = Z.of_nat (length bs) /\ buffer m sp (Sponge.iov_data v) bs.

Definition crlf_iov : dfk_iovec_t := Iovec (literal CRLF) 2.

Lemma text_block v_sbuf m sp a bs n (m' : smem) : text_ok v_sbuf m sp a bs -> n = Z.of_nat (length bs) ->
  bytes_at (smem_bytes m') a bs -> sponges m' = h_sponges m -> block_text m' sp (Iovec a n) bs.
Proof.
  intros [H1 H2 H3 H4 H5] -> Hb Hs. split; [done|]. split; [done|]. split; [done|]. split; [|done].
  intros s. rewrite Hs. apply H3.
Qed.

Lemma entries_blocks v_sbuf m sp es kvs (m' : smem) :
  Forall2 (header_text v_sbuf m sp) es kvs ->
  (forall e, e ∈ es -> b_size (key (e_item e)) = Z.of_nat (length (e_key e))) ->
  (forall a bs, text_ok v_sbuf m sp a bs -> bytes_at (smem_bytes m') a bs) -> sponges m' = h_sponges m ->
  text_ok v_sbuf m sp (literal ": ") (text ": ") -> text_ok v_sbuf m sp (literal CRLF) (text CRLF) ->
  Forall2 (block_text m' sp) (es ≫= entry_iovs) (kvs ≫= fun kv => [kv.1; text ": "; kv.2; text CRLF]).
Proof.
  intros Hf Hk Hb Hs Hc Hn. induction Hf as [|e kv es kvs (H1 & H2 & H3 & H4) Hf IH]; [constructor|].
  cbn [mbind list_bind]. apply Forall2_app; [|apply IH; intros e' He'; apply Hk; set_solver].
  unfold entry_iovs. repeat apply Forall2_cons_2; [| | | |constructor].
  - eapply text_block; [exact H2| |by apply Hb|done]. rewrite <- H1. apply Hk. set_solver.
  - by eapply text_block; [exact Hc| |apply Hb|].
  - by eapply text_block; [exact H4| |apply Hb|].
  - by eapply text_block; [exact Hn| |apply Hb|].
Qed.

(** ** Writing the text *)

Context (malloc : bmem -> Z -> Z) (Hmalloc : malloc_ok malloc).
Context (handle : forall X, netE X -> M hm X) (v_sbuf : Z) (fuel : nat).

(** The status line is printed to the local buffer. *)
Definition printed (line : list Z) m : hm :=
  lset hbytes (put_bytes v_sbuf (line ++ [0]) (put_bytes v_sbuf (replicate 128 0) (hb m))) m.

Lemma print_spec {A} m resp r (k : dfk_http_response_t -> Z -> M hm A) (Q : A -> hm -> Prop) :
  let line := status_line (rs_major_version r) (rs_minor_version r) (status r) in
  resp <> 0 -> h_resps m !! resp = Some r -> room_at (hb m) v_sbuf 128 ->
  wp (k r (Z.of_nat (length line))) (printed line m) Q ->
  wp (zoom hbytes (write_bytes v_sbuf (replicate 128 0));;
      r ← deref resps_of resp;
      ssize ← zoom hbytes (snprintf v_sbuf 128 (status_line (rs_major_version r) (rs_minor_version r) (status r)));
      k r ssize) m Q.
Proof.
  intros line Hr0 Hr Hroom Hk. pose proof (status_line_length (rs_major_version r) (rs_minor_version r) (status r)) as Hlen.
  fold line in Hlen. apply wp_bind, wp_zoom, wp_write_bytes; [by rewrite length_replicate|].
  apply wp_bind. eapply wp_deref; [done|exact Hr|]. fold line.
  apply wp_bind, wp_zoom. unfold snprintf. rewrite take_ge by lia. apply wp_bind, wp_write_bytes.
  - cbn [lget hbytes lset]. apply room_put. eapply room_mono; [|exact Hroom]. rewrite length_app. cbn [length]. lia.
  - apply wp_ret. replace (lset hbytes _ _) with (printed line m); [exact Hk|].
    by destruct m as [[? [] ?] ? ? ? ? ? ? ? ? ? ? ?].
Qed.

(** What the caller may rely on after printing. *)
Lemma printed_facts line m q sp B : (length line < 128)%nat -> line <> [] -> 0 < v_sbuf -> v_sbuf + 128 <= USER_END ->
  off_sponge (lget hsponge m) sp v_sbuf 128 -> srep (lget hsponge m) sp q B ->
  (forall a bs, text_ok v_sbuf m sp a bs -> bytes_at (hb (printed line m)) a bs) /\
  block_text (lget hsponge (printed line m)) sp (Iovec v_sbuf (Z.of_nat (length line))) line /\
  srep (lget hsponge (printed line m)) sp q B.
Proof.
  intros Hlen Hne Hv Hend Hoff Hrep. set (b0 := put_bytes v_sbuf (replicate 128 0) (hb m)).
  assert (hb (printed line m) = put_bytes v_sbuf (line ++ [0]) b0) as Hb by by destruct m as [[? [] ?] ? ? ? ? ? ? ? ? ? ? ?].
  assert (lget hsponge (printed line m) = SMem (h_sponges m) (put_bytes v_sbuf (line ++ [0]) b0)) as Hs
    by by destruct m as [[? [] ?] ? ? ? ? ? ? ? ? ? ? ?].
  assert (Z.of_nat (length (line ++ [0])) <= 128) as Hl1 by (rewrite length_app; cbn [length]; lia).
  split; [|split].
  - intros a bs [_ H2 _ _ H5]. rewrite Hb. eapply bytes_same; [|exact H2]. eapply same_cells_trans; apply same_put.
    + by rewrite length_replicate.
    + unfold apart_ranges in *. lia.
  - split; [done|]. split; [done|]. rewrite Hs. split; [|split].
    + cbn [smem_bytes Sponge.iov_data]. apply (proj1 (proj1 (bytes_app _ _ _ _) (bytes_put_same b0 v_sbuf (line ++ [0]) Hv))).
    + eapply (off_mono (lget hsponge m)); [|exact Hoff]. cbn. lia.
    + cbn. lia.
  - rewrite Hs. apply (srep_put (SMem (h_sponges m) b0)); [done| |].
    + eapply (off_mono (lget hsponge m)); [|exact Hoff]. lia.
    + apply (srep_put (lget hsponge m)); [done|by rewrite length_replicate|done].
Qed.

(** A vectored write to the sponge of the response. *)
Definition sent m sp q B (pieces : list (list Z)) m' : Prop :=
  h_resps m' = h_resps m /\ exists k, (k <= length pieces)%nat /\
    srep (lget hsponge m') sp (q ++ mjoin (take k pieces)) B /\
    (sponge_room (lget hsponge m) sp (Z.of_nat (length (mjoin pieces))) -> k = length pieces).

Lemma blocks_total (m0 : smem) sp vs pieces : Forall2 (block_text m0 sp) vs pieces ->
  total_size vs = Z.of_nat (length (mjoin pieces)) /\ Forall (fun v => 0 < Sponge.iov_size v) vs.
Proof.
  induction 1 as [|v bs vs pieces (H1 & H2 & _) _ [IH1 IH2]]; [done|]. split.
  - change (mjoin (bs :: pieces)) with (bs ++ mjoin pieces). rewrite length_app. unfold total_size in *. cbn [foldr]. lia.
  - constructor; [|done]. destruct bs; [done|cbn in H2; lia].
Qed.

Lemma writev_sent m resp r sp q B iov vs h pieces (Q : Z -> hm -> Prop) :
  resp <> 0 -> h_resps m !! resp = Some r -> rs_socket_mocked r = true -> rs_socket_mock r = sp ->
  0 < iov -> h_iovs m = put_iovs iov vs h -> vs <> [] ->
  srep (lget hsponge m) sp q B -> Forall2 (block_text (lget hsponge m) sp) vs pieces ->
  (forall x m', sent m sp q B pieces m' -> Q x m') ->
  wp (dfk__mocked_writev malloc handle fuel resp iov (Z.of_nat (length vs))) m Q.
Proof.
  intros Hr0 Hr Hmock Hsp Hiov Hh Hne Hrep Hf HQ. unfold dfk__mocked_writev.
  apply wp_bind. eapply wp_deref; [done|exact Hr|]. apply wp_bind. rewrite Nat2Z.id.
  eapply read_iovs_spec; [exact Hiov|exact Hh|]. rewrite Hmock, Hsp. apply wp_zoom. unfold dfk__sponge_writev.
  apply wp_checks; [by eapply checks_sponge|intros _].
  apply wp_bind, wp_assert; [by destruct vs|]. destruct (blocks_total _ _ _ _ Hf) as [Htot Hpos].
  apply wp_bind. apply (wp_mono _ _ (fun x s => exists k, (k <= length pieces)%nat /\
    srep s sp (q ++ mjoin (take k pieces)) B /\
    (sponge_room (lget hsponge m) sp (Z.of_nat (length (mjoin pieces))) -> k = length pieces))).
  - destruct (sponge_room_dec (lget hsponge m) sp (Z.of_nat (length (mjoin pieces)))) as [Hroom|Hno].
    + eapply wp_mono; [apply wp_wlp; [eapply (writev_loop_spec malloc Hmalloc vs _ sp q B pieces Hrep Hf)|
        apply (writev_room malloc vs _ sp Hpos); by rewrite Htot]|].
      intros x s [(k & Hk & Hs & _ & Hx) Hok]. exists k. split; [done|]. split; [done|]. intros _.
      destruct Hx as [[_ ?]|Hx]; [done|]. by rewrite Hok in Hx.
    + eapply wp_mono; [eapply (writev_loop_spec malloc Hmalloc vs _ sp q B pieces Hrep Hf)|].
      intros x s (k & Hk & Hs & _ & _). exists k. by split; [|split].
  - intros x s (k & Hk & Hs & Hfull). apply wp_bind. apply (wp_mono _ _ (fun _ s' => s' = s)).
    + apply wp_when; [|done]. intros _. by eapply checks_sponge.
    + intros _ ? ->. apply wp_ret. apply HQ. split; [done|]. exists k. split; [done|]. split; [|done].
      by replace (lget hsponge (lset hsponge s m)) with s by by destruct m as [[? [] ?] ? ? ? ? ? ? ? ? ? ? ?], s.
Qed.

Lemma fill_and_send m mp resp r sp q B iov line es kvs niov n :
  let pieces := response_pieces line kvs in
  resp <> 0 -> h_resps m !! resp = Some r -> rs_socket_mocked r = true -> rs_socket_mock r = sp ->
  0 < iov -> map_rep (h_str m) mp es -> niov = 4 * Z.of_nat (length es) + 2 -> (length es < fuel)%nat ->
  srep (lget hsponge m) sp q B -> block_text (lget hsponge m) sp (Iovec v_sbuf n) line ->
  block_text (lget hsponge m) sp crlf_iov (text CRLF) ->
  Forall2 (block_text (lget hsponge m) sp) (es ≫= entry_iovs) (kvs ≫= fun kv => [kv.1; text ": "; kv.2; text CRLF]) ->
  wp (store iovs_of iov (Iovec v_sbuf n);;
      it ← zoom hstr (dfk_strmap_begin mp);
      end_ ← zoom hstr (dfk_strmap_end mp);
      i ← loop fuel (fill_iov_body literal iov niov end_) (it, 1);
      store iovs_of (iov + IOVEC_T * i) crlf_iov;;
      dfk__mocked_writev malloc handle fuel resp iov niov;;
      mret tt) m (fun _ m' => sent m sp q B pieces m').
Proof.
  intros pieces Hr0 Hr Hmock Hsp Hiov Hrep -> Hfuel Hq Hline Hcr Hf.
  apply wp_bind, wp_store; [lia|].
  change (hset iovs_of (<[iov := Iovec v_sbuf n]> (hget iovs_of m)) m) with
    (with_iovs (put_iovs iov [Iovec v_sbuf n] (h_iovs m)) m).
  set (m1 := with_iovs _ _).
  apply wp_bind, (wp_read_str _ _ (fun r => r = head_or 0 (e_addr <$> es))).
  { eapply wp_mono; [by apply strmap_begin_spec|done]. }
  intros it ->. apply wp_bind, (wp_read_str _ _ (fun r => r = 0)).
  { eapply wp_mono; [by eapply strmap_end_spec|done]. }
  intros it ->. apply wp_bind. change 1 with (Z.of_nat (length [Iovec v_sbuf n])).
  eapply wp_mono; [by apply (fill_loop mp _ iov es m [] (h_iovs m) [Iovec v_sbuf n])|].
  intros i m2 [-> ->]. apply store_iov; [done|done|].
  set (vs := ([Iovec v_sbuf n] ++ (es ≫= entry_iovs)) ++ [crlf_iov]).
  assert (Forall2 (block_text (lget hsponge m) sp) vs pieces) as Hall.
  { unfold vs. rewrite <- app_assoc. cbn [app]. apply Forall2_cons_2; [done|]. apply Forall2_app; [done|].
    by apply Forall2_cons_2. }
  assert (4 * Z.of_nat (length es) + 2 = Z.of_nat (length vs)) as ->.
  { unfold vs. rewrite !length_app. cbn [length].
    assert (length (es ≫= entry_iovs) = 4 * length es)%nat as ->; [|lia].
    clear. induction es as [|e es IH]; [done|]. cbn [mbind list_bind]. rewrite length_app, IH. cbn. lia. }
  apply wp_bind. eapply (writev_sent (with_iovs (put_iovs iov vs (h_iovs m)) m) resp r sp q B iov vs (h_iovs m) pieces);
    done.
Qed.

(** ** The whole function *)

(** A mocked response [r] with the headers [kvs] of the map's entries [es],
    which were not sent yet; nothing was said about the length. *)
Record ready_response m (resp : Z) (r : dfk_http_response_t) (es : list entry) (kvs : list (list Z * list Z))
    (q : list Z) (B : gmap Z Z) : Prop := ReadyResponse {
  rr_obj : resp <> 0 /\ h_resps m !! resp = Some r;
  rr_new : _headers_flushed r = 0 /\ rs_content_length r = to_size (-1);
  rr_mock : rs_socket_mocked r = true;
  rr_map : map_rep (h_str m) (rs_headers resp) es;
  rr_headers : Forall2 (header_text v_sbuf m (rs_socket_mock r)) es kvs;
  rr_colon : text_ok v_sbuf m (rs_socket_mock r) (literal ": ") (text ": ");
  rr_crlf : text_ok v_sbuf m (rs_socket_mock r) (literal CRLF) (text CRLF);
  rr_local : room_at (hb m) v_sbuf 128 /\ v_sbuf + 128 <= USER_END /\
    off_sponge (lget hsponge m) (rs_socket_mock r) v_sbuf 128;
  rr_sponge : srep (lget hsponge m) (rs_socket_mock r) q B;
  rr_number : IOVEC_T * (4 * Z.of_nat (length es) + 2) <= USER_END
}.

Lemma text_ok_grown m m' sp a bs : grown (hb m) (hb m') -> h_sponges m' = h_sponges m ->
  text_ok v_sbuf m sp a bs -> text_ok v_sbuf m' sp a bs.
Proof.
  intros Hg Hs [H1 H2 H3 H4 H5]. split; try done; [by eapply bytes_grown|].
  intros s. cbn. rewrite Hs. apply H3.
Qed.

(** An allocation from an arena does not disturb the response. *)
Lemma ready_grown m resp r es kvs q B (a : armem Mem) : grown (hb m) (ar_bytes a) ->
  ready_response m resp r es kvs q B -> exists B', ready_response (lset harena a m) resp r es kvs q B'.
Proof.
  intros Hg [H1 H2 H3 H4 H5 H6 H7 H8 H9 H10]. set (m' := lset harena a m).
  assert (hb m' = ar_bytes a) as Hb by done.
  destruct (srep_grown (lget hsponge m) (lget hsponge m') (rs_socket_mock r) q B) as [B' HB']; [done..|]. exists B'.
  assert (forall sp x bs, text_ok v_sbuf m sp x bs -> text_ok v_sbuf m' sp x bs) as Ht
    by (intros sp x bs; apply text_ok_grown; [by rewrite Hb|done]).
  split; try done.
  - apply (map_rep_ext (h_str m)); [done|done| |done]. intros e He.
    destruct (mr_entries _ _ _ H4 e He) as [_ [_ Hk _ _]]. by apply (bytes_grown (hb m)).
  - eapply Forall2_impl; [exact H5|]. intros e kv (Q1 & Q2 & Q3 & Q4). split; [done|]. split; [by apply Ht|].
    split; [done|by apply Ht].
  - by apply Ht.
  - by apply Ht.
  - destruct H8 as (Q1 & Q2 & Q3). split; [by apply (room_grown (hb m))|]. by split.
Qed.

(** A write of one text to the sponge of the response. *)
Lemma write_sent m resp r sp q B a n bs (Q : Z -> hm -> Prop) :
  resp <> 0 -> h_resps m !! resp = Some r -> rs_socket_mocked r = true -> rs_socket_mock r = sp ->
  srep (lget hsponge m) sp q B -> block_text (lget hsponge m) sp (Iovec a n) bs ->
  (forall x m', sent m sp q B [bs] m' -> Q x m') ->
  wp (dfk__mocked_write malloc handle fuel resp a n) m Q.
Proof.
  intros Hr0 Hr Hmock Hsp Hrep (Hne & Hn & Hbuf) HQ. cbn in Hn, Hbuf. subst n. unfold dfk__mocked_write.
  apply wp_bind. eapply wp_deref; [done|exact Hr|]. rewrite Hmock, Hsp. apply wp_zoom.
  assert (forall s, lget hsponge (lset hsponge s m) = s) as Hget
    by by intros []; destruct m as [[? [] ?] ? ? ? ? ? ? ? ? ? ? ?].
  assert (0 < Z.of_nat (length bs)) as Hpos by (destruct bs; [done|cbn; lia]).
  pose proof (dfk__sponge_write_spec malloc Hmalloc _ sp q a bs B Hrep Hne Hbuf) as Hw.
  destruct (sponge_room_dec (lget hsponge m) sp (Z.of_nat (length bs))) as [Hroom|Hno].
  - eapply wp_mono; [apply wp_wlp; [exact Hw|apply (sponge_write_room malloc _ sp a _ 0); [lia|lia|by rewrite Z.add_0_r]]|].
    intros x s [[[[-> Hs]|[-> _]] _] [Hok _]]; [|done]. apply HQ. split; [done|]. exists 1%nat. rewrite Hget.
    cbn. rewrite app_nil_r. split; [lia|]. by split.
  - eapply wp_mono; [exact Hw|]. intros x s [[[-> Hs]|[-> Hs]] _]; apply HQ; (split; [done|]); rewrite Hget.
    + exists 1%nat. cbn. rewrite app_nil_r. split; [lia|]. by split.
    + exists 0%nat. cbn. rewrite app_nil_r. split; [lia|]. split; [done|]. by rewrite app_nil_r.
Qed.

(** What was sent, by the address of the array of blocks: only the status line,
    with another status, if there was no memory for the array. *)
Definition answer_status (iov : Z) (r : dfk_http_response_t) : Z :=
  if iov =? 0 then status_code DFK_HTTP_INTERNAL_SERVER_ERROR else status r.
Definition answer_pieces (iov : Z) (r : dfk_http_response_t) (kvs : list (list Z * list Z)) : list (list Z) :=
  let line := status_line (rs_major_version r) (rs_minor_version r) (answer_status iov r) in
  if iov =? 0 then [line] else response_pieces line kvs.

Definition answered m resp r q kvs (iov : Z) m' : Prop :=
  h_resps m' !! resp = Some (r{{status := answer_status iov r; _headers_flushed := 1}}) /\
  exists k B', (k <= length (answer_pieces iov r kvs))%nat /\
    srep (lget hsponge m') (rs_socket_mock r) (q ++ mjoin (take k (answer_pieces iov r kvs))) B' /\
    (sponge_room (lget hsponge m) (rs_socket_mock r) (Z.of_nat (length (mjoin (answer_pieces iov r kvs)))) ->
     k = length (answer_pieces iov r kvs)).

Lemma no_length_set m resp r v_buf : resp <> 0 -> h_resps m !! resp = Some r -> rs_content_length r = to_size (-1) ->
  wp (flush_content_length malloc literal v_buf resp) m (fun _ m' => m' = m).
Proof.
  intros Hr0 Hr Hcl. unfold flush_content_length. apply wp_bind. eapply wp_deref; [done|exact Hr|].
  apply wp_when_false; [by rewrite Hcl|done].
Qed.

(** From the printing of the status line on. *)
Lemma answer_sent m m1 m2 resp r es kvs q B iov :
  ready_response m1 resp r es kvs q B -> h_resps m2 !! resp = Some (r{{status := answer_status iov r}}) ->
  h_str m2 = h_str m1 -> h_sponges m1 = h_sponges m -> h_sponges m2 = h_sponges m -> 0 <= iov -> (length es < fuel)%nat ->
  wp (zoom hbytes (write_bytes v_sbuf (replicate 128 0));;
      r ← deref resps_of resp;
      ssize ← zoom hbytes (snprintf v_sbuf 128 (status_line (rs_major_version r) (rs_minor_version r) (status r)));
      (if isnull iov then dfk__mocked_write malloc handle fuel resp v_sbuf ssize;; mret tt
       else
         store iovs_of iov (Iovec v_sbuf ssize);;
         it ← zoom hstr (dfk_strmap_begin (rs_headers resp));
         end_ ← zoom hstr (dfk_strmap_end (rs_headers resp));
         i ← loop fuel (fill_iov_body literal iov (4 * Z.of_nat (length es) + 2) end_) (it, 1);
         store iovs_of (iov + IOVEC_T * i) (Iovec (literal CRLF) 2);;
         dfk__mocked_writev malloc handle fuel resp iov (4 * Z.of_nat (length es) + 2);;
         mret tt);;
      update resps_of resp (fun r => r{{_headers_flushed := 1}});;
      mret (err_code dfk_err_ok)) m2
    (fun x m' => x = err_code dfk_err_ok /\ answered m resp r q kvs iov m').
Proof.
  intros [[Hr0 _] _ Hmock Hmap Hhead Hcolon Hcrlf (Hroom & Hend & Hoff) Hrep _] Hr2 Hstr Hsp1 Hsp2 Hiov Hfuel.
  set (r2 := r{{status := answer_status iov r}}) in *. set (line := status_line (rs_major_version r) (rs_minor_version r) (answer_status iov r)).
  assert (hb m2 = hb m1) as Hb2 by (unfold hb; by rewrite Hstr).
  assert (lget hsponge m2 = lget hsponge m1) as Hg2 by (cbn; by rewrite Hstr, Hsp2, Hsp1).
  eapply (print_spec m2 resp r2); [done|exact Hr2|by rewrite Hb2|]. change (status_line _ _ (status r2)) with line.
  destruct (printed_facts line m2 q (rs_socket_mock r) B) as (Hkeep & Hline & Hrep3);
    [apply status_line_length|apply status_line_ne|by destruct Hroom|done|by rewrite Hg2|by rewrite Hg2|].
  set (m3 := printed line m2) in *.
  assert (forall a bs, text_ok v_sbuf m1 (rs_socket_mock r) a bs -> text_ok v_sbuf m2 (rs_socket_mock r) a bs) as H12.
  { intros a bs. apply text_ok_grown; [rewrite Hb2; apply grown_refl|congruence]. }
  assert (h_resps m3 !! resp = Some r2) as Hr3 by exact Hr2.
  assert (h_sponges m3 = h_sponges m2) as Hs3 by done.
  assert (map_rep (h_str m3) (rs_headers resp) es) as Hmap3.
  { apply (map_rep_ext (h_str m1)); [cbn; by rewrite Hstr|cbn; by rewrite Hstr| |done].
    intros e He. apply Hkeep, H12. apply list_elem_of_lookup in He as [j Hj].
    destruct (Forall2_lookup_l _ _ _ _ _ Hhead Hj) as (kv & _ & Hk & Ht & _). by rewrite Hk. }
  apply wp_bind. apply (wp_mono _ _ (fun _ s => sent m3 (rs_socket_mock r) q B (answer_pieces iov r kvs) s)).
  - unfold answer_pieces. fold line. destruct (Z.eqb_spec iov 0) as [->|Hne].
    + apply wp_if_true; [done|]. apply wp_bind.
      eapply (write_sent m3 resp r2 (rs_socket_mock r) q B); [done|exact Hr3|done|done|exact Hrep3|exact Hline|].
      intros x m4 Hsent. by apply wp_ret.
    + apply wp_if_false; [by apply isnull_false|].
      eapply (fill_and_send m3 _ resp r2); [done|exact Hr3|done|done|lia|exact Hmap3|done|done|exact Hrep3|exact Hline| |].
      * eapply (text_block v_sbuf m2); [by apply H12|done| |done]. apply Hkeep. by apply H12.
      * eapply (entries_blocks v_sbuf m2); [| |exact Hkeep|done|by apply H12|by apply H12].
        { eapply Forall2_impl; [exact Hhead|]. intros e kv (Q1 & Q2 & Q3 & Q4). split; [done|].
          split; [by apply H12|]. split; [done|by apply H12]. }
        intros e He. destruct (mr_entries _ _ _ Hmap e He) as [_ [Hk _ _ _]]. exact Hk.
  - intros _ m4 (Hresps & k & Hk & Hrep4 & Hfull). apply wp_bind. eapply wp_update; [done|cbn; by rewrite Hresps|].
    apply wp_ret. split; [done|]. split; [cbn; by rewrite lookup_insert_eq|].
    exists k, B. split; [done|]. split; [exact Hrep4|]. intros Hroom'. apply Hfull.
    destruct Hroom' as (s & Hs & ?). exists s. split; [|done]. cbn [lget hsponge sponges]. rewrite Hs3, Hsp2. exact Hs.
Qed.

Lemma flush_headers_spec m resp r es kvs q B v_buf iov a :
  ready_response m resp r es kvs q B ->
  dfk_arena_alloc malloc (rs_request_arena r) (IOVEC_T * (4 * Z.of_nat (length es) + 2)) (sm_arena (h_str m)) = Ok (iov, a) ->
  0 <= iov -> grown (hb m) (ar_bytes a) -> (length es < fuel)%nat ->
  wp (dfk__http_response_flush_headers malloc handle literal v_buf v_sbuf fuel resp) m
    (fun x m' => x = err_code dfk_err_ok /\ answered m resp r q kvs iov m').
Proof.
  intros Hready Halloc Hiov Hg Hfuel. destruct (ready_grown _ _ _ _ _ _ _ _ Hg Hready) as [B1 Hready1].
  pose proof Hready as [[Hr0 Hr] [Hnew Hcl] _ Hmap _ _ _ _ _ Hnum].
  unfold dfk__http_response_flush_headers. apply wp_bind, wp_assert; [by apply nonnull_true|].
  apply wp_bind. eapply wp_deref; [done|exact Hr|]. rewrite Hnew. apply wp_if_false; [done|].
  apply wp_bind. eapply wp_mono; [by eapply no_length_set|]. intros _ ? ->.
  apply wp_bind, (wp_read_str _ _ (fun n => n = Z.of_nat (length es))).
  { eapply wp_mono; [by apply dfk_strmap_size_spec|]. by intros n t [-> ->]. }
  intros n ->. unfold IOVEC_T, USER_END in Hnum.
  rewrite (to_size_small (4 * _ + 2)) by (unfold SIZE_MOD, SIZE_BITS; lia).
  rewrite to_size_small by (unfold IOVEC_T, SIZE_MOD, SIZE_BITS; lia). rewrite (Z.mul_comm _ IOVEC_T).
  apply wp_bind, wp_zoom. cbn [lget harena]. unfold wp at 1. rewrite Halloc.
  set (m1 := lset harena a m) in *.
  set (r1 := r{{status := answer_status iov r}}).
  set (m2 := (if isnull iov then m1{{h_resps := <[resp := r1]> (h_resps m1)}} else m1) : hm).
  apply wp_bind. apply (wp_mono _ _ (fun _ s => s = m2)).
  { unfold m2, r1, answer_status. destruct (Z.eqb_spec iov 0) as [->|Hne].
    - apply wp_when_true; [done|]. eapply wp_update; [done|exact Hr|done].
    - rewrite isnull_false by done. by apply wp_when_false. }
  intros _ ? ->.
  assert (h_resps m2 !! resp = Some r1) as Hr2.
  { unfold m2, r1, answer_status. destruct (Z.eqb_spec iov 0) as [->|Hne].
    - cbn. by rewrite lookup_insert_eq.
    - rewrite isnull_false by done. change (h_resps m !! resp = Some (r{{status := status r}})). rewrite Hr. by destruct r. }
  assert (h_str m2 = h_str m1 /\ h_sponges m2 = h_sponges m) as [Hstr2 Hsp2] by (unfold m2; by destruct (isnull iov)).
  by eapply (answer_sent m m1).
Qed.

End response.

(** ** Headers that are set before *)

(** Addresses and texts of a name and a value. *)
Record header_arg := HeaderArg { ha_name : Z; ha_ntext : list Z; ha_value : Z; ha_vtext : list Z }.

Definition header_pair (h : header_arg) : list Z * list Z := (ha_ntext h, ha_vtext h).

(** The headers for which there was memory, by the results of the calls. *)
Definition accepted (xs : list Z) (hs : list header_arg) : list header_arg :=
  snd <$> filter (fun p => p.1 = err_code dfk_err_ok) (zip xs hs).

Definition entry_for (e : entry) (h : header_arg) : Prop :=
  e_key e = ha_ntext h /\
  e_item e = Item (Buf (ha_name h) (Z.of_nat (length (ha_ntext h)))) (Buf (ha_value h) (Z.of_nat (length (ha_vtext h)))).

Section headers.
Context {Mem It P W : Type} `{!ListOps Mem It, !ListLaws Mem It}.
#[local] Notation hm := (hmem Mem P W).
Implicit Types m : hm.
Context (malloc : bmem -> Z -> Z) (Hmalloc : malloc_ok malloc).

Fixpoint set_headers (resp : Z) (hs : list header_arg) : M hm (list Z) :=
  match hs with
  | [] => mret []
  | h :: hs =>
      x ← dfk_http_response_set malloc resp (ha_name h) (Z.of_nat (length (ha_ntext h)))
            (ha_value h) (Z.of_nat (length (ha_vtext h)));
      xs ← set_headers resp hs;
      mret (x :: xs)
  end.

(** Storage, sponges and responses are still there. *)
Record kept m m' : Prop := Kept {
  kp_bytes : forall p bs, bytes_at (hb m) p bs -> bytes_at (hb m') p bs;
  kp_room : forall p n, room_at (hb m) p n -> room_at (hb m') p n;
  kp_sponge : forall sp q B, srep (lget hsponge m) sp q B -> exists B', srep (lget hsponge m') sp q B';
  kp_sponges : h_sponges m' = h_sponges m;
  kp_resps : h_resps m' = h_resps m
}.

Lemma kept_refl m : kept m m.
Proof. split; eauto. Qed.

Lemma kept_grown m s m' : grown (hb m) (sm_bytes s) -> kept (lset hstr s m) m' -> kept m m'.
Proof.
  intros Hg [H1 H2 H3 H4 H5]. split; [| | |done|done].
  - intros p bs Hb. apply H1. by eapply bytes_grown.
  - intros p n Hr. apply H2. by eapply room_grown.
  - intros sp q B Hs. destruct (srep_grown (lget hsponge m) (lget hsponge (lset hstr s m)) sp q B) as [B' HB']; [done..|].
    by eapply H3.
Qed.

(** The headers of the response are [hs]; the arena has room for [n] items. *)
Record headers_rep m (resp : Z) (r : dfk_http_response_t) (hs : list header_arg) (n : nat) : Prop := HeadersRep {
  hr_resp : resp <> 0 /\ h_resps m !! resp = Some r;
  hr_items : exists es es0 gs rs os B ub un,
    items_in (h_str m) (rs_request_arena r) (rs_headers resp) es gs rs os B ub un /\ fits (remaining gs) n /\
    es ≡ₚ es0 /\ Forall2 entry_for es0 hs
}.

Lemma entry_for_keys es hs : Forall2 entry_for es hs -> e_key <$> es = ha_ntext <$> hs.
Proof. induction 1 as [|e h es hs [H _] _ IH]; [done|]. cbn. by rewrite H, IH. Qed.

(** A name and a value: not empty, the name without NUL. *)
Definition header_ok m (h : header_arg) : Prop :=
  ha_ntext h <> [] /\ no_nul (ha_ntext h) /\ bytes_at (hb m) (ha_name h) (ha_ntext h) /\
  ha_vtext h <> [] /\ 0 < ha_value h.

Lemma nonempty_size (bs : list Z) : bs <> [] -> negb (Z.of_nat (length bs) =? 0) = true.
Proof. intros Hne. apply negb_true_iff, Z.eqb_neq. destruct bs; [done|cbn; lia]. Qed.

Lemma response_set_spec m resp r hs n h (Q : Z -> hm -> Prop) :
  headers_rep m resp r hs (S n) -> header_ok m h ->
  prefix_free ((ha_ntext <$> hs) ++ [ha_ntext h]) -> NoDup ((ha_ntext <$> hs) ++ [ha_ntext h]) ->
  Q (err_code dfk_err_nomem) m ->
  (forall s, grown (hb m) (sm_bytes s) -> headers_rep (lset hstr s m) resp r (hs ++ [h]) n ->
    Q (err_code dfk_err_ok) (lset hstr s m)) ->
  wp (dfk_http_response_set malloc resp (ha_name h) (Z.of_nat (length (ha_ntext h))) (ha_value h) (Z.of_nat (length (ha_vtext h)))) m Q.
Proof.
  intros [[Hr0 Hr] (es & es0 & gs & rs & os & B & ub & un & Hit & [Hfull Hfits] & Hperm & Hes)]
    (Hn0 & Hnul & Hnb & Hv0 & Hvp) Hpf Hnd Hno Hyes.
  destruct (new_key es es0 (ha_ntext <$> hs) (ha_ntext h) Hperm (entry_for_keys _ _ Hes) Hpf Hnd) as [Hext Hex].
  destruct Hnb as [Hnp Hnb]. unfold dfk_http_response_set, check_header.
  apply wp_bind, wp_bind, wp_assert; [by apply nonnull_true|].
  apply wp_bind, wp_assert; [by rewrite nonnull_true, nonempty_size by (done || lia)|].
  apply wp_assert; [by rewrite nonnull_true, nonempty_size by (done || lia)|].
  apply wp_bind. eapply wp_deref; [done|exact Hr|].
  eapply (new_item malloc Hmalloc m _ _ es gs rs os B ub un _ _ _ _ (ha_ntext h)); [done|done| | |done| |].
  - by split.
  - left. lia.
  - intros _. by apply wp_ret.
  - intros s a gs' rs' es' Hit' Hafter Hrem Hg. apply wp_ret. apply Hyes; [done|].
    unfold entries_after in Hafter. rewrite decide_False in Hafter by done. split; [done|].
    set (e := Entry a _ _) in *. exists es', (es0 ++ [e]), gs', rs', os, B, ub, un.
    split; [done|]. split; [by rewrite Hrem|]. split; [rewrite Hafter, Hperm; apply Permutation_cons_append|].
    apply Forall2_app; [done|]. constructor; [by split|constructor].
Qed.

Lemma set_headers_spec hs : forall m resp r done_ n,
  headers_rep m resp r done_ (length hs + n) -> Forall (header_ok m) hs ->
  prefix_free (ha_ntext <$> done_ ++ hs) -> NoDup (ha_ntext <$> done_ ++ hs) ->
  wp (set_headers resp hs) m (fun xs m' => length xs = length hs /\ kept m m' /\
    headers_rep m' resp r (done_ ++ accepted xs hs) n).
Proof.
  induction hs as [|h hs IH]; intros m resp r done_ n Hrep Hok Hpf Hnd; cbn [set_headers].
  { apply wp_ret. split; [done|]. split; [apply kept_refl|]. by rewrite app_nil_r. }
  apply Forall_cons in Hok as [Hh Hok]. rewrite fmap_app in Hpf, Hnd. cbn [fmap list_fmap] in Hpf, Hnd.
  assert (forall x, x ∈ (ha_ntext <$> done_) ++ [ha_ntext h] -> x ∈ (ha_ntext <$> done_) ++ ha_ntext h :: (ha_ntext <$> hs)) as Hsub.
  { set_solver. }
  assert (NoDup ((ha_ntext <$> done_) ++ [ha_ntext h])) as Hnd1.
  { change (ha_ntext h :: (ha_ntext <$> hs)) with ([ha_ntext h] ++ (ha_ntext <$> hs)) in Hnd.
    rewrite app_assoc in Hnd. by apply NoDup_app in Hnd as (? & _). }
  apply wp_bind. eapply response_set_spec; [exact Hrep|exact Hh|by eapply prefix_free_sub|exact Hnd1| |].
  - apply wp_bind. eapply wp_mono; [apply (IH m resp r done_ n)|].
    + destruct Hrep as [H1 (es & es0 & gs & rs & os & B & ub & un & H2 & H3 & H4)]. split; [done|].
      exists es, es0, gs, rs, os, B, ub, un. split; [done|]. split; [by apply fits_mono|done].
    + done.
    + eapply prefix_free_sub; [|exact Hpf]. rewrite fmap_app. set_solver.
    + rewrite fmap_app. apply NoDup_app in Hnd as (H1 & H2 & H3). apply NoDup_cons in H3 as [_ H3].
      apply NoDup_app. split; [done|]. split; [|done]. intros x Hx Hx'. apply (H2 x Hx). by apply elem_of_cons; right.
    + intros xs m' (Hl & Hk & Hrep'). apply wp_ret. split; [cbn; by rewrite Hl|]. split; [done|]. exact Hrep'.
  - intros s Hg Hrep'. apply wp_bind. eapply wp_mono; [apply (IH (lset hstr s m) resp r (done_ ++ [h]) n)|].
    + done.
    + eapply Forall_impl; [exact Hok|]. intros h' (H1 & H2 & H3 & H4). split; [done|]. split; [done|]. split; [|done].
      by eapply bytes_grown.
    + rewrite <- app_assoc. cbn [app]. by rewrite fmap_app.
    + rewrite <- app_assoc. cbn [app]. by rewrite fmap_app.
    + intros xs m' (Hl & Hk & Hrep2). apply wp_ret. split; [cbn; by rewrite Hl|]. split; [by eapply kept_grown|].
      rewrite <- app_assoc in Hrep2. exact Hrep2.
Qed.

(** ** From the headers to the text *)

Lemma perm_Forall2 {A B} (R : A -> B -> Prop) l l' k : l ≡ₚ l' -> Forall2 R l' k -> exists k', k ≡ₚ k' /\ Forall2 R l k'.
Proof.
  intros Hp. revert k. induction Hp as [|x l l' _ IH|x y l|l l' l'' _ IH1 _ IH2]; intros k Hf.
  - apply Forall2_nil_inv_l in Hf as ->. by exists [].
  - apply Forall2_cons_inv_l in Hf as (z & k' & Hz & Hf & ->). destruct (IH k' Hf) as (k2 & Hk & Hf2).
    exists (z :: k2). split; [by rewrite Hk|by constructor].
  - apply Forall2_cons_inv_l in Hf as (z & k' & Hz & Hf & ->). apply Forall2_cons_inv_l in Hf as (w & k2 & Hw & Hf & ->).
    exists (w :: z :: k2). split; [constructor|]. by repeat constructor.
  - destruct (IH2 k Hf) as (k1 & Hk1 & Hf1). destruct (IH1 k1 Hf1) as (k2 & Hk2 & Hf2). exists k2. split; [by rewrite Hk1|done].
Qed.

Lemma accepted_length xs hs : (length (accepted xs hs) <= length hs)%nat.
Proof.
  unfold accepted. rewrite length_fmap. etrans; [apply length_filter|]. rewrite length_zip_with. lia.
Qed.

Lemma accepted_in xs hs h : h ∈ accepted xs hs -> h ∈ hs.
Proof.
  intros Hin. apply list_elem_of_fmap in Hin as ([x h'] & -> & Hin). apply list_elem_of_filter in Hin as [_ Hin].
  by apply elem_of_zip_r in Hin.
Qed.

Context (literal : string -> Z) (handle : forall X, netE X -> M hm X) (v_sbuf : Z) (fuel : nat).

(** A mocked response without headers, and what the sponge must be able to
    take: nothing of it is in the sponge or in the local buffer. *)
Record new_response m (resp : Z) (r : dfk_http_response_t) (hs : list header_arg) (q : list Z) (B : gmap Z Z) : Prop := NewResponse {
  nr_rep : headers_rep m resp r [] (length hs + 1);
  nr_new : _headers_flushed r = 0 /\ rs_content_length r = to_size (-1) /\ rs_socket_mocked r = true;
  nr_texts : Forall (fun h => no_nul (ha_ntext h) /\ text_ok v_sbuf m (rs_socket_mock r) (ha_name h) (ha_ntext h) /\
    text_ok v_sbuf m (rs_socket_mock r) (ha_value h) (ha_vtext h)) hs;
  nr_colon : text_ok v_sbuf m (rs_socket_mock r) (literal ": ") (text ": ");
  nr_crlf : text_ok v_sbuf m (rs_socket_mock r) (literal CRLF) (text CRLF);
  nr_local : room_at (hb m) v_sbuf 128 /\ v_sbuf + 128 <= USER_END /\
    off_sponge (lget hsponge m) (rs_socket_mock r) v_sbuf 128;
  nr_sponge : srep (lget hsponge m) (rs_socket_mock r) q B;
  nr_number : IOVEC_T * (4 * Z.of_nat (length hs) + 2) <= USER_END
}.

Lemma text_kept m m' sp a bs : kept m m' -> text_ok v_sbuf m sp a bs -> text_ok v_sbuf m' sp a bs.
Proof.
  intros [H1 _ _ Hs _] [Q1 Q2 Q3 Q4 Q5]. split; [done|by apply H1| |done|done]. intros s. cbn. rewrite Hs. apply Q3.
Qed.

Lemma response_ready m m1 resp r hs xs q B : new_response m resp r hs q B -> kept m m1 ->
  headers_rep m1 resp r (accepted xs hs) 1 ->
  exists es kvs B1 gs rs os Bk ub un, ready_response literal v_sbuf m1 resp r es kvs q B1 /\
    kvs ≡ₚ (header_pair <$> accepted xs hs) /\ StronglySorted key_gt kvs.*1 /\ length es = length kvs /\
    arena_rep (sm_arena (h_str m1)) (rs_request_arena r) gs rs os Bk ub un /\ ~ full (remaining gs).
Proof.
  intros [_ (Hn1 & Hn2 & Hn3) Htexts Hcolon Hcrlf (Hl1 & Hl2 & Hl3) Hsp Hnum] Hk
    [Hobj (es & es0 & gs & rs & os & Bk & ub & un & [Harena Hmap _] & [Hfull _] & Hperm & Hes)].
  destruct (perm_Forall2 _ _ _ _ Hperm Hes) as (acc & Hacc & Hf).
  destruct (kp_sponge _ _ Hk _ _ _ Hsp) as [B1 Hsp1].
  assert (length es = length acc) as Hlen by by eapply Forall2_length.
  assert ((header_pair <$> acc).*1 = e_key <$> es) as Hkeys.
  { rewrite (entry_for_keys _ _ Hf), <- list_fmap_compose. done. }
  exists es, (header_pair <$> acc), B1, gs, rs, os, Bk, ub, un. split; [|split_and!].
  - split; try done.
    + apply Forall2_fmap_r. apply Forall2_same_length_lookup. split; [done|]. intros i e h He Hh.
      destruct (Forall2_lookup_lr _ _ _ _ _ _ Hf He Hh) as [E1 E2].
      rewrite Forall_forall in Htexts. destruct (Htexts h) as (T1 & T2 & T3).
      { apply list_elem_of_lookup_2 in Hh. rewrite <- Hacc in Hh. by eapply accepted_in. }
      unfold header_text. rewrite E2. cbn [key value b_data b_size header_pair fst snd].
      split; [done|]. split; [by eapply text_kept|]. split; [done|by eapply text_kept].
    + by eapply text_kept.
    + by eapply text_kept.
    + split; [by apply (kp_room _ _ Hk)|]. split; [done|]. intros s. cbn. rewrite (kp_sponges _ _ Hk). apply Hl3.
    + rewrite Hlen, <- Hacc. pose proof (accepted_length xs hs). unfold IOVEC_T in *. lia.
  - by rewrite Hacc.
  - rewrite Hkeys. pose proof (mr_sorted _ _ _ Hmap) as Hs. clear -Hs.
    induction Hs as [|e es Hs IH Hf]; cbn; constructor; [done|]. by apply Forall_fmap.
  - by rewrite length_fmap.
  - done.
  - done.
Qed.

End headers.
