(* ===== verification/HttpQuery.v ===== *)
(** * Queries: what [parse_query] makes of [key=value&key=value] *)

From S2P Require Import HttpData Prelude ListSpec Bytes Arena ArenaTheorems Avl Error Misc UrlEncoding UrlTheorems StrMap StrMapTheorems Sponge Interact Socket HttpRequest HttpBody HttpStore.

(** ** Texts *)

Notation pair_t := (list Z * list Z)%type.

Definition pair_text (kv : pair_t) : list Z := kv.1 ++ 61 :: kv.2.

Fixpoint query_text (kvs : list pair_t) : list Z :=
  match kvs with
  | [] => []
  | [kv] => pair_text kv
  | kv :: kvs => pair_text kv ++ 38 :: query_text kvs
  end.

(** A key and a value the syntax can express. *)
Definition pair_ok (kv : pair_t) : Prop :=
  kv.1 <> [] /\ 61 ∉ kv.1 /\ no_nul kv.1 /\ kv.2 <> [] /\ 38 ∉ kv.2.

Section query.
Context {Mem It P W : Type} `{!ListOps Mem It, !ListLaws Mem It}.
#[local] Notation hm := (hmem Mem P W).
Implicit Types m : hm.
Context (malloc : bmem -> Z -> Z) (Hmalloc : malloc_ok malloc) (req end_ : Z).

#[local] Notation body := (query_body malloc req end_).
#[local] Notation run := (fun fuel v => loop fuel body v).

(** ** One character *)

Lemma state0_step m fuel kb ke vb i (Q : query_vars + Z -> hm -> Prop) : i <> end_ ->
  wp (run fuel (QueryVars 1 i ke vb (i + 1))) m Q -> wp (run (S fuel) (QueryVars 0 kb ke vb i)) m Q.
Proof.
  intros Hi Hk. apply wp_loop_step. unfold query_body. cbn [qi state].
  rewrite (proj2 (Z.eqb_neq _ _) Hi). cbn. apply wp_ret. exact Hk.
Qed.

Lemma state2_step m fuel kb ke vb i (Q : query_vars + Z -> hm -> Prop) : i <> end_ ->
  wp (run fuel (QueryVars 3 kb ke i (i + 1))) m Q -> wp (run (S fuel) (QueryVars 2 kb ke vb i)) m Q.
Proof.
  intros Hi Hk. apply wp_loop_step. unfold query_body. cbn [qi state].
  rewrite (proj2 (Z.eqb_neq _ _) Hi). cbn. apply wp_ret. exact Hk.
Qed.

Lemma wp_load_h m p b {A} (k : Z -> M hm A) (Q : A -> hm -> Prop) : p <> 0 -> cells (hb m) !! p = Some (Some b) ->
  wp (k b) m Q -> wp (c ← zoom hbytes (load p); k c) m Q.
Proof.
  intros Hp Hl Hk. apply wp_bind, wp_zoom. eapply wp_load; [done|exact Hl|].
  replace (lset hbytes (lget hbytes m) m) with m; [done|]. by destruct m as [[? [] ?] ? ? ? ? ? ? ? ? ? ? ?].
Qed.

(** The rest of a key, and the sign that ends it. *)
Lemma key_steps ks : forall m fuel kb ke vb i (Q : query_vars + Z -> hm -> Prop),
  61 ∉ ks -> bytes_at (hb m) i (ks ++ [61]) -> i + Z.of_nat (length ks) < end_ ->
  wp (run fuel (QueryVars 2 kb (i + Z.of_nat (length ks)) vb (i + Z.of_nat (length ks) + 1))) m Q ->
  wp (run (length ks + S fuel)%nat (QueryVars 1 kb ke vb i)) m Q.
Proof.
  induction ks as [|c ks IH]; intros m fuel kb ke vb i Q Hno Hb Hend Hk.
  - cbn [length app Nat.add] in *. rewrite Z.add_0_r in *. apply bytes_cons in Hb as (Hp & Hc & _).
    apply wp_loop_step. unfold query_body. cbn [qi state]. rewrite (proj2 (Z.eqb_neq i end_)) by lia. cbn -[wp zoom].
    eapply wp_load_h; [lia|exact Hc|]. apply wp_ret. exact Hk.
  - cbn [app] in Hb. apply bytes_cons in Hb as (Hp & Hc & Hb). apply not_elem_of_cons in Hno as [Hc61 Hno].
    cbn [length] in *. cbn [Nat.add]. apply wp_loop_step. unfold query_body. cbn [qi state].
    rewrite (proj2 (Z.eqb_neq i end_)) by lia. cbn -[wp zoom].
    eapply wp_load_h; [lia|exact Hc|]. rewrite (proj2 (Z.eqb_neq c 61)) by done. apply wp_ret. cbn -[wp loop].
    apply IH; [done|done|lia|]. by replace (i + 1 + Z.of_nat (length ks)) with (i + Z.of_nat (S (length ks))) by lia.
Qed.

(** The rest of a value. *)
Lemma value_steps vs : forall m fuel kb ke vb i (Q : query_vars + Z -> hm -> Prop),
  38 ∉ vs -> bytes_at (hb m) i vs -> i + Z.of_nat (length vs) <= end_ ->
  wp (run fuel (QueryVars 3 kb ke vb (i + Z.of_nat (length vs)))) m Q ->
  wp (run (length vs + fuel)%nat (QueryVars 3 kb ke vb i)) m Q.
Proof.
  induction vs as [|c vs IH]; intros m fuel kb ke vb i Q Hno Hb Hend Hk.
  - cbn [length Nat.add] in *. by rewrite Z.add_0_r in Hk.
  - apply bytes_cons in Hb as (Hp & Hc & Hb). apply not_elem_of_cons in Hno as [Hc38 Hno].
    cbn [length] in *. cbn [Nat.add]. apply wp_loop_step. unfold query_body. cbn [qi state].
    rewrite (proj2 (Z.eqb_neq i end_)) by lia. cbn -[wp zoom].
    eapply wp_load_h; [lia|exact Hc|]. rewrite (proj2 (Z.eqb_neq c 38)) by done. apply wp_ret. cbn -[wp loop].
    apply IH; [done|done|lia|]. by replace (i + 1 + Z.of_nat (length vs)) with (i + Z.of_nat (S (length vs))) by lia.
Qed.

(** A whole pair: [i] is where its key starts. *)
Lemma pair_steps kv m fuel kb ke vb i (Q : query_vars + Z -> hm -> Prop) :
  pair_ok kv -> bytes_at (hb m) i (pair_text kv) -> i + Z.of_nat (length (pair_text kv)) <= end_ ->
  wp (run fuel (QueryVars 3 i (i + Z.of_nat (length kv.1)) (i + Z.of_nat (length kv.1) + 1)
    (i + Z.of_nat (length (pair_text kv))))) m Q ->
  wp (run (length (pair_text kv) + fuel)%nat (QueryVars 0 kb ke vb i)) m Q.
Proof.
  destruct kv as [k v]. unfold pair_text. cbn [fst snd]. intros (Hk0 & Hk61 & _ & Hv0 & Hv38) Hb Hend Hw.
  destruct k as [|c k]; [done|]. destruct v as [|d v]; [done|]. cbn [fst snd] in *.
  apply not_elem_of_cons in Hk61 as [_ Hk61]. apply not_elem_of_cons in Hv38 as [_ Hv38].
  rewrite length_app in *. cbn [length app] in *. apply bytes_cons in Hb as (Hp & _ & Hb).
  replace (S (length k) + S (S (length v)) + fuel)%nat with (S (length k + S (S (length v + fuel))))%nat by lia.
  apply state0_step; [lia|].
  change (k ++ 61 :: d :: v) with (k ++ [61] ++ (d :: v)) in Hb. rewrite app_assoc in Hb.
  apply bytes_app in Hb as [Hbk (_ & Hbv)]. rewrite length_app in Hbv. cbn [length] in Hbv.
  apply key_steps; [done|done|lia|].
  apply state2_step; [lia|]. apply bytes_cons in Hbv as (_ & _ & Hbv).
  replace (i + 1 + Z.of_nat (length k) + 1 + 1) with (i + 1 + Z.of_nat (length k + 1) + 1) by lia.
  apply value_steps; [done|done|lia|].
  match goal with H : wp (loop _ _ ?v) _ _ |- wp (loop _ _ ?u) _ _ => replace u with v; [exact H|] end. f_equal; lia.
Qed.

(** ** Arguments *)

(** Entry [e] is the argument [kv]. *)
Definition argument_of m (e : entry) (kv : pair_t) : Prop :=
  e_key e = kv.1 /\ b_size (value (e_item e)) = Z.of_nat (length kv.2) /\ bytes_at (hb m) (b_data (value (e_item e))) kv.2.

(** The arguments of the request are [kvs]; the arena has room for [n] more. *)
Record arguments_rep m (r : dfk_http_request_t) (kvs : list pair_t) (n : nat) : Prop := ArgumentsRep {
  gr_req : req <> 0 /\ h_reqs m !! req = Some r;
  gr_items : exists es es0 gs rs os B ub un,
    items_in (h_str m) (_request_arena r) (arguments req) es gs rs os B ub un /\ fits (remaining gs) n /\
    es ≡ₚ es0 /\ Forall2 (argument_of m) es0 kvs
}.

Lemma argument_grown m s e kv : grown (hb m) (sm_bytes s) -> argument_of m e kv -> argument_of (lset hstr s m) e kv.
Proof. intros Hg (H1 & H2 & H3). split; [done|]. split; [done|]. by eapply bytes_grown. Qed.

Lemma argument_keys m es0 kvs : Forall2 (argument_of m) es0 kvs -> e_key <$> es0 = kvs.*1.
Proof. induction 1 as [|e kv es0 kvs (H & _) _ IH]; [done|]. cbn. by rewrite H, IH. Qed.

Lemma add_argument_spec m r kvs n kv kb vb (Q : Z -> hm -> Prop) :
  arguments_rep m r kvs (S n) -> pair_ok kv -> bytes_at (hb m) kb kv.1 -> bytes_at (hb m) vb kv.2 ->
  prefix_free ((kvs ++ [kv]).*1) -> NoDup ((kvs ++ [kv]).*1) ->
  (refused malloc (hb m) ITEM_T -> Q (err_code dfk_err_nomem) m) ->
  (forall s, grown (hb m) (sm_bytes s) -> arguments_rep (lset hstr s m) r (kvs ++ [kv]) n ->
    Q (err_code dfk_err_ok) (lset hstr s m)) ->
  wp (dfk_http_request_add_argument malloc req kb (kb + Z.of_nat (length kv.1)) vb (vb + Z.of_nat (length kv.2))) m Q.
Proof.
  intros [[Hr0 Hr] (es & es0 & gs & rs & os & B & ub & un & Hit & [Hfull Hfits] & Hperm & Hargs)]
    (Hk0 & _ & Hnul & Hv0 & _) Hkb Hvb Hpf Hnd Hno Hyes.
  rewrite fmap_app in Hpf, Hnd. destruct (new_key es es0 kvs.*1 kv.1 Hperm (argument_keys _ _ _ Hargs) Hpf Hnd) as [Hext Hex].
  unfold dfk_http_request_add_argument. apply wp_bind, wp_assert; [apply Z.leb_le; lia|].
  apply wp_bind, wp_assert; [apply Z.leb_le; lia|]. apply wp_bind. eapply wp_deref; [done|exact Hr|].
  rewrite !Z.add_simpl_l.
  eapply (new_item malloc Hmalloc m _ _ es gs rs os B ub un kb _ vb _ kv.1); [done|done| | |done| |].
  - split; [done|exact Hkb|done|done].
  - left. destruct Hvb. lia.
  - intros Hno'. by apply wp_ret, Hno.
  - intros s a gs' rs' es' Hit' Hafter Hrem Hg. apply wp_ret. apply Hyes; [done|].
    unfold entries_after in Hafter. rewrite decide_False in Hafter by done. split; [done|].
    set (e := Entry a kv.1 _) in *. exists es', (es0 ++ [e]), gs', rs', os, B, ub, un.
    split; [done|]. split; [by rewrite Hrem|]. split.
    + rewrite Hafter, Hperm. apply Permutation_cons_append.
    + apply Forall2_app.
      * eapply Forall2_impl; [exact Hargs|]. intros e' kv' He'. by apply argument_grown.
      * constructor; [|constructor]. split; [done|]. split; [done|]. by eapply bytes_grown.
Qed.

(** ** The whole query *)

Context (fuel0 : nat).

Definition arguments_end (x : query_vars + Z) : M hm Z :=
  match x with
  | inr err => mret err
  | inl v =>
      if negb (state v =? 0) && negb (state v =? 3) then mret (err_code dfk_err_protocol)
      else if state v =? 3 then
        err ← dfk_http_request_add_argument malloc req (key_begin v) (key_end v) (value_begin v) end_;
        if negb (err =? err_code dfk_err_ok) then mret err else mret (err_code dfk_err_ok)
      else mret (err_code dfk_err_ok)
  end.

Lemma query_text_cons kv kv' kvs : query_text (kv :: kv' :: kvs) = pair_text kv ++ 38 :: query_text (kv' :: kvs).
Proof. done. Qed.

Lemma arguments_loop kvs : forall m r done_ fuel kb ke vb i,
  kvs <> [] -> Forall pair_ok kvs -> arguments_rep m r done_ (length kvs) ->
  prefix_free ((done_ ++ kvs).*1) -> NoDup ((done_ ++ kvs).*1) ->
  bytes_at (hb m) i (query_text kvs) -> i + Z.of_nat (length (query_text kvs)) = end_ ->
  (length (query_text kvs) < fuel)%nat ->
  wp (loop fuel body (QueryVars 0 kb ke vb i)) m (fun x s => wp (arguments_end x) s (fun x m' =>
    x = err_code dfk_err_nomem /\ starved malloc (hb m) (length kvs) ARENA_SEGMENT_SIZE \/
    x = err_code dfk_err_ok /\ arguments_rep m' r (done_ ++ kvs) 0)).
Proof.
  induction kvs as [|kv kvs IH]; intros m r done_ fuel kb ke vb i Hne Hok Hrep Hpf Hnd Hb Hend Hf; [done|].
  apply Forall_cons in Hok as [Hkv Hok]. destruct kvs as [|kv' kvs].
  - (* the last pair ends with the query *)
    cbn [query_text] in *. replace fuel with (length (pair_text kv) + S (fuel - length (pair_text kv) - 1))%nat by lia.
    apply pair_steps; [done|done|lia|]. apply wp_loop_step. unfold query_body. cbn [qi].
    rewrite Hend, Z.eqb_refl. apply wp_ret. cbn [arguments_end state key_begin key_end value_begin].
    apply wp_if_false; [done|]. apply wp_if_true; [done|]. apply wp_bind.
    assert (bytes_at (hb m) i kv.1 /\ bytes_at (hb m) (i + Z.of_nat (length kv.1) + 1) kv.2) as [Hk Hv].
    { apply bytes_app in Hb as [H1 (_ & H2)]. apply bytes_cons in H2 as (_ & _ & H2). done. }
    replace end_ with (i + Z.of_nat (length kv.1) + 1 + Z.of_nat (length kv.2))
      by (rewrite <- Hend; unfold pair_text; rewrite length_app; cbn [length]; lia).
    eapply add_argument_spec; [exact Hrep|done|done|done|done|done| |].
    + intros Hno. apply wp_if_true; [done|]. apply wp_ret. left. split; [done|]. by eapply starved_now.
    + intros s Hg Hrep'. apply wp_if_false; [done|]. apply wp_ret. by right.
  - (* a pair that is followed by another *)
    rewrite query_text_cons in *. rewrite length_app in *. cbn [length] in Hend, Hf.
    set (n := length (pair_text kv)) in *.
    replace fuel with (n + S (fuel - n - 1))%nat by lia.
    apply bytes_app in Hb as [Hb (_ & Hb')]. apply bytes_cons in Hb' as (Hp' & Hamp & Hb'). fold n in Hamp, Hp', Hb'.
    apply pair_steps; [done|done|fold n; lia|]. fold n. apply wp_loop_step. unfold query_body. cbn [qi state].
    rewrite (proj2 (Z.eqb_neq (i + Z.of_nat n) end_)) by lia. cbn -[wp zoom].
    eapply wp_load_h; [lia|exact Hamp|]. cbn -[wp zoom]. apply wp_bind.
    assert (bytes_at (hb m) i kv.1 /\ bytes_at (hb m) (i + Z.of_nat (length kv.1) + 1) kv.2) as [Hk Hv].
    { apply bytes_app in Hb as [H1 (_ & H2)]. apply bytes_cons in H2 as (_ & _ & H2). done. }
    replace (i + Z.of_nat n) with (i + Z.of_nat (length kv.1) + 1 + Z.of_nat (length kv.2)) at 1
      by (unfold n, pair_text; rewrite length_app; cbn [length]; lia).
    change (kv :: kv' :: kvs) with ([kv] ++ kv' :: kvs) in *. rewrite app_assoc in *.
    eapply add_argument_spec; [exact Hrep|done|done|done| | | |].
    + eapply prefix_free_sub; [|exact Hpf]. intros x Hx. rewrite fmap_app. set_solver.
    + rewrite fmap_app in Hnd. by apply NoDup_app in Hnd as (? & _).
    + intros Hno. apply wp_if_true; [done|]. apply wp_ret. apply wp_ret. left. split; [done|]. by eapply starved_now.
    + intros s Hg Hrep'. apply wp_if_false; [done|]. apply wp_ret.
      eapply wp_mono; [eapply (IH (lset hstr s m) r (done_ ++ [kv])); [done|done|exact Hrep'|done|done| |lia|lia]|].
      { eapply bytes_grown; [exact Hg|]. exact Hb'. }
      intros x' s' Hw. eapply wp_mono; [exact Hw|]. intros y m' [[-> Hst]|Hy]; [|by right].
      left. split; [done|]. by eapply starved_later.
Qed.

End query.

Section parse.
Context {Mem It P W : Type} `{!ListOps Mem It, !ListLaws Mem It}.
#[local] Notation hm := (hmem Mem P W).
Implicit Types m : hm.
Context (malloc : bmem -> Z -> Z) (Hmalloc : malloc_ok malloc).

(** Request [r] has the query [q] and no arguments yet. *)
Record query_at m (req : Z) (r : dfk_http_request_t) (q : list Z) (gs : list gseg) : Prop := QueryAt {
  qa_req : req <> 0 /\ h_reqs m !! req = Some r;
  qa_size : b_size (query r) = Z.of_nat (length q) /\ q <> [] /\ Forall byte q;
  qa_bytes : bytes_at (hb m) (b_data (query r)) q;
  qa_items : exists rs os B, items_in (h_str m) (_request_arena r) (arguments req) [] gs rs os B
    (b_data (query r)) (b_size (query r))
}.

(** The buffer of the decoded query. *)
Lemma region_place (a : armem Mem) arena gs rs p n os B ub un : arena_rep a arena gs (rs ++ [Region p n None]) os B ub un ->
  0 < un -> room_at (ar_bytes a) p n /\ follows p ub un /\ ub + un < SIZE_MOD.
Proof.
  intros [_ _ _ H4 _ _ _ H8 _ _ (_ & H0 & Hue & Hap)] Hun.
  destruct (H8 (Region p n None) ltac:(set_solver)) as [Hn (g & Hg & Hi1 & Hi2) _]. cbn in Hn, Hi1, Hi2.
  destruct (H4 g Hg) as [Q1 Q2 Q3 Q4 Q5 Q6 Q7]. specialize (Hap g Hg). unfold SEGMENT_T, USER_END in *. split; [|split].
  - replace p with (g_addr g + (p - g_addr g)) by lia.
    eapply room_mono; [|apply (room_tail _ _ (g_block g)); [lia|exact Q7]]. lia.
  - unfold follows. unfold apart_ranges in Hap. lia.
  - unfold SIZE_MOD, SIZE_BITS. lia.
Qed.

Lemma parse_query_spec fuel m req r q gs kvs :
  query_at m req r q gs -> url_decode q = (query_text kvs, []) -> kvs <> [] -> Forall pair_ok kvs ->
  prefix_free kvs.*1 -> NoDup kvs.*1 ->
  ~ full (remaining gs) -> fits (Some (take_bytes (remaining gs) (Z.of_nat (length q)))) (length kvs) ->
  (length q < fuel)%nat ->
  wp (parse_query malloc fuel req) m (fun x m' =>
    x = err_code dfk_err_nomem /\
      starved malloc (hb m) (S (length kvs)) (Z.max ARENA_SEGMENT_SIZE (Z.of_nat (length q) + SEGMENT_T)) \/
    x = err_code dfk_err_ok /\ arguments_rep req m' r kvs 0).
Proof.
  intros [[Hr0 Hr] (Hsz & Hq0 & Hbyte) Hq (rs & os & B & [Harena Hmap _])] Hdec Hne Hok Hpf Hnd Hfull Hfits Hfuel.
  assert (0 < Z.of_nat (length q)) as Hlen by (destruct q; [done|cbn; lia]).
  unfold parse_query. apply wp_bind. eapply wp_deref; [done|exact Hr|]. rewrite Hsz in *.
  apply wp_if_false; [apply Z.eqb_neq; lia|]. apply wp_bind, wp_zoom.
  pose proof (ar_user _ _ _ _ _ _ _ _ Harena) as (_ & _ & Hue & _).
  assert (0 < Z.of_nat (length q) <= USER_END) as Hend0 by (split; [done|destruct Hq; lia]).
  eapply wp_mono; [apply wp_wlp; [apply wp_wlp; [eapply dfk_arena_alloc_spec; [done|exact Harena|done|done]|
    by apply arena_alloc_grows]|by apply arena_alloc_null]|].
  intros a ar [[[[-> ->]|(Ha & Hsame & gs' & Har & Hrem)] Hg] Hnull].
  { apply wp_if_true; [done|]. apply wp_ret. left. split; [done|]. eapply starved_now; [by apply Hnull|done]. }
  apply wp_if_false; [apply isnull_false; lia|].
  destruct (region_place _ _ _ _ _ _ _ _ _ _ Har Hlen) as (Hroom & Hfol & Hend).
  destruct (url_decode_split q) as (k & Hk1 & Hk2 & _). rewrite Hdec in Hk1, Hk2. cbn in Hk1, Hk2.
  set (m1 := lset harena ar m).
  apply wp_bind, wp_zoom. eapply wp_mono; [eapply (dfk_urldecode_spec (lget hbytes m1) _ a q); [done| | |done|done]|].
  { by eapply (bytes_grown (hb m)). }
  { rewrite Hdec. cbn [fst]. eapply room_mono; [|exact Hroom]. lia. }
  intros x b [-> ->]. rewrite Hdec. cbn [fst snd length]. rewrite Z.sub_0_r, Z.eqb_refl. apply wp_if_false; [done|].
  set (m2 := lset hbytes _ m1).
  assert (arguments_rep req m2 r [] (length kvs)) as Hrep2.
  { split; [done|]. exists [], [], gs', (rs ++ [Region a (Z.of_nat (length q)) (Some (query_text kvs))]), os, B,
      (b_data (query r)), (Z.of_nat (length q)). split; [|split; [by rewrite Hrem|done]]. split.
    - apply (fill_region malloc Hmalloc ar _ gs' rs a (Z.of_nat (length q)) (query_text kvs)); [exact Har|lia].
    - destruct Hmap as [Ht He Hs]. split; [exact Ht|by intros e ?%not_elem_of_nil|done].
    - by intros e ?%not_elem_of_nil. }
  assert (0 < length (query_text kvs))%nat as Hdl.
  { destruct kvs as [|kv [|kv' kvs]]; [done|..]; unfold query_text; fold query_text; unfold pair_text; rewrite !length_app; cbn [length]; lia. }
  unfold parse_arguments. apply wp_bind.
  eapply wp_mono; [eapply (arguments_loop malloc Hmalloc req (a + Z.of_nat (length (query_text kvs))) kvs m2 r [] fuel 0 0 0 a); try done|].
  - apply bytes_put_same. lia.
  - lia.
  - intros x' s' Hw. eapply wp_mono; [exact Hw|]. intros y m' [[-> Hst]|Hy]; [left; split; [done|]|by right].
    eapply starved_later; [exact Hg|]. apply (starved_blocks _ _ (hb m2)); [done|].
    destruct Hst as (b1 & j & H1 & H2 & H3 & H4). exists b1, j. split; [done|]. split; [done|]. split; [lia|done].
Qed.

(** ** Looking arguments up *)

Lemma arguments_get m req r kvs k v kd : arguments_rep req m r kvs 0 -> prefix_free kvs.*1 ->
  (k, v) ∈ kvs -> key_ok (h_str m) (Buf kd (Z.of_nat (length k))) k ->
  exists d, dfk_strmap_get (arguments req) kd (Z.of_nat (length k)) (h_str m) = Ok (Buf d (Z.of_nat (length v)), h_str m) /\
    bytes_at (hb m) d v.
Proof.
  intros [_ (es & es0 & gs & rs & os & B & ub & un & [_ Hmap _] & _ & Hperm & Hargs)] Hpf Hin Hkey.
  apply list_elem_of_lookup in Hin as [j Hj].
  destruct (Forall2_lookup_r _ _ _ _ _ Hargs Hj) as (e & He & Hk & Hsz & Hb). cbn [fst snd] in *.
  apply list_elem_of_lookup_2 in He. rewrite <- Hperm in He.
  exists (b_data (value (e_item e))). split; [|done].
  pose proof (dfk_strmap_get_spec (h_str m) _ es kd (Z.of_nat (length k)) k Hmap Hkey) as Hw.
  apply wp_run in Hw as (b & s & -> & -> & ->). f_equal. f_equal.
  rewrite (map_get_bound (h_str m) (arguments req)); [|done|].
  - rewrite (proj2 (bound_entry (h_str m) _ es k (e_addr e, value (e_item e)) Hmap)).
    + cbn. rewrite <- Hsz. by destruct (value (e_item e)).
    + exists e. by rewrite Hk.
  - intros f Hf Hpx. unfold prefix_free in Hpf. rewrite Forall_forall in Hpf.
    assert (forall e', e' ∈ es -> e_key e' ∈ kvs.*1) as Hin.
    { intros e' He'. rewrite Hperm in He'. rewrite <- (argument_keys _ _ _ Hargs). by apply list_elem_of_fmap_2. }
    pose proof (Hpf _ (Hin f Hf)) as H. rewrite Forall_forall in H. rewrite <- Hk in Hpx |- *. apply H; [by apply Hin|done].
Qed.

Lemma arguments_size m req r kvs : arguments_rep req m r kvs 0 ->
  dfk_strmap_size (arguments req) (h_str m) = Ok (Z.of_nat (length kvs), h_str m).
Proof.
  intros [_ (es & es0 & gs & rs & os & B & ub & un & [_ Hmap _] & _ & Hperm & Hargs)].
  pose proof (dfk_strmap_size_spec (h_str m) _ es Hmap) as Hw. apply wp_run in Hw as (n & s & -> & -> & ->).
  by rewrite Hperm, (Forall2_length _ _ _ Hargs).
Qed.

End parse.
