(* ===== verification/HttpExamples.v ===== *)
(** * A small HTTP library and memory for examples

    The parser knows bodies only; the environment refuses every call. *)

From S2P Require Import HttpData Prelude ListSpec ListPtr ListPtrSpec ListSim Bytes Arena ArenaTheorems Avl Error Misc StrMap StrMapTheorems Sponge SpongeTheorems Interact Socket HttpRequest HttpResponse HttpBody HttpStore HttpResponseSpec.
From Stdlib Require Import String.

#[local] Open Scope list_scope.
#[local] Open Scope Z_scope.
#[local] Notation length := Datatypes.length.

(** Facts about storage that is written out. *)
Lemma bytes_check (m : bmem) p bs : bool_decide (0 < p) = true ->
  bool_decide (Forall2 (fun a b => cells m !! a = Some (Some b)) (seqZ p (Z.of_nat (length bs))) bs) = true ->
  bytes_at m p bs.
Proof.
  intros Hp%bool_decide_eq_true Hf%bool_decide_eq_true. split; [done|]. intros i b Hb.
  pose proof (lookup_lt_Some _ _ _ Hb) as Hi.
  assert (seqZ p (Z.of_nat (length bs)) !! i = Some (p + Z.of_nat i)) as Hs by (apply lookup_seqZ; lia).
  by apply (Forall2_lookup_lr _ _ _ _ _ _ Hf Hs Hb).
Qed.

Lemma room_check (m : bmem) p n : bool_decide (0 < p) = true ->
  bool_decide (Forall (fun a => is_Some (cells m !! a)) (seqZ p n)) = true -> room_at m p n.
Proof.
  intros Hp%bool_decide_eq_true Hf%bool_decide_eq_true. split; [done|]. intros i Hi.
  rewrite Forall_forall in Hf. apply Hf. apply elem_of_seqZ. lia.
Qed.

(** ** The parser: its state is the number of bytes left of the body *)

Definition body_parser : http_parser Z := {|
  http_parser_init := 0;
  http_parser_execute := fun p data len =>
    CallsBack (OnBody data len) (fun _ _ =>
      if len =? p then CallsBack OnMessageComplete (fun _ _ => Parsed 0 len HPE_PAUSED)
      else Parsed (p - len) len HPE_OK);
  http_parser_unpause := fun p => p;
  http_major := fun _ => 1;
  http_minor := fun _ => 1;
  parser_method := fun _ => 1;
  http_should_keep_alive := fun _ => true;
  f_chunked := fun _ => false;
  http_parser_parse_url := fun _ => Some (None, None, None)
|}.

Lemma body_parser_law : body_law body_parser eq.
Proof.
  intros p n data len -> Hlen. exists (if len =? n then 0 else n - len). eexists. split; [reflexivity|]. split.
  - intros Hlt. cbn. rewrite (proj2 (Z.eqb_neq len n)) by lia. done.
  - intros ->. eexists. cbn. rewrite Z.eqb_refl. done.
Qed.

(** ** The environment and the memory *)

Abbreviation hmem0 := (hmem mem Z unit).

Definition no_calls (X : Type) (e : netE X) : M hmem0 X := fail AssertFailed.

(** A request at 1000 with a body of [left] bytes to come. *)
Definition sample_request (left rem : Z) (mocked : bool) : dfk_http_request_t :=
  Request 500 1 1 3 no_buf no_buf no_buf no_buf no_buf no_buf no_buf no_buf (3 + left) true false 600 700 800
    (Buf 300 rem) 3 mocked 900.

(** A buffer at 100, cached bytes at 300, the stream of the test at 400. *)
Definition sample_http_bytes : bmem :=
  put_bytes 100 (replicate 16 0) (put_bytes 300 [104; 105; 33; 71; 69; 84]
    (BMem (cells (put_bytes 400 [97; 98; 99; 100; 101; 102; 103; 104] (BMem ∅ ∅))) {[ 400 := 8 ]})).

Definition sample_http (left rem : Z) (mocked : bool) : hmem0 := {|
  h_str := StrMem (AMem ∅ ∅) (ArMem (LMem ∅ ∅) sample_http_bytes ∅ ∅ ∅ []) ∅;
  h_sponges := {[ 900 := Sponge 400 402 8 8 9 ]};
  h_https := {[ 500 := Http 9 100 8192 16384 8 ]};
  h_reqs := {[ 1000 := sample_request left rem mocked ]};
  h_resps := ∅; h_bufitems := ∅; h_hdata := ∅; h_bdata := ∅; h_iovs := ∅;
  h_parsers := {[ 1000 := left ]};
  h_errno := 0; h_world := tt |}.

Lemma sample_readable left rem mocked : 0 <= left -> readable (sample_http left rem mocked) 1000 (sample_request left rem mocked).
Proof.
  intros Hl. split; [by split|split; [done|by eexists]|]. left. cbn. lia.
Qed.

(** The stream: two bytes were read before. *)
Lemma sample_stream left rem mocked :
  srep (lget hsponge (sample_http left rem mocked)) 900 [99; 100; 101; 102; 103; 104] ∅.
Proof.
  split; [done|]. exists (Sponge 400 402 8 8 9). split; [done|]. split; [done|].
  apply (shape_block _ _ _ _ [97; 98]); try done.
  - by apply room_check; vm_compute.
  - by apply bytes_check; vm_compute.
Qed.

(** ** A request with a query: [a=1&b=%32] *)

Definition sample_query : list Z := [97; 61; 49; 38; 98; 61; 37; 51; 50].

Definition query_request : dfk_http_request_t := (sample_request 0 0 true){{query := Buf 300 9}}.

Definition query_memory : hmem0 := {|
  h_str := StrMem (AMem ∅ ∅) (ArMem (LMem ∅ ∅) (put_bytes 300 sample_query (BMem ∅ ∅)) ∅ ∅ ∅ []) ∅;
  h_sponges := ∅; h_https := ∅; h_reqs := {[ 1000 := query_request ]};
  h_resps := ∅; h_bufitems := ∅; h_hdata := ∅; h_bdata := ∅; h_iovs := ∅; h_parsers := ∅;
  h_errno := 0; h_world := tt |}.

(** An arena and a map are initialised. *)
Definition init_storage (arena map : Z) : M hmem0 unit :=
  zoom harena (dfk_arena_init arena 9);; zoom hstr (dfk_strmap_init map).

Lemma init_storage_spec (m : hmem0) arena map ub un : ar_lists (sm_arena (h_str m)) = LMem ∅ ∅ ->
  0 < arena -> map <> 0 -> room_at (hb m) ub un -> 0 <= un -> ub + un <= USER_END ->
  exists s, init_storage arena map m = Ok (tt, lset hstr s m) /\ sm_bytes s = hb m /\ map_rep s map [] /\
    arena_rep (sm_arena s) arena [] [] [] (blocks (hb m)) ub un /\ items s = items (h_str m).
Proof.
  intros Hl Ha Hm Hub Hun Hue.
  assert (wp (init_storage arena map) m (fun _ m' => exists s, m' = lset hstr s m /\ sm_bytes s = hb m /\ map_rep s map [] /\
    arena_rep (sm_arena s) arena [] [] [] (blocks (hb m)) ub un /\ items s = items (h_str m))) as Hw.
  { apply wp_bind, wp_zoom. eapply wp_mono; [eapply (dfk_arena_init_spec (lget harena m) arena 9 ub un); try done|].
    intros _ a (Hrep & Hb & _). apply wp_zoom. cbn [lget lset harena hstr h_str].
    eapply wp_mono; [by apply dfk_strmap_init_spec|]. intros _ s (t & -> & Hmap).
    eexists. split; [reflexivity|]. split; [exact Hb|]. split; [exact Hmap|]. split; [exact Hrep|done]. }
  apply wp_run in Hw as ([] & m' & Hrun & s & -> & H). by exists s.
Qed.

(** ** A response with two headers *)

Definition response_texts : list (Z * list Z) :=
  [(300, [65]); (310, [49]); (320, [66]); (330, [50; 51]); (510, text ": "); (520, text CRLF)].

Definition response_bytes : bmem :=
  let texts := foldr (fun t b => put_bytes t.1 t.2 b) (put_bytes 600 (replicate 128 0) (BMem ∅ ∅)) response_texts in
  BMem (cells (put_bytes 4096 (88 :: replicate 127 0) texts)) {[ 4096 := 128 ]}.

Definition sample_literal (s : String.string) : Z := if String.eqb s CRLF then 520 else 510.

Definition sample_response : dfk_http_response_t :=
  Response 500 1 1 200 (to_size (-1)) false true 600 700 800 true 900 0.

Definition response_memory : hmem0 := {|
  h_str := StrMem (AMem ∅ ∅) (ArMem (LMem ∅ ∅) response_bytes ∅ ∅ ∅ []) ∅;
  h_sponges := {[ 900 := Sponge 4096 4096 1 128 9 ]}; h_https := ∅; h_reqs := ∅;
  h_resps := {[ 3000 := sample_response ]};
  h_bufitems := ∅; h_hdata := ∅; h_bdata := ∅; h_iovs := ∅; h_parsers := ∅;
  h_errno := 0; h_world := tt |}.

Definition sample_headers : list header_arg := [HeaderArg 300 [65] 310 [49]; HeaderArg 320 [66] 330 [50; 51]].

Lemma sample_text (s : strmem mem) a bs : sm_bytes s = hb response_memory -> (a, bs) ∈ response_texts ->
  text_ok 600 (lset hstr s response_memory) 900 a bs.
Proof.
  intros Hs Hin.
  assert (bs <> [] /\ 0 < a /\ a + Z.of_nat (length bs) <= 600 /\ bytes_at response_bytes a bs) as (H1 & H2 & H3 & H4).
  { repeat (apply elem_of_cons in Hin as [[= -> ->]|Hin];
      [split_and!; [done|lia|vm_compute; done|by apply bytes_check; vm_compute]|]). by apply not_elem_of_nil in Hin. }
  split.
  - done.
  - change (hb (lset hstr s response_memory)) with (sm_bytes s). by rewrite Hs.
  - intros sp Hsp. cbn in Hsp. rewrite lookup_singleton_eq in Hsp. injection Hsp as <-. right. left. cbn. lia.
  - unfold USER_END. lia.
  - right. left. lia.
Qed.

Lemma sample_new_response (s : strmem mem) : sm_bytes s = hb response_memory -> map_rep s (rs_headers 3000) [] ->
  arena_rep (sm_arena s) 700 [] [] [] (blocks (hb response_memory)) 600 0 ->
  new_response sample_literal 600 (lset hstr s response_memory) 3000 sample_response sample_headers [88] ∅.
Proof.
  intros Hb Hmap Harena. split.
  - split; [by split|]. exists [], [], [], [], [], (blocks (hb response_memory)), 600, 0.
    split; [split; [exact Harena|exact Hmap|by intros e ?%not_elem_of_nil]|].
    split; [repeat split; vm_compute; intros H; by apply H|]. split; [done|constructor].
  - done.
  - unfold sample_headers. apply Forall_cons_2; [|apply Forall_cons_2; [|apply Forall_nil_2]];
      (split; [by repeat constructor|]); (split; apply sample_text; [done|set_solver|done|set_solver]).
  - apply sample_text; [done|set_solver].
  - apply sample_text; [done|set_solver].
  - change (hb (lset hstr s response_memory)) with (sm_bytes s). rewrite Hb.
    split; [by apply room_check; vm_compute|]. split; [done|].
    intros sp Hsp. cbn in Hsp. rewrite lookup_singleton_eq in Hsp. injection Hsp as <-. right. left. done.
  - split; [done|]. exists (Sponge 4096 4096 1 128 9). split; [done|]. split; [done|].
    change (smem_bytes (lget hsponge (lset hstr s response_memory))) with (sm_bytes s). rewrite Hb.
    apply (shape_block _ _ _ _ []); try done.
    + by apply room_check; vm_compute.
    + by apply bytes_check; vm_compute.
  - done.
Qed.
