(* ===== verification/HttpCallbacks.v ===== *)
(** * The callbacks of the header parser

    The parser hands over urls, field names and values in pieces; pieces that
    are adjacent in memory are put together. *)

From S2P Require Import HttpData Prelude ListSpec Bytes Arena Error Misc StrMap Interact Socket HttpRequest.

(** Calls on adjacent pieces, up to the first that fails. *)
Fixpoint pieces {S} (cb : Z -> Z -> M S Z) (a : Z) (ns : list Z) : M S Z :=
  match ns with
  | [] => mret 0
  | n :: ns => x ← cb a n; if negb (x =? 0) then mret x else pieces cb (a + n) ns
  end.

Definition total (ns : list Z) : Z := foldr Z.add 0 ns.

Lemma total_pos ns : Forall (fun n => 0 < n) ns -> 0 <= total ns.
Proof. unfold total. induction 1; cbn; lia. Qed.

(** No object is larger. *)
Definition PTRDIFF_MAX : Z := 2 ^ 63.

(** [cb] collects bytes, as long as [sane] holds. *)
Record collects {S} (cb : Z -> Z -> M S Z) (sane : S -> Prop) : Prop := Collects {
  col_more a n1 n2 m m1 : 0 < a -> 0 < n1 -> 0 < n2 -> n1 + n2 < PTRDIFF_MAX -> sane m ->
    cb a n1 m = Ok (0, m1) ->
    sane m1 /\ forall m', cb (a + n1) n2 m1 = Ok (0, m') <-> cb a (n1 + n2) m = Ok (0, m');
  col_less a n1 n2 m m' : 0 < a -> 0 < n1 -> 0 < n2 -> n1 + n2 < PTRDIFF_MAX -> sane m ->
    cb a (n1 + n2) m = Ok (0, m') -> exists m1, cb a n1 m = Ok (0, m1)
}.

Lemma pieces_cons {S} (cb : Z -> Z -> M S Z) a n ns m m' : pieces cb a (n :: ns) m = Ok (0, m') <->
  exists m1, cb a n m = Ok (0, m1) /\ pieces cb (a + n) ns m1 = Ok (0, m').
Proof.
  cbn [pieces]. unfold mbind, M_bind. destruct (cb a n m) as [[x m1]|f].
  - destruct (Z.eqb_spec x 0) as [->|Hx]; cbn [negb].
    + split; [intros H; by exists m1|]. by intros (? & [= <-] & H).
    + split; [by intros [= -> _]|]. by intros (? & [= -> _] & _).
  - split; [done|]. by intros (? & ? & _).
Qed.

Lemma pieces_whole {S} (cb : Z -> Z -> M S Z) sane : collects cb sane -> forall ns a m m', sane m -> 0 < a ->
  Forall (fun n => 0 < n) ns -> ns <> [] -> total ns < PTRDIFF_MAX ->
  pieces cb a ns m = Ok (0, m') <-> cb a (total ns) m = Ok (0, m').
Proof.
  intros Hcb. induction ns as [|n ns IH]; intros a m m' Hs Ha Hpos Hne Htot; [done|].
  apply Forall_cons in Hpos as [Hn Hpos]. rewrite pieces_cons.
  change (total (n :: ns)) with (n + total ns) in *.
  destruct ns as [|n2 ns]; [|pose proof (total_pos _ Hpos) as Ht].
  - unfold total. cbn [foldr pieces]. rewrite Z.add_0_r. split; [by intros (m1 & ? & [= ->])|]. intros H. by exists m'.
  - assert (0 < total (n2 :: ns)) as Htp.
    { apply Forall_cons in Hpos as [Hn2 Hpos]. pose proof (total_pos _ Hpos). unfold total in *. cbn in *. lia. }
    split.
    + intros (m1 & H1 & H2). destruct (col_more _ _ Hcb a n (total (n2 :: ns)) m m1) as [Hs1 <-]; try done; try lia.
      by apply IH; try lia.
    + intros H. destruct (col_less _ _ Hcb a n (total (n2 :: ns)) m m') as [m1 H1]; try done; try lia.
      exists m1. split; [done|]. destruct (col_more _ _ Hcb a n (total (n2 :: ns)) m m1) as [Hs1 E]; try done; try lia.
      apply IH; try done; try lia. by apply E.
Qed.

(** ** The three callbacks *)

Inductive collector := Url | Field | Value.

Section callbacks.
Context {Mem It P W : Type} `{!ListOps Mem It}.
#[local] Notation hm := (hmem Mem P W).
Context (malloc : bmem -> Z -> Z) (HEADER_MAX_SIZE : Z) (p : Z) (Hmax : 0 < HEADER_MAX_SIZE < PTRDIFF_MAX).

Definition collect (c : collector) : Z -> Z -> M hm Z :=
  match c with
  | Url => dfk_http_request_on_url HEADER_MAX_SIZE p
  | Field => dfk_http_request_on_header_field malloc HEADER_MAX_SIZE p
  | Value => dfk_http_request_on_header_value HEADER_MAX_SIZE p
  end.

(** A buffer is unused, or within the limit. *)
Definition sane_buf (b : dfk_buf_t) : Prop := b_data b = 0 \/ 0 <= b_size b <= HEADER_MAX_SIZE.

(** The buffer the next piece goes to. *)
Definition sane (c : collector) (m : hm) : Prop := forall d, h_hdata m !! p = Some d ->
  match c with
  | Url => forall r, h_reqs m !! hp_req d = Some r -> sane_buf (url r)
  | Field => b_data (cheader_value d) = 0 -> sane_buf (cheader_field d)
  | Value => sane_buf (cheader_value d)
  end.

(** [dfk_buf_append], if it succeeds. *)
Definition appended (b : dfk_buf_t) (a n : Z) : option dfk_buf_t :=
  if nonnull (b_data b) then
    if b_data b + b_size b =? a then Some (Buf (b_data b) (b_size b + n)) else None
  else Some (Buf a n).

Lemma append_ok {S} b a n (m m' : S) x : sane_buf b -> 0 < n < PTRDIFF_MAX ->
  dfk_buf_append b a n m = Ok (x, m') <-> appended b a n = Some x /\ m' = m.
Proof.
  intros Hb Hn. unfold dfk_buf_append, appended, mbind, M_bind, c_assert. unfold PTRDIFF_MAX in *.
  destruct (nonnull (b_data b)) eqn:E.
  - destruct (_ =? a); [|by split; [|intros [? ?]]]. rewrite to_size_small.
    + split; [by intros [= <- <-]|by intros [[= <-] ->]].
    + destruct Hb as [Hb|Hb]; [by rewrite Hb in E|]. unfold SIZE_MOD, SIZE_BITS. lia.
  - split; [by intros [= <- <-]|by intros [[= <-] ->]].
Qed.

Lemma appended_more b a n1 n2 b1 : 0 < a -> 0 < n1 -> sane_buf b -> appended b a n1 = Some b1 ->
  (0 <= b_size b1) /\ (b_size b1 <= HEADER_MAX_SIZE -> sane_buf b1) /\
  exists b2, appended b1 (a + n1) n2 = Some b2 /\ appended b a (n1 + n2) = Some b2.
Proof.
  intros Ha Hn Hb. unfold appended. destruct (nonnull (b_data b)) eqn:E.
  - destruct (Z.eqb_spec (b_data b + b_size b) a) as [<-|]; [|done]. intros [= <-]. cbn [b_data b_size]. rewrite E.
    assert (0 <= b_size b) by (destruct Hb as [Hb|Hb]; [by rewrite Hb in E|lia]).
    rewrite Z.add_assoc, Z.eqb_refl. split; [lia|]. split; [right; cbn; lia|]. eexists. split; [done|]. by rewrite Z.add_assoc.
  - intros [= <-]. cbn [b_data b_size]. rewrite nonnull_true by lia. rewrite Z.eqb_refl.
    split; [lia|]. split; [right; cbn; lia|]. by eexists.
Qed.
Lemma appended_less b a n1 n2 b2 : appended b a (n1 + n2) = Some b2 -> 0 < n2 ->
  exists b1, appended b a n1 = Some b1 /\ b_size b1 < b_size b2.
Proof.
  unfold appended. destruct (nonnull _); [destruct (_ =? a); [|done]|]; intros [= <-] Hn; eexists; (split; [done|cbn; lia]).
Qed.

Lemma bind_ok {S A B} (c : M S A) (k : A -> M S B) m y m' :
  (c ≫= k) m = Ok (y, m') <-> exists x m1, c m = Ok (x, m1) /\ k x m1 = Ok (y, m').
Proof.
  unfold mbind, M_bind. destruct (c m) as [[x m1]|]; [|by split; [|intros (? & ? & ? & _)]].
  split; [intros H; by exists x, m1|]. by intros (? & ? & [= <- <-] & H).
Qed.
Lemma deref_ok {S V} (H : heap_of S V) q m x m' : deref H q m = Ok (x, m') <-> q <> 0 /\ hget H m !! q = Some x /\ m' = m.
Proof.
  unfold deref. case_decide; [by split; [|intros [? _]]|]. destruct (hget H m !! q).
  - split; [by intros [= <- <-]|by intros (_ & [= <-] & ->)].
  - by split; [|intros (_ & ? & _)].
Qed.
Lemma update_ok {S V} (H : heap_of S V) q f m u m' :
  update H q f m = Ok (u, m') <-> q <> 0 /\ exists x, hget H m !! q = Some x /\ m' = hset H (<[q := f x]> (hget H m)) m.
Proof.
  unfold update. destruct u. case_decide; [by split; [|intros [? _]]|]. destruct (hget H m !! q) as [x|].
  - split; [intros [= <-]; by eauto|by intros (_ & ? & [= <-] & ->)].
  - by split; [|intros (_ & ? & ? & _)].
Qed.
Lemma limit_ok n (m : hm) m' : too_large HEADER_MAX_SIZE p n m = Ok (0, m') <-> n <= HEADER_MAX_SIZE /\ m' = m.
Proof.
  unfold too_large. destruct (Z.ltb_spec HEADER_MAX_SIZE n).
  - split; [|lia]. intros (? & ? & _ & [=])%bind_ok.
  - split; [by intros [= <-]|by intros [_ ->]].
Qed.

Definition set_hdata (d : dfk_header_parser_data_t) (m : hm) : hm := hset hdata_of (<[p := d]> (h_hdata m)) m.

Lemma set_hdata_twice d d' m : set_hdata d' (set_hdata d m) = set_hdata d' m.
Proof. unfold set_hdata, hdata_of. cbn. by rewrite insert_insert_eq. Qed.
Lemma set_hdata_get d m : h_hdata (set_hdata d m) !! p = Some d.
Proof. unfold set_hdata, hdata_of. cbn. by rewrite lookup_insert_eq. Qed.

(** When the callbacks return 0, and in which state. *)
Lemma value_ok a n m m' : sane Value m -> 0 < n < PTRDIFF_MAX ->
  collect Value a n m = Ok (0, m') <->
  p <> 0 /\ exists d b, h_hdata m !! p = Some d /\ appended (cheader_value d) a n = Some b /\
    b_size b <= HEADER_MAX_SIZE /\ m' = set_hdata (d{{cheader_value := b}}) m.
Proof.
  intros Hs Hn. cbn [collect]. unfold dfk_http_request_on_header_value. rewrite bind_ok. split.
  - intros (d & m1 & (Hp & Hd & ->)%deref_ok & (b & m2 & Hb & (u & m3 & (_ & d' & Hd' & ->)%update_ok & (Hsz & ->)%limit_ok)%bind_ok)%bind_ok).
    assert (dfk_buf_append (cheader_value d) a n m = Ok (b, m2)) as Happ.
    { rewrite <- Hb. unfold isnull. unfold dfk_cbuf_append, dfk_buf_append, nonnull. by destruct (b_data (cheader_value d) =? 0). }
    apply append_ok in Happ as [Happ ->]; [|by apply (Hs d)|done]. cbn in Hd, Hd'. rewrite Hd in Hd'. injection Hd' as <-.
    split; [done|]. by exists d, b.
  - intros (Hp & d & b & Hd & Happ & Hsz & ->). exists d, m. split; [by apply deref_ok|].
    apply bind_ok. exists b, m. split.
    + rewrite <- (proj2 (append_ok _ _ _ m m b (Hs d Hd) Hn) (conj Happ eq_refl)).
      unfold isnull, dfk_cbuf_append, dfk_buf_append, nonnull. by destruct (b_data (cheader_value d) =? 0).
    + apply bind_ok. exists tt. eexists. split; [apply update_ok; split; [done|by exists d]|]. by apply limit_ok.
Qed.

Lemma value_collects : collects (collect Value) (sane Value).
Proof.
  split.
  - intros a n1 n2 m m1 Ha H1 H2 Hn Hs (Hp & d & b & Hd & Happ & Hsz & ->)%value_ok; [|done|lia].
    destruct (appended_more _ _ _ n2 _ Ha H1 (Hs d Hd) Happ) as (Hb0 & Hb & b2 & E1 & E2).
    assert (sane Value (set_hdata (d{{cheader_value := b}}) m)) as Hs1.
    { intros d'. rewrite set_hdata_get. intros [= <-]. by apply Hb. }
    split; [done|]. intros m'. rewrite !value_ok by (done || lia). split.
    + intros (_ & d' & b' & Hd' & Happ' & Hsz' & ->). rewrite set_hdata_get in Hd'. injection Hd' as <-. cbn in Happ'.
      split; [done|]. exists d, b'. rewrite set_hdata_twice. split_and!; [done|congruence|done|done].
    + intros (_ & d' & b' & Hd' & Happ' & Hsz' & ->). assert (d' = d) as -> by congruence.
      split; [done|]. eexists _, b'. rewrite set_hdata_get. rewrite set_hdata_twice. split_and!; [done|cbn; congruence|done|done].
  - intros a n1 n2 m m' Ha H1 H2 Hn Hs (Hp & d & b & Hd & Happ & Hsz & ->)%value_ok; [|done|lia].
    destruct (appended_less _ _ _ _ _ Happ H2) as (b1 & Happ1 & Hlt). eexists. apply value_ok; [done|lia|].
    split; [done|]. exists d, b1. split_and!; [done|done|lia|done].
Qed.

Definition set_url (d : dfk_header_parser_data_t) (r : dfk_http_request_t) (b : dfk_buf_t) (m : hm) : hm :=
  hset reqs_of (<[hp_req d := r{{url := b}}]> (h_reqs m)) m.

Lemma set_url_twice d r b b' m : set_url d (r{{url := b}}) b' (set_url d r b m) = set_url d r b' m.
Proof. unfold set_url, reqs_of. cbn. by rewrite insert_insert_eq. Qed.
Lemma set_url_get d r b m : h_reqs (set_url d r b m) !! hp_req d = Some (r{{url := b}}).
Proof. unfold set_url, reqs_of. cbn. by rewrite lookup_insert_eq. Qed.

Lemma url_ok a n m m' : sane Url m -> 0 < n < PTRDIFF_MAX ->
  collect Url a n m = Ok (0, m') <->
  p <> 0 /\ exists d r b, h_hdata m !! p = Some d /\ hp_req d <> 0 /\ h_reqs m !! hp_req d = Some r /\
    appended (url r) a n = Some b /\ b_size b <= HEADER_MAX_SIZE /\ m' = set_url d r b m.
Proof.
  intros Hs Hn. cbn [collect]. unfold dfk_http_request_on_url. rewrite bind_ok. split.
  - intros (d & m1 & (Hp & Hd & ->)%deref_ok & (r & m2 & (Hr0 & Hr & ->)%deref_ok & (b & m3 & Hb & (u & m4 & (_ & r' & Hr' & ->)%update_ok & (Hsz & ->)%limit_ok)%bind_ok)%bind_ok)%bind_ok).
    apply append_ok in Hb as [Happ ->]; [|by apply (Hs d Hd r)|done]. cbn in Hr, Hr'. rewrite Hr in Hr'. injection Hr' as <-.
    split; [done|]. by exists d, r, b.
  - intros (Hp & d & r & b & Hd & Hr0 & Hr & Happ & Hsz & ->). exists d, m. split; [by apply deref_ok|].
    apply bind_ok. exists r, m. split; [by apply deref_ok|].
    apply bind_ok. exists b, m. split; [by apply append_ok; [apply (Hs d Hd r)| |]|].
    apply bind_ok. exists tt. eexists. split; [apply update_ok; split; [done|by exists r]|]. by apply limit_ok.
Qed.

Lemma url_collects : collects (collect Url) (sane Url).
Proof.
  split.
  - intros a n1 n2 m m1 Ha H1 H2 Hn Hs (Hp & d & r & b & Hd & Hr0 & Hr & Happ & Hsz & ->)%url_ok; [|done|lia].
    destruct (appended_more _ _ _ n2 _ Ha H1 (Hs d Hd r Hr) Happ) as (Hb0 & Hb & b2 & E1 & E2).
    assert (sane Url (set_url d r b m)) as Hs1.
    { intros d' Hd'. assert (d' = d) as -> by (change (h_hdata m !! p = Some d') in Hd'; congruence). intros r'. rewrite set_url_get. intros [= <-]. by apply Hb. }
    split; [done|]. intros m'. rewrite !url_ok by (done || lia). split.
    + intros (_ & d' & r' & b' & Hd' & _ & Hr' & Happ' & Hsz' & ->). assert (d' = d) as -> by (change (h_hdata m !! p = Some d') in Hd'; congruence).
      rewrite set_url_get in Hr'. injection Hr' as <-. cbn in Happ'.
      split; [done|]. exists d, r, b'. split_and!; [done..|congruence|done|apply set_url_twice].
    + intros (_ & d' & r' & b' & Hd' & _ & Hr' & Happ' & Hsz' & ->). assert (d' = d) as -> by congruence.
      assert (r' = r) as -> by congruence.
      split; [done|]. exists d. eexists _, b'. rewrite set_url_get. split_and!; [done..|cbn; congruence|done|symmetry; apply set_url_twice].
  - intros a n1 n2 m m' Ha H1 H2 Hn Hs (Hp & d & r & b & Hd & Hr0 & Hr & Happ & Hsz & ->)%url_ok; [|done|lia].
    destruct (appended_less _ _ _ _ _ Happ H2) as (b1 & Happ1 & Hlt). eexists. apply url_ok; [done|lia|].
    split; [done|]. exists d, r, b1. split_and!; try done. lia.
Qed.

(** A field name after a value begins a new header; the last one is flushed. *)
Definition new_field (d : dfk_header_parser_data_t) (a n : Z) : dfk_header_parser_data_t :=
  d{{cheader_value := Buf 0 (b_size (cheader_value d)); cheader_field := Buf a n}}.

Lemma field_ok a n m m' : sane Field m -> 0 < n < PTRDIFF_MAX ->
  collect Field a n m = Ok (0, m') <->
  p <> 0 /\ exists d, h_hdata m !! p = Some d /\
    if nonnull (b_data (cheader_value d)) then
      exists m1 d1, dfk__http_request_flush_header malloc p m = Ok (0, m1) /\ h_hdata m1 !! p = Some d1 /\
        n <= HEADER_MAX_SIZE /\ m' = set_hdata (new_field d1 a n) m1
    else exists b, appended (cheader_field d) a n = Some b /\ b_size b <= HEADER_MAX_SIZE /\
        m' = set_hdata (d{{cheader_field := b}}) m.
Proof.
  intros Hs Hn. cbn [collect]. unfold dfk_http_request_on_header_field. rewrite bind_ok. split.
  - intros (d & m1 & (Hp & Hd & ->)%deref_ok & Hrun). split; [done|]. exists d. split; [done|].
    destruct (nonnull (b_data (cheader_value d))) eqn:E.
    + apply bind_ok in Hrun as (x & m1 & Hf & Hrun). destruct (Z.eqb_spec x 0) as [->|]; cbn [negb] in Hrun; [|done].
      apply bind_ok in Hrun as (u & m2 & (_ & d1 & Hd1 & ->)%update_ok & (Hsz & ->)%limit_ok). by exists m1, d1.
    + apply bind_ok in Hrun as (b & m2 & Hb & (u & m3 & (_ & d' & Hd' & ->)%update_ok & (Hsz & ->)%limit_ok)%bind_ok).
      apply append_ok in Hb as [Happ ->]; [|apply (Hs d Hd); unfold nonnull in E; lia|done].
      cbn in Hd, Hd'. rewrite Hd in Hd'. injection Hd' as <-. by exists b.
  - intros (Hp & d & Hd & Hcase). exists d, m. split; [by apply deref_ok|].
    destruct (nonnull (b_data (cheader_value d))) eqn:E.
    + destruct Hcase as (m1 & d1 & Hf & Hd1 & Hsz & ->). apply bind_ok. exists 0, m1. split; [done|]. cbn [Z.eqb negb].
      apply bind_ok. exists tt. eexists. split; [apply update_ok; split; [done|by exists d1]|]. by apply limit_ok.
    + destruct Hcase as (b & Happ & Hsz & ->). apply bind_ok. exists b, m.
      split; [by apply append_ok; [apply (Hs d Hd); unfold nonnull in E; lia| |]|].
      apply bind_ok. exists tt. eexists. split; [apply update_ok; split; [done|by exists d]|]. by apply limit_ok.
Qed.

(** More of a field name that is being collected. *)
Lemma field_more a n m m' d : sane Field m -> 0 < n < PTRDIFF_MAX -> p <> 0 -> h_hdata m !! p = Some d ->
  b_data (cheader_value d) = 0 ->
  collect Field a n m = Ok (0, m') <->
  exists b, appended (cheader_field d) a n = Some b /\ b_size b <= HEADER_MAX_SIZE /\ m' = set_hdata (d{{cheader_field := b}}) m.
Proof.
  intros Hs Hn Hp Hd H0. rewrite field_ok by done. split.
  - intros (_ & d' & Hd' & H). assert (d' = d) as -> by congruence. by rewrite H0 in H.
  - intros H. split; [done|]. exists d. by rewrite H0.
Qed.

Lemma field_collects : collects (collect Field) (sane Field).
Proof.
  split.
  - intros a n1 n2 m m1 Ha H1 H2 Hn Hs (Hp & d & Hd & Hcase)%field_ok; [|done|lia].
    destruct (nonnull (b_data (cheader_value d))) eqn:E.
    + destruct Hcase as (mf & d1 & Hf & Hd1 & Hsz & ->).
      assert (sane Field (set_hdata (new_field d1 a n1) mf)) as Hs1.
      { intros d'. rewrite set_hdata_get. intros [= <-] _. right. cbn. lia. }
      split; [done|]. intros m'.
      rewrite (field_more (a + n1) n2 _ m' _ Hs1 ltac:(lia) Hp (set_hdata_get _ _) eq_refl), field_ok by (done || lia).
      unfold appended. change (cheader_field (new_field d1 a n1)) with (Buf a n1). cbn [b_data b_size]. rewrite (nonnull_true a) by lia. rewrite Z.eqb_refl. split.
      * intros (b & [= <-] & Hsz' & ->). split; [done|]. exists d. rewrite E. split; [done|].
        exists mf, d1. rewrite set_hdata_twice. done.
      * intros (_ & d' & Hd' & Hcase). assert (d' = d) as -> by congruence. rewrite E in Hcase.
        destruct Hcase as (mf' & d1' & Hf' & Hd1' & Hsz' & ->). assert (mf' = mf) as -> by congruence.
        assert (d1' = d1) as -> by congruence. eexists. split; [done|]. rewrite set_hdata_twice. done.
    + assert (b_data (cheader_value d) = 0) as H0 by (unfold nonnull in E; lia).
      destruct Hcase as (b & Happ & Hsz & ->).
      destruct (appended_more _ _ _ n2 _ Ha H1 (Hs d Hd H0) Happ) as (Hb0 & Hb & b2 & E1 & E2).
      assert (sane Field (set_hdata (d{{cheader_field := b}}) m)) as Hs1.
      { intros d'. rewrite set_hdata_get. intros [= <-] _. by apply Hb. }
      split; [done|]. intros m'.
      rewrite (field_more (a + n1) n2 _ m' _ Hs1 ltac:(lia) Hp (set_hdata_get _ _) H0), (field_more a (n1 + n2) _ m' _ Hs ltac:(lia) Hp Hd H0).
      change (cheader_field (d{{cheader_field := b}})) with b. rewrite E1, E2. split; intros (b' & [= <-] & Hsz' & ->); exists b2; by rewrite set_hdata_twice.
  - intros a n1 n2 m m' Ha H1 H2 Hn Hs (Hp & d & Hd & Hcase)%field_ok; [|done|lia].
    destruct (nonnull (b_data (cheader_value d))) eqn:E.
    + destruct Hcase as (mf & d1 & Hf & Hd1 & Hsz & ->). eexists. apply field_ok; [done|lia|].
      split; [done|]. exists d. split; [done|]. rewrite E. exists mf, d1. split_and!; try done. lia.
    + destruct Hcase as (b & Happ & Hsz & ->). destruct (appended_less _ _ _ _ _ Happ H2) as (b1 & Happ1 & Hlt).
      eexists. apply field_ok; [done|lia|]. split; [done|]. exists d. split; [done|]. rewrite E. exists b1. split_and!; try done. lia.
Qed.

Lemma collector_collects c : collects (collect c) (sane c).
Proof. destruct c; [apply url_collects|apply field_collects|apply value_collects]. Qed.

End callbacks.
