(* ===== verification/HttpFrame.v ===== *)
(** * What HTTP code leaves alone

    [keeps f c]: the command [c] does not change the part [f] of the memory.
    Nothing in the library writes to the object of the server ([h_https]) or
    to what the environment knows ([h_world]), so what the application
    configured stays as it is while a connection is served. *)

From S2P Require Import HttpData Prelude ListSpec Bytes Arena Error Misc StrMap Sponge Interact Socket HttpRequest HttpResponse HttpServer.

Definition keeps {S A B} (f : S -> B) (c : M S A) : Prop := forall m, wlp c m (fun _ m' => f m' = f m).

Section rules.
Context {S B : Type} (f : S -> B).

Lemma keeps_ret {A} (a : A) : keeps f (mret a).
Proof. intros m. by apply wlp_ret. Qed.
Lemma keeps_bind {A C} (c : M S A) (k : A -> M S C) : keeps f c -> (forall a, keeps f (k a)) -> keeps f (c ≫= k).
Proof.
  intros Hc Hk m. apply wlp_bind. eapply wlp_mono; [apply Hc|]. cbn. intros a m1 H1.
  eapply wlp_mono; [apply Hk|]. cbn. congruence.
Qed.
Lemma keeps_fail {A} e : keeps f (fail (A := A) e).
Proof. by intros m a m'. Qed.
Lemma keeps_assert b : keeps f (c_assert b).
Proof. intros m. by apply wlp_assert. Qed.
Lemma keeps_when b (c : M S unit) : keeps f c -> keeps f (when b c).
Proof. destruct b; [done|]. intros _. apply keeps_ret. Qed.
Lemma keeps_deref {V} (H : heap_of S V) p : keeps f (deref H p).
Proof. intros m. by apply wlp_deref. Qed.
Lemma keeps_update {V} (H : heap_of S V) p (g : V -> V) : (forall h m, f (hset H h m) = f m) -> keeps f (update H p g).
Proof. intros Hf m. apply wlp_update. intros v _. apply Hf. Qed.
Lemma keeps_store {V} (H : heap_of S V) p (v : V) : (forall h m, f (hset H h m) = f m) -> keeps f (store H p v).
Proof. intros Hf m a m'. unfold store. case_decide; [done|]. intros [= <- <-]. apply Hf. Qed.
Lemma keeps_modify (g : S -> S) : (forall m, f (g m) = f m) -> keeps f (modify g).
Proof. intros Hf m a m' [= <- <-]. apply Hf. Qed.
Lemma keeps_zoom {T A} (L : lens S T) (c : M T A) : (forall t m, f (lset L t m) = f m) -> keeps f (zoom L c).
Proof. intros Hf m a m'. unfold zoom. destruct (c (lget L m)) as [[x t]|]; [|done]. intros [= <- <-]. apply Hf. Qed.
Lemma keeps_loop {A C} fuel (body : A -> M S (A + C)) a : (forall a, keeps f (body a)) -> keeps f (loop fuel body a).
Proof.
  intros Hb m. apply (wlp_loop (fun _ m' => f m' = f m)); [|done].
  intros a' m1 H1. eapply wlp_mono; [apply Hb|]. cbn. intros [] m2 H2; congruence.
Qed.
End rules.

Create HintDb keeps.
#[export] Hint Resolve keeps_ret keeps_fail keeps_assert keeps_deref : keeps.

(** Takes a command apart; calls are left to the hints. *)
Ltac keeps_step :=
  lazymatch goal with
  | |- keeps _ (mbind _ _) => apply keeps_bind; [|intros ?]
  | |- keeps _ (when _ _) => apply keeps_when
  | |- keeps _ (loop _ _ _) => apply keeps_loop; intros ?
  | |- keeps _ (zoom _ _) => apply keeps_zoom; reflexivity
  | |- keeps _ (update _ _ _) => apply keeps_update; reflexivity
  | |- keeps _ (store _ _ _) => apply keeps_store; reflexivity
  | |- keeps _ (modify _) => apply keeps_modify; reflexivity
  | |- keeps _ (match ?x with _ => _ end) => destruct x
  end.
Ltac keeps_all := repeat (first [progress cbn beta zeta | keeps_step | solve [auto with keeps nocore]]).

(** ** The object of the server and the environment

    [g]: the part of them that matters. *)

Section http.
Context {Mem It P W : Type} `{!ListOps Mem It}.
#[local] Notation hm := (hmem Mem P W).
Context {B : Type} (g : gmap Z dfk_http_t -> W -> B).
#[local] Notation keeps_http := (keeps (S := hm) (fun m => g (h_https m) (h_world m))).
Context (malloc : bmem -> Z -> Z) (lib : http_parser P).
Context (handle : forall X, netE X -> M hm X) (Hhandle : forall X (e : netE X), keeps_http (handle X e)).
Context (literal : String.string -> Z) (v : locals) (HEADER_MAX_SIZE : Z) (fuel : nat).

Lemma keeps_interact {A} n (t : net A) : keeps_http (interact handle n t).
Proof.
  revert t. induction n as [|n IH]; intros t; cbn [interact]; [apply keeps_fail|].
  destruct (ITreeDefinition.observe t); [apply keeps_ret|apply IH|].
  apply keeps_bind; [apply Hhandle|]. intros x. apply IH.
Qed.
#[local] Hint Resolve keeps_interact : keeps.

Lemma keeps_read req buf n : keeps_http (dfk__mocked_read handle fuel req buf n).
Proof. unfold dfk__mocked_read. keeps_all. Qed.
Lemma keeps_new_buf req : keeps_http (dfk__http_request_allocate_headers_buf malloc req).
Proof. unfold dfk__http_request_allocate_headers_buf. keeps_all. Qed.
Lemma keeps_request_init req http ra ca sock : keeps_http (dfk__http_request_init req http ra ca sock).
Proof. unfold dfk__http_request_init. keeps_all. Qed.
Lemma keeps_request_free req : keeps_http (dfk__http_request_free fuel req).
Proof. unfold dfk__http_request_free, free_buffers_body. keeps_all. Qed.

Lemma keeps_buf_append (b : dfk_buf_t) a n : keeps_http (dfk_buf_append b a n).
Proof. unfold dfk_buf_append. keeps_all. Qed.
Lemma keeps_cbuf_append (b : dfk_buf_t) a n : keeps_http (dfk_cbuf_append b a n).
Proof. apply keeps_buf_append. Qed.
#[local] Hint Resolve keeps_read keeps_new_buf keeps_request_init keeps_request_free keeps_buf_append keeps_cbuf_append : keeps.

Lemma keeps_callback p e : keeps_http (callback malloc HEADER_MAX_SIZE p e).
Proof.
  destruct e; cbn [callback]; unfold dfk_http_request_on_url, dfk_http_request_on_header_field,
    dfk_http_request_on_header_value, dfk_http_request_on_headers_complete, dfk_http_request_on_body,
    dfk__http_request_flush_header, too_large, set_hdata_errno; keeps_all.
Qed.
Lemma keeps_run_parse p t : keeps_http (run_parse malloc HEADER_MAX_SIZE p t).
Proof.
  induction t as [s n e|a k IH|e k IH]; cbn [run_parse]; [apply keeps_ret| |].
  - apply keeps_bind; [apply keeps_zoom; reflexivity|]. intros b. apply IH.
  - apply keeps_bind; [apply keeps_callback|]. intros r. apply IH.
Qed.
#[local] Hint Resolve keeps_run_parse : keeps.

Lemma keeps_execute req p a n : keeps_http (execute malloc lib HEADER_MAX_SIZE req p a n).
Proof. unfold execute. keeps_all. Qed.
#[local] Hint Resolve keeps_execute : keeps.

Lemma keeps_read_headers_body req buf :
  keeps_http (read_headers_body malloc lib handle (v_pdata v) HEADER_MAX_SIZE fuel req buf).
Proof. unfold read_headers_body. keeps_all. Qed.
Lemma keeps_populate req : keeps_http (populate_headers lib literal req).
Proof. unfold populate_headers, get_header. keeps_all. Qed.
Lemma keeps_parse_query req : keeps_http (parse_query malloc fuel req).
Proof. unfold parse_query, parse_arguments, query_body, dfk_http_request_add_argument. keeps_all. Qed.
#[local] Hint Resolve keeps_read_headers_body keeps_populate keeps_parse_query : keeps.

Lemma keeps_read_headers req :
  keeps_http (dfk__http_request_read_headers malloc lib handle literal (v_pdata v) HEADER_MAX_SIZE fuel req).
Proof. unfold dfk__http_request_read_headers. keeps_all. Qed.
Lemma keeps_request_read req buf n :
  keeps_http (dfk_http_request_read malloc lib handle (v_bdata v) HEADER_MAX_SIZE fuel req buf n).
Proof. unfold dfk_http_request_read, read_body, set_dfk_errno. keeps_all. Qed.
Lemma keeps_read_iovs iov n : keeps_http (read_iovs iov n).
Proof. revert iov. induction n as [|n IH]; intros iov; cbn [read_iovs]; keeps_all. Qed.
#[local] Hint Resolve keeps_read_headers keeps_request_read keeps_read_iovs : keeps.

Lemma keeps_flush_headers b s resp :
  keeps_http (dfk__http_response_flush_headers malloc handle literal b s fuel resp).
Proof.
  unfold dfk__http_response_flush_headers, flush_content_length, dfk__mocked_write, dfk__mocked_writev, fill_iov_body.
  keeps_all.
Qed.
Lemma keeps_response_init resp req ra ca sock k :
  keeps_http (dfk__http_response_init resp req ra ca sock k).
Proof. unfold dfk__http_response_init. keeps_all. Qed.
Lemma keeps_response_set resp n nl x xl : keeps_http (dfk_http_response_set malloc resp n nl x xl).
Proof. unfold dfk_http_response_set, check_header. keeps_all. Qed.
#[local] Hint Resolve keeps_flush_headers keeps_response_init keeps_response_set : keeps.
Lemma keeps_response_writev b s resp iov n :
  keeps_http (dfk_http_response_writev malloc handle literal b s fuel resp iov n).
Proof. unfold dfk_http_response_writev, dfk__mocked_writev. keeps_all. Qed.
Lemma keeps_response_write b s i resp buf n :
  keeps_http (dfk_http_response_write malloc handle literal b s i fuel resp buf n).
Proof. pose proof keeps_response_writev. unfold dfk_http_response_write. keeps_all. Qed.

Context (handler : Z -> Z -> Z -> Z -> M hm Z).
Context (Hhandler : forall http req resp user, keeps_http (handler http req resp user)).
#[local] Hint Resolve Hhandler : keeps.

Lemma keeps_serve_request http sock user n :
  keeps_http (serve_request malloc lib handle literal v HEADER_MAX_SIZE fuel handler http sock user n).
Proof.
  unfold serve_request, requested_keepalive, starts_like, fix_version, final_keepalive, set_literals, flush_body, flush_body_step.
  keeps_all.
Qed.

End http.
