(* ===== verification/HttpConnection.v ===== *)
(** * Lemmas about connections

    How often a connection reads and how many requests it serves. *)

From S2P Require Import HttpData Prelude ListSpec Bytes Arena Error Misc StrMap StrMapTheorems Sponge Interact Socket HttpRequest HttpResponse HttpServer HttpStore HttpFrame.
From Stdlib Require Import String Ascii.

#[local] Open Scope list_scope.
#[local] Open Scope Z_scope.
#[local] Notation length := Datatypes.length.

Lemma wlp_keeps {S A B} (f : S -> B) (c : M S A) m (Q : A -> S -> Prop) :
  keeps f c -> (forall a m', f m' = f m -> Q a m') -> wlp c m Q.
Proof. intros Hc HQ. eapply wlp_mono; [apply Hc|exact HQ]. Qed.

Lemma wlp_zoom_keeps {S T A B} (f : S -> B) (L : lens S T) (c : M T A) m (Q : A -> S -> Prop) :
  (forall t m, f (lset L t m) = f m) -> (forall a m', f m' = f m -> Q a m') -> wlp (zoom L c) m Q.
Proof. intros Hf HQ. eapply wlp_keeps; [by apply (keeps_zoom f)|exact HQ]. Qed.

(** Commands that agree after the same beginning. *)
Lemma bind_ext {S A B} (c : M S A) (k1 k2 : A -> M S B) m :
  (forall a m', c m = Ok (a, m') -> k1 a m' = k2 a m') -> (c ≫= k1) m = (c ≫= k2) m.
Proof. unfold mbind, M_bind. intros H. destruct (c m) as [[a m']|]; [by apply H|done]. Qed.

(** ** What the parser promises *)

(** The callbacks that announce the end of the headers and of the message pause
    the parser, as those of the program do. *)
Definition pauses_at_ends (e : parser_event) (paused : bool) : Prop :=
  match e with OnHeadersComplete | OnMessageComplete => paused = true | _ => True end.

(** [R] of the outcome, whatever bytes it looks at and the callbacks return. *)
Inductive parses {P} (R : P -> Z -> http_errno -> Prop) : parse P -> Prop :=
| parses_done p n e : R p n e -> parses R (Parsed p n e)
| parses_byte a k : (forall b, parses R (k b)) -> parses R (LooksAt a k)
| parses_callback e k : (forall x s, pauses_at_ends e s -> parses R (k x s)) -> parses R (CallsBack e k).

(** As documented: without an error all bytes were parsed.  The exception is a
    request for another protocol (Upgrade, CONNECT), where the parser stops
    behind the headers or the message without an error; but if the callback
    there has paused it the error is [HPE_PAUSED]. *)
Definition parses_all {P} (lib : http_parser P) : Prop :=
  forall s data len, parses (fun _ n e => e = HPE_OK -> n = len) (http_parser_execute lib s data len).

Section connection.
Context {Mem It P W : Type} `{!ListOps Mem It}.
#[local] Notation hm := (hmem Mem P W).
Context (malloc : bmem -> Z -> Z) (lib : http_parser P).
Context (handle : forall X, netE X -> M hm X) (Hhandle : forall X (e : netE X), keeps h_https (handle X e)).
Context (literal : String.string -> Z) (v : locals) (HEADER_MAX_SIZE : Z) (fuel : nat).

(** What [HttpFrame] is used for here. *)
#[local] Notation conf := (fun (h : gmap Z dfk_http_t) (_ : W) => h).

Lemma callback_pauses p e (m : hm) :
  wlp (callback malloc HEADER_MAX_SIZE p e) m (fun r _ => pauses_at_ends e r.2).
Proof.
  destruct e; cbn [callback pauses_at_ends]; try (intros ? ? _; done); try (by apply wlp_ret).
  unfold dfk_http_request_on_headers_complete. apply wlp_bind. intros d m1 _. apply wlp_bind. intros u m2 _. by apply wlp_ret.
Qed.

Lemma run_parse_outcome R p t : parses R t -> forall m : hm,
  wlp (run_parse malloc HEADER_MAX_SIZE p t) m (fun x _ => R x.1.1 x.1.2 x.2).
Proof.
  induction 1 as [s n e HR|a k _ IH|e k _ IH]; intros m; cbn [run_parse].
  - by apply wlp_ret.
  - apply wlp_bind. intros b m' _. apply IH.
  - apply wlp_bind. eapply wlp_mono; [apply callback_pauses|]. intros r m' Hr. by apply IH.
Qed.

Lemma execute_all req p data len (m : hm) : parses_all lib ->
  wlp (execute malloc lib HEADER_MAX_SIZE req p data len) m (fun x _ => x.2 = HPE_OK -> x.1 = len).
Proof.
  intros Hlaw. unfold execute. apply wlp_bind. intros s m1 _. apply wlp_bind.
  eapply wlp_mono; [apply run_parse_outcome, Hlaw|]. cbn. intros x m2 Hx. apply wlp_bind. intros u m3 _. by apply wlp_ret.
Qed.

(** ** Reading headers *)

(** All servers have buffers of this size. *)
Context (bufsize : Z).
Definition buffers_of_size (m : hm) : Prop := map_Forall (fun _ h => headers_buffer_size h = bufsize) (h_https m).

Lemma sized_keep (m m' : hm) : buffers_of_size m -> h_https m' = h_https m -> buffers_of_size m'.
Proof. unfold buffers_of_size. by intros H ->. Qed.

Lemma new_buf_size req (m : hm) : buffers_of_size m ->
  wlp (dfk__http_request_allocate_headers_buf malloc req) m
    (fun a m' => buffers_of_size m' /\ (a.1 = err_code dfk_err_ok -> b_size a.2 = bufsize)).
Proof.
  intros Hs. assert (forall Q : Z * dfk_buf_t -> Prop,
    wlp (dfk__http_request_allocate_headers_buf malloc req) m (fun a _ => Q a) ->
    wlp (dfk__http_request_allocate_headers_buf malloc req) m (fun a m' => buffers_of_size m' /\ Q a)) as Hboth.
  { intros Q HQ a m' Hr. split; [|by eapply HQ]. eapply sized_keep; [done|].
    by eapply (keeps_new_buf conf malloc req m). }
  apply Hboth. unfold dfk__http_request_allocate_headers_buf.
  apply wlp_bind, wlp_assert. intros _. apply wlp_bind, wlp_deref. intros r _. apply wlp_bind, wlp_deref. intros h Hh.
  apply wlp_bind. intros b m1 _. destruct (isnull b); [by apply wlp_ret|].
  apply wlp_bind. intros i m2 _. specialize (Hs _ _ Hh).
  destruct (isnull i); repeat (apply wlp_bind; intros ? ? _); by apply wlp_ret.
Qed.

(** Where a turn of the loop would be followed by another one, nothing of the
    buffer is left, or nothing of a new one. *)
Lemma turn_leaves_nothing req curbuf (m : hm) : parses_all lib -> buffers_of_size m -> b_size curbuf = bufsize ->
  wlp (read_headers_body malloc lib handle (v_pdata v) HEADER_MAX_SIZE fuel req curbuf) m
    (fun x _ => match x with inl b => b_size b = 0 | inr _ => True end).
Proof.
  intros Hlaw Hs Hb. unfold read_headers_body.
  apply wlp_bind, wlp_assert. intros _.
  apply wlp_bind. eapply (wlp_keeps h_https); [by apply (keeps_read conf handle Hhandle)|]. intros nread m1 H1.
  destruct (nread <=? 0); [by apply wlp_ret|].
  apply wlp_bind. intros [nparsed e] m2 Hx. pose proof (execute_all _ _ _ _ _ Hlaw _ _ Hx) as Hn. cbn in Hn.
  assert (h_https m2 = h_https m) as H2 by (rewrite (keeps_execute conf malloc lib HEADER_MAX_SIZE _ _ _ _ _ _ _ Hx); done).
  apply wlp_bind, wlp_assert. intros _.
  destruct (decide (e = HPE_PAUSED)); [apply wlp_bind; intros ? ? _; apply wlp_bind; intros ? ? _; by apply wlp_ret|].
  destruct (decide (e = HPE_CB)); [apply wlp_bind; intros ? ? _; by apply wlp_ret|].
  destruct (decide (e <> HPE_OK)) as [|Hok]; [by apply wlp_ret|].
  assert (nparsed = bufsize) as -> by (rewrite <- Hb; apply Hn; destruct (decide (e = HPE_OK)); [done|by destruct Hok]).
  assert (to_size (bufsize - bufsize) = 0) as Hz by by rewrite Z.sub_diag.
  apply wlp_bind, wlp_deref. intros d _.
  destruct (_ && _); [|apply wlp_ret; cbn; by rewrite Hb].
  apply wlp_bind, wlp_deref. intros r _. apply wlp_bind, wlp_deref. intros h _.
  apply wlp_bind, (wlp_zoom_keeps h_https); [done|]. intros sz m3 H3.
  destruct (sz =? _); [by apply wlp_ret|].
  apply wlp_bind. eapply wlp_mono; [apply new_buf_size; eapply sized_keep; [done|congruence]|].
  intros a m4 [_ Ha]. destruct (a.1 =? err_code dfk_err_ok) eqn:E; cbn [negb]; [|by apply wlp_ret].
  apply Z.eqb_eq, Ha in E. repeat (apply wlp_bind; intros ? ? _). apply wlp_ret. cbn. by rewrite E.
Qed.

(** [dfk__http_request_read_headers] with other ways to read. *)
Definition read_headers_with (reading : dfk_buf_t -> M hm (option Z)) (req : Z) : M hm Z :=
  c_assert (nonnull req);;
  r ← deref reqs_of req;
  c_assert (nonnull (rq_http r));;
  store hdata_of (v_pdata v) (HeaderData req no_buf no_buf (err_code dfk_err_ok));;
  store parsers_of req (http_parser_init lib);;
  a ← dfk__http_request_allocate_headers_buf malloc req;
  if negb (a.1 =? err_code dfk_err_ok) then mret a.1 else
  e ← reading a.2;
  match e with
  | Some err => mret err
  | None =>
      populate_headers lib literal req;;
      r ← deref reqs_of req;
      u ← zoom hbytes (read_bytes (b_data (url r)) (Z.to_nat (b_size (url r))));
      match http_parser_parse_url lib u with
      | None => mret (err_code dfk_err_protocol)
      | Some (fpath, fquery, ffragment) =>
          update reqs_of req (fun r => r{{path := url_field (url r) fpath (path r);
            query := url_field (url r) fquery (query r);
            fragment := url_field (url r) ffragment (fragment r)}});;
          parse_query malloc fuel req
      end
  end.

(** One turn of the loop; if it would go on, an assertion fails. *)
Definition read_once (req : Z) (buf : dfk_buf_t) : M hm (option Z) :=
  x ← read_headers_body malloc lib handle (v_pdata v) HEADER_MAX_SIZE fuel req buf;
  match x with inl _ => fail AssertFailed | inr e => mret e end.

Lemma read_loop_once n req buf (m : hm) : parses_all lib -> buffers_of_size m -> b_size buf = bufsize ->
  0 < HEADER_MAX_SIZE ->
  loop (S (S n)) (read_headers_body malloc lib handle (v_pdata v) HEADER_MAX_SIZE fuel req) buf m = read_once req buf m.
Proof.
  intros Hlaw Hs Hb Hmax. pose proof (turn_leaves_nothing req buf m Hlaw Hs Hb) as Hturn.
  unfold read_once. set (body := read_headers_body _ _ _ _ _ _ _) in *. unfold mbind at 1, M_bind at 1.
  destruct (body buf m) as [[[b|e] m']|f] eqn:Hx.
  - rewrite (loop_turn _ _ _ _ _ _ Hx). apply loop_fails. specialize (Hturn _ _ Hx). cbn in Hturn.
    unfold body, read_headers_body. rewrite Hturn. by rewrite (proj2 (Z.leb_gt _ _)) by lia.
  - by rewrite (loop_ends _ _ _ _ _ _ Hx).
  - by rewrite (loop_fails _ _ _ _ _ Hx).
Qed.

(** ** The requests of a connection *)

Context (handler : Z -> Z -> Z -> Z -> M hm Z).
Context (Hhandler : forall http req resp user, keeps h_https (handler http req resp user)).

Lemma final_keepalive_limit http resp n k (m : hm) h : h_https m !! http = Some h -> 0 <= keepalive_requests h ->
  wlp (final_keepalive http resp n k) m (fun k' _ => k' = true -> n + 1 < keepalive_requests h).
Proof.
  intros Hh HK. unfold final_keepalive. apply wlp_bind, wlp_deref. intros s _.
  apply wlp_bind, wlp_deref. intros h' Hh'. cbn in Hh'. assert (h' = h) as -> by congruence. apply wlp_ret.
  destruct (k && rs_keepalive s); cbn; [|done].
  rewrite (proj2 (Z.leb_le _ _)) by done. cbn. destruct (Z.leb_spec (keepalive_requests h) (n + 1)); [done|lia].
Qed.

(** The number of requests is below the limit if the connection stays open,
    and the request was counted then. *)
Lemma serve_request_limit http sock user n (m : hm) h : h_https m !! http = Some h -> 0 <= keepalive_requests h ->
  wlp (serve_request malloc lib handle literal v HEADER_MAX_SIZE fuel handler http sock user n) m
    (fun x m' => h_https m' = h_https m /\ (x.1 = true -> x.2 = true /\ n + 1 < keepalive_requests h)).
Proof.
  intros Hh HK. assert (forall Q : bool * bool -> Prop,
    wlp (serve_request malloc lib handle literal v HEADER_MAX_SIZE fuel handler http sock user n) m (fun x _ => Q x) ->
    wlp (serve_request malloc lib handle literal v HEADER_MAX_SIZE fuel handler http sock user n) m
      (fun x m' => h_https m' = h_https m /\ Q x)) as Hboth.
  { intros Q HQ a m' Hr. split; [|by eapply HQ].
    by eapply (keeps_serve_request conf malloc lib handle Hhandle literal v HEADER_MAX_SIZE fuel handler Hhandler). }
  apply Hboth. unfold serve_request.
  apply wlp_bind. eapply (wlp_keeps h_https); [by apply (keeps_read_headers conf malloc lib handle Hhandle)|]. intros err m1 H1.
  destruct (negb _); [by apply wlp_ret|].
  apply wlp_bind. eapply (wlp_keeps h_https); [unfold requested_keepalive, starts_like; keeps_all|]. intros k m2 H2.
  apply wlp_bind. eapply (wlp_keeps h_https); [by apply (keeps_response_init conf)|]. intros _ m3 H3.
  apply wlp_bind. eapply (wlp_keeps h_https); [by apply Hhandler|]. intros hres m4 H4.
  apply wlp_bind. eapply (wlp_keeps h_https); [keeps_all|]. intros _ m5 H5.
  apply wlp_bind. eapply (wlp_keeps h_https); [unfold fix_version; keeps_all|]. intros _ m6 H6.
  apply wlp_bind. eapply wlp_mono; [apply (final_keepalive_limit http _ n _ _ h); [congruence|done]|].
  cbn. intros k' m7 Hk. repeat (apply wlp_bind; intros ? ? _). destruct (negb _); apply wlp_ret; cbn; [done|auto].
Qed.

(** A turn that starts below the limit. *)
Lemma connection_turn_limit http sock user n (m : hm) h : h_https m !! http = Some h -> 0 <= keepalive_requests h ->
  wlp (connection_body malloc lib handle literal v HEADER_MAX_SIZE fuel handler http sock user (n, true)) m
    (fun x m' => h_https m' = h_https m /\
       match x with inl (n', k) => k = true -> n' = n + 1 /\ n + 1 < keepalive_requests h | inr _ => True end).
Proof.
  intros Hh HK. unfold connection_body. cbn [negb].
  apply wlp_bind, wlp_deref. intros h' _.
  apply wlp_bind, (wlp_zoom_keeps h_https); [done|]. intros _ m1 H1.
  apply wlp_bind. eapply (wlp_keeps h_https); [by apply (keeps_request_init conf)|]. intros _ m2 H2.
  apply wlp_bind. eapply wlp_mono; [apply (serve_request_limit http sock user n m2 h); [congruence|done]|].
  cbn. intros [k c] m3 [H3 Hk].
  apply wlp_bind. eapply (wlp_keeps h_https); [by apply (keeps_request_free conf)|]. intros _ m4 H4.
  apply wlp_bind, (wlp_zoom_keeps h_https); [done|]. intros _ m5 H5.
  apply wlp_ret. split; [congruence|]. cbn in Hk. intros Hk'. destruct (Hk Hk') as [-> ?]. done.
Qed.

Lemma connection_loop_limit http sock user h : 0 <= keepalive_requests h -> forall (t n : nat) j k (m : hm),
  h_https m !! http = Some h -> (k = true -> Z.max 1 (keepalive_requests h) - j <= Z.of_nat t) -> (0 <= j) ->
  (t <= n)%nat -> (k = true -> 0 < t)%nat ->
  loop (S n) (connection_body malloc lib handle literal v HEADER_MAX_SIZE fuel handler http sock user) (j, k) m =
  loop (S t) (connection_body malloc lib handle literal v HEADER_MAX_SIZE fuel handler http sock user) (j, k) m.
Proof.
  intros HK. induction t as [|t IH]; intros n j k m Hh Ht Hj Hn Hpos.
  - destruct k; [specialize (Hpos eq_refl); lia|done].
  - destruct k; [|done]. destruct n as [|n]; [lia|].
    pose proof (connection_turn_limit http sock user j m h Hh HK) as Hturn.
    cbn [loop]. apply bind_ext. intros [[j' k']|e] m' Hx; [|done]. specialize (Hturn _ _ Hx) as [Hm' Hlim].
    destruct k'.
    + destruct (Hlim eq_refl) as [-> Hlt]. apply IH; try congruence; try lia.
    + by destruct n, t.
Qed.

End connection.

(** ** What the client asks for *)

(** One text begins with the other. *)
Definition agree (xs ys : list Z) : Prop := xs `prefix_of` ys \/ ys `prefix_of` xs.

#[export] Instance agree_dec xs ys : Decision (agree xs ys).
Proof. unfold agree. apply _. Defined.

Lemma text_cmp_agree xs : forall ys, no_nul ys -> text_cmp xs ys = 0 <-> agree xs ys.
Proof.
  unfold agree. induction xs as [|x xs IH]; intros [|y ys] Hz; cbn [text_cmp].
  - split; [intros _; left; apply prefix_nil|done].
  - split; [intros _; left; apply prefix_nil|done].
  - split; [intros _; right; apply prefix_nil|done].
  - apply Forall_cons in Hz as [Hy Hz]. destruct (Z.eqb_spec x y) as [->|Hne].
    + rewrite (proj2 (Z.eqb_neq _ _)) by done. rewrite (IH ys Hz). split.
      * intros [H|H]; [left|right]; by apply prefix_cons.
      * intros [H|H]; [left|right]; by eapply prefix_cons_inv_2.
    + split; [lia|]. intros [H|H]; apply prefix_cons_inv_1 in H; congruence.
Qed.

(** What [requested_keepalive] makes of the value of the header. *)
Definition asked_keepalive (v : list Z) (old : bool) (r : dfk_http_request_t) : bool :=
  if decide (v = []) then negb (bool_decide (major_version r = 1 /\ minor_version r = 0))
  else if decide (agree v (text "Keep-Alive")) then true
  else if decide (agree v (text "close")) then false
  else old.

Section keepalive.
Context {Mem It P W : Type} `{!ListOps Mem It}.
#[local] Notation hm := (hmem Mem P W).
Context (literal : String.string -> Z).

Lemma starts_like_spec (m : hm) d v s (Q : bool -> hm -> Prop) : no_nul (text s) ->
  bytes_at (sm_bytes (h_str m)) d v -> bytes_at (sm_bytes (h_str m)) (literal s) (text s) ->
  Q (bool_decide (agree v (text s))) m ->
  wp (starts_like literal (Buf d (Z.of_nat (length v))) s) m Q.
Proof.
  intros Hz Hv Hs HQ. unfold starts_like. apply wp_bind, wp_zoom. cbn [b_size b_data].
  replace (Z.to_nat (Z.min (Z.of_nat (length v)) (literal_size s))) with (Nat.min (length v) (length (text s))).
  2: { unfold literal_size, text. rewrite length_fmap.
       assert (length (list_ascii_of_string s) = String.length s) as -> by (clear; induction s; cbn; congruence). lia. }
  eapply strncmp_spec; [exact Hv|exact Hs|]. apply wp_ret.
  replace (lset hbytes (lget hbytes m) m) with m by (destruct m as [[? [] ?] ? ? ? ? ? ? ? ? ? ? ?]; reflexivity).
  destruct (Z.eqb_spec (text_cmp v (text s)) 0) as [E|E].
  - rewrite bool_decide_eq_true_2 in HQ; [done|]. by apply text_cmp_agree.
  - rewrite bool_decide_eq_false_2 in HQ; [done|]. intros H. by apply E, text_cmp_agree.
Qed.

End keepalive.
