(* ===== verification/HttpTheorems.v ===== *)
(** * What is proved of HTTP: the claims

    Bodies, queries, responses. *)

From Stdlib Require Import String.
From S2P Require Import HttpData Prelude ListSpec ListPtr ListPtrSpec Bytes Arena Error Misc StrMap Sponge SpongeTheorems Interact Socket UrlEncoding ArenaTheorems StrMapTheorems HttpConstants HttpRequest HttpResponse HttpBody HttpStore HttpQuery HttpResponseSpec HttpExamples.
From Stdlib Require Import Sorting.Sorted DecimalString.

(** C15: a read of a request body returns the next bytes of the body that are
    cached from the reading of the headers, at most what was asked for; but if
    more bytes are cached than the body has, because the client has sent
    the next request, a read that asks for more than the rest of the body
    fails an assertion. *)
Theorem http_body_cached {Mem It P W : Type} `{!ListOps Mem It} (malloc : bmem -> Z -> Z)
    (lib : http_parser P) (handle : forall X, netE X -> M (hmem Mem P W) X) (v_bdata HEADER_MAX_SIZE : Z)
    (body_state : P -> Z -> Prop) (Hlaw : body_law lib body_state) (fuel : nat)
    (m : hmem Mem P W) (req buf size : Z) (r : dfk_http_request_t) (p : P) (bs : list Z) (left : Z)
    (Hreq : readable m req r) (Hv : v_bdata <> 0) (Hp : h_parsers m !! req = Some p) (Hs : body_state p left)
    (Hleft : content_length r - _body_nread r = left) (Hpos : 0 < left) (Hread : 0 <= _body_nread r)
    (Hmax : content_length r < SIZE_MOD) (Hsize : 0 < size < SIZE_MOD)
    (Hrem : b_size (_remainder r) = Z.of_nat (length bs)) (Hne : bs <> [])
    (Hlen : Z.of_nat (length bs) < SIZE_MOD)
    (Hbs : bytes_at (hb m) (b_data (_remainder r)) bs) (Hbuf : room_at (hb m) buf size) (Hfuel : (2 <= fuel)%nat) :
  let k := Z.min (Z.min size left) (Z.of_nat (length bs)) in
  let run := dfk_http_request_read malloc lib handle v_bdata HEADER_MAX_SIZE fuel req buf size m in
  (left < size /\ left < Z.of_nat (length bs) -> run = Err AssertFailed) /\
  (~ (left < size /\ left < Z.of_nat (length bs)) -> exists m' p',
    run = Ok (k, m') /\ bytes_at (hb m') buf (take (Z.to_nat k) bs) /\
    h_reqs m' !! req = Some (advance k r) /\ h_parsers m' !! req = Some p' /\
    (k < left -> body_state p' (left - k))).
Proof.
  intros k run.
  destruct (request_read_starts malloc lib handle v_bdata HEADER_MAX_SIZE m req r p buf size fuel Hreq Hp Hv
    ltac:(destruct Hbuf; lia)) as (m1 & Hrun & Hb1 & Hm1 & _).
  destruct fuel as [|[|fuel]]; [lia..|].
  set (body := read_body malloc lib handle v_bdata HEADER_MAX_SIZE (S (S fuel)) req buf) in *.
  assert (0 < Z.of_nat (length bs)) as Hlp by (destruct bs; [done|cbn; lia]).
  assert (Z.of_nat (length (take (Z.to_nat k) bs)) = k) as Hk by (rewrite length_take; lia).
  assert (wp (body (Buf buf size)) m1 (fun x s => x = inl (Buf (buf + k) (size - k)) /\
    exists p', hb s = put_bytes buf (take (Z.to_nat k) bs) (hb m) /\
      body_at v_bdata s req (advance k r) p' (buf + k) (size - k) /\ (k < left -> body_state p' (left - k)))) as Hw.
  { eapply (read_body_cached malloc lib handle v_bdata HEADER_MAX_SIZE body_state Hlaw m1 req r p buf buf size
      (take (Z.to_nat k) bs) left); rewrite ?Hk, ?Hm1; try done; try lia.
    - rewrite <- (take_drop (Z.to_nat k) bs) in Hbs. by apply bytes_app in Hbs as [? _].
    - eapply room_mono; [|exact Hbuf]. lia.
    - intros m2 p' H1 H2 H3. split; [done|]. by exists p'. }
  apply wp_run in Hw as (x & m2 & Hturn & -> & p' & Hm2 & Hb2 & Hs2).
  assert (run = loop (S fuel) body (Buf (buf + k) (size - k)) m2) as -> by by unfold run; rewrite Hrun; apply loop_turn.
  split.
  - intros [H1 H2]. assert (k = left) as Hkl by lia. apply loop_fails.
    apply (read_body_crashes malloc lib handle v_bdata HEADER_MAX_SIZE m2 req (advance k r) p' buf (buf + k));
      [done| |lia| |].
    + change (content_length r = to_size (_body_nread r + k)). rewrite to_size_small; lia.
    + change (0 < to_size (b_size (_remainder r) - k)). rewrite to_size_small; lia.
    + change (b_data (_remainder r) + k <> 0). destruct Hbs. lia.
  - intros Hno. assert (size - k = 0 \/ buf + k <> buf /\ to_size (b_size (_remainder r) - k) = 0) as Hstop
      by (rewrite to_size_small; lia).
    destruct (proj1 (wp_run _ _ _) (read_body_stops malloc lib handle v_bdata HEADER_MAX_SIZE m2 req
      (advance k r) p' buf (buf + k) (size - k) (fun x s => x = inr (buf + k - buf) /\ s = m2) (S (S fuel)) Hb2
      Hstop (conj eq_refl eq_refl))) as (x & s & Hend & -> & ->).
    exists m2, p'. rewrite (loop_ends _ _ _ _ _ _ Hend). split; [by rewrite Z.add_simpl_l|].
    split; [|split; [apply Hb2|split; [apply Hb2|done]]]. rewrite Hm2. apply bytes_put_same. apply Hbuf.
Qed.

Lemma http_body_cached_witness :
  dfk_http_request_read first_fit body_parser no_calls 2000 8192 2 1000 100 16 (sample_http 3 6 false) = Err AssertFailed /\
  exists m', dfk_http_request_read first_fit body_parser no_calls 2000 8192 2 1000 100 2 (sample_http 3 6 false) = Ok (2, m').
Proof.
  assert (forall size, 0 < size <= 16 -> 0 < size < SIZE_MOD /\ room_at (hb (sample_http 3 6 false)) 100 size) as Hsize.
  { intros size Hs. split; [unfold SIZE_MOD, SIZE_BITS; lia|]. apply (room_mono _ _ 16); [lia|]. by apply room_check; vm_compute. }
  split.
  - apply (http_body_cached first_fit body_parser no_calls 2000 8192 eq body_parser_law 2 (sample_http 3 6 false) 1000 100 16
      (sample_request 3 6 false) 3 [104; 105; 33; 71; 69; 84] 3); try done; try (by apply Hsize).
    + by apply sample_readable.
    + by apply bytes_check; vm_compute.
  - destruct (http_body_cached first_fit body_parser no_calls 2000 8192 eq body_parser_law 2 (sample_http 3 6 false) 1000 100 2
      (sample_request 3 6 false) 3 [104; 105; 33; 71; 69; 84] 3) as [_ H]; try done; try (by apply Hsize).
    + by apply sample_readable.
    + by apply bytes_check; vm_compute.
    + destruct H as (m' & p' & Hrun & _); [lia|]. exists m'. exact Hrun.
Defined.

(** C26: without cached bytes a read returns the next bytes of the stream, at
    most what was asked for and what is left of the body, and takes no more
    from it; zero at the end of the stream. *)
Theorem http_body_stream {Mem It P W : Type} `{!ListOps Mem It} (malloc : bmem -> Z -> Z)
    (lib : http_parser P) (handle : forall X, netE X -> M (hmem Mem P W) X) (v_bdata HEADER_MAX_SIZE : Z)
    (body_state : P -> Z -> Prop) (Hlaw : body_law lib body_state) (fuel : nat)
    (m : hmem Mem P W) (req buf size : Z) (r : dfk_http_request_t) (p : P) (q : list Z) (B : gmap Z Z) (left : Z)
    (Hreq : readable m req r) (Hv : v_bdata <> 0) (Hp : h_parsers m !! req = Some p) (Hs : body_state p left)
    (Hleft : content_length r - _body_nread r = left) (Hpos : 0 < left) (Hread : 0 <= _body_nread r)
    (Hmax : content_length r < SIZE_MOD) (Hsize : 0 < size < SIZE_MOD)
    (Hrem : b_size (_remainder r) = 0) (Hmock : _socket_mocked r = true)
    (Hrep : srep (lget hsponge m) (_socket_mock r) q B) (Hbuf : room_at (hb m) buf size)
    (Hoff : off_sponge (lget hsponge m) (_socket_mock r) buf size) (Hfuel : (2 <= fuel)%nat) :
  let k := Z.min (Z.min size left) (Z.of_nat (length q)) in
  exists m' p',
    dfk_http_request_read malloc lib handle v_bdata HEADER_MAX_SIZE fuel req buf size m = Ok (k, m') /\
    bytes_at (hb m') buf (take (Z.to_nat k) q) /\
    srep (lget hsponge m') (_socket_mock r) (drop (Z.to_nat k) q) B /\
    h_reqs m' !! req = Some (read_more k r) /\ h_parsers m' !! req = Some p' /\
    (k < left -> body_state p' (left - k)).
Proof.
  intros k.
  destruct (request_read_starts malloc lib handle v_bdata HEADER_MAX_SIZE m req r p buf size fuel Hreq Hp Hv
    ltac:(destruct Hbuf; lia)) as (m1 & Hrun & Hb1 & Hm1 & Hg1).
  destruct fuel as [|[|fuel]]; [lia..|].
  set (body := read_body malloc lib handle v_bdata HEADER_MAX_SIZE (S (S fuel)) req buf) in *.
  assert (wp (body (Buf buf size)) m1 (fun x s => x = (if q then inr 0 else inl (Buf (buf + k) (size - k))) /\
    exists p', bytes_at (hb s) buf (take (Z.to_nat k) q) /\ srep (lget hsponge s) (_socket_mock r) (drop (Z.to_nat k) q) B /\
      body_at v_bdata s req (read_more k r) p' (buf + k) (size - k) /\ (k < left -> body_state p' (left - k)))) as Hw.
  { eapply (read_body_stream malloc lib handle v_bdata HEADER_MAX_SIZE body_state Hlaw m1 req r p buf size q B left);
      rewrite ?Hm1, ?Hg1; try done; try lia.
    intros m2 p' H1 H2 H3 H4. split; [done|]. by exists p'. }
  apply wp_run in Hw as (x & m2 & Hturn & Hx & p' & Hm2 & Hrep2 & Hb2 & Hs2). rewrite Hrun.
  exists m2, p'. split; [|split; [done|split; [done|split; [apply Hb2|split; [apply Hb2|done]]]]].
  destruct q as [|c q0].
  - subst x. rewrite (loop_ends _ _ _ _ _ _ Hturn). by replace k with 0 by (unfold k; cbn; lia).
  - subst x. rewrite (loop_turn _ _ _ _ _ _ Hturn).
    assert (size - k = 0 \/ buf + k <> buf /\ b_size (_remainder (read_more k r)) = 0) as Hstop.
    { right. split; [unfold k; cbn [length]; lia|done]. }
    destruct (proj1 (wp_run _ _ _) (read_body_stops malloc lib handle v_bdata HEADER_MAX_SIZE m2 req
      (read_more k r) p' buf (buf + k) (size - k) (fun x s => x = inr (buf + k - buf) /\ s = m2) (S (S fuel)) Hb2
      Hstop (conj eq_refl eq_refl))) as (x & s & Hend & -> & ->).
    rewrite (loop_ends _ _ _ _ _ _ Hend). by rewrite Z.add_simpl_l.
Qed.

Lemma http_body_stream_witness : exists m',
  dfk_http_request_read first_fit body_parser no_calls 2000 8192 2 1000 100 16 (sample_http 5 0 true) = Ok (5, m') /\
  bytes_at (hb m') 100 [99; 100; 101; 102; 103].
Proof.
  destruct (http_body_stream first_fit body_parser no_calls 2000 8192 eq body_parser_law 2 (sample_http 5 0 true) 1000 100 16
    (sample_request 5 0 true) 5 [99; 100; 101; 102; 103; 104] ∅ 5) as (m' & p' & Hrun & Hb & _); try done.
  - by apply sample_readable.
  - apply sample_stream.
  - by apply room_check; vm_compute.
  - intros s Hs. cbn in Hs. rewrite lookup_singleton_eq in Hs. injection Hs as <-. right. left. cbn. lia.
  - exists m'. split; [exact Hrun|exact Hb].
Defined.

(** Once the whole body was read, a further read does not report the end
    of the body but fails an assertion, whether bytes are cached, the socket is
    mocked, or it is a TCP socket. *)
Theorem http_body_past_end {Mem It P W : Type} `{!ListOps Mem It} (malloc : bmem -> Z -> Z)
    (lib : http_parser P) (handle : forall X, netE X -> M (hmem Mem P W) X) (v_bdata HEADER_MAX_SIZE : Z)
    (Hassert : forall m, handle _ AssertFails m = Err AssertFailed) (fuel : nat)
    (m : hmem Mem P W) (req buf size : Z) (r : dfk_http_request_t) (p : P) (q : list Z) (B : gmap Z Z)
    (Hreq : readable m req r) (Hv : v_bdata <> 0) (Hp : h_parsers m !! req = Some p)
    (Hdone : content_length r = _body_nread r) (Hsize : 0 < size) (Hbuf : buf <> 0)
    (Hrem : 0 <= b_size (_remainder r)) (Hdata : 0 < b_size (_remainder r) -> b_data (_remainder r) <> 0)
    (Hmock : if _socket_mocked r then srep (lget hsponge m) (_socket_mock r) q B else rq_socket r <> 0)
    (Hfuel : (1 <= fuel)%nat) :
  dfk_http_request_read malloc lib handle v_bdata HEADER_MAX_SIZE fuel req buf size m = Err AssertFailed.
Proof.
  destruct (request_read_starts malloc lib handle v_bdata HEADER_MAX_SIZE m req r p buf size fuel Hreq Hp Hv
    Hbuf) as (m1 & -> & Hb1 & Hm1 & Hg1).
  destruct fuel as [|fuel]; [lia|]. apply loop_fails.
  destruct (Z.eq_dec (b_size (_remainder r)) 0) as [Hr0|Hr0].
  - apply (read_body_nothing malloc lib handle v_bdata HEADER_MAX_SIZE m1 req r p buf size q B (S fuel)); try done; try lia.
    by destruct (_socket_mocked r); [rewrite Hg1|].
  - apply (read_body_crashes malloc lib handle v_bdata HEADER_MAX_SIZE m1 req r p buf buf); try done; try (apply Hdata); lia.
Qed.

Lemma http_body_past_end_witness :
  dfk_http_request_read first_fit body_parser no_calls 2000 8192 2 1000 100 16 (sample_http 0 0 true) = Err AssertFailed /\
  dfk_http_request_read first_fit body_parser no_calls 2000 8192 2 1000 100 16 (sample_http 0 0 false) = Err AssertFailed.
Proof.
  split.
  - apply (http_body_past_end first_fit body_parser no_calls 2000 8192 ltac:(done) 2 (sample_http 0 0 true) 1000 100 16
      (sample_request 0 0 true) 0 [99; 100; 101; 102; 103; 104] ∅); try done; try (cbn; lia).
    + by apply sample_readable.
    + apply sample_stream.
  - apply (http_body_past_end first_fit body_parser no_calls 2000 8192 ltac:(done) 2 (sample_http 0 0 false) 1000 100 16
      (sample_request 0 0 false) 0 [] ∅); try done; try (cbn; lia).
    by apply sample_readable.
Defined.

(** C14: a percent-encoded query [key=value&key=value] becomes the arguments of
    the request, afterwards each key is looked up to the bytes of its value and
    there are no other arguments; or [dfk_err_nomem] is returned, and then the
    allocator refused a block when at most one more than the number of the
    arguments had been added.  This is so if the keys are distinct, no key is a
    prefix of another, keys and values are not empty, a key has no [=] and a
    value no [&] once decoded, and no allocation meets a segment of the arena
    that is exactly full; the code does something else without these
    conditions. *)
Theorem http_query_arguments {Mem It P W : Type} `{!ListOps Mem It, !ListLaws Mem It} (malloc : bmem -> Z -> Z)
    (Hmalloc : malloc_ok malloc) (fuel : nat) (m : hmem Mem P W) (req : Z) (r : dfk_http_request_t)
    (q : list Z) (gs : list gseg) (kvs : list (list Z * list Z))
    (Hquery : query_at m req r q gs) (Hdecoded : url_decode q = (query_text kvs, []))
    (Hne : kvs <> []) (Hpairs : Forall pair_ok kvs) (Hprefix : prefix_free kvs.*1) (Hdistinct : NoDup kvs.*1)
    (Hfull : ~ full (remaining gs)) (Hfits : fits (Some (take_bytes (remaining gs) (Z.of_nat (length q)))) (length kvs))
    (Hfuel : (length q < fuel)%nat) :
  exists x m', parse_query malloc fuel req m = Ok (x, m') /\
    (x = err_code dfk_err_nomem /\
       starved malloc (hb m) (S (length kvs)) (Z.max ARENA_SEGMENT_SIZE (Z.of_nat (length q) + SEGMENT_T)) \/
     x = err_code dfk_err_ok /\
     dfk_strmap_size (arguments req) (h_str m') = Ok (Z.of_nat (length kvs), h_str m') /\
     forall k v kd, (k, v) ∈ kvs -> bytes_at (hb m') kd k -> exists d,
       dfk_strmap_get (arguments req) kd (Z.of_nat (length k)) (h_str m') = Ok (Buf d (Z.of_nat (length v)), h_str m') /\
       bytes_at (hb m') d v).
Proof.
  pose proof (parse_query_spec malloc Hmalloc fuel m req r q gs kvs Hquery Hdecoded Hne Hpairs Hprefix Hdistinct
    Hfull Hfits Hfuel) as Hw.
  apply wp_run in Hw as (x & m' & Hrun & [[-> Hst]|[-> Hrep]]).
  { exists (err_code dfk_err_nomem), m'. split; [done|by left]. }
  exists (err_code dfk_err_ok), m'. split; [done|]. right. split; [done|]. split; [by eapply arguments_size|].
  intros k v kd Hin Hkd. eapply arguments_get; [done|done|done|].
  rewrite Forall_forall in Hpairs. destruct (Hpairs (k, v) Hin) as (H1 & _ & H2 & _). by split.
Qed.

Lemma http_query_arguments_witness : exists m',
  (init_storage 700 (arguments 1000);; parse_query first_fit 10 1000) query_memory = Ok (err_code dfk_err_ok, m') /\
  dfk_strmap_size (arguments 1000) (h_str m') = Ok (2, h_str m').
Proof.
  destruct (init_storage_spec query_memory 700 (arguments 1000) 300 9) as (s & Hinit & Hb & Hmap & Harena & _); try done.
  { by apply room_check; vm_compute. }
  destruct (http_query_arguments first_fit first_fit_ok 10 (lset hstr s query_memory) 1000 query_request sample_query []
    [([97], [49]); ([98], [50])]) as (x & m' & Hrun & Hx); try done.
  - split; [by split| | |].
    + split; [done|]. split; [done|]. repeat constructor; done.
    + change (hb (lset hstr s query_memory)) with (sm_bytes s). rewrite Hb. by apply bytes_check; vm_compute.
    + exists [], [], (blocks (hb query_memory)). split; [exact Harena|exact Hmap|by intros e ?%not_elem_of_nil].
  - apply Forall_cons_2; [|apply Forall_cons_2; [|apply Forall_nil_2]];
      (split_and!; [done|by apply (bool_decide_unpack _); vm_compute|by repeat constructor|done|by apply (bool_decide_unpack _); vm_compute]).
  - apply (bool_decide_unpack _). vm_compute. exact I.
  - apply (bool_decide_unpack _). vm_compute. exact I.
  - cbn. intros H. done.
  - repeat split; vm_compute; intros H; by apply H.
  - vm_compute. lia.
  - assert ((init_storage 700 (arguments 1000);; parse_query first_fit 10 1000) query_memory = Ok (x, m')) as Hall.
    { unfold mbind, M_bind. by rewrite Hinit. }
    assert (match (init_storage 700 (arguments 1000);; parse_query first_fit 10 1000) query_memory with
      | Ok (x, _) => x =? err_code dfk_err_ok | Err _ => false end = true) as Hok by (vm_compute; reflexivity).
    rewrite Hall in Hok. apply Z.eqb_eq in Hok as ->. exists m'. split; [exact Hall|].
    destruct Hx as [[? _]|(_ & Hsz & _)]; [discriminate|exact Hsz].
Defined.

(** ** The text of a response *)

(** A number in decimal notation, by the printer of the standard library. *)
Definition numeral (n : Z) : list Z := text (NilZero.string_of_int (Z.to_int n)).

Definition status_text (major minor st : Z) : list Z :=
  text "HTTP/"%string ++ numeral major ++ text "."%string ++ numeral minor ++ text " "%string ++ numeral st ++ text " "%string ++
  text (dfk_http_reason_phrase st) ++ [13; 10].
Definition header_text (kv : list Z * list Z) : list Z := kv.1 ++ text ": "%string ++ kv.2 ++ [13; 10].

(** What the client gets; [iov] is the array of blocks, which there may be no
    memory for. *)
Definition response_text (iov : Z) (r : dfk_http_response_t) (kvs : list (list Z * list Z)) : list Z :=
  if iov =? 0 then status_text (rs_major_version r) (rs_minor_version r) 500
  else status_text (rs_major_version r) (rs_minor_version r) (status r) ++ mjoin (header_text <$> kvs) ++ [13; 10].

Lemma numeral_spec n : 0 <= n < 1000 -> decimal n = numeral n.
Proof.
  intros Hn. assert (forallb (fun n => bool_decide (decimal n = numeral n)) (Z.of_nat <$> seq 0 1000) = true) as H
    by (vm_compute; reflexivity).
  rewrite forallb_forall in H. specialize (H n). apply bool_decide_eq_true in H; [done|].
  apply list_elem_of_In, list_elem_of_fmap. exists (Z.to_nat n). split; [lia|]. apply elem_of_seq. lia.
Qed.

Lemma status_text_spec major minor st : 0 <= major < 1000 -> 0 <= minor < 1000 -> 100 <= st < 1000 ->
  status_line major minor st = status_text major minor st.
Proof.
  intros H1 H2 H3. assert (padded 3 (decimal st) = numeral st) as Hst.
  { assert (forallb (fun n => bool_decide (padded 3 (decimal n) = numeral n)) (Z.of_nat <$> seq 100 900) = true) as H
      by (vm_compute; reflexivity).
    rewrite forallb_forall in H. specialize (H st). apply bool_decide_eq_true in H; [done|].
    apply list_elem_of_In, list_elem_of_fmap. exists (Z.to_nat st). split; [lia|]. apply elem_of_seq. lia. }
  unfold status_line, status_text. by rewrite Hst, !numeral_spec.
Qed.

Lemma mjoin_pieces {A} (l : list A) (f : A -> list (list Z)) : mjoin (l ≫= f) = mjoin (mjoin <$> (f <$> l)).
Proof. induction l as [|x l IH]; [done|]. cbn. rewrite join_app, IH. done. Qed.

Lemma response_text_spec iov r kvs : 0 <= rs_major_version r < 1000 -> 0 <= rs_minor_version r < 1000 ->
  100 <= status r < 1000 -> mjoin (answer_pieces iov r kvs) = response_text iov r kvs.
Proof.
  intros H1 H2 H3. unfold answer_pieces, response_text, answer_status.
  destruct (iov =? 0); (rewrite status_text_spec; [|done|done|first [done|by vm_compute]]); [apply app_nil_r|].
  unfold response_pieces. cbn [mjoin list_join]. rewrite join_app. f_equal. f_equal. rewrite mjoin_pieces.
  f_equal. rewrite <- list_fmap_compose. apply list_fmap_ext. intros _ kv _. done.
Qed.

(** C7: what a client gets of a response whose headers were set, when it is
    flushed to the stream of the tests: the status line, the headers for which
    there was memory, one to a line in descending order of their names, and an
    empty line; but if there is no memory for the array of blocks only the
    status line of error 500.  The stream gets this text, or if there is no
    memory for it a first part, behind what it held, and the flush returns
    success in any case.  The names of the headers are distinct, and none is a
    prefix of another. *)
Theorem http_response_text {Mem It P W : Type} `{!ListOps Mem It, !ListLaws Mem It} (malloc : bmem -> Z -> Z)
    (Hmalloc : malloc_ok malloc) (literal : String.string -> Z) (handle : forall X, netE X -> M (hmem Mem P W) X)
    (v_buf v_sbuf : Z) (fuel : nat) (m : hmem Mem P W) (resp : Z) (r : dfk_http_response_t)
    (hs : list header_arg) (q : list Z) (B : gmap Z Z)
    (Hnew : new_response literal v_sbuf m resp r hs q B)
    (Hversion : 0 <= rs_major_version r < 1000 /\ 0 <= rs_minor_version r < 1000) (Hstatus : 100 <= status r < 1000)
    (Hprefix : prefix_free (ha_ntext <$> hs)) (Hdistinct : NoDup (ha_ntext <$> hs)) (Hfuel : (length hs < fuel)%nat) :
  exists xs m1 kvs iov a m2 sent B',
    set_headers malloc resp hs m = Ok (xs, m1) /\
    kvs ≡ₚ (header_pair <$> accepted xs hs) /\ StronglySorted key_gt kvs.*1 /\
    dfk_arena_alloc malloc (rs_request_arena r) (IOVEC_T * (4 * Z.of_nat (length kvs) + 2)) (sm_arena (h_str m1)) = Ok (iov, a) /\
    dfk__http_response_flush_headers malloc handle literal v_buf v_sbuf fuel resp m1 = Ok (err_code dfk_err_ok, m2) /\
    h_resps m2 !! resp = Some (r{{status := if iov =? 0 then 500 else status r; _headers_flushed := 1}}) /\
    srep (lget hsponge m2) (rs_socket_mock r) (q ++ sent) B' /\ sent `prefix_of` response_text iov r kvs /\
    (sponge_room (lget hsponge m1) (rs_socket_mock r) (Z.of_nat (length (response_text iov r kvs))) ->
     sent = response_text iov r kvs).
Proof.
  pose proof Hnew as [Hrep _ Htexts _ _ _ _ Hnum].
  assert (Forall (header_ok m) hs) as Hok.
  { eapply Forall_impl; [exact Htexts|]. intros h (H1 & [T1 T2 _ _ _] & [T3 T4 _ _ _]).
    split; [done|]. split; [done|]. split; [done|]. split; [done|by destruct T4]. }
  pose proof (set_headers_spec malloc Hmalloc hs m resp r [] 1 Hrep Hok Hprefix Hdistinct) as Hw.
  apply wp_run in Hw as (xs & m1 & Hset & _ & Hk & Hrep1).
  destruct (response_ready literal v_sbuf m m1 resp r hs xs q B Hnew Hk Hrep1)
    as (es & kvs & B1 & gs & rs & os & Bk & ub & un & Hready & Hperm & Hsorted & Hlen & Harena & Hfull).
  assert (length kvs <= length hs)%nat as Hle by (rewrite Hperm, length_fmap; apply accepted_length).
  assert (wp (dfk_arena_alloc malloc (rs_request_arena r) (IOVEC_T * (4 * Z.of_nat (length es) + 2))) (sm_arena (h_str m1))
    (fun iov a => 0 <= iov /\ grown (hb m1) (ar_bytes a))) as Halloc.
  { eapply wp_mono; [apply wp_wlp; [eapply dfk_arena_alloc_spec; [done|exact Harena|unfold IOVEC_T in *; lia|done]|
      by apply arena_alloc_grows]|].
    intros iov a [[[-> ->]|(Ha & _)] Hg]; (split; [lia|done]). }
  apply wp_run in Halloc as (iov & a & Halloc & Hiov & Hg).
  pose proof (flush_headers_spec literal malloc Hmalloc handle v_sbuf fuel m1 resp r es kvs q B1 v_buf iov a Hready Halloc Hiov Hg
    ltac:(lia)) as Hw. apply wp_run in Hw as (x & m2 & Hflush & -> & Hans).
  destruct Hans as (Hresp & k & B' & _ & Hsent & Hroom). destruct Hversion as [Hv1 Hv2].
  rewrite (response_text_spec iov r kvs) in Hroom by done.
  exists xs, m1, kvs, iov, a, m2, (mjoin (take k (answer_pieces iov r kvs))), B'. rewrite <- Hlen.
  split_and!; try done.
  - rewrite <- (response_text_spec iov r kvs) by done. rewrite <- (take_drop k (answer_pieces iov r kvs)) at 2.
    rewrite join_app. by eexists.
  - intros Hr. rewrite (Hroom Hr), take_ge by lia. by apply response_text_spec.
Qed.

(** The two headers of the example are sent behind the byte that the stream
    held. *)
Definition sample_text_sent : list Z :=
  text "HTTP/1.1 200 OK"%string ++ [13; 10] ++ text "B: 23"%string ++ [13; 10] ++ text "A: 1"%string ++ [13; 10] ++ [13; 10].

Lemma http_response_text_witness : exists xs m1 m2 sent B',
  (init_storage 700 (rs_headers 3000);; set_headers first_fit 3000 sample_headers) response_memory = Ok (xs, m1) /\
  dfk__http_response_flush_headers first_fit no_calls sample_literal 1 600 3 3000 m1 = Ok (err_code dfk_err_ok, m2) /\
  srep (lget hsponge m2) 900 ([88] ++ sent) B' /\ sent `prefix_of` sample_text_sent.
Proof.
  destruct (init_storage_spec response_memory 700 (rs_headers 3000) 600 0) as (s & Hinit & Hb & Hmap & Harena & _); try done.
  { by apply room_check; vm_compute. }
  destruct (http_response_text first_fit first_fit_ok sample_literal no_calls 1 600 3 (lset hstr s response_memory) 3000
    sample_response sample_headers [88] ∅) as (xs & m1 & kvs & iov & a & m2 & sent & B' & Hset & Hperm & Hsort & Hiov & Hflush & _ & Hsent & Hpre & _).
  - by apply sample_new_response.
  - done.
  - done.
  - apply (bool_decide_unpack _). vm_compute. exact I.
  - apply (bool_decide_unpack _). vm_compute. exact I.
  - cbn. lia.
  - assert ((init_storage 700 (rs_headers 3000);; set_headers first_fit 3000 sample_headers) response_memory = Ok (xs, m1)) as Hall.
    { unfold mbind, M_bind. by rewrite Hinit. }
    exists xs, m1, m2, sent, B'. split; [exact Hall|]. split; [exact Hflush|]. split; [exact Hsent|].
    assert (xs = [0; 0] /\ (iov =? 0) = false) as [-> Hne].
    { set (run := (init_storage 700 (rs_headers 3000);; set_headers first_fit 3000 sample_headers) response_memory) in *.
      assert (match run with
        | Ok (xs, m1) => bool_decide (xs = [0; 0]) && match dfk_arena_alloc first_fit 700 (IOVEC_T * 10) (sm_arena (h_str m1)) with
            | Ok (iov, _) => negb (iov =? 0) | Err _ => false end
        | Err _ => false end = true) as Hrun by (vm_compute; reflexivity).
      rewrite Hall in Hrun. apply andb_true_iff in Hrun as [->%bool_decide_eq_true Hal]. split; [done|].
      assert (length kvs = 2%nat) as Hl by (rewrite Hperm; vm_compute; reflexivity). rewrite Hl in Hiov.
      change (dfk_arena_alloc first_fit 700 (IOVEC_T * 10) (sm_arena (h_str m1)) = Ok (iov, a)) in Hiov.
      rewrite Hiov in Hal. by apply negb_true_iff in Hal. }
    assert (header_pair <$> accepted [0; 0] sample_headers = [([65], [49]); ([66], [50; 51])]) as E by (vm_compute; reflexivity).
    rewrite E in Hperm. symmetry in Hperm. apply Permutation_length_2_inv in Hperm as [-> | ->].
    + exfalso. apply StronglySorted_inv in Hsort as [_ Hsort]. apply Forall_cons in Hsort as [Hsort _]. cbn in Hsort. lia.
    + unfold response_text in Hpre. rewrite Hne in Hpre. exact Hpre.
Defined.
