(* ===== verification/HttpServerTheorems.v ===== *)
(** * What is proved of HTTP connections: the claims

    How requests are read and when a connection is closed. *)

From S2P Require Import HttpData Prelude ListSpec ListPtr ListPtrSpec ListSim Bytes Arena Avl Error Misc StrMap StrMapTheorems Sponge Interact Socket HttpRequest HttpResponse HttpServer HttpBody HttpStore HttpExamples HttpCallbacks HttpFrame HttpConnection.
From Stdlib Require Import String.

#[local] Open Scope list_scope.
#[local] Open Scope Z_scope.
#[local] Notation length := Datatypes.length.

(** ** Examples: a parser of blank lines, a client that closes the connection *)

(** A line that begins with the letter A ends the headers and asks for another
    protocol. *)
Definition blank_parser : http_parser Z := {|
  http_parser_init := 0;
  http_parser_execute := fun p data len => LooksAt data (fun b =>
    if b =? 65 then CallsBack OnHeadersComplete (fun _ paused => Parsed (p + 1) 1 (if paused then HPE_PAUSED else HPE_OK))
    else Parsed (p + len) len HPE_OK);
  http_parser_unpause := fun p => p;
  http_major := fun _ => 1;
  http_minor := fun _ => 1;
  parser_method := fun _ => 1;
  http_should_keep_alive := fun _ => true;
  f_chunked := fun _ => false;
  http_parser_parse_url := fun _ => None
|}.

Lemma blank_parser_all : parses_all blank_parser.
Proof.
  intros s data len. constructor. intros b. destruct (b =? 65); [|by constructor].
  constructor. intros x paused ->. by constructor.
Qed.

Definition closing_client (X : Type) (e : netE X) : M hmem0 X :=
  match e with
  | GetSocket _ => mret (TcpSocket 9 3)
  | Read _ _ _ => mret 0
  | Close _ => mret 0
  | _ => fail AssertFailed
  end.

Lemma closing_client_keeps X (e : netE X) : keeps h_https (closing_client X e).
Proof. destruct e; cbn; keeps_all. Qed.

Definition sample_locals : locals := Locals 1100 1200 1300 2000 2200 2400 2500 2600 2700 2900.

Definition sample_literals (s : String.string) : Z :=
  if String.eqb s "Connection" then 310 else if String.eqb s "close" then 320 else 330.

(** A server whose buffers have eight bytes, and the stream of a client. *)
Definition small_server (k : Z) : hmem0 := {|
  h_str := StrMem (AMem ∅ ∅) (ArMem (LMem ∅ ∅) sample_http_bytes ∅ ∅ ∅ []) ∅;
  h_sponges := {[ 900 := Sponge 400 400 8 8 9 ]};
  h_https := {[ 500 := Http 9 k 4 8 8 ]};
  h_reqs := {[ 1300 := (sample_request 5 0 true){{_request_arena := 1200}} ]};
  h_resps := ∅; h_bufitems := ∅; h_hdata := ∅; h_bdata := ∅; h_iovs := ∅;
  h_parsers := ∅;
  h_errno := 0; h_world := tt |}.

Definition small_request : hmem0 :=
  match (init_storage 1200 (headers 1300);; zoom hlists (list_init (_buffers 1300))) (small_server 100) with
  | Ok (_, m) => m
  | Err _ => small_server 100
  end.

(** A header "Connection: c" at 350, and the literals. *)
Definition asking_bytes : bmem :=
  foldr (fun t b => put_bytes t.1 t.2 b) (BMem ∅ ∅)
    [(310, text "Connection"); (320, text "close"); (330, text "Keep-Alive"); (350, text "c")].

Definition asking_server : hmem0 :=
  (small_server 100){{h_str := StrMem (AMem ∅ ∅) (ArMem (LMem ∅ ∅) asking_bytes ∅ ∅ ∅ []) ∅}}.

(** C8: a request is never read in more than one piece: if the headers are not
    complete after the first read the function fails, whether it gets another
    buffer or not, since the parser was given the whole buffer and nothing of
    it is left.  So reading headers is the same as reading once.  The parser
    may stop early for a request to change the protocol. *)
Theorem http_headers_one_read {Mem It P W : Type} `{!ListOps Mem It} (malloc : bmem -> Z -> Z)
    (lib : http_parser P) (handle : forall X, netE X -> M (hmem Mem P W) X)
    (literal : String.string -> Z) (v : locals) (HEADER_MAX_SIZE : Z) (fuel : nat) (bufsize : Z)
    (Hlaw : parses_all lib) (Hhandle : forall X (e : netE X), keeps h_https (handle X e))
    (Hmax : 0 < HEADER_MAX_SIZE) (Hfuel : (2 <= fuel)%nat) (req : Z) (m : hmem Mem P W)
    (Hsize : buffers_of_size bufsize m) :
  dfk__http_request_read_headers malloc lib handle literal (v_pdata v) HEADER_MAX_SIZE fuel req m =
  read_headers_with malloc lib literal v fuel (read_once malloc lib handle v HEADER_MAX_SIZE fuel req) req m.
Proof.
  destruct fuel as [|[|n]]; [lia..|]. set (fuel := S (S n)).
  unfold dfk__http_request_read_headers, read_headers_with.
  apply bind_ext. intros u1 m1 H1. apply bind_ext. intros r m2 H2. apply bind_ext. intros u3 m3 H3.
  apply bind_ext. intros u4 m4 H4. apply bind_ext. intros u5 m5 H5. apply bind_ext. intros a m6 H6.
  assert (h_https m5 = h_https m) as Hm5.
  { pose proof (keeps_assert h_https _ _ _ _ H1) as E1. pose proof (keeps_deref h_https _ _ _ _ _ H2) as E2.
    pose proof (keeps_assert h_https _ _ _ _ H3) as E3.
    pose proof (keeps_store h_https hdata_of _ _ (fun _ _ => eq_refl) _ _ _ H4) as E4.
    pose proof (keeps_store h_https parsers_of _ _ (fun _ _ => eq_refl) _ _ _ H5) as E5. cbn in *. congruence. }
  destruct (new_buf_size malloc bufsize req m5 (sized_keep bufsize m m5 Hsize Hm5) a m6 H6) as [Hs6 Ha].
  destruct (a.1 =? err_code dfk_err_ok) eqn:E; cbn [negb]; [|done]. apply Z.eqb_eq, Ha in E.
  unfold mbind at 1, M_bind at 1. unfold fuel at 1.
  rewrite (read_loop_once malloc lib handle Hhandle v HEADER_MAX_SIZE fuel bufsize n req a.2 m6) by done. done.
Qed.

Lemma http_headers_one_read_witness :
  dfk__http_request_read_headers first_fit blank_parser closing_client sample_literals 2400 4 5 1300 small_request
  = Err AssertFailed.
Proof.
  refine (eq_trans (http_headers_one_read first_fit blank_parser closing_client sample_literals sample_locals 4 5 8
    blank_parser_all closing_client_keeps ltac:(lia) ltac:(lia) 1300 small_request _) _).
  - assert (h_https small_request = {[ 500 := Http 9 100 4 8 8 ]}) as Hh by (vm_compute; reflexivity).
    unfold buffers_of_size. rewrite Hh. by apply map_Forall_singleton.
  - vm_compute. reflexivity.
Defined.

(** C16: if the server limits the requests of a connection
    ([keepalive_requests] is not negative; a negative value means no limit), a
    connection serves at most as many requests as the limit, one at least:
    whatever the parser and the client do, and the application as long as it
    leaves the configuration of the server alone, more turns of the loop than
    that, and the one that notices the end, are never made. *)
Theorem http_keepalive_bound {Mem It P W : Type} `{!ListOps Mem It} (malloc : bmem -> Z -> Z)
    (lib : http_parser P) (handle : forall X, netE X -> M (hmem Mem P W) X)
    (literal : String.string -> Z) (v : locals) (HEADER_MAX_SIZE : Z) (fuel : nat)
    (handler : Z -> Z -> Z -> Z -> M (hmem Mem P W) Z)
    (Hhandle : forall X (e : netE X), keeps h_https (handle X e))
    (Hhandler : forall http req resp user, keeps h_https (handler http req resp user))
    (http sock user : Z) (h : dfk_http_t) (m : hmem Mem P W)
    (Hhttp : h_https m !! http = Some h) (Hlimit : 0 <= keepalive_requests h) (n : nat) :
  let turns n := loop n (connection_body malloc lib handle literal v HEADER_MAX_SIZE fuel handler http sock user) (0, true) m in
  let limit := Z.to_nat (Z.max 1 (keepalive_requests h)) in
  (limit < n)%nat -> turns n = turns (S limit).
Proof.
  intros turns limit Hn. destruct n as [|n]; [lia|]. unfold turns.
  apply (connection_loop_limit malloc lib handle Hhandle literal v HEADER_MAX_SIZE fuel handler Hhandler http sock user h);
    try done; try lia.
Qed.

Lemma http_keepalive_bound_witness : exists m',
  loop 1000 (connection_body first_fit blank_parser closing_client sample_literals sample_locals 4 9 (fun _ _ _ _ => mret 0)
    500 700 0) (0, true) (small_server 1) = Ok (tt, m').
Proof.
  eexists. refine (eq_trans (http_keepalive_bound first_fit blank_parser closing_client sample_literals sample_locals 4 9
    (fun _ _ _ _ => mret 0) closing_client_keeps _ 500 700 0 (Http 9 1 4 8 8) (small_server 1) _ _ 1000 _) _).
  - intros. apply keeps_ret.
  - done.
  - done.
  - cbn. lia.
  - vm_compute. reflexivity.
Defined.

(** C27: whether the client wants the connection to stay open: a value of its
    header "Connection" that agrees with "Keep-Alive" as far as both go means
    yes, one that agrees with "close" no ("c" does), any other value leaves
    the matter as it was, for HTTP 1.0 too; without a value the answer is yes
    unless the request is of HTTP 1.0. *)
Theorem http_keepalive_decision {Mem It P W : Type} `{!ListOps Mem It} (literal : String.string -> Z)
    (m : hmem Mem P W) (req : Z) (r : dfk_http_request_t) (es : list entry) (v : list Z) (old : bool)
    (Hreq : req <> 0) (Hr : h_reqs m !! req = Some r) (Hheaders : map_rep (h_str m) (headers req) es)
    (Hvalue : b_size (map_get es (text "Connection")) = Z.of_nat (length v))
    (Hbytes : v <> [] -> bytes_at (hb m) (b_data (map_get es (text "Connection"))) v)
    (Hname : bytes_at (hb m) (literal "Connection"%string) (text "Connection"))
    (Hclose : bytes_at (hb m) (literal "close"%string) (text "close"))
    (Halive : bytes_at (hb m) (literal "Keep-Alive"%string) (text "Keep-Alive")) :
  requested_keepalive literal req old m = Ok (asked_keepalive v old r, m).
Proof.
  assert (wp (requested_keepalive literal req old) m (fun x m' => x = asked_keepalive v old r /\ m' = m)) as Hw;
    [|by apply wp_run in Hw as (x & m' & Hrun & -> & ->)].
  unfold requested_keepalive, asked_keepalive. apply wp_bind.
  eapply (wp_read_str m _ (fun b => b = map_get es (text "Connection"))).
  { eapply wp_mono; [eapply (dfk_strmap_get_spec _ _ _ _ _ _ Hheaders)|by intros b t [-> ->]].
    split; [done|exact Hname|done|by apply (bool_decide_unpack _); vm_compute]. }
  intros b ->. rewrite Hvalue. destruct (map_get es (text "Connection")) as [d sz]. cbn [b_size b_data] in *. subst sz.
  destruct (decide (v = [])) as [->|Hne]; cbn [negb Z.eqb length Z.of_nat].
  - apply wp_bind. eapply wp_deref; [done|exact Hr|]. apply wp_ret. split; [|done]. f_equal.
    rewrite bool_decide_and. f_equal; (destruct (_ =? _) eqn:E; [apply Z.eqb_eq in E|apply Z.eqb_neq in E]; by case_bool_decide).
  - specialize (Hbytes Hne). rewrite (proj2 (Z.eqb_neq _ _)) by (destruct v; cbn; [done|lia]). cbn [negb].
    apply wp_bind, starts_like_spec; [by apply (bool_decide_unpack _); vm_compute|exact Hbytes|exact Hclose|].
    apply wp_bind, starts_like_spec; [by apply (bool_decide_unpack _); vm_compute|exact Hbytes|exact Halive|].
    apply wp_ret. split; [|done]. by repeat case_bool_decide; repeat case_decide.
Qed.

Lemma http_keepalive_decision_witness : exists o s,
  (dfk_strmap_init (headers 1300);; run_map_cmd (headers 1300) (MInsert 64 (text "Connection") 310 (Buf 350 1)))
    (h_str asking_server) = Ok (o, s) /\
  requested_keepalive sample_literals 1300 true (lset hstr s asking_server) = Ok (false, lset hstr s asking_server).
Proof.
  pose proof (singleton_rep (h_str asking_server) (headers 1300) 64 (text "Connection") 310 (Buf 350 1)) as Hw.
  apply wp_run in Hw as (o & s & Hrun & Ha & (e & Hrep & Hk & He & Hv)).
  - exists o, s. split; [exact Hrun|].
    assert (map_get [e] (text "Connection") = Buf 350 1) as Hget.
    { unfold map_get. rewrite filter_cons_True by by rewrite Hk. exact Hv. }
    assert (forall p t, bytes_at asking_bytes p t -> bytes_at (hb (lset hstr s asking_server)) p t) as Hb.
    { intros p t Ht. unfold hb, sm_bytes, lset. cbn. by rewrite Ha. }
    refine (http_keepalive_decision sample_literals (lset hstr s asking_server) 1300
      ((sample_request 5 0 true){{_request_arena := 1200}}) [e] (text "c") true _ _ _ _ _ _ _ _); try done.
    + by rewrite Hget.
    + intros _. rewrite Hget. apply Hb. by apply bytes_check; vm_compute.
    + apply Hb. by apply bytes_check; vm_compute.
    + apply Hb. by apply bytes_check; vm_compute.
    + apply Hb. by apply bytes_check; vm_compute.
  - done.
  - done.
  - split; [done|by apply bytes_check; vm_compute|done|by apply (bool_decide_unpack _); vm_compute].
  - by left.
Defined.

(** C28: it does not matter in how many adjacent pieces the parser hands over a
    url, the name of a header field or its value: the callbacks accept the
    pieces exactly if they accept the whole, and the state is the same then. *)
Theorem http_fragments {Mem It P W : Type} `{!ListOps Mem It} (malloc : bmem -> Z -> Z) (HEADER_MAX_SIZE p a : Z)
    (c : collector) (ns : list Z) (m m' : hmem Mem P W)
    (Hmax : 0 < HEADER_MAX_SIZE < PTRDIFF_MAX) (Hs : sane HEADER_MAX_SIZE p c m) (Ha : 0 < a)
    (Hpos : Forall (fun n => 0 < n) ns) (Hne : ns <> []) (Htotal : total ns < PTRDIFF_MAX) :
  pieces (collect malloc HEADER_MAX_SIZE p c) a ns m = Ok (0, m') <->
  collect malloc HEADER_MAX_SIZE p c a (total ns) m = Ok (0, m').
Proof. eapply pieces_whole; [by apply collector_collects|done..]. Qed.

Lemma http_fragments_witness : exists m',
  pieces (collect first_fit 8 2400 Value) 356 [2; 3]
    ((small_server 100){{h_hdata := {[ 2400 := HeaderData 1300 (Buf 350 4) no_buf 0 ]}}}) = Ok (0, m').
Proof.
  eexists. refine (proj2 (http_fragments first_fit 8 2400 356 Value [2; 3] _ _ _ _ _ _ _ _) _).
  - by vm_compute.
  - intros d Hd. assert (d = HeaderData 1300 (Buf 350 4) no_buf 0) as -> by (vm_compute in Hd; by injection Hd). by left.
  - lia.
  - by repeat constructor.
  - done.
  - by vm_compute.
  - vm_compute. reflexivity.
Defined.
