(* ===== verification/FileServer.v ===== *)
(** * [middleware/fileserver.c]: static files

    Calls of the file system are events; the kernel answers them from a state
    of its own and does not touch the memory of the program.  [readdir_r]
    writes its entry to memory; the model writes what the event returns. *)

From S2P Require Import HttpData Prelude ListSpec Bytes Arena Avl Error Misc StrMap Sponge Interact Socket HttpConstants HttpRequest HttpResponse.
From Stdlib Require Import String Ascii.

#[local] Open Scope list_scope.
Open Scope Z_scope.

(** ** The interface of the operating system, Linux's values *)

Definition ENOENT : Z := 2.
Definition ENOTDIR : Z := 20.
Definition S_IFDIR : Z := 16384.
Definition DT_DIR : Z := 4.
Definition DT_REG : Z := 8.

Variant stat_result := StatOk (st_mode st_size : Z) | StatFails.
Variant readdir_result := DirEntry (d_type : Z) (d_name : list Z) | DirEnd | DirFails.

Variant fsE : Type -> Type :=
| Stat (path : list Z) : fsE stat_result
| FsErrno : fsE Z
| Opendir (path : list Z) : fsE Z
| Readdir (dp : Z) : fsE readdir_result
| Closedir (dp : Z) : fsE unit
| Fopen (path : list Z) : fsE Z
| Fread (f n : Z) : fsE (list Z)
| Fclose (f : Z) : fsE unit.

(** ** Data *)

Record dfk_fileserver_t := FileServer {
  _basepath : Z; _basepathlen : Z; fs_dfk : Z; io_buf_size : Z; autoindex : bool
}.

(** What the environment is made of: the objects, [dfk->sys_errno], and what
    the kernel knows. *)
Record fworld (E : Type) := FWorld { fw_objects : gmap Z dfk_fileserver_t; fw_sys_errno : Z; fw_env : E }.
Arguments FWorld {E}.
Arguments fw_objects {E}.
Arguments fw_sys_errno {E}.
Arguments fw_env {E}.

(** A [dirent_list_item_t]: the hook, then the entry. *)
Definition DIRENT_ITEM_T : Z := 296.
Definition d_type_of (item : Z) : Z := item + 34.
Definition d_name_of (item : Z) : Z := item + 35.
Definition NAME_SIZE : Z := 256.

Definition DFK_FILESERVER_BUFFER_SIZE : Z := 4096.
Definition DFK_HTTP_GET : Z := 1.

Definition newline : string := String "010"%char EmptyString.
Definition quote : string := String "034"%char EmptyString.
Definition autoindex_header_1 : string :=
  "<html>" ++ newline ++ "  <head>" ++ newline ++ "    <title>Directory listing for ".
Definition autoindex_header_2 : string :=
  "</title>" ++ newline ++ "  </head>" ++ newline ++ "  <body>" ++ newline ++ "    <h2>Directory listing for ".
Definition autoindex_header_3 : string :=
  "</h2>" ++ newline ++ "    <hr>" ++ newline ++ "    <ul>" ++ newline.
Definition autoindex_footer : string :=
  "    </ul>" ++ newline ++ "    <hr>" ++ newline ++ "  </body>" ++ newline ++ "</html>" ++ newline.

(** [DFK_SIZE] of the array that holds a text, with its NUL. *)
Definition array_size (s : string) : Z := Z.of_nat (String.length s) + 1.

Section fileserver.
Context {Mem It P E : Type} `{!ListOps Mem It}.
#[local] Notation hm := (hmem Mem P (fworld E)).
Context (malloc : bmem -> Z -> Z).
Context (handle : forall X, netE X -> M hm X) (sys : forall X, fsE X -> M E X).
(** Addresses of literals and arrays of text; of local variables. *)
Context (literal : string -> Z) (v_buf v_sbuf v_iov v_filelist : Z) (fuel : nat).

Definition objects_of : heap_of hm dfk_fileserver_t :=
  Heap (fun m => fw_objects (h_world m)) (fun h m => m{{h_world := (h_world m){{fw_objects := h}}}}).
Definition henv : lens hm E :=
  Lens (fun m => fw_env (h_world m)) (fun e m => m{{h_world := (h_world m){{fw_env := e}}}}).
Definition set_sys_errno (e : Z) : M hm unit := modify (fun m => m{{h_world := (h_world m){{fw_sys_errno := e}}}}).

Definition os {X} (e : fsE X) : M hm X := zoom henv (sys X e).

(** The functions [malloc] and [free] of the context, called directly. *)
Definition raw_malloc (n : Z) : M hm Z :=
  zoom hbytes (res ← gets (fun m => malloc m n); when (nonnull res) (modify (add_block res n));; mret res).
Definition raw_free (p : Z) : M hm unit :=
  zoom hbytes (if isnull p then mret tt else
    m ← Prelude.get;
    match blocks m !! p with
    | Some n => modify (remove_block p n)
    | None => fail WildPtr
    end).

Definition dfk_fileserver_init (fs dfk basepath basepathlen : Z) : M hm Z :=
  c_assert (nonnull fs);;
  c_assert (nonnull dfk);;
  c_assert (nonnull basepath);;
  p ← raw_malloc basepathlen;
  update objects_of fs (fun f => f{{_basepath := p}});;
  if isnull p then mret (err_code dfk_err_nomem) else
  zoom hbytes (memcpy p basepath basepathlen);;
  update objects_of fs (fun f => f{{_basepathlen := basepathlen; fs_dfk := dfk;
    io_buf_size := DFK_FILESERVER_BUFFER_SIZE; autoindex := true}});;
  mret (err_code dfk_err_ok).

Definition dfk_fileserver_free (fs : Z) : M hm Z :=
  f ← deref objects_of fs;
  raw_free (_basepath f);;
  mret (err_code dfk_err_ok).

(** [ignore_file] on the entry of [item]; [&&] and [||] evaluate what they need. *)
Definition ignore_file (item : Z) : M hm bool :=
  t ← zoom hbytes (load (d_type_of item));
  if Z.land t (Z.lor DT_DIR DT_REG) =? 0 then mret false else
  c0 ← zoom hbytes (load (d_name_of item));
  if negb (c0 =? 46) then mret false else
  c1 ← zoom hbytes (load (d_name_of item + 1));
  if c1 =? 0 then mret true else
  if negb (c1 =? 46) then mret false else
  c2 ← zoom hbytes (load (d_name_of item + 2));
  mret (c2 =? 0).

(** C's strings: the bytes before the NUL; [n] bounds their number. *)
Fixpoint c_string (n : nat) (p : Z) : M bmem (list Z) :=
  match n with
  | O => fail OutOfFuel
  | S n => c ← load p; if c =? 0 then mret [] else cs ← c_string n (p + 1); mret (c :: cs)
  end.

Fixpoint strnlen (n : nat) (p : Z) : M bmem Z :=
  match n with
  | O => mret 0
  | S n => c ← load p; if c =? 0 then mret 0 else l ← strnlen n (p + 1); mret (l + 1)
  end.

(** [response->status = ..; return dfk_err_ok;] *)
Definition answer (response : Z) (s : dfk_http_status_e) : M hm Z :=
  update resps_of response (fun r => r{{status := status_code s}});;
  mret (err_code dfk_err_ok).

(** ** Directories *)

(** The inner loop: [None] is an error, otherwise whether an entry was found. *)
Definition readdir_body (dp dei : Z) (_ : unit) : M hm (unit + option bool) :=
  res ← os (Readdir dp);
  match res with
  | DirFails => mret (inr None)
  | DirEnd => mret (inr (Some false))
  | DirEntry t name =>
      zoom hbytes (write_bytes (d_type_of dei) [t];; write_bytes (d_name_of dei) (name ++ [0]));;
      ignored ← ignore_file dei;
      if ignored : bool then mret (inl tt) else
      zoom hlists (list_append v_filelist dei);;
      mret (inr (Some true))
  end.

(** The outer loop; [false] when it fails. *)
Definition list_dir_body (arena dp : Z) (_ : unit) : M hm (unit + bool) :=
  dei ← zoom harena (dfk_arena_alloc malloc arena DIRENT_ITEM_T);
  if isnull dei then os (Closedir dp);; mret (inr false) else
  zoom hlists (hook_init dei);;
  r ← loop fuel (readdir_body dp dei) tt;
  match r with
  | None => os (Closedir dp);; mret (inr false)
  | Some true => mret (inl tt)
  | Some false => mret (inr true)
  end.

(** [iov\[iiov++\] = ..] *)
Definition push (iov i p n : Z) : M hm Z :=
  store iovs_of (iov + IOVEC_T * i) (Iovec p n);; mret (i + 1).

(** The entry of one file; the state is the iterator and [iiov]. *)
Definition index_body (request iov : Z) (separator : bool) (end_ : It) (st : It * Z) : M hm ((It * Z) + Z) :=
  let '(it, i) := st in
  stop ← zoom hlists (list_it_equal it end_);
  if stop : bool then mret (inr i) else
  let item := it_value it in
  i ← push iov i (literal ("      <li><a href=" ++ quote)) 19;
  r ← deref reqs_of request;
  i ← push iov i (b_data (path r)) (b_size (path r));
  i ← (if separator then push iov i (literal "/") 1 else mret i);
  namelen ← zoom hbytes (strnlen (Z.to_nat NAME_SIZE) (d_name_of item));
  i ← push iov i (d_name_of item) namelen;
  i ← push iov i (literal (quote ++ ">")) 2;
  i ← push iov i (d_name_of item) namelen;
  i ← push iov i (literal ("</a></li>" ++ newline)) 10;
  it' ← zoom hlists (list_it_next it);
  mret (inl (it', i)).

Definition total_length (vs : list dfk_iovec_t) : Z := foldl (fun n v => to_size (n + Sponge.iov_size v)) 0 vs.

Definition send_index (request response : Z) : M hm Z :=
  n ← zoom hlists (list_size v_filelist);
  r ← deref reqs_of request;
  last ← zoom hbytes (load (b_data (path r) + b_size (path r) - 1));
  let separator := negb (last =? 47) in
  let niov := to_size (6 + 6 * n + (if separator then n else 0)) in
  iov ← zoom harena (dfk_arena_alloc malloc (_request_arena r) (to_size (niov * IOVEC_T)));
  if isnull iov then answer response DFK_HTTP_INTERNAL_SERVER_ERROR else
  i ← push iov 0 (literal autoindex_header_1) (array_size autoindex_header_1);
  i ← push iov i (b_data (path r)) (b_size (path r));
  i ← push iov i (literal autoindex_header_2) (array_size autoindex_header_2);
  i ← push iov i (b_data (path r)) (b_size (path r));
  i ← push iov i (literal autoindex_header_3) (array_size autoindex_header_3);
  it ← zoom hlists (list_begin v_filelist);
  end_ ← zoom hlists (list_end v_filelist);
  i ← loop fuel (index_body request iov separator end_) (it, i);
  push iov i (literal autoindex_footer) (array_size autoindex_footer);;
  vs ← read_iovs iov (Z.to_nat niov);
  update resps_of response (fun s => s{{rs_content_length := total_length vs}});;
  dfk_http_response_writev malloc handle literal v_buf v_sbuf fuel response iov niov;;
  answer response DFK_HTTP_OK.

Definition serve_directory (f : dfk_fileserver_t) (request response : Z) (fullpath : list Z) : M hm Z :=
  if negb (autoindex f) then answer response DFK_HTTP_NOT_FOUND else
  dp ← os (Opendir fullpath);
  zoom hlists (list_init v_filelist);;
  if isnull dp then answer response DFK_HTTP_INTERNAL_SERVER_ERROR else
  r ← deref reqs_of request;
  ok ← loop fuel (list_dir_body (_request_arena r) dp) tt;
  if negb ok then answer response DFK_HTTP_INTERNAL_SERVER_ERROR else
  os (Closedir dp);;
  send_index request response.

(** ** Files *)

(** The loop [while (towrite)]: [None] at its end, otherwise the error. *)
Definition send_body (f : dfk_fileserver_t) (response file buffer : Z) (towrite : Z) : M hm (Z + option Z) :=
  if towrite =? 0 then mret (inr None) else
  let toread := Z.min (io_buf_size f) towrite in
  bs ← os (Fread file toread);
  zoom hbytes (write_bytes buffer bs);;
  let nread := Z.of_nat (Datatypes.length bs) in
  if nread <? toread then
    e ← os FsErrno;
    set_sys_errno e;;
    os (Fclose file);;
    raw_free buffer;;
    mret (inr (Some (err_code dfk_err_sys)))
  else
    nwritten ← dfk_http_response_write malloc handle literal v_buf v_sbuf v_iov fuel response buffer nread;
    if nwritten <? 0 then
      os (Fclose file);;
      raw_free buffer;;
      e ← gets h_errno;
      mret (inr (Some e))
    else
      c_assert (nwritten <=? towrite);;
      mret (inl (to_size (towrite - nwritten))).

Definition serve_file (f : dfk_fileserver_t) (response : Z) (fullpath : list Z) (st_size : Z) : M hm Z :=
  update resps_of response (fun s => s{{rs_content_length := to_size st_size}});;
  file ← os (Fopen fullpath);
  if isnull file then answer response DFK_HTTP_INTERNAL_SERVER_ERROR else
  buffer ← raw_malloc (io_buf_size f);
  if isnull buffer then
    os (Fclose file);;
    answer response DFK_HTTP_INTERNAL_SERVER_ERROR
  else
    r ← loop fuel (send_body f response file buffer) (to_size st_size);
    match r with
    | Some e => mret e
    | None =>
        os (Fclose file);;
        raw_free buffer;;
        mret (err_code dfk_err_ok)
    end.

(** [fullpath]: its address, or NULL. *)
Definition make_path (f : dfk_fileserver_t) (request : Z) : M hm Z :=
  r ← deref reqs_of request;
  let fullpathlen := to_size (_basepathlen f + b_size (path r) + 1) in
  fullpath ← zoom harena (dfk_arena_alloc malloc (_request_arena r) fullpathlen);
  if isnull fullpath then mret 0 else
  zoom hbytes (memcpy fullpath (_basepath f) (_basepathlen f);;
    memcpy (fullpath + _basepathlen f) (b_data (path r)) (b_size (path r));;
    store_byte (fullpath + fullpathlen - 1) 0);;
  mret fullpath.

(** [ud]: the address of the file server. *)
Definition dfk_fileserver_handler (ud http request response : Z) : M hm Z :=
  r ← deref reqs_of request;
  if negb (method r =? DFK_HTTP_GET) then answer response DFK_HTTP_METHOD_NOT_ALLOWED else
  f ← deref objects_of ud;
  p ← make_path f request;
  if isnull p then answer response DFK_HTTP_INTERNAL_SERVER_ERROR else
  fullpath ← zoom hbytes (c_string fuel p);
  st ← os (Stat fullpath);
  match st with
  | StatFails =>
      errno ← os FsErrno;
      if (errno =? ENOENT) || (errno =? ENOTDIR) then answer response DFK_HTTP_NOT_FOUND
      else answer response DFK_HTTP_INTERNAL_SERVER_ERROR
  | StatOk st_mode st_size =>
      if negb (Z.land st_mode S_IFDIR =? 0) then serve_directory f request response fullpath
      else serve_file f response fullpath st_size
  end.

End fileserver.
