(* ===== verification/FileIndex.v ===== *)
(** * The index of a directory: the page and its blocks *)

From S2P Require Import HttpData Prelude ListSeg ListSpec Bytes Arena ArenaTheorems Avl Error Misc StrMap StrMapTheorems Sponge Interact Socket HttpConstants HttpRequest HttpResponse HttpBody HttpStore HttpResponseSpec FileServer.
From Stdlib Require Import String.

#[local] Open Scope list_scope.
#[local] Open Scope Z_scope.
#[local] Notation length := Datatypes.length.

(** ** The page *)

Definition item_open : string := ("      <li><a href=" ++ quote)%string.
Definition item_middle : string := (quote ++ ">")%string.
Definition item_close : string := ("</a></li>" ++ newline)%string.

(** An array of characters is sent with its NUL. *)
Definition array_text (s : string) : list Z := text s ++ [0].

Definition entry_pieces (pth : list Z) (separator : bool) (name : list Z) : list (list Z) :=
  [text item_open; pth] ++ (if separator then [text "/"] else []) ++ [name; text item_middle; name; text item_close].

Definition index_pieces (pth : list Z) (separator : bool) (names : list (list Z)) : list (list Z) :=
  [array_text autoindex_header_1; pth; array_text autoindex_header_2; pth; array_text autoindex_header_3]
  ++ (names ≫= entry_pieces pth separator) ++ [array_text autoindex_footer].

Section index.
Context {Mem It P E : Type} `{!ListOps Mem It, !ListLaws Mem It}.
#[local] Notation hm := (hmem Mem P (fworld E)).
Context (literal : string -> Z) (v_filelist : Z).

(** The block [v] is the text [bs]. *)
Definition block_is (m : hm) (v : dfk_iovec_t) (bs : list Z) : Prop :=
  Sponge.iov_size v = Z.of_nat (length bs) /\ bytes_at (hb m) (Sponge.iov_data v) bs.

(** The literals of the page. *)
Definition index_literals (m : hm) : Prop :=
  Forall (fun s => bytes_at (hb m) (literal s) (text s)) [item_open; item_middle; item_close; "/"%string] /\
  Forall (fun s => bytes_at (hb m) (literal s) (array_text s))
    [autoindex_header_1; autoindex_header_2; autoindex_header_3; autoindex_footer].

(** An entry of the list: a name as [readdir_r] leaves it. *)
Definition named (m : hm) (item : Z) (name : list Z) : Prop :=
  bytes_at (hb m) (d_name_of item) (name ++ [0]) /\ no_nul name /\ Z.of_nat (length name) < NAME_SIZE.

Lemma push_spec {A} m iov vs h i p n (k : Z -> M hm A) (Q : A -> hm -> Prop) : 0 < iov -> i = Z.of_nat (length vs) ->
  wp (k (Z.of_nat (length (vs ++ [Iovec p n])))) (with_iovs (put_iovs iov (vs ++ [Iovec p n]) h) m) Q ->
  wp (i ← push iov i p n; k i) (with_iovs (put_iovs iov vs h) m) Q.
Proof.
  intros Hiov Hi Hk. unfold push. apply wp_bind, store_iov; [done|done|]. apply wp_ret.
  rewrite length_app in Hk. cbn [length] in Hk. replace (i + 1) with (Z.of_nat (length vs + 1)) by lia. exact Hk.
Qed.

Lemma strnlen_spec cs : forall n (m : bmem) p, bytes_at m p (cs ++ [0]) -> no_nul cs -> (length cs < n)%nat ->
  wp (strnlen n p) m (fun r m' => r = Z.of_nat (length cs) /\ m' = m).
Proof.
  induction cs as [|c cs IH]; intros [|n] m p Hb Hz Hn; try (cbn in Hn; lia); cbn [strnlen app] in *;
    apply bytes_cons in Hb as (Hp & Hc & Hb); apply wp_bind; (eapply wp_load; [lia|exact Hc|]).
  - by apply wp_ret.
  - apply Forall_cons in Hz as [Hc0 Hz]. rewrite (proj2 (Z.eqb_neq _ _)) by done. apply wp_bind.
    eapply wp_mono; [by apply IH; [..|cbn in Hn; lia]|]. intros r m' [-> ->]. apply wp_ret. split; [cbn; lia|done].
Qed.

(** A read of bytes, or of a list, in the memory of HTTP. *)
Lemma wp_read_bytes_h {A} (m : hm) (c : M bmem A) (R : A -> Prop) (Q : A -> hm -> Prop) :
  wp c (hb m) (fun a b => R a /\ b = hb m) -> (forall a, R a -> Q a m) -> wp (zoom hbytes c) m Q.
Proof.
  intros Hc HQ. apply wp_zoom. eapply wp_mono; [exact Hc|]. intros a b [HR ->].
  replace (lset hbytes (hb m) m) with m by (by destruct m as [[? [] ?] ? ? ? ? ? ? ? ? ? ? ?]). by apply HQ.
Qed.
Lemma wp_read_hlist {A} (m : hm) (c : M Mem A) (R : A -> Prop) (Q : A -> hm -> Prop) :
  wp c (lget hlists m) (fun a l => R a /\ l = lget hlists m) -> (forall a, R a -> Q a m) -> wp (zoom hlists c) m Q.
Proof.
  intros Hc HQ. apply wp_zoom. eapply wp_mono; [exact Hc|]. intros a b [HR ->].
  replace (lset hlists (lget hlists m) m) with m by (by destruct m as [[? [] ?] ? ? ? ? ? ? ? ? ? ? ?]). by apply HQ.
Qed.

(** The blocks of one entry. *)
Definition entry_blocks (u : dfk_buf_t) (separator : bool) (item n : Z) : list dfk_iovec_t :=
  [Iovec (literal item_open) 19; Iovec (b_data u) (b_size u)] ++ (if separator then [Iovec (literal "/") 1] else [])
  ++ [Iovec (d_name_of item) n; Iovec (literal item_middle) 2; Iovec (d_name_of item) n; Iovec (literal item_close) 10].

Lemma entry_blocks_are (m : hm) u separator item pth name : index_literals m -> block_is m (Iovec (b_data u) (b_size u)) pth ->
  named m item name ->
  Forall2 (block_is m) (entry_blocks u separator item (Z.of_nat (length name))) (entry_pieces pth separator name).
Proof.
  intros [Hl _] Hu (Hn & _ & _). rewrite !Forall_cons in Hl. destruct Hl as (H1 & H2 & H3 & H4 & _).
  apply bytes_app in Hn as [Hn _].
  unfold entry_blocks, entry_pieces. destruct separator; cbn [app]; repeat apply Forall2_cons_2; try apply Forall2_nil_2; try exact Hu; (split; [reflexivity|assumption]).
Qed.

Lemma index_step fuel (m : hm) request r pth separator xs pre x suf name it end_ iov vs h :
  request <> 0 -> h_reqs m !! request = Some r -> named m x name ->
  (exists σ, lrep (lget hlists m) σ /\ chains σ !! v_filelist = Some xs) -> xs = pre ++ x :: suf ->
  it_at it pre (x :: suf) -> it_at end_ xs [] -> 0 < iov ->
  (forall it', it_at it' (pre ++ [x]) suf -> wp (loop fuel (index_body literal request iov separator end_)
      (it', Z.of_nat (length (vs ++ entry_blocks (path r) separator x (Z.of_nat (length name))))))
    (with_iovs (put_iovs iov (vs ++ entry_blocks (path r) separator x (Z.of_nat (length name))) h) m) pth) ->
  wp (loop (S fuel) (index_body literal request iov separator end_) (it, Z.of_nat (length vs)))
    (with_iovs (put_iovs iov vs h) m) pth.
Proof.
  intros Hr0 Hr (Hnb & Hnz & Hnl) (σ & Hrep & Hch) -> Hit Hend Hiov Hnext. apply wp_loop_step. unfold index_body.
  apply wp_bind, (wp_read_hlist _ _ (fun b => b = false)).
  { eapply wp_mono; [eapply (law_it_equal _ σ _ (pre ++ x :: suf) it pre (x :: suf) end_ (pre ++ x :: suf) []); try done; by rewrite app_nil_r|].
    intros b l [-> ->]. split; [by apply bool_decide_false|done]. }
  intros b ->. rewrite (it_at_value _ _ _ Hit). change (head_or 0 (x :: suf)) with x.
  apply push_spec; [done|done|]. apply wp_bind. eapply wp_deref; [done|exact Hr|].
  apply push_spec; [done|done|].
  assert (forall ws (k : Z -> M hm ((It * Z) + Z)) (Q : (It * Z) + Z -> hm -> Prop),
    (forall ws', ws' = ws ++ (if separator then [Iovec (literal "/") 1] else []) ->
      wp (k (Z.of_nat (length ws'))) (with_iovs (put_iovs iov ws' h) m) Q) ->
    wp (i ← (if separator then push iov (Z.of_nat (length ws)) (literal "/") 1 else mret (Z.of_nat (length ws))); k i)
      (with_iovs (put_iovs iov ws h) m) Q) as Hsep.
  { intros ws k Q Hk. destruct separator; [apply push_spec; [done|done|by apply Hk]|].
    apply wp_bind, wp_ret. specialize (Hk ws). rewrite app_nil_r in Hk. by apply Hk. }
  apply Hsep. intros ws' Hws'.
  apply wp_bind, (wp_read_bytes_h _ _ (fun n => n = Z.of_nat (length name))).
  { apply strnlen_spec; [exact Hnb|done|]. unfold NAME_SIZE in *. lia. }
  intros n ->. do 4 (apply push_spec; [done|done|]).
  apply wp_bind, (wp_read_hlist _ _ (fun it' => it_at it' (pre ++ [x]) suf)).
  { by eapply law_it_next. }
  intros it' Hit'. apply wp_ret.
  replace ((((ws' ++ [_]) ++ [_]) ++ [_]) ++ [_]) with (vs ++ entry_blocks (path r) separator x (Z.of_nat (length name))).
  - by apply Hnext.
  - rewrite Hws'. unfold entry_blocks. by rewrite <- !app_assoc.
Qed.

Lemma index_loop request r pth separator iov h end_ suf : forall fuel m pre names it vs,
  request <> 0 -> h_reqs m !! request = Some r -> Forall2 (named m) suf names ->
  (exists σ, lrep (lget hlists m) σ /\ chains σ !! v_filelist = Some (pre ++ suf)) ->
  index_literals m -> block_is m (Iovec (b_data (path r)) (b_size (path r))) pth ->
  it_at it pre suf -> it_at end_ (pre ++ suf) [] -> 0 < iov -> (length suf < fuel)%nat ->
  wp (loop fuel (index_body literal request iov separator end_) (it, Z.of_nat (length vs)))
    (with_iovs (put_iovs iov vs h) m) (fun i m' => exists ws,
      Forall2 (block_is m) ws (names ≫= entry_pieces pth separator) /\
      i = Z.of_nat (length (vs ++ ws)) /\ m' = with_iovs (put_iovs iov (vs ++ ws) h) m).
Proof.
  induction suf as [|x suf IH]; intros fuel m pre names it vs Hr0 Hr Hnames Hch Hlit Hpath Hit Hend Hiov Hfuel;
    (destruct fuel as [|fuel]; [cbn in Hfuel; lia|]).
  - destruct Hch as (σ & Hrep & Hch). apply Forall2_nil_inv_l in Hnames as ->. apply wp_loop_step. unfold index_body.
    apply wp_bind, (wp_read_hlist _ _ (fun b => b = true)).
    { eapply wp_mono; [eapply (law_it_equal _ σ _ (pre ++ []) it pre [] end_ (pre ++ []) []); try done; by rewrite !app_nil_r|].
      intros b l [-> ->]. done. }
    intros b ->. apply wp_ret. exists []. rewrite app_nil_r. split; [constructor|done].
  - apply Forall2_cons_inv_l in Hnames as (name & names' & Hname & Hnames & ->).
    eapply index_step; [done|exact Hr|exact Hname|exact Hch|done|done|exact Hend|done|].
    intros it' Hit'. eapply wp_mono.
    + assert ((pre ++ [x]) ++ suf = pre ++ x :: suf) as Happ by (by rewrite <- app_assoc).
      apply (IH fuel m (pre ++ [x]) names'); [exact Hr0|exact Hr|exact Hnames| |exact Hlit|exact Hpath|exact Hit'| |exact Hiov|].
      * by rewrite Happ.
      * by rewrite Happ.
      * cbn in Hfuel. lia.
    + intros i m' (ws & Hws & -> & ->). exists (entry_blocks (path r) separator x (Z.of_nat (length name)) ++ ws).
      rewrite (app_assoc vs). split; [|done].
      cbn [mbind list_bind]. apply Forall2_app; [|exact Hws]. apply entry_blocks_are; assumption.
Qed.

End index.

(** ** The array of blocks comes from the arena *)

(** Every hook of a list lies in memory. *)
Definition anchored (b : bmem) (σ : lspec) : Prop := forall l xs x, chains σ !! l = Some xs -> x ∈ xs ->
  exists i, 0 <= i < ARENA_SEGMENT_SIZE /\ is_Some (cells b !! (x + i)).

Section alloc.
Context {Mem It : Type} `{!ListOps Mem It, !ListLaws Mem It}.
Context (malloc : bmem -> Z -> Z) (Hmalloc : malloc_ok malloc).

(** The arena among the other lists of the program. *)
Record arena_among (m : armem Mem) (arena : Z) (σ : lspec) : Prop := ArenaAmong {
  aa_ne : arena <> 0;
  aa_obj : is_Some (arenas m !! arena);
  aa_rep : lrep (ar_lists m) σ;
  aa_anchored : anchored (ar_bytes m) σ;
  aa_segs : exists segs, chains σ !! _segments arena = Some segs /\
    (segs = [] \/ exists gs g s, segs = gs ++ [g] /\ 0 < g /\ segments m !! g = Some s /\
       0 <= used s < seg_size s /\ seg_size s < SIZE_MOD)
}.

Lemma among_needs (m : armem Mem) arena σ n (Q : bool -> armem Mem -> Prop) : arena_among m arena σ ->
  Q true m ->
  (forall gs g s, chains σ !! _segments arena = Some (gs ++ [g]) -> 0 < g -> segments m !! g = Some s -> 0 <= used s -> Q false m) ->
  wp (needs_segment arena n) m Q.
Proof.
  intros [Ha _ Hrep _ (segs & Hsegs & Hlast)] Htrue Hfalse. unfold needs_segment.
  apply wp_bind. eapply ArenaTheorems.wp_read_list; [by eapply law_empty|]. intros b ->.
  destruct Hlast as [->|(gs & g & s & -> & Hg & Hs & Hu & Hz)]; [by apply wp_ret|].
  rewrite bool_decide_false by by destruct gs.
  apply wp_bind. unfold dfk__arena_bytes_available, dfk__arena_current_segment. apply wp_bind, wp_assert; [by apply nonnull_true|].
  apply wp_bind. eapply ArenaTheorems.wp_read_list; [by eapply law_back|]. intros r ->. rewrite last_or_snoc.
  apply wp_bind, wp_assert; [apply nonnull_true; lia|]. apply wp_bind. eapply wp_deref; [lia|exact Hs|].
  apply wp_bind, wp_assert; [apply Z.ltb_lt; lia|]. apply wp_ret, wp_ret.
  destruct (_ <? _); [done|]. apply (Hfalse gs g s); [exact Hsegs|lia|exact Hs|lia].
Qed.

Lemma alloc_among (m : armem Mem) arena σ n : arena_among m arena σ -> 0 < n ->
  wp (dfk_arena_alloc malloc arena n) m (fun a m' => 0 <= a /\
    exists σ', lrep (ar_lists m') σ' /\ forall l, l <> _segments arena -> chains σ' !! l = chains σ !! l).
Proof.
  intros Ham Hn. pose proof Ham as [Ha [o Ho] Hrep Hanch (segs & Hsegs & _)]. unfold dfk_arena_alloc.
  apply wp_bind, wp_assert; [by apply nonnull_true|]. apply wp_bind, wp_assert; [apply negb_true_iff; lia|].
  apply wp_bind. eapply among_needs; [exact Ham| |].
  - apply wp_bind. eapply wp_deref; [done|exact Ho|]. cbn zeta.
    assert (exists k, Z.max ARENA_SEGMENT_SIZE (to_size (n + SEGMENT_T)) = k /\ ARENA_SEGMENT_SIZE <= k) as (k & -> & Hk) by (eexists; split; [done|lia]).
    apply wp_bind, wp_zoom. eapply wp_malloc; [done|unfold ARENA_SEGMENT_SIZE in Hk; lia| |].
    { apply wp_if_true; [done|]. apply wp_ret. split; [done|]. exists σ. by split; [destruct m|]. }
    intros p b Hal. apply wp_if_false; [apply isnull_false; destruct Hal; lia|].
    assert (valid_addr p) as Hvalid.
    { pose proof (al_pos _ _ _ _ Hal). pose proof (al_end _ _ _ _ Hal).
      unfold valid_addr, SIZE_MOD, SIZE_BITS, USER_END, ARENA_SEGMENT_SIZE in *. lia. }
    assert (unchained σ p) as Hun.
    { intros l xs Hl Hin. destruct (Hanch l xs p Hl Hin) as (i & Hi & c & Hc).
      pose proof (al_fresh _ _ _ _ Hal i ltac:(lia)) as Hf. cbn [lget abytes] in Hf. congruence. }
    apply wp_bind, wp_zoom. eapply wp_mono; [eapply law_hook_init; [exact Hrep|exact Hvalid|exact Hun]|]. intros [] l1 Hl1.
    apply wp_bind, wp_zoom. eapply wp_mono; [eapply law_append; [exact Hl1|exact Hsegs|]|]; [unfold release; cbn; set_solver|].
    intros [] l2 Hl2. apply wp_bind, wp_store; [unfold valid_addr in Hvalid; lia|]. apply wp_ret.
    split; [unfold valid_addr, SEGMENT_T in *; lia|]. eexists. split; [exact Hl2|].
    intros l Hl. cbn. by rewrite lookup_insert_ne by done.
  - intros gs g s Hch Hg Hs Hu. apply wp_bind. unfold dfk__arena_current_segment.
    eapply ArenaTheorems.wp_read_list; [by eapply law_back|]. intros r ->. rewrite last_or_snoc.
    apply wp_bind. eapply wp_deref; [lia|exact Hs|]. apply wp_bind. eapply wp_update; [lia|exact Hs|].
    apply wp_ret. split; [lia|]. by exists σ.
Qed.

End alloc.

(** ** The length of the page *)

Lemma total_length_sum {Mem P E : Type} (m : hmem Mem P (fworld E)) vs pieces : forall n,
  Forall2 (block_is m) vs pieces -> 0 <= n -> n + Z.of_nat (length (mjoin pieces)) < SIZE_MOD ->
  foldl (fun n v => to_size (n + Sponge.iov_size v)) n vs = n + Z.of_nat (length (mjoin pieces)).
Proof.
  intros n Hvs. revert n. induction Hvs as [|v bs vs pieces [Hv _] _ IH]; intros n Hn Hlt; [cbn; lia|].
  change (mjoin (bs :: pieces)) with (bs ++ mjoin pieces) in Hlt |- *. rewrite length_app in Hlt |- *.
  cbn [foldl]. rewrite Hv, to_size_small by lia. rewrite IH; lia.
Qed.

Lemma block_grown {Mem P E : Type} (m m' : hmem Mem P (fworld E)) v bs :
  grown (hb m) (hb m') -> block_is m v bs -> block_is m' v bs.
Proof. intros Hg [H1 H2]. split; [done|]. by eapply bytes_grown. Qed.

Lemma named_grown {Mem P E : Type} (m m' : hmem Mem P (fworld E)) item name :
  grown (hb m) (hb m') -> named m item name -> named m' item name.
Proof. intros Hg (H1 & H2). split; [by eapply bytes_grown|done]. Qed.

Lemma literals_grown {Mem P E : Type} (m m' : hmem Mem P (fworld E)) literal :
  grown (hb m) (hb m') -> index_literals literal m -> index_literals literal m'.
Proof. intros Hg [H1 H2]. split; (eapply Forall_impl; [eassumption|]); intros s Hs; by eapply bytes_grown. Qed.

Lemma entry_count (pth : list Z) (separator : bool) names :
  Z.of_nat (length (names ≫= entry_pieces pth separator)) =
  Z.of_nat (length names) * (if separator then 7 else 6).
Proof.
  induction names as [|name names IH]; [done|]. change ((name :: names) ≫= entry_pieces pth separator)
    with (entry_pieces pth separator name ++ (names ≫= entry_pieces pth separator)).
  rewrite length_app. destruct separator; cbn [length entry_pieces app] in *; lia.
Qed.

Lemma last_byte (b : bmem) p bs c (Q : Z -> bmem -> Prop) : bytes_at b p (bs ++ [c]) -> 0 < p -> Q c b ->
  wp (load (p + Z.of_nat (length (bs ++ [c])) - 1)) b Q.
Proof.
  intros Hb Hp HQ. apply bytes_app in Hb as (_ & _ & Hb). apply bytes_cons in Hb as (_ & Hc & _).
  rewrite length_app. cbn [length]. replace (p + Z.of_nat (length bs + 1) - 1) with (p + Z.of_nat (length bs)) by lia.
  eapply wp_load; [lia|exact Hc|done].
Qed.

Section send.
Context {Mem It P E : Type} `{!ListOps Mem It, !ListLaws Mem It}.
#[local] Notation hm := (hmem Mem P (fworld E)).
Context (malloc : bmem -> Z -> Z) (Hmalloc : malloc_ok malloc).
Context (handle : forall X, netE X -> M hm X) (literal : string -> Z) (v_buf v_sbuf v_filelist : Z) (fuel : nat).

(** The memory once the page's blocks are in the array at [iov]. *)
Definition page_memory (response iov : Z) (vs : list dfk_iovec_t) (rs : dfk_http_response_t) (n : Z) (ar : armem Mem) (m : hm) : hm :=
  (with_iovs (put_iovs iov vs (h_iovs m)) (lset harena ar m))
    {{h_resps := <[response := rs{{rs_content_length := n}}]> (h_resps m)}}.

(** What [send_index] needs: the request with its path, the list of the
    directory's entries, the literals. *)
Record index_ready (m : hm) (request response : Z) (r : dfk_http_request_t) (rs : dfk_http_response_t)
    (pth : list Z) (names : list (list Z)) : Prop := IndexReady {
  ix_request : request <> 0 /\ h_reqs m !! request = Some r;
  ix_response : response <> 0 /\ h_resps m !! response = Some rs;
  ix_path : pth <> [] /\ block_is m (Iovec (b_data (path r)) (b_size (path r))) pth;
  ix_literals : index_literals literal m;
  ix_files : exists σ xs, arena_among (sm_arena (h_str m)) (_request_arena r) σ /\
    v_filelist <> _segments (_request_arena r) /\ chains σ !! v_filelist = Some xs /\ Forall2 (named m) xs names;
  ix_fuel : (length names < fuel)%nat;
  ix_small : IOVEC_T * (6 + 7 * Z.of_nat (length names)) < SIZE_MOD
}.

Definition separated (pth : list Z) : bool := negb (last_or 0 pth =? 47).

(** The heading of the page. *)
Definition heading (u : dfk_buf_t) : list dfk_iovec_t :=
  [Iovec (literal autoindex_header_1) (array_size autoindex_header_1); Iovec (b_data u) (b_size u);
   Iovec (literal autoindex_header_2) (array_size autoindex_header_2); Iovec (b_data u) (b_size u);
   Iovec (literal autoindex_header_3) (array_size autoindex_header_3)].

Lemma heading_are (m : hm) u pth : index_literals literal m -> block_is m (Iovec (b_data u) (b_size u)) pth ->
  Forall2 (block_is m) (heading u)
    [array_text autoindex_header_1; pth; array_text autoindex_header_2; pth; array_text autoindex_header_3].
Proof.
  intros [_ Hl] Hu. rewrite !Forall_cons in Hl. destruct Hl as (H1 & H2 & H3 & _).
  repeat apply Forall2_cons_2; try apply Forall2_nil_2; try exact Hu; (split; [reflexivity|assumption]).
Qed.

Lemma push_one (m : hm) iov vs h i p n (Q : Z -> hm -> Prop) : 0 < iov -> i = Z.of_nat (length vs) ->
  Q (Z.of_nat (length (vs ++ [Iovec p n]))) (with_iovs (put_iovs iov (vs ++ [Iovec p n]) h) m) ->
  wp (push iov i p n) (with_iovs (put_iovs iov vs h) m) Q.
Proof.
  intros Hiov Hi HQ. unfold push. apply store_iov; [done|done|]. apply wp_ret.
  rewrite length_app in HQ. cbn [length] in HQ. replace (i + 1) with (Z.of_nat (length vs + 1)) by lia. exact HQ.
Qed.

Lemma send_index_spec (m : hm) request response r rs pth names :
  let pieces := index_pieces pth (separated pth) names in
  index_ready m request response r rs pth names -> Z.of_nat (length (mjoin pieces)) < SIZE_MOD ->
  ends (fun res => exists ar, grown (hb m) (ar_bytes ar) /\
    (res = answer response DFK_HTTP_INTERNAL_SERVER_ERROR (lset harena ar m) \/
     exists iov vs, let m1 := page_memory response iov vs rs (Z.of_nat (length (mjoin pieces))) ar m in
       0 < iov /\ Forall2 (block_is m1) vs pieces /\
       res = (dfk_http_response_writev malloc handle literal v_buf v_sbuf fuel response iov (Z.of_nat (length vs));;
              answer response DFK_HTTP_OK) m1))
    (send_index malloc handle literal v_buf v_sbuf v_filelist fuel request response) m.
Proof using Hmalloc.
  intros pieces [[Hr0 Hr] [Hp0 Hrs] [Hpne Hpath] Hlit (σ & xs & Ham & Hne & Hch & Hnames) Hfuel Hsmall] Hlen.
  unfold send_index. apply ends_bind, (wp_read_hlist _ _ (fun n => n = Z.of_nat (length names))).
  { eapply wp_mono; [eapply law_size; [by apply Ham|exact Hch]|]. intros n l [-> ->]. by rewrite (Forall2_length _ _ _ Hnames). }
  intros n ->. apply ends_bind. eapply wp_deref; [done|exact Hr|].
  apply ends_bind, (wp_read_bytes_h _ _ (fun c => c = last_or 0 pth)).
  { destruct (snoc_inv pth) as [->|(pre & c & ->)]; [done|]. destruct Hpath as [Hsz Hb]. cbn in Hsz, Hb. rewrite Hsz.
    apply last_byte; [exact Hb|by apply Hb|]. by rewrite last_or_snoc. }
  intros c ->. fold (separated pth). set (sep := separated pth) in *.
  assert (Z.of_nat (length pieces) = 6 + 6 * Z.of_nat (length names) + (if sep then Z.of_nat (length names) else 0)) as Hcount.
  { unfold pieces, index_pieces. fold sep. rewrite !length_app. cbn [length]. pose proof (entry_count pth sep names). destruct sep; lia. }
  set (niov := to_size _). assert (niov = Z.of_nat (length pieces)) as Hniov.
  { unfold niov. rewrite to_size_small; [by rewrite Hcount|]. unfold IOVEC_T in Hsmall. destruct sep; lia. }
  rewrite Hniov. clear niov Hniov. rewrite to_size_small by (unfold IOVEC_T in *; rewrite Hcount; destruct sep; lia).
  assert (0 < Z.of_nat (length pieces) * IOVEC_T) as Hpos by (unfold IOVEC_T; destruct sep; lia).
  apply ends_bind, wp_zoom. cbn [lget harena]. eapply wp_mono.
  { apply wp_wlp; [by apply (alloc_among malloc Hmalloc _ _ σ)|by apply arena_alloc_grows]. }
  intros iov ar [(Hiov & σ' & Hrep' & Hch') Hg]. set (m2 := lset harena ar m).
  destruct (isnull iov) eqn:Hnull.
  { exists ar. split; [exact Hg|by left]. }
  assert (0 < iov) as Hiov0 by (unfold isnull in Hnull; lia).
  assert (m2 = with_iovs (put_iovs iov [] (h_iovs m)) m2) as -> by by destruct m.
  assert (index_literals literal m2) as Hlit2 by by eapply literals_grown.
  assert (block_is m2 (Iovec (b_data (path r)) (b_size (path r))) pth) as Hpath2 by by eapply block_grown.
  do 5 (apply ends_bind, push_one; [exact Hiov0|reflexivity|]). cbn [app].
  change [Iovec (literal autoindex_header_1) _; _; _; _; _] with (heading (path r)).
  assert (chains σ' !! v_filelist = Some xs) as Hfiles by by rewrite Hch'.
  apply ends_bind, (wp_read_hlist _ _ (fun it => it_at it [] xs)); [by eapply law_begin|]. intros it Hit.
  apply ends_bind, (wp_read_hlist _ _ (fun it => it_at it xs [])); [by eapply law_end|]. intros end_ Hend.
  apply ends_bind. change (Z.of_nat 5) with (Z.of_nat (length (heading (path r)))). eapply wp_mono.
  { apply (index_loop literal v_filelist request r pth sep iov (h_iovs m) end_ xs fuel m2 [] names it (heading (path r)));
      [exact Hr0|exact Hr| |by exists σ'|exact Hlit2|exact Hpath2|exact Hit|exact Hend|exact Hiov0|].
    - eapply Forall2_impl; [exact Hnames|]. intros x name Hx. by eapply named_grown.
    - by rewrite (Forall2_length _ _ _ Hnames). }
  intros i m3 (ws & Hws & -> & ->). apply ends_bind, push_one; [exact Hiov0|done|].
  set (vs := (heading (path r) ++ ws) ++ _).
  assert (Forall2 (block_is m2) vs pieces) as Hvs.
  { unfold vs, pieces, index_pieces. fold sep. rewrite <- app_assoc. apply Forall2_app; [by apply heading_are|].
    apply Forall2_app; [exact Hws|]. destruct Hlit2 as [_ Hl]. rewrite !Forall_cons in Hl. destruct Hl as (_ & _ & _ & H4 & _).
    apply Forall2_cons_2; [|apply Forall2_nil_2]. split; [reflexivity|exact H4]. }
  apply ends_bind. rewrite Nat2Z.id, <- (Forall2_length _ _ _ Hvs).
  eapply read_iovs_spec; [exact Hiov0|done|].
  apply ends_bind. eapply wp_update; [exact Hp0|exact Hrs|].
  exists ar. split; [exact Hg|]. right. exists iov, vs. unfold total_length.
  rewrite (total_length_sum m2 vs pieces 0 Hvs) by lia. split; [exact Hiov0|]. split; [exact Hvs|reflexivity].
Qed.
End send.
