(* ===== verification/FileServerTheorems.v ===== *)
(** * What is proved of the file server *)

From S2P Require Import HttpData Prelude ListSpec ListPtr ListPtrSpec ListSim Bytes Arena ArenaTheorems Avl Error Misc StrMap StrMapTheorems Sponge Interact Socket HttpConstants HttpRequest HttpResponse HttpServer HttpBody HttpStore HttpExamples HttpFrame HttpConnection FileServer FileIndex.
From Stdlib Require Import String.

#[local] Open Scope list_scope.
#[local] Open Scope Z_scope.
#[local] Notation length := Datatypes.length.

(** ** What the operating system promises *)

(** [handles]: the open files and directories. *)
Record fs_law {E} (sys : forall X, fsE X -> M E X) (handles : E -> gset Z) : Prop := FsLaw {
  law_stat path : keeps handles (sys _ (Stat path));
  law_errno : keeps handles (sys _ FsErrno);
  law_readdir dp : keeps handles (sys _ (Readdir dp));
  law_fread f n : keeps handles (sys _ (Fread f n));
  law_fopen path e : wlp (sys _ (Fopen path)) e (fun f e' =>
    if isnull f then handles e' = handles e else f ∉ handles e /\ handles e' = handles e ∪ {[f]});
  law_opendir path e : wlp (sys _ (Opendir path)) e (fun f e' =>
    if isnull f then handles e' = handles e else f ∉ handles e /\ handles e' = handles e ∪ {[f]});
  law_fclose f e : f ∈ handles e -> wlp (sys _ (Fclose f)) e (fun _ e' => handles e' = handles e ∖ {[f]});
  law_closedir f e : f ∈ handles e -> wlp (sys _ (Closedir f)) e (fun _ e' => handles e' = handles e ∖ {[f]})
}.

Section handles.
Context {Mem It P E : Type} `{!ListOps Mem It}.
#[local] Notation hm := (hmem Mem P (fworld E)).
Context (malloc : bmem -> Z -> Z) (sys : forall X, fsE X -> M E X) (handles : E -> gset Z) (Hlaw : fs_law sys handles).

(** The handles that are open in the memory. *)
Definition opened (m : hm) : gset Z := handles (fw_env (h_world m)).
#[local] Notation world := (fun (_ : gmap Z dfk_http_t) (w : fworld E) => handles (fw_env w)).

Context (handle : forall X, netE X -> M hm X) (Hhandle : forall X (e : netE X), keeps opened (handle X e)).
Context (literal : String.string -> Z) (v_buf v_sbuf v_iov v_filelist : Z) (fuel : nat).

Lemma keeps_os {X} (e : fsE X) : keeps handles (sys X e) -> keeps opened (os (P := P) (Mem := Mem) sys e).
Proof. intros He m. unfold os. apply wlp_zoom. intros x e' Hx. by eapply He. Qed.
#[local] Hint Extern 1 (keeps _ (os _ (Stat _))) => apply keeps_os, Hlaw : keeps.
#[local] Hint Extern 1 (keeps _ (os _ FsErrno)) => apply keeps_os, Hlaw : keeps.
#[local] Hint Extern 1 (keeps _ (os _ (Readdir _))) => apply keeps_os, Hlaw : keeps.
#[local] Hint Extern 1 (keeps _ (os _ (Fread _ _))) => apply keeps_os, Hlaw : keeps.

Lemma keeps_answer response s : keeps opened (answer (Mem := Mem) (P := P) (E := E) response s).
Proof. unfold answer. keeps_all. Qed.
Lemma keeps_gets {S A B} (f : S -> B) (h : S -> A) : keeps f (gets h).
Proof. intros m. by apply wlp_gets. Qed.
Lemma keeps_raw_malloc n : keeps (S := hm) opened (raw_malloc malloc n).
Proof. unfold raw_malloc. keeps_all. Qed.
Lemma keeps_raw_free p : keeps (S := hm) opened (raw_free p).
Proof. unfold raw_free. keeps_all. Qed.
Lemma keeps_make_path f request : keeps (S := hm) opened (make_path malloc f request).
Proof. unfold make_path. keeps_all. Qed.
Lemma keeps_ignore_file item : keeps (S := hm) opened (ignore_file item).
Proof. unfold ignore_file. keeps_all. Qed.
Lemma keeps_push iov i p n : keeps (S := hm) opened (push iov i p n).
Proof. unfold push. keeps_all. Qed.
#[local] Hint Resolve keeps_answer keeps_gets keeps_raw_malloc keeps_raw_free keeps_make_path keeps_ignore_file keeps_push : keeps.

Lemma keeps_readdir dp dei u : keeps (S := hm) opened (readdir_body sys v_filelist dp dei u).
Proof. unfold readdir_body. keeps_all. Qed.

Lemma keeps_write response buf n :
  keeps opened (dfk_http_response_write malloc handle literal v_buf v_sbuf v_iov fuel response buf n).
Proof. exact (keeps_response_write world malloc handle Hhandle literal fuel v_buf v_sbuf v_iov response buf n). Qed.
Lemma keeps_writev response iov n :
  keeps opened (dfk_http_response_writev malloc handle literal v_buf v_sbuf fuel response iov n).
Proof. exact (keeps_response_writev world malloc handle Hhandle literal fuel v_buf v_sbuf response iov n). Qed.
Lemma keeps_iovs iov n : keeps (S := hm) opened (read_iovs iov n).
Proof. exact (keeps_read_iovs world iov n). Qed.
#[local] Hint Resolve keeps_readdir keeps_write keeps_writev keeps_iovs : keeps.

Lemma keeps_send_index request response :
  keeps opened (send_index malloc handle literal v_buf v_sbuf v_filelist fuel request response).
Proof. unfold send_index, index_body. keeps_all. Qed.

(** ** One handle more *)

Definition one_more (S : gset Z) (f : Z) (m : hm) : Prop := f ∉ S /\ opened m = S ∪ {[f]}.

Lemma one_more_keep S f m m' : opened m' = opened m -> one_more S f m -> one_more S f m'.
Proof. unfold one_more. by intros ->. Qed.

(** Opening and closing. *)
Lemma fopen_spec path (m : hm) : wlp (os sys (Fopen path)) m (fun f m' =>
  if isnull f then opened m' = opened m else one_more (opened m) f m').
Proof. unfold os. apply wlp_zoom. intros f e' Hf. exact (law_fopen _ _ Hlaw path _ _ _ Hf). Qed.
Lemma opendir_spec path (m : hm) : wlp (os sys (Opendir path)) m (fun f m' =>
  if isnull f then opened m' = opened m else one_more (opened m) f m').
Proof. unfold os. apply wlp_zoom. intros f e' Hf. exact (law_opendir _ _ Hlaw path _ _ _ Hf). Qed.

Lemma closed_again S f (T : gset Z) : f ∉ S -> T = S ∪ {[f]} -> T ∖ {[f]} = S.
Proof. intros Hf ->. set_solver. Qed.

Lemma fclose_spec S f (m : hm) : one_more S f m -> wlp (os sys (Fclose f)) m (fun _ m' => opened m' = S).
Proof.
  intros [Hf Hm]. unfold os. apply wlp_zoom. intros u e' Hu.
  eapply closed_again in Hm as Hc; [|done]. rewrite <- Hc. refine (law_fclose _ _ Hlaw f _ _ _ _ Hu).
  change (f ∈ opened m). rewrite Hm. set_solver.
Qed.
Lemma closedir_spec S f (m : hm) : one_more S f m -> wlp (os sys (Closedir f)) m (fun _ m' => opened m' = S).
Proof.
  intros [Hf Hm]. unfold os. apply wlp_zoom. intros u e' Hu.
  eapply closed_again in Hm as Hc; [|done]. rewrite <- Hc. refine (law_closedir _ _ Hlaw f _ _ _ _ Hu).
  change (f ∈ opened m). rewrite Hm. set_solver.
Qed.

(** A command that keeps the handles, then another. *)
Lemma wlp_then {A B} (c : M hm A) (k : A -> M hm B) m (Q : B -> hm -> Prop) : keeps opened c ->
  (forall a m', opened m' = opened m -> wlp (k a) m' Q) -> wlp (c ≫= k) m Q.
Proof. intros Hc Hk. apply wlp_bind. eapply wlp_mono; [apply Hc|]. exact Hk. Qed.

(** The rest keeps the handles. *)
Lemma wlp_rest {A} (c : M hm A) m S : keeps opened c -> opened m = S -> wlp c m (fun _ m' => opened m' = S).
Proof. intros Hc <-. apply Hc. Qed.

Ltac kept := solve [keeps_all].

Lemma send_body_handles S f response file buffer n (m : hm) : one_more S file m ->
  wlp (send_body malloc handle sys literal v_buf v_sbuf v_iov fuel f response file buffer n) m (fun r m' =>
    match r with inr (Some _) => opened m' = S | _ => one_more S file m' end).
Proof.
  intros Hm. unfold send_body. destruct (n =? 0); [by apply wlp_ret|].
  apply wlp_then; [kept|]. intros bs m1 H1. apply wlp_then; [kept|]. intros u2 m2 H2.
  assert (one_more S file m2) as Hm2 by (eapply one_more_keep; [|exact Hm]; congruence).
  destruct (_ <? _).
  - apply wlp_then; [kept|]. intros e m3 H3. apply wlp_then; [unfold set_sys_errno; kept|]. intros u4 m4 H4.
    apply wlp_bind. eapply wlp_mono; [apply (fclose_spec S); eapply one_more_keep; [|exact Hm2]; congruence|].
    intros u5 m5 H5. apply wlp_then; [kept|]. intros u6 m6 H6. apply wlp_ret. congruence.
  - apply wlp_then; [kept|]. intros nw m3 H3.
    assert (one_more S file m3) as Hm3 by by eapply one_more_keep.
    destruct (nw <? 0).
    + apply wlp_bind. eapply wlp_mono; [by apply (fclose_spec S)|].
      intros u5 m5 H5. apply wlp_then; [kept|]. intros u6 m6 H6. apply wlp_then; [kept|]. intros e m7 H7. apply wlp_ret. congruence.
    + apply wlp_then; [kept|]. intros u4 m4 H4. apply wlp_ret. by eapply one_more_keep.
Qed.

Lemma serve_file_handles f response path sz (m : hm) :
  wlp (serve_file malloc handle sys literal v_buf v_sbuf v_iov fuel f response path sz) m (fun _ m' => opened m' = opened m).
Proof.
  unfold serve_file. apply wlp_then; [kept|]. intros u1 m1 H1.
  apply wlp_bind. eapply wlp_mono; [apply fopen_spec|]. intros file m2 H2. cbn beta in H2.
  destruct (isnull file); [apply wlp_rest; [kept|congruence]|]. rewrite H1 in H2.
  apply wlp_then; [kept|]. intros buffer m3 H3. assert (one_more (opened m) file m3) as Hm3 by by eapply one_more_keep.
  destruct (isnull buffer).
  - apply wlp_bind. eapply wlp_mono; [by apply fclose_spec|]. intros u4 m4 H4. by apply wlp_rest; [kept|].
  - apply wlp_bind. apply (wlp_loop (fun _ s => one_more (opened m) file s) _
      (fun r s => wlp (match r with Some e => mret e | None => os sys (Fclose file);; raw_free buffer;; mret (err_code dfk_err_ok) end) s
        (fun _ m' => opened m' = opened m))); [|done].
    intros n s Hs. eapply wlp_mono; [by apply send_body_handles|]. intros [n'|[e|]] s' Hs'; [done|by apply wlp_ret|].
    apply wlp_bind. eapply wlp_mono; [by apply fclose_spec|]. intros u4 m4 H4. by apply wlp_rest; [kept|].
Qed.

Lemma list_dir_handles S arena dp u (m : hm) : one_more S dp m ->
  wlp (list_dir_body malloc sys v_filelist fuel arena dp u) m (fun r m' =>
    match r with inr false => opened m' = S | _ => one_more S dp m' end).
Proof.
  intros Hm. unfold list_dir_body. apply wlp_then; [kept|]. intros dei m1 H1.
  assert (one_more S dp m1) as Hm1 by by eapply one_more_keep.
  destruct (isnull dei).
  - apply wlp_bind. eapply wlp_mono; [by apply (closedir_spec S)|]. intros u4 m4 H4. by apply wlp_ret.
  - apply wlp_then; [kept|]. intros u2 m2 H2. apply wlp_then; [kept|]. intros r m3 H3.
    assert (one_more S dp m3) as Hm3 by (eapply one_more_keep; [|exact Hm1]; congruence).
    destruct r as [[]|]; [by apply wlp_ret..|].
    apply wlp_bind. eapply wlp_mono; [by apply (closedir_spec S)|]. intros u4 m4 H4. by apply wlp_ret.
Qed.

Lemma serve_directory_handles f request response path (m : hm) :
  wlp (serve_directory malloc handle sys literal v_buf v_sbuf v_filelist fuel f request response path) m
    (fun _ m' => opened m' = opened m).
Proof.
  pose proof keeps_send_index. unfold serve_directory. destruct (negb _); [by apply wlp_rest; [kept|]|].
  apply wlp_bind. eapply wlp_mono; [apply opendir_spec|]. intros dp m1 H1. cbn beta in H1.
  apply wlp_then; [kept|]. intros u2 m2 H2. destruct (isnull dp); [apply wlp_rest; [kept|congruence]|].
  apply wlp_then; [kept|]. intros r m3 H3.
  assert (one_more (opened m) dp m3) as Hm3 by (eapply one_more_keep; [|exact H1]; congruence).
  apply wlp_bind. apply (wlp_loop (fun _ s => one_more (opened m) dp s) _
    (fun r s => wlp (if negb r then answer response DFK_HTTP_INTERNAL_SERVER_ERROR else os sys (Closedir dp);;
        send_index malloc handle literal v_buf v_sbuf v_filelist fuel request response) s
        (fun _ m' => opened m' = opened m))); [|done].
  intros u s Hs. eapply wlp_mono; [by apply list_dir_handles|]. intros [u'|[]] s' Hs'; cbn [negb]; [done| |by apply wlp_rest; [kept|]].
  apply wlp_bind. eapply wlp_mono; [by apply closedir_spec|]. intros u4 m4 H4. by apply wlp_rest; [kept|].
Qed.

Lemma handler_handles ud http request response (m : hm) :
  wlp (dfk_fileserver_handler malloc handle sys literal v_buf v_sbuf v_iov v_filelist fuel ud http request response) m
    (fun _ m' => opened m' = opened m).
Proof.
  unfold dfk_fileserver_handler. apply wlp_bind, wlp_deref. intros r _. destruct (negb _); [by apply wlp_rest; [kept|]|].
  apply wlp_bind, wlp_deref. intros f _. apply wlp_then; [kept|]. intros p m1 H1.
  destruct (isnull p); [by apply wlp_rest; [kept|]|].
  apply wlp_then; [kept|]. intros fullpath m2 H2. apply wlp_then; [kept|]. intros st m3 H3.
  destruct st as [mode sz|].
  - destruct (negb _); (eapply wlp_mono; [first [apply serve_directory_handles|apply serve_file_handles]|]);
      cbn; intros x m4 H4; congruence.
  - apply wlp_then; [kept|]. intros n m4 H4. destruct (_ || _); (apply wlp_rest; [kept|congruence]).
Qed.

End handles.

(** ** The path *)

Lemma c_string_spec cs : forall n (m : bmem) p, bytes_at m p (cs ++ [0]) -> no_nul cs -> (length cs < n)%nat ->
  wp (c_string n p) m (fun r m' => r = cs /\ m' = m).
Proof.
  induction cs as [|c cs IH]; intros [|n] m p Hb Hz Hn; try (cbn in Hn; lia); cbn [c_string app] in *;
    apply bytes_cons in Hb as (Hp & Hc & Hb); apply wp_bind; (eapply wp_load; [lia|exact Hc|]).
  - by apply wp_ret.
  - apply Forall_cons in Hz as [Hc0 Hz]. rewrite (proj2 (Z.eqb_neq _ _)) by done. apply wp_bind.
    eapply wp_mono; [by apply IH; [..|cbn in Hn; lia]|]. by intros r m' [-> ->].
Qed.

(** An allocation is apart from the memory of the user. *)
Lemma region_apart {Mem It} `{!ListOps Mem It, !ListLaws Mem It} (a : armem Mem) arena gs rs p n os B ub un :
  arena_rep a arena gs (rs ++ [Region p n None]) os B ub un -> 0 < un ->
  room_at (ar_bytes a) p n /\ (p + n <= ub \/ ub + un <= p).
Proof.
  intros [_ _ _ H4 _ _ _ H8 _ _ (_ & H0 & Hue & Hap)] Hun.
  destruct (H8 (Region p n None) ltac:(set_solver)) as [Hn (g & Hg & Hi1 & Hi2) _]. cbn in Hn, Hi1, Hi2.
  destruct (H4 g Hg) as [Q1 Q2 Q3 Q4 Q5 Q6 Q7]. specialize (Hap g Hg). unfold SEGMENT_T, USER_END in *. split.
  - replace p with (g_addr g + (p - g_addr g)) by lia.
    eapply room_mono; [|apply (room_tail _ _ (g_block g)); [lia|exact Q7]]. lia.
  - unfold apart_ranges in Hap. lia.
Qed.

Section path.
Context {Mem It P E : Type} `{!ListOps Mem It, !ListLaws Mem It}.
#[local] Notation hm := (hmem Mem P (fworld E)).
Context (malloc : bmem -> Z -> Z) (Hmalloc : malloc_ok malloc).

(** A text apart from the segments of the arena, which takes another
    allocation. *)
Definition arena_text (m : hm) (arena p : Z) (bs : list Z) : Prop :=
  bs <> [] /\ no_nul bs /\ bytes_at (hb m) p bs /\ exists gs rs os B,
    arena_rep (sm_arena (h_str m)) arena gs rs os B p (Z.of_nat (length bs)) /\ ~ full (remaining gs).

Lemma alloc_apart (m : hm) arena p bs n : arena_text m arena p bs -> 0 < n <= USER_END ->
  wp (dfk_arena_alloc malloc arena n) (sm_arena (h_str m)) (fun a ar => grown (hb m) (ar_bytes ar) /\
    (a = 0 /\ ar = sm_arena (h_str m) \/
     0 < a /\ room_at (ar_bytes ar) a n /\ (a + n <= p \/ p + Z.of_nat (length bs) <= a))).
Proof.
  intros (Hne & _ & _ & gs & rs & os & B & Hrep & Hfull) Hn.
  eapply wp_mono; [apply wp_wlp; [by eapply dfk_arena_alloc_spec|by apply arena_alloc_grows]|].
  intros a ar [[[-> ->]|(Ha & _ & gs' & Har & _)] Hg]; (split; [done|]); [by left|right].
  split; [done|]. eapply region_apart; [exact Har|]. destruct bs; [done|cbn; lia].
Qed.

Lemma make_path_spec (f : dfk_fileserver_t) (m : hm) request r base pth :
  request <> 0 -> h_reqs m !! request = Some r ->
  arena_text m (_request_arena r) (_basepath f) base -> _basepathlen f = Z.of_nat (length base) ->
  arena_text m (_request_arena r) (b_data (path r)) pth -> b_size (path r) = Z.of_nat (length pth) ->
  Z.of_nat (length base) + Z.of_nat (length pth) < USER_END ->
  wp (make_path malloc f request) m (fun a m' => (exists s, m' = lset hstr s m) /\
    (exists ar, dfk_arena_alloc malloc (_request_arena r) (Z.of_nat (length base) + Z.of_nat (length pth) + 1)
      (sm_arena (h_str m)) = Ok (a, ar)) /\
    (a = 0 \/ a <> 0 /\ bytes_at (hb m') a ((base ++ pth) ++ [0]))).
Proof.
  intros Hr0 Hr Hbase Hbl Hpath Hpl Hlen. unfold make_path. apply wp_bind. eapply wp_deref; [done|exact Hr|].
  rewrite Hbl, Hpl. rewrite to_size_small by (unfold SIZE_MOD, SIZE_BITS, USER_END in *; lia).
  set (nb := Z.of_nat (length base)) in *. set (np := Z.of_nat (length pth)) in *.
  pose proof (alloc_apart m _ _ _ (nb + np + 1) Hbase ltac:(lia)) as H1.
  pose proof (alloc_apart m _ _ _ (nb + np + 1) Hpath ltac:(lia)) as H2.
  apply wp_run in H1 as (a & ar & Hrun & Hg & H1). unfold wp in H2. rewrite Hrun in H2. destruct H2 as [_ H2].
  apply wp_bind, wp_zoom. unfold wp at 1. cbn [lget harena]. rewrite Hrun.
  destruct H1 as [[-> ->]|(Ha & Hroom & Hb)].
  { apply wp_if_true; [done|]. apply wp_ret. split; [by eexists|]. split; [by eexists|by left]. }
  destruct H2 as [[-> _]|(_ & _ & Hp)]; [lia|].
  apply wp_if_false; [apply isnull_false; lia|].
  destruct Hbase as (Hb0 & _ & Hbb & _), Hpath as (Hp0 & _ & Hpb & _).
  apply wp_bind, wp_zoom. cbn [lget hbytes].
  apply wp_bind, (wp_memcpy _ _ _ _ base); [done|by eapply bytes_grown|eapply room_mono; [|exact Hroom]; lia|lia|].
  assert (room_at (ar_bytes ar) (a + nb) (np + 1)) as Hroom2.
  { replace (np + 1) with (nb + np + 1 - nb) by lia. apply room_tail; [lia|exact Hroom]. }
  apply wp_bind, (wp_memcpy _ _ _ _ pth); [done| |apply room_put; eapply room_mono; [|exact Hroom2]; lia|lia|].
  { apply bytes_put_apart; [fold nb np; lia|by eapply bytes_grown]. }
  apply wp_store_byte.
  { do 2 apply room_put. replace (a + (nb + np + 1) - 1) with (a + nb + np) by lia.
    eapply room_mono; [|apply (room_tail _ _ (np + 1) np); [lia|exact Hroom2]]. lia. }
  apply wp_ret. split; [by eexists|]. split; [by eexists|]. right. split; [lia|].
  replace (a + (nb + np + 1) - 1) with (a + Z.of_nat (length (base ++ pth))) by (rewrite length_app; lia).
  unfold hb. cbn. unfold nb. rewrite <- !put_app. by apply bytes_put_same.
Qed.

End path.

(** ** An example: one file, shorter than it was *)

(** The value of a run, by evaluation. *)
Lemma run_value {S} (c : M S Z) (s : S) (x : Z) :
  match c s with Ok (y, _) => Z.eqb y x | Err _ => false end = true -> exists s', c s = Ok (x, s').
Proof. destruct (c s) as [[y s']|]; [|done]. intros ->%Z.eqb_eq. by exists s'. Qed.

Definition tiny_sys (X : Type) (e : fsE X) : M (gset Z) X :=
  match e with
  | Stat path => mret (if decide (path = [102; 47; 97]) then StatOk 32768 5 else StatFails)
  | FsErrno => mret ENOENT
  | Opendir _ => mret 0
  | Readdir _ => mret DirEnd
  | Closedir d => modify (fun o => o ∖ {[d]})
  | Fopen _ => o ← Prelude.get; if decide (7 ∈ o) then mret 0 else modify (fun o => o ∪ {[7]});; mret 7
  | Fread _ _ => mret []
  | Fclose f => modify (fun o => o ∖ {[f]})
  end.

Lemma tiny_law : fs_law tiny_sys (fun o => o).
Proof.
  split; try (intros; cbn; apply keeps_ret).
  - intros path o. cbn. apply wlp_bind. intros x o' [= <- <-]. case_decide; [by apply wlp_ret|].
    apply wlp_bind. intros [] o' [= <-]. by apply wlp_ret.
  - intros path o. by apply wlp_ret.
  - intros f o _ u o' [= <- <-]. done.
  - intros f o _ u o' [= <- <-]. done.
Qed.

(** The base is "f", the path of the request [pth]. *)
Definition fs_memory0 (pth : list Z) : hmem mem Z (fworld (gset Z)) := {|
  h_str := StrMem (AMem ∅ ∅) (ArMem (LMem ∅ ∅) (put_bytes 340 [102] (put_bytes 350 pth (BMem ∅ ∅))) ∅ ∅ ∅ []) ∅;
  h_sponges := ∅; h_https := ∅;
  h_reqs := {[ 1300 := (sample_request 0 0 true){{path := Buf 350 (Z.of_nat (length pth)); method := 1; _request_arena := 1200}} ]};
  h_resps := {[ 2000 := sample_response ]};
  h_bufitems := ∅; h_hdata := ∅; h_bdata := ∅; h_iovs := ∅; h_parsers := ∅; h_errno := 0;
  h_world := FWorld {[ 1500 := FileServer 340 1 9 8 true ]} 0 ∅ |}.

Definition fs_memory (pth : list Z) : hmem mem Z (fworld (gset Z)) :=
  match zoom harena (dfk_arena_init 1200 9) (fs_memory0 pth) with Ok (_, m) => m | Err _ => fs_memory0 pth end.

Lemma fs_arena (pth : list Z) : exists a, dfk_arena_init 1200 9 (lget harena (fs_memory0 pth)) = Ok (tt, a) /\
  ar_bytes a = hb (fs_memory0 pth) /\
  forall ub un, room_at (hb (fs_memory0 pth)) ub un -> 0 <= un -> ub + un <= USER_END ->
    arena_rep a 1200 [] [] [] (blocks (hb (fs_memory0 pth))) ub un.
Proof.
  assert (forall ub un, room_at (hb (fs_memory0 pth)) ub un -> 0 <= un -> ub + un <= USER_END ->
    wp (dfk_arena_init 1200 9) (lget harena (fs_memory0 pth)) (fun _ a =>
      arena_rep a 1200 [] [] [] (blocks (hb (fs_memory0 pth))) ub un /\ ar_bytes a = hb (fs_memory0 pth))) as Hw.
  { intros ub un H1 H2 H3. eapply wp_mono; [by eapply (dfk_arena_init_spec (lget harena (fs_memory0 pth)) 1200 9 ub un)|].
    by intros _ a (Q1 & Q2 & _). }
  destruct (proj1 (wp_run _ _ _) (Hw 340 0 ltac:(split; [lia|intros; lia]) ltac:(lia) ltac:(done))) as ([] & a & Hrun & _ & Hb).
  exists a. split; [done|]. split; [done|]. intros ub un H1 H2 H3. specialize (Hw ub un H1 H2 H3).
  unfold wp in Hw. rewrite Hrun in Hw. apply Hw.
Qed.

Definition refused (X : Type) (e : netE X) : M (hmem mem Z (fworld (gset Z))) X := fail AssertFailed.

(** C30: the file server closes every file and directory it opens, and no other,
    whatever the file system and the client do. *)
Theorem fileserver_closes {Mem It P E : Type} `{!ListOps Mem It} (malloc : bmem -> Z -> Z)
    (sys : forall X, fsE X -> M E X) (handles : E -> gset Z) (Hlaw : fs_law sys handles)
    (handle : forall X, netE X -> M (hmem Mem P (fworld E)) X)
    (Hhandle : forall X (e : netE X), keeps (fun m => handles (fw_env (h_world m))) (handle X e))
    (literal : String.string -> Z) (v_buf v_sbuf v_iov v_filelist : Z) (fuel : nat)
    (ud http request response x : Z) (m m' : hmem Mem P (fworld E)) :
  dfk_fileserver_handler malloc handle sys literal v_buf v_sbuf v_iov v_filelist fuel ud http request response m = Ok (x, m') ->
  handles (fw_env (h_world m')) = handles (fw_env (h_world m)).
Proof.
  intros Hrun. pose proof (handler_handles malloc sys handles Hlaw handle Hhandle literal v_buf v_sbuf v_iov v_filelist fuel
    ud http request response m) as Hw. exact (Hw x m' Hrun).
Qed.

Lemma fileserver_closes_witness : exists m',
  dfk_fileserver_handler first_fit refused tiny_sys sample_literal 1 600 640 680 20 1500 500 1300 2000 (fs_memory [47; 97])
    = Ok (err_code dfk_err_sys, m') /\ fw_env (h_world m') = ∅.
Proof.
  destruct (run_value (dfk_fileserver_handler first_fit refused tiny_sys sample_literal 1 600 640 680 20 1500 500 1300 2000)
    (fs_memory [47; 97]) (err_code dfk_err_sys)) as [m' Hrun]; [vm_compute; reflexivity|].
  exists m'. split; [exact Hrun|].
  refine (fileserver_closes first_fit tiny_sys (fun o => o) tiny_law refused _ sample_literal 1 600 640 680 20
    1500 500 1300 2000 (err_code dfk_err_sys) (fs_memory [47; 97]) m' Hrun).
  intros X e. apply keeps_fail.
Defined.

(** C31: a GET of a file that does not exist is answered with 404; of one the
    file system does not tell about for another reason, or if the arena of the
    request has no memory for the path, with 500.  Nothing is sent.  The file is looked for
    under the base path with the path of the request appended as it is. *)
Theorem fileserver_missing {Mem It P E : Type} `{!ListOps Mem It, !ListLaws Mem It} (malloc : bmem -> Z -> Z)
    (Hmalloc : malloc_ok malloc) (handle : forall X, netE X -> M (hmem Mem P (fworld E)) X)
    (sys : forall X, fsE X -> M E X) (literal : String.string -> Z) (v_buf v_sbuf v_iov v_filelist : Z) (fuel : nat)
    (ud http request response errno : Z) (m : hmem Mem P (fworld E)) (r : dfk_http_request_t) (rs : dfk_http_response_t)
    (f : dfk_fileserver_t) (base pth : list Z)
    (Hreq : request <> 0 /\ h_reqs m !! request = Some r) (Hget : method r = DFK_HTTP_GET)
    (Hresp : response <> 0 /\ h_resps m !! response = Some rs)
    (Hfs : ud <> 0 /\ fw_objects (h_world m) !! ud = Some f)
    (Hbase : arena_text m (_request_arena r) (_basepath f) base) (Hbaselen : _basepathlen f = Z.of_nat (length base))
    (Hpath : arena_text m (_request_arena r) (b_data (path r)) pth) (Hpathlen : b_size (path r) = Z.of_nat (length pth))
    (Hlen : Z.of_nat (length base) + Z.of_nat (length pth) < USER_END) (Hfuel : (length base + length pth < fuel)%nat)
    (Hstat : wp (sys _ (Stat (base ++ pth))) (fw_env (h_world m)) (fun s e =>
       s = StatFails /\ wp (sys _ FsErrno) e (fun n _ => n = errno))) :
  exists m' p ar,
    dfk_fileserver_handler malloc handle sys literal v_buf v_sbuf v_iov v_filelist fuel ud http request response m
      = Ok (err_code dfk_err_ok, m') /\
    dfk_arena_alloc malloc (_request_arena r) (Z.of_nat (length base) + Z.of_nat (length pth) + 1)
      (sm_arena (h_str m)) = Ok (p, ar) /\
    h_resps m' !! response = Some (rs{{status :=
      if decide (p <> 0 /\ (errno = ENOENT \/ errno = ENOTDIR)) then 404 else 500}}) /\
    h_sponges m' = h_sponges m.
Proof.
  destruct Hreq as [Hq0 Hr], Hresp as [Hp0 Hrs], Hfs as [Hu0 Hf].
  assert (forall st (m1 : hmem Mem P (fworld E)), h_resps m1 = h_resps m -> h_sponges m1 = h_sponges m ->
    wp (answer response st) m1 (fun x m' => x = err_code dfk_err_ok /\
      h_resps m' !! response = Some (rs{{status := status_code st}}) /\ h_sponges m' = h_sponges m)) as Hanswer.
  { intros st m1 H1 H2. unfold answer. apply wp_bind. eapply wp_update; [done|cbn; rewrite H1; exact Hrs|].
    apply wp_ret. split; [done|]. cbn. by rewrite lookup_insert_eq. }
  assert (wp (dfk_fileserver_handler malloc handle sys literal v_buf v_sbuf v_iov v_filelist fuel ud http request response) m
    (fun x m' => x = err_code dfk_err_ok /\ exists p ar,
      dfk_arena_alloc malloc (_request_arena r) (Z.of_nat (length base) + Z.of_nat (length pth) + 1)
        (sm_arena (h_str m)) = Ok (p, ar) /\
      h_resps m' !! response = Some (rs{{status :=
        if decide (p <> 0 /\ (errno = ENOENT \/ errno = ENOTDIR)) then 404 else 500}}) /\
      h_sponges m' = h_sponges m)) as Hw;
    [|apply wp_run in Hw as (x & m' & Hrun & -> & p & ar & H); by exists m', p, ar].
  unfold dfk_fileserver_handler. apply wp_bind. eapply wp_deref; [done|exact Hr|]. apply wp_if_false; [by rewrite Hget|].
  apply wp_bind. eapply wp_deref; [done|exact Hf|]. apply wp_bind.
  eapply wp_mono; [by eapply make_path_spec|]. intros a m1 [[s ->] [[ar Har] Ha]].
  destruct Ha as [->|[Ha Hb]].
  { apply wp_if_true; [done|]. eapply wp_mono; [by apply Hanswer|]. intros x m' (H1 & H2 & H3). split; [exact H1|].
    exists 0, ar. split; [exact Har|]. split; [|exact H3]. rewrite decide_False by naive_solver. exact H2. }
  apply wp_if_false; [by apply isnull_false|]. apply wp_bind, wp_zoom.
  eapply wp_mono; [apply (c_string_spec (base ++ pth)); [exact Hb| |rewrite length_app; lia]|].
  { apply Forall_app. split; [apply Hbase|apply Hpath]. }
  intros cs b [-> ->]. apply wp_bind, wp_zoom. eapply wp_mono; [exact Hstat|]. intros ? e [-> He].
  apply wp_bind, wp_zoom. eapply wp_mono; [exact He|]. intros n e' ->.
  assert ((errno =? ENOENT) || (errno =? ENOTDIR) = bool_decide (errno = ENOENT \/ errno = ENOTDIR)) as ->.
  { case_bool_decide; lia. }
  case_bool_decide as Hd; (eapply wp_mono; [by apply Hanswer|]); intros x m' (H1 & H2 & H3); (split; [exact H1|]);
    exists a, ar; (split; [exact Har|]); (split; [|exact H3]).
  - rewrite decide_True by done. exact H2.
  - rewrite decide_False by naive_solver. exact H2.
Qed.

Lemma fileserver_missing_witness : exists m m',
  dfk_fileserver_handler first_fit refused tiny_sys sample_literal 1 600 640 680 20 1500 500 1300 2000 m
    = Ok (err_code dfk_err_ok, m') /\ h_resps m' !! 2000 = Some (sample_response{{status := 404}}).
Proof.
  destruct (fs_arena [47; 98]) as (a & Hinit & Hb & Harena).
  assert (forall p bs, bs <> [] -> no_nul bs -> bytes_at (hb (fs_memory0 [47; 98])) p bs -> p + Z.of_nat (length bs) <= USER_END ->
    arena_text (lset harena a (fs_memory0 [47; 98])) 1200 p bs) as Htext.
  { intros p bs H1 H2 H3 H4. split; [done|]. split; [done|]. split; [change (bytes_at (ar_bytes a) p bs); by rewrite Hb|].
    exists [], [], [], (blocks (hb (fs_memory0 [47; 98]))). split; [|by cbn; intros Hf]. apply Harena; [by apply bytes_room|lia|done]. }
  destruct (fileserver_missing first_fit first_fit_ok refused tiny_sys sample_literal 1 600 640 680 20 1500 500 1300 2000 ENOENT
    (lset harena a (fs_memory0 [47; 98])) ((sample_request 0 0 true){{path := Buf 350 2; method := 1; _request_arena := 1200}})
    sample_response (FileServer 340 1 9 8 true) [102] [47; 98]) as (m' & p & ar & Hrun & Hal & Hst & _); try done.
  - apply Htext; [done|by apply (bool_decide_unpack _); vm_compute|by apply bytes_check; vm_compute|by vm_compute].
  - apply Htext; [done|by apply (bool_decide_unpack _); vm_compute|by apply bytes_check; vm_compute|by vm_compute].
  - cbn. lia.
  - exists (lset harena a (fs_memory0 [47; 98])), m'. split; [exact Hrun|].
    rewrite decide_True in Hst; [exact Hst|]. split; [|by left]. intros ->.
    assert (match (dfk_arena_init 1200 9;; dfk_arena_alloc first_fit 1200 4) (lget harena (fs_memory0 [47; 98])) with
      | Ok (p, _) => p =? 0 | Err _ => true end = false) as Hne by (vm_compute; reflexivity).
    unfold mbind, M_bind in Hne. rewrite Hinit in Hne.
    change (dfk_arena_alloc first_fit 1200 4 a = Ok (0, ar)) in Hal. rewrite Hal in Hne. discriminate Hne.
Defined.

(** ** A directory with one file *)

(** The literals of the page, one after the other. *)
Definition page_literals : list (Z * (String.string * list Z)) :=
  [(3000, (item_open, text item_open)); (3100, (item_middle, text item_middle)); (3200, (item_close, text item_close));
   (3300, ("/"%string, text "/"%string));
   (3400, (autoindex_header_1, array_text autoindex_header_1)); (3500, (autoindex_header_2, array_text autoindex_header_2));
   (3600, (autoindex_header_3, array_text autoindex_header_3)); (3700, (autoindex_footer, array_text autoindex_footer))].
Definition page_literal (s : String.string) : Z :=
  foldr (fun t a => if String.eqb s t.2.1 then t.1 else a) 3900 page_literals.

(** The path is "/", the entry "a" at 4000. *)
Definition index_bytes : bmem :=
  put_bytes (d_name_of 4000) [97; 0] (foldr (fun t b => put_bytes t.1 t.2.2 b) (hb (fs_memory0 [47])) page_literals).

Definition index_memory : hmem mem Z (fworld (gset Z)) := lset hbytes index_bytes (fs_memory0 [47]).

Lemma index_lists : exists l σ, arena_among (lset alists l (lset abytes index_bytes (sm_arena (h_str (fs_memory [47]))))) 1200 σ /\
  chains σ !! 20 = Some [4000].
Proof.
  destruct (fs_arena [47]) as (a & Ha & Hb & Harena).
  pose proof (ar_rep _ _ _ _ _ _ _ _ (Harena 340 0 ltac:(split; [lia|intros; lia]) ltac:(lia) ltac:(done))) as Hrep.
  assert (sm_arena (h_str (fs_memory [47])) = a) as Hfs.
  { unfold fs_memory, zoom. rewrite Ha. done. }
  assert (wp (list_init 20;; hook_init 4000;; list_append 20 4000) (ar_lists a) (fun _ l => exists σ, lrep l σ /\
    chains σ = <[20 := [4000]]> (chains (arena_lists 1200 [] [])))) as Hw.
  { apply wp_bind. eapply wp_mono; [by eapply law_init|]. intros [] l1 H1.
    assert (forall k xs, (<[20 := []]> (chains (arena_lists 1200 [] [])) : gmap Z (list Z)) !! k = Some xs -> xs = []) as Hempty.
    { intros k xs. unfold arena_lists. cbn. rewrite !lookup_insert_Some, ?lookup_empty, ?lookup_singleton_Some. intuition congruence. }
    apply wp_bind. eapply wp_mono; [eapply law_hook_init; [exact H1|done|]|].
    { intros k xs Hk%Hempty. subst. by apply not_elem_of_nil. }
    intros [] l2 H2. eapply wp_mono; [eapply (law_append _ _ _ _ [] H2); [by apply lookup_insert_eq|unfold release; cbn; set_solver]|].
    intros [] l3 H3. eexists. split; [exact H3|]. cbn. by rewrite insert_insert_eq. }
  apply wp_run in Hw as ([] & l & _ & σ & Hl & Hch). exists l, σ. rewrite Hfs. rewrite Hch. split; [|by apply lookup_insert_eq].
  split; [done| |exact Hl| |].
  - pose proof (ar_obj _ _ _ _ _ _ _ _ (Harena 340 0 ltac:(split; [lia|intros; lia]) ltac:(lia) ltac:(done))) as Ho. exact Ho.
  - intros k xs x. rewrite Hch. unfold arena_lists. cbn. rewrite !lookup_insert_Some, ?lookup_empty, ?lookup_singleton_Some.
    intros Hk Hx. assert (xs = [4000] \/ xs = []) as [-> | ->] by (intuition congruence); [|by apply not_elem_of_nil in Hx].
    apply list_elem_of_singleton in Hx as ->. exists 35. split; [done|]. by exists (Some 97).
  - exists []. rewrite Hch. split; [|by left]. by vm_compute.
Qed.

(** C29: the index of a directory.  The array has exactly as many elements as are
    filled; they are the pieces of the page, in the order of the list, each
    name twice, with a "/" between the path and the name unless the path ends in
    one; the length that is announced is that of the page; then the array is
    sent, and the answer is 200.  Without memory for the array it is 500. *)
Theorem fileserver_index {Mem It P E : Type} `{!ListOps Mem It, !ListLaws Mem It} (malloc : bmem -> Z -> Z)
    (Hmalloc : malloc_ok malloc) (handle : forall X, netE X -> M (hmem Mem P (fworld E)) X)
    (literal : string -> Z) (v_buf v_sbuf v_filelist : Z) (fuel : nat) (request response : Z)
    (m : hmem Mem P (fworld E)) (r : dfk_http_request_t) (rs : dfk_http_response_t) (pth : list Z) (names : list (list Z))
    (Hready : index_ready literal v_filelist fuel m request response r rs pth names)
    (Hlen : Z.of_nat (length (mjoin (index_pieces pth (separated pth) names))) < SIZE_MOD) :
  let pieces := index_pieces pth (separated pth) names in
  let send := send_index malloc handle literal v_buf v_sbuf v_filelist fuel request response in
  exists ar, grown (hb m) (ar_bytes ar) /\
   (send m = answer response DFK_HTTP_INTERNAL_SERVER_ERROR (lset harena ar m) \/
    exists iov vs, let m1 := page_memory response iov vs rs (Z.of_nat (length (mjoin pieces))) ar m in
      0 < iov /\ Forall2 (block_is m1) vs pieces /\
      send m = (dfk_http_response_writev malloc handle literal v_buf v_sbuf fuel response iov (Z.of_nat (length vs));;
                answer response DFK_HTTP_OK) m1).
Proof.
  intros pieces send. exact (send_index_spec malloc Hmalloc handle literal v_buf v_sbuf v_filelist fuel m
    request response r rs pth names Hready Hlen).
Qed.

Lemma fileserver_index_witness : exists (m : hmem mem Z (fworld (gset Z))) ar,
  grown (hb m) (ar_bytes ar) /\
  let send := send_index first_fit refused page_literal 1 600 20 50 1300 2000 in
  (send m = answer 2000 DFK_HTTP_INTERNAL_SERVER_ERROR (lset harena ar m) \/
   exists iov (vs : list Sponge.dfk_iovec_t) m1, length vs = 12%nat /\
     send m = (dfk_http_response_writev first_fit refused page_literal 1 600 50 2000 iov 12;; answer 2000 DFK_HTTP_OK) m1).
Proof.
  destruct index_lists as (l & σ & Ham & Hfiles).
  set (m := lset harena (lset alists l (lset abytes index_bytes (sm_arena (h_str (fs_memory [47]))))) (fs_memory0 [47])).
  destruct (fileserver_index first_fit first_fit_ok refused page_literal 1 600 20 50 1300 2000 m
    ((sample_request 0 0 true){{path := Buf 350 1; method := 1; _request_arena := 1200}}) sample_response [47] [[97]])
    as (ar & Hg & H).
  - split.
    + by split.
    + by split.
    + split; [done|]. split; [done|]. by apply bytes_check; vm_compute.
    + split; repeat apply Forall_cons_2; try apply Forall_nil_2; by apply bytes_check; vm_compute.
    + exists σ, [4000]. split; [exact Ham|]. split; [done|]. split; [exact Hfiles|].
      apply Forall2_cons_2; [|apply Forall2_nil_2]. split; [by apply bytes_check; vm_compute|].
      split; [by repeat constructor|done].
    + cbn. lia.
    + by vm_compute.
  - by vm_compute.
  - exists m, ar. split; [exact Hg|]. destruct H as [H|(iov & vs & Hiov & Hvs & H)]; [by left|right].
    pose proof (Forall2_length _ _ _ Hvs) as Hl. change (length vs = 12%nat) in Hl. rewrite Hl in H.
    eexists iov, vs, _. split; [exact Hl|exact H].
Defined.
