(* ===== verification/Signal.v ===== *)
(** * [signal.c]: waiting for signals

    A fiber that waits for a signal reads from a pipe of its own, and is in a
    static list meanwhile; the handler of a signal writes to the pipes of the
    fibers in the list.  Calls of the system that only this file makes are
    events of [sys]; those of [read.c], [close.c] and [make_nonblock.c], during
    which other fibers and handlers run, are answered by [handle].  Handlers
    that interrupt the program between two statements are not modelled. *)

From S2P Require Import Prelude ListSpec Error Interact Socket.

Open Scope Z_scope.

(** [Pipe2] makes the ends non-blocking; [Beyond] is the value of the memory
    behind an array. *)
Variant sigE : Type -> Type :=
| Pipe2 : sigE (option (Z * Z))
| Pipe : sigE (option (Z * Z))
| Sigaction (signum : Z) : sigE Z
| WriteByte (fd c : Z) : sigE Z
| Beyond : sigE Z.

(** A [waiting_fiber_t]; its hook comes first, so that [TO_WAITING_FIBER] is
    the identity. *)
Record waiting_fiber_t := WaitingFiber { wfd : Z; signum0 : Z; signum1 : Z; w_dfk : Z }.

Record sigmem (Mem W : Type) := SigMem { g_lists : Mem; g_waiting : gmap Z waiting_fiber_t; g_world : W }.
Arguments SigMem {Mem W}.
Arguments g_lists {Mem W}.
Arguments g_waiting {Mem W}.
Arguments g_world {Mem W}.

Section signal.
Context {Mem It W : Type} `{!ListOps Mem It}.
#[local] Notation gm := (sigmem Mem W).
Context (handle : forall X, netE X -> M gm X) (sys : forall X, sigE X -> M W X) (fuel : nat).
(** [DFK_HAVE_PIPE2]; the static list; a local variable. *)
Context (have_pipe2 : bool) (waiting_fibers v_c : Z).

Definition glists : lens gm Mem := Lens g_lists (fun l m => SigMem l (g_waiting m) (g_world m)).
Definition gworld : lens gm W := Lens g_world (fun w m => SigMem (g_lists m) (g_waiting m) w).
Definition waiting_of : heap_of gm waiting_fiber_t := Heap g_waiting (fun h m => SigMem (g_lists m) h (g_world m)).

Definition sig {X} (e : sigE X) : M gm X := zoom gworld (sys X e).
Definition run {A} (t : net A) : M gm A := interact handle fuel t.

(** Whether the fiber waits for the signal. *)
Definition waits_for (wf : waiting_fiber_t) (signum : Z) : bool := (signum0 wf =? signum) || (signum1 wf =? signum).

(** The failure of a write is only logged. *)
Definition sighandler_body (signum : Z) (end_ it : It) : M gm (It + unit) :=
  stop ← zoom glists (list_it_equal it end_);
  if stop : bool then mret (inr tt) else
  wf ← deref waiting_of (it_value it);
  when (waits_for wf signum) (sig (WriteByte (wfd wf) 27);; mret tt);;
  it' ← zoom glists (list_it_next it);
  mret (inl it').

Definition dfk__sighandler (signum : Z) : M gm unit :=
  it ← zoom glists (list_begin waiting_fibers);
  end_ ← zoom glists (list_end waiting_fibers);
  loop fuel (sighandler_body signum end_) it.

(** The result is the error and the two ends. *)
Definition nonblock_pipe (dfk : Z) (fd : Z * Z) : M gm (Z * (Z * Z)) :=
  let failed err := run (dfk__close dfk fd.1);; run (dfk__close dfk fd.2);; mret (err, fd) in
  err ← run (dfk__make_nonblock dfk fd.1);
  if negb (err =? err_code dfk_err_ok) then failed err else
  err ← run (dfk__make_nonblock dfk fd.2);
  if negb (err =? err_code dfk_err_ok) then failed err else
  mret (err_code dfk_err_ok, fd).

Definition dfk__create_pipe (dfk : Z) : M gm (Z * (Z * Z)) :=
  let failed := run (error_syscall dfk);; mret (err_code dfk_err_sys, (0, 0)) in
  if have_pipe2 then
    r ← sig Pipe2;
    match r with
    | None => failed
    | Some fd => mret (err_code dfk_err_ok, fd)
    end
  else
    r ← sig Pipe;
    match r with
    | None => failed
    | Some fd => nonblock_pipe dfk fd
    end.

(** [signum\[i\]] *)
Definition signal_at (signals : list Z) (i : nat) : M gm Z :=
  match signals !! i with
  | Some s => mret s
  | None => sig Beyond
  end.

(** The loop over [sigaction]: whether all calls succeed. *)
Fixpoint install (signals : list Z) (i n : nat) : M gm bool :=
  match n with
  | O => mret true
  | S n =>
      s ← signal_at signals i;
      r ← sig (Sigaction s);
      if negb (r =? 0) then mret false else install signals (S i) n
  end.

(** The lifetime of [wf] ends. *)
Definition leave (v_wf : Z) : M gm unit :=
  zoom glists (hook_dispose v_wf);;
  dispose waiting_of v_wf.

(** The last loop. *)
Definition close_pipe (dfk finalerr : Z) (fd : Z * Z) : M gm Z :=
  err ← run (dfk__close dfk fd.1);
  let finalerr := if (finalerr =? err_code dfk_err_ok) && negb (err =? err_code dfk_err_ok) then err else finalerr in
  err ← run (dfk__close dfk fd.2);
  mret (if (finalerr =? err_code dfk_err_ok) && negb (err =? err_code dfk_err_ok) then err else finalerr).

(** [signals]: the array [signum]; [v_wf]: the address of [wf]. *)
Definition dfk__sigwait (v_wf dfk : Z) (nsignals : nat) (signals : list Z) : M gm Z :=
  c_assert (nonnull dfk);;
  c_assert (negb (Nat.eqb nsignals 0));;
  pipe ← dfk__create_pipe dfk;
  let '(err, pipefd) := pipe in
  if negb (err =? err_code dfk_err_ok) then mret err else
  s0 ← signal_at signals 0;
  s1 ← (if negb (Nat.eqb nsignals 0) then signal_at signals 1 else mret 0);
  store waiting_of v_wf (WaitingFiber pipefd.2 s0 s1 dfk);;
  zoom glists (hook_init v_wf);;
  zoom glists (list_append waiting_fibers v_wf);;
  installed ← install signals 0 nsignals;
  if negb installed then
    run (error_syscall dfk);;
    run (dfk__close dfk pipefd.1);;
    run (dfk__close dfk pipefd.2);;
    leave v_wf;;
    mret (err_code dfk_err_sys)
  else
  nread ← run (dfk__read dfk pipefd.1 v_c 1);
  let finalerr := if nread <? 0 then err_code dfk_err_sys else err_code dfk_err_ok in
  it ← zoom glists (list_it_from_value waiting_fibers v_wf);
  zoom glists (list_erase waiting_fibers it);;
  finalerr ← close_pipe dfk finalerr pipefd;
  leave v_wf;;
  mret finalerr.

Definition dfk_sigwait (v_wf dfk signum : Z) : M gm Z := dfk__sigwait v_wf dfk 1 [signum].
Definition dfk_sigwait2 (v_wf dfk signum1 signum2 : Z) : M gm Z := dfk__sigwait v_wf dfk 2 [signum1; signum2].

End signal.
