(* ===== verification/SignalTheorems.v ===== *)
(** * What is proved of waiting for signals *)

From S2P Require Import Prelude ListSpec ListSeg ListCommon ListPtr ListPtrSpec ListSim Error Interact Socket Signal.

Open Scope Z_scope.

(** ** The handler *)

Section handler.
Context {Mem It W : Type} `{!ListOps Mem It, !ListLaws Mem It}.
#[local] Notation gm := (sigmem Mem W).
Context (sys : forall X, sigE X -> M W X) (waiting_fibers : Z).

(** One byte into the pipe of every fiber one of whose two signals this is, in
    the order of the list, whatever becomes of the writes. *)
Definition wake (signum : Z) (wf : waiting_fiber_t) : M W unit :=
  if decide (signum = signum0 wf \/ signum = signum1 wf) then sys _ (WriteByte (wfd wf) 27);; mret tt else mret tt.

Fixpoint wake_all (signum : Z) (wfs : list waiting_fiber_t) : M W unit :=
  match wfs with
  | [] => mret tt
  | wf :: wfs => wake signum wf;; wake_all signum wfs
  end.

Lemma waits_for_spec wf signum :
  waits_for wf signum = bool_decide (signum = signum0 wf \/ signum = signum1 wf).
Proof.
  apply eq_true_iff_eq. rewrite bool_decide_eq_true. unfold waits_for. rewrite orb_true_iff, !Z.eqb_eq. naive_solver.
Qed.

Definition recorded (m : gm) (h : Z) (wf : waiting_fiber_t) : Prop := h <> 0 /\ g_waiting m !! h = Some wf.

Lemma handler_turn (m : gm) σ pre x suf it end_ wf signum :
  lrep (g_lists m) σ -> chains σ !! waiting_fibers = Some (pre ++ x :: suf) ->
  it_at it pre (x :: suf) -> it_at end_ (pre ++ x :: suf) [] -> recorded m x wf ->
  exists it', it_at it' (pre ++ [x]) suf /\
    sighandler_body sys signum end_ it m =
      match wake signum wf (g_world m) with
      | Ok (_, w) => Ok (inl it', lset gworld w m)
      | Err f => Err f
      end.
Proof.
  intros Hrep Hch Hit Hend [Hx0 Hx].
  destruct (proj1 (wp_run _ _ _) (law_it_equal _ σ _ _ it pre (x :: suf) end_ _ [] Hrep Hch Hit eq_refl Hend ltac:(by rewrite app_nil_r)))
    as (b & l & Hrun & -> & ->).
  destruct (proj1 (wp_run _ _ _) (law_it_next _ σ _ it pre x suf Hrep Hch Hit)) as (it' & l & Hnext & Hit' & ->).
  assert (deref waiting_of x m = Ok (wf, m)) as Hderef.
  { unfold deref. rewrite decide_False by done. cbn. by rewrite Hx. }
  exists it'. split; [exact Hit'|]. destruct m as [l h w]. cbn in Hrun, Hnext, Hx |- *.
  unfold sighandler_body, mbind, M_bind, zoom. cbn [lget lset glists g_lists]. rewrite Hrun, bool_decide_false by done. cbn.
  rewrite (it_at_value _ _ _ Hit). change (head_or 0 (x :: suf)) with x. rewrite Hderef.
  unfold wake, when, sig, zoom, mbind, M_bind.
  destruct (waits_for wf signum) eqn:Hw; rewrite waits_for_spec in Hw.
  - apply bool_decide_eq_true in Hw. rewrite decide_True by done. cbn.
    destruct (sys _ _ w) as [[r w']|f]; [|done]. cbn. by rewrite Hnext.
  - apply bool_decide_eq_false in Hw. rewrite decide_False by done. cbn. by rewrite Hnext.
Qed.

Lemma handler_loop signum end_ suf : forall (m : gm) pre wfs it fuel,
  Forall2 (recorded m) suf wfs ->
  (exists σ, lrep (g_lists m) σ /\ chains σ !! waiting_fibers = Some (pre ++ suf)) ->
  it_at it pre suf -> it_at end_ (pre ++ suf) [] -> (length suf < fuel)%nat ->
  loop fuel (sighandler_body sys signum end_) it m = zoom gworld (wake_all signum wfs) m.
Proof.
  induction suf as [|x suf IH]; intros m pre wfs it [|fuel] Hwfs (σ & Hrep & Hch) Hit Hend Hfuel; try (cbn in Hfuel; lia).
  - apply Forall2_nil_inv_l in Hwfs as ->.
    destruct (proj1 (wp_run _ _ _) (law_it_equal _ σ _ _ it pre [] end_ _ [] Hrep Hch Hit eq_refl Hend ltac:(by rewrite !app_nil_r)))
      as (b & l & Hrun & -> & ->).
    rewrite (loop_ends fuel _ it tt m m); [by destruct m|]. destruct m as [l h w]. cbn in Hrun.
    unfold sighandler_body, mbind, M_bind, zoom. cbn [lget lset glists g_lists]. by rewrite Hrun.
  - apply Forall2_cons_inv_l in Hwfs as (wf & wfs' & Hx & Hwfs & ->).
    destruct (handler_turn m σ pre x suf it end_ wf signum Hrep Hch Hit Hend Hx) as (it' & Hit' & Hbody).
    cbn [wake_all]. unfold zoom, mbind, M_bind. cbn [lget gworld].
    destruct (wake signum wf (g_world m)) as [[[] w]|f]; [|by apply loop_fails].
    rewrite (loop_turn _ _ _ _ _ _ Hbody).
    assert (pre ++ x :: suf = (pre ++ [x]) ++ suf) as Happ by by rewrite <- app_assoc.
    rewrite Happ in Hch, Hend. rewrite (IH (lset gworld w m) (pre ++ [x]) wfs' it' fuel Hwfs); [|by exists σ|exact Hit'|exact Hend|cbn in Hfuel; lia].
    unfold zoom. by destruct (wake_all _ _ _) as [[b w']|f].
Qed.

End handler.

(** ** The events of a function *)

(** Every event of the tree is one of [ok], whatever the answers are. *)
Definition calls {A} (ok : forall X, netE X -> Prop) (t : net A) : Prop :=
  holds (fun X e (_ : unit) => ok X e) (fun _ _ _ _ _ => True) (fun _ _ => True) t tt.

(** The events during which a fiber does not wait. *)
Definition quiet {X} (e : netE X) : Prop :=
  match e with
  | Read _ _ _ | Io _ _ _ | Suspend _ => False
  | _ => True
  end.

Definition anything (X : Type) (e : netE X) : Prop := True.

Lemma calls_bind {A B} ok (t : net A) (k : A -> net B) : calls ok t -> (forall a, calls ok (k a)) -> calls ok (t ≫= k).
Proof. intros Ht Hk. eapply holds_bind; [exact Ht|]. intros a [] _. apply Hk. Qed.

Lemma calls_ret {A} ok (a : A) : calls ok (mret a).
Proof. by apply holds_ret. Qed.

Lemma calls_call {X} (ok : forall X, netE X -> Prop) (e : netE X) : ok X e -> calls ok (call e).
Proof. intros He. by apply holds_trigger. Qed.

Lemma calls_assert (ok : forall X, netE X -> Prop) b : ok _ AssertFails -> calls ok (n_assert b).
Proof. intros Ha. unfold n_assert. destruct b; [apply calls_ret|]. apply calls_bind; [by apply calls_call|done]. Qed.

(** The functions below are sequences of events and branches. *)
Ltac events :=
  repeat first [apply calls_ret|by apply calls_call|by apply calls_assert|apply calls_bind; [|intros ?]|case_match].

Lemma error_syscall_calls dfk : calls (@quiet) (error_syscall dfk).
Proof. unfold error_syscall. events. Qed.

Lemma close_calls dfk fd : calls (@quiet) (dfk__close dfk fd).
Proof. unfold dfk__close, error_syscall. events. Qed.

Lemma make_nonblock_calls dfk fd : calls (@quiet) (dfk__make_nonblock dfk fd).
Proof. unfold dfk__make_nonblock, error_syscall. events. Qed.

Lemma read_calls dfk fd buf n : calls anything (dfk__read dfk fd buf n).
Proof. unfold dfk__read, io_failed, error_syscall. events. Qed.

Create HintDb quiet.
#[export] Hint Resolve error_syscall_calls close_calls make_nonblock_calls : quiet.

(** ** What other fibers and system calls leave alone *)

Section still.
Context {Mem It W : Type} `{!ListOps Mem It}.
#[local] Notation gm := (sigmem Mem W).
Context (handle : forall X, netE X -> M gm X) (sys : forall X, sigE X -> M W X) (fuel : nat) (have_pipe2 : bool).

Definition still {A} (I : gm -> Prop) (c : M gm A) : Prop := forall m, I m -> wlp c m (fun _ m' => I m').

Lemma still_then {A B} I (c : M gm A) (k : A -> M gm B) (Q : B -> gm -> Prop) m :
  still I c -> I m -> (forall a m', I m' -> wlp (k a) m' Q) -> wlp (c ≫= k) m Q.
Proof. intros Hc Hm Hk. apply wlp_bind. eapply wlp_mono; [by apply Hc|]. intros a m' Hm'. by apply Hk. Qed.

Lemma still_bind {A B} I (c : M gm A) (k : A -> M gm B) : still I c -> (forall a, still I (k a)) -> still I (c ≫= k).
Proof. intros Hc Hk m Hm. by eapply still_then; [..|intros; by apply Hk]. Qed.

Lemma still_ret {A} I (a : A) : still I (mret a).
Proof. intros m Hm. by apply wlp_ret. Qed.

(** An invariant that the environment keeps when it answers. *)
Context (I : gm -> Prop) (Hworld : forall m w, I m -> I (lset gworld w m)).

Lemma still_sig {X} (e : sigE X) : still I (sig sys e).
Proof using Hworld. intros m Hm. apply wlp_zoom. intros x w _. by apply Hworld. Qed.

Lemma still_run {A} (ok : forall X, netE X -> Prop) (t : net A) :
  (forall X (e : netE X), ok X e -> still I (handle X e)) -> calls ok t -> still I (run handle fuel t).
Proof using.
  intros Hhandle. unfold run. revert t. induction fuel as [|n IH]; intros t Ht; cbn [interact]; [by intros m _ a m'|].
  apply holds_unfold in Ht. unfold holdsF in Ht. case_match; [apply still_ret|by apply IH|]. destruct Ht as [Hok Hk].
  apply still_bind; [by apply Hhandle|]. intros x. by apply IH, (Hk x tt).
Qed.

Context (Hquiet : forall X (e : netE X), quiet e -> still I (handle X e)).

Lemma still_quiet {A} (t : net A) : calls (@quiet) t -> still I (run handle fuel t).
Proof using Hquiet. by apply still_run. Qed.

Lemma still_pipe dfk : still I (dfk__create_pipe handle sys fuel have_pipe2 dfk).
Proof using Hquiet Hworld.
  unfold dfk__create_pipe, nonblock_pipe.
  repeat match goal with
  | |- still _ (mret _) => apply still_ret
  | |- still _ (sig _ _) => apply still_sig
  | |- still _ (run _ _ _) => apply still_quiet; auto with quiet
  | |- still _ (_ ≫= _) => apply still_bind; [|intros ?]
  | |- _ => case_match
  end.
Qed.

Lemma still_signal_at signals i : still I (signal_at sys signals i).
Proof using Hworld. unfold signal_at. case_match; [apply still_ret|apply still_sig]. Qed.

Lemma still_install signals n : forall i, still I (install sys signals i n).
Proof using Hworld.
  induction n as [|n IH]; intros i; cbn [install]; [apply still_ret|].
  apply still_bind; [apply still_signal_at|intros sg]. apply still_bind; [apply still_sig|intros r].
  case_match; [apply still_ret|apply IH].
Qed.

Lemma still_close dfk finalerr fd : still I (close_pipe handle fuel dfk finalerr fd).
Proof using Hquiet.
  unfold close_pipe. repeat first [apply still_bind; [apply still_quiet; auto with quiet|intros ?]|apply still_ret].
Qed.

End still.

(** ** The list of waiting fibers *)

(** Where the hook of a fiber stands: nowhere, in the list of waiting fibers with
    the object [wf] around it, or removed from it while its storage still
    lives. *)
Variant place := Outside | Waiting (wf : waiting_fiber_t) | Removed.

Section stands.
Context {Mem It W : Type} `{!ListOps Mem It, !ListLaws Mem It}.
#[local] Notation gm := (sigmem Mem W).
Context (handle : forall X, netE X -> M gm X) (sys : forall X, sigE X -> M W X) (fuel : nat).
Context (have_pipe2 : bool) (waiting_fibers v_c : Z).

(** The handler can run: every hook of the list is that of a live object.  The
    hooks of [ps] are where they are said to be. *)
Definition stands (ps : list (Z * place)) (m : gm) : Prop := exists σ xs,
  lrep (g_lists m) σ /\ chains σ !! waiting_fibers = Some xs /\ (forall x, x ∈ xs -> is_Some (g_waiting m !! x)) /\
  forall h p, (h, p) ∈ ps ->
    match p with Outside => unchained σ h | Waiting wf => h ∈ xs /\ g_waiting m !! h = Some wf | Removed => h ∈ spare σ end.

Lemma stands_world ps m w : stands ps m -> stands ps (lset gworld w m).
Proof. done. Qed.

Lemma enter_spec {A} h wf ps (m : gm) (k : M gm A) (Q : A -> gm -> Prop) :
  valid_addr h -> h ∉ ps.*1 -> stands ((h, Outside) :: ps) m -> (forall m', stands ((h, Waiting wf) :: ps) m' -> wlp k m' Q) ->
  wlp (store waiting_of h wf;; zoom glists (hook_init h);; zoom glists (list_append waiting_fibers h);; k) m Q.
Proof.
  intros Hh Hps (σ & xs & Hrep & Hch & Hlive & Hplace) Hk.
  assert (unchained σ h) as Hun by (apply (Hplace h Outside); set_solver).
  apply wlp_bind, wlp_store. intros _. apply wlp_bind, wlp_zoom.
  eapply wlp_mono; [eapply wp_partial, law_hook_init; [exact Hrep|done|done]|]. intros [] l1 H1.
  apply wlp_bind, wlp_zoom. eapply wlp_mono; [eapply wp_partial, law_append; [exact H1|exact Hch|unfold release; cbn; set_solver]|].
  intros [] l2 H2. apply Hk. exists (rechain waiting_fibers (xs ++ [h]) (occupy h (LSpec (chains σ) (release h σ))) (LSpec (chains σ) (release h σ))), (xs ++ [h]).
  split; [exact H2|]. split; [apply lookup_insert_eq|]. split.
  - intros x Hx. cbn. destruct (decide (x = h)) as [->|Hne]; [by rewrite lookup_insert_eq; eexists|].
    rewrite lookup_insert_ne by done. apply Hlive. set_solver.
  - intros g p Hg. apply elem_of_cons in Hg as [[= -> ->]|Hg]; [split; [set_solver|apply lookup_insert_eq]|].
    assert (g <> h) as Hne by (intros ->; by apply Hps, list_elem_of_fmap; exists (h, p)).
    specialize (Hplace g p ltac:(set_solver)). destruct p.
    + intros l ys. cbn. destruct (decide (l = waiting_fibers)) as [->|Hl].
      * rewrite lookup_insert_eq. intros [= <-]. specialize (Hplace _ _ Hch). set_solver.
      * rewrite lookup_insert_ne by done. apply Hplace.
    + destruct Hplace as [Hx Hw]. split; [set_solver|]. cbn. by rewrite lookup_insert_ne.
    + cbn. unfold occupy, release. cbn. set_solver.
Qed.

Lemma erase_spec {A} h wf ps (m : gm) (k : M gm A) (Q : A -> gm -> Prop) :
  h ∉ ps.*1 -> stands ((h, Waiting wf) :: ps) m -> (forall m', stands ((h, Removed) :: ps) m' -> wlp k m' Q) ->
  wlp (it ← zoom glists (list_it_from_value waiting_fibers h); zoom glists (list_erase waiting_fibers it);; k) m Q.
Proof.
  intros Hps (σ & xs & Hrep & Hch & Hlive & Hplace) Hk.
  assert (h ∈ xs) as (pre & suf & ->)%list_elem_of_split by (apply (Hplace h (Waiting wf)); set_solver).
  pose proof (wf_nodup _ (lrep_wf _ _ Hrep) _ _ Hch) as Hnd.
  apply NoDup_app in Hnd as (_ & Hpre & Hsuf). apply NoDup_cons in Hsuf as [Hsuf _].
  apply wlp_bind, wlp_zoom. eapply wlp_mono; [eapply wp_partial, law_it_from_value; [exact Hrep|exact Hch]|].
  intros it l1 [Hit ->]. apply wlp_bind, wlp_zoom.
  eapply wlp_mono; [eapply wp_partial, law_erase; [exact Hrep|exact Hch|exact Hit]|]. intros [] l2 H2. apply Hk.
  eexists _, (pre ++ suf). split; [exact H2|]. split; [apply lookup_insert_eq|]. split.
  - intros x Hx. apply Hlive. set_solver.
  - intros g p Hg. apply elem_of_cons in Hg as [[= -> ->]|Hg]; [unfold release; cbn; set_solver|].
    assert (g <> h) as Hne by (intros ->; by apply Hps, list_elem_of_fmap; exists (h, p)).
    specialize (Hplace g p ltac:(set_solver)). destruct p.
    + intros l ys. cbn. destruct (decide (l = waiting_fibers)) as [->|Hl].
      * rewrite lookup_insert_eq. intros [= <-]. specialize (Hplace _ _ Hch). set_solver.
      * rewrite lookup_insert_ne by done. apply Hplace.
    + destruct Hplace as [Hx Hw]. split; [set_solver|done].
    + cbn. unfold release. set_solver.
Qed.

Lemma leave_spec h ps (m : gm) : h ∉ ps.*1 -> stands ((h, Removed) :: ps) m ->
  wlp (leave h) m (fun _ m' => stands ((h, Outside) :: ps) m').
Proof.
  intros Hps (σ & xs & Hrep & Hch & Hlive & Hplace). assert (h ∈ spare σ) as Hsp by (apply (Hplace h Removed); set_solver).
  assert (unchained σ h) as Hun by (intros l ys Hl; by eapply wf_spare; [apply (lrep_wf _ _ Hrep)|..]).
  apply wlp_bind, wlp_zoom. eapply wlp_mono; [eapply wp_partial, law_hook_dispose; [exact Hrep|done]|]. intros [] l1 H1.
  apply wlp_dispose. eexists _, xs. split; [exact H1|]. split; [exact Hch|]. split.
  - intros x Hx. cbn. rewrite lookup_delete_ne by (intros ->; by apply (Hun _ _ Hch)). by apply Hlive.
  - intros g p Hg. apply elem_of_cons in Hg as [[= -> ->]|Hg]; [exact Hun|].
    assert (g <> h) as Hne by (intros ->; by apply Hps, list_elem_of_fmap; exists (h, p)).
    specialize (Hplace g p ltac:(set_solver)). destruct p; [done|destruct Hplace; split; [done|]; cbn; by rewrite lookup_delete_ne|]. cbn. unfold occupy. set_solver.
Qed.

(** [sigaction] does not fail. *)
Definition installs : Prop := forall signum w, wlp (sys _ (Sigaction signum)) w (fun r _ => r = 0).

Lemma install_true signals n : installs -> forall i (m : gm), wlp (install sys signals i n) m (fun b _ => b = true).
Proof.
  intros Hin. induction n as [|n IH]; intros i m; cbn [install]; [by apply wlp_ret|].
  apply wlp_bind. intros sg m1 _. apply wlp_bind, wlp_zoom. eapply wlp_mono; [apply Hin|]. intros r w ->. apply IH.
Qed.

(** The signals that the fiber asks for are those of its object. *)
Definition asks (signals : list Z) (wf : waiting_fiber_t) : Prop :=
  (forall s, signals !! 0%nat = Some s -> signum0 wf = s) /\ (forall s, signals !! 1%nat = Some s -> signum1 wf = s).

Lemma signal_at_stands ps signals i (m : gm) : stands ps m ->
  wlp (signal_at sys signals i) m (fun s m' => stands ps m' /\ forall s', signals !! i = Some s' -> s = s').
Proof.
  intros Hm. unfold signal_at. destruct (signals !! i); [apply wlp_ret; naive_solver|].
  apply wlp_zoom. intros s w _. split; [exact Hm|done].
Qed.

Lemma sigwait_stands h dfk n signals ps (m : gm) : valid_addr h -> h ∉ ps.*1 -> installs ->
  (forall p X (e : netE X), quiet e -> still (stands ((h, p) :: ps)) (handle X e)) ->
  (forall wf X (e : netE X), asks signals wf -> still (stands ((h, Waiting wf) :: ps)) (handle X e)) ->
  stands ((h, Outside) :: ps) m ->
  wlp (dfk__sigwait handle sys fuel have_pipe2 waiting_fibers v_c h dfk n signals) m (fun _ m' => stands ((h, Outside) :: ps) m').
Proof.
  intros Hh Hps Hin Hquiet Hwait Hm. unfold dfk__sigwait. apply wlp_bind, wlp_assert. intros _. apply wlp_bind, wlp_assert. intros Hn.
  eapply still_then; [apply still_pipe; [apply stands_world|apply Hquiet]|exact Hm|]. intros [err fd] m1 H1. destruct (negb (err =? _)); [by apply wlp_ret|].
  apply wlp_bind. eapply wlp_mono; [by apply signal_at_stands|]. intros s0 m2 [H2 Hs0].
  rewrite Hn. apply wlp_bind. eapply wlp_mono; [by apply signal_at_stands|]. intros s1 m3 [H3 Hs1].
  apply (enter_spec h _ ps); [done|done|exact H3|]. intros m4 H4. set (wf := WaitingFiber fd.2 s0 s1 dfk) in *.
  apply wlp_bind. intros b m5 Hb. rewrite (install_true signals n Hin 0 m4 b m5 Hb). cbn [negb].
  pose proof (still_install sys (stands ((h, Waiting wf) :: ps)) (stands_world _) signals n 0 m4 H4 b m5 Hb) as H5. cbn beta in H5.
  eapply still_then; [apply (still_run _ _ _ anything); [intros X e _; apply (Hwait wf); split; [exact Hs0|exact Hs1]|apply read_calls]|exact H5|]. intros nread m6 H6.
  apply (erase_spec h wf ps); [done|exact H6|]. intros m7 H7.
  eapply still_then; [apply still_close, Hquiet|exact H7|]. intros e m8 H8.
  apply wlp_bind. eapply wlp_mono; [by apply leave_spec|]. intros u m9 H9. by apply wlp_ret.
Qed.

End stands.

(** ** A hook whose storage is gone *)

(** The check that starts every function of the list reads its last hook. *)
Lemma bind_fails {S A B} (c : M S A) (k : A -> M S B) s f : c s = Err f -> (c ≫= k) s = Err f.
Proof. intros H. unfold mbind, M_bind. by rewrite H. Qed.

Lemma dangling_deref {H} (l : lmem H) h : h <> 0 ->
  deref hooks_of h (LMem (lists l) (delete h (hooks l))) = Err WildPtr.
Proof. intros Hh. unfold deref. rewrite decide_False by done. cbn. by rewrite lookup_delete_eq. Qed.

Lemma dangling_begin (l : mem) σ lst xs h : rep l σ -> chains σ !! lst = Some (xs ++ [h]) ->
  list_begin lst (LMem (lists l) (delete h (hooks l))) = Err WildPtr.
Proof.
  intros Hrep Hch. pose proof (list_ne _ _ Hrep _ _ Hch) as Hne. pose proof (list_at _ _ Hrep _ _ Hch) as Hobj.
  pose proof (chain_nodup _ _ Hrep _ _ Hch) as Hnd. destruct (hook_at _ _ Hrep _ _ Hch xs h [] eq_refl) as [Hh0 _].
  set (l' := LMem _ _). apply bind_fails. change (ends (fun r => r = Err WildPtr) (dfk__list_check_invariants lst) l').
  unfold dfk__list_check_invariants. apply ends_bind, wp_assert; [by apply nonnull_true|].
  apply ends_bind. eapply wp_deref; [done|exact Hobj|]. unfold list_obj. cbn [_head _tail _size]. rewrite last_or_snoc.
  destruct xs as [|x xs]; [|destruct (hook_at _ _ Hrep _ _ Hch [] x (xs ++ [h]) eq_refl) as [Hx0 Hx]];
    cbn [app]; rewrite head_or_cons, !isnull_false by done; cbn [orb].
  - rewrite Z.eqb_refl. by apply bind_fails, dangling_deref.
  - cbn [app] in Hnd. apply NoDup_cons in Hnd as [Hnd _]. assert (x <> h) as Hxh by (intros ->; set_solver).
    rewrite (proj2 (Z.eqb_neq x h)) by done. apply ends_bind. eapply wp_deref; [done| |].
    { cbn. rewrite lookup_delete_ne by done. exact Hx. }
    apply ends_bind, wp_assert; [done|]. by apply bind_fails, dangling_deref.
Qed.

Section dangling.
Context {W : Type}.
#[local] Notation gm := (sigmem mem W).
Context (handle : forall X, netE X -> M gm X) (sys : forall X, sigE X -> M W X) (fuel : nat) (waiting_fibers v_c : Z).
Context (Hquiet : forall X (e : netE X) l, still (fun m => g_lists m = l) (handle X e)).
Context (Hpipe : forall w, wlp (sys _ Pipe2) w (fun r _ => is_Some r)).
Context (Hfail : forall signum w, wlp (sys _ (Sigaction signum)) w (fun r _ => r <> 0)).

Lemma same_world (l : mem) (m : gm) w : g_lists m = l -> g_lists (lset gworld w m) = l.
Proof. done. Qed.

Lemma install_fails signals n i (m : gm) : n <> 0%nat ->
  wlp (install sys signals i n) m (fun b m' => b = false /\ g_lists m' = g_lists m).
Proof using Hfail.
  intros Hn. destruct n as [|n]; [done|]. cbn [install].
  eapply still_then; [apply (still_signal_at sys (fun m' => g_lists m' = g_lists m)), same_world|done|]. intros sg m1 H1.
  apply wlp_bind, wlp_zoom. eapply wlp_mono; [apply Hfail|]. intros r w Hr. rewrite (proj2 (Z.eqb_neq r 0)) by done.
  by apply wlp_ret.
Qed.

Lemma failed_sigwait h dfk n signals (m : gm) σ xs : rep (g_lists m) σ -> chains σ !! waiting_fibers = Some xs ->
  valid_addr h -> unchained σ h ->
  wlp (dfk__sigwait (It := dfk_list_it) handle sys fuel true waiting_fibers v_c h dfk n signals) m (fun x m' => x = err_code dfk_err_sys /\
    exists l σ', rep l σ' /\ chains σ' !! waiting_fibers = Some (xs ++ [h]) /\ g_lists m' = LMem (lists l) (delete h (hooks l))).
Proof using Hquiet Hpipe Hfail.
  intros Hrep Hch Hh Hun. unfold dfk__sigwait, dfk__create_pipe. apply wlp_bind, wlp_assert. intros _. apply wlp_bind, wlp_assert.
  intros Hn%negb_true_iff%Nat.eqb_neq. apply wlp_bind, wlp_bind, wlp_zoom. eapply wlp_mono; [apply Hpipe|]. intros r w [fd ->].
  apply wlp_ret. cbn [negb Z.eqb]. set (l := g_lists m) in *. set (I := fun m' : gm => g_lists m' = l).
  eapply still_then; [apply (still_signal_at sys I), same_world|done|]. intros s0 m2 H2.
  eapply still_then; [|exact H2|]; [destruct (negb _); [apply (still_signal_at sys I), same_world|apply still_ret]|]. intros s1 m3 H3.
  apply wlp_bind, wlp_store. intros _. apply wlp_bind, wlp_zoom. unfold I in H3. cbn [lget glists g_lists hset waiting_of]. rewrite H3.
  eapply wlp_mono; [eapply wp_partial, (law_hook_init _ σ); [exact Hrep|done|done]|]. intros [] l1 H1.
  apply wlp_bind, wlp_zoom. eapply wlp_mono; [eapply wp_partial, law_append; [exact H1|exact Hch|unfold release; cbn; set_solver]|].
  intros [] l2 Hl2. set (m4 := lset glists l2 _). assert (g_lists m4 = l2) as H4 by done. clearbody m4.
  apply wlp_bind. eapply wlp_mono; [by apply install_fails|]. intros b m5 [-> H5]. cbn [negb].
  set (J := fun m' : gm => g_lists m' = l2). assert (J m5) as HJ by (unfold J; congruence).
  assert (forall A (t : net A), calls (@quiet) t -> still J (run handle fuel t)) as Hrun
    by (intros A t Ht; apply still_quiet; [intros; apply Hquiet|exact Ht]).
  eapply still_then; [apply Hrun; auto with quiet|exact HJ|]. intros _ m6 H6. eapply still_then; [apply Hrun; auto with quiet|exact H6|]. intros _ m7 H7.
  eapply still_then; [apply Hrun; auto with quiet|exact H7|]. intros _ m8 H8. apply wlp_bind, wlp_bind, wlp_zoom.
  cbn [hook_dispose ptr_ops]. apply wlp_dispose. apply wlp_dispose, wlp_ret. split; [done|].
  eexists l2, _. split; [exact Hl2|]. split; [apply lookup_insert_eq|]. unfold J in H8. cbn. by rewrite H8.
Qed.

End dangling.

(** ** An example *)

(** [r]: the result of [sigaction]. *)
Definition sample_sys (r : Z) (X : Type) (e : sigE X) : M unit X :=
  match e with
  | Pipe2 => mret (Some (5, 6))
  | Pipe => mret None
  | Sigaction _ => mret r
  | WriteByte _ _ => mret 1
  | Beyond => mret 0
  end.

Definition sample_handle (X : Type) (e : netE X) : M (sigmem mem unit) X :=
  match e with
  | Read _ _ _ => mret 1
  | Close _ => mret 0
  | Errno => mret 22
  | SetSysErrno _ _ => mret tt
  | _ => fail AssertFailed
  end.

Lemma sample_still X (e : netE X) I : still I (sample_handle X e).
Proof. destruct e; first [apply still_ret|by intros m _ a m']. Qed.

Definition sig_memory : sigmem mem unit :=
  SigMem (match dfk_list_init 20 (LMem ∅ ∅) with Ok (_, l) => l | Err _ => LMem ∅ ∅ end) ∅ tt.

Lemma sig_rep : exists σ, rep (g_lists sig_memory) σ /\ chains σ !! 20 = Some [] /\ forall h, unchained σ h.
Proof.
  assert (rep (LMem ∅ ∅) (LSpec ∅ ∅)) as H0 by by repeat split.
  pose proof (law_init _ _ 20 H0 ltac:(done) ltac:(done)) as Hw. apply wp_run in Hw as (u & l & Hrun & Hrep).
  assert (g_lists sig_memory = l) as ->.
  { unfold sig_memory. cbn [g_lists]. change (dfk_list_init 20 (LMem ∅ ∅)) with (list_init 20 (LMem (H := dfk_list_hook_t) ∅ ∅)). by rewrite Hrun. }
  eexists. split; [exact Hrep|]. split; [apply lookup_insert_eq|].
  intros h k xs. cbn. rewrite lookup_insert_Some, lookup_empty. intros [[_ <-]|[_ ?]]; [by apply not_elem_of_nil|done].
Qed.

(** The memory after a run. *)
Definition after {S A} (c : M S A) (s : S) : S := match c s with Ok (_, s') => s' | Err _ => s end.

Definition enlisted (h : Z) (l : mem) : mem := after (dfk_list_hook_init h;; dfk_list_append 20 h) l.

Lemma enlisted_rep (l : mem) σ h xs : rep l σ -> chains σ !! 20 = Some xs -> valid_addr h -> unchained σ h ->
  exists σ', rep (enlisted h l) σ' /\ chains σ' !! 20 = Some (xs ++ [h]) /\ forall g, g <> h -> unchained σ g -> unchained σ' g.
Proof.
  intros Hrep Hch Hh Hun. pose proof (law_hook_init _ _ h Hrep Hh Hun) as Hw. apply wp_run in Hw as (u & l1 & Hrun1 & H1).
  pose proof (law_append _ _ 20 h xs H1 Hch ltac:(unfold release; cbn; set_solver)) as Hw.
  apply wp_run in Hw as (u2 & l2 & Hrun2 & H2).
  assert (enlisted h l = l2) as ->.
  { unfold enlisted, after, mbind, M_bind. change (dfk_list_hook_init h) with (hook_init (Mem := mem) h). rewrite Hrun1.
    change (dfk_list_append 20 h) with (list_append (Mem := mem) 20 h). by rewrite Hrun2. }
  eexists. split; [exact H2|]. split; [apply lookup_insert_eq|]. intros g Hg Hu k ys. cbn.
  destruct (decide (k = 20)) as [->|Hk]; [rewrite lookup_insert_eq; intros [= <-]|rewrite lookup_insert_ne by done; apply Hu].
  specialize (Hu _ _ Hch). set_solver.
Qed.

(** The world is the list of the bytes that were written; the pipe of one of
    the fibers is full. *)
Definition pipes_sys (X : Type) (e : sigE X) : M (list (Z * Z)) X :=
  match e with
  | WriteByte fd c => fun w => Ok (if fd =? 6 then -1 else 1, w ++ [(fd, c)])
  | Pipe2 => mret (Some (5, 6))
  | Pipe => mret None
  | Sigaction _ => mret 0
  | Beyond => mret 0
  end.

(** Three fibers; two of them wait for signal 9, one as its second, one as its
    first signal. *)
Definition waiting_memory : sigmem mem (list (Z * Z)) :=
  SigMem (enlisted 128 (enlisted 96 (enlisted 64 (g_lists sig_memory))))
    {[ 64 := WaitingFiber 6 2 9 9; 96 := WaitingFiber 8 9 3 9; 128 := WaitingFiber 10 2 3 9 ]} [].

(** C33: the handler of a signal writes one byte to the pipe of every fiber that
    waits for the signal (as the first or the second of its signals), in the
    order of the list, goes on if a write fails, and does nothing else. *)
Theorem sighandler_wakes {Mem It W : Type} `{!ListOps Mem It, !ListLaws Mem It} (sys : forall X, sigE X -> M W X)
    (waiting_fibers signum : Z) (fuel : nat) (m : sigmem Mem W) (σ : lspec) (xs : list Z) (wfs : list waiting_fiber_t)
    (Hrep : lrep (g_lists m) σ) (Hch : chains σ !! waiting_fibers = Some xs) (Hwfs : Forall2 (recorded m) xs wfs)
    (Hfuel : (length xs < fuel)%nat) :
  dfk__sighandler sys fuel waiting_fibers signum m = zoom gworld (wake_all sys signum wfs) m.
Proof.
  change (ends (fun r => r = zoom gworld (wake_all sys signum wfs) m) (dfk__sighandler sys fuel waiting_fibers signum) m).
  assert (lset glists (lget glists m) m = m) as Hm by by destruct m.
  unfold dfk__sighandler. apply ends_bind, wp_zoom. eapply wp_mono; [by eapply law_begin|]. intros it l [Hit ->].
  rewrite Hm. apply ends_bind, wp_zoom. eapply wp_mono; [by eapply law_end|]. intros end_ l [Hend ->]. rewrite Hm.
  apply (handler_loop sys waiting_fibers signum end_ xs m []); [done|by exists σ|exact Hit|exact Hend|done].
Qed.

Lemma sighandler_wakes_witness : exists m',
  dfk__sighandler (It := dfk_list_it) pipes_sys 5 20 9 waiting_memory = Ok (tt, m') /\
  g_world m' = [(6, 27); (8, 27)].
Proof.
  destruct sig_rep as (σ0 & Hrep0 & Hch0 & Hun0).
  destruct (enlisted_rep _ _ 64 _ Hrep0 Hch0 ltac:(done) (Hun0 64)) as (σ1 & Hrep1 & Hch1 & Hun1).
  destruct (enlisted_rep _ _ 96 _ Hrep1 Hch1 ltac:(done) (Hun1 96 ltac:(done) (Hun0 96))) as (σ2 & Hrep2 & Hch2 & Hun2).
  destruct (enlisted_rep _ _ 128 _ Hrep2 Hch2 ltac:(done) (Hun2 128 ltac:(done) (Hun1 128 ltac:(done) (Hun0 128))))
    as (σ & Hrep & Hch & _).
  exists (lset gworld [(6, 27); (8, 27)] waiting_memory). split; [|reflexivity].
  etransitivity; [apply (sighandler_wakes pipes_sys 20 9 5 waiting_memory σ [64; 96; 128]
    [WaitingFiber 6 2 9 9; WaitingFiber 8 9 3 9; WaitingFiber 10 2 3 9])|reflexivity].
  - exact Hrep.
  - exact Hch.
  - by repeat constructor.
  - cbn. lia.
Defined.

(** C32: waiting for signals keeps the list of waiting fibers intact, if
    [sigaction] does not fail.  Of the other fibers, which may enter and leave the
    list while this one waits (those of [ps] do not), it is only demanded that
    they keep the hooks of the list alive and leave the hook [h] of this fiber
    where it is; and in a read, during which the fiber waits, this is demanded
    only if [h] is in the list with the signals that are asked for, so that the
    function has to have put it there.  At the end every hook of the list is
    again that of a live object, [h] is in no list, and the hooks of [ps] are
    where they were. *)
Theorem sigwait_keeps_list {Mem It W : Type} `{!ListOps Mem It, !ListLaws Mem It}
    (handle : forall X, netE X -> M (sigmem Mem W) X) (sys : forall X, sigE X -> M W X) (fuel : nat) (have_pipe2 : bool)
    (waiting_fibers v_c h dfk x : Z) (n : nat) (signals : list Z) (ps : list (Z * place)) (m m' : sigmem Mem W)
    (Hquiet : forall p X (e : netE X), quiet e -> still (stands waiting_fibers ((h, p) :: ps)) (handle X e))
    (Hwait : forall wf X (e : netE X), asks signals wf -> still (stands waiting_fibers ((h, Waiting wf) :: ps)) (handle X e))
    (Hinstalls : installs sys) (Hh : valid_addr h) (Hps : h ∉ ps.*1) (Hm : stands waiting_fibers ((h, Outside) :: ps) m)
    (Hrun : dfk__sigwait handle sys fuel have_pipe2 waiting_fibers v_c h dfk n signals m = Ok (x, m')) :
  stands waiting_fibers ((h, Outside) :: ps) m'.
Proof.
  exact (sigwait_stands handle sys fuel have_pipe2 waiting_fibers v_c h dfk n signals ps m Hh Hps Hinstalls Hquiet Hwait Hm x m' Hrun).
Qed.

(** While the fiber waits, another one enters the list with the hook 96. *)
Definition other_enters : M (sigmem mem unit) Z := fun m =>
  match hooks (g_lists m) !! 96 with
  | Some _ => Ok (1, m)
  | None =>
      (store waiting_of 96 (WaitingFiber 8 2 2 9);; zoom glists (dfk_list_hook_init 96);;
       zoom glists (dfk_list_append 20 96);; mret 1) m
  end.

Definition busy_handle (X : Type) (e : netE X) : M (sigmem mem unit) X :=
  match e with
  | Read _ _ _ => other_enters
  | Close _ => mret 0
  | Errno => mret 22
  | SetSysErrno _ _ => mret tt
  | _ => fail AssertFailed
  end.

Lemma stands_weaken (m : sigmem mem unit) hp ps : stands (It := dfk_list_it) 20 (hp :: ps) m -> stands (It := dfk_list_it) 20 ps m.
Proof. intros (σ & xs & Hrep & Hch & Hlive & Hplace). exists σ, xs. split_and!; [done..|]. intros h p Hin. apply Hplace. set_solver. Qed.

Lemma busy_still X (e : netE X) p : still (stands (It := dfk_list_it) 20 [(64, p)]) (busy_handle X e).
Proof.
  destruct e; first [apply still_ret|by intros m _ a m'|idtac]. intros m Hm a m'. cbn [busy_handle]. unfold other_enters.
  destruct (hooks (g_lists m) !! 96) eqn:Hhook; [by intros [= <- <-]|]. revert a m'.
  refine (enter_spec (It := dfk_list_it) 20 96 _ [(64, p)] m _ _ _ _ _ _); [done|cbn; set_solver| |].
  - destruct Hm as (σ & xs & Hrep & Hch & Hlive & Hplace). exists σ, xs. split_and!; [done..|].
    intros g q [[= -> ->]|Hg]%elem_of_cons; [|by apply Hplace].
    intros l ys Hl (pre & suf & ->)%list_elem_of_split. destruct (hook_at _ _ Hrep _ _ Hl pre 96 suf eq_refl) as [_ H].
    by rewrite Hhook in H.
  - intros m' Hm'. apply wlp_ret. by eapply stands_weaken.
Qed.

Lemma sig_stands h : stands (It := dfk_list_it) 20 [(h, Outside)] sig_memory.
Proof.
  destruct sig_rep as (σ & Hrep & Hch & Hun). exists σ, []. split; [exact Hrep|]. split; [exact Hch|].
  split; [by intros y ?%not_elem_of_nil|]. intros g p [= -> ->]%list_elem_of_singleton. apply Hun.
Qed.

Lemma sigwait_keeps_list_witness : exists m',
  dfk_sigwait (It := dfk_list_it) busy_handle (sample_sys 0) 9 true 20 72 64 9 2 sig_memory = Ok (0, m') /\
  g_waiting m' = {[ 96 := WaitingFiber 8 2 2 9 ]} /\ stands (It := dfk_list_it) 20 [(64, Outside)] m'.
Proof.
  exists (after (dfk_sigwait (It := dfk_list_it) busy_handle (sample_sys 0) 9 true 20 72 64 9 2) sig_memory).
  assert (dfk_sigwait (It := dfk_list_it) busy_handle (sample_sys 0) 9 true 20 72 64 9 2 sig_memory = Ok (0,
    after (dfk_sigwait (It := dfk_list_it) busy_handle (sample_sys 0) 9 true 20 72 64 9 2) sig_memory)) as Hrun
    by (vm_compute; reflexivity).
  split; [exact Hrun|]. split; [vm_compute; reflexivity|].
  apply (sigwait_keeps_list busy_handle (sample_sys 0) 9 true 20 72 64 9 0 1 [2] [] sig_memory).
  - intros p X e _. apply busy_still.
  - intros wf X e _. apply busy_still.
  - intros signum w. by apply wlp_ret.
  - clear; done.
  - apply not_elem_of_nil.
  - apply sig_stands.
  - exact Hrun.
Defined.

(** C40: if [sigaction] fails, the fiber returns with an error and leaves its hook,
    whose storage is gone, in the list: from then on the handler of any signal
    follows a wild pointer. *)
Theorem sigwait_dangles {W : Type} (handle : forall X, netE X -> M (sigmem mem W) X) (sys : forall X, sigE X -> M W X)
    (fuel : nat) (waiting_fibers v_c h dfk x : Z) (n : nat) (signals : list Z) (m m' : sigmem mem W) (σ : lspec) (xs : list Z)
    (Hquiet : forall X (e : netE X) l, still (fun m => g_lists m = l) (handle X e))
    (Hpipe : forall w, wlp (sys _ Pipe2) w (fun r _ => is_Some r))
    (Hfail : forall signum w, wlp (sys _ (Sigaction signum)) w (fun r _ => r <> 0))
    (Hrep : rep (g_lists m) σ) (Hch : chains σ !! waiting_fibers = Some xs) (Hh : valid_addr h) (Hun : unchained σ h)
    (Hrun : dfk__sigwait (It := dfk_list_it) handle sys fuel true waiting_fibers v_c h dfk n signals m = Ok (x, m')) :
  x = err_code dfk_err_sys /\
  forall fuel' signum, dfk__sighandler (It := dfk_list_it) sys fuel' waiting_fibers signum m' = Err WildPtr.
Proof.
  destruct (failed_sigwait handle sys fuel waiting_fibers v_c Hquiet Hpipe Hfail h dfk n signals m σ xs Hrep Hch Hh Hun x m' Hrun)
    as [Hx (l & σ' & Hl & Hch' & Hm')].
  split; [exact Hx|]. intros fuel' signum. apply bind_fails. unfold zoom. cbn [lget glists].
  by rewrite Hm', (dangling_begin l σ' waiting_fibers xs h Hl Hch').
Qed.

Lemma sigwait_dangles_witness : exists m',
  dfk_sigwait (It := dfk_list_it) sample_handle (sample_sys (-1)) 9 true 20 72 64 9 9 sig_memory = Ok (err_code dfk_err_sys, m') /\
  dfk__sighandler (It := dfk_list_it) (sample_sys (-1)) 5 20 2 m' = Err WildPtr.
Proof.
  exists (after (dfk_sigwait (It := dfk_list_it) sample_handle (sample_sys (-1)) 9 true 20 72 64 9 9) sig_memory).
  assert (dfk_sigwait (It := dfk_list_it) sample_handle (sample_sys (-1)) 9 true 20 72 64 9 9 sig_memory = Ok (err_code dfk_err_sys,
    after (dfk_sigwait (It := dfk_list_it) sample_handle (sample_sys (-1)) 9 true 20 72 64 9 9) sig_memory)) as Hrun
    by by vm_compute.
  split; [exact Hrun|]. destruct sig_rep as (σ & Hrep & Hch & Hun).
  destruct (sigwait_dangles sample_handle (sample_sys (-1)) 9 20 72 64 9 (err_code dfk_err_sys) 1 [9] sig_memory _ σ []
    ltac:(intros; apply sample_still) ltac:(intros w; apply wlp_ret; by eexists) ltac:(intros signum w; by apply wlp_ret)
    Hrep Hch ltac:(done) (Hun 64) Hrun) as [_ H].
  apply H.
Defined.
