(* ===== verification/Epoll.v ===== *)
(** * [epoll.c]: the event loop on top of [epoll]

    Only one of [select.c] and [epoll.c] is compiled; on Linux the build selects
    this one unless it is told otherwise.  The kernel is the environment: its
    calls are events, answered by [sys] from a state of its own.  As in
    Select, a function is split where it gives up the processor. *)

From S2P Require Import Prelude ListSpec Error Fiber Sync.

Open Scope Z_scope.

(** Linux's values; [DFK_IO_IN], [DFK_IO_OUT] and [DFK_IO_ERR] are the first
    three. *)
Definition EPOLLIN : Z := 1.
Definition EPOLLOUT : Z := 4.
Definition EPOLLERR : Z := 8.
Definition EPOLLHUP : Z := 16.
Definition EINTR : Z := 4.

(** [EpollWait] returns [events] and [data.ptr] of what is ready, or fails. *)
Variant epE : Type -> Type :=
| EpollCreate : epE Z
| EpollAdd (epfd fd events ptr : Z) : epE Z
| EpollDel (epfd fd : Z) : epE Z
| EpollWait (epfd : Z) (maxevents : nat) : epE (option (list (Z * Z)))
| EpollClose (epfd : Z) : epE Z
| EpollErrno : epE Z.

Record dfk_epoll_arg_t := EpollArg { yieldback : Z; events : Z; ea_fd : Z }.
Record dfk_eventloop_t := EpollObj { ep_dfk : Z; ep_fd : Z }.

Record epmem (Mem W : Type) := EpMem {
  e_k : kmem Mem;
  e_loops : gmap Z dfk_eventloop_t;
  e_args : gmap Z dfk_epoll_arg_t;
  e_world : W
}.
Arguments EpMem {Mem W}.
Arguments e_k {Mem W}.
Arguments e_loops {Mem W}.
Arguments e_args {Mem W}.
Arguments e_world {Mem W}.

(** Capacity of the array of [dfk__eventloop_main]. *)
Definition MAX_EVENTS : nat := 64.

(** How a turn of the loop [while (1)] ends: it starts again at once, it has
    given up the processor, or the loop is left. *)
Variant turn := Again | Suspended | Left.

Section epoll.
Context {Mem It W : Type} `{!ListOps Mem It}.
#[local] Notation em := (epmem Mem W).
Context (frame : Z -> Z) (sys : forall X, epE X -> M W X).

Definition ekernel : lens em (kmem Mem) := Lens e_k (fun k m => EpMem k (e_loops m) (e_args m) (e_world m)).
Definition eworld : lens em W := Lens e_world (fun w m => EpMem (e_k m) (e_loops m) (e_args m) w).
Definition loops_of : heap_of em dfk_eventloop_t := Heap e_loops (fun h m => EpMem (e_k m) h (e_args m) (e_world m)).
Definition args_of : heap_of em dfk_epoll_arg_t := Heap e_args (fun h m => EpMem (e_k m) (e_loops m) h (e_world m)).

Definition ep {X} (e : epE X) : M em X := zoom eworld (sys X e).

(** [DFK_ERROR_SYSCALL] *)
Definition error_syscall (dfk : Z) : M em unit :=
  e ← ep EpollErrno;
  zoom ekernel (update dfks_of dfk (set_sys_errno e)).

(** [DFK_SUSPEND], [DFK_IOSUSPEND], [DFK_IORESUME], [DFK_THIS_FIBER] *)
Definition suspend (dfk : Z) : M em unit := zoom ekernel (s ← scheduler_of dfk; dfk__suspend s).
Definition iosuspend (dfk : Z) : M em unit := zoom ekernel (s ← scheduler_of dfk; dfk__iosuspend s).
Definition ioresume (fiber : Z) : M em unit :=
  zoom ekernel (y ← deref fibers_of fiber; s ← scheduler_of (f_dfk y); dfk__ioresume s fiber).
Definition this_fiber (dfk : Z) : M em Z := zoom ekernel (s ← scheduler_of dfk; dfk__this_fiber s).

Definition dfk__eventloop_init (epoll dfk : Z) : M em Z :=
  c_assert (nonnull epoll);;
  c_assert (nonnull dfk);;
  fd ← ep EpollCreate;
  if fd =? -1 then
    error_syscall dfk;;
    mret (err_code dfk_err_sys)
  else
    store loops_of epoll (EpollObj dfk fd);;
    mret (err_code dfk_err_ok).

Definition dfk__eventloop_free (epoll : Z) : M em Z :=
  c_assert (nonnull epoll);;
  l ← deref loops_of epoll;
  c_assert (negb (ep_fd l =? 0));;
  ret ← ep (EpollClose (ep_fd l));
  if ret <? 0 then
    error_syscall (ep_dfk l);;
    mret (err_code dfk_err_sys)
  else mret (err_code dfk_err_ok).

Definition set_events (n : Z) (a : dfk_epoll_arg_t) : dfk_epoll_arg_t := EpollArg (yieldback a) n (ea_fd a).

(** The loop over [fds]; an error of [epoll_ctl] leaves it. *)
Fixpoint deliver (dfk epfd : Z) (fds : list (Z * Z)) : M em unit :=
  match fds with
  | [] => mret tt
  | (evs, arg) :: fds =>
      update args_of arg (set_events evs);;
      a ← deref args_of arg;
      ioresume (yieldback a);;
      a ← deref args_of arg;
      ret ← ep (EpollDel epfd (ea_fd a));
      if ret =? -1 then error_syscall dfk else deliver dfk epfd fds
  end.

(** The body of [while (1)]. *)
Definition eventloop_turn (epoll dfk : Z) : M em turn :=
  l ← deref loops_of epoll;
  ready ← ep (EpollWait (ep_fd l) MAX_EVENTS);
  match ready with
  | None =>
      e ← ep EpollErrno;
      if e =? EINTR then mret Again else
      error_syscall dfk;;
      mret Left
  | Some [] =>
      suspend dfk;;
      mret Suspended
  | Some fds =>
      deliver dfk (ep_fd l) fds;;
      suspend dfk;;
      mret Suspended
  end.

(** The fiber of the loop from its start, or from where it was resumed, until
    it gives up the processor; [false] when its function returns. *)
Definition dfk__eventloop_main (fuel : nat) (fiber epoll : Z) : M em bool :=
  c_assert (nonnull fiber);;
  dfk ← zoom ekernel (f ← deref fibers_of fiber; mret (f_dfk f));
  c_assert (nonnull dfk);;
  c_assert (nonnull epoll);;
  l ← deref loops_of epoll;
  c_assert (ep_dfk l =? dfk);;
  c_assert (negb (ep_fd l =? 0));;
  loop fuel (fun _ : unit =>
    r ← eventloop_turn epoll dfk;
    match r with
    | Again => mret (inl tt)
    | Suspended => mret (inr true)
    | Left => mret (inr false)
    end) tt.

(** [dfk__io] up to the transfer, which is [None]; the variable [arg] lies in
    the frame of the fiber that calls. *)
Definition dfk__io (epoll socket evs : Z) : M em (option Z) :=
  c_assert (nonnull epoll);;
  l ← deref loops_of epoll;
  c_assert (nonnull (ep_dfk l));;
  this ← this_fiber (ep_dfk l);
  let arg := frame this in
  store args_of arg (EpollArg this 0 socket);;
  ret ← ep (EpollAdd (ep_fd l) socket evs arg);
  if ret =? -1 then
    error_syscall (ep_dfk l);;
    zoom ekernel (update dfks_of (ep_dfk l) (set_errno (err_code dfk_err_sys)));;
    dispose args_of arg;;
    mret (Some EPOLLERR)
  else
    iosuspend (ep_dfk l);;
    mret None.

(** [return arg.events]: the lifetime of [arg] ends. *)
Definition dfk__io_done (arg : Z) : M em Z :=
  a ← deref args_of arg;
  dispose args_of arg;;
  mret (events a).

End epoll.
