(* ===== verification/EpollTheorems.v ===== *)
(** * What is proved of the event loop on epoll *)

From S2P Require Import Prelude ListSpec ListSeg ListCommon ListPtr ListPtrSpec ListSim Bytes Error Fiber Sync Epoll.

Open Scope Z_scope.

(** ** What the kernel promises *)

(** [interest]: the descriptors that are registered, with [events] and
    [data.ptr].  A descriptor is registered once; what is ready was registered;
    the removal of a descriptor that is registered does not fail. *)
Record epoll_law {W} (sys : forall X, epE X -> M W X) (interest : W -> gmap Z (Z * Z)) (epfd : Z) : Prop := EpollLaw {
  law_add fd evs p w : wp (sys _ (EpollAdd epfd fd evs p)) w (fun r w' =>
    r = -1 /\ interest w' = interest w \/
    r = 0 /\ interest w !! fd = None /\ interest w' = <[fd := (evs, p)]> (interest w));
  law_del fd w : is_Some (interest w !! fd) ->
    wp (sys _ (EpollDel epfd fd)) w (fun r w' => r = 0 /\ interest w' = delete fd (interest w));
  law_wait n w : wp (sys _ (EpollWait epfd n)) w (fun r w' => interest w' = interest w /\
    forall fds, r = Some fds -> exists ready : list Z, NoDup ready /\
      Forall2 (fun fd e => exists evs, interest w !! fd = Some (evs, e.2)) ready fds);
  law_errno w : wp (sys _ EpollErrno) w (fun _ w' => interest w' = interest w)
}.

(** ** The state of the event loop *)


(** The event loop [L] of the context [D], the scheduler [S] and its fiber. *)
Record loop_at := LoopAt { la_loop : Z; la_dfk : Z; la_sched : Z; la_sfiber : Z; la_epfd : Z }.

Section polled.
Context {Mem It W : Type} `{!ListOps Mem It, !ListLaws Mem It}.
#[local] Notation em := (epmem Mem W).
Context (frame : Z -> Z) (sys : forall X, epE X -> M W X) (interest : W -> gmap Z (Z * Z)) (x : loop_at).
#[local] Notation L := (la_loop x).
#[local] Notation D := (la_dfk x).
#[local] Notation SCH := (la_sched x).
#[local] Notation SF := (la_sfiber x).
Context (Hlaw : epoll_law sys interest (la_epfd x)).

Definition fiber_of (m : em) (f : Z) : Prop := f <> 0 /\ exists fo, k_fibers (e_k m) !! f = Some fo /\ f_dfk fo = D.

(** Fiber [f] waits for [fd] with a variable in its frame. *)
Definition waits (m : em) (fd f : Z) : Prop :=
  fiber_of m f /\ frame f <> 0 /\ exists ev, e_args m !! frame f = Some (EpollArg f ev fd).

(** The queue of the pending fibers is [pend]; the fibers that wait and those of
    [others] are in no queue. *)
Definition queues (m : em) (ws : gmap Z Z) (pend : list Z) (others : gset Z) : Prop := exists σ,
  lrep (k_lists (e_k m)) σ /\ chains σ !! s_pending SCH = Some pend /\
  (forall fd f, ws !! fd = Some f -> f_hook f ∈ spare σ) /\ (forall f, f ∈ others -> f_hook f ∈ spare σ).

(** [ws]: the fiber that waits for each descriptor; [pend]: the hooks of the
    pending fibers; [this]: the fiber that executes.  What the kernel has
    registered is exactly [ws], and its pointers are those of the variables of
    the fibers that wait. *)
Record polled (m : em) (ws : gmap Z Z) (pend : list Z) (this : Z) : Prop := Polled {
  po_loop : L <> 0 /\ e_loops m !! L = Some (EpollObj D (la_epfd x)) /\ la_epfd x <> 0;
  po_dfk : D <> 0 /\ exists d, k_dfks (e_k m) !! D = Some d /\ _scheduler d = SCH;
  po_sched : SCH <> 0 /\ exists s, k_scheds (e_k m) !! SCH = Some s /\ s_fiber s = SF /\ s_current s = this /\
    iowait s = Z.of_nat (size ws);
  po_small : Z.of_nat (size ws) < SIZE_MOD - 1;
  po_this : fiber_of m this;
  po_sfiber : fiber_of m SF;
  po_kernel : forall fd, snd <$> interest (e_world m) !! fd = frame <$> ws !! fd;
  po_waiters : forall fd f, ws !! fd = Some f -> waits m fd f /\ f <> this /\ f <> SF;
  po_lists : queues m ws pend {[this; SF]}
}.


(** Changes of the world that keep what is registered. *)
Lemma polled_world m ws pend this w : interest w = interest (e_world m) ->
  polled m ws pend this -> polled (lset eworld w m) ws pend this.
Proof. intros Hw [H1 H2 H3 H4 H5 H6 H7 H8 H9]. split; try done. intros fd. cbn. by rewrite Hw. Qed.

Lemma wp_epoll_scheduler_of m ws pend this (Q : Z -> kmem Mem -> Prop) : polled m ws pend this ->
  Q SCH (e_k m) -> wp (scheduler_of D) (e_k m) Q.
Proof.
  intros [_ [HD (d & Hd & HS)] _ _ _ _ _ _ _] HQ. unfold scheduler_of. apply wp_bind. eapply wp_deref; [done|exact Hd|].
  apply wp_ret. by rewrite HS.
Qed.

(** ** Giving up the processor *)

(** The scheduler's object becomes [s]. *)
Definition with_sched (s : dfk_scheduler_t) (k : kmem Mem) : kmem Mem :=
  hset scheds_of (<[SCH := s]> (k_scheds k)) k.

Lemma yield_spec m ws pend this s (Q : unit -> kmem Mem -> Prop) : polled m ws pend this ->
  Q tt (switch SF (with_sched (set_current SF s) (with_sched s (e_k m)))) ->
  wp (dfk_yield this SF) (with_sched s (e_k m)) Q.
Proof.
  intros [_ [HD (d & Hd & HS)] [HS0 _] _ [Ht0 (fo & Ht & Htd)] [Hf0 (so & Hs & Hsd)] _ _ _] HQ. unfold dfk_yield.
  apply wp_bind, wp_assert; [by apply nonnull_true|]. apply wp_bind, wp_assert; [by apply nonnull_true|].
  apply wp_bind. eapply wp_deref; [done|exact Ht|]. apply wp_bind. rewrite Htd. eapply wp_deref; [done|exact Hd|]. rewrite HS.
  apply wp_bind. unfold dfk__yielded. do 3 (apply wp_bind, wp_assert; [by apply nonnull_true|]).
  eapply wp_update; [done|by apply lookup_insert_eq|]. apply wp_bind. eapply wp_deref; [done|exact Hs|]. by apply wp_modify.
Qed.

(** The processor is the scheduler's; [m] differs from [m0] in the variables of
    fibers and what is registered. *)
Lemma polled_switch m0 m ws ws' pend this s : polled m0 ws pend this -> e_k m = e_k m0 -> e_loops m = e_loops m0 ->
  (forall fd, snd <$> interest (e_world m) !! fd = frame <$> ws' !! fd) -> s_fiber s = SF -> iowait s = Z.of_nat (size ws') ->
  Z.of_nat (size ws') < SIZE_MOD - 1 -> (forall fd f, ws' !! fd = Some f -> waits m fd f /\ f <> SF) ->
  queues m0 ws' pend {[SF]} ->
  polled (lset ekernel (switch SF (with_sched (set_current SF s) (with_sched s (e_k m)))) m) ws' pend SF.
Proof.
  intros [H1 H2 [H3 _] H4 H5 H6 H7 H8 _] Hk Hl Hi Hsf Hio Hsz Hws Hq. unfold fiber_of in *.
  split; unfold fiber_of; cbn; rewrite ?Hk, ?Hl; try done.
  - split; [done|]. eexists. split; [by apply lookup_insert_eq|]. by rewrite <- Hio.
  - intros fd f Hf. destruct (Hws fd f Hf) as [(Hf1 & Hf2) Hne]. split; [|done]. split; [|done].
    destruct Hf1 as [Hf0 Hf1]. split; [done|]. rewrite Hk in Hf1. exact Hf1.
  - destruct Hq as (σ & Hq1 & Hq2 & Hq3 & Hq4). exists σ. repeat split; try done. set_solver.
Qed.



(** The fiber that executes was registered for [fd]. *)
Lemma iosuspend_spec m0 m ws pend fd this (Q : unit -> em -> Prop) : polled m0 ws pend this ->
  e_k m = e_k m0 -> e_loops m = e_loops m0 -> ws !! fd = None -> this <> SF -> Z.of_nat (size ws) < SIZE_MOD - 2 ->
  (forall g, snd <$> interest (e_world m) !! g = frame <$> <[fd := this]> ws !! g) ->
  (forall g f, <[fd := this]> ws !! g = Some f -> waits m g f) ->
  (forall m', polled m' (<[fd := this]> ws) pend SF -> e_args m' = e_args m -> k_at (e_k m') = SF -> Q tt m') ->
  wp (iosuspend D) m Q.
Proof.
  intros Hp Hek Hel Hfd Hne Hsm' Hki Hwi HQ. pose proof Hp as [_ _ [HS0 (s & Hs & Hsf & Hsc & Hio)] Hsm _ _ Hk Hw Hq].
  unfold iosuspend. apply wp_zoom, wp_bind. cbn [lget ekernel]. rewrite Hek. eapply wp_epoll_scheduler_of; [exact Hp|].
  unfold dfk__iosuspend. apply wp_bind, wp_assert; [by apply nonnull_true|]. apply wp_bind. eapply wp_deref; [done|exact Hs|].
  apply wp_bind. unfold dfk__this_fiber. apply wp_bind, wp_assert; [by apply nonnull_true|].
  apply wp_bind. eapply wp_deref; [done|exact Hs|]. apply wp_ret. apply wp_bind. eapply wp_update; [done|exact Hs|].
  rewrite Hsf, Hsc. fold (with_sched (set_iowait (to_size (iowait s + 1)) s) (e_k m0)).
  eapply yield_spec; [exact Hp|]. rewrite <- Hek. apply HQ; [|done|done].
  assert (size (<[fd := this]> ws) = S (size ws)) as Hsize by by apply map_size_insert_None.
  eapply polled_switch; [exact Hp|done|done|exact Hki|done| | | |].
  - cbn. rewrite Hio, Hsize, to_size_small by lia. lia.
  - rewrite Hsize. lia.
  - intros g f Hg. split; [by apply Hwi|]. apply lookup_insert_Some in Hg as [[<- <-]|[_ Hg]]; [done|]. by apply (Hw g).
  - destruct Hq as (σ & Hq1 & Hq2 & Hq3 & Hq4). exists σ. repeat split; try done; [|set_solver].
    intros g f Hg. apply lookup_insert_Some in Hg as [[<- <-]|[_ Hg]]; [set_solver|by eapply Hq3].
Qed.

(** ** Registration *)

(** Members of the context other than the scheduler change. *)
Lemma polled_dfk m ws pend this g (Q : unit -> em -> Prop) : polled m ws pend this -> (forall d, _scheduler (g d) = _scheduler d) ->
  (forall m' d, polled m' ws pend this -> e_args m' = e_args m -> k_dfks (e_k m') !! D = Some (g d) -> Q tt m') ->
  wp (zoom ekernel (update dfks_of D g)) m Q.
Proof.
  intros [H1 [HD (d & Hd & HS)] H3 H4 H5 H6 H7 H8 H9] Hg HQ. apply wp_zoom. eapply wp_update; [done|exact Hd|].
  apply (HQ _ d); [|done|by apply lookup_insert_eq]. split; try done. split; [done|]. eexists.
  split; [by apply lookup_insert_eq|]. by rewrite Hg.
Qed.

Lemma errno_spec m ws pend this (Q : unit -> em -> Prop) : polled m ws pend this ->
  (forall m' e w, sys _ EpollErrno (e_world m) = Ok (e, w) -> polled m' ws pend this -> e_args m' = e_args m ->
    sys_errno <$> (k_dfks (e_k m') !! D) = Some e -> Q tt m') -> wp (error_syscall sys D) m Q.
Proof using Hlaw.
  intros Hp HQ. unfold error_syscall. apply wp_bind, wp_zoom, wp_ran. eapply wp_mono; [apply (law_errno _ _ _ Hlaw)|].
  intros e w Hw Hrun. eapply polled_dfk; [eapply polled_world; [exact Hw|exact Hp]|done|]. intros m' d Hm' Ha Hd.
  eapply HQ; [exact Hrun|exact Hm'|exact Ha|]. by rewrite Hd.
Qed.

(** A variable that no fiber waits with may come and go. *)
Lemma polled_args m ws pend this args : polled m ws pend this ->
  (forall fd f, ws !! fd = Some f -> args !! frame f = e_args m !! frame f) ->
  polled (hset args_of args m) ws pend this.
Proof.
  intros [H1 H2 H3 H4 H5 H6 H7 H8 H9] Ha. split; try done. intros fd f Hf.
  destruct (H8 fd f Hf) as ((Hw1 & Hw2 & ev & Hw3) & Hne). split; [|done]. split; [done|]. split; [done|].
  exists ev. cbn. by rewrite Ha with (fd := fd).
Qed.

Lemma io_spec m ws pend this fd evs : polled m ws pend this -> this <> SF -> frame this <> 0 ->
  (forall g f, ws !! g = Some f -> frame f <> frame this) -> Z.of_nat (size ws) < SIZE_MOD - 2 ->
  wp (dfk__io frame sys L fd evs) m (fun r m' =>
    match r with
    | None => ws !! fd = None /\ polled m' (<[fd := this]> ws) pend SF /\ k_at (e_k m') = SF
    | Some e => e = EPOLLERR /\ polled m' ws pend this /\
        exists d, k_dfks (e_k m') !! D = Some d /\ dfk_errno d = err_code dfk_err_sys
    end).
Proof using Hlaw.
  intros Hp Hne Hf0 Hother Hsm. pose proof Hp as [[HL0 [HL _]] [HD0 _] [HS0 (s & Hs & Hsf & Hsc & Hio)] _ Ht _ Hk Hw Hq].
  unfold dfk__io. apply wp_bind, wp_assert; [by apply nonnull_true|]. apply wp_bind. eapply wp_deref; [done|exact HL|].
  cbn [ep_dfk ep_fd]. apply wp_bind, wp_assert; [by apply nonnull_true|].
  apply wp_bind, wp_zoom, wp_bind. eapply wp_epoll_scheduler_of; [exact Hp|].
  unfold dfk__this_fiber. apply wp_bind, wp_assert; [by apply nonnull_true|]. apply wp_bind. eapply wp_deref; [done|exact Hs|].
  apply wp_ret. rewrite Hsc. apply wp_bind, wp_store; [done|].
  replace (lset ekernel (e_k m) m) with m by by destruct m.
  set (m1 := hset args_of (<[frame this := EpollArg this 0 fd]> (e_args m)) m).
  assert (polled m1 ws pend this) as Hp1.
  { apply polled_args; [exact Hp|]. intros g f Hg. rewrite lookup_insert_ne; [done|]. intros Heq. by eapply Hother. }
  apply wp_bind, wp_zoom. eapply wp_mono; [apply (law_add _ _ _ Hlaw)|].
  intros r w [[-> Hr]|(-> & Hnone & Hr)].
  - apply wp_if_true; [done|]. apply wp_bind.
    eapply errno_spec; [eapply polled_world; [exact Hr|exact Hp1]|]. intros m2 e2 w2 _ H2 Ha2 _.
    apply wp_bind. eapply polled_dfk; [exact H2|done|]. intros m3 d H3 Ha3 Hd.
    assert (e_args m3 = <[frame this := EpollArg this 0 fd]> (e_args m)) as Ha by by rewrite Ha3, Ha2.
    apply wp_bind. eapply wp_dispose; [cbn; rewrite Ha; by apply lookup_insert_eq|]. apply wp_ret. split; [done|].
    split; [|by exists (set_errno (err_code dfk_err_sys) d)]. apply polled_args; [exact H3|].
    intros g f Hg. cbn. rewrite lookup_delete_ne; [done|]. intros Heq. by eapply Hother.
  - apply wp_if_false; [done|]. change (interest (e_world m) !! fd = None) in Hnone.
    assert (ws !! fd = None) as Hfd.
    { pose proof (Hk fd) as Hkfd. rewrite Hnone in Hkfd. by destruct (ws !! fd). }
    apply wp_bind. eapply (iosuspend_spec m); [exact Hp|done|done|exact Hfd|exact Hne|exact Hsm| | |].
    + assert (interest w = <[fd := (evs, frame this)]> (interest (e_world m))) as Hr' by exact Hr.
      intros g. cbn [lset eworld e_world]. rewrite Hr'. destruct (decide (g = fd)) as [->|Hg].
      * by rewrite !lookup_insert_eq.
      * rewrite !lookup_insert_ne by done. apply Hk.
    + intros g f Hg. apply lookup_insert_Some in Hg as [[<- <-]|[_ Hg]].
      * split; [done|]. split; [done|]. exists 0. by apply lookup_insert_eq.
      * by apply (po_waiters _ _ _ _ Hp1).
    + intros m3 H3 _ Hat. apply wp_ret. by split.
Qed.

(** ** Delivery *)



(** ** A turn of the loop *)








End polled.

(** ** An example *)

(** A kernel to which everything is ready. *)
Definition ready_sys (X : Type) (e : epE X) : M (gmap Z (Z * Z)) X :=
  match e with
  | EpollCreate => mret 3
  | EpollAdd _ fd evs p =>
      w ← get;
      match w !! fd with
      | Some _ => mret (-1)
      | None => modify (fun w => <[fd := (evs, p)]> w);; mret 0
      end
  | EpollDel _ fd => modify (fun w => delete fd w);; mret 0
  | EpollWait _ n => w ← get; mret (Some (take n (snd <$> map_to_list w)))
  | EpollClose _ => mret 0
  | EpollErrno => mret 17
  end.

Lemma ready_law epfd : epoll_law ready_sys (fun w => w) epfd.
Proof.
  split.
  - intros fd evs p w. cbn. apply wp_bind, wp_get. destruct (w !! fd) eqn:Hw.
    + apply wp_ret. by left.
    + apply wp_bind, wp_modify, wp_ret. by right.
  - intros fd w _. cbn. apply wp_bind, wp_modify. by apply wp_ret.
  - intros n w. cbn. apply wp_bind, wp_get. apply wp_ret. split; [done|]. intros fds [= <-].
    exists (take n (map_to_list w).*1). split.
    { apply (sublist_NoDup _ (map_to_list w).*1); [apply NoDup_fst_map_to_list|apply sublist_take]. }
    rewrite <- !fmap_take. apply Forall2_fmap, Forall_Forall2_diag, Forall_forall. intros [fd [evs p]] Hin.
    exists evs. cbn. apply elem_of_map_to_list. eapply elem_of_take in Hin as (i & Hi & _). by eapply list_elem_of_lookup_2.
  - intros w. by apply wp_ret.
Qed.

Definition sample_loop : loop_at := LoopAt 700 64 500 1000 3.
Definition sample_frame (f : Z) : Z := f + 100.

(** The scheduler's fiber 1000, that of the loop 2000, and a client 3000 are in
    no queue. *)
Definition sample_lists : mem :=
  match (dfk_list_init 524;; dfk_list_hook_init 1016;; dfk_list_hook_init 2016;; dfk_list_hook_init 3016) (LMem ∅ ∅) with
  | Ok (_, l) => l
  | Err _ => LMem ∅ ∅
  end.

Lemma sample_lists_rep : exists σ, rep sample_lists σ /\ chains σ !! 524 = Some [] /\
  spare σ = {[1016; 2016; 3016]}.
Proof.
  assert (wp (list_init (It := dfk_list_it) 524;; hook_init (It := dfk_list_it) 1016;; hook_init (It := dfk_list_it) 2016;;
      hook_init (It := dfk_list_it) 3016) (LMem ∅ ∅ : mem)
    (fun _ l => lrep l (LSpec (<[524 := []]> ∅) {[1016; 2016; 3016]}))) as Hw.
  { assert (forall h S, unchained (LSpec (<[524 := []]> ∅) S) h) as Hun.
    { intros h S l xs. cbn. rewrite lookup_insert_Some, lookup_empty. intros [[_ <-]|[_ ?]]; [by apply not_elem_of_nil|done]. }
    apply wp_bind. eapply wp_mono; [eapply law_init; [apply no_lists_rep|done|done]|]. intros [] l1 H1.
    apply wp_bind. eapply wp_mono; [eapply law_hook_init; [exact H1|done|apply Hun]|]. intros [] l2 H2.
    apply wp_bind. eapply wp_mono; [eapply law_hook_init; [exact H2|done|apply Hun]|]. intros [] l3 H3.
    eapply wp_mono; [eapply law_hook_init; [exact H3|done|apply Hun]|]. intros [] l4 H4.
    unfold release in H4. cbn in H4. by rewrite union_empty_l_L in H4. }
  apply wp_run in Hw as (u & l & Hrun & Hrep). exists (LSpec (<[524 := []]> ∅) {[1016; 2016; 3016]}).
  split; [|split; [apply lookup_insert_eq|done]]. unfold sample_lists.
  change (dfk_list_init 524;; dfk_list_hook_init 1016;; dfk_list_hook_init 2016;; dfk_list_hook_init 3016)
    with (list_init (It := dfk_list_it) 524;; hook_init (It := dfk_list_it) 1016;; hook_init (It := dfk_list_it) 2016;; hook_init (It := dfk_list_it) 3016).
  by rewrite Hrun.
Qed.

(** [waiting]: the client waits for descriptor 5; otherwise it executes. *)
Definition sample_epmem (waiting : bool) : epmem mem (gmap Z (Z * Z)) :=
  EpMem (KMem sample_lists (BMem ∅ ∅) {[64 := Dfk 500 700 256 0 0]}
      {[1000 := FiberObj 64 0; 2000 := FiberObj 64 0; 3000 := FiberObj 64 0]}
      {[500 := SchedObj 1000 (if waiting then 2000 else 3000) 700 (if waiting then 1 else 0)]} ∅ ∅ ∅ ∅ ∅
      (if waiting then 2000 else 3000) 0)
    {[700 := EpollObj 64 3]} (if waiting then {[3100 := EpollArg 3000 0 5]} else ∅)
    (if waiting then {[5 := (EPOLLIN, 3100)]} else ∅).

Lemma sample_polled (waiting : bool) : polled (It := dfk_list_it) sample_frame (fun w => w) sample_loop (sample_epmem waiting)
  (if waiting then {[5 := 3000]} else ∅) [] (if waiting then 2000 else 3000).
Proof.
  destruct sample_lists_rep as (σ & Hrep & Hch & Hsp).
  assert (forall w f, f ∈ ({[1000; 2000; 3000]} : gset Z) -> fiber_of (Mem := mem) (W := gmap Z (Z * Z)) sample_loop (sample_epmem w) f) as Hfib.
  { intros w f Hf. split; [set_solver|]. exists (FiberObj 64 0). split; [|done].
    rewrite !elem_of_union, !elem_of_singleton in Hf. destruct Hf as [[->| ->]| ->]; done. }
  split.
  - done.
  - split; [done|]. by eexists.
  - split; [done|]. eexists. split; [done|]. by destruct waiting.
  - by destruct waiting.
  - apply Hfib. destruct waiting; set_solver.
  - apply Hfib. set_solver.
  - intros fd. destruct waiting; cbn; [|by rewrite !lookup_empty]. destruct (decide (fd = 5)) as [->|Hne]; [done|].
    by rewrite !lookup_singleton_ne by done.
  - intros fd f Hf. destruct waiting; [|by rewrite lookup_empty in Hf]. apply lookup_singleton_Some in Hf as [<- <-].
    split; [|done]. split; [apply Hfib; set_solver|]. split; [done|]. by exists 0.
  - exists σ. split; [exact Hrep|]. split; [exact Hch|]. rewrite Hsp. split.
    + intros fd f Hf. destruct waiting; [|by rewrite lookup_empty in Hf]. apply lookup_singleton_Some in Hf as [<- <-]. set_solver.
    + intros f Hf. destruct waiting; cbn in Hf; set_solver.
Qed.



(** C10: a fiber that waits for a descriptor nobody waits for is registered, with
    a pointer to its own variable, and gives up the processor; if some fiber
    waits for the descriptor already, or the kernel refuses, the fiber gets
    EPOLLERR and [dfk_err_sys], and nothing is registered.  In each case what the
    kernel holds are the variables of fibers that wait. *)
Theorem epoll_io_registers {Mem It W : Type} `{!ListOps Mem It, !ListLaws Mem It} (frame : Z -> Z)
    (sys : forall X, epE X -> M W X) (interest : W -> gmap Z (Z * Z)) (x : loop_at) (Hlaw : epoll_law sys interest (la_epfd x))
    (m : epmem Mem W) (ws : gmap Z Z) (pend : list Z) (this fd evs : Z)
    (Hp : polled frame interest x m ws pend this) (Hthis : this <> la_sfiber x) (Hframe : frame this <> 0)
    (Hother : forall g f, ws !! g = Some f -> frame f <> frame this) (Hsize : Z.of_nat (size ws) < SIZE_MOD - 2) :
  exists r m', dfk__io frame sys (la_loop x) fd evs m = Ok (r, m') /\
    match r with
    | None => ws !! fd = None /\ polled frame interest x m' (<[fd := this]> ws) pend (la_sfiber x) /\ k_at (e_k m') = la_sfiber x
    | Some e => e = EPOLLERR /\ polled frame interest x m' ws pend this /\
        exists d, k_dfks (e_k m') !! la_dfk x = Some d /\ dfk_errno d = err_code dfk_err_sys
    end.
Proof. by apply wp_run, io_spec. Qed.

Lemma epoll_io_registers_witness : exists r m', dfk__io sample_frame ready_sys 700 5 EPOLLIN (sample_epmem false) = Ok (r, m') /\
  (r = None -> polled (It := dfk_list_it) sample_frame (fun w => w) sample_loop m' {[5 := 3000]} [] 1000).
Proof.
  destruct (epoll_io_registers (It := dfk_list_it) sample_frame ready_sys (fun w => w) sample_loop (ready_law 3) (sample_epmem false)
    ∅ [] 3000 5 EPOLLIN (sample_polled false)) as (r & m' & Hrun & H); [done|done| |done|].
  - intros g f Hf. by rewrite lookup_empty in Hf.
  - exists r, m'. split; [exact Hrun|]. intros ->. apply H.
Defined.
