(* ===== verification/Context.v ===== *)
(** * [context.c]: the life of a context

    [dfk_work] is in Scheduler, [dfk_stop] in TcpServer, where [_stopped] is
    read and written by events.  The other members of a context are not in
    [Fiber.dfk_t]: the callbacks are the allocator, a parameter; the log has no
    effect; the saved context [_comeback] is where [dfk_work] goes on;
    [_terminator] is never read.  The theorem is about programs from their first
    statement on. *)

From S2P Require Import Prelude Bytes ListSpec ListSeg ListCheck ListCommon ListPtr ListPtrSpec ListSim Error Misc.
From S2P Require Import Fiber Sync Select Scheduler Fuel Socket TcpServer.
From S2P Require Import Runtime RuntimeStep RuntimeSched RuntimeSim RuntimeOps RuntimeIo RuntimeLoop RuntimeSpawn.
From S2P Require Import RuntimeRun RuntimeMain RuntimeBoot RuntimeWork RuntimeTurn RuntimeExamples.

Open Scope Z_scope.

Section context.
Context {Mem It : Type} `{!ListOps Mem It}.
(** [DFK_STACK_SIZE] *)
Context (stack_size : Z).

Definition dfk_init (dfk : Z) : M (kmem Mem) unit :=
  c_assert (nonnull dfk);;
  store dfks_of dfk (Dfk 0 0 stack_size 0 0);;
  zoom klists (list_init (_tcp_servers dfk)).

Definition dfk_free (dfk : Z) : M (kmem Mem) unit :=
  c_assert (nonnull dfk).

End context.

Section prepare.
Context (b : setup) (Hok : setup_ok b).
Context `{Mem : Type, It : Type, !ListOps Mem It, !ListLaws Mem It}.
Implicit Types k : kmem Mem.
#[local] Notation D := (b_dfk b).

(** A program makes its context, its mutexes and its condition variables. *)
Definition init_mutexes (ms : list Z) : M (kmem Mem) unit := foldr (fun m c => dfk_mutex_init m D;; c) (mret tt) ms.
Definition init_conds (cs : list Z) : M (kmem Mem) unit := foldr (fun v c => dfk_cond_init v D;; c) (mret tt) cs.
Definition prepare : M (kmem Mem) unit :=
  dfk_init (b_stack b) D;;
  init_mutexes (elements (b_mutexes b));;
  init_conds (elements (b_conds b)).

(** Memory without objects, but with room for the wait queues. *)
Record bare k : Prop := Bare {
  ba_fibers : k_fibers k = ∅;
  ba_fds : k_fds k = ∅;
  ba_mutexes : k_mutexes k = ∅;
  ba_lists : lrep (k_lists k) (LSpec ∅ ∅);
  ba_queues : forall l, waitqueue b l -> is_Some (cells (k_bytes k) !! l)
}.

(** Some of the objects are made; every list is empty. *)
Record made k (k0 : kmem Mem) (ms cs : gset Z) : Prop := Made {
  ma_fibers : k_fibers k = ∅;
  ma_fds : k_fds k = ∅;
  ma_bytes : k_bytes k = k_bytes k0;
  ma_dfk : exists d, k_dfks k !! D = Some d /\ default_stack_size d = b_stack b;
  ma_mutexes : forall m, k_mutexes k !! m = if decide (m ∈ ms) then Some (MutexObj D 0) else None;
  ma_conds : forall c, c ∈ cs -> k_conds k !! c = Some (CondObj D);
  ma_lists : exists σ, lrep (k_lists k) σ /\ (forall l xs, chains σ !! l = Some xs -> xs = []) /\
    (forall m, m ∈ ms -> chains σ !! m_waitqueue m = Some []) /\ (forall c, c ∈ cs -> chains σ !! c_waitqueue c = Some [])
}.

(** A list is initialised. *)
Lemma init_list (l : Mem) σ p (ms cs : gset Z) (Q : unit -> Mem -> Prop) : p <> 0 -> lrep l σ ->
  (forall l xs, chains σ !! l = Some xs -> xs = []) ->
  (forall m, m ∈ ms -> chains σ !! m_waitqueue m = Some []) -> (forall c, c ∈ cs -> chains σ !! c_waitqueue c = Some []) ->
  (forall l' σ', lrep l' σ' -> chains σ' !! p = Some [] -> (forall l xs, chains σ' !! l = Some xs -> xs = []) ->
     (forall m : Z, m ∈ ms -> chains σ' !! m_waitqueue m = Some []) ->
     (forall c : Z, c ∈ cs -> chains σ' !! c_waitqueue c = Some []) -> Q tt l') ->
  wp (list_init p) l Q.
Proof.
  intros Hp Hrep Hall Hms Hcs HQ. eapply wp_mono; [eapply law_init; [exact Hrep|exact Hp|]|].
  { destruct (chains σ !! p) eqn:E; [by eapply Hall|done]. }
  intros [] l' Hl. eapply HQ; [exact Hl|by apply lookup_insert_eq|..].
  - intros q xs. cbn. rewrite lookup_insert_Some. intros [[_ <-]|[_ Hq]]; [done|by eapply Hall].
  - intros m Hm. cbn. destruct (decide (m_waitqueue m = p)) as [->|Hne]; [by apply lookup_insert_eq|].
    rewrite lookup_insert_ne by done. by apply Hms.
  - intros c Hc. cbn. destruct (decide (c_waitqueue c = p)) as [->|Hne]; [by apply lookup_insert_eq|].
    rewrite lookup_insert_ne by done. by apply Hcs.
Qed.

Lemma init_spec k0 : bare k0 -> wp (dfk_init (b_stack b) D) k0 (fun _ k => made k k0 ∅ ∅).
Proof using Hok.
  intros [H1 H2 H3 H4 H5]. pose proof (so_dfk _ Hok) as HD. unfold dfk_init.
  apply wp_bind, wp_assert; [apply nonnull_true; lia|]. apply wp_bind, wp_store; [lia|]. apply wp_zoom.
  eapply (init_list _ _ _ ∅ ∅); [unfold _tcp_servers; lia|exact H4|..].
  - intros l xs. cbn. by rewrite lookup_empty.
  - set_solver.
  - set_solver.
  - intros l' σ' Hl _ Hall _ _. split; cbn; try done.
    + eexists. split; [by apply lookup_insert_eq|done].
    + intros m. by rewrite H3, lookup_empty.
    + exists σ'. split_and!; [done|done|set_solver|set_solver].
Qed.

Lemma mutexes_spec ms : forall k k0 (done_ : gset Z) (Q : unit -> kmem Mem -> Prop), made k k0 done_ ∅ -> (forall m, m ∈ ms -> 0 < m) ->
  (forall k', made k' k0 (done_ ∪ list_to_set ms) ∅ -> Q tt k') -> wp (init_mutexes ms) k Q.
Proof using Hok.
  induction ms as [|m ms IH]; intros k k0 done_ Q [H1 H2 H3 H4 H5 H6 (σ & Hrep & Hall & Hm & Hc)] Hpos HQ.
  - apply wp_ret, HQ. cbn. rewrite union_empty_r_L. split; try done. by exists σ.
  - pose proof (so_dfk _ Hok) as HD. pose proof (Hpos m ltac:(set_solver)) as Hm0. cbn [init_mutexes foldr].
    apply wp_bind. unfold dfk_mutex_init. do 2 (apply wp_bind, wp_assert; [apply nonnull_true; lia|]).
    apply wp_bind, wp_zoom. eapply (init_list _ _ _ done_ ∅); [unfold m_waitqueue; lia|exact Hrep|exact Hall|exact Hm|exact Hc|].
    intros l' σ' Hl Hnew Hall' Hm' Hc'. apply wp_store; [lia|]. apply (IH _ k0 ({[m]} ∪ done_)).
    + split; cbn; try done.
      * intros m'. destruct (decide (m' = m)) as [->|Hne]; [by rewrite lookup_insert_eq, decide_True by set_solver|].
        rewrite lookup_insert_ne, H5 by done. destruct (decide (m' ∈ done_)); [by rewrite decide_True by set_solver|].
        by rewrite decide_False by set_solver.
      * exists σ'. split_and!; [done|done| |done]. intros m' [->%elem_of_singleton|Hd]%elem_of_union; [done|by apply Hm'].
    + intros m' Hm''. apply Hpos. set_solver.
    + intros k' Hk'. apply HQ. cbn. by replace (done_ ∪ ({[m]} ∪ list_to_set ms)) with ({[m]} ∪ done_ ∪ list_to_set ms : gset Z) by set_solver.
Qed.

Lemma conds_spec cs : forall k k0 (ms done_ : gset Z) (Q : unit -> kmem Mem -> Prop), made k k0 ms done_ -> (forall c, c ∈ cs -> 0 < c) ->
  (forall k', made k' k0 ms (done_ ∪ list_to_set cs) -> Q tt k') -> wp (init_conds cs) k Q.
Proof using Hok.
  induction cs as [|c cs IH]; intros k k0 ms done_ Q [H1 H2 H3 H4 H5 H6 (σ & Hrep & Hall & Hm & Hc)] Hpos HQ.
  - apply wp_ret, HQ. cbn. rewrite union_empty_r_L. split; try done. by exists σ.
  - pose proof (so_dfk _ Hok) as HD. pose proof (Hpos c ltac:(set_solver)) as Hc0. cbn [init_conds foldr].
    apply wp_bind. unfold dfk_cond_init. do 2 (apply wp_bind, wp_assert; [apply nonnull_true; lia|]).
    apply wp_bind, wp_zoom. eapply (init_list _ _ _ ms done_); [unfold c_waitqueue; lia|exact Hrep|exact Hall|exact Hm|exact Hc|].
    intros l' σ' Hl Hnew Hall' Hm' Hc'. apply wp_store; [lia|]. apply (IH _ k0 ms ({[c]} ∪ done_)).
    + split; cbn; try done.
      * intros c' Hin. destruct (decide (c' = c)) as [->|Hne]; [by rewrite lookup_insert_eq|].
        rewrite lookup_insert_ne by done. apply H6. set_solver.
      * exists σ'. split_and!; [done|done|done|]. intros c' [->%elem_of_singleton|Hd]%elem_of_union; [done|by apply Hc'].
    + intros c' Hc''. apply Hpos. set_solver.
    + intros k' Hk'. apply HQ. cbn. by replace (done_ ∪ ({[c]} ∪ list_to_set cs)) with ({[c]} ∪ done_ ∪ list_to_set cs : gset Z) by set_solver.
Qed.

(** The caller's part of [dfk_work]'s contract. *)
Lemma prepare_spec k0 : bare k0 -> wp prepare k0 (fun _ k => seeds b k ∅ /\ k_bytes k = k_bytes k0).
Proof using Hok.
  intros Hb. unfold prepare. apply wp_bind. eapply wp_mono; [by apply init_spec|]. intros [] k1 H1.
  apply wp_bind. apply (mutexes_spec _ k1 k0 ∅); [exact H1| |].
  { intros m Hm%elem_of_elements. apply (so_objects _ Hok). set_solver. }
  intros k2 H2. apply (conds_spec _ k2 k0 (∅ ∪ list_to_set (elements (b_mutexes b))) ∅); [exact H2| |].
  { intros c Hc%elem_of_elements. apply (so_objects _ Hok). set_solver. }
  intros k3 [Q1 Q2 Q3 Q4 Q5 Q6 (σ & Hrep & Hall & Hm & Hc)]. split; [|done].
  rewrite !union_empty_l_L, !list_to_set_elements_L in *.
  split; try done; try (intros f Hf; by apply not_elem_of_empty in Hf); try (intros f g Hf; by apply not_elem_of_empty in Hf).
  - intros f. rewrite Q1, lookup_empty. split; [by intros ?%not_elem_of_empty|by intros []].
  - intros f fo. by rewrite Q1, lookup_empty.
  - intros l Hl. rewrite Q3. split; [by apply (ba_queues _ Hb)|]. intros f Hf. by apply not_elem_of_empty in Hf.
  - exists σ. split; [exact Hrep|]. split; [|split; [exact Hall|]].
    + intros l [(m & Hin & ->)|(c & Hin & ->)]; [by apply Hm|by apply Hc].
    + intros f Hf. by apply not_elem_of_empty in Hf.
Qed.

End prepare.

(** C1: a whole program runs safely: it makes its context with [dfk_init], its
    mutexes and its condition variables in memory where nothing is, then starts
    [dfk_work].  The run follows no wild pointer and corrupts no queue.  It
    fails at a bound of the model, or at an assertion if a fiber of this program
    makes a call that it has no right to (an unlock or a wait by a fiber that
    does not own the mutex, the release of a mutex or condition variable in use)
    in a state that the steps of the runtime lead to from the one in which the
    program was started ([program_fault], [misuse]).  It returns
    [dfk_err_nomem] with no fiber left, or [dfk_err_ok] with fibers left that
    nobody can wake. *)
Theorem program_safe (b : setup) (Hok : setup_ok b) (malloc : bmem -> Z -> Z) (Hmalloc : malloc_ok malloc)
    (select : nat -> Z -> list Z -> list Z -> list Z -> select_result) (Hselect : no_select_error select)
    (fuel : nat) (k : kmem mem) (ep : Z -> code) (arg argsize : Z)
    (Hk : bare (It := dfk_list_it) b k) (Harg : arg_ok b k arg argsize)
    (Hep : forall p, user (b_mutexes b) (b_conds b) (ep p)) :
  exists k1, prepare (It := dfk_list_it) b k = Ok (tt, k1) /\
  match dfk_work (It := dfk_list_it) malloc (b_guard b) (fun f => f + b_frame b) select fuel
          (b_sched b) (b_loop b) (b_dfk b) ep arg argsize k1 with
  | Ok (r, k') =>
      (r = err_code dfk_err_nomem /\ forall f, k_fibers k' !! f = None) \/
      (r = err_code dfk_err_ok /\ outcome_ok b k')
  | Err e => program_fault b malloc k1 ep arg argsize e
  end.
Proof.
  pose proof (prepare_spec b Hok k Hk) as Hw. apply wp_run in Hw as ([] & k1 & Hrun & H1 & Hb). exists k1. split; [exact Hrun|].
  apply (dfk_work_spec b Hok malloc Hmalloc select Hselect fuel k1 ep arg argsize H1); [|exact Hep].
  destruct Harg as [->|(H2 & H3 & bs & H4 & H5)]; [by left|right]. split; [done|]. split; [done|]. exists bs. by rewrite Hb.
Qed.

(** The example, from memory with room for two wait queues. *)
Definition bare_memory : kmem mem := KMem (LMem ∅ ∅) (BMem {[1032 := None; 2056 := None]} ∅) ∅ ∅ ∅ ∅ ∅ ∅ ∅ ∅ 0 0.

Lemma program_safe_witness :
  bare (It := dfk_list_it) ex_setup bare_memory /\
  exists k1 k', prepare (It := dfk_list_it) ex_setup bare_memory = Ok (tt, k1) /\
    dfk_work (It := dfk_list_it) first_fit 16 (fun f => f + 120) ex_select 50 136 208 64 ex_main 7 0 k1 =
      Ok (err_code dfk_err_ok, k') /\ outcome_ok ex_setup k'.
Proof.
  assert (bare (It := dfk_list_it) ex_setup bare_memory) as Hb.
  { split; try done; try (by apply no_lists_rep). intros l [->| ->]%ex_queues; by eexists. }
  split; [exact Hb|].
  destruct (program_safe ex_setup ex_setup_ok first_fit first_fit_ok ex_select ex_select_ok 50 bare_memory ex_main 7 0 Hb
    (or_introl eq_refl) ex_main_user) as (k1 & Hrun & H).
  set (w := dfk_work (It := dfk_list_it) first_fit 16 (fun f => f + 120) ex_select 50 136 208 64 ex_main 7 0) in *.
  assert (k1 = final (prepare (It := dfk_list_it) ex_setup) bare_memory) as E by (unfold final; by rewrite Hrun).
  destruct (final_ok w k1 (Z.eqb 0)) as (r & Hr & Er%Z.eqb_eq); [rewrite E; vm_compute; reflexivity|].
  rewrite <- Er in Hr. exists k1, (final w k1). split; [exact Hrun|]. split; [exact Hr|].
  change (match w k1 with
    | Ok (r, k') => (r = err_code dfk_err_nomem /\ forall f, k_fibers k' !! f = None) \/
        (r = err_code dfk_err_ok /\ outcome_ok ex_setup k')
    | Err e => program_fault ex_setup first_fit k1 ex_main 7 0 e end) in H.
  rewrite Hr in H. by destruct H as [[? _]|[_ H]].
Defined.
